(* ===== verification/_CoqProject ===== *)
-Q . S2P
Prelude.v
CString.v
Rtc.v
Pmm.v
Heap.v
Kprintf.v
Stdio.v
Phys.v
Paging.v
Space.v
UserMemory.v
Sched.v
Process.v
Fork.v
Vga.v
Descriptors.v
Drivers.v
Elf.v
Spawn.v
Syscall.v
Keyboard.v
Malloc.v
Objects.v
Vfs.v
Shadowfs.v
ShadowfsFiles.v
Devfs.v
Procfs.v
Boot.v
Serve.v
Kernel.v
Unistd.v
Reports.v
UserFiles.v
Shell.v
Hello.v
