(* ===== verification/Prelude.v ===== *)
(** AcornOS verification library.

    This is the root file: the documentation of the development, and the
    prelude every other file uses.

    * The program

    AcornOS is a small x86-64 kernel with its own user library. A physical
    page allocator (pmm) hands out frames; the kernel heap (mem) hands out
    blocks in a fixed region; paging builds the address spaces of processes
    from frames; processes live on the heap, in a table and in a ring the
    scheduler walks at every timer tick; system calls enter from user mode
    and call all of these; the ELF loader fills an address space from a file.
    Files go through a virtual file system (vfs) that keeps mounts, paths and
    descriptors, and calls three file systems through tables of function
    pointers: shadowFS in memory, devFS for drivers, procFS for processes.
    kernel_main() brings all of it up and starts a demonstration program and
    the shell.

    * The files, in the order they are checked, and what they model

    - Prelude: machine integers (u8 ... i64), the outcome monad, loops, bytes.
    - CString: include/kernel/core/string.h, libc/src/string.c.
    - Rtc: drivers/rtc/rtc.c, down to the bytes of its ports.
    - Pmm: kernel/memory/pmm.c, on the bitmap bytes and the counters.
    - Heap: kernel/memory/mem.c, on the block headers in memory.
    - Kprintf: kernel/core/kprintf.c.  Stdio: libc/src/stdio.c.
    - Phys: bytes and words of physical memory.
    - Paging: kernel/architecture/x86_64/paging.c, on the page table words.
      Space: the user half of an address space as a map; pages added to it.
    - UserMemory: the bytes behind a pointer, by the direct map or through the
      page tables that are loaded.
    - Sched: kernel/processes/scheduler.c and the states of process.h.
    - Process: kernel/processes/process.c; the record [kernel] of the
      scheduler's globals, the address spaces with their memory, and the heap.
    - Fork: process_fork() and the copy of an address space, of Process and
      Paging.
    - Vga: drivers/display/vga.c and the clock of drivers/timer/timer.c.
    - Descriptors: gdt.c, tss.c, pic.c, usermode.c and the tables of idt.c
      (kernel/architecture/x86_64), as bytes.
    - Drivers: drivers/serial/serial.c, drivers/random/random.c.
    - Elf: kernel/core/elf.c.
    - Spawn: process_create(), process_spawn(), process_exec() of process.c,
      with the loader.
    - Syscall: kernel/processes/syscall.c, all handlers and the dispatch.
    - Keyboard: drivers/input/keyboard.c, and irq_handler() of idt.c.
    - Malloc: libc/src/malloc.c, on the bytes of the block headers.
    - Objects: the structures of the file systems as heap objects.
    - Vfs: file_system/vfs/vfs.c.
    - Shadowfs and ShadowfsFiles: file_system/shadowfs/shadowfs.c.
    - Devfs: file_system/devfs/devfs.c, drivers/null/null.c.
    - Procfs: file_system/procfs/procfs.c.
    - Boot: the three file systems as the instance of the interface of Vfs,
      and how kernel_main() (kernel/core/kernel.c) starts them.
    - Serve: the virtual file system as the file system of the processes and
      of the loader; buffers are bytes of an address space.
    - Kernel: kernel_main() whole, on the state of every component.
    - Unistd: libc/src/syscall.c, libc/src/crt0.c, acorn/syscall.h and the
      pushes of syscall_entry.asm on both stacks, down to the handlers of
      Syscall.
    - Reports: isr_handler() (idt.c), the page fault handler (paging.c),
      kernel/core/panic.c, process_print_all() (process.c).
    - UserFiles: write() and read() of a program on a shadowFS file, all the
      way down; theorems only.
    - Shell: apps/shell/shell.c, on the screen of Vga and the files of Vfs.
    - Hello: apps/hello/hello.c.

    A definition has the name of the C function; a loop of the function that
    needs a definition of its own is named after it (kmalloc_loop, walk).

    * How code is modelled

    A C function is a computation [M S A] on the state S of its component: it
    is [Done] with a result and a new state, [Panic] when kpanic() is called,
    [Fault] when the behaviour is undefined (a null, dangling or ill-typed
    pointer, an index out of its array), or [Diverge] when the fuel of a loop
    runs out. [zoom] runs a component in the state of a larger one: the heap
    in the kernel, the kernel in the pair [kw] of the kernel and the file
    systems' [world]. Integers are [Z] with the conversion of their C type
    written at every store. A loop that is not structural has fuel: the
    number of headers (Heap) or objects (Shadowfs) plus one, the length of a
    buffer (CString) or path (Vfs), the number of pages (Space, Elf), the slots
    of the process table (Sched), the number of blocks plus one (Malloc), the
    answers of the clock's port plus one (Rtc); the theorems that give a result prove that the fuel is enough. Functions that
    block until they are woken are given by one pass of their loop; the reader
    of the keyboard, which interrupts can come into, by its statements.

    Interfaces are type classes: [Libc] (the system calls stdio uses),
    [Vfs] and [ElfLoader] (what the system calls use), [Filesystems] with its
    laws [FilesystemLaws] (what the virtual file system asks of a table of
    operations; Boot proves that the three tables obey them), [Drivers] with
    [DriverLaws], [Clock] and [Scratch] (the hardware clock; what an
    uninitialised local holds), [Struct] (a C structure as a heap object),
    [Programs] (starting a program and waiting for it, for the shell; both can
    change the screen), [FileServer] (what the
    loader relies on of the file system; Serve proves it of Vfs on shadowFS),
    [Unix] and [Memory] (what a program sees of the kernel besides [Libc]),
    [Handlers] (the addresses of the drivers' functions).

    * What the theorems show

    - Memory. The heap implements first fit with splitting and merging, and no
      sequence of calls hands out overlapping, misplaced or too small blocks;
      the frame allocator gives the lowest free page, inside usable RAM where
      the memory map's regions begin on page boundaries, and its counter and
      bitmap agree. Mapping a page changes one translation
      and nothing in another address space; a cloned directory is empty with
      the kernel's half; freeing a directory gives back exactly its frames.
    - Processes. The run queue is a ring in arrival order; a tick and a yield
      do to every process, the CPU and the TSS what round robin says; at most
      one process is running; k yields reach the k-th process; no wake-up of
      a waiting parent is lost; a sleeper wakes at its tick and not before.
    - System calls and programs. Bad calls are refused without effect; growing
      the heap maps fresh zeroed pages; the loader gives a process exactly the
      bytes of its file, its arguments and its entry frame, and refuses other
      files. fork() copies an address space and the process around it; spawn()
      of a file makes a process at its entry point or leaves nothing behind;
      exec() replaces the image of the caller or leaves it as it was. A
      program in a shadowFS file is run through the virtual file system.
    - The user library. Each of its system calls enters the kernel with a
      frame that is stated word by word, and is the kernel operation it names
      on the same arguments; write() and read() move bytes between the memory
      the caller's address space maps at the buffer and the file, and change
      nothing else but the caller's two stacks; malloc() is first fit, and
      where it can loop for ever is characterised; the buffered files hand all
      bytes to write() in order, and lose what a short write leaves.
    - Files. A path is resolved by a lookup per component from the longest
      mount; descriptors and open files correspond exactly at all times; a
      shadowFS directory is an association list and a file a sequence of
      bytes, quota, heap and frames accounted for; devFS is the list of its
      devices; what procFS lists is found again, and its files read as the
      text of the process.
    - Start-up and devices. kernel_main() brings up descriptor tables, ports (the
      clock's polls included), memory, processes, file systems, six devices and three standard
      descriptors in one run; the screen shows the text that was printed,
      wrapped and scrolled; keys reach the reader in order, through the one
      slot, whatever interrupts it, and wake it unless one is pressed between
      its test and its block, where a wake-up can be lost; the shell edits its
      line as on paper and runs the command typed.
    - Text and time. Numbers print to digits that read back; the formatter
      writes the reference rendering, truncated; string functions stay in
      their buffers; the clock's registers decode in every mode and the epoch
      counts the days of the calendar.

    Hypotheses state that a component's state is well formed (its invariant),
    that arguments fit their C types, and the documented behaviour of what is
    not in the repository. Each theorem with hypotheses is applied to a
    concrete state in its witness.

    * What is not modelled, and why

    - What the hardware does with the bytes written to its ports (PIC, PIT,
      serial line); the log on the serial line, wherever it is written, so
      that of this line only the first words are stated.
    - Assembly: the boot loader, whose results are given to kernel_main(); the
      register switch (recorded as an event), iret, the loads of the tables.
    - create_user_process(), which nothing calls and which writes through the
      physical address of a frame, so that its effect depends on the page
      tables of the boot loader; the static functions nothing calls
      (child_process(), exec_target(), exec_test(), syscall() of kernel.c);
      shadowfs_stats(), which only prints on the serial line.
    - Interrupts inside a kernel function other than the keyboard's read: the
      kernel runs system calls and ticks as separate steps, which the theorems
      interleave. While the shell's own code runs no other process prints.
    - The stack frames of compiled C functions. The words that the entry code,
      process_create(), the loader and process_fork() put on the kernel stacks
      are modelled.
    - The effects of a device's handler on the hardware behind it are those of
      the interface [Drivers], not composed with Vga and Keyboard.

    Modelled without a theorem of their own: the self test of kernel_main()
    and the start of its processes (Kernel), which depend on an executable
    the build puts at a fixed address, and the commands of the shell that
    print a file. What is left is of these kinds only. *)

From Stdlib Require Export ZArith Lia.
From stdpp Require Export base gmap list strings numbers.

#[global] Open Scope Z_scope.

(** * Machine integers

    An integer of the program is a [Z]; the functions below are the
    conversions the C types perform on every store into such a type. *)

Definition u8 (z : Z) : Z := z mod 256.
Definition u16 (z : Z) : Z := z mod 65536.
Definition u32 (z : Z) : Z := z mod 4294967296.
Definition u64 (z : Z) : Z := z mod 18446744073709551616.
Definition i8 (z : Z) : Z := (z + 128) mod 256 - 128.
Definition i32 (z : Z) : Z := (z + 2147483648) mod 4294967296 - 2147483648.
Definition i64 (z : Z) : Z := (z + 9223372036854775808) mod 18446744073709551616 - 9223372036854775808.

(** [flag f m] is the C condition [f & m] used as a truth value. *)
Definition flag (f m : Z) : bool := negb (Z.land f m =? 0).

(** [word_lia]: linear arithmetic up to the wrap-around of the machine types. *)
Ltac word_lia :=
  unfold u8, u16, u32, u64, i8, i32, i64 in *; Z.div_mod_to_equations; lia.

(** [by_compute]: closed (in)equalities. *)
Ltac by_compute := solve [reflexivity | vm_compute; intuition discriminate].

Lemma u8_range z : 0 <= u8 z < 256.
Proof. word_lia. Qed.

Lemma u32_range z : 0 <= u32 z < 4294967296.
Proof. word_lia. Qed.

Lemma u64_range z : 0 <= u64 z < 18446744073709551616.
Proof. word_lia. Qed.

Lemma i32_range z : -2147483648 <= i32 z < 2147483648.
Proof. word_lia. Qed.

Lemma u8_small z : 0 <= z < 256 -> u8 z = z.
Proof. apply Z.mod_small. Qed.

Lemma u32_small z : 0 <= z < 4294967296 -> u32 z = z.
Proof. apply Z.mod_small. Qed.

Lemma u64_small z : 0 <= z < 18446744073709551616 -> u64 z = z.
Proof. apply Z.mod_small. Qed.

Lemma i32_small z : -2147483648 <= z < 2147483648 -> i32 z = z.
Proof. word_lia. Qed.

(** * Effects

    [M S A] is a computation of the kernel on the state [S]. It ends in one
    of four ways: [Done] with a value and the new state; [Panic], a call of
    kpanic(), which halts the machine; [Fault], an access the C leaves
    undefined (a null or dangling pointer, an index out of its array);
    [Diverge], the fuel of a loop that is not structural ran out. *)

Inductive outcome (S A : Type) : Type :=
  | Done (a : A) (s : S)
  | Panic (msg : string)
  | Fault
  | Diverge.
Arguments Done {S A} a s.
Arguments Panic {S A} msg.
Arguments Fault {S A}.
Arguments Diverge {S A}.

Definition M (S A : Type) : Type := S -> outcome S A.

#[export] Instance M_ret S : MRet (M S) := λ A a s, Done a s.
#[export] Instance M_bind S : MBind (M S) := λ A B f m s,
  match m s with
  | Done a s' => f a s'
  | Panic msg => Panic msg
  | Fault => Fault
  | Diverge => Diverge
  end.

Definition get {S} : M S S := λ s, Done s s.
Definition gets {S A} (f : S -> A) : M S A := λ s, Done (f s) s.
Definition modify {S} (f : S -> S) : M S unit := λ s, Done tt (f s).
Definition kpanic {S A} (msg : string) : M S A := λ _, Panic msg.
Definition fault {S A} : M S A := λ _, Fault.
Definition diverge {S A} : M S A := λ _, Diverge.

(** A partial access: [None] is an access out of bounds. *)
Definition access {S A} (o : option A) : M S A :=
  match o with Some a => mret a | None => fault end.

(** [zoom] runs an operation of a component on its part of a larger state. *)
Definition zoom {S T A} (prj : S -> T) (upd : T -> S -> S) (m : M T A) : M S A := λ s,
  match m (prj s) with
  | Done a t => Done a (upd t s)
  | Panic msg => Panic msg
  | Fault => Fault
  | Diverge => Diverge
  end.

(** [for_up n i body]: for(j = i; j < i + n; j++) body(j). *)
Fixpoint for_up {S} (n : nat) (i : Z) (body : Z -> M S unit) : M S unit :=
  match n with
  | O => mret tt
  | S n => body i ;; for_up n (i + 1) body
  end.

(** ** Rules for the effects *)

Lemma bind_Done {S A B} (m : M S A) (f : A -> M S B) s a s' :
  m s = Done a s' -> (m ≫= f) s = f a s'.
Proof. unfold mbind, M_bind. by intros ->. Qed.

Lemma bind_Panic {S A B} (m : M S A) (f : A -> M S B) s msg :
  m s = Panic msg -> (m ≫= f) s = Panic msg.
Proof. unfold mbind, M_bind. by intros ->. Qed.

Lemma bind_Done_inv {S A B} (m : M S A) (f : A -> M S B) s b s'' :
  (m ≫= f) s = Done b s'' -> ∃ a s', m s = Done a s' ∧ f a s' = Done b s''.
Proof. unfold mbind, M_bind. destruct (m s); naive_solver. Qed.

Lemma Done_inj {S A} (a b : A) (s t : S) : Done a s = Done b t → a = b ∧ s = t.
Proof. by intros [=]. Qed.

Lemma bind_ext {S A B} (m : M S A) (f g : A → M S B) s :
  (∀ a s', f a s' = g a s') → (m ≫= f) s = (m ≫= g) s.
Proof. intros H. unfold mbind, M_bind. by destruct (m s). Qed.

Lemma bind_assoc {S A B D} (x : M S A) (f : A → M S B) (g : B → M S D) s :
  ((x ≫= f) ≫= g) s = (x ≫= λ a, f a ≫= g) s.
Proof. unfold mbind, M_bind. by destruct (x s). Qed.

Lemma bind_ret {S A B} (a : A) (f : A → M S B) s : (mret a ≫= f) s = f a s.
Proof. done. Qed.

Lemma bind_ret_unit {S} (m : M S unit) s : (m ;; mret tt) s = m s.
Proof. unfold mbind, M_bind. by destruct (m s) as [[]| | |]. Qed.

Lemma zoom_Done {S T A} (prj : S -> T) upd (m : M T A) s a t :
  m (prj s) = Done a t -> zoom prj upd m s = Done a (upd t s).
Proof. unfold zoom. by intros ->. Qed.

Lemma zoom_Done_inv {S T A} (prj : S -> T) upd (m : M T A) s a s' :
  zoom prj upd m s = Done a s' -> ∃ t, m (prj s) = Done a t ∧ s' = upd t s.
Proof. unfold zoom. destruct (m (prj s)); naive_solver. Qed.

(** ** Outcomes

    [panics_or m s Q]: from [s] the computation either panics or ends well,
    with a result and a state that satisfy [Q]; it neither faults nor runs out
    of fuel. *)

Definition panics_or {S A} (m : M S A) (s : S) (Q : A → S → Prop) : Prop :=
  (∃ msg, m s = Panic msg) ∨ ∃ a s', m s = Done a s' ∧ Q a s'.

Lemma panics_or_bind {S A B} (m : M S A) (f : A → M S B) s Q R :
  panics_or m s Q → (∀ a s', Q a s' → panics_or (f a) s' R) → panics_or (m ≫= f) s R.
Proof.
  intros [[msg H]|(a & s' & H & Ha)] Hf; [left; exists msg; by apply bind_Panic|].
  unfold panics_or. rewrite (bind_Done _ _ _ _ _ H). by apply Hf.
Qed.

Lemma panics_or_step {S A B} (m : M S A) (f : A → M S B) s a s' R :
  m s = Done a s' → panics_or (f a) s' R → panics_or (m ≫= f) s R.
Proof. intros H Hf. unfold panics_or. by rewrite (bind_Done _ _ _ _ _ H). Qed.

Lemma panics_or_done {S A} (m : M S A) s a s' (Q : A → S → Prop) : m s = Done a s' → Q a s' → panics_or m s Q.
Proof. right. eauto. Qed.

Lemma panics_or_impl {S A} (m : M S A) s (Q R : A → S → Prop) :
  panics_or m s Q → (∀ a s', Q a s' → R a s') → panics_or m s R.
Proof. intros [H|(a & s' & H & Ha)] Hi; [by left|right]. exists a, s'. auto. Qed.

Lemma panics_or_zoom {S T A} (prj : S → T) upd (m : M T A) s Q :
  panics_or m (prj s) Q → panics_or (zoom prj upd m) s (λ a s', ∃ t, s' = upd t s ∧ Q a t).
Proof.
  unfold panics_or, zoom. intros [[msg ->]|(a & t & -> & Ha)]; [left; by exists msg|right; eauto 10].
Qed.

(** [returns m s Q]: the computation ends well, with a result and a state
    that satisfy [Q]. *)
Definition returns {S A} (m : M S A) (s : S) (Q : A → S → Prop) : Prop := ∃ a s', m s = Done a s' ∧ Q a s'.

Lemma returns_bind {S A B} (m : M S A) (f : A → M S B) s Q R :
  returns m s Q → (∀ a s', Q a s' → returns (f a) s' R) → returns (m ≫= f) s R.
Proof. intros (a & s' & H & Ha) Hf. unfold returns. rewrite (bind_Done _ _ _ _ _ H). by apply Hf. Qed.

Lemma returns_step {S A B} (m : M S A) (f : A → M S B) s a s' R :
  m s = Done a s' → returns (f a) s' R → returns (m ≫= f) s R.
Proof. intros H Hf. unfold returns. by rewrite (bind_Done _ _ _ _ _ H). Qed.

Lemma returns_done {S A} (m : M S A) s a s' (Q : A → S → Prop) : m s = Done a s' → Q a s' → returns m s Q.
Proof. intros. by exists a, s'. Qed.

(** [run]: execute the effects whose outcome is known. *)
Ltac run :=
  unfold access, get, gets, modify, kpanic, fault, mbind, M_bind, mret, M_ret;
  cbn beta iota zeta.

(** [done_eq]: two good outcomes agree because their numbers do. *)
Ltac done_eq :=
  repeat match goal with
         | |- Done _ _ = Done _ _ => f_equal
         | |- (_, _) = (_, _) => f_equal
         end; try lia; try done.

(** [bind_inv H]: [H] says a sequence ended well; name what each part did. *)
Ltac bind_inv H :=
  let a := fresh "a" in let s := fresh "st" in let H1 := fresh "Hm" in
  apply bind_Done_inv in H as (a & s & H1 & H).

(** The invariant rule of [for_up]: total (the loop ends well) when the body is. *)
Lemma for_up_rule {S} (P : Z -> S -> Prop) n : ∀ i (body : Z -> M S unit) s,
  P i s ->
  (∀ j t, i <= j < i + Z.of_nat n -> P j t -> ∃ t', body j t = Done tt t' ∧ P (j + 1) t') ->
  ∃ s', for_up n i body s = Done tt s' ∧ P (i + Z.of_nat n) s'.
Proof.
  induction n as [|n IH]; intros i body s HP Hb.
  - exists s. split; [done|]. by rewrite Z.add_0_r.
  - destruct (Hb i s) as (t & Ht & HPt); [lia|done|].
    destruct (IH (i + 1) body t HPt) as (s' & Hs & HPs).
    { intros j t' Hj. apply Hb. lia. }
    exists s'. simpl. rewrite (bind_Done _ _ _ _ _ Ht). split; [done|].
    by replace (i + Z.of_nat (Datatypes.S n)) with (i + 1 + Z.of_nat n) by lia.
Qed.

(** The same for bodies that may panic. *)
Lemma for_up_panic_rule {S} (P : Z -> S -> Prop) n : ∀ i (body : Z -> M S unit) s,
  P i s ->
  (∀ j t, i <= j < i + Z.of_nat n -> P j t ->
     (∃ msg, body j t = Panic msg) ∨ ∃ t', body j t = Done tt t' ∧ P (j + 1) t') ->
  (∃ msg, for_up n i body s = Panic msg) ∨
  ∃ s', for_up n i body s = Done tt s' ∧ P (i + Z.of_nat n) s'.
Proof.
  induction n as [|n IH]; intros i body s HP Hb.
  - right. exists s. split; [done|]. by rewrite Z.add_0_r.
  - destruct (Hb i s) as [[msg Ht]|(t & Ht & HPt)]; [lia|done| |].
    { left. exists msg. simpl. unfold mbind, M_bind. by rewrite Ht. }
    destruct (IH (i + 1) body t HPt) as [[msg Hs]|(s' & Hs & HPs)].
    { intros j t' Hj. apply Hb. lia. }
    { left. exists msg. simpl. by rewrite (bind_Done _ _ _ _ _ Ht). }
    right. exists s'. simpl. rewrite (bind_Done _ _ _ _ _ Ht). split; [done|].
    by replace (i + Z.of_nat (Datatypes.S n)) with (i + 1 + Z.of_nat n) by lia.
Qed.

(** * Strings

    A C string is the list of its bytes (0 to 255) without the NUL. [cs]
    reads it off a Rocq string, for literals. *)

Definition cs (s : string) : list Z :=
  (λ c, Z.of_N (Ascii.N_of_ascii c)) <$> String.list_ascii_of_string s.

Definition is_byte (c : Z) : Prop := 0 <= c < 256.

#[export] Instance is_byte_dec c : Decision (is_byte c).
Proof. unfold is_byte. apply _. Defined.

(** * Loops over pure state *)

(** [loop_up n i body s]: the state after body(i), body(i+1), ..., [n] times. *)
Fixpoint loop_up {S} (n : nat) (i : Z) (body : Z -> S -> S) (s : S) : S :=
  match n with
  | O => s
  | Datatypes.S n => loop_up n (i + 1) body (body i s)
  end.

Lemma loop_up_rule {S} (P : Z -> S -> Prop) n : ∀ i (body : Z -> S -> S) s,
  P i s ->
  (∀ j t, i <= j < i + Z.of_nat n -> P j t -> P (j + 1) (body j t)) ->
  P (i + Z.of_nat n) (loop_up n i body s).
Proof.
  induction n as [|n IH]; intros i body s HP Hb; simpl.
  - by rewrite Z.add_0_r.
  - replace (i + Z.of_nat (Datatypes.S n)) with (i + 1 + Z.of_nat n) by lia.
    apply IH; [apply Hb; [lia|done]|]. intros j t Hj. apply Hb. lia.
Qed.

(** * Bits *)

(** [Z.land b (1 << k)] tests bit [k]. *)
Lemma land_bit b k : 0 <= k → (Z.land b (Z.shiftl 1 k) =? 0) = negb (Z.testbit b k).
Proof.
  intros Hk. rewrite Z.shiftl_1_l. destruct (Z.testbit b k) eqn:Hb; simpl.
  - apply Z.eqb_neq. intros H. apply (f_equal (λ z, Z.testbit z k)) in H.
    by rewrite Z.land_spec, Hb, Z.pow2_bits_true, Z.bits_0 in H by done.
  - apply Z.eqb_eq. apply Z.bits_inj'. intros j Hj.
    rewrite Z.land_spec, Z.bits_0, Z.pow2_bits_eqb by done.
    destruct (Z.eqb_spec k j) as [->|]; [by rewrite Hb|apply andb_false_r].
Qed.

Lemma u8_testbit z k : 0 <= k < 8 → Z.testbit (u8 z) k = Z.testbit z k.
Proof. intros. unfold u8. change 256 with (2 ^ 8). apply Z.mod_pow2_bits_low. lia. Qed.
