(* ===== verification/CString.v ===== *)
(** Strings and byte buffers: include/kernel/core/string.h (the kernel's
    kstr and kmem helpers) and libc/src/string.c (the user library's).

    A buffer is the list of its bytes (0..255); a read or write outside it
    is [None]. A C string lives in a buffer up to its first NUL; its content
    is the list of the bytes before it. Loops run on fuel, the length of the
    buffer they scan: an access past that length is [None] anyway, and the
    theorems say the fuel is enough. char is signed, as on the x86-64 ABI. *)

From S2P Require Import Prelude.

(** * Kernel helpers (string.h) *)

(** while(src[i] && i < max - 1) { dst[i] = src[i]; i++; } dst[i] = 0; *)
Fixpoint kstrcpy_loop (fuel : nat) (dst src : list Z) (max : Z) (i : nat) : option (list Z) :=
  match fuel with
  | O => None
  | S fuel =>
      c ← src !! i;
      guard (i < length dst)%nat;;
      if negb (c =? 0) && (Z.of_nat i <? max - 1)
      then kstrcpy_loop fuel (<[i := c]> dst) src max (S i)
      else Some (<[i := 0]> dst)
  end.

Definition kstrcpy (dst src : list Z) (max : Z) : option (list Z) :=
  kstrcpy_loop (S (length src)) dst src max 0.

(** Both pointers advance together; the result is the difference of the two
    (signed) characters at the first mismatch or NUL. *)
Fixpoint kstrcmp (a b : list Z) : option Z :=
  match a, b with
  | x :: a', y :: b' =>
      if negb (x =? 0) && negb (y =? 0)
      then if negb (x =? y) then Some (i8 x - i8 y) else kstrcmp a' b'
      else Some (i8 x - i8 y)
  | _, _ => None
  end.

Definition kstreq (a b : list Z) : option bool :=
  r ← kstrcmp a b; Some (r =? 0).

Fixpoint kstrlen_loop (fuel : nat) (s : list Z) (i : nat) : option Z :=
  match fuel with
  | O => None
  | S fuel =>
      c ← s !! i;
      if negb (c =? 0) then kstrlen_loop fuel s (S i) else Some (Z.of_nat i)
  end.

Definition kstrlen (s : list Z) : option Z := kstrlen_loop (length s) s 0.

(** for(i = 0; i < n; i++) d[i] = s[i]; [src] and [dst] do not overlap. *)
Fixpoint kmemcpy_loop (n : nat) (i : nat) (dst src : list Z) : option (list Z) :=
  match n with
  | O => Some dst
  | S n =>
      c ← src !! i;
      guard (i < length dst)%nat;;
      kmemcpy_loop n (S i) (<[i := c]> dst) src
  end.

Definition kmemcpy (dst src : list Z) (n : Z) : option (list Z) :=
  kmemcpy_loop (Z.to_nat n) 0 dst src.

Fixpoint kmemset_loop (n : nat) (i : nat) (dst : list Z) (value : Z) : option (list Z) :=
  match n with
  | O => Some dst
  | S n =>
      guard (i < length dst)%nat;;
      kmemset_loop n (S i) (<[i := value]> dst) value
  end.

Definition kmemset (dst : list Z) (value n : Z) : option (list Z) :=
  kmemset_loop (Z.to_nat n) 0 dst (u8 value).

Fixpoint kmemcmp_loop (n : nat) (i : nat) (a b : list Z) : option Z :=
  match n with
  | O => Some 0
  | S n =>
      x ← a !! i;
      y ← b !! i;
      if negb (x =? y) then Some (x - y) else kmemcmp_loop n (S i) a b
  end.

Definition kmemcmp (a b : list Z) (n : Z) : option Z := kmemcmp_loop (Z.to_nat n) 0 a b.

(** * User library (libc/src/string.c) *)

Fixpoint strlen_loop (fuel : nat) (str : list Z) (len : nat) : option Z :=
  match fuel with
  | O => None
  | S fuel =>
      c ← str !! len;
      if negb (c =? 0) then strlen_loop fuel str (S len) else Some (Z.of_nat len)
  end.

Definition strlen (str : list Z) : option Z := strlen_loop (length str) str 0.

(** Copies byte by byte and stops after the NUL; no bound but the buffers. *)
Fixpoint strcpy_loop (fuel : nat) (dst src : list Z) (i : nat) : option (list Z) :=
  match fuel with
  | O => None
  | S fuel =>
      c ← src !! i;
      guard (i < length dst)%nat;;
      if negb (c =? 0) then strcpy_loop fuel (<[i := c]> dst) src (S i)
      else Some (<[i := c]> dst)
  end.

Definition strcpy (dst src : list Z) : option (list Z) := strcpy_loop (length src) dst src 0.

Fixpoint strcmp (a b : list Z) : option Z :=
  match a, b with
  | x :: a', y :: b' =>
      if negb (x =? 0) && (x =? y) then strcmp a' b' else Some (u8 x - u8 y)
  | _, _ => None
  end.

Fixpoint strncmp (a b : list Z) (n : nat) : option Z :=
  match n with
  | O => Some 0
  | S n' =>
      match a, b with
      | x :: a', y :: b' =>
          if negb (x =? 0) && (x =? y) then strncmp a' b' n' else Some (u8 x - u8 y)
      | _, _ => None
      end
  end.

Fixpoint memset_loop (n : nat) (i : nat) (dst : list Z) (value : Z) : option (list Z) :=
  match n with
  | O => Some dst
  | S n =>
      guard (i < length dst)%nat;;
      memset_loop n (S i) (<[i := value]> dst) value
  end.

Definition memset (dst : list Z) (value count : Z) : option (list Z) :=
  memset_loop (Z.to_nat count) 0 dst (u8 value).

Fixpoint memcpy_loop (n : nat) (i : nat) (dst src : list Z) : option (list Z) :=
  match n with
  | O => Some dst
  | S n =>
      c ← src !! i;
      guard (i < length dst)%nat;;
      memcpy_loop n (S i) (<[i := c]> dst) src
  end.

Definition memcpy (dst src : list Z) (count : Z) : option (list Z) :=
  memcpy_loop (Z.to_nat count) 0 dst src.

Fixpoint memcmp_loop (n : nat) (i : nat) (a b : list Z) : option Z :=
  match n with
  | O => Some 0
  | S n =>
      x ← a !! i;
      y ← b !! i;
      if negb (x =? y) then Some (x - y) else memcmp_loop n (S i) a b
  end.

Definition memcmp (a b : list Z) (count : Z) : option Z := memcmp_loop (Z.to_nat count) 0 a b.

(** * Contents of buffers *)

(** [is_cstr buf s]: the buffer [buf] holds the C string [s]. *)
Definition is_cstr (buf s : list Z) : Prop :=
  Forall (λ c, 0 < c < 256) s ∧ ∃ rest, buf = s ++ 0 :: rest.

(** What kstrcpy() leaves of the string [s] in a field of [max] bytes. *)
Definition kstrcpy_val (s : list Z) (max : Z) : list Z := take (Z.to_nat (max - 1)) s.

Lemma is_cstr_cons buf c s : is_cstr (c :: buf) (c :: s) ↔ 0 < c < 256 ∧ is_cstr buf s.
Proof.
  unfold is_cstr. rewrite list.Forall_cons. split.
  - intros ((Hc & Hs) & rest & Heq). simplify_eq/=. eauto.
  - intros (Hc & Hs & rest & ->). eauto.
Qed.

Lemma is_cstr_split buf s :
  is_cstr buf s → (s = [] ∧ ∃ buf', buf = 0 :: buf') ∨
  (∃ c s' buf', s = c :: s' ∧ buf = c :: buf' ∧ 0 < c < 256 ∧ is_cstr buf' s').
Proof.
  intros [Hs [rest ->]]. destruct s as [|c s]; simpl; [left; eauto|right].
  apply list.Forall_cons in Hs as [Hc Hs].
  exists c, s, (s ++ 0 :: rest). unfold is_cstr. eauto 10.
Qed.

Lemma is_cstr_end buf s : is_cstr buf s → buf !! length s = Some 0.
Proof. intros [_ [rest ->]]. by rewrite lookup_app_r, Nat.sub_diag. Qed.

Lemma is_cstr_lookup buf s i c : is_cstr buf s → s !! i = Some c → buf !! i = Some c ∧ 0 < c < 256.
Proof.
  intros [Hs [rest ->]] Hi. split; [|exact (Forall_lookup_1 _ _ _ _ Hs Hi)].
  rewrite lookup_app_l; [done|]. by eapply lookup_lt_Some.
Qed.

Lemma is_cstr_length buf s : is_cstr buf s → (length s < length buf)%nat.
Proof. intros [_ [rest ->]]. rewrite length_app. simpl. lia. Qed.

Lemma i8_inj x y : 0 <= x < 256 → 0 <= y < 256 → i8 x = i8 y → x = y.
Proof. word_lia. Qed.

(** Overwriting the bytes of a buffer one after the other. *)
Lemma insert_drop {A} (l : list A) i x :
  (i < length l)%nat → drop i (<[i := x]> l) = x :: drop (S i) l.
Proof.
  intros Hi. rewrite <- (take_drop_middle (<[i := x]> l) i x).
  2:{ by apply list_lookup_insert_eq. }
  rewrite drop_app_length' by (rewrite length_take, length_insert; lia).
  f_equal. rewrite drop_insert_lt by lia. done.
Qed.

Lemma take_insert_S {A} (l : list A) i x :
  (i < length l)%nat → take (S i) (<[i := x]> l) = take i l ++ [x].
Proof.
  intros Hi. rewrite (take_S_r _ i x) by (by apply list_lookup_insert_eq).
  by rewrite take_insert_ge by lia.
Qed.

Lemma kstrlen_loop_spec buf s i fuel :
  is_cstr buf s → (i <= length s)%nat → (length s < i + fuel)%nat →
  kstrlen_loop fuel buf i = Some (Z.of_nat (length s)).
Proof.
  intros Hb. revert i. induction fuel as [|fuel IH]; intros i Hi Hf; [lia|]. simpl.
  destruct (decide (i = length s)) as [->|Hne].
  - rewrite (is_cstr_end buf s Hb). done.
  - destruct (lookup_lt_is_Some_2 s i) as [c Hc]; [lia|].
    destruct (is_cstr_lookup _ _ _ _ Hb Hc) as [-> Hr]. simpl.
    replace (c =? 0) with false by lia. simpl. apply IH; lia.
Qed.

Lemma kstrlen_spec buf s : is_cstr buf s → kstrlen buf = Some (Z.of_nat (length s)).
Proof.
  intros H. pose proof (is_cstr_length _ _ H). apply kstrlen_loop_spec; [done|lia|lia].
Qed.

Lemma kstrcpy_loop_spec buf s max dst fuel : ∀ i,
  is_cstr buf s → 1 <= max <= Z.of_nat (length dst) →
  (i <= length (kstrcpy_val s max))%nat → (length s < i + fuel)%nat →
  kstrcpy_loop fuel dst buf max i =
    Some (take i dst ++ drop i (kstrcpy_val s max) ++
          0 :: drop (S (length (kstrcpy_val s max))) dst).
Proof.
  revert dst. induction fuel as [|fuel IH]; intros dst i Hb Hmax Hi Hf.
  { unfold kstrcpy_val in Hi. rewrite length_take in Hi. lia. }
  assert (Hlen : length (kstrcpy_val s max) = Nat.min (Z.to_nat (max - 1)) (length s))
    by (unfold kstrcpy_val; apply length_take).
  simpl. destruct (decide (i = length s)) as [->|Hne].
  - rewrite (is_cstr_end buf s Hb). simpl.
    rewrite option_guard_True by lia. simpl.
    assert (length (kstrcpy_val s max) = length s) as Heq by lia.
    rewrite Heq, drop_ge by lia. simpl. f_equal.
    rewrite <- (take_drop_middle (<[length s := 0]> dst) (length s) 0)
      by (apply list_lookup_insert_eq; lia).
    by rewrite take_insert_ge, drop_insert_lt by lia.
  - destruct (lookup_lt_is_Some_2 s i) as [c Hc]; [lia|].
    destruct (is_cstr_lookup _ _ _ _ Hb Hc) as [-> Hr]. simpl.
    rewrite option_guard_True by lia. simpl.
    replace (c =? 0) with false by lia. simpl.
    destruct (Z.ltb_spec (Z.of_nat i) (max - 1)) as [Hlt|Hge].
    + rewrite IH; [|done| rewrite length_insert; lia | lia | lia].
      f_equal. rewrite take_insert_S by lia. rewrite <- app_assoc. f_equal.
      rewrite drop_insert_lt by lia.
      rewrite (drop_S (kstrcpy_val s max) c i); [done|].
      unfold kstrcpy_val. by rewrite lookup_take_lt by lia.
    + assert (i = length (kstrcpy_val s max)) as Heq by lia.
      rewrite drop_ge by lia. rewrite <- Heq. simpl. f_equal.
      rewrite <- (take_drop_middle (<[i := 0]> dst) i 0)
        by (apply list_lookup_insert_eq; lia).
      by rewrite take_insert_ge, drop_insert_lt by lia.
Qed.

(** ** Comparisons *)

(** The lexicographic order on unsigned bytes. *)
Fixpoint lex_lt (s t : list Z) : Prop :=
  match s, t with
  | _, [] => False
  | [], _ :: _ => True
  | x :: s', y :: t' => x < y ∨ (x = y ∧ lex_lt s' t')
  end.

Lemma kstrcmp_spec a b s t :
  is_cstr a s → is_cstr b t → ∃ r, kstrcmp a b = Some r ∧ (r = 0 ↔ s = t).
Proof.
  revert b s t. induction a as [|x a IH]; intros b s t Ha Hb.
  { apply is_cstr_length in Ha. simpl in Ha. lia. }
  destruct (is_cstr_split _ _ Ha) as [(-> & a' & ?)|(x' & s' & a' & -> & ? & Hx & Ha')];
  destruct (is_cstr_split _ _ Hb) as [(-> & b' & ->)|(y & t' & b' & -> & -> & Hy & Hb')];
    simplify_eq/=.
  - eexists. done.
  - replace (y =? 0) with false by lia. simpl. eexists. split; [done|].
    split; [|done]. word_lia.
  - replace (x' =? 0) with false by lia. simpl. eexists. split; [done|].
    split; [|done]. word_lia.
  - replace (x' =? 0) with false by lia. replace (y =? 0) with false by lia. simpl.
    destruct (Z.eqb_spec x' y) as [->|Hne]; simpl.
    + destruct (IH b' s' t' Ha' Hb') as (r & -> & Hr). exists r. split; [done|].
      rewrite Hr. naive_solver.
    + eexists. split; [done|]. split; [|naive_solver].
      intros. destruct Hne. apply i8_inj; lia.
Qed.

Lemma kstreq_spec a b s t :
  is_cstr a s → is_cstr b t → kstreq a b = Some (bool_decide (s = t)).
Proof.
  intros Ha Hb. destruct (kstrcmp_spec _ _ _ _ Ha Hb) as (r & Hr & Heq).
  unfold kstreq. rewrite Hr. simpl. f_equal.
  destruct (Z.eqb_spec r 0); case_bool_decide; naive_solver.
Qed.

Lemma strcmp_spec a b s t :
  is_cstr a s → is_cstr b t →
  ∃ r, strcmp a b = Some r ∧ (r = 0 ↔ s = t) ∧ (r < 0 ↔ lex_lt s t).
Proof.
  revert b s t. induction a as [|x a IH]; intros b s t Ha Hb.
  { apply is_cstr_length in Ha. simpl in Ha. lia. }
  destruct (is_cstr_split _ _ Ha) as [(-> & a' & ?)|(x' & s' & a' & -> & ? & Hx & Ha')];
  destruct (is_cstr_split _ _ Hb) as [(-> & b' & ->)|(y & t' & b' & -> & -> & Hy & Hb')];
    simplify_eq/=.
  - eexists. done.
  - rewrite (u8_small y) by lia. eexists. split; [done|]. change (u8 0) with 0. split; [|lia].
    split; [lia|done].
  - replace (x' =? 0) with false by lia. simpl. rewrite (u8_small x') by lia.
    replace (x' =? 0) with false by lia.
    eexists. split; [done|]. change (u8 0) with 0. split; [|lia]. split; [lia|done].
  - replace (x' =? 0) with false by lia. simpl.
    destruct (Z.eqb_spec x' y) as [->|Hne]; simpl.
    + destruct (IH b' s' t' Ha' Hb') as (r & -> & Hr & Hl). exists r. split; [done|].
      rewrite Hr, Hl. split; [naive_solver|]. split; [tauto|]. intros [?|[_ ?]]; [lia|done].
    + rewrite !u8_small by lia. eexists. split; [done|]. split; [naive_solver lia|].
      split; [lia|]. intros [?|[? _]]; lia.
Qed.

Lemma strncmp_spec n a b s t :
  is_cstr a s → is_cstr b t →
  ∃ r, strncmp a b n = Some r ∧ (r = 0 ↔ take n s = take n t).
Proof.
  revert n b s t. induction a as [|x a IH]; intros n b s t Ha Hb.
  { apply is_cstr_length in Ha. simpl in Ha. lia. }
  destruct n as [|n]; [by exists 0|].
  destruct (is_cstr_split _ _ Ha) as [(-> & a' & ?)|(x' & s' & a' & -> & ? & Hx & Ha')];
  destruct (is_cstr_split _ _ Hb) as [(-> & b' & ->)|(y & t' & b' & -> & -> & Hy & Hb')];
    simplify_eq/=.
  - eexists. done.
  - rewrite (u8_small y) by lia. change (u8 0) with 0. eexists. split; [done|]. split; [lia|done].
  - replace (x' =? 0) with false by lia. simpl. rewrite (u8_small x') by lia.
    change (u8 0) with 0. eexists. split; [done|]. split; [lia|done].
  - replace (x' =? 0) with false by lia. simpl.
    destruct (Z.eqb_spec x' y) as [->|Hne]; simpl.
    + destruct (IH n b' s' t' Ha' Hb') as (r & -> & Hr). exists r. split; [done|].
      rewrite Hr. split; [congruence|]. intros; simplify_eq; congruence.
    + rewrite !u8_small by lia. eexists. split; [done|]. split; [lia|]. intros; simplify_eq.
Qed.

Lemma strlen_spec buf s : is_cstr buf s → strlen buf = Some (Z.of_nat (length s)).
Proof.
  intros H. rewrite <- (kstrlen_spec _ _ H). unfold strlen, kstrlen.
  generalize (length buf) at 1 2. intros n. generalize 0%nat.
  induction n as [|n IH]; intros i; [done|]. simpl. destruct (buf !! i); simpl; [|done].
  by rewrite IH.
Qed.

Lemma strcpy_loop_spec buf s dst fuel : ∀ i,
  is_cstr buf s → (length s < length dst)%nat → (i <= length s)%nat → (length s < i + fuel)%nat →
  strcpy_loop fuel dst buf i =
    Some (take i dst ++ drop i s ++ 0 :: drop (S (length s)) dst).
Proof.
  revert dst. induction fuel as [|fuel IH]; intros dst i Hb Hd Hi Hf; [lia|].
  simpl. destruct (decide (i = length s)) as [->|Hne].
  - rewrite (is_cstr_end buf s Hb). simpl. rewrite option_guard_True by lia. simpl.
    rewrite (drop_ge s) by lia. simpl. f_equal.
    rewrite <- (take_drop_middle (<[length s := 0]> dst) (length s) 0)
      by (apply list_lookup_insert_eq; lia).
    by rewrite take_insert_ge, drop_insert_lt by lia.
  - destruct (lookup_lt_is_Some_2 s i) as [c Hc]; [lia|].
    destruct (is_cstr_lookup _ _ _ _ Hb Hc) as [-> Hr]. simpl.
    rewrite option_guard_True by lia. simpl.
    replace (c =? 0) with false by lia. simpl.
    rewrite IH; [|done|rewrite length_insert; lia|lia|lia].
    rewrite take_insert_S by lia. rewrite <- app_assoc. do 2 f_equal.
    rewrite drop_insert_lt by lia. by rewrite (drop_S s c i).
Qed.

(** ** Byte buffers *)

Lemma kmemcpy_loop_spec n i dst src :
  (i + n <= length src)%nat → (i + n <= length dst)%nat →
  kmemcpy_loop n i dst src =
    Some (take i dst ++ take n (drop i src) ++ drop (i + n) dst).
Proof.
  revert i dst. induction n as [|n IH]; intros i dst Hs Hd; simpl.
  { by rewrite Nat.add_0_r, take_drop. }
  destruct (lookup_lt_is_Some_2 src i) as [c Hc]; [lia|]. rewrite Hc. simpl.
  rewrite option_guard_True by lia. simpl. rewrite IH by (rewrite ?length_insert; lia).
  rewrite take_insert_S, <- app_assoc by lia. do 2 f_equal.
  rewrite (drop_S src c i Hc). simpl. do 2 f_equal.
  rewrite drop_insert_lt by lia. f_equal. lia.
Qed.

Lemma kmemset_loop_spec n i dst v :
  (i + n <= length dst)%nat →
  kmemset_loop n i dst v = Some (take i dst ++ replicate n v ++ drop (i + n) dst).
Proof.
  revert i dst. induction n as [|n IH]; intros i dst Hd; simpl.
  { by rewrite Nat.add_0_r, take_drop. }
  rewrite option_guard_True by lia. simpl. rewrite IH by (rewrite ?length_insert; lia).
  rewrite take_insert_S, <- app_assoc by lia. do 2 f_equal. simpl. do 2 f_equal.
  rewrite drop_insert_lt by lia. f_equal. lia.
Qed.

Lemma kmemcmp_loop_spec n i a b :
  (i + n <= length a)%nat → (i + n <= length b)%nat →
  ∃ r, kmemcmp_loop n i a b = Some r ∧ (r = 0 ↔ take n (drop i a) = take n (drop i b)).
Proof.
  revert i. induction n as [|n IH]; intros i Ha Hb; simpl; [by exists 0|].
  destruct (lookup_lt_is_Some_2 a i) as [x Hx]; [lia|].
  destruct (lookup_lt_is_Some_2 b i) as [y Hy]; [lia|].
  rewrite Hx, Hy, (drop_S a x i Hx), (drop_S b y i Hy). simpl.
  destruct (Z.eqb_spec x y) as [->|Hne]; simpl.
  - destruct (IH (S i)) as (r & -> & Hr); [lia|lia|]. exists r. split; [done|].
    rewrite Hr. split; [congruence|]. intros; simplify_eq; congruence.
  - exists (x - y). split; [done|]. split; [lia|]. intros; simplify_eq.
Qed.

(** * Properties *)

(** kstrcpy() copies at most max-1 bytes of the source string, always
    terminates the destination, and writes nothing after the terminator. *)
Lemma kstrcpy_truncates src s dst max :
  is_cstr src s → 1 <= max <= Z.of_nat (length dst) →
  ∃ dst', kstrcpy dst src max = Some dst' ∧ is_cstr dst' (kstrcpy_val s max) ∧
    length dst' = length dst ∧
    drop (S (length (kstrcpy_val s max))) dst' = drop (S (length (kstrcpy_val s max))) dst.
Proof.
  intros Hs Hm. pose proof (is_cstr_length _ _ Hs). unfold kstrcpy.
  rewrite (kstrcpy_loop_spec src s max dst) by (done || lia).
  assert (length (kstrcpy_val s max) < length dst)%nat.
  { unfold kstrcpy_val. rewrite length_take. lia. }
  eexists. split; [done|]. rewrite take_0, drop_0. simpl. split_and!.
  - split; [|by eexists]. destruct Hs as [Hs _]. by apply Forall_take.
  - rewrite length_app. simpl. rewrite length_drop. lia.
  - rewrite drop_app_ge by lia.
    replace (S (length (kstrcpy_val s max)) - length (kstrcpy_val s max))%nat with 1%nat by lia.
    done.
Qed.

(** The comparisons and lengths of C strings, in the kernel's header and
    in the user library. kstrlen() and strlen() are the length; kstrcmp() is
    zero exactly when the contents are equal and kstreq() decides that;
    strcmp() moreover orders strings lexicographically as unsigned bytes,
    strncmp() decides equality of the first n bytes, and strcpy() reproduces
    the string with its terminator and leaves the bytes behind it. kstrcpy()
    copies at most max-1 bytes, always terminates the destination, and writes
    nothing after the terminator. *)
Lemma string_functions a b s t dst n max :
  is_cstr a s → is_cstr b t → (length s < length dst)%nat → 1 <= max <= Z.of_nat (length dst) →
  kstrlen a = Some (Z.of_nat (length s)) ∧ strlen a = Some (Z.of_nat (length s)) ∧
  (∃ r, kstrcmp a b = Some r ∧ (r = 0 ↔ s = t)) ∧
  kstreq a b = Some (bool_decide (s = t)) ∧
  strcpy dst a = Some (s ++ 0 :: drop (S (length s)) dst) ∧
  (∃ r, strcmp a b = Some r ∧ (r = 0 ↔ s = t) ∧ (r < 0 ↔ lex_lt s t)) ∧
  (∃ r, strncmp a b n = Some r ∧ (r = 0 ↔ take n s = take n t)) ∧
  (∃ dst', kstrcpy dst a max = Some dst' ∧ is_cstr dst' (kstrcpy_val s max) ∧ length dst' = length dst ∧
    drop (S (length (kstrcpy_val s max))) dst' = drop (S (length (kstrcpy_val s max))) dst).
Proof.
  intros Ha Hb Hd Hm. pose proof (is_cstr_length _ _ Ha).
  split_and!; [by apply kstrlen_spec|by apply strlen_spec|by apply kstrcmp_spec|by apply kstreq_spec|
    |by apply strcmp_spec|by apply strncmp_spec|by apply kstrcpy_truncates].
  unfold strcpy. rewrite (strcpy_loop_spec a s dst) by (done || lia). by rewrite drop_0.
Qed.

Lemma string_functions_witness :
  kstreq [97; 98; 0] [97; 99; 0; 5] = Some false ∧ strcpy [7; 7; 7; 7] [97; 98; 0] = Some [97; 98; 0; 7] ∧
  (∃ r, strncmp [97; 98; 0] [97; 99; 0; 5] 1 = Some r ∧ (r = 0 ↔ [97] = [97])) ∧
  ∃ dst', kstrcpy [7; 7; 7; 7] [97; 98; 0] 2 = Some dst' ∧ is_cstr dst' [97] ∧ length dst' = 4%nat ∧ drop 2 dst' = [7; 7].
Proof.
  destruct (string_functions [97; 98; 0] [97; 99; 0; 5] [97; 98] [97; 99] [7; 7; 7; 7] 1 2)
    as (_ & _ & _ & H1 & H2 & _ & H3 & H4).
  - split; [repeat constructor; lia|by exists []].
  - split; [repeat constructor; lia|by exists [5]].
  - simpl. lia.
  - simpl. lia.
  - split_and!; [exact H1|exact H2|exact H3|exact H4].
Defined.

(** Copying n bytes makes the first n bytes of the destination compare
    equal to the source and keeps the rest; filling n bytes makes all of them
    the value modulo 256; in the kernel's helpers and the user library's. *)
Lemma mem_roundtrip dst src n v :
  0 <= n → n <= Z.of_nat (length dst) → n <= Z.of_nat (length src) →
  let dst' := take (Z.to_nat n) src ++ drop (Z.to_nat n) dst in
  kmemcpy dst src n = Some dst' ∧ memcpy dst src n = Some dst' ∧
  kmemcmp dst' src n = Some 0 ∧ memcmp dst' src n = Some 0 ∧
  kmemset dst v n = Some (replicate (Z.to_nat n) (v mod 256) ++ drop (Z.to_nat n) dst) ∧
  memset dst v n = Some (replicate (Z.to_nat n) (v mod 256) ++ drop (Z.to_nat n) dst).
Proof.
  intros Hn Hd Hs dst'.
  unfold kmemcpy, memcpy, kmemcmp, memcmp, kmemset, memset.
  change memcpy_loop with kmemcpy_loop. change memset_loop with kmemset_loop.
  change memcmp_loop with kmemcmp_loop.
  rewrite kmemcpy_loop_spec, kmemset_loop_spec by lia. rewrite drop_0, take_0. simpl.
  split_and!; try done.
  all: destruct (kmemcmp_loop_spec (Z.to_nat n) 0 dst' src) as (r & Hr & Heq);
    [unfold dst'; rewrite length_app, length_take, length_drop; lia|lia|].
  all: rewrite Hr; f_equal; apply Heq; unfold dst'; rewrite !drop_0;
    apply take_app_length'; rewrite length_take; lia.
Qed.

Lemma mem_roundtrip_witness :
  kmemcpy [1; 2; 3] [8; 9] 2 = Some [8; 9; 3] ∧ memcpy [1; 2; 3] [8; 9] 2 = Some [8; 9; 3] ∧
  kmemcmp [8; 9; 3] [8; 9] 2 = Some 0 ∧ memcmp [8; 9; 3] [8; 9] 2 = Some 0 ∧
  kmemset [1; 2; 3] 256 2 = Some [0; 0; 3] ∧ memset [1; 2; 3] 256 2 = Some [0; 0; 3].
Proof. apply (mem_roundtrip [1; 2; 3] [8; 9] 2 256); simpl; lia. Defined.
