(* ===== verification/Rtc.v ===== *)
(** The real time clock: drivers/rtc/rtc.c.

    The CMOS registers are the hardware's: a reading of the six clock
    registers is a [raw], and [rtc_read] is given the pairs of readings its
    loop takes, one pair per round, and status register B. [rtc_read_ports] is
    the same function down to the ports, given the bytes the data port
    answers; it reads what [rtc_read] does. A byte is a [Z]. *)

From S2P Require Import Prelude.

Record raw := Raw { r_second : Z; r_minute : Z; r_hour : Z; r_day : Z; r_month : Z; r_year : Z }.

#[export] Instance raw_eq_dec : EqDecision raw.
Proof. solve_decision. Defined.

Record rtc_time_t := Time { t_year : Z; t_month : Z; t_day : Z; t_hour : Z; t_minute : Z; t_second : Z }.

(** * Reading *)

(** The loop of rtc_read(): the first pair that agrees; [None] when the
    readings run out. *)
Fixpoint read_stable (rounds : list (raw * raw)) : option raw :=
  match rounds with
  | [] => None
  | (first, last) :: rounds => if decide (first = last) then Some first else read_stable rounds
  end.

(** (v & 0x0F) + ((v / 16) * 10), stored in a byte *)
Definition bcd (v : Z) : Z := u8 (Z.land v 0x0F + v / 16 * 10).

Definition bcd_hour (hour : Z) : Z :=
  let pm_flag := Z.land hour 0x80 in
  u8 (Z.lor (Z.land hour 0x0F + Z.land hour 0x70 / 16 * 10) pm_flag).

Definition from_bcd (status_b : Z) (r : raw) : raw :=
  if negb (flag status_b 0x04)
  then Raw (bcd (r_second r)) (bcd (r_minute r)) (bcd_hour (r_hour r)) (bcd (r_day r)) (bcd (r_month r)) (bcd (r_year r))
  else r.

Definition hour_24 (status_b hour : Z) : Z :=
  if negb (flag status_b 0x02) && flag hour 0x80 then u8 ((Z.land hour 0x7F + 12) mod 24) else Z.land hour 0x7F.

(** The rest of rtc_read(), on a stable reading. *)
Definition decode (status_b : Z) (r : raw) : rtc_time_t :=
  let b := from_bcd status_b r in
  Time (2000 + r_year b) (r_month b) (r_day b) (hour_24 status_b (r_hour b)) (r_minute b) (r_second b).

Definition rtc_read (rounds : list (raw * raw)) (status_b : Z) : option rtc_time_t :=
  decode status_b <$> read_stable rounds.

(** ** The ports *)

Definition CMOS_ADDRESS : Z := 0x70.
Definition CMOS_REG_SECONDS : Z := 0x00.
Definition CMOS_REG_MINUTES : Z := 0x02.
Definition CMOS_REG_HOURS : Z := 0x04.
Definition CMOS_REG_DAY : Z := 0x07.
Definition CMOS_REG_MONTH : Z := 0x08.
Definition CMOS_REG_YEAR : Z := 0x09.
Definition CMOS_REG_STATUS_A : Z := 0x0A.
Definition CMOS_REG_STATUS_B : Z := 0x0B.

(** The bytes the data port is going to answer, one for each read of it, and
    the words written to the ports. *)
Record io := Io { io_answers : list Z; io_written : list (Z * Z) }.

(** Without an answer the read does not return. *)
Definition cmos_read (reg : Z) : M io Z := λ s,
  match io_answers s with
  | [] => Diverge
  | a :: rest => Done a (Io rest (io_written s ++ [(CMOS_ADDRESS, reg)]))
  end.

Definition cmos_update_in_progress : M io Z := a ← cmos_read CMOS_REG_STATUS_A; mret (Z.land a 0x80).

Definition cmos_read_raw : M io raw :=
  second ← cmos_read CMOS_REG_SECONDS;
  minute ← cmos_read CMOS_REG_MINUTES;
  hour ← cmos_read CMOS_REG_HOURS;
  day ← cmos_read CMOS_REG_DAY;
  month ← cmos_read CMOS_REG_MONTH;
  year ← cmos_read CMOS_REG_YEAR;
  mret (Raw second minute hour day month year).

(** while(cmos_update_in_progress()) {} *)
Fixpoint wait_update (fuel : nat) : M io unit :=
  match fuel with
  | O => diverge
  | S fuel => busy ← cmos_update_in_progress; if busy =? 0 then mret tt else wait_update fuel
  end.

(** The loop of rtc_read(); each turn of a loop takes an answer. *)
Fixpoint read_loop (fuel : nat) : M io raw :=
  match fuel with
  | O => diverge
  | S fuel =>
      wait_update (S fuel) ;;
      first ← cmos_read_raw;
      wait_update (S fuel) ;;
      last ← cmos_read_raw;
      if decide (first = last) then mret first else read_loop fuel
  end.

Definition rtc_read_ports : M io rtc_time_t :=
  r ← (λ s, read_loop (S (length (io_answers s))) s);
  status_b ← cmos_read CMOS_REG_STATUS_B;
  mret (decode status_b r).

(** rtc_init(): the time read is only logged. *)
Definition rtc_init : M io unit := rtc_read_ports ;; mret tt.

(** * Seconds since 1970 *)

(** The division of C truncates; all dividends here are positive but the one
    of the era, which the code adjusts. *)
Definition days_from_civil (year month day : Z) : Z :=
  let year := year - (if month <=? 2 then 1 else 0) in
  let era := Z.quot (if 0 <=? year then year else year - 399) 400 in
  let year_of_era := u32 (year - era * 400) in
  let day_of_year := u32 (u32 (153 * u32 (month + (if 2 <? month then -3 else 9)) + 2) / 5 + day - 1) in
  let day_of_era := u32 (year_of_era * 365 + year_of_era / 4 - year_of_era / 100 + day_of_year) in
  era * 146097 + day_of_era - 719468.

Definition rtc_now_epoch (t : rtc_time_t) : Z :=
  u64 (u64 (days_from_civil (t_year t) (t_month t) (t_day t)) * 86400 + t_hour t * 3600 + t_minute t * 60 + t_second t).

(** * The text of /devices/rtc *)

Definition write_2digit (value : Z) : list Z := [u8 (48 + value / 10); u8 (48 + value mod 10)].
Definition write_4digit (value : Z) : list Z :=
  [u8 (48 + value / 1000 mod 10); u8 (48 + value / 100 mod 10); u8 (48 + value / 10 mod 10); u8 (48 + value mod 10)].

Definition formatted (t : rtc_time_t) : list Z :=
  write_4digit (t_year t) ++ [45] ++ write_2digit (t_month t) ++ [45] ++ write_2digit (t_day t) ++ [32] ++
  write_2digit (t_hour t) ++ [58] ++ write_2digit (t_minute t) ++ [58] ++ write_2digit (t_second t) ++ [10].

(** dev_rtc_read(): the result and the bytes copied to the buffer. *)
Definition dev_rtc_read (t : rtc_time_t) (size : Z) : Z * list Z :=
  let text := formatted t in
  let len := Z.of_nat (length text) in
  let len := if size <? len then size else len in
  (len, take (Z.to_nat len) text).

(** * Specification *)

Definition leap (y : Z) : bool := (y mod 4 =? 0) && (negb (y mod 100 =? 0) || (y mod 400 =? 0)).

Definition month_days (y m : Z) : Z :=
  if m =? 2 then if leap y then 29 else 28
  else if (m =? 4) || (m =? 6) || (m =? 9) || (m =? 11) then 30 else 31.

Definition valid_time (t : rtc_time_t) : Prop :=
  2000 <= t_year t < 2100 ∧ 1 <= t_month t <= 12 ∧ 1 <= t_day t <= month_days (t_year t) (t_month t) ∧
  0 <= t_hour t < 24 ∧ 0 <= t_minute t < 60 ∧ 0 <= t_second t < 60.

(** The day before, by the calendar. *)
Definition next_day (y m d : Z) : Z * Z * Z :=
  if d <? month_days y m then (y, m, d + 1) else if m <? 12 then (y, m + 1, 1) else (y + 1, 1, 1).

(** Days from 1 January 1970: whole years, whole months, days. *)
Definition days_of_years (y : Z) : Z :=
  foldr (λ i n, (if leap i then 366 else 365) + n) 0 (seqZ 1970 (y - 1970)).
Definition days_of_months (y m : Z) : Z := foldr (λ i n, month_days y i + n) 0 (seqZ 1 (m - 1)).
Definition calendar_days (y m d : Z) : Z := days_of_years y + days_of_months y m + (d - 1).

(** What the clock's registers hold at the time [t], in the mode that status
    register B tells: bit 2 binary, bit 1 24 hours. *)
Definition to_bcd (v : Z) : Z := v / 10 * 16 + v mod 10.
Definition hour_12 (h : Z) : Z := if h mod 12 =? 0 then 12 else h mod 12.

Definition registers (status_b : Z) (t : rtc_time_t) : raw :=
  let enc v := if flag status_b 0x04 then v else to_bcd v in
  let hour := if flag status_b 0x02 then enc (t_hour t)
              else enc (hour_12 (t_hour t)) + (if 12 <=? t_hour t then 0x80 else 0) in
  Raw (enc (t_second t)) (enc (t_minute t)) hour (enc (t_day t)) (enc (t_month t)) (enc (t_year t - 2000)).

(** * Theorems *)

Lemma in_range (n v : Z) : 0 <= v < n -> v ∈ seqZ 0 n.
Proof. rewrite elem_of_seqZ. lia. Qed.

(** A property of all numbers below [n], by trying them. *)
Lemma by_trying (p : Z -> bool) (n : Z) :
  forallb p (seqZ 0 n) = true -> ∀ v, 0 <= v < n -> p v = true.
Proof.
  intros H v Hv. rewrite forallb_forall in H. apply H. apply list_elem_of_In. by apply in_range.
Qed.

Lemma bcd_to_bcd v : 0 <= v < 100 -> bcd (to_bcd v) = v.
Proof. intros. apply Z.eqb_eq. revert v H. apply by_trying. vm_compute. reflexivity. Qed.

Lemma month_days_range y m : 28 <= month_days y m <= 31.
Proof. unfold month_days. destruct (m =? 2), (leap y), ((m =? 4) || (m =? 6) || (m =? 9) || (m =? 11)); lia. Qed.

(** The hour in each of the four modes. *)
Definition hour_register (binary hours24 : bool) (h : Z) : Z :=
  let enc v := if binary then v else to_bcd v in
  if hours24 then enc h else enc (hour_12 h) + (if 12 <=? h then 0x80 else 0).

Definition hour_decoded (binary hours24 : bool) (r : Z) : Z :=
  let h := if binary then r else bcd_hour r in
  if negb hours24 && flag h 0x80 then u8 ((Z.land h 0x7F + 12) mod 24) else Z.land h 0x7F.

Lemma hour_decoded_register binary hours24 h :
  0 <= h < 24 -> hours24 = true ∨ h mod 12 ≠ 0 -> hour_decoded binary hours24 (hour_register binary hours24 h) = h.
Proof.
  intros Hh Hm. apply Z.eqb_eq.
  assert (H : hours24 || negb (h mod 12 =? 0) = true).
  { destruct Hm as [->|]; [done|]. by rewrite (proj2 (Z.eqb_neq _ _)), orb_true_r. }
  apply (by_trying (λ h, implb (hours24 || negb (h mod 12 =? 0))
    (hour_decoded binary hours24 (hour_register binary hours24 h) =? h)) 24) in Hh.
  - by rewrite H in Hh.
  - destruct binary, hours24; vm_compute; reflexivity.
Qed.

Lemma decode_registers status_b t :
  valid_time t -> flag status_b 0x02 = true ∨ t_hour t mod 12 ≠ 0 -> decode status_b (registers status_b t) = t.
Proof.
  destruct t as [y m d h mi s]. unfold valid_time. cbn [t_year t_month t_day t_hour t_minute t_second].
  intros (Hy & Hm & Hd & Hh & Hmi & Hs) Hmode. pose proof (month_days_range y m).
  pose proof (hour_decoded_register (flag status_b 0x04) (flag status_b 0x02) h Hh Hmode) as Hhour.
  unfold hour_decoded, hour_register in Hhour. unfold decode, from_bcd, registers, hour_24.
  cbn [t_year t_month t_day t_hour t_minute t_second].
  destruct (flag status_b 0x04); cbn [negb r_year r_month r_day r_hour r_minute r_second];
    rewrite ?bcd_to_bcd by lia; f_equal; try exact Hhour; lia.
Qed.

Lemma read_stable_first torn r rest :
  Forall (λ p, p.1 ≠ p.2) torn -> read_stable (torn ++ (r, r) :: rest) = Some r.
Proof.
  induction 1 as [|[a b] torn Hab _ IH]; simpl.
  - by rewrite decide_True.
  - by rewrite decide_False.
Qed.

(** roundtrip: rtc_read() reads back the time the clock's registers
    hold: it throws the torn pairs of readings away, and decodes the first
    stable one, in each of the chip's modes - BCD or binary, 24 or 12 hours.
    In the 12-hour modes this is claimed of every hour but midnight and
    noon: there the code answers 12 and 0, see the next theorem. *)
Lemma rtc_read_registers (status_b : Z) (t : rtc_time_t) (torn rest : list (raw * raw)) :
  valid_time t -> flag status_b 0x02 = true ∨ t_hour t mod 12 ≠ 0 ->
  Forall (λ p, p.1 ≠ p.2) torn ->
  rtc_read (torn ++ (registers status_b t, registers status_b t) :: rest) status_b = Some t.
Proof.
  intros Ht Hmode Htorn. unfold rtc_read. rewrite read_stable_first by done. simpl.
  by rewrite decode_registers.
Qed.

(** A round of the loop as the ports see it: the polls while the clock updates,
    the poll that finds it done, a reading; and the same again. *)
Record round := Round { busy1 : list Z; idle1 : Z; reading1 : raw; busy2 : list Z; idle2 : Z; reading2 : raw }.

Definition raw_bytes (r : raw) : list Z := [r_second r; r_minute r; r_hour r; r_day r; r_month r; r_year r].

Definition round_answers (r : round) : list Z :=
  busy1 r ++ [idle1 r] ++ raw_bytes (reading1 r) ++ busy2 r ++ [idle2 r] ++ raw_bytes (reading2 r).

Definition polls (busy : list Z) : list (Z * Z) := replicate (S (length busy)) (CMOS_ADDRESS, CMOS_REG_STATUS_A).

Definition clock_selects : list (Z * Z) :=
  (λ reg, (CMOS_ADDRESS, reg)) <$> [CMOS_REG_SECONDS; CMOS_REG_MINUTES; CMOS_REG_HOURS; CMOS_REG_DAY; CMOS_REG_MONTH; CMOS_REG_YEAR].

Definition round_selects (r : round) : list (Z * Z) := polls (busy1 r) ++ clock_selects ++ polls (busy2 r) ++ clock_selects.

Definition round_ok (r : round) : Prop :=
  Forall (λ a, Z.land a 0x80 ≠ 0) (busy1 r ++ busy2 r) ∧ Z.land (idle1 r) 0x80 = 0 ∧ Z.land (idle2 r) 0x80 = 0.

(** Everything the data port answers to rtc_read(), and what it selects. *)
Definition session_answers (rounds : list round) (status_b : Z) : list Z := flat_map round_answers rounds ++ [status_b].
Definition session_selects (rounds : list round) : list (Z * Z) :=
  flat_map round_selects rounds ++ [(CMOS_ADDRESS, CMOS_REG_STATUS_B)].

(** The clock finishes every update, and the readings of the last round agree. *)
Definition settles (rounds : list round) : Prop :=
  Forall round_ok rounds ∧ ∃ torn stable, rounds = torn ++ [stable] ∧
    Forall (λ r, reading1 r ≠ reading2 r) torn ∧ reading1 stable = reading2 stable.

Lemma wait_update_spec busy : ∀ fuel idle more w, Forall (λ a, Z.land a 0x80 ≠ 0) busy → Z.land idle 0x80 = 0 →
  (length busy < fuel)%nat → wait_update fuel (Io (busy ++ idle :: more) w) = Done tt (Io more (w ++ polls busy)).
Proof.
  induction busy as [|a busy IH]; intros [|fuel] idle more w Hb Hi Hf; [simpl in Hf; lia| |simpl in Hf; lia|].
  - cbn [wait_update app]. erewrite bind_Done by reflexivity. by rewrite Hi.
  - apply list.Forall_cons in Hb as [Ha Hb]. cbn [wait_update app]. erewrite bind_Done by reflexivity.
    rewrite (proj2 (Z.eqb_neq _ _) Ha), IH by (done || simpl in Hf; lia). by rewrite <- app_assoc.
Qed.

Lemma cmos_read_raw_spec r more w : cmos_read_raw (Io (raw_bytes r ++ more) w) = Done r (Io more (w ++ clock_selects)).
Proof. destruct r. unfold cmos_read_raw, mbind, M_bind. cbn. by rewrite <- !app_assoc. Qed.

Lemma clock_loop_spec torn stable : Forall round_ok (torn ++ [stable]) → Forall (λ r, reading1 r ≠ reading2 r) torn →
  reading1 stable = reading2 stable → ∀ fuel more w, (length (flat_map round_answers (torn ++ [stable]) ++ more) < fuel)%nat →
  read_loop fuel (Io (flat_map round_answers (torn ++ [stable]) ++ more) w) =
    Done (reading1 stable) (Io more (w ++ flat_map round_selects (torn ++ [stable]))).
Proof.
  intros Hok Ht Hs. induction torn as [|r torn IH]; intros [|fuel] more w Hf; try lia;
    cbn [app flat_map] in *; apply list.Forall_cons in Hok as [([Hb1 Hb2]%Forall_app & Hi1 & Hi2) Hok];
    unfold round_answers, round_selects in *; cbn [read_loop]; rewrite ?app_nil_r, <- ?app_assoc in *; rewrite !length_app in Hf; simpl in Hf;
    (erewrite bind_Done by (apply wait_update_spec; [done|done|lia]));
    (erewrite bind_Done by apply cmos_read_raw_spec);
    (erewrite bind_Done by (apply wait_update_spec; [done|done|lia]));
    (erewrite bind_Done by apply cmos_read_raw_spec).
  - rewrite decide_True by done. by rewrite <- !app_assoc.
  - apply list.Forall_cons in Ht as [Hne Ht]. rewrite decide_False by done.
    rewrite IH by (done || (rewrite !length_app; simpl; lia)). by rewrite <- !app_assoc.
Qed.

(** Down to the ports rtc_read() reads what [rtc_read] says, once the clock
    settles, and selects its registers in order. *)
Lemma rtc_read_ports_spec rounds status_b more w : settles rounds →
  ∃ t, rtc_read ((λ r, (reading1 r, reading2 r)) <$> rounds) status_b = Some t ∧
    rtc_read_ports (Io (session_answers rounds status_b ++ more) w) = Done t (Io more (w ++ session_selects rounds)).
Proof.
  intros (Hok & torn & stable & -> & Ht & Hs). exists (decode status_b (reading1 stable)). split.
  - unfold rtc_read. rewrite fmap_app. cbn [fmap list_fmap]. rewrite <- Hs, read_stable_first; [done|]. by apply Forall_fmap.
  - unfold rtc_read_ports, session_answers, session_selects. rewrite <- app_assoc.
    erewrite bind_Done by (cbv beta; apply clock_loop_spec; [done|done|done|cbn [io_answers]; lia]).
    by rewrite (app_assoc w).
Qed.

Definition demo_time : rtc_time_t := Time 2024 2 29 23 59 58.
Definition demo_next : rtc_time_t := Time 2024 2 29 23 59 59.

Lemma rtc_read_registers_witness :
  rtc_read ([(registers 0 demo_time, registers 0 demo_next)] ++ (registers 0 demo_next, registers 0 demo_next) :: []) 0
  = Some demo_next.
Proof.
  apply rtc_read_registers.
  - vm_compute. intuition discriminate.
  - right. by_compute.
  - constructor; [|constructor]. by_compute.
Defined.

(** In 12-hour mode noon is read as hour 0 and midnight as hour 12. *)
Lemma twelve_hour_mode status_b t :
  valid_time t -> flag status_b 0x02 = false -> t_hour t mod 12 = 0 ->
  t_hour (decode status_b (registers status_b t)) = (t_hour t + 12) mod 24.
Proof.
  intros (_ & _ & _ & Hh & _) Hmode Hhour. unfold decode, registers, from_bcd, hour_24. rewrite Hmode.
  assert (t_hour t = 0 ∨ t_hour t = 12) as [-> | ->].
  { Z.div_mod_to_equations. lia. }
  all: destruct (flag status_b 0x04); vm_compute; reflexivity.
Qed.

(** The day count is linear in the day, and right on the first of each month. *)
Lemma days_from_civil_day y m d :
  1 <= m <= 12 -> 1 <= d <= 31 -> 2000 <= y < 2100 ->
  days_from_civil y m d = days_from_civil y m 1 + (d - 1).
Proof.
  intros Hm Hd Hy. unfold days_from_civil.
  set (year := y - _). assert (1999 <= year < 2100) by (subst year; destruct (m <=? 2); lia).
  clearbody year. rewrite (proj2 (Z.leb_le 0 year)) by lia.
  assert (Hera : 4 <= Z.quot year 400 <= 5).
  { rewrite Z.quot_div_nonneg by lia. Z.div_mod_to_equations; lia. }
  assert (0 <= year - Z.quot year 400 * 400 < 400).
  { rewrite Z.quot_div_nonneg by lia. Z.div_mod_to_equations; lia. }
  set (era := Z.quot year 400) in *. clearbody era.
  set (mp := u32 (m + _)). assert (0 <= mp <= 11).
  { subst mp. destruct (Z.ltb_spec 2 m); rewrite u32_small by lia; lia. }
  clearbody mp. rewrite (u32_small (153 * mp + 2)), (u32_small (year - era * 400)) by lia.
  set (yoe := year - era * 400) in *. clearbody yoe.
  assert (0 <= (153 * mp + 2) / 5 <= 337) by (Z.div_mod_to_equations; lia).
  set (md := (153 * mp + 2) / 5) in *. clearbody md.
  rewrite (u32_small (md + d - 1)), (u32_small (md + 1 - 1)) by lia.
  assert (0 <= yoe / 100 /\ yoe / 100 <= yoe / 4 /\ yoe / 4 <= 100) by (Z.div_mod_to_equations; lia).
  rewrite !(u32_small (yoe * 365 + _ - _ + _)) by lia. lia.
Qed.

Lemma days_from_civil_first y m :
  2000 <= y < 2100 -> 1 <= m <= 12 -> days_from_civil y m 1 = calendar_days y m 1 ∧ 0 <= calendar_days y m 1 < 50000.
Proof.
  intros Hy Hm.
  assert (H : forallb (λ y, forallb (λ m, let n := calendar_days (2000 + y) (1 + m) 1 in
      (days_from_civil (2000 + y) (1 + m) 1 =? n) && (0 <=? n) && (n <? 50000)) (seqZ 0 12)) (seqZ 0 100) = true)
    by (vm_compute; reflexivity).
  apply by_trying with (v := y - 2000) in H; [|lia]. apply by_trying with (v := m - 1) in H; [|lia].
  replace (2000 + (y - 2000)) with y in H by lia. replace (1 + (m - 1)) with m in H by lia.
  apply andb_prop in H as [[H1 H2]%andb_prop H3]. split; [by apply Z.eqb_eq|lia].
Qed.

(** C40. equivalence: the closed formula of days_from_civil(), and with it
    rtc_now_epoch(), counts what the calendar counts: for every date of the
    years 2000 to 2099 the days of the whole years since 1970, of the whole
    months and of the month begun - leap years included - and from them the
    seconds since 1970, with none of the unsigned intermediate results
    wrapping. *)
Theorem rtc_now_epoch_calendar (t : rtc_time_t) :
  valid_time t ->
  days_from_civil (t_year t) (t_month t) (t_day t) = calendar_days (t_year t) (t_month t) (t_day t) ∧
  rtc_now_epoch t =
    calendar_days (t_year t) (t_month t) (t_day t) * 86400 + t_hour t * 3600 + t_minute t * 60 + t_second t.
Proof.
  intros (Hy & Hm & Hd & Hh & Hmi & Hs). pose proof (month_days_range (t_year t) (t_month t)).
  destruct (days_from_civil_first (t_year t) (t_month t)) as [Hfirst Hn]; [lia..|].
  assert (calendar_days (t_year t) (t_month t) (t_day t) = calendar_days (t_year t) (t_month t) 1 + (t_day t - 1)) as E
    by (unfold calendar_days; lia).
  unfold rtc_now_epoch. rewrite E, days_from_civil_day, Hfirst by lia.
  split; [done|]. by rewrite !u64_small by (rewrite ?u64_small by lia; lia).
Qed.

Lemma rtc_now_epoch_calendar_witness : rtc_now_epoch demo_time = 1709251198.
Proof.
  destruct (rtc_now_epoch_calendar demo_time) as [_ H]; [vm_compute; intuition discriminate|].
  rewrite H. vm_compute. reflexivity.
Defined.
