(* ===== verification/Pmm.v ===== *)
(** The physical memory manager: kernel/memory/pmm.c.

    The bitmap is the memory at PMM_BITMAP_ADDRESS, a map from byte index to
    byte; a byte the map does not hold reads as 0, and the initial map is
    arbitrary. Bit p%8 of byte p/8 is 1 when page p is in use. The counters
    are uint64_t. The log lines of the file are not modelled. *)

From S2P Require Import Prelude.

Definition PAGE_SIZE : Z := 4096.
Definition PMM_BITMAP_PHYSICAL : Z := 0x200000.
Definition HEAP_PHYSICAL_BASE : Z := 0x2200000.
Definition HEAP_SIZE : Z := 16 * 1024 * 1024.
Definition E820_USABLE : Z := 1.

Record e820_entry := E820 { e820_base : Z; e820_length : Z; e820_type : Z; e820_acpi : Z }.

Record pmm := Pmm { bitmap : gmap Z Z; total_pages : Z; used_pages : Z }.

(** * Bitmap helpers *)

Definition bitmap_byte (s : pmm) (i : Z) : Z := default 0 (bitmap s !! i).

Definition set_byte (i b : Z) (s : pmm) : pmm :=
  Pmm (<[i := u8 b]> (bitmap s)) (total_pages s) (used_pages s).

Definition bitmap_set (page : Z) (s : pmm) : pmm :=
  set_byte (page / 8) (Z.lor (bitmap_byte s (page / 8)) (Z.shiftl 1 (page mod 8))) s.

Definition bitmap_clear (page : Z) (s : pmm) : pmm :=
  set_byte (page / 8) (Z.land (bitmap_byte s (page / 8)) (Z.lnot (Z.shiftl 1 (page mod 8)))) s.

Definition bitmap_test (s : pmm) (page : Z) : bool :=
  Z.land (bitmap_byte s (page / 8)) (Z.shiftl 1 (page mod 8)) =? 0.

Definition add_used (d : Z) (s : pmm) : pmm :=
  Pmm (bitmap s) (total_pages s) (u64 (used_pages s + d)).

(** * pmm_init *)

(** One usable region: every page of it is marked free. *)
Definition free_region (e : e820_entry) (s : pmm) : pmm :=
  let pages := e820_length e / PAGE_SIZE in
  loop_up (Z.to_nat pages) 0 (λ p s,
    let page := u64 (e820_base e / PAGE_SIZE + p) in
    add_used (-1) (bitmap_clear page s)) s.

(** for(addr = first; addr < last; addr += PAGE_SIZE): mark as used. *)
Definition reserve_range (first last : Z) (s : pmm) : pmm :=
  loop_up (Z.to_nat ((last - first + (PAGE_SIZE - 1)) / PAGE_SIZE)) 0 (λ k s,
    add_used 1 (bitmap_set ((first + k * PAGE_SIZE) / PAGE_SIZE) s)) s.

(** The regions of step 5, in the order of the code. *)
Definition reserve_critical (bitmap_bytes : Z) (s : pmm) : pmm :=
  let s := add_used 1 (bitmap_set 0 s) in
  let s := add_used 1 (bitmap_set (0x7C00 / PAGE_SIZE) s) in
  let s := reserve_range 0x1000 0x20000 s in
  let bitmap_pages := bitmap_bytes / PAGE_SIZE + 1 in
  let s := loop_up (Z.to_nat bitmap_pages) 0 (λ p s,
    add_used 1 (bitmap_set (PMM_BITMAP_PHYSICAL / PAGE_SIZE + p) s)) s in
  reserve_range HEAP_PHYSICAL_BASE (HEAP_PHYSICAL_BASE + HEAP_SIZE) s.

Definition pmm_init (map : list e820_entry) (mem_map_count highest_ram : Z) : M pmm unit :=
  let pages := highest_ram / PAGE_SIZE in
  let bitmap_bytes := pages / 8 + 1 in
  modify (λ s, Pmm (bitmap s) pages (used_pages s)) ;;
  modify (loop_up (Z.to_nat bitmap_bytes) 0 (λ i s, set_byte i 0xFF s)) ;;
  modify (λ s, Pmm (bitmap s) (total_pages s) (total_pages s)) ;;
  for_up (Z.to_nat mem_map_count) 0 (λ i,
    e ← access (map !! Z.to_nat i);
    if e820_type e =? E820_USABLE then modify (free_region e) else mret tt) ;;
  modify (reserve_critical bitmap_bytes).

(** * pmm_alloc, pmm_free *)

Fixpoint pmm_alloc_loop (n : nat) (i : Z) : M pmm Z := λ s,
  match n with
  | O => Panic "pmm_alloc: out of physical memory!"
  | S n =>
      if bitmap_test s i
      then Done (u64 (i * PAGE_SIZE)) (add_used 1 (bitmap_set i s))
      else pmm_alloc_loop n (i + 1) s
  end.

Definition pmm_alloc : M pmm Z := λ s, pmm_alloc_loop (Z.to_nat (total_pages s)) 0 s.

Definition pmm_free (page : Z) : M pmm unit := λ s,
  if page =? 0 then Done tt s
  else
    let page_num := page / PAGE_SIZE in
    Done tt (add_used (-1) (bitmap_clear page_num s)).

Definition pmm_free_pages (s : pmm) : Z := u64 (total_pages s - used_pages s).

Definition pmm_used_pages (s : pmm) : Z := used_pages s.

(** * The bitmap as a set of used pages *)

Definition used (s : pmm) (p : Z) : bool :=
  Z.testbit (bitmap_byte s (p / 8)) (p mod 8).

Lemma bitmap_test_used s p : bitmap_test s p = negb (used s p).
Proof. apply land_bit. apply Z.mod_pos_bound. lia. Qed.

Lemma bitmap_byte_set s i b j :
  bitmap_byte (set_byte i b s) j = if decide (i = j) then u8 b else bitmap_byte s j.
Proof.
  unfold bitmap_byte, set_byte. simpl. rewrite lookup_insert. by case_decide.
Qed.

Lemma page_split p q : p / 8 = q / 8 → p mod 8 = q mod 8 → p = q.
Proof. intros. rewrite (Z.div_mod p 8), (Z.div_mod q 8) by lia. lia. Qed.

Lemma used_set s p q : used (bitmap_set q s) p = bool_decide (p = q) || used s p.
Proof.
  unfold used, bitmap_set. rewrite bitmap_byte_set.
  pose proof (Z.mod_pos_bound p 8 ltac:(lia)). pose proof (Z.mod_pos_bound q 8 ltac:(lia)).
  case_decide as Hd.
  - rewrite u8_testbit, Z.lor_spec, Z.shiftl_1_l, Z.pow2_bits_eqb, orb_comm, Hd by lia.
    f_equal. case_bool_decide as Hp.
    + subst. by rewrite Z.eqb_refl.
    + apply Z.eqb_neq. intros Heq. apply Hp. symmetry. by apply page_split.
  - case_bool_decide; [congruence|done].
Qed.

Lemma used_clear s p q : used (bitmap_clear q s) p = negb (bool_decide (p = q)) && used s p.
Proof.
  unfold used, bitmap_clear. rewrite bitmap_byte_set.
  pose proof (Z.mod_pos_bound p 8 ltac:(lia)). pose proof (Z.mod_pos_bound q 8 ltac:(lia)).
  case_decide as Hd.
  - rewrite u8_testbit, Z.land_spec, Z.lnot_spec, Z.shiftl_1_l, Z.pow2_bits_eqb, andb_comm, Hd by lia.
    do 2 f_equal. case_bool_decide as Hp.
    + subst. by rewrite Z.eqb_refl.
    + apply Z.eqb_neq. intros Heq. apply Hp. symmetry. by apply page_split.
  - case_bool_decide; [congruence|done].
Qed.

Lemma used_add_used s d p : used (add_used d s) p = used s p.
Proof. done. Qed.

Lemma total_set_byte i b s : total_pages (set_byte i b s) = total_pages s.
Proof. done. Qed.

Create Rewrite HintDb pmm.
#[export] Hint Rewrite used_set used_clear used_add_used : pmm.

(** ** What pmm_init leaves *)

(** The pages that step 4 frees for an entry of the E820 map: as many as its
    length has, from the page its base lies in. *)
Definition in_region (e : e820_entry) (p : Z) : bool :=
  (e820_type e =? E820_USABLE) &&
  (e820_base e / PAGE_SIZE <=? p) && (p <? e820_base e / PAGE_SIZE + e820_length e / PAGE_SIZE).

(** The pages step 5 takes back. *)
Definition reserved (bitmap_bytes p : Z) : bool :=
  (p <? 0x20000 / PAGE_SIZE) ||
  ((PMM_BITMAP_PHYSICAL / PAGE_SIZE <=? p) &&
   (p <? PMM_BITMAP_PHYSICAL / PAGE_SIZE + (bitmap_bytes / PAGE_SIZE + 1))) ||
  ((HEAP_PHYSICAL_BASE / PAGE_SIZE <=? p) && (p <? (HEAP_PHYSICAL_BASE + HEAP_SIZE) / PAGE_SIZE)).

(** An entry of the map lies in the address space: no sum wraps. *)
Definition e820_ok (e : e820_entry) : Prop :=
  0 <= e820_base e ∧ 0 <= e820_length e ∧ e820_base e + e820_length e < 2 ^ 64.

Lemma used_free_region e s p :
  e820_ok e → e820_type e = E820_USABLE → 0 <= p →
  used (free_region e s) p = negb (in_region e p) && used s p.
Proof.
  intros (Hb & Hl & Hw) Ht Hp. unfold free_region, in_region. rewrite Ht.
  set (n := e820_length e / PAGE_SIZE). set (b := e820_base e / PAGE_SIZE).
  assert (0 <= n ∧ 0 <= b ∧ b + n < 18446744073709551616) as (Hn & Hb0 & Hbn).
  { subst n b. unfold PAGE_SIZE. Z.div_mod_to_equations. lia. }
  rewrite <- (Z2Nat.id n) at 2 by done.
  apply (loop_up_rule (λ i t, used t p = negb ((E820_USABLE =? E820_USABLE) && (b <=? p) && (p <? b + i)) && used s p)).
  - replace (p <? b + 0) with (p <? b) by (f_equal; lia).
    destruct (Z.leb_spec b p), (Z.ltb_spec p b); simpl; try done; lia.
  - intros j t Hj IH. autorewrite with pmm. rewrite IH, u64_small by lia.
    destruct (used s p); rewrite ?andb_false_r, ?andb_true_r; [|done].
    case_bool_decide; simpl; lia.
Qed.

Lemma used_reserve_range first last s p :
  0 <= first → first mod PAGE_SIZE = 0 → last mod PAGE_SIZE = 0 → first <= last →
  used (reserve_range first last s) p =
    ((first / PAGE_SIZE <=? p) && (p <? last / PAGE_SIZE)) || used s p.
Proof.
  intros Hf Hfm Hlm Hle. unfold reserve_range.
  set (n := (last - first + (PAGE_SIZE - 1)) / PAGE_SIZE).
  assert (0 <= n ∧ last / PAGE_SIZE = first / PAGE_SIZE + n) as [Hn ->].
  { subst n. unfold PAGE_SIZE in *. Z.div_mod_to_equations. lia. }
  rewrite <- (Z2Nat.id n) at 2 by done.
  apply (loop_up_rule (λ i t, used t p =
    ((first / PAGE_SIZE <=? p) && (p <? first / PAGE_SIZE + i)) || used s p)).
  - destruct (Z.leb_spec (first / PAGE_SIZE) p), (Z.ltb_spec p (first / PAGE_SIZE + 0));
      simpl; try done; lia.
  - intros j t Hj IH. autorewrite with pmm. rewrite IH.
    replace ((first + j * PAGE_SIZE) / PAGE_SIZE) with (first / PAGE_SIZE + j)
      by (unfold PAGE_SIZE; Z.div_mod_to_equations; lia).
    destruct (used s p); rewrite ?orb_true_r, ?orb_false_r; [done|].
    case_bool_decide; simpl; lia.
Qed.

Lemma used_reserve_critical bb s p :
  0 <= bb → 0 <= p → used (reserve_critical bb s) p = reserved bb p || used s p.
Proof.
  intros Hbb Hp. unfold reserve_critical.
  rewrite used_reserve_range by by_compute.
  set (n := bb / PAGE_SIZE + 1).
  assert (0 <= n) as Hn by (subst n; unfold PAGE_SIZE; Z.div_mod_to_equations; lia).
  set (s1 := reserve_range 0x1000 0x20000 _).
  assert (used (loop_up (Z.to_nat n) 0 (λ k t,
      add_used 1 (bitmap_set (PMM_BITMAP_PHYSICAL / PAGE_SIZE + k) t)) s1) p =
    ((PMM_BITMAP_PHYSICAL / PAGE_SIZE <=? p) && (p <? PMM_BITMAP_PHYSICAL / PAGE_SIZE + n))
    || used s1 p) as ->.
  { rewrite <- (Z2Nat.id n) at 2 by done.
    apply (loop_up_rule (λ i t, used t p =
      ((PMM_BITMAP_PHYSICAL / PAGE_SIZE <=? p) && (p <? PMM_BITMAP_PHYSICAL / PAGE_SIZE + i))
      || used s1 p)).
    - destruct (Z.leb_spec (PMM_BITMAP_PHYSICAL / PAGE_SIZE) p),
        (Z.ltb_spec p (PMM_BITMAP_PHYSICAL / PAGE_SIZE + 0)); simpl; try done; lia.
    - intros j t Hj IH. autorewrite with pmm. rewrite IH.
      destruct (used s1 p); rewrite ?orb_true_r, ?orb_false_r; [done|].
      case_bool_decide; simpl; lia. }
  subst s1. rewrite used_reserve_range by by_compute.
  autorewrite with pmm. unfold reserved. fold n.
  change (0x7C00 / PAGE_SIZE) with 7. change (0x1000 / PAGE_SIZE) with 1.
  change (0x20000 / PAGE_SIZE) with 32.
  destruct (used s p); rewrite ?orb_true_r, ?orb_false_r; [done|].
  repeat case_bool_decide; simpl; lia.
Qed.

(** The pages below [8 * bitmap_bytes] after the fill of step 3. *)
Lemma used_fill n s p :
  0 <= n → 0 <= p < 8 * n → used (loop_up (Z.to_nat n) 0 (λ i s, set_byte i 0xFF s) s) p = true.
Proof.
  intros Hn Hp.
  assert (∀ i, 0 <= i < n → bitmap_byte (loop_up (Z.to_nat n) 0 (λ i s, set_byte i 0xFF s) s) i = 0xFF) as Hb.
  { pose proof (loop_up_rule (λ i t, ∀ j, 0 <= j < i → bitmap_byte t j = 0xFF)
      (Z.to_nat n) 0 (λ i s, set_byte i 0xFF s) s) as Hr.
    rewrite Z.add_0_l, Z2Nat.id in Hr by done. apply Hr; [lia|].
    intros j t Hj IH k Hk. rewrite bitmap_byte_set. case_decide; [done|]. apply IH. lia. }
  unfold used. rewrite Hb by (Z.div_mod_to_equations; lia).
  change 0xFF with (Z.ones 8). apply Z.ones_spec_low.
  pose proof (Z.mod_pos_bound p 8 ltac:(lia)). lia.
Qed.

Lemma total_loop_up {A} (f : Z → A → A) (g : A → Z) n i a :
  (∀ j b, g (f j b) = g b) → g (loop_up n i f a) = g a.
Proof. intros Hf. revert i a. induction n as [|n IH]; intros; simpl; [done|]. by rewrite IH, Hf. Qed.

Lemma total_free_region e s : total_pages (free_region e s) = total_pages s.
Proof. by apply (total_loop_up _ total_pages). Qed.

Lemma total_reserve_range a b s : total_pages (reserve_range a b s) = total_pages s.
Proof. by apply (total_loop_up _ total_pages). Qed.

Lemma total_reserve_critical bb s : total_pages (reserve_critical bb s) = total_pages s.
Proof.
  unfold reserve_critical. rewrite total_reserve_range, (total_loop_up _ total_pages) by done.
  by rewrite total_reserve_range.
Qed.

(** pmm_init ends, and says exactly which pages are free. *)
Lemma pmm_init_result map count highest s :
  Forall e820_ok map → 0 <= count <= Z.of_nat (length map) → 0 <= highest →
  ∃ s', pmm_init map count highest s = Done tt s' ∧
    total_pages s' = highest / PAGE_SIZE ∧
    ∀ p, 0 <= p < 8 * (highest / PAGE_SIZE / 8 + 1) →
      used s' p = reserved (highest / PAGE_SIZE / 8 + 1) p ||
                  negb (existsb (λ e, in_region e p) (take (Z.to_nat count) map)).
Proof.
  intros Hok Hc Hh. unfold pmm_init.
  set (pages := highest / PAGE_SIZE). set (bb := pages / 8 + 1).
  assert (0 <= bb) as Hbb by (subst bb pages; unfold PAGE_SIZE; Z.div_mod_to_equations; lia).
  set (s0 := Pmm (bitmap s) pages (used_pages s)).
  set (s1 := loop_up (Z.to_nat bb) 0 (λ i s, set_byte i 0xFF s) s0).
  set (s2 := Pmm (bitmap s1) (total_pages s1) (total_pages s1)).
  assert (total_pages s2 = pages) as Ht2 by (by apply (total_loop_up _ total_pages)).
  set (body := λ i, e ← access (map !! Z.to_nat i); _).
  destruct (for_up_rule (λ i t, total_pages t = pages ∧ ∀ p, 0 <= p < 8 * bb →
      used t p = negb (existsb (λ e, in_region e p) (take (Z.to_nat i) map)))
    (Z.to_nat count) 0 body s2) as (s3 & Hs3 & Ht3 & Hu3).
  - split; [done|]. intros p Hp. simpl. change (used s1 p = true). by apply used_fill.
  - intros j t Hj (Ht & Hu). destruct (lookup_lt_is_Some_2 map (Z.to_nat j)) as [e He]; [lia|].
    subst body. cbn beta. rewrite He. run.
    assert (∀ p, existsb (λ e, in_region e p) (take (Z.to_nat (j + 1)) map) =
      existsb (λ e, in_region e p) (take (Z.to_nat j) map) || in_region e p) as Htake.
    { intros p. replace (Z.to_nat (j + 1)) with (S (Z.to_nat j)) by lia.
      rewrite (take_S_r _ _ e He), existsb_app. simpl. by rewrite orb_false_r. }
    destruct (Z.eqb_spec (e820_type e) E820_USABLE) as [Heq|Hne].
    + exists (free_region e t). split; [done|]. rewrite total_free_region. split; [done|]. intros p Hp.
      rewrite used_free_region, Htake, Hu, negb_orb, andb_comm; [done|lia| |done|lia].
      by apply (Forall_lookup_1 _ _ _ _ Hok He).
    + exists t. split; [done|]. split; [done|]. intros p Hp. rewrite Htake, Hu by done.
      unfold in_region. rewrite (proj2 (Z.eqb_neq _ _) Hne). simpl. by rewrite orb_false_r.
  - exists (reserve_critical bb s3). split_and!.
    + run. fold s0 s1 s2. by rewrite Hs3.
    + by rewrite total_reserve_critical.
    + intros p Hp. rewrite used_reserve_critical by lia. rewrite Hu3 by done.
      by rewrite Z.add_0_l, Z2Nat.id by lia.
Qed.

(** The counter: the pages of the usable regions less those of step 5, each
    counted as often as it is reserved. *)
Definition usable_pages (map : list e820_entry) : Z :=
  foldr (λ e n, (if e820_type e =? E820_USABLE then e820_length e / PAGE_SIZE else 0) + n) 0 map.
Definition reserved_count (bitmap_bytes : Z) : Z := 1 + 1 + 31 + (bitmap_bytes / PAGE_SIZE + 1) + HEAP_SIZE / PAGE_SIZE.

Lemma u64_eq_add a b c : u64 a = u64 b → u64 (a + c) = u64 (b + c).
Proof. word_lia. Qed.

Lemma u64_eq_rsub a b c : u64 a = u64 b → u64 (c - a) = u64 (c - b).
Proof. word_lia. Qed.

Lemma u64_u64_add a c : u64 (u64 a + c) = u64 (a + c).
Proof. word_lia. Qed.

(** A loop that adds [d] to the counter each time. *)
Lemma loop_counts d (f : Z → pmm → pmm) n i s :
  (∀ j t, u64 (used_pages (f j t)) = u64 (used_pages t + d)) →
  u64 (used_pages (loop_up n i f s)) = u64 (used_pages s + Z.of_nat n * d).
Proof.
  intros Hf. revert i s. induction n as [|n IH]; intros i s; [f_equal; simpl; lia|].
  cbn [loop_up]. rewrite IH, (u64_eq_add _ _ _ (Hf i s)). f_equal. lia.
Qed.

Lemma count_free_region e s : u64 (used_pages (free_region e s)) = u64 (used_pages s - Z.max 0 (e820_length e / PAGE_SIZE)).
Proof.
  unfold free_region. rewrite (loop_counts (-1)) by (intros; cbn; word_lia). f_equal. lia.
Qed.

Lemma count_reserve_range a b s :
  u64 (used_pages (reserve_range a b s)) = u64 (used_pages s + Z.max 0 ((b - a + (PAGE_SIZE - 1)) / PAGE_SIZE)).
Proof. unfold reserve_range. rewrite (loop_counts 1) by (intros; cbn; word_lia). f_equal. lia. Qed.

Lemma count_reserve_critical bb s : 0 <= bb → u64 (used_pages (reserve_critical bb s)) = u64 (used_pages s + reserved_count bb).
Proof.
  intros Hbb. unfold reserve_critical, reserved_count. cbv zeta. rewrite count_reserve_range.
  set (s1 := reserve_range 0x1000 0x20000 _).
  assert (H1 : u64 (used_pages s1) = u64 (used_pages s + 33)).
  { subst s1. rewrite count_reserve_range. cbn [used_pages add_used bitmap_set set_byte].
    change (Z.max 0 ((0x20000 - 0x1000 + (PAGE_SIZE - 1)) / PAGE_SIZE)) with 31.
    rewrite u64_u64_add, <- Z.add_assoc, u64_u64_add. f_equal. lia. }
  pose proof (loop_counts 1 (λ p s, add_used 1 (bitmap_set (PMM_BITMAP_PHYSICAL / PAGE_SIZE + p) s))
    (Z.to_nat (bb / PAGE_SIZE + 1)) 0 s1 ltac:(intros; cbn; word_lia)) as H2.
  assert (0 <= bb / PAGE_SIZE) by (apply Z.div_pos; [lia|done]). rewrite Z2Nat.id in H2 by lia.
  change (Z.max 0 ((HEAP_PHYSICAL_BASE + HEAP_SIZE - HEAP_PHYSICAL_BASE + (PAGE_SIZE - 1)) / PAGE_SIZE)) with 4096.
  change (HEAP_SIZE / PAGE_SIZE) with 4096. set (b := bb / PAGE_SIZE) in *. clearbody b.
  rewrite (u64_eq_add _ _ 4096 H2), <- Z.add_assoc, (u64_eq_add _ _ _ H1). f_equal. lia.
Qed.

Lemma usable_pages_snoc l e : usable_pages (l ++ [e]) =
  usable_pages l + (if e820_type e =? E820_USABLE then e820_length e / PAGE_SIZE else 0).
Proof. unfold usable_pages. induction l as [|x l IH]; simpl; [lia|]. rewrite IH. lia. Qed.

(** What pmm_free_pages() gives afterwards. *)
Lemma pmm_init_counter map count highest s s' :
  Forall e820_ok map → 0 <= count <= Z.of_nat (length map) → 0 <= highest →
  pmm_init map count highest s = Done tt s' →
  pmm_free_pages s' = u64 (usable_pages (take (Z.to_nat count) map) - reserved_count (highest / PAGE_SIZE / 8 + 1)).
Proof.
  intros Hok Hc Hh Hrun. set (pages := highest / PAGE_SIZE) in *. set (bb := pages / 8 + 1) in *.
  set (s0 := Pmm (bitmap s) pages (used_pages s)). set (s1 := loop_up (Z.to_nat bb) 0 (λ i s, set_byte i 0xFF s) s0).
  set (s2 := Pmm (bitmap s1) (total_pages s1) (total_pages s1)).
  assert (total_pages s2 = pages) as Ht2 by (by apply (total_loop_up _ total_pages)).
  set (body := λ i, e ← access (map !! Z.to_nat i);
    if e820_type e =? E820_USABLE then modify (free_region e) else mret tt : M pmm unit).
  destruct (for_up_rule (λ i t, total_pages t = pages ∧
      u64 (used_pages t) = u64 (pages - usable_pages (take (Z.to_nat i) map))) (Z.to_nat count) 0 body s2) as (s3 & Hs3 & Ht3 & Hu3).
  - split; [done|]. rewrite <- Ht2. cbn. f_equal. unfold usable_pages. simpl. lia.
  - intros j t Hj (Ht & Hu). destruct (lookup_lt_is_Some_2 map (Z.to_nat j)) as [e He]; [lia|].
    subst body. cbn beta. rewrite He. run. replace (Z.to_nat (j + 1)) with (S (Z.to_nat j)) by lia.
    rewrite (take_S_r _ _ e He), usable_pages_snoc. destruct (e820_type e =? E820_USABLE).
    + exists (free_region e t). split; [done|]. rewrite total_free_region. split; [done|]. rewrite count_free_region.
      destruct (Forall_lookup_1 _ _ _ _ Hok He) as (_ & Hl & _).
      assert (0 <= e820_length e / PAGE_SIZE) by (apply Z.div_pos; [lia|done]). set (n := e820_length e / PAGE_SIZE) in *.
      rewrite Z.max_r by lia. unfold Z.sub at 1. rewrite (u64_eq_add _ _ (- n) Hu). f_equal. lia.
    + exists t. split; [done|]. split; [done|]. rewrite Z.add_0_r. done.
  - assert (E : pmm_init map count highest s = Done tt (reserve_critical bb s3)).
    { unfold pmm_init. set (body' := λ i, e ← access (map !! Z.to_nat i); _). change body' with body.
      run. fold pages bb s0 s1 s2. by rewrite Hs3. }
    rewrite Hrun in E. apply Done_inj in E as [_ ->]. clear Hrun.
    assert (0 <= bb) by (subst bb pages; unfold PAGE_SIZE; Z.div_mod_to_equations; lia).
    pose proof (count_reserve_critical bb s3 ltac:(done)) as Hcr. unfold pmm_free_pages. rewrite total_reserve_critical, Ht3.
    rewrite Z.add_0_l, Z2Nat.id in Hu3 by lia. set (m := usable_pages _) in *. set (r := reserved_count bb) in *.
    rewrite (u64_eq_rsub _ _ pages Hcr), (u64_eq_rsub _ (pages - m + r) pages) by (by apply u64_eq_add). f_equal. lia.
Qed.

(** ** Allocation *)

Lemma pmm_alloc_loop_spec n : ∀ i s,
  (∃ k, i <= k < i + Z.of_nat n ∧ used s k = false ∧ (∀ j, i <= j < k → used s j = true) ∧
     pmm_alloc_loop n i s = Done (u64 (k * PAGE_SIZE)) (add_used 1 (bitmap_set k s))) ∨
  ((∀ j, i <= j < i + Z.of_nat n → used s j = true) ∧
     pmm_alloc_loop n i s = Panic "pmm_alloc: out of physical memory!").
Proof.
  induction n as [|n IH]; intros i s; simpl.
  - right. split; [lia|done].
  - rewrite bitmap_test_used. destruct (used s i) eqn:Hu; simpl.
    + destruct (IH (i + 1) s) as [(k & Hk & Huk & Hj & ->)|[Hj ->]]; [left|right].
      * exists k. split_and!; [lia|lia|done| |done]. intros j Hij.
        destruct (decide (j = i)) as [->|]; [done|]. apply Hj. lia.
      * split; [|done]. intros j Hij. destruct (decide (j = i)) as [->|]; [done|]. apply Hj. lia.
    + left. exists i. split_and!; [lia|lia|done| |done]. lia.
Qed.

(** The addresses of the pages fit in 64 bits. *)
Definition pmm_ok (s : pmm) : Prop := 0 <= total_pages s < 2 ^ 52.

Lemma pmm_alloc_Done s a s' :
  pmm_ok s → pmm_alloc s = Done a s' →
  ∃ k, a = k * PAGE_SIZE ∧ 0 <= k < total_pages s ∧ used s k = false ∧
    (∀ j, 0 <= j < k → used s j = true) ∧ s' = add_used 1 (bitmap_set k s).
Proof.
  intros [H0 H1] Ha. unfold pmm_alloc in Ha.
  destruct (pmm_alloc_loop_spec (Z.to_nat (total_pages s)) 0 s) as [(k & Hk & Hu & Hj & Heq)|[_ Heq]];
    rewrite Heq in Ha; [|done]. simplify_eq. exists k.
  unfold PAGE_SIZE in *. rewrite u64_small by lia. split_and!; try done; lia.
Qed.

Lemma pmm_alloc_total s :
  (∃ a s', pmm_alloc s = Done a s') ∨
  (pmm_alloc s = Panic "pmm_alloc: out of physical memory!" ∧
   ∀ p, 0 <= p < total_pages s → used s p = true).
Proof.
  unfold pmm_alloc.
  destruct (pmm_alloc_loop_spec (Z.to_nat (total_pages s)) 0 s) as [(k & _ & _ & _ & ->)|[Hj ->]];
    [eauto|right]. split; [done|]. intros p Hp. apply Hj. lia.
Qed.

Lemma pmm_free_Done s a s' :
  pmm_free a s = Done tt s' →
  (a = 0 ∧ s' = s) ∨ (a ≠ 0 ∧ s' = add_used (-1) (bitmap_clear (a / PAGE_SIZE) s)).
Proof.
  unfold pmm_free. destruct (Z.eqb_spec a 0); intros; simplify_eq; auto.
Qed.

(** ** Clients of the allocator *)

(** [pmm_run s0 s l]: from [s0], a sequence of pmm_alloc() calls and of
    pmm_free() calls on pages handed out and not freed since leads to [s];
    [l] is what is handed out. *)
Inductive pmm_run (s0 : pmm) : pmm → list Z → Prop :=
  | run_start : pmm_run s0 s0 []
  | run_alloc s l a s' :
      pmm_run s0 s l → pmm_alloc s = Done a s' → pmm_run s0 s' (a :: l)
  | run_free s l1 a l2 s' :
      pmm_run s0 s (l1 ++ a :: l2) → pmm_free a s = Done tt s' → pmm_run s0 s' (l1 ++ l2).

(** The number of pages below [n] marked used. *)
Fixpoint count_used (n : nat) (s : pmm) : Z :=
  match n with
  | O => 0
  | S n => count_used n s + (if used s (Z.of_nat n) then 1 else 0)
  end.

Definition page_count (s : pmm) : Z := count_used (Z.to_nat (total_pages s)) s.

Lemma count_used_ext n s t :
  (∀ p, 0 <= p < Z.of_nat n → used s p = used t p) → count_used n s = count_used n t.
Proof.
  induction n as [|n IH]; intros H; [done|]. simpl. rewrite H, IH; [done|intros; apply H; lia|lia].
Qed.

Lemma count_used_set n s k :
  0 <= k < Z.of_nat n → used s k = false → count_used n (bitmap_set k s) = count_used n s + 1.
Proof.
  induction n as [|n IH]; intros Hk Hu; [lia|]. simpl. rewrite used_set.
  destruct (decide (k = Z.of_nat n)) as [->|Hne].
  - rewrite bool_decide_eq_true_2, Hu by done. simpl.
    rewrite (count_used_ext n _ s); [lia|]. intros p Hp. rewrite used_set.
    by rewrite bool_decide_eq_false_2 by lia.
  - rewrite bool_decide_eq_false_2 by lia. simpl. rewrite IH by (done || lia). lia.
Qed.

Lemma count_used_clear n s k :
  0 <= k < Z.of_nat n → used s k = true → count_used n (bitmap_clear k s) = count_used n s - 1.
Proof.
  intros Hk Hu. rewrite <- (count_used_ext n (bitmap_set k (bitmap_clear k s)) s).
  - rewrite count_used_set; [lia|done|]. rewrite used_clear, bool_decide_eq_true_2 by done. done.
  - intros p _. autorewrite with pmm. case_bool_decide; subst; simpl; [done|]. done.
Qed.

(** The invariant of a run: the pages handed out are distinct used pages
    that were free at the start; the other free pages are those of the
    start; the counter has not drifted from the bitmap. *)
Record run_inv (s0 s : pmm) (l : list Z) : Prop := {
  run_total : total_pages s = total_pages s0;
  run_nodup : NoDup l;
  run_out : ∀ a, a ∈ l → a mod PAGE_SIZE = 0 ∧ 0 <= a / PAGE_SIZE < total_pages s0 ∧
              used s0 (a / PAGE_SIZE) = false ∧ used s (a / PAGE_SIZE) = true;
  run_rest : ∀ p, 0 <= p < total_pages s0 → used s0 p = true → used s p = true;
  run_count : u64 (used_pages s - page_count s) = u64 (used_pages s0 - page_count s0) }.

Lemma run_inv_alloc s0 s l a s' :
  pmm_ok s0 → run_inv s0 s l → pmm_alloc s = Done a s' → run_inv s0 s' (a :: l).
Proof.
  intros Hok [Ht Hn Ho Hr Hc] Ha.
  assert (pmm_ok s) as Hok' by (unfold pmm_ok; by rewrite Ht).
  destruct (pmm_alloc_Done _ _ _ Hok' Ha) as (k & -> & Hk & Hu & _ & ->).
  assert (k * PAGE_SIZE / PAGE_SIZE = k) as Hdiv by (apply Z.div_mul; done).
  split.
  - done.
  - constructor; [|done]. intros Hin. destruct (Ho _ Hin) as (_ & _ & _ & Hu').
    rewrite Hdiv in Hu'. congruence.
  - intros b [->|Hin]%elem_of_cons.
    + rewrite Hdiv. autorewrite with pmm. rewrite bool_decide_eq_true_2 by done.
      split_and!; [by apply Z.mod_mul|lia|lia| |done].
      destruct (used s0 k) eqn:Hu0; [|done]. by rewrite Hr in Hu by (done || lia).
    + destruct (Ho b Hin) as (? & ? & ? & Hub). autorewrite with pmm. rewrite Hub, orb_true_r. done.
  - intros p Hp Hup. autorewrite with pmm. by rewrite Hr, orb_true_r.
  - rewrite <- Hc. unfold page_count. cbn [total_pages add_used bitmap_set set_byte used_pages].
    rewrite (count_used_ext _ _ (bitmap_set k s)) by done.
    rewrite count_used_set by (done || lia). word_lia.
Qed.

Lemma run_inv_free s0 s l1 a l2 s' :
  run_inv s0 s (l1 ++ a :: l2) → pmm_free a s = Done tt s' → run_inv s0 s' (l1 ++ l2).
Proof.
  intros [Ht Hn Ho Hr Hc] Hf.
  destruct (Ho a) as (Hm & Hk & Hu0 & Hu); [set_solver|].
  assert (NoDup (a :: l1 ++ l2)) as Hn' by (by rewrite Permutation_middle).
  apply list.NoDup_cons in Hn' as [Hni Hn'].
  assert (∀ b, b ∈ l1 ++ l2 → b ∈ l1 ++ a :: l2) as Hsub by set_solver.
  destruct (pmm_free_Done _ _ _ Hf) as [[-> ->]|[Hne ->]].
  { split; try done. intros b Hb. apply Ho, Hsub, Hb. }
  split.
  - done.
  - done.
  - intros b Hb. destruct (Ho b (Hsub _ Hb)) as (Hbm & Hbk & Hb0 & Hbu). autorewrite with pmm.
    rewrite bool_decide_eq_false_2; [done|]. intros Heq. assert (b = a) as ->; [|done].
    rewrite (Z.div_mod b PAGE_SIZE), (Z.div_mod a PAGE_SIZE) by done. lia.
  - intros p Hp Hup. autorewrite with pmm. rewrite bool_decide_eq_false_2 by congruence.
    simpl. by apply Hr.
  - rewrite <- Hc. unfold page_count. cbn [total_pages add_used bitmap_clear set_byte used_pages].
    rewrite (count_used_ext _ _ (bitmap_clear (a / PAGE_SIZE) s)) by done.
    rewrite count_used_clear by (done || lia). word_lia.
Qed.

Lemma run_inv_run s0 s l : pmm_ok s0 → pmm_run s0 s l → run_inv s0 s l.
Proof.
  intros Hok. induction 1.
  - split; try done; [constructor|set_solver].
  - by eapply run_inv_alloc.
  - by eapply run_inv_free.
Qed.

(** ** The drift of the counter *)

Definition drift (s : pmm) : Z := u64 (used_pages s - page_count s).

Definition mark (k : Z) (s : pmm) : pmm := add_used 1 (bitmap_set k s).

Lemma total_mark k s : total_pages (mark k s) = total_pages s.
Proof. done. Qed.

Lemma drift_mark k s :
  0 <= k < total_pages s → drift (mark k s) = if used s k then u64 (drift s + 1) else drift s.
Proof.
  intros Hk. unfold drift, page_count, mark.
  cbn [total_pages add_used bitmap_set set_byte used_pages].
  rewrite (count_used_ext _ _ (bitmap_set k s)) by done.
  destruct (used s k) eqn:Hu.
  - rewrite (count_used_ext _ _ s); [word_lia|]. intros p _. rewrite used_set.
    case_bool_decide; subst; [by rewrite Hu|done].
  - rewrite count_used_set by (done || lia). word_lia.
Qed.

(** Marking [n] distinct free pages keeps the drift. *)
Lemma mark_free (f : Z → Z) n i s :
  (∀ j, i <= j < i + Z.of_nat n → 0 <= f j < total_pages s ∧ used s (f j) = false) →
  (∀ j k, i <= j < i + Z.of_nat n → i <= k < i + Z.of_nat n → f j = f k → j = k) →
  let s' := loop_up n i (λ k, mark (f k)) s in
  total_pages s' = total_pages s ∧ drift s' = drift s ∧
  ∀ p, used s' p = true ↔ used s p = true ∨ ∃ j, i <= j < i + Z.of_nat n ∧ p = f j.
Proof.
  intros Hf Hinj. apply (loop_up_rule (λ k t, total_pages t = total_pages s ∧ drift t = drift s ∧
    ∀ p, used t p = true ↔ used s p = true ∨ ∃ j, i <= j < k ∧ p = f j)).
  - split_and!; [done|done|]. intros p. split; [auto|]. intros [?|(j & ? & _)]; [done|lia].
  - intros k t Hk (Ht & Hd & Hu). split_and!; [done| |].
    + destruct (Hf k Hk) as [Hr Hu0]. rewrite drift_mark by (rewrite Ht; lia).
      destruct (used t (f k)) eqn:Hc; [|done]. apply Hu in Hc as [Hc|(j & Hj & Heq)]; [congruence|].
      apply Hinj in Heq; lia.
    + intros p. unfold mark. rewrite used_add_used, used_set, orb_true_iff, Hu, bool_decide_eq_true.
      split.
      * intros [->|[?|(j & ? & ?)]]; [right; exists k|by left|right; exists j]; split; done || lia.
      * intros [?|(j & Hj & ->)]; [auto|]. destruct (decide (j = k)) as [->|]; [auto|].
        right. right. exists j. split; [lia|done].
Qed.

Lemma loop_up_app {S} n m i (f : Z → S → S) s :
  loop_up (n + m) i f s = loop_up m (i + Z.of_nat n) f (loop_up n i f s).
Proof.
  revert i s. induction n as [|n IH]; intros i s; simpl; [by rewrite Z.add_0_r|].
  rewrite IH. f_equal. lia.
Qed.

(** * Properties *)

(** A 64 MB machine: low memory and everything above 1 MB usable. *)
Definition demo_map : list e820_entry :=
  [E820 0 0x9F000 1 1; E820 0x9F000 0x61000 2 1; E820 0x100000 0x3F00000 1 1].
Definition demo_ram : Z := 0x4000000.

Lemma demo_map_ok : Forall e820_ok demo_map.
Proof. repeat constructor; by_compute. Qed.

Lemma existsb_in_region map p :
  existsb (λ e, in_region e p) map = true → ∃ e, e ∈ map ∧ in_region e p = true.
Proof. intros (e & He & Hp)%existsb_exists. exists e. by rewrite list_elem_of_In. Qed.

(** On every E820 map pmm_init() ends, and a page that the bitmap covers
    is free exactly when it lies in a usable region and is none of the
    reserved pages (low memory up to 0x20000, the bitmap, the kernel heap). *)
Lemma pmm_init_free_pages map count highest s :
  Forall e820_ok map → 0 <= count <= Z.of_nat (length map) → 0 <= highest →
  ∃ s', pmm_init map count highest s = Done tt s' ∧ total_pages s' = highest / PAGE_SIZE ∧
    ∀ p, 0 <= p < total_pages s' →
      bitmap_test s' p = true ↔
      reserved (highest / PAGE_SIZE / 8 + 1) p = false ∧
      ∃ e, e ∈ take (Z.to_nat count) map ∧ in_region e p = true.
Proof.
  intros Hok Hc Hh. destruct (pmm_init_result map count highest s Hok Hc Hh) as (s' & Hs & Ht & Hu).
  exists s'. split_and!; [done|done|]. intros p Hp. rewrite Ht in Hp.
  rewrite bitmap_test_used, Hu by (unfold PAGE_SIZE in *; Z.div_mod_to_equations; lia).
  rewrite negb_orb, negb_involutive, andb_true_iff, negb_true_iff. f_equiv. split.
  - apply existsb_in_region.
  - intros (e & He & Hp'). apply existsb_exists. exists e. by rewrite <- list_elem_of_In.
Qed.

Lemma pmm_init_free_pages_witness :
  ∃ s', pmm_init demo_map 3 demo_ram (Pmm ∅ 0 0) = Done tt s' ∧ total_pages s' = 16384 ∧
    ∀ p, 0 <= p < total_pages s' →
      bitmap_test s' p = true ↔
      reserved 2049 p = false ∧ ∃ e, e ∈ demo_map ∧ in_region e p = true.
Proof.
  apply (pmm_init_free_pages demo_map 3 demo_ram (Pmm ∅ 0 0)); [apply demo_map_ok|simpl; lia|by_compute].
Defined.

(** The kernel is loaded at 0x100000, and no range of step 5 covers it: where
    the E820 map has usable RAM there, its first page is free. *)
Lemma kernel_image_free map count highest s e :
  Forall e820_ok map → 0 <= count <= Z.of_nat (length map) → 0x101000 <= highest →
  e ∈ take (Z.to_nat count) map → in_region e (0x100000 / PAGE_SIZE) = true →
  8 * (highest / PAGE_SIZE / 8 + 1) <= 2 ^ 35 →
  ∃ s', pmm_init map count highest s = Done tt s' ∧ used s' (0x100000 / PAGE_SIZE) = false.
Proof.
  intros Hok Hc Hh He Hin Hb. destruct (pmm_init_result map count highest s Hok Hc ltac:(lia)) as (s' & Hs & _ & Hu).
  exists s'. split; [done|]. change (0x100000 / PAGE_SIZE) with 256 in *. rewrite Hu by (unfold PAGE_SIZE; Z.div_mod_to_equations; lia).
  apply orb_false_iff. split.
  - unfold reserved. change (0x20000 / PAGE_SIZE) with 32. change (PMM_BITMAP_PHYSICAL / PAGE_SIZE) with 512.
    change (HEAP_PHYSICAL_BASE / PAGE_SIZE) with 8704. done.
  - apply negb_false_iff, existsb_exists. exists e. by rewrite <- list_elem_of_In.
Qed.

(** Clients get it when the 127 free pages of low memory are in use. *)
Fixpoint pmm_alloc_many (n : nat) : M pmm Z :=
  match n with O => pmm_alloc | S n => pmm_alloc ;; pmm_alloc_many n end.

Lemma kernel_image_handed_out : match pmm_init demo_map 3 demo_ram (Pmm ∅ 0 0) with
  | Done _ s => match pmm_alloc_many 127 s with Done a _ => a =? 0x100000 | _ => false end
  | _ => false
  end = true.
Proof. vm_compute. reflexivity. Qed.

(** pmm_alloc() returns the address of the lowest free page, page-aligned
    and inside RAM, and marks exactly that page used; it stops the machine
    only when every page is used. *)
Lemma pmm_alloc_first_fit s :
  pmm_ok s →
  match pmm_alloc s with
  | Done a s' =>
      ∃ k, a = k * PAGE_SIZE ∧ 0 <= k < total_pages s ∧ bitmap_test s k = true ∧
        (∀ j, 0 <= j < k → bitmap_test s j = false) ∧
        (∀ p, bitmap_test s' p = if decide (p = k) then false else bitmap_test s p) ∧
        total_pages s' = total_pages s ∧ used_pages s' = u64 (used_pages s + 1)
  | Panic _ => ∀ p, 0 <= p < total_pages s → bitmap_test s p = false
  | _ => False
  end.
Proof.
  intros Hok. destruct (pmm_alloc_total s) as [(a & s' & Ha)|[-> Hall]].
  - rewrite Ha. destruct (pmm_alloc_Done _ _ _ Hok Ha) as (k & -> & Hk & Hu & Hj & ->).
    exists k. split_and!; try done; try lia.
    + by rewrite bitmap_test_used, Hu.
    + intros j Hj'. by rewrite bitmap_test_used, Hj.
    + intros p. rewrite !bitmap_test_used. autorewrite with pmm.
      case_decide; [by rewrite bool_decide_eq_true_2|by rewrite bool_decide_eq_false_2].
  - intros p Hp. by rewrite bitmap_test_used, Hall.
Qed.

Lemma pmm_alloc_first_fit_witness :
  pmm_ok (Pmm {[0 := 0xF7]} 8 7) ∧
  ∃ k, 3 * PAGE_SIZE = k * PAGE_SIZE ∧ 0 <= k < 8.
Proof.
  assert (Hok : pmm_ok (Pmm {[0 := 0xF7]} 8 7)) by by_compute. split; [done|].
  pose proof (pmm_alloc_first_fit _ Hok) as H.
  change (pmm_alloc _) with (@Done pmm Z (3 * PAGE_SIZE) (Pmm {[0 := 0xFF]} 8 8)) in H.
  cbn iota in H. destruct H as (k & H1 & H2 & _). eauto.
Defined.

(** The whole page at [a] is RAM that the entry calls usable. *)
Definition in_ram (e : e820_entry) (a : Z) : Prop :=
  e820_type e = E820_USABLE ∧ e820_base e <= a ∧ a + PAGE_SIZE <= e820_base e + e820_length e.

(** The pages freed for an entry end with it, and begin with it when it is
    aligned to pages; otherwise the first one begins below it. *)
Lemma in_region_ram e a : e820_ok e → a mod PAGE_SIZE = 0 → in_region e (a / PAGE_SIZE) = true →
  e820_type e = E820_USABLE ∧ e820_base e - PAGE_SIZE < a ∧ a + PAGE_SIZE <= e820_base e + e820_length e ∧
  (e820_base e mod PAGE_SIZE = 0 → in_ram e a).
Proof.
  intros (Hb & Hl & Hw) Ha. unfold in_region. rewrite !andb_true_iff, Z.eqb_eq, Z.leb_le, Z.ltb_lt. intros [[Ht H1] H2].
  unfold in_ram, PAGE_SIZE in *. split_and!; [done|Z.div_mod_to_equations; lia..|].
  intros He. split_and!; [done|Z.div_mod_to_equations; lia..].
Qed.

(** C36. From a freshly initialised memory manager, whatever its clients
    allocate and free: the pages they hold are distinct, page-aligned,
    non-null, and never the kernel's low memory, the bitmap or the kernel heap.
    Each ends within a region the E820 map calls usable; all of it lies in
    that region when the region starts at a page boundary, and otherwise it
    may be the page the region starts in, whose first bytes the map does not
    call usable. *)
Theorem pmm_clients_safe map count highest s s0 t l :
  Forall e820_ok map → 0 <= count <= Z.of_nat (length map) → 0 <= highest < 2 ^ 64 →
  pmm_init map count highest s = Done tt s0 → pmm_run s0 t l →
  NoDup l ∧ ∀ a, a ∈ l →
    a mod PAGE_SIZE = 0 ∧ 0 < a < highest ∧
    reserved (highest / PAGE_SIZE / 8 + 1) (a / PAGE_SIZE) = false ∧
    ∃ e, e ∈ take (Z.to_nat count) map ∧ e820_type e = E820_USABLE ∧
      e820_base e - PAGE_SIZE < a ∧ a + PAGE_SIZE <= e820_base e + e820_length e ∧
      (e820_base e mod PAGE_SIZE = 0 → in_ram e a).
Proof.
  intros Hok Hc Hh Hi Hrun.
  destruct (pmm_init_result map count highest s Hok Hc) as (s' & Hs & Ht & Hu); [lia|].
  rewrite Hi in Hs. simplify_eq.
  assert (pmm_ok s') as Hpo.
  { unfold pmm_ok. rewrite Ht. unfold PAGE_SIZE. Z.div_mod_to_equations. lia. }
  destruct (run_inv_run _ _ _ Hpo Hrun) as [_ Hn Ho _ _]. split; [done|].
  intros a Ha. destruct (Ho a Ha) as (Hm & Hk & Hu0 & _). rewrite Ht in Hk.
  rewrite Hu, orb_false_iff, negb_false_iff in Hu0
    by (unfold PAGE_SIZE in *; Z.div_mod_to_equations; lia).
  destruct Hu0 as [Hr (e & He & Hp)%existsb_in_region].
  assert (0 < a / PAGE_SIZE).
  { destruct (decide (a / PAGE_SIZE = 0)) as [H0|]; [|lia]. by rewrite H0 in Hr. }
  split_and!; [done| | |done|].
  - unfold PAGE_SIZE in *. Z.div_mod_to_equations. lia.
  - unfold PAGE_SIZE in *. Z.div_mod_to_equations. lia.
  - exists e. split; [done|]. apply in_region_ram; [|done|done]. rewrite list.Forall_forall in Hok.
    apply Hok. apply elem_of_take in He as (i & Hi' & _). by eapply list_elem_of_lookup_2.
Qed.

Lemma pmm_clients_safe_witness :
  ∃ s0 a t, pmm_init demo_map 3 demo_ram (Pmm ∅ 0 0) = Done tt s0 ∧ pmm_alloc s0 = Done a t ∧
    ∃ e, e ∈ demo_map ∧ in_ram e a.
Proof.
  destruct (pmm_init_result demo_map 3 demo_ram (Pmm ∅ 0 0)) as (s0 & Hi & Ht & Hu);
    [apply demo_map_ok|simpl; lia|by_compute|].
  destruct (pmm_alloc_total s0) as [(a & t & Ha)|[_ Hall]]; cycle 1.
  { exfalso. assert (used s0 40 = true) as H by (apply Hall; rewrite Ht; by_compute).
    rewrite Hu in H by by_compute. discriminate H. }
  exists s0, a, t. split; [done|]. split; [done|].
  destruct (pmm_clients_safe demo_map 3 demo_ram (Pmm ∅ 0 0) s0 t [a]) as [_ H].
  - apply demo_map_ok.
  - simpl; lia.
  - split; by_compute.
  - done.
  - by apply (run_alloc s0 s0 [] a t); [constructor|].
  - destruct (H a) as (_ & _ & _ & e & He & _ & _ & _ & Hram); [by left|]. exists e. split; [exact He|].
    apply Hram. change (take _ demo_map) with demo_map in He. unfold demo_map in He. rewrite !elem_of_cons in He.
    destruct He as [->|[->|[->|[]%not_elem_of_nil]]]; reflexivity.
Defined.

(** Where a usable region starts in the middle of a page, the page it starts in
    is handed out whole: here the 2048 bytes below 0x30800 that no entry of the
    map calls usable. *)
Definition unaligned_map : list e820_entry := [E820 0x30800 0x10000 1 1].

Lemma unaligned_region_overruns :
  match pmm_init unaligned_map 1 demo_ram (Pmm ∅ 0 0) with
  | Done _ s => match pmm_alloc s with Done a _ => a =? 0x30000 | _ => false end
  | _ => false
  end = true ∧ Forall (λ e, 0x30000 < e820_base e) unaligned_map.
Proof. split; [vm_compute; reflexivity|by repeat constructor]. Qed.

(** Along any use of the allocator the used-page counter keeps step with
    the bitmap: their difference stays what it was (modulo 2^64). *)
Lemma pmm_accounting s0 s l :
  pmm_ok s0 → pmm_run s0 s l →
  u64 (pmm_used_pages s - page_count s) = u64 (pmm_used_pages s0 - page_count s0) ∧
  pmm_free_pages s = u64 (total_pages s0 - page_count s - (pmm_used_pages s0 - page_count s0)).
Proof.
  intros Hok Hrun. destruct (run_inv_run _ _ _ Hok Hrun) as [Ht _ _ _ Hc].
  unfold pmm_used_pages, pmm_free_pages. split; [done|]. rewrite Ht. revert Hc. word_lia.
Qed.

Lemma pmm_accounting_witness :
  pmm_run (Pmm {[0 := 0xF7]} 8 7) (Pmm {[0 := 0xFF]} 8 8) [3 * PAGE_SIZE] ∧
  u64 (8 - page_count (Pmm {[0 := 0xFF]} 8 8)) = u64 (7 - page_count (Pmm {[0 := 0xF7]} 8 7)).
Proof.
  assert (H : pmm_run (Pmm {[0 := 0xF7]} 8 7) (Pmm {[0 := 0xFF]} 8 8) [3 * PAGE_SIZE]).
  { eapply run_alloc; [constructor|]. reflexivity. }
  split; [done|]. refine (proj1 (pmm_accounting _ _ _ _ H)). by_compute.
Defined.

(** C9. pmm_init() itself overcounts: when the regions it takes back were
    all free, its counter ends one above the pages the bitmap marks, because
    page 7 (the boot sector) is also in the range 0x1000-0x20000. *)
Theorem pmm_init_overcounts bb s :
  0 <= bb < HEAP_PHYSICAL_BASE - PMM_BITMAP_PHYSICAL →
  (HEAP_PHYSICAL_BASE + HEAP_SIZE) / PAGE_SIZE <= total_pages s →
  (∀ p, 0 <= p → reserved bb p = true → bitmap_test s p = true) →
  drift (reserve_critical bb s) = u64 (drift s + 1).
Proof.
  intros Hbb Ht Hfree. change ((HEAP_PHYSICAL_BASE + HEAP_SIZE) / PAGE_SIZE) with 12800 in Ht.
  set (n := bb / PAGE_SIZE + 1).
  assert (1 <= n <= 8192) as Hn.
  { subst n. unfold PAGE_SIZE, HEAP_PHYSICAL_BASE, PMM_BITMAP_PHYSICAL in *. Z.div_mod_to_equations. lia. }
  assert (∀ p, 0 <= p < 32 ∨ 512 <= p < 512 + n ∨ 8704 <= p < 12800 → used s p ≠ true) as Hf.
  { intros p Hp. rewrite <- not_false_iff_true, <- negb_true_iff, <- bitmap_test_used.
    intros H. apply H, Hfree; [lia|]. unfold reserved. fold n. rewrite !orb_true_iff, !andb_true_iff.
    change (0x20000 / PAGE_SIZE) with 32. change (PMM_BITMAP_PHYSICAL / PAGE_SIZE) with 512.
    change (HEAP_PHYSICAL_BASE / PAGE_SIZE) with 8704.
    change ((HEAP_PHYSICAL_BASE + HEAP_SIZE) / PAGE_SIZE) with 12800. lia. }
  change (reserve_critical bb s) with
    (loop_up (Z.to_nat 4096) 0 (λ k, mark ((HEAP_PHYSICAL_BASE + k * PAGE_SIZE) / PAGE_SIZE))
      (loop_up (Z.to_nat n) 0 (λ k, mark (PMM_BITMAP_PHYSICAL / PAGE_SIZE + k))
        (loop_up (6 + (1 + 24)) 0 (λ k, mark ((0x1000 + k * PAGE_SIZE) / PAGE_SIZE)) (mark 7 (mark 0 s))))).
  assert (∀ k, (0x1000 + k * PAGE_SIZE) / PAGE_SIZE = 1 + k) as Hd1
    by (intros; unfold PAGE_SIZE; Z.div_mod_to_equations; lia).
  assert (∀ k, (HEAP_PHYSICAL_BASE + k * PAGE_SIZE) / PAGE_SIZE = 8704 + k) as Hd2
    by (intros; unfold HEAP_PHYSICAL_BASE, PAGE_SIZE; Z.div_mod_to_equations; lia).
  rewrite !loop_up_app. set (s1 := mark 7 (mark 0 s)).
  assert (drift s1 = drift s ∧ total_pages s1 = total_pages s ∧
    ∀ p, used s1 p = true ↔ used s p = true ∨ p = 7 ∨ p = 0) as (E1 & T1 & U1).
  { assert (∀ p, used s1 p = true ↔ used s p = true ∨ p = 7 ∨ p = 0) as U1.
    { intros p. unfold s1, mark. autorewrite with pmm.
      rewrite !orb_true_iff, !bool_decide_eq_true. tauto. }
    split_and!; [|done|done]. unfold s1. rewrite !drift_mark by (rewrite ?total_mark; lia).
    unfold mark. autorewrite with pmm. simpl.
    assert (used s 7 = false) as -> by (apply not_true_iff_false, Hf; lia).
    by assert (used s 0 = false) as -> by (apply not_true_iff_false, Hf; lia). }
  destruct (mark_free (λ k, (0x1000 + k * PAGE_SIZE) / PAGE_SIZE) 6 0 s1) as (T2 & E2 & U2).
  { intros j Hj. rewrite Hd1, <- not_true_iff_false, U1, T1.
    pose proof (Hf (1 + j) ltac:(lia)). split; [lia|]. intros [?|?]; [done|lia]. }
  { intros j k _ _. rewrite !Hd1. lia. }
  set (s2 := loop_up 6 0 _ s1) in *.
  set (s3 := loop_up 1 _ _ s2).
  assert (drift s3 = u64 (drift s + 1) ∧ total_pages s3 = total_pages s ∧
    ∀ p, used s3 p = true ↔ used s2 p = true ∨ p = 7) as (E3 & T3 & U3).
  { change s3 with (mark 7 s2). split_and!; [|change (total_pages s2 = total_pages s); by rewrite T2, T1|].
    - rewrite drift_mark by lia.
      rewrite (proj2 (U2 7)) by (left; apply U1; auto). by rewrite E2, E1.
    - intros p. unfold mark. autorewrite with pmm. rewrite orb_true_iff, bool_decide_eq_true. tauto. }
  destruct (mark_free (λ k, (0x1000 + k * PAGE_SIZE) / PAGE_SIZE) 24 7 s3) as (T4 & E4 & U4).
  { intros j Hj. rewrite Hd1, <- not_true_iff_false, U3, U2, U1, T3.
    pose proof (Hf (1 + j) ltac:(lia)). split; [lia|].
    intros [[[?|?]|(k & Hk & Heq)]|?]; [done|lia|rewrite Hd1 in Heq; lia|lia]. }
  { intros j k _ _. rewrite !Hd1. lia. }
  change (0 + Z.of_nat 6 + Z.of_nat 1) with 7. set (s4 := loop_up 24 7 _ s3) in *.
  assert (∀ p, used s4 p = true → used s p = true ∨ 0 <= p < 32) as W4.
  { intros p. rewrite U4, U3, U2, U1. intros [[[[?|?]|(k & Hk & ->)]|?]|(k & Hk & ->)];
      rewrite ?Hd1; [by left|right; lia..]. }
  destruct (mark_free (λ k, PMM_BITMAP_PHYSICAL / PAGE_SIZE + k) (Z.to_nat n) 0 s4) as (T5 & E5 & U5).
  { change (PMM_BITMAP_PHYSICAL / PAGE_SIZE) with 512. intros j Hj. rewrite <- not_true_iff_false.
    split; [lia|]. intros [H|H]%W4; [|lia]. revert H. apply Hf. lia. }
  { intros j k _ _. lia. }
  set (s5 := loop_up (Z.to_nat n) 0 _ s4) in *.
  destruct (mark_free (λ k, (HEAP_PHYSICAL_BASE + k * PAGE_SIZE) / PAGE_SIZE) (Z.to_nat 4096) 0 s5)
    as (T6 & E6 & U6).
  { intros j Hj. rewrite Hd2, <- not_true_iff_false, U5. split; [lia|].
    change (PMM_BITMAP_PHYSICAL / PAGE_SIZE) with 512.
    intros [[H|H]%W4|(k & Hk & ?)]; [|lia|lia]. revert H. apply Hf. lia. }
  { intros j k _ _. rewrite !Hd2. lia. }
  by rewrite E6, E5, E4, E3.
Qed.

Lemma pmm_init_overcounts_witness :
  drift (reserve_critical 2049 (Pmm ∅ 16384 0)) = u64 (drift (Pmm ∅ 16384 0) + 1).
Proof.
  apply pmm_init_overcounts; [split; by_compute|by_compute|].
  intros p _ _. unfold bitmap_test, bitmap_byte. simpl. by rewrite lookup_empty.
Defined.
