(* ===== verification/Heap.v ===== *)
(** The kernel heap: kernel/memory/mem.c.

    The heap is a singly linked list of block headers, each just before its
    data. The model keeps the headers as they lie in memory, a map from
    address to header, and follows the next pointers as the code does. The
    loops run on fuel, the number of headers ever written plus one, which the
    theorems show is enough. The log and debug output is not modelled. *)

From S2P Require Import Prelude.

Definition HEAP_START : Z := 0xFFFF800002200000.
Definition HEAP_SIZE : Z := 16 * 1024 * 1024.
Definition HEADER_SIZE : Z := 24.

Record block_header := Hdr { h_size : Z; h_free : bool; h_next : Z }.

Record heap := Heap { hdrs : gmap Z block_header; heap_start : Z; heap_used : Z }.

(** * Memory accesses *)

Definition load_hdr (a : Z) : M heap block_header := λ s,
  match hdrs s !! a with Some h => Done h s | None => Fault end.

Definition store_hdr (a : Z) (h : block_header) : M heap unit := λ s,
  Done tt (Heap (<[a := h]> (hdrs s)) (heap_start s) (heap_used s)).

Definition add_heap_used (d : Z) : M heap unit := λ s,
  Done tt (Heap (hdrs s) (heap_start s) (u32 (heap_used s + d))).

Definition fuel (s : heap) : nat := S (size (hdrs s)).

(** * mem_init *)

Definition mem_init : M heap unit :=
  modify (λ s, Heap (hdrs s) HEAP_START (heap_used s)) ;;
  store_hdr HEAP_START (Hdr (HEAP_SIZE - HEADER_SIZE) true 0) ;;
  modify (λ s, Heap (hdrs s) (heap_start s) 0).

(** * kmalloc *)

Definition align4 (size : Z) : Z :=
  if negb (size mod 4 =? 0) then u64 (size + (4 - size mod 4)) else size.

Fixpoint kmalloc_loop (n : nat) (current size : Z) : M heap Z :=
  match n with
  | O => diverge
  | S n =>
      if current =? 0 then kpanic "kmalloc: out of heap memory!"
      else
        h ← load_hdr current;
        if h_free h && (size <=? h_size h) then
          (if u64 (size + HEADER_SIZE + 4) <? h_size h then
             let new_block := u64 (current + HEADER_SIZE + size) in
             store_hdr new_block (Hdr (u64 (h_size h - size - HEADER_SIZE)) true (h_next h)) ;;
             store_hdr current (Hdr size (h_free h) new_block)
           else mret tt) ;;
          h ← load_hdr current;
          store_hdr current (Hdr (h_size h) false (h_next h)) ;;
          add_heap_used (h_size h) ;;
          mret (u64 (current + HEADER_SIZE))
        else kmalloc_loop n (h_next h) size
  end.

Definition kmalloc (size : Z) : M heap Z :=
  if size =? 0 then kpanic "kmalloc: requested zero bytes!"
  else
    s ← get;
    kmalloc_loop (fuel s) (heap_start s) (align4 size).

(** * kfree *)

Fixpoint coalesce_loop (n : nat) (current : Z) : M heap unit :=
  match n with
  | O => diverge
  | S n =>
      if current =? 0 then mret tt
      else
        h ← load_hdr current;
        if h_next h =? 0 then mret tt
        else
          h' ← load_hdr (h_next h);
          if h_free h && h_free h' then
            store_hdr current (Hdr (u64 (h_size h + (HEADER_SIZE + h_size h'))) (h_free h) (h_next h')) ;;
            coalesce_loop n current
          else coalesce_loop n (h_next h)
  end.

Definition kfree (ptr : Z) : M heap unit :=
  if ptr =? 0 then mret tt
  else
    let block := u64 (ptr - HEADER_SIZE) in
    h ← load_hdr block;
    store_hdr block (Hdr (h_size h) true (h_next h)) ;;
    add_heap_used (- h_size h) ;;
    s ← get;
    coalesce_loop (fuel s) (heap_start s).

(** * mem_print_stats: the numbers it prints *)

Fixpoint stats_loop (n : nat) (current total_blocks free_blocks free_bytes : Z) : M heap (Z * Z * Z) :=
  match n with
  | O => diverge
  | S n =>
      if current =? 0 then mret (total_blocks, free_blocks, free_bytes)
      else
        h ← load_hdr current;
        if h_free h
        then stats_loop n (h_next h) (u32 (total_blocks + 1)) (u32 (free_blocks + 1))
               (u32 (free_bytes + h_size h))
        else stats_loop n (h_next h) (u32 (total_blocks + 1)) free_blocks free_bytes
  end.

(** Used bytes, free bytes, blocks. *)
Definition mem_print_stats : M heap (Z * Z * Z) :=
  s ← get;
  t ← stats_loop (fuel s) (heap_start s) 0 0 0;
  mret (heap_used s, t.2, t.1.1).

(** * Specification: a tiling of the heap by blocks *)

(** A block: the size of its data and whether it is free. *)
Definition blk : Type := Z * bool.

(** First fit: the data address handed out and the new tiling. *)
Fixpoint first_fit (n a : Z) (bs : list blk) : option (Z * list blk) :=
  match bs with
  | [] => None
  | (sz, f) :: bs' =>
      if f && (n <=? sz) then
        Some (a + HEADER_SIZE,
              if n + HEADER_SIZE + 4 <? sz
              then (n, false) :: (sz - n - HEADER_SIZE, true) :: bs'
              else (sz, false) :: bs')
      else
        r ← first_fit n (a + HEADER_SIZE + sz) bs';
        Some (r.1, (sz, f) :: r.2)
  end.

(** Free the block whose data is at [p]. *)
Fixpoint release (p a : Z) (bs : list blk) : list blk :=
  match bs with
  | [] => []
  | (sz, f) :: bs' =>
      if p =? a + HEADER_SIZE then (sz, true) :: bs'
      else (sz, f) :: release p (a + HEADER_SIZE + sz) bs'
  end.

(** Merge every run of free blocks. *)
Fixpoint merge (sz : Z) (f : bool) (bs : list blk) : list blk :=
  match bs with
  | [] => [(sz, f)]
  | (sz', f') :: bs' =>
      if f && f' then merge (sz + (HEADER_SIZE + sz')) true bs'
      else (sz, f) :: merge sz' f' bs'
  end.

Definition merge_all (bs : list blk) : list blk :=
  match bs with [] => [] | (sz, f) :: bs' => merge sz f bs' end.

(** The data regions in use, with their sizes. *)
Fixpoint live (a : Z) (bs : list blk) : list (Z * Z) :=
  match bs with
  | [] => []
  | (sz, f) :: bs' =>
      (if f then [] else [(a + HEADER_SIZE, sz)]) ++ live (a + HEADER_SIZE + sz) bs'
  end.

(** The headers in memory from address [a] up to [e] are exactly [bs]. *)
Fixpoint tiles (m : gmap Z block_header) (a : Z) (bs : list blk) (e : Z) : Prop :=
  match bs with
  | [] => a = e
  | (sz, f) :: bs' =>
      0 <= sz ∧ sz mod 4 = 0 ∧
      m !! a = Some (Hdr sz f (match bs' with [] => 0 | _ => a + HEADER_SIZE + sz end)) ∧
      tiles m (a + HEADER_SIZE + sz) bs' e
  end.

Definition live_bytes (bs : list blk) : Z :=
  foldr (λ (b : blk) acc, (if b.2 then 0 else b.1) + acc) 0 bs.

(** The heap in memory represents the tiling [bs]. *)
Record heap_rep (s : heap) (bs : list blk) : Prop := {
  rep_start : heap_start s = HEAP_START;
  rep_tiles : tiles (hdrs s) HEAP_START bs (HEAP_START + HEAP_SIZE);
  rep_used : heap_used s = live_bytes bs }.

(** ** Tilings *)

Lemma tiles_le m a bs e : tiles m a bs e → a + 24 * Z.of_nat (length bs) <= e.
Proof.
  revert a. induction bs as [|[sz f] bs IH]; intros a; simpl; [lia|].
  intros (Hsz & _ & _ & Ht). apply IH in Ht. unfold HEADER_SIZE in *. lia.
Qed.

Lemma tiles_frame m m' a bs e :
  (∀ k, a <= k < e → m' !! k = m !! k) → tiles m a bs e → tiles m' a bs e.
Proof.
  revert a. induction bs as [|[sz f] bs IH]; intros a Hm; simpl; [done|].
  intros (Hsz & H4 & Hh & Ht). pose proof (tiles_le _ _ _ _ Ht) as Hle. unfold HEADER_SIZE in *.
  split_and!; [done|done| |].
  - rewrite Hm; [done|lia].
  - apply IH; [|done]. intros k Hk. apply Hm. lia.
Qed.

(** The headers of a tiling are distinct keys: the fuel is enough. *)
Lemma tiles_size m a bs e : tiles m a bs e → (length bs <= size m)%nat.
Proof.
  intros Ht.
  assert (∃ X : gset Z, X ⊆ dom m ∧ size X = length bs ∧ ∀ k, k ∈ X → a <= k) as (X & HX & <- & _).
  { revert a Ht. induction bs as [|[sz f] bs IH]; intros a; simpl.
    - intros _. exists ∅. rewrite size_empty. set_solver.
    - intros (Hsz & _ & Hh & Ht). destruct (IH _ Ht) as (X & HX & Hs & Hk).
      exists ({[a]} ∪ X). split_and!.
      + apply union_subseteq. split; [|done]. apply singleton_subseteq_l, elem_of_dom. eauto.
      + rewrite size_union, size_singleton, Hs; [done|].
        apply disjoint_singleton_l. intros Hin. apply Hk in Hin. unfold HEADER_SIZE in *. lia.
      + intros k [->%elem_of_singleton|Hin]%elem_of_union; [lia|].
        apply Hk in Hin. unfold HEADER_SIZE in *. lia. }
  rewrite <- size_dom. by apply subseteq_size.
Qed.

Lemma tiles_merge m a bs e : tiles m a bs e → ∀ k h, k < a → tiles (<[k := h]> m) a bs e.
Proof.
  intros Ht k h Hk. eapply tiles_frame; [|done]. intros j Hj. rewrite lookup_insert_ne by lia. done.
Qed.

(** The link field of a block followed by [bs]. *)
Definition link (a : Z) (bs : list blk) : Z := match bs with [] => 0 | _ => a end.

Lemma tiles_cons m a sz f bs e :
  tiles m a ((sz, f) :: bs) e ↔
  0 <= sz ∧ sz mod 4 = 0 ∧ m !! a = Some (Hdr sz f (link (a + HEADER_SIZE + sz) bs)) ∧
  tiles m (a + HEADER_SIZE + sz) bs e.
Proof. done. Qed.

Lemma link_eqb a bs : a ≠ 0 → (link a bs =? 0) = match bs with [] => true | _ => false end.
Proof. intros. destruct bs; [done|]. simpl. by apply Z.eqb_neq. Qed.

(** ** kmalloc refines first fit *)

Lemma load_hdr_Done m hs u a h :
  m !! a = Some h → load_hdr a (Heap m hs u) = Done h (Heap m hs u).
Proof. unfold load_hdr. simpl. by intros ->. Qed.

(** A heap lies in the upper half of the address space and does not wrap. *)
Definition in_space (a e : Z) : Prop := 0 < a ∧ e < 2 ^ 64 - 64.

Lemma first_fit_link n a bs p bs' c : first_fit n a bs = Some (p, bs') → link c bs' = link c bs.
Proof.
  destruct bs as [|[sz f] bs]; simpl; [done|].
  destruct (f && (n <=? sz)); [intros; simplify_eq|].
  - by destruct (n + HEADER_SIZE + 4 <? sz).
  - destruct (first_fit n _ bs) as [[]|]; simpl; intros; simplify_eq. done.
Qed.

Lemma kmalloc_take n m a sz bs e hs u :
  in_space a e → 0 <= n → n mod 4 = 0 → n <= sz →
  tiles m a ((sz, true) :: bs) e →
  ∃ m', (if u64 (n + HEADER_SIZE + 4) <? sz then
      store_hdr (u64 (a + HEADER_SIZE + n)) (Hdr (u64 (sz - n - HEADER_SIZE)) true (link (a + HEADER_SIZE + sz) bs)) ;;
      store_hdr a (Hdr n true (u64 (a + HEADER_SIZE + n)))
    else mret tt) (Heap m hs u) = Done tt (Heap m' hs u) ∧
    (∀ k, k < a → m' !! k = m !! k) ∧
    ∃ g bs', (if n + HEADER_SIZE + 4 <? sz
              then (n, false) :: (sz - n - HEADER_SIZE, true) :: bs else (sz, false) :: bs) = (g, false) :: bs' ∧
      n <= g ∧ live_bytes bs' = live_bytes bs ∧ tiles m' a ((g, true) :: bs') e.
Proof.
  intros [Ha He] Hn Hn4 Hle Ht. pose proof (tiles_le _ _ _ _ Ht) as Hl.
  apply tiles_cons in Ht as (Hsz & H4 & Hh & Ht). pose proof (tiles_le _ _ _ _ Ht) as Hl'.
  unfold HEADER_SIZE in *. rewrite (u64_small (n + 24 + 4)) by lia.
  destruct (Z.ltb_spec (n + 24 + 4) sz) as [Hlt|Hge].
  - rewrite !u64_small by lia. run. eexists. split; [done|]. split.
    { intros k Hk. simpl. by rewrite !lookup_insert_ne by lia. }
    eexists _, _. split; [done|]. split; [lia|]. split; [done|]. simpl hdrs.
    apply tiles_cons. unfold HEADER_SIZE. split_and!; [done|done| |].
    { by rewrite lookup_insert_eq. }
    apply tiles_cons. unfold HEADER_SIZE. split_and!; [lia| | |].
    + Z.div_mod_to_equations. lia.
    + rewrite lookup_insert_ne, lookup_insert_eq by lia. do 3 f_equal. lia.
    + replace (a + 24 + n + 24 + (sz - n - 24)) with (a + 24 + sz) by lia.
      by apply tiles_merge; [apply tiles_merge; [|lia]|lia].
  - exists m. split; [done|]. split; [done|]. eexists _, _. split; [done|]. split; [done|]. split; [done|].
    apply tiles_cons. unfold HEADER_SIZE. split_and!; done.
Qed.

(** Marking a block used and counting its bytes. *)
Lemma tiles_mark m a g f f' bs e :
  tiles m a ((g, f) :: bs) e →
  tiles (<[a := Hdr g f' (link (a + HEADER_SIZE + g) bs)]> m) a ((g, f') :: bs) e.
Proof.
  intros Ht. apply tiles_cons in Ht as (Hg & H4 & _ & Ht). apply tiles_cons.
  split_and!; [done|done|by rewrite lookup_insert_eq|].
  apply tiles_merge; [done|]. unfold HEADER_SIZE. lia.
Qed.

Lemma kmalloc_loop_first_fit n e hs u : 0 <= n → n mod 4 = 0 → ∀ bs fl m a,
  in_space a e → tiles m a bs e → (length bs < fl)%nat →
  match first_fit n a bs with
  | None => kmalloc_loop fl (link a bs) n (Heap m hs u) = Panic "kmalloc: out of heap memory!"
  | Some (p, bs') => ∃ m',
      kmalloc_loop fl (link a bs) n (Heap m hs u)
        = Done p (Heap m' hs (u32 (u + (live_bytes bs' - live_bytes bs)))) ∧
      tiles m' a bs' e ∧ ∀ k, k < a → m' !! k = m !! k
  end.
Proof.
  intros Hn Hn4. induction bs as [|[sz f] bs IH]; intros fl m a [Ha He] Ht Hfl; (destruct fl as [|fl]; [simpl in Hfl; lia|]); [done|].
  pose proof (tiles_le _ _ _ _ Ht) as Hl. pose proof Ht as Ht0.
  apply tiles_cons in Ht as (Hsz & H4 & Hh & Ht). pose proof (tiles_le _ _ _ _ Ht) as Hl'.
  cbn [link kmalloc_loop first_fit length] in *. rewrite (proj2 (Z.eqb_neq a 0)) by lia.
  rewrite (bind_Done _ _ _ _ _ (load_hdr_Done _ _ _ _ _ Hh)).
  cbn [h_free h_size h_next].
  destruct (f && (n <=? sz)) eqn:Hfit.
  - apply andb_true_iff in Hfit as [-> Hle%Z.leb_le].
    destruct (kmalloc_take n m a sz bs e hs u) as (m1 & Hrun & Hfr & g & bs1 & -> & Hg & Hlv & Ht1);
      [done..|].
    rewrite (bind_Done _ _ _ _ _ Hrun). pose proof (tiles_le _ _ _ _ Ht1) as Hl1.
    pose proof Ht1 as Hh1. apply tiles_cons in Hh1 as (_ & _ & Hh1 & _).
    unfold load_hdr. run. simpl hdrs. rewrite Hh1. simpl.
    eexists. split; [|split; [by eapply tiles_mark|]].
    + rewrite Hlv, u64_small by (unfold HEADER_SIZE in *; simpl length in *; lia).
      do 3 f_equal. lia.
    + intros k Hk. rewrite lookup_insert_ne by lia. auto.
  - assert (0 < a + HEADER_SIZE + sz) by (unfold HEADER_SIZE; lia).
    specialize (IH fl m (a + HEADER_SIZE + sz) ltac:(done) Ht ltac:(lia)).
    destruct (first_fit n (a + HEADER_SIZE + sz) bs) as [[p bs']|] eqn:Hff; simpl; [|done].
    destruct IH as (m' & Hrun & Ht' & Hfr). exists m'. split; [|split].
    + etrans; [exact Hrun|]. do 3 f_equal. lia.
    + split_and!; [done|done| |done].
      rewrite Hfr, Hh by (unfold HEADER_SIZE; lia). do 2 f_equal.
      symmetry. by eapply first_fit_link.
    + intros k Hk. apply Hfr. unfold HEADER_SIZE; lia.
Qed.

Definition out_of_memory : string := "kmalloc: out of heap memory!".

Lemma align4_spec n : 0 < n <= 2 ^ 64 - 4 → n <= align4 n < n + 4 ∧ align4 n mod 4 = 0.
Proof.
  intros Hn. unfold align4, u64. destruct (Z.eqb_spec (n mod 4) 0); simpl; [lia|].
  rewrite Z.mod_small by (Z.div_mod_to_equations; lia). Z.div_mod_to_equations. lia.
Qed.

Lemma live_bytes_bound m a bs e : tiles m a bs e → 0 <= live_bytes bs <= e - a.
Proof.
  revert a. induction bs as [|[sz f] bs IH]; intros a Ht; [simpl in *; lia|].
  apply tiles_cons in Ht as (Hsz & _ & _ & Ht). apply IH in Ht.
  unfold HEADER_SIZE in *. simpl. fold (live_bytes bs). destruct f; lia.
Qed.

Lemma heap_in_space : in_space HEAP_START (HEAP_START + HEAP_SIZE).
Proof. split; by_compute. Qed.

Lemma kmalloc_aligned s bs n :
  heap_rep s bs → n ≠ 0 → 0 <= align4 n → align4 n mod 4 = 0 →
  match first_fit (align4 n) HEAP_START bs with
  | None => kmalloc n s = Panic out_of_memory
  | Some (p, bs') => ∃ s', kmalloc n s = Done p s' ∧ heap_rep s' bs'
  end.
Proof.
  intros [Hst Ht Hu] Hn Ha H4. unfold kmalloc. rewrite (proj2 (Z.eqb_neq n 0)) by lia.
  destruct s as [m hs u]. simpl in *. subst hs.
  run. unfold fuel. simpl hdrs. pose proof (tiles_size _ _ _ _ Ht) as Hsz.
  pose proof (kmalloc_loop_first_fit (align4 n) _ HEAP_START u Ha H4 bs (S (size m)) m
    HEAP_START heap_in_space Ht ltac:(lia)) as H.
  assert (link HEAP_START bs = HEAP_START) as Hlk by (destruct bs; [by vm_compute in Ht|done]).
  rewrite Hlk in H. destruct (first_fit _ _ bs) as [[p bs']|]; [|done].
  destruct H as (m' & Hrun & Ht' & _). eexists. split; [exact Hrun|]. split; simpl; [done..|].
  pose proof (live_bytes_bound _ _ _ _ Ht'). rewrite u32_small; [lia|].
  unfold HEAP_SIZE in *. lia.
Qed.

Lemma kmalloc_rep s bs n :
  heap_rep s bs → 0 < n <= 2 ^ 64 - 4 →
  match first_fit (align4 n) HEAP_START bs with
  | None => kmalloc n s = Panic out_of_memory
  | Some (p, bs') => ∃ s', kmalloc n s = Done p s' ∧ heap_rep s' bs'
  end.
Proof.
  intros Hrep Hn. destruct (align4_spec n Hn) as [Ha H4]. apply kmalloc_aligned; [done|lia|lia|done].
Qed.

(** ** kfree releases and merges *)

Lemma merge_link a sz f bs : link a (merge sz f bs) = a.
Proof.
  revert sz f. induction bs as [|[sz' f'] bs IH]; intros sz f; simpl; [done|].
  by destruct (f && f').
Qed.

Lemma coalesce_loop_merge e hs u : ∀ bs fl m a sz f,
  in_space a e → tiles m a ((sz, f) :: bs) e → (length bs < fl)%nat →
  ∃ m', coalesce_loop fl a (Heap m hs u) = Done tt (Heap m' hs u) ∧
    tiles m' a (merge sz f bs) e ∧ ∀ k, k < a → m' !! k = m !! k.
Proof.
  induction bs as [|[sz' f'] bs IH]; intros fl m a sz f [Ha He] Ht Hfl;
    (destruct fl as [|fl]; [simpl in Hfl; lia|]);
    pose proof Ht as Ht0; apply tiles_cons in Ht as (Hsz & H4 & Hh & Ht);
    cbn [coalesce_loop merge length link] in *; rewrite (proj2 (Z.eqb_neq a 0)) by lia;
    rewrite (bind_Done _ _ _ _ _ (load_hdr_Done _ _ _ _ _ Hh)); cbn [h_next].
  - simpl. eauto.
  - pose proof Ht as Ht1. apply tiles_cons in Ht1 as (Hsz' & H4' & Hh' & Ht').
    pose proof (tiles_le _ _ _ _ Ht') as Hl. unfold HEADER_SIZE in *.
    rewrite (proj2 (Z.eqb_neq (a + 24 + sz) 0)) by lia.
    rewrite (bind_Done _ _ _ _ _ (load_hdr_Done _ _ _ _ _ Hh')). cbn [h_free h_size h_next].
    destruct (f && f') eqn:Hff.
    + apply andb_true_iff in Hff as [-> ->]. rewrite u64_small by lia.
      unfold store_hdr. run. simpl hdrs. simpl heap_start. simpl heap_used.
      edestruct (IH fl (<[a := Hdr (sz + (24 + sz')) true (link (a + 24 + sz + 24 + sz') bs)]> m) a
        (sz + (24 + sz')) true) as (m' & Hrun & Htm & Hfr); [done| |lia|].
      { apply tiles_cons. unfold HEADER_SIZE. replace (a + 24 + (sz + (24 + sz'))) with (a + 24 + sz + 24 + sz') by lia.
        split_and!; [lia|Z.div_mod_to_equations; lia|by rewrite lookup_insert_eq|].
        apply tiles_merge; [done|lia]. }
      exists m'. split; [done|]. split; [done|]. intros k Hk. rewrite Hfr, lookup_insert_ne by lia. done.
    + edestruct (IH fl m (a + 24 + sz) sz' f') as (m' & Hrun & Htm & Hfr);
        [split; lia|done|lia|]. exists m'. split; [done|].
      assert (m' !! a = m !! a) as Hma by (apply Hfr; lia).
      split; [|intros; apply Hfr; lia].
      apply tiles_cons. unfold HEADER_SIZE. split_and!; [done|done| |done].
      rewrite Hma. etrans; [exact Hh|]. do 2 f_equal. by rewrite merge_link.
Qed.

(** Writing the free flag of the block whose data is at [p]. *)
Lemma release_tiles m a bs e p sz :
  tiles m a bs e → (p, sz) ∈ live a bs →
  ∃ nx, m !! (p - HEADER_SIZE) = Some (Hdr sz false nx) ∧
    a <= p - HEADER_SIZE ∧ 0 <= sz ∧ p + sz <= e ∧
    tiles (<[p - HEADER_SIZE := Hdr sz true nx]> m) a (release p a bs) e ∧
    live_bytes (release p a bs) = live_bytes bs - sz ∧
    live a bs ≡ₚ (p, sz) :: live a (release p a bs).
Proof.
  revert a. induction bs as [|[s f] bs IH]; intros a Ht Hin; [by apply not_elem_of_nil in Hin|].
  pose proof Ht as Ht0. apply tiles_cons in Ht as (Hs & H4 & Hh & Ht). pose proof (tiles_le _ _ _ _ Ht) as Hl.
  assert (Hp : (f = false ∧ p = a + HEADER_SIZE ∧ sz = s) ∨ (p, sz) ∈ live (a + HEADER_SIZE + s) bs).
  { simpl in Hin. apply elem_of_app in Hin as [Hin|Hin]; [|by right].
    destruct f; [by apply not_elem_of_nil in Hin|].
    apply list_elem_of_singleton in Hin. left. by simplify_eq. }
  destruct Hp as [(-> & -> & ->)|Hin']; simpl.
  - exists (link (a + HEADER_SIZE + s) bs). rewrite Z.eqb_refl.
    replace (a + HEADER_SIZE - HEADER_SIZE) with a by lia.
    split_and!; [done|lia|lia|lia|by eapply tiles_mark|simpl; fold (live_bytes bs); lia|done].
  - destruct (IH _ Ht Hin') as (nx & Hm & Hle & Hsz & He & Htr & Hlv & Hperm). unfold HEADER_SIZE in *.
    exists nx. rewrite (proj2 (Z.eqb_neq p (a + 24))) by lia. split_and!; [done|lia|lia|lia| | |].
    + apply tiles_cons. unfold HEADER_SIZE. split_and!; [done|done| |done].
      rewrite lookup_insert_ne, Hh by lia. do 2 f_equal.
      destruct bs as [|[s1 f1] bs]; [done|]. simpl. by destruct (p =? _).
    + simpl. fold (live_bytes bs) (live_bytes (release p (a + 24 + s) bs)). lia.
    + simpl. rewrite Hperm. destruct f; [done|]. simpl. apply perm_swap.
Qed.

Lemma live_merge a sz f bs : live a (merge sz f bs) = live a ((sz, f) :: bs).
Proof.
  revert a sz f. induction bs as [|[sz' f'] bs IH]; intros a sz f; simpl; [done|].
  destruct (f && f') eqn:Hff; simpl; rewrite IH; simpl; [|done].
  apply andb_true_iff in Hff as [-> ->]. simpl. f_equal. unfold HEADER_SIZE. lia.
Qed.

Lemma live_bytes_merge sz f bs : live_bytes (merge sz f bs) = live_bytes ((sz, f) :: bs).
Proof.
  revert sz f. induction bs as [|[sz' f'] bs IH]; intros sz f; simpl; [done|].
  destruct (f && f') eqn:Hff; simpl; fold (live_bytes (merge sz' f' bs)); rewrite IH; [|done].
  by apply andb_true_iff in Hff as [-> ->].
Qed.

Lemma release_nonempty p a bs : bs ≠ [] → release p a bs ≠ [].
Proof. destruct bs as [|[s f] bs]; simpl; [done|]. by destruct (p =? _). Qed.

Lemma merge_all_cons bs : bs ≠ [] → ∃ sz f bs', bs = (sz, f) :: bs' ∧ merge_all bs = merge sz f bs'.
Proof. destruct bs as [|[sz f] bs]; [done|]. eauto. Qed.

Lemma kfree_merge_all s bs p sz :
  heap_rep s bs → (p, sz) ∈ live HEAP_START bs →
  ∃ s', kfree p s = Done tt s' ∧ heap_rep s' (merge_all (release p HEAP_START bs)).
Proof.
  intros [Hst Ht Hu] Hin. destruct s as [m hs u]. simpl in *. subst hs.
  destruct (release_tiles _ _ _ _ _ _ Ht Hin) as (nx & Hm & Hle & Hsz & He & Htr & Hlv & _).
  pose proof (live_bytes_bound _ _ _ _ Htr) as Hb.
  assert (Hbs : release p HEAP_START bs ≠ []).
  { apply release_nonempty. intros ->. by apply not_elem_of_nil in Hin. }
  destruct (merge_all_cons _ Hbs) as (s0 & f0 & bs0 & Hrel & ->). rewrite Hrel in *.
  set (m1 := <[_ := _]> m) in *. pose proof (tiles_size _ _ _ _ Htr) as Hlen.
  apply le_n_S in Hlen. apply Nat.lt_succ_l in Hlen.
  destruct (coalesce_loop_merge _ HEAP_START (live_bytes ((s0, f0) :: bs0)) bs0 (S (size m1)) m1 _ _ _
    heap_in_space Htr Hlen) as (m2 & Hrun & Ht2 & _).
  unfold HEAP_START, HEAP_SIZE, HEADER_SIZE in *.
  unfold kfree. rewrite (proj2 (Z.eqb_neq p 0)), (u64_small (p - HEADER_SIZE)) by (unfold HEADER_SIZE; lia).
  rewrite (bind_Done _ _ _ _ _ (load_hdr_Done _ _ _ _ _ Hm)).
  unfold store_hdr, add_heap_used. run. cbn [hdrs heap_start heap_used h_size h_next].
  replace (u32 (u + - sz)) with (live_bytes ((s0, f0) :: bs0)) by (rewrite u32_small; lia).
  eexists. split; [exact Hrun|]. split; [done|done|]. by rewrite live_bytes_merge.
Qed.

(** No two neighbours are both free. *)
Fixpoint separated (bs : list blk) : Prop :=
  match bs with
  | (_, f) :: ((_, f') :: _) as bs' => f && f' = false ∧ separated bs'
  | _ => True
  end.

Lemma merge_separated sz f bs :
  separated (merge sz f bs) ∧ ∃ sz' bs', merge sz f bs = (sz', f) :: bs'.
Proof.
  revert sz f. induction bs as [|[sz' f'] bs IH]; intros sz f; simpl; [eauto|].
  destruct (f && f') eqn:Hff.
  - pose proof Hff as [-> ->]%andb_true_iff. apply IH.
  - split; [|eauto]. destruct (IH sz' f') as (Hs & sz1 & bs1 & Heq). rewrite Heq in *. done.
Qed.

Lemma merge_all_separated bs : separated (merge_all bs).
Proof. destruct bs as [|[sz f] bs]; [done|]. apply merge_separated. Qed.

Lemma first_fit_separated n a bs p bs' :
  separated bs → first_fit n a bs = Some (p, bs') → separated bs'.
Proof.
  revert a bs'. induction bs as [|[sz f] bs IH]; intros a bs' Hs Hf; [done|]. simpl in Hf.
  destruct (f && (n <=? sz)) eqn:Hfit.
  - apply andb_true_iff in Hfit as [-> _]. destruct bs as [|[s1 f1] bs]; simpl in Hs;
      destruct (_ <? sz); simplify_eq; simpl; try done; naive_solver.
  - destruct (first_fit n _ bs) as [[q bs1]|] eqn:Hff; simpl in Hf; simplify_eq.
    destruct bs as [|[s1 f1] bs]; [done|]. simpl in Hs. destruct Hs as [Hs1 Hs].
    pose proof (IH _ _ Hs Hff) as Hs'. simpl in Hff.
    destruct (f1 && (n <=? s1)) eqn:Hf1; [apply andb_true_iff in Hf1 as [-> _]; simplify_eq|].
    + rewrite andb_true_r in Hs1. subst f. by destruct (_ <? s1).
    + destruct (first_fit n _ bs) as [[q' bs2]|]; simpl in Hff; simplify_eq. done.
Qed.

Lemma first_fit_live n a bs p bs' :
  first_fit n a bs = Some (p, bs') → ∃ g, n <= g ∧ live a bs' ≡ₚ (p, g) :: live a bs.
Proof.
  revert a bs'. induction bs as [|[sz f] bs IH]; intros a bs' Hf; [done|]. simpl in Hf.
  destruct (f && (n <=? sz)) eqn:Hfit.
  - apply andb_true_iff in Hfit as [-> Hle%Z.leb_le].
    destruct (_ <? sz); simplify_eq; simpl; [exists n|exists sz]; (split; [lia|]); [|done].
    do 2 f_equiv. unfold HEADER_SIZE. lia.
  - destruct (first_fit n _ bs) as [[q bs1]|] eqn:Hff; simpl in Hf; simplify_eq.
    destruct (IH _ _ Hff) as (g & Hg & Hp). exists g. split; [done|]. simpl.
    rewrite Hp. destruct f; [done|]. simpl. apply perm_swap.
Qed.

Lemma kfree_rep s bs p sz :
  heap_rep s bs → (p, sz) ∈ live HEAP_START bs →
  ∃ s' bs', kfree p s = Done tt s' ∧ heap_rep s' bs' ∧ separated bs' ∧ bs' ≠ [] ∧
    bs' = merge_all (release p HEAP_START bs) ∧
    live HEAP_START bs ≡ₚ (p, sz) :: live HEAP_START bs' ∧ heap_used s' = heap_used s - sz.
Proof.
  intros Hrep Hin. destruct (kfree_merge_all _ _ _ _ Hrep Hin) as (s' & Hrun & Hrep').
  pose proof Hrep as [_ Ht Hu]. pose proof Hrep' as [_ _ Hu'].
  destruct (release_tiles _ _ _ _ _ _ Ht Hin) as (_ & _ & _ & _ & _ & _ & Hlv & Hp).
  assert (Hbs : release p HEAP_START bs ≠ []).
  { apply release_nonempty. intros ->. by apply not_elem_of_nil in Hin. }
  destruct (merge_all_cons _ Hbs) as (s0 & f0 & bs0 & Hrel & Hma).
  rewrite Hma in *. eexists _, _. split; [exact Hrun|]. split; [exact Hrep'|].
  rewrite live_merge, <- Hrel. split_and!; [apply merge_separated| |done|done|].
  { intros Hn. destruct (merge_separated s0 f0 bs0) as (_ & ? & ? & Heq). by rewrite Hn in Heq. }
  rewrite Hu', live_bytes_merge, <- Hrel, Hlv, Hu. done.
Qed.

(** C21. kmalloc() is first fit: on a heap that represents the tiling [bs] it
    hands out the first free block large enough for the request rounded up to
    4 bytes, splitting off the rest when more than a header and 4 bytes are
    left, and panics - it never returns a null pointer - exactly when no free
    block is large enough (or the request is 0). *)
Theorem kmalloc_first_fit s bs n :
  heap_rep s bs → 0 <= n <= 2 ^ 64 - 4 →
  if n =? 0 then kmalloc n s = Panic "kmalloc: requested zero bytes!"
  else match first_fit (align4 n) HEAP_START bs with
       | None => kmalloc n s = Panic out_of_memory
       | Some (p, bs') => ∃ s', kmalloc n s = Done p s' ∧ heap_rep s' bs'
       end.
Proof.
  intros Hrep Hn. destruct (Z.eqb_spec n 0) as [->|]; [done|]. apply kmalloc_rep; [done|lia].
Qed.

(** C22. kfree() of a pointer that is in use gives exactly that block back and
    then merges every run of free neighbours: no two neighbouring blocks are
    free afterwards, and the other blocks in use are untouched. *)
Theorem kfree_coalesces s bs p sz :
  heap_rep s bs → (p, sz) ∈ live HEAP_START bs →
  ∃ s' bs', kfree p s = Done tt s' ∧ heap_rep s' bs' ∧ separated bs' ∧
    bs' = merge_all (release p HEAP_START bs) ∧
    live HEAP_START bs ≡ₚ (p, sz) :: live HEAP_START bs' ∧ heap_used s' = heap_used s - sz.
Proof.
  intros Hrep Hin. destruct (kfree_rep _ _ _ _ Hrep Hin) as (s' & bs' & H). exists s', bs'. tauto.
Qed.

(** ** The heap as its clients see it *)

(** The blocks in use lie in the heap, in address order, each header and
    data region clear of the next. *)
Lemma live_ordered m a bs e :
  tiles m a bs e →
  (∀ x, x ∈ live a bs → a + HEADER_SIZE <= x.1 ∧ 0 <= x.2 ∧ x.1 + x.2 <= e ∧ x.2 mod 4 = 0 ∧ (x.1 - a) mod 4 = 0) ∧
  (∀ i j x y, (i < j)%nat → live a bs !! i = Some x → live a bs !! j = Some y →
     x.1 + x.2 <= y.1 - HEADER_SIZE).
Proof.
  revert a. induction bs as [|[sz f] bs IH]; intros a Ht.
  { split; [intros x Hx; by apply not_elem_of_nil in Hx|done]. }
  apply tiles_cons in Ht as (Hs & H4 & _ & Ht). pose proof (tiles_le _ _ _ _ Ht) as Hl.
  destruct (IH _ Ht) as [Hin Hord].
  assert (Hin' : ∀ x, x ∈ live (a + HEADER_SIZE + sz) bs →
    a + HEADER_SIZE <= x.1 ∧ 0 <= x.2 ∧ x.1 + x.2 <= e ∧ x.2 mod 4 = 0 ∧ (x.1 - a) mod 4 = 0).
  { intros x Hx. apply Hin in Hx. unfold HEADER_SIZE in *. Z.div_mod_to_equations. lia. }
  destruct f; simpl; [by split|]. split.
  - intros x [->|Hx]%elem_of_cons; [|auto]. simpl. unfold HEADER_SIZE in *. Z.div_mod_to_equations. lia.
  - intros [|i] [|j] x y Hij Hx Hy; simpl in *; try lia; [|eapply (Hord i j); [lia|done..]].
    simplify_eq. apply list_elem_of_lookup_2, Hin in Hy. simpl. unfold HEADER_SIZE in *. lia.
Qed.

(** [heap_run s l]: a sequence of kmalloc() and kfree() calls after
    mem_init(), the latter on pointers that kmalloc() returned and that were
    not freed since; [l] lists the pointers held, with the sizes asked for. *)
Inductive heap_run : heap → list (Z * Z) → Prop :=
  | heap_run_start s s' : mem_init s = Done tt s' → heap_run s' []
  | heap_run_kmalloc s l n p s' :
      heap_run s l → 0 < n <= 2 ^ 64 - 4 → kmalloc n s = Done p s' → heap_run s' ((p, n) :: l)
  | heap_run_kfree s l1 p n l2 s' :
      heap_run s (l1 ++ (p, n) :: l2) → kfree p s = Done tt s' → heap_run s' (l1 ++ l2).

(** The blocks in use are those the clients hold, at least as large as asked. *)
Definition heap_inv (s : heap) (l : list (Z * Z)) : Prop :=
  ∃ bs gs, heap_rep s bs ∧ separated bs ∧ bs ≠ [] ∧ live HEAP_START bs ≡ₚ gs ∧
    Forall2 (λ x g, x.1 = g.1 ∧ x.2 <= g.2) l gs.

Lemma mem_init_rep s s' : mem_init s = Done tt s' → heap_rep s' [(HEAP_SIZE - HEADER_SIZE, true)].
Proof.
  destruct s as [m hs u]. unfold mem_init, store_hdr. run. intros [= <-]. split; [done| |done].
  simpl. split_and!; [by compute|done|by rewrite lookup_insert_eq|done].
Qed.

Lemma first_fit_nonempty n a bs p bs' : first_fit n a bs = Some (p, bs') → bs' ≠ [].
Proof.
  destruct bs as [|[sz f] bs]; simpl; [done|]. destruct (_ && _); [destruct (_ <? sz)|]; try naive_solver.
  destruct (first_fit _ _ bs) as [[]|]; simpl; naive_solver.
Qed.

(** What one call does to the invariant. *)
Lemma Forall2_permute {A B} (R : A → B → Prop) l l' k : l ≡ₚ l' → Forall2 R l k → ∃ k', k ≡ₚ k' ∧ Forall2 R l' k'.
Proof.
  intros Hp. revert k. induction Hp as [|x l l' _ IH|x y l|l1 l2 l3 _ IH1 _ IH2]; intros k HF.
  - eauto.
  - apply Forall2_cons_inv_l in HF as (z & k1 & Hz & HF & ->). destruct (IH _ HF) as (k' & Hk & HF').
    exists (z :: k'). split; [by constructor|by constructor].
  - apply Forall2_cons_inv_l in HF as (z & k1 & Hz & HF & ->). apply Forall2_cons_inv_l in HF as (z' & k2 & Hz' & HF & ->).
    exists (z' :: z :: k2). split; [constructor|by repeat constructor].
  - destruct (IH1 _ HF) as (k1 & Hk1 & HF1). destruct (IH2 _ HF1) as (k2 & Hk2 & HF2).
    exists k2. split; [by etrans|done].
Qed.

(** The order of the blocks does not matter. *)
#[export] Instance heap_inv_proper s : Proper ((≡ₚ) ==> iff) (heap_inv s).
Proof.
  assert (∀ l l', l ≡ₚ l' → heap_inv s l → heap_inv s l') as H.
  { intros l l' Hl (bs & gs & Hrep & Hsep & Hne & Hp & HF). destruct (Forall2_permute _ _ _ _ Hl HF) as (gs' & Hg & HF').
    exists bs, gs'. split_and!; try done. by etrans. }
  intros l l' Hl. split; by apply H.
Qed.

Lemma heap_inv_kmalloc s l n :
  heap_inv s l → 0 < n <= 2 ^ 64 - 4 →
  kmalloc n s = Panic out_of_memory ∨ ∃ p s', kmalloc n s = Done p s' ∧ heap_inv s' ((p, n) :: l).
Proof.
  intros (bs & gs & Hrep & Hsep & Hne & Hp & HF) Hn.
  pose proof (kmalloc_rep s bs n Hrep Hn) as Hff.
  destruct (first_fit _ _ bs) as [[p bs']|] eqn:Hfit; [|by left]. right.
  destruct Hff as (s1 & Hk1 & Hrep').
  destruct (first_fit_live _ _ _ _ _ Hfit) as (g & Hg & Hlv).
  destruct (align4_spec n Hn) as [Hal _].
  exists p, s1. split; [done|]. exists bs', ((p, g) :: gs).
  split_and!; [done|by eapply first_fit_separated|by eapply first_fit_nonempty| |].
  - by rewrite Hlv, Hp.
  - constructor; [simpl; lia|done].
Qed.

Lemma heap_inv_kfree s l1 p n l2 :
  heap_inv s (l1 ++ (p, n) :: l2) → ∃ s', kfree p s = Done tt s' ∧ heap_inv s' (l1 ++ l2).
Proof.
  intros (bs & gs & Hrep & Hsep & Hne & Hp & HF).
  apply Forall2_app_inv_l in HF as (g1 & g2' & HF1 & HF2 & ->).
  apply Forall2_cons_inv_l in HF2 as ([q g] & g2 & [Hq Hg] & HF2 & ->). simpl in *. subst q.
  assert (Hin : (p, g) ∈ live HEAP_START bs).
  { rewrite Hp. apply elem_of_app. right. by left. }
  destruct (kfree_rep s bs p g Hrep Hin) as (s1 & bs' & Hk1 & Hrep' & Hsep' & Hne' & _ & Hlv & _).
  exists s1. split; [done|]. exists bs', (g1 ++ g2). split_and!; [done..| |by apply Forall2_app].
  apply (Permutation.Permutation_cons_inv (a := (p, g))). rewrite <- Hlv, Hp. by rewrite Permutation.Permutation_middle.
Qed.

Lemma heap_run_inv s l : heap_run s l → heap_inv s l.
Proof.
  induction 1 as [s s' Hi|s l n p s' _ IH Hn Hk|s l1 p n l2 s' _ IH Hk].
  - apply mem_init_rep in Hi. exists [(HEAP_SIZE - HEADER_SIZE, true)], [].
    split_and!; [done|done|done|done|]. by apply Forall2_nil_2.
  - destruct (heap_inv_kmalloc _ _ _ IH Hn) as [Hk'|(q & t & Hk' & HI)]; [congruence|].
    rewrite Hk' in Hk. by simplify_eq.
  - destruct (heap_inv_kfree _ _ _ _ _ IH) as (t & Hk' & HI). rewrite Hk' in Hk. by simplify_eq.
Qed.

Lemma heap_inv_region s l p n :
  heap_inv s l → (p, n) ∈ l →
  HEAP_START + HEADER_SIZE <= p ∧ p + n <= HEAP_START + HEAP_SIZE ∧ p mod 4 = 0 ∧
  ∃ s', kfree p s = Done tt s'.
Proof.
  intros (bs & gs & Hrep & Hsep & Hne & Hp & HF) (i & Hi)%list_elem_of_lookup_1.
  destruct (live_ordered _ _ _ _ (rep_tiles _ _ Hrep)) as [Hin Hord].
  destruct (Forall2_lookup_l _ _ _ _ _ HF Hi) as ([q g] & Hg & Hq & Hn). simpl in *. subst q.
  assert (Hlive : (p, g) ∈ live HEAP_START bs) by (rewrite Hp; by eapply list_elem_of_lookup_2).
  destruct (kfree_rep _ _ _ _ Hrep Hlive) as (s' & bs' & Hk & _).
  apply Hin in Hlive. simpl in Hlive. split_and!; [lia|lia| |eauto].
  assert (HEAP_START mod 4 = 0) by done. Z.div_mod_to_equations. lia.
Qed.

Lemma heap_inv_disjoint s l i j p n q k :
  heap_inv s l → i ≠ j → l !! i = Some (p, n) → l !! j = Some (q, k) →
  p + n + HEADER_SIZE <= q ∨ q + k + HEADER_SIZE <= p.
Proof.
  intros (bs & gs & Hrep & Hsep & Hne & Hp & HF) Hij Hi Hj.
  destruct (live_ordered _ _ _ _ (rep_tiles _ _ Hrep)) as [Hin Hord].
  destruct (Forall2_lookup_l _ _ _ _ _ HF Hi) as ([p' g] & Hg & Hpe & Hn).
  destruct (Forall2_lookup_l _ _ _ _ _ HF Hj) as ([q' h] & Hh & Hqe & Hk). simpl in *. subst p' q'.
  symmetry in Hp. apply Permutation_inj in Hp as (_ & f & Hf & Hfeq).
  rewrite Hfeq in Hg. rewrite Hfeq in Hh.
  assert (f i ≠ f j) by (intros ?; by apply Hij, Hf).
  destruct (decide (f i < f j)%nat).
  - pose proof (Hord (f i) (f j) _ _ ltac:(done) Hg Hh). simpl in *. lia.
  - pose proof (Hord (f j) (f i) _ _ ltac:(lia) Hh Hg). simpl in *. lia.
Qed.

(** C4. Whatever the clients do with kmalloc() and kfree() after mem_init(),
    the regions they hold are inside the heap, 4-aligned, at least as large as
    asked for and disjoint (with a header between them); each can be freed
    without a fault; and when none is held the heap is one free block again. *)
Theorem heap_clients_safe s l :
  heap_run s l →
  (∀ p n, (p, n) ∈ l →
     HEAP_START + HEADER_SIZE <= p ∧ p + n <= HEAP_START + HEAP_SIZE ∧ p mod 4 = 0 ∧
     ∃ s', kfree p s = Done tt s') ∧
  (∀ i j p n q k, i ≠ j → l !! i = Some (p, n) → l !! j = Some (q, k) →
     p + n + HEADER_SIZE <= q ∨ q + k + HEADER_SIZE <= p) ∧
  (l = [] → hdrs s !! HEAP_START = Some (Hdr (HEAP_SIZE - HEADER_SIZE) true 0)).
Proof.
  intros HI%heap_run_inv. split_and!.
  - intros p n. by apply heap_inv_region.
  - intros i j p n q k. by eapply heap_inv_disjoint.
  - destruct HI as (bs & gs & Hrep & Hsep & Hne & Hp & HF). pose proof (rep_tiles _ _ Hrep) as Ht.
    intros ->. apply Forall2_nil_inv_l in HF as ->. apply Permutation_nil_r in Hp.
    destruct bs as [|[sz f] bs]; [done|]. simpl in Hp. destruct f; [|done].
    destruct bs as [|[s1 f1] bs].
    + destruct Ht as (_ & _ & Hh & He). rewrite Hh. simpl in He. do 2 f_equal. lia.
    + simpl in *. by destruct f1; destruct Hsep.
Qed.

Definition free_bytes_of (bs : list blk) : Z :=
  foldr (λ (b : blk) acc, (if b.2 then b.1 else 0) + acc) 0 bs.

Lemma tiles_total m a bs e :
  tiles m a bs e → a + live_bytes bs + free_bytes_of bs + HEADER_SIZE * Z.of_nat (length bs) = e ∧
  0 <= free_bytes_of bs.
Proof.
  revert a. induction bs as [|[sz f] bs IH]; intros a Ht; [simpl in *; lia|].
  apply tiles_cons in Ht as (Hs & _ & _ & Ht). apply IH in Ht. unfold HEADER_SIZE in *.
  simpl. fold (live_bytes bs) (free_bytes_of bs). destruct f; lia.
Qed.

Lemma stats_loop_total e hs u m : ∀ bs fl a t fb fby,
  in_space a e → tiles m a bs e → (length bs < fl)%nat →
  0 <= t → t + Z.of_nat (length bs) < 2 ^ 32 → 0 <= fby → fby + free_bytes_of bs < 2 ^ 32 →
  ∃ fb', stats_loop fl (link a bs) t fb fby (Heap m hs u)
    = Done (t + Z.of_nat (length bs), fb', fby + free_bytes_of bs) (Heap m hs u).
Proof.
  induction bs as [|[sz f] bs IH]; intros fl a t fb fby [Ha He] Ht Hfl Ht0 Ht1 Hf0 Hf1;
    (destruct fl as [|fl]; [simpl in Hfl; lia|]).
  { exists fb. simpl. run. done_eq. }
  pose proof Ht as Ht'. apply tiles_cons in Ht as (Hs & _ & Hh & Ht).
  destruct (tiles_total _ _ _ _ Ht) as [_ Hfb].
  cbn [link stats_loop length] in *. rewrite (proj2 (Z.eqb_neq a 0)) by lia.
  rewrite (bind_Done _ _ _ _ _ (load_hdr_Done _ _ _ _ _ Hh)). cbn [h_free h_size h_next].
  simpl free_bytes_of in *. fold (free_bytes_of bs) in *.
  assert (Hsp : in_space (a + HEADER_SIZE + sz) e) by (split; [unfold HEADER_SIZE; lia|done]).
  destruct f.
  - edestruct (IH fl _ (u32 (t + 1)) (u32 (fb + 1)) (u32 (fby + sz)) Hsp Ht) as [fb' Hrun];
      rewrite ?(u32_small (t + 1)), ?(u32_small (fby + sz)) in * by lia; try lia.
    exists fb'. etrans; [exact Hrun|]. done_eq.
  - edestruct (IH fl _ (u32 (t + 1)) fb fby Hsp Ht) as [fb' Hrun];
      rewrite ?(u32_small (t + 1)) in * by lia; try lia.
    exists fb'. etrans; [exact Hrun|]. done_eq.
Qed.

(** The numbers mem_print_stats() shows add up: used bytes, free bytes
    and one header per block make the whole heap, and the walk ends. *)
Lemma mem_stats_add_up s bs :
  heap_rep s bs →
  ∃ used free blocks, mem_print_stats s = Done (used, free, blocks) s ∧
    used + free + HEADER_SIZE * blocks = HEAP_SIZE ∧ blocks = Z.of_nat (length bs).
Proof.
  intros [Hst Ht Hu]. destruct s as [m hs u]. simpl in *. subst hs u.
  destruct (tiles_total _ _ _ _ Ht) as [Htot Hfb]. pose proof (live_bytes_bound _ _ _ _ Ht) as Hlv.
  pose proof (tiles_size _ _ _ _ Ht) as Hlen. apply le_n_S in Hlen.
  edestruct (stats_loop_total _ HEAP_START (live_bytes bs) m bs (S (size m)) HEAP_START 0 0 0
    heap_in_space Ht Hlen) as [fb Hrun]; try (unfold HEADER_SIZE, HEAP_SIZE in *; lia).
  assert (link HEAP_START bs = HEAP_START) as Hlk by (destruct bs; [by vm_compute in Ht|done]).
  rewrite Hlk in Hrun. unfold mem_print_stats. run. unfold fuel. simpl hdrs. simpl heap_start.
  rewrite Hrun. eexists _, _, _. split; [done|]. split; [simpl; lia|done].
Qed.

Lemma first_fit_zero a bs : Exists (λ b, b.2 = true) bs → Forall (λ b, 0 <= b.1) bs →
  ∃ p bs' g, first_fit 0 a bs = Some (p, bs') ∧ (p, g) ∈ live a bs' ∧ g <= HEADER_SIZE + 4.
Proof.
  revert a. induction bs as [|[sz f] bs IH]; intros a Hex Hall.
  { by apply Exists_nil in Hex. }
  apply list.Forall_cons in Hall as [Hs Hall]. simpl in Hs. simpl.
  rewrite (proj2 (Z.leb_le 0 sz)), andb_true_r by done. destruct f.
  - destruct (Z.ltb_spec (0 + HEADER_SIZE + 4) sz).
    + eexists _, _, 0. split; [done|]. split; [by left|]. by compute.
    + eexists _, _, sz. split; [done|]. split; [by left|]. unfold HEADER_SIZE in *. lia.
  - apply Exists_cons in Hex as [|Hex]; [done|].
    destruct (IH (a + HEADER_SIZE + sz) Hex Hall) as (p & bs' & g & -> & Hin & Hg).
    eexists _, _, g. split; [done|]. split; [by right|done].
Qed.

Lemma tiles_sizes m a bs e : tiles m a bs e → Forall (λ b : blk, 0 <= b.1) bs.
Proof.
  revert a. induction bs as [|[sz f] bs IH]; intros a Ht; [done|].
  apply tiles_cons in Ht as (Hs & _ & _ & Ht). constructor; [done|by eapply IH].
Qed.

(** C14. A request within 3 bytes of 2^64 wraps to size 0: as long as any
    block is free, kmalloc() then hands out a block of at most 28 bytes
    instead of panicking. *)
Theorem kmalloc_wraps s bs n :
  heap_rep s bs → 2 ^ 64 - 4 < n < 2 ^ 64 → Exists (λ b, b.2 = true) bs →
  ∃ p s' bs' g, kmalloc n s = Done p s' ∧ heap_rep s' bs' ∧ (p, g) ∈ live HEAP_START bs' ∧ g <= 28.
Proof.
  intros Hrep Hn Hex. pose proof Hrep as [_ Ht _].
  assert (align4 n = 0) as Hal.
  { unfold align4, u64. destruct (Z.eqb_spec (n mod 4) 0); simpl; Z.div_mod_to_equations; lia. }
  destruct (first_fit_zero HEAP_START bs Hex (tiles_sizes _ _ _ _ Ht)) as (p & bs' & g & Hff & Hin & Hg).
  pose proof (kmalloc_aligned s bs n Hrep ltac:(lia)) as Hk. rewrite Hal in Hk.
  specialize (Hk ltac:(lia) ltac:(done)). rewrite Hff in Hk. destruct Hk as (s' & Hk & Hrep').
  exists p, s', bs', g. done.
Qed.

(** ** Witnesses *)

(** The heap mem_init() leaves. *)
Definition fresh_heap : heap :=
  Heap {[HEAP_START := Hdr (HEAP_SIZE - HEADER_SIZE) true 0]} HEAP_START 0.

Lemma fresh_init : mem_init (Heap ∅ 0 0) = Done tt fresh_heap.
Proof. by vm_compute. Qed.

Lemma fresh_rep : heap_rep fresh_heap [(HEAP_SIZE - HEADER_SIZE, true)].
Proof. exact (mem_init_rep _ _ fresh_init). Qed.

Lemma kmalloc_first_fit_witness :
  ∃ s', kmalloc 5 fresh_heap = Done (HEAP_START + 24) s' ∧
    heap_rep s' [(8, false); (HEAP_SIZE - 56, true)].
Proof. exact (kmalloc_first_fit fresh_heap _ 5 fresh_rep ltac:(by_compute)). Defined.

Lemma small_rep :
  heap_rep (Heap {[HEAP_START := Hdr 8 false (HEAP_START + 32);
                   HEAP_START + 32 := Hdr (HEAP_SIZE - 56) true 0]} HEAP_START 8)
    [(8, false); (HEAP_SIZE - 56, true)].
Proof. split; [done| |done]. simpl. split_and!; by_compute. Qed.

Lemma kfree_coalesces_witness :
  ∃ s' bs', kfree (HEAP_START + 24) (Heap {[HEAP_START := Hdr 8 false (HEAP_START + 32);
                   HEAP_START + 32 := Hdr (HEAP_SIZE - 56) true 0]} HEAP_START 8) = Done tt s' ∧
    heap_rep s' bs' ∧ bs' = [(HEAP_SIZE - 24, true)].
Proof.
  destruct (kfree_coalesces _ _ (HEAP_START + 24) 8 small_rep) as (s' & bs' & H1 & H2 & _ & H3 & _).
  - by left.
  - exists s', bs'. split; [exact H1|]. split; [exact H2|]. rewrite H3. reflexivity.
Defined.

Lemma heap_clients_safe_witness :
  ∃ s, heap_run s [(HEAP_START + 24, 5)] ∧ ∃ s', kfree (HEAP_START + 24) s = Done tt s'.
Proof.
  assert (H : ∃ s, heap_run s [(HEAP_START + 24, 5)]).
  { eexists. eapply (heap_run_kmalloc fresh_heap [] 5).
    - exact (heap_run_start _ _ fresh_init).
    - by_compute.
    - vm_compute. reflexivity. }
  destruct H as [s H]. exists s. split; [exact H|].
  destruct (heap_clients_safe _ _ H) as [H1 _]. destruct (H1 (HEAP_START + 24) 5) as (_ & _ & _ & H2).
  - by left.
  - exact H2.
Defined.

Lemma mem_stats_add_up_witness :
  ∃ used free blocks, mem_print_stats fresh_heap = Done (used, free, blocks) fresh_heap ∧
    used + free + HEADER_SIZE * blocks = HEAP_SIZE ∧ blocks = 1.
Proof. exact (mem_stats_add_up _ _ fresh_rep). Defined.

Lemma kmalloc_wraps_witness :
  ∃ p s' bs' g, kmalloc (2 ^ 64 - 1) fresh_heap = Done p s' ∧ heap_rep s' bs' ∧
    (p, g) ∈ live HEAP_START bs' ∧ g <= 28.
Proof.
  apply (kmalloc_wraps _ _ (2 ^ 64 - 1) fresh_rep); [split; by_compute|].
  by apply Exists_cons; left.
Defined.
