(* ===== verification/Kprintf.v ===== *)
(** Formatted output of the kernel: kernel/core/kprintf.c.

    The number converters return the bytes they put at the front of their
    buffer. The formatter runs on the buffer and the position [pos]; a write
    outside the buffer, a missing or ill-typed argument, a read past the end of
    the format string, and an int that overflows ([pos], or the negation of
    the least integer) are faults. *)

From S2P Require Import Prelude CString.

Definition INT_MIN : Z := -2147483648.
Definition INT_MAX : Z := 2147483647.
Definition INT64_MIN : Z := -9223372036854775808.

(** * Number conversion *)

(** while(n > 0) { tmp[i++] = '0' + (n % 10); n /= 10; } on a [tmp] of [cap] bytes. *)
Fixpoint dec_loop (cap : nat) (n : Z) (tmp : list Z) : option (list Z) :=
  if n >? 0 then
    match cap with
    | O => None
    | S cap => dec_loop cap (n / 10) (tmp ++ [48 + n mod 10])
    end
  else Some tmp.

Definition uint_to_dec (n : Z) : option (list Z) :=
  if n =? 0 then Some [48]
  else tmp ← dec_loop 10 n []; Some (reverse tmp).

(** -n overflows for the least int, which the language leaves undefined. *)
Definition int_to_dec (n : Z) : option (list Z) :=
  if n =? INT_MIN then None
  else if n <? 0 then ds ← uint_to_dec (u32 (- n)); Some (45 :: ds)
  else uint_to_dec (u32 n).

Definition uint64_to_dec (n : Z) : option (list Z) :=
  if n =? 0 then Some [48]
  else tmp ← dec_loop 20 n []; Some (reverse tmp).

Definition hex_digits : list Z := cs "0123456789ABCDEF".

(** The loop fills the buffer from its last digit down. *)
Fixpoint hex_loop (i : nat) (n : Z) (buf : list Z) : option (list Z) :=
  match i with
  | O => Some buf
  | S i => d ← hex_digits !! Z.to_nat (Z.land n 15); hex_loop i (Z.shiftr n 4) (d :: buf)
  end.

Definition uint_to_hex (n : Z) : option (list Z) := hex_loop 8 n [].
Definition uint64_to_hex (n : Z) : option (list Z) := hex_loop 16 n [].

(** * kvsnprintf *)

(** An argument of the call; a string argument is its bytes, [None] for NULL. *)
Inductive arg := AInt (n : Z) | AStr (s : option (list Z)).

Definition va_int (args : list arg) : option (Z * list arg) :=
  match args with AInt n :: args => Some (n, args) | _ => None end.

Definition va_str (args : list arg) : option (option (list Z) * list arg) :=
  match args with AStr s :: args => Some (s, args) | _ => None end.

(** The buffer and [pos]. *)
Definition pstate : Type := list Z * Z.

(** pos++, on an int. *)
Definition step_pos : M pstate unit := λ '(buf, pos),
  if pos =? INT_MAX then Fault else Done tt (buf, pos + 1).

Definition PUTC (size c : Z) : M pstate unit :=
  (λ '(buf, pos),
     if pos <? size - 1 then
       if pos <? Z.of_nat (length buf) then Done tt (<[Z.to_nat pos := u8 c]> buf, pos) else Fault
     else Done tt (buf, pos)) ;;
  step_pos.

Fixpoint PUTS (size : Z) (s : list Z) : M pstate unit :=
  match s with
  | [] => mret tt
  | c :: s => PUTC size c ;; PUTS size s
  end.

(** A converted number, which must fit the local buffer of [cap] bytes. *)
Definition put_number (size : Z) (cap : nat) (o : option (list Z)) : M pstate unit :=
  ds ← access o;
  if (length ds <=? cap)%nat then PUTS size ds else fault.

(** switch(specifier): prints one directive and returns the arguments left. *)
Definition directive (size : Z) (is_long : bool) (k : Z) (args : list arg) : M pstate (list arg) :=
  if k =? 100 then (* d *)
    '(v, args) ← access (va_int args);
    (if is_long then
       let n := i64 v in
       if n =? INT64_MIN then PUTC size 45 ;; fault
       else if n <? 0 then PUTC size 45 ;; put_number size 21 (uint64_to_dec (u64 (- n)))
       else put_number size 21 (uint64_to_dec (u64 n))
     else put_number size 12 (int_to_dec (i32 v))) ;;
    mret args
  else if k =? 117 then (* u *)
    '(v, args) ← access (va_int args);
    (if is_long then put_number size 21 (uint64_to_dec (u64 v))
     else put_number size 11 (uint_to_dec (u32 v))) ;;
    mret args
  else if k =? 120 then (* x *)
    '(v, args) ← access (va_int args);
    (if is_long then put_number size 17 (uint64_to_hex (u64 v))
     else put_number size 11 (uint_to_hex (u32 v))) ;;
    mret args
  else if k =? 115 then (* s *)
    '(s, args) ← access (va_str args);
    PUTS size (default (cs "(null)") s) ;;
    mret args
  else if k =? 99 then (* c *)
    '(v, args) ← access (va_int args);
    PUTC size (u8 v) ;;
    mret args
  else if k =? 37 then PUTC size 37 ;; mret args
  else PUTC size 37 ;; PUTC size k ;; mret args.

(** [fmt] holds the rest of the format string, its NUL included. *)
Fixpoint format_loop (size : Z) (fmt : list Z) (args : list arg) : M pstate unit :=
  match fmt with
  | [] => fault
  | c :: fmt1 =>
      if c =? 0 then mret tt
      else if negb (c =? 37) then PUTC size c ;; format_loop size fmt1 args
      else
        match fmt1 with
        | [] => fault
        | k :: fmt2 =>
            if k =? 108 then
              match fmt2 with
              | [] => fault
              | k :: fmt3 => args ← directive size true k args; format_loop size fmt3 args
              end
            else args ← directive size false k args; format_loop size fmt2 args
        end
  end.

Definition terminate (size : Z) : M pstate unit := λ '(buf, pos),
  if pos <? size then
    if pos <? Z.of_nat (length buf) then Done tt (<[Z.to_nat pos := 0]> buf, pos) else Fault
  else if 0 <? size then
    if size - 1 <? Z.of_nat (length buf) then Done tt (<[Z.to_nat (size - 1) := 0]> buf, pos) else Fault
  else Done tt (buf, pos).

(** Returns the buffer and the number of characters of the full output. *)
Definition kvsnprintf (buf : list Z) (size : Z) (fmt : list Z) (args : list arg) : outcome unit pstate :=
  match (format_loop size fmt args ;; terminate size) (buf, 0) with
  | Done _ st => Done st tt
  | Panic msg => Panic msg
  | Fault => Fault
  | Diverge => Diverge
  end.

Definition ksnprintf := kvsnprintf.

(** The characters before the first NUL. *)
Fixpoint until_nul (buf : list Z) : option (list Z) :=
  match buf with
  | [] => None
  | c :: buf => if c =? 0 then Some [] else s ← until_nul buf; Some (c :: s)
  end.

(** The vga_putchar() calls of kprintf(): [buf] is its uninitialised local. *)
Definition kprintf (buf : list Z) (fmt : list Z) (args : list arg) : outcome unit (list Z) :=
  match kvsnprintf buf 1024 fmt args with
  | Done (buf, _) s => access (until_nul buf) s
  | Panic msg => Panic msg
  | Fault => Fault
  | Diverge => Diverge
  end.

(** The serial_putchar() calls of kserial_printf(): \n goes out as \r\n. *)
Definition kserial_printf (buf : list Z) (fmt : list Z) (args : list arg) : outcome unit (list Z) :=
  match kvsnprintf buf 1024 fmt args with
  | Done (buf, _) s =>
      (out ← access (until_nul buf);
       mret (mjoin ((λ c, if c =? 10 then [13; c] else [c]) <$> out))) s
  | Panic msg => Panic msg
  | Fault => Fault
  | Diverge => Diverge
  end.

(** * The number converters are correct *)

Definition digit_val (d : Z) : Z := if d <? 58 then d - 48 else d - 55.

(** The value of a string of digits, most significant first. *)
Definition digits_val (base : Z) (ds : list Z) : Z := foldl (λ v d, v * base + digit_val d) 0 ds.

Definition is_dec (d : Z) : Prop := 48 <= d <= 57.

Lemma digits_val_snoc base ds d : digits_val base (ds ++ [d]) = digits_val base ds * base + digit_val d.
Proof. unfold digits_val. by rewrite foldl_app. Qed.

Lemma foldl_digits base v ds :
  foldl (λ v d, v * base + digit_val d) v ds = v * base ^ Z.of_nat (length ds) + digits_val base ds.
Proof.
  revert v. induction ds as [|d ds IH]; intros v; simpl; [unfold digits_val; simpl; lia|].
  unfold digits_val. simpl. rewrite !IH. replace (Z.of_nat (S (length ds))) with (Z.of_nat (length ds) + 1) by lia.
  rewrite Z.pow_add_r by lia. lia.
Qed.

(** A canonical decimal: only digits, the right value, no leading zero. *)
Definition is_decimal (n : Z) (ds : list Z) : Prop :=
  digits_val 10 ds = n ∧ Forall is_dec ds ∧ (n ≠ 0 → head ds ≠ Some 48) ∧ (n = 0 → ds = [48]).

Lemma dec_loop_spec cap : ∀ n tmp, 0 <= n < 10 ^ Z.of_nat cap →
  ∃ ds, dec_loop cap n tmp = Some (tmp ++ ds) ∧ (length ds <= cap)%nat ∧
    digits_val 10 (reverse ds) = n ∧ Forall is_dec ds ∧ (n = 0 → ds = []) ∧
    (n ≠ 0 → ∃ d ds', reverse ds = d :: ds' ∧ d ≠ 48).
Proof.
  induction cap as [|cap IH]; intros n tmp Hn.
  - exists []. simpl in *. replace n with 0 by lia. rewrite app_nil_r. by split_and!.
  - cbn [dec_loop]. destruct (Z.gtb_spec n 0) as [Hpos|].
    2:{ exists []. replace n with 0 by lia. rewrite app_nil_r. split_and!; try done. simpl. lia. }
    destruct (IH (n / 10) (tmp ++ [48 + n mod 10])) as (ds & -> & Hlen & Hval & Hdec & Hz & Hnz).
    { rewrite Nat2Z.inj_succ, Z.pow_succ_r in Hn by lia. split; [apply Z.div_pos; lia|].
      apply Z.div_lt_upper_bound; lia. }
    assert (0 <= n mod 10 < 10) by (apply Z.mod_pos_bound; lia).
    exists ((48 + n mod 10) :: ds). rewrite <- app_assoc. split_and!; [done|simpl; lia| | |lia|].
    + rewrite reverse_cons, digits_val_snoc, Hval. unfold digit_val.
      rewrite (proj2 (Z.ltb_lt _ 58)) by lia. Z.div_mod_to_equations. lia.
    + constructor; [unfold is_dec; lia|done].
    + intros _. rewrite reverse_cons. destruct (decide (n / 10 = 0)) as [H0|H0].
      * rewrite (Hz H0). eexists _, _. split; [done|]. Z.div_mod_to_equations. lia.
      * destruct (Hnz H0) as (d & ds' & -> & Hd). eexists _, _. split; [done|done].
Qed.

Lemma dec_loop_decimal cap n : 0 < n < 10 ^ Z.of_nat cap →
  ∃ ds, (tmp ← dec_loop cap n []; Some (reverse tmp)) = Some ds ∧
    is_decimal n ds ∧ (length ds <= cap)%nat.
Proof.
  intros Hn. destruct (dec_loop_spec cap n []) as (ds & -> & Hlen & Hval & Hdec & _ & Hnz); [lia|].
  exists (reverse ds). rewrite app_nil_l, length_reverse. split; [done|]. split; [|done].
  split_and!; [done|by apply Forall_reverse| |lia].
  intros Hn0. destruct (Hnz Hn0) as (d & ds' & -> & Hd). simpl. congruence.
Qed.

Lemma decimal_zero : is_decimal 0 [48].
Proof. split_and!; [done| |done|done]. constructor; [unfold is_dec; lia|done]. Qed.

Lemma uint_to_dec_spec n : 0 <= n < 2 ^ 32 →
  ∃ ds, uint_to_dec n = Some ds ∧ is_decimal n ds ∧ (length ds <= 10)%nat.
Proof.
  intros Hn. unfold uint_to_dec. destruct (Z.eqb_spec n 0) as [->|].
  - exists [48]. split; [done|]. split; [apply decimal_zero|simpl; lia].
  - apply (dec_loop_decimal 10 n). change (10 ^ Z.of_nat 10) with 10000000000. lia.
Qed.

Lemma uint64_to_dec_spec n : 0 <= n < 2 ^ 64 →
  ∃ ds, uint64_to_dec n = Some ds ∧ is_decimal n ds ∧ (length ds <= 20)%nat.
Proof.
  intros Hn. unfold uint64_to_dec. destruct (Z.eqb_spec n 0) as [->|].
  - exists [48]. split; [done|]. split; [apply decimal_zero|simpl; lia].
  - apply (dec_loop_decimal 20 n). change (10 ^ Z.of_nat 20) with 100000000000000000000. lia.
Qed.

Lemma int_to_dec_spec n : - 2 ^ 31 < n < 2 ^ 31 →
  ∃ ds, is_decimal (Z.abs n) ds ∧ (length ds <= 10)%nat ∧
    int_to_dec n = Some (if n <? 0 then 45 :: ds else ds).
Proof.
  intros Hn. destruct (uint_to_dec_spec (Z.abs n)) as (ds & Hd & Hval & Hlen); [lia|].
  exists ds. split; [done|]. split; [done|]. unfold int_to_dec. rewrite (proj2 (Z.eqb_neq n INT_MIN)) by (unfold INT_MIN; lia).
  destruct (Z.ltb_spec n 0).
  - rewrite u32_small by lia. by rewrite <- Z.abs_neq, Hd by lia.
  - rewrite u32_small by lia. by rewrite <- (Z.abs_eq n) at 1 by lia.
Qed.

Lemma hex_loop_spec i : ∀ n buf, 0 <= n →
  ∃ ds, hex_loop i n buf = Some (ds ++ buf) ∧ length ds = i ∧
    digits_val 16 ds = n mod 16 ^ Z.of_nat i ∧ Forall (λ d, d ∈ hex_digits) ds.
Proof.
  induction i as [|i IH]; intros n buf Hn.
  - exists []. rewrite Z.mod_1_r. by split_and!.
  - cbn [hex_loop]. change 15 with (Z.ones 4). rewrite Z.land_ones, Z.shiftr_div_pow2 by lia.
    change (2 ^ 4) with 16. assert (Hr : 0 <= n mod 16 < 16) by (apply Z.mod_pos_bound; lia).
    destruct (lookup_lt_is_Some_2 hex_digits (Z.to_nat (n mod 16))) as [d Hd].
    { change (length hex_digits) with 16%nat. lia. }
    assert (digit_val d = n mod 16) as Hdv.
    { revert Hd. generalize dependent (n mod 16). intros r Hr Hd.
      assert (r = 0 ∨ r = 1 ∨ r = 2 ∨ r = 3 ∨ r = 4 ∨ r = 5 ∨ r = 6 ∨ r = 7 ∨ r = 8 ∨ r = 9 ∨ r = 10 ∨
        r = 11 ∨ r = 12 ∨ r = 13 ∨ r = 14 ∨ r = 15) as Hc by lia.
      repeat destruct Hc as [->|Hc]; try subst r; vm_compute in Hd; by simplify_eq. }
    rewrite Hd. simpl. destruct (IH (n / 16) (d :: buf)) as (ds & -> & Hlen & Hval & Hall).
    { apply Z.div_pos; lia. }
    exists (ds ++ [d]). rewrite <- app_assoc, length_app. split_and!; [done|simpl; lia| |].
    + rewrite digits_val_snoc, Hval, Hdv, Nat2Z.inj_succ, Z.pow_succ_r by lia.
      rewrite Z.rem_mul_r by lia. lia.
    + apply Forall_app. split; [done|]. constructor; [by eapply list_elem_of_lookup_2|done].
Qed.

Lemma uint_to_hex_spec n : 0 <= n < 2 ^ 32 →
  ∃ ds, uint_to_hex n = Some ds ∧ digits_val 16 ds = n ∧ length ds = 8%nat.
Proof.
  intros Hn. destruct (hex_loop_spec 8 n []) as (ds & Hd & Hlen & Hval & _); [lia|].
  exists ds. rewrite app_nil_r in Hd. split_and!; [done| |done]. rewrite Hval. apply Z.mod_small. lia.
Qed.

Lemma uint64_to_hex_spec n : 0 <= n < 2 ^ 64 →
  ∃ ds, uint64_to_hex n = Some ds ∧ digits_val 16 ds = n ∧ length ds = 16%nat.
Proof.
  intros Hn. destruct (hex_loop_spec 16 n []) as (ds & Hd & Hlen & Hval & _); [lia|].
  exists ds. rewrite app_nil_r in Hd. split_and!; [done| |done]. rewrite Hval. apply Z.mod_small. lia.
Qed.

(** The number converters print what they are given: reading the digits
    back gives the number, for every 32-bit (signed but the least, and
    unsigned) and 64-bit value; decimals have no leading zero and fit the 10 and 20 byte buffers,
    hexadecimals have exactly 8 and 16 digits. *)
Lemma number_roundtrip n :
  (0 <= n < 2 ^ 32 →
     (∃ ds, uint_to_dec n = Some ds ∧ is_decimal n ds ∧ (length ds <= 10)%nat) ∧
     (∃ ds, uint_to_hex n = Some ds ∧ digits_val 16 ds = n ∧ length ds = 8%nat)) ∧
  (0 <= n < 2 ^ 64 →
     (∃ ds, uint64_to_dec n = Some ds ∧ is_decimal n ds ∧ (length ds <= 20)%nat) ∧
     (∃ ds, uint64_to_hex n = Some ds ∧ digits_val 16 ds = n ∧ length ds = 16%nat)) ∧
  (- 2 ^ 31 < n < 2 ^ 31 →
     ∃ ds, is_decimal (Z.abs n) ds ∧ (length ds <= 10)%nat ∧
       int_to_dec n = Some (if n <? 0 then 45 :: ds else ds)).
Proof.
  split_and!.
  - auto using uint_to_dec_spec, uint_to_hex_spec.
  - auto using uint64_to_dec_spec, uint64_to_hex_spec.
  - apply int_to_dec_spec.
Qed.

Lemma number_roundtrip_witness :
  int_to_dec (-2147483647) = Some (cs "-2147483647") ∧
  ∃ ds, uint64_to_dec 18446744073709551615 = Some ds ∧ is_decimal 18446744073709551615 ds.
Proof.
  split; [reflexivity|].
  destruct (number_roundtrip 18446744073709551615) as (_ & H & _).
  destruct H as [(ds & H1 & H2 & _) _]; [split; by_compute|]. by exists ds.
Defined.

(** * The formatter implements a reference formatter, truncated

    [render] says what a format string stands for, with no buffer. *)

Definition dec_of (n : Z) : list Z :=
  (if n <? 0 then [45] else []) ++ default [] (uint64_to_dec (Z.abs n)).

Definition render_directive (is_long : bool) (k : Z) (args : list arg) : option (list Z * list arg) :=
  if k =? 100 then
    '(v, args) ← va_int args;
    let n := if is_long then i64 v else i32 v in
    if n =? (if is_long then INT64_MIN else INT_MIN) then None else Some (dec_of n, args)
  else if k =? 117 then
    '(v, args) ← va_int args; Some (dec_of (if is_long then u64 v else u32 v), args)
  else if k =? 120 then
    '(v, args) ← va_int args;
    Some (default [] (if is_long then uint64_to_hex (u64 v) else uint_to_hex (u32 v)), args)
  else if k =? 115 then
    '(s, args) ← va_str args; Some (default (cs "(null)") s, args)
  else if k =? 99 then
    '(v, args) ← va_int args; Some ([u8 v], args)
  else Some (if k =? 37 then [37] else [37; k], args).

Fixpoint render (fmt : list Z) (args : list arg) : option (list Z) :=
  match fmt with
  | [] => Some []
  | c :: fmt1 =>
      if negb (c =? 37) then out ← render fmt1 args; Some (c :: out)
      else
        match fmt1 with
        | [] => None
        | k :: fmt2 =>
            if k =? 108 then
              match fmt2 with
              | [] => None
              | k :: fmt3 =>
                  '(ds, args) ← render_directive true k args;
                  out ← render fmt3 args; Some (ds ++ out)
              end
            else
              '(ds, args) ← render_directive false k args;
              out ← render fmt2 args; Some (ds ++ out)
        end
  end.

(** The formatter's state after it has printed [out] into [buf]. *)
Definition emitted (size : Z) (buf out : list Z) : pstate :=
  let k := Z.to_nat (Z.min (size - 1) (Z.of_nat (length out))) in
  (take k out ++ drop k buf, Z.of_nat (length out)).

Lemma emitted_length size buf out :
  0 <= size <= Z.of_nat (length buf) → length (emitted size buf out).1 = length buf.
Proof. intros H. unfold emitted. simpl. rewrite length_app, length_take, length_drop. lia. Qed.

(** The whole output is counted by an int. *)
Definition countable (out : list Z) : Prop := Z.of_nat (length out) <= INT_MAX.

Lemma countable_app out s : countable (out ++ s) → countable out.
Proof. unfold countable. rewrite length_app. lia. Qed.

Lemma PUTC_emitted size buf out c :
  0 <= size <= Z.of_nat (length buf) → countable (out ++ [c]) → 0 <= c < 256 →
  PUTC size c (emitted size buf out) = Done tt (emitted size buf (out ++ [c])).
Proof.
  intros Hs Hcn Hc. pose proof (emitted_length size buf out Hs) as Hlen.
  assert (Hstep : ∀ b, step_pos (b, Z.of_nat (length out)) = Done tt (b, Z.of_nat (length out) + 1)).
  { intros b. unfold step_pos. unfold countable in Hcn. rewrite length_app in Hcn. cbn [length] in Hcn.
    by rewrite (proj2 (Z.eqb_neq _ _)) by lia. }
  unfold PUTC, mbind, M_bind. destruct (emitted size buf out) as [b pos] eqn:He. simpl in Hlen.
  pose proof (f_equal snd He) as Hp. pose proof (f_equal fst He) as Hb. simpl in Hp, Hb. subst pos.
  unfold emitted. rewrite length_app, Nat2Z.inj_add. simpl length. change (Z.of_nat 1) with 1.
  destruct (Z.ltb_spec (Z.of_nat (length out)) (size - 1)).
  - rewrite (proj2 (Z.ltb_lt _ _)) by lia. rewrite u8_small, Nat2Z.id, Hstep by done. f_equal. f_equal.
    rewrite <- Hb. rewrite !Z.min_r, !Z2Nat.inj_add, !Nat2Z.id by lia. change (Z.to_nat 1) with 1%nat.
    rewrite !take_ge by (rewrite ?length_app; simpl; lia).
    rewrite insert_app_r_alt, Nat.sub_diag, <- app_assoc by lia. f_equal.
    destruct (drop (length out) buf) as [|x l] eqn:Hd.
    { apply (f_equal length) in Hd. rewrite length_drop in Hd. simpl in Hd. lia. }
    simpl. f_equal. rewrite <- (drop_drop buf 1 (length out)) || rewrite <- drop_drop.
    by rewrite Hd.
  - rewrite Hstep. f_equal. f_equal. rewrite <- Hb. rewrite !Z.min_l by lia. f_equal.
    destruct (Z_le_gt_dec size 0); [by rewrite !Z2Nat.nonpos by lia|].
    rewrite take_app_le by lia. done.
Qed.

Lemma PUTS_emitted size buf s : ∀ out,
  0 <= size <= Z.of_nat (length buf) → countable (out ++ s) → Forall is_byte s →
  PUTS size s (emitted size buf out) = Done tt (emitted size buf (out ++ s)).
Proof.
  induction s as [|c s IH]; intros out Hs Hcn Hb; simpl.
  - by rewrite app_nil_r.
  - apply list.Forall_cons in Hb as [Hc Hb].
    change (c :: s) with ([c] ++ s) in Hcn. rewrite (app_assoc out [c] s) in Hcn. pose proof (countable_app _ _ Hcn).
    rewrite (bind_Done _ _ _ _ _ (PUTC_emitted size buf out c Hs ltac:(done) Hc)), IH by done.
    by rewrite <- app_assoc.
Qed.

Lemma dec_loop_mono cap cap' n : ∀ tmp r,
  dec_loop cap n tmp = Some r → (cap <= cap')%nat → dec_loop cap' n tmp = Some r.
Proof.
  revert cap' n. induction cap as [|cap IH]; intros [|cap'] n tmp r Hd Hle; try lia; [done| |].
  - simpl in *. by destruct (n >? 0).
  - cbn [dec_loop] in *. destruct (n >? 0); [|done]. eapply IH; [done|lia].
Qed.

Lemma uint_to_dec_64 n ds : uint_to_dec n = Some ds → uint64_to_dec n = Some ds.
Proof.
  unfold uint_to_dec, uint64_to_dec. destruct (n =? 0); [done|].
  destruct (dec_loop 10 n []) as [r|] eqn:Hd; [|done].
  rewrite (dec_loop_mono 10 20 _ _ _ Hd) by lia. done.
Qed.

Lemma is_dec_byte ds : Forall is_dec ds → Forall is_byte ds.
Proof. apply Forall_impl. unfold is_dec, is_byte. lia. Qed.

Lemma put_number_emitted size buf out cap o ds :
  0 <= size <= Z.of_nat (length buf) → countable (out ++ ds) → o = Some ds → Forall is_byte ds → (length ds <= cap)%nat →
  put_number size cap o (emitted size buf out) = Done tt (emitted size buf (out ++ ds)).
Proof.
  intros Hs Hcn -> Hb Hl. unfold put_number. run. rewrite (proj2 (Nat.leb_le _ _)) by done.
  by apply PUTS_emitted.
Qed.

(** Each way of printing a number prints [dec_of] or the hex digits. *)
Lemma put_int32 size buf out n :
  0 <= size <= Z.of_nat (length buf) → countable (out ++ dec_of n) → - 2 ^ 31 < n < 2 ^ 31 →
  put_number size 12 (int_to_dec n) (emitted size buf out) = Done tt (emitted size buf (out ++ dec_of n)).
Proof.
  intros Hs Hcn Hn. destruct (uint_to_dec_spec (Z.abs n)) as (ds & Hds & (_ & Hd & _) & Hl); [lia|].
  unfold dec_of in *. rewrite (uint_to_dec_64 _ _ Hds) in *. apply is_dec_byte in Hd.
  apply put_number_emitted; [done|done| | |].
  - unfold int_to_dec. rewrite (proj2 (Z.eqb_neq n INT_MIN)) by (unfold INT_MIN; lia). destruct (Z.ltb_spec n 0).
    + rewrite u32_small by lia. by rewrite <- Z.abs_neq, Hds by lia.
    + rewrite u32_small by lia. by rewrite <- (Z.abs_eq n) at 1 by lia.
  - destruct (n <? 0); simpl; [constructor; [unfold is_byte; lia|]|]; done.
  - destruct (n <? 0); simpl; lia.
Qed.

Lemma put_uint32 size buf out n :
  0 <= size <= Z.of_nat (length buf) → countable (out ++ dec_of n) → 0 <= n < 2 ^ 32 →
  put_number size 11 (uint_to_dec n) (emitted size buf out) = Done tt (emitted size buf (out ++ dec_of n)).
Proof.
  intros Hs Hcn Hn. destruct (uint_to_dec_spec n Hn) as (ds & Hds & (_ & Hd & _) & Hl).
  unfold dec_of in *. rewrite Z.abs_eq, (uint_to_dec_64 _ _ Hds), (proj2 (Z.ltb_ge n 0)) in * by lia.
  apply (put_number_emitted _ _ _ _ _ ds); [done..|by apply is_dec_byte|lia].
Qed.

Lemma put_uint64 size buf out n :
  0 <= size <= Z.of_nat (length buf) → countable (out ++ dec_of n) → 0 <= n < 2 ^ 64 →
  put_number size 21 (uint64_to_dec n) (emitted size buf out) = Done tt (emitted size buf (out ++ dec_of n)).
Proof.
  intros Hs Hcn Hn. destruct (uint64_to_dec_spec n Hn) as (ds & Hds & (_ & Hd & _) & Hl).
  unfold dec_of in *. rewrite Z.abs_eq, Hds, (proj2 (Z.ltb_ge n 0)) in * by lia.
  apply (put_number_emitted _ _ _ _ _ ds); [done..|by apply is_dec_byte|lia].
Qed.

Lemma hex_byte ds : Forall (λ d, d ∈ hex_digits) ds → Forall is_byte ds.
Proof.
  apply Forall_impl. assert (Forall is_byte hex_digits) as H.
  { by apply (bool_decide_unpack _). }
  rewrite list.Forall_forall in H. exact H.
Qed.

Lemma put_hex size buf out i cap n :
  0 <= size <= Z.of_nat (length buf) → countable (out ++ default [] (hex_loop i n [])) → 0 <= n → (i <= cap)%nat →
  put_number size cap (hex_loop i n []) (emitted size buf out)
  = Done tt (emitted size buf (out ++ default [] (hex_loop i n []))).
Proof.
  intros Hs Hcn Hn Hc. destruct (hex_loop_spec i n []) as (ds & Hd & Hlen & _ & Hall); [lia|].
  rewrite Hd, app_nil_r in *. simpl in *. apply put_number_emitted; [done|done|done|by apply hex_byte|lia].
Qed.

(** Every string argument is a C string. *)
Definition arg_ok (x : arg) : Prop := match x with AStr (Some s) => Forall is_byte s | _ => True end.

Lemma directive_emitted size buf out is_long k args ds args' :
  0 <= size <= Z.of_nat (length buf) → countable (out ++ ds) → is_byte k → Forall arg_ok args →
  render_directive is_long k args = Some (ds, args') →
  directive size is_long k args (emitted size buf out) = Done args' (emitted size buf (out ++ ds)) ∧
  Forall arg_ok args'.
Proof.
  intros Hs Hcn Hk Ha Hr. unfold directive, render_directive in *.
  destruct (k =? 100); [|destruct (k =? 117); [|destruct (k =? 120); [|destruct (k =? 115);
    [|destruct (k =? 99)]]]].
  - destruct args as [|[v|] args]; simpl in Hr; try done. apply list.Forall_cons in Ha as [_ Ha]. run. cbn [va_int]. run.
    destruct is_long.
    + destruct (Z.eqb_spec (i64 v) INT64_MIN) as [|Hmin]; [done|]. injection Hr as <- <-. split; [|done]. assert (Hv : - 2 ^ 63 <= i64 v < 2 ^ 63) by word_lia. unfold INT64_MIN in Hmin.
      destruct (Z.ltb_spec (i64 v) 0).
      * assert (Ed : dec_of (i64 v) = [45] ++ dec_of (- i64 v)).
        { unfold dec_of. by rewrite (proj2 (Z.ltb_lt (i64 v) 0)), (proj2 (Z.ltb_ge (- i64 v) 0)), Z.abs_opp by lia. }
        rewrite Ed, (app_assoc out) in *. rewrite PUTC_emitted by (done || lia || by eapply countable_app).
        by rewrite u64_small, put_uint64 by (done || lia).
      * rewrite u64_small, put_uint64 by (done || lia). done.
    + destruct (Z.eqb_spec (i32 v) INT_MIN) as [|Hmin]; [done|]. injection Hr as <- <-. split; [|done].
      unfold INT_MIN in Hmin. pose proof (i32_range v). by rewrite put_int32 by (done || lia).
  - destruct args as [|[v|] args]; simpl in Hr; try done; injection Hr as <- <-;
      apply list.Forall_cons in Ha as [_ Ha]; split; [|done]. run. cbn [va_int]. run. destruct is_long.
    + rewrite put_uint64; [done|done|done|apply u64_range].
    + rewrite put_uint32; [done|done|done|apply u32_range].
  - destruct args as [|[v|] args]; simpl in Hr; try done; injection Hr as <- <-;
      apply list.Forall_cons in Ha as [_ Ha]; split; [|done]. run. cbn [va_int]. run.
    unfold uint64_to_hex, uint_to_hex in *. destruct is_long.
    + rewrite put_hex; [done|done|done|apply u64_range|lia].
    + rewrite put_hex; [done|done|done|apply u32_range|lia].
  - destruct args as [|[|s] args]; simpl in Hr; try done. injection Hr as <- <-.
    apply list.Forall_cons in Ha as [Hsb Ha]. split; [|done].
    run. cbn [va_str]. run. rewrite PUTS_emitted; [done|done|done|].
    destruct s; [done|]. by apply (bool_decide_unpack _).
  - destruct args as [|[v|] args]; simpl in Hr; try done; injection Hr as <- <-;
      apply list.Forall_cons in Ha as [_ Ha]; split; [|done]. run. cbn [va_int]. run.
    rewrite PUTC_emitted; [done|done|done|apply u8_range].
  - injection Hr as <- <-. split; [|done]. destruct (k =? 37).
    + run. rewrite PUTC_emitted by (done || lia). done.
    + change [37; k] with ([37] ++ [k]) in *. rewrite (app_assoc out) in *. run.
      rewrite PUTC_emitted, PUTC_emitted by (done || lia || by eapply countable_app). done.
Qed.

Lemma format_loop_emitted size buf : 0 <= size <= Z.of_nat (length buf) → ∀ fmt args out ds,
  Forall (λ c, 0 < c < 256) fmt → Forall arg_ok args → render fmt args = Some ds → countable (out ++ ds) →
  format_loop size (fmt ++ [0]) args (emitted size buf out) = Done tt (emitted size buf (out ++ ds)).
Proof.
  intros Hs fmt. induction fmt as [fmt IH] using (induction_ltof1 _ length). unfold ltof in IH.
  intros args out ds Hf Ha Hr Hcn. destruct fmt as [|c fmt]; simpl in Hr.
  { injection Hr as <-. by rewrite app_nil_r. }
  apply list.Forall_cons in Hf as [Hc Hf]. cbn [format_loop app].
  rewrite (proj2 (Z.eqb_neq c 0)) by lia. destruct (Z.eqb_spec c 37) as [->|]; simpl in Hr |- *.
  - destruct fmt as [|k fmt]; [done|]. apply list.Forall_cons in Hf as [Hk Hf]. cbn [app].
    destruct (k =? 108).
    + destruct fmt as [|k' fmt]; [done|]. apply list.Forall_cons in Hf as [Hk' Hf]. cbn [app].
      apply bind_Some in Hr as ([d args'] & Hd & (o & Ho & [= <-])%bind_Some).
      rewrite (app_assoc out) in Hcn. pose proof (countable_app _ _ Hcn) as Hcd.
      destruct (directive_emitted size buf out true k' args d args' Hs Hcd ltac:(unfold is_byte; lia) Ha Hd) as [Hrun Ha'].
      rewrite (bind_Done _ _ _ _ _ Hrun), (IH fmt) with (ds := o); [|simpl; lia|done..].
      by rewrite <- app_assoc.
    + apply bind_Some in Hr as ([d args'] & Hd & (o & Ho & [= <-])%bind_Some).
      rewrite (app_assoc out) in Hcn. pose proof (countable_app _ _ Hcn) as Hcd.
      destruct (directive_emitted size buf out false k args d args' Hs Hcd ltac:(unfold is_byte; lia) Ha Hd) as [Hrun Ha'].
      rewrite (bind_Done _ _ _ _ _ Hrun), (IH fmt) with (ds := o); [|simpl; lia|done..].
      by rewrite <- app_assoc.
  - apply bind_Some in Hr as (o & Ho & [= <-]).
    change (c :: o) with ([c] ++ o) in Hcn. rewrite (app_assoc out) in Hcn. pose proof (countable_app _ _ Hcn) as Hcd.
    rewrite (bind_Done _ _ _ _ _ (PUTC_emitted size buf out c Hs Hcd ltac:(unfold is_byte; lia))).
    rewrite (IH fmt) with (ds := o); [|simpl; lia|done..]. by rewrite <- app_assoc.
Qed.

Lemma terminate_emitted size buf out : 0 < size <= Z.of_nat (length buf) →
  ∃ rest, terminate size (emitted size buf out)
    = Done tt (take (Z.to_nat (size - 1)) out ++ [0] ++ rest, Z.of_nat (length out)) ∧
    drop (Z.to_nat size) (take (Z.to_nat (size - 1)) out ++ [0] ++ rest) = drop (Z.to_nat size) buf ∧
    length (take (Z.to_nat (size - 1)) out ++ [0] ++ rest) = length buf.
Proof.
  intros Hs. pose proof (emitted_length size buf out ltac:(lia)) as Hlen.
  unfold emitted in *. cbn [fst] in Hlen. set (k := Z.to_nat (Z.min (size - 1) (Z.of_nat (length out)))) in *.
  assert (Hk : take (Z.to_nat (size - 1)) out = take k out).
  { destruct (Z_le_gt_dec (Z.of_nat (length out)) (size - 1)).
    - rewrite !take_ge by lia. done.
    - f_equal. lia. }
  assert (Hkl : (k < length buf)%nat) by lia. assert (Hko : length (take k out) = k) by (rewrite length_take; lia).
  assert (Hins : ∀ x, <[k := x]> (take k out ++ drop k buf) = take k out ++ [x] ++ drop (S k) buf).
  { intros x. rewrite insert_app_r_alt, Hko, Nat.sub_diag by lia. f_equal.
    destruct (drop k buf) as [|y l] eqn:Hd.
    { apply (f_equal length) in Hd. rewrite length_drop in Hd. simpl in Hd. lia. }
    simpl. f_equal. change (S k) with (1 + k)%nat. rewrite Nat.add_comm, <- drop_drop, Hd. done. }
  exists (drop (S k) buf). rewrite Hk, <- Hins. split; [|split].
  - unfold terminate. rewrite Hlen. destruct (Z.ltb_spec (Z.of_nat (length out)) size).
    + rewrite (proj2 (Z.ltb_lt _ _)) by lia. do 3 f_equal. lia.
    + rewrite !(proj2 (Z.ltb_lt _ _)) by lia. do 3 f_equal. lia.
  - rewrite drop_insert_lt, drop_app, Hko, drop_drop by lia.
    rewrite (drop_ge (take k out)) by lia. simpl. f_equal. lia.
  - by rewrite length_insert.
Qed.

Lemma kvsnprintf_render buf size fmt args out :
  0 < size <= Z.of_nat (length buf) → Forall (λ c, 0 < c < 256) fmt → Forall arg_ok args →
  render fmt args = Some out → countable out →
  ∃ rest, let buf' := take (Z.to_nat (size - 1)) out ++ [0] ++ rest in
    kvsnprintf buf size (fmt ++ [0]) args = Done (buf', Z.of_nat (length out)) tt ∧
    drop (Z.to_nat size) buf' = drop (Z.to_nat size) buf ∧ length buf' = length buf.
Proof.
  intros Hs Hf Ha Hr Hcn. destruct (terminate_emitted size buf out Hs) as (rest & Ht & Hd & Hl).
  exists rest. cbv zeta. split_and!; [|done|done]. unfold kvsnprintf.
  assert (emitted size buf [] = (buf, 0)) as <-.
  { unfold emitted. simpl length. by rewrite Z.min_r by lia. }
  rewrite (bind_Done _ _ _ _ _ (format_loop_emitted size buf ltac:(lia) _ _ [] _ Hf Ha Hr Hcn)).
  simpl app at 1. rewrite Ht. done.
Qed.

(** C37. kvsnprintf() writes the reference rendering of its format and
    arguments, for output that an int can count: the first size-1 characters
    of it, then a NUL, nothing beyond [size] bytes, and returns the length of
    the whole rendering, which is what it would have written in a buffer large
    enough. (The least int, whose negation overflows, has no rendering.) *)
Theorem kvsnprintf_truncates buf size fmt args out :
  0 < size <= Z.of_nat (length buf) → Forall (λ c, 0 < c < 256) fmt → Forall arg_ok args →
  render fmt args = Some out → countable out →
  ∃ rest, let buf' := take (Z.to_nat (size - 1)) out ++ [0] ++ rest in
    kvsnprintf buf size (fmt ++ [0]) args = Done (buf', Z.of_nat (length out)) tt ∧
    drop (Z.to_nat size) buf' = drop (Z.to_nat size) buf ∧ length buf' = length buf.
Proof. apply kvsnprintf_render. Qed.

Lemma kvsnprintf_truncates_witness :
  ∃ rest, kvsnprintf [1; 2; 3; 4; 5; 6] 5 (cs "%d=%x" ++ [0]) [AInt 65; AInt 65]
    = Done ([54; 53; 61; 48; 0] ++ rest, 11) tt.
Proof.
  destruct (kvsnprintf_truncates [1; 2; 3; 4; 5; 6] 5 (cs "%d=%x") [AInt 65; AInt 65] (cs "65=00000041"))
    as (rest & H & _).
  - split; by_compute.
  - repeat constructor.
  - repeat constructor.
  - reflexivity.
  - by_compute.
  - exists rest. exact H.
Defined.

Lemma until_nul_app s rest : Forall (λ c, c ≠ 0) s → until_nul (s ++ [0] ++ rest) = Some s.
Proof.
  induction s as [|c s IH]; intros H; [done|]. apply list.Forall_cons in H as [Hc H].
  rewrite <- app_comm_cons. cbn [until_nul]. rewrite (proj2 (Z.eqb_neq c 0)) by done. by rewrite IH.
Qed.

(** kprintf() and kserial_printf() show the first 1023 characters of the
    rendering (the serial line with a carriage return before each newline),
    whatever their uninitialised local buffer held. *)
Lemma kprintf_shows buf fmt args out :
  length buf = 1024%nat → Forall (λ c, 0 < c < 256) fmt → Forall arg_ok args →
  render fmt args = Some out → countable out → Forall (λ c, c ≠ 0) out →
  kprintf buf (fmt ++ [0]) args = Done (take 1023 out) tt ∧
  kserial_printf buf (fmt ++ [0]) args
    = Done (mjoin ((λ c, if c =? 10 then [13; 10] else [c]) <$> take 1023 out)) tt.
Proof.
  intros Hb Hf Ha Hr Hcn Hn.
  destruct (kvsnprintf_render buf 1024 fmt args out ltac:(lia) Hf Ha Hr Hcn) as (rest & Hk & _).
  change (Z.to_nat (1024 - 1)) with 1023%nat in Hk.
  pose proof (until_nul_app (take 1023 out) rest (Forall_take _ _ _ Hn)) as Hu.
  unfold kprintf, kserial_printf. rewrite Hk, Hu. split; [done|]. run. do 2 f_equal.
  apply list_fmap_ext. intros _ c _. by destruct (Z.eqb_spec c 10) as [->|].
Qed.

Example kprintf_shows_hi :
  kserial_printf (replicate 1024 7) (cs "%s!" ++ [10] ++ [0]) [AStr (Some (cs "hi"))]
    = Done (cs "hi!" ++ [13; 10]) tt.
Proof.
  apply (kprintf_shows (replicate 1024 7) (cs "%s!" ++ [10]) [AStr (Some (cs "hi"))] (cs "hi!" ++ [10]));
    [reflexivity| | |reflexivity|by_compute|]; repeat constructor; by_compute.
Defined.

(** A format that ends in a percent sign is read past its NUL. *)
Lemma trailing_percent buf size args :
  0 < size <= Z.of_nat (length buf) → kvsnprintf buf size (cs "%" ++ [0]) args = Fault.
Proof.
  intros Hs. unfold kvsnprintf. change (cs "%" ++ [0]) with [37; 0]. cbn [format_loop].
  rewrite (proj2 (Z.eqb_neq 37 0)) by lia. change (0 =? 108) with false. change (negb (37 =? 37)) with false.
  unfold directive. simpl.
  assert (H : ∀ c, is_byte c → PUTC size c (buf, 0) = Done tt (emitted size buf [c])).
  { intros c Hc. rewrite <- (app_nil_l [c]), <- PUTC_emitted by (done || lia || by_compute). f_equal.
    unfold emitted. simpl length. by rewrite Z.min_r by lia. }
  run. rewrite H by (unfold is_byte; lia). rewrite PUTC_emitted by (unfold is_byte; lia || by_compute). done.
Qed.

(** Nor does %d show the least int: its negation overflows. *)
Lemma least_int_faults buf size : kvsnprintf buf size (cs "%d" ++ [0]) [AInt INT_MIN] = Fault.
Proof. reflexivity. Qed.
