(* ===== verification/Stdio.v ===== *)
(** The user library's stdio: libc/src/stdio.c.

    printf() formats into a local buffer of 1024 bytes, with a write outside
    it a fault, and hands it to write(). The buffered files sit in front of
    the system calls and malloc(), which they see through the interface
    [Libc]: what the calls do is their state transformer on a world [W]. *)

From S2P Require Import Prelude CString Kprintf.

(** * Number formatting *)

Definition lower_digits : list Z := cs "0123456789abcdef".

(** while(value > 0) { tmp[i++] = digits[value % base]; value /= base; } *)
Fixpoint format_loop (cap : nat) (value base : Z) (tmp : list Z) : option (list Z) :=
  if value >? 0 then
    match cap with
    | O => None
    | S cap =>
        d ← lower_digits !! Z.to_nat (value mod base);
        format_loop cap (value / base) base (tmp ++ [d])
    end
  else Some tmp.

Definition format_uint (value base : Z) : option (list Z) :=
  tmp ← (if value =? 0 then Some [48] else format_loop 32 value base []);
  Some (reverse tmp).

Definition format_int (value base : Z) : option (list Z) :=
  if value <? 0 then ds ← format_uint (u64 (- value)) base; Some (45 :: ds)
  else format_uint (u64 value) base.

(** * vprintf *)

Definition BUF_SIZE : Z := 1024.

(** buf[pos++] = c; *)
Definition putb (c : Z) : M pstate unit := λ '(buf, pos),
  if (0 <=? pos) && (pos <? Z.of_nat (length buf))
  then Done tt (<[Z.to_nat pos := u8 c]> buf, pos + 1) else Fault.

Fixpoint putbs (s : list Z) : M pstate unit :=
  match s with [] => mret tt | c :: s => putb c ;; putbs s end.

(** while( *str && pos < sizeof(buf) - 1) buf[pos++] = *str++; *)
Fixpoint put_str (s : list Z) : M pstate unit :=
  match s with
  | [] => mret tt
  | c :: s => λ st, if snd st <? BUF_SIZE - 1 then (putb c ;; put_str s) st else Done tt st
  end.

(** One specifier; the default case prints it as it is. *)
Definition vdirective (is_long : bool) (k : Z) (args : list arg) : M pstate (list arg) :=
  if k =? 100 then
    '(v, args) ← access (va_int args);
    ds ← access (format_int (if is_long then i64 v else i32 v) 10); putbs ds ;; mret args
  else if k =? 117 then
    '(v, args) ← access (va_int args);
    ds ← access (format_uint (if is_long then u64 v else u32 v) 10); putbs ds ;; mret args
  else if k =? 120 then
    '(v, args) ← access (va_int args);
    ds ← access (format_uint (if is_long then u64 v else u32 v) 16); putbs ds ;; mret args
  else if k =? 99 then
    '(v, args) ← access (va_int args); putb (u8 v) ;; mret args
  else if k =? 115 then
    '(s, args) ← access (va_str args);
    match s with None => fault | Some s => put_str s ;; mret args end
  else if k =? 37 then putb 37 ;; mret args
  else putb 37 ;; putb k ;; mret args.

(** The for loop: [fmt] is the rest of the format, its NUL included. *)
Fixpoint vprintf_loop (fmt : list Z) (args : list arg) : M pstate unit :=
  match fmt with
  | [] => fault
  | c :: fmt1 => λ st,
      if negb (c =? 0) && (snd st <? BUF_SIZE - 32) then
        (if negb (c =? 37) then putb c ;; vprintf_loop fmt1 args
         else
           match fmt1 with
           | [] => fault
           | k :: fmt2 =>
               if k =? 108 then
                 match fmt2 with
                 | [] => fault
                 | k :: fmt3 => args ← vdirective true k args; vprintf_loop fmt3 args
                 end
               else args ← vdirective false k args; vprintf_loop fmt2 args
           end) st
      else Done tt st
  end.

(** * The system calls and the allocator, as the library sees them *)

Class Libc (W : Type) := {
  sys_open : list Z → Z → M W Z;
  sys_close : Z → M W Z;
  (** read(fd, buf, n): the result and the bytes put at the front of buf *)
  sys_read : Z → Z → M W (Z * list Z);
  sys_write : Z → list Z → M W Z;
  sys_malloc : Z → M W Z;
  sys_free : Z → M W unit;
}.

Section Stdio.
Context {W : Type} `{!Libc W}.

Definition STDOUT_FILENO : Z := 1.

(** vprintf(): [buf] is the uninitialised local buffer. *)
Definition vprintf (buf fmt : list Z) (args : list arg) : M W Z := λ w,
  match vprintf_loop fmt args (buf, 0) with
  | Done _ (buf, pos) => (sys_write STDOUT_FILENO (take (Z.to_nat pos) buf) ;; mret pos) w
  | Panic msg => Panic msg
  | Fault => Fault
  | Diverge => Diverge
  end.

Definition printf := vprintf.

(** * Buffered files *)

Definition FILE_BUF_SIZE : Z := 512.
Definition FILE_STRUCT_SIZE : Z := 40.
Definition O_RDONLY : Z := 0.
Definition O_WRONLY : Z := 1.
Definition O_CREAT : Z := 4.
Definition O_TRUNC : Z := 16.
Definition O_APPEND : Z := 8.

(** struct FILE; [f_buf] is the content of the buffer at [f_bufp]. *)
Record FILE := File {
  f_fd : Z; f_is_write : bool; f_bufp : Z; f_buf : list Z;
  f_buf_size : Z; f_buf_pos : Z; f_buf_len : Z }.

(** The flags and direction a mode stands for. *)
Definition open_mode (mode : Z) : option (Z * bool) :=
  if mode =? 114 then Some (O_RDONLY, false)
  else if mode =? 119 then Some (Z.lor (Z.lor O_WRONLY O_CREAT) O_TRUNC, true)
  else if mode =? 97 then Some (Z.lor (Z.lor O_WRONLY O_CREAT) O_APPEND, true)
  else None.

(** fopen(): the address of the new FILE and its content, or NULL. [fresh]
    is what malloc() leaves in the new buffer. *)
Definition fopen (path : list Z) (mode : Z) (fresh : list Z) : M W (option (Z * FILE)) :=
  match open_mode mode with
  | None => mret None
  | Some (flags, is_write) =>
      fd ← sys_open path flags;
      if fd <? 0 then mret None
      else
        f ← sys_malloc FILE_STRUCT_SIZE;
        if f =? 0 then sys_close fd ;; mret None
        else
          b ← sys_malloc FILE_BUF_SIZE;
          if b =? 0 then sys_free f ;; sys_close fd ;; mret None
          else mret (Some (f, File fd is_write b fresh FILE_BUF_SIZE 0 0))
  end.

Definition fclose (fp : Z) (f : FILE) : M W Z :=
  result ← (if f_is_write f && (f_buf_pos f >? 0)
            then r ← sys_write (f_fd f) (take (Z.to_nat (f_buf_pos f)) (f_buf f));
                 mret (if r <? 0 then -1 else 0)
            else mret 0);
  r ← sys_close (f_fd f);
  sys_free (f_bufp f) ;;
  sys_free fp ;;
  mret (if r <? 0 then -1 else result).

(** memcpy(dst + at, src, n) on buffers of known length. *)
Definition blit (dst src : list Z) (at_ : Z) : option (list Z) :=
  if at_ + Z.of_nat (length src) <=? Z.of_nat (length dst)
  then Some (take (Z.to_nat at_) dst ++ src ++ drop (Z.to_nat at_ + length src) dst) else None.

Definition slice (l : list Z) (at_ n : Z) : option (list Z) :=
  if at_ + n <=? Z.of_nat (length l) then Some (take (Z.to_nat n) (drop (Z.to_nat at_) l)) else None.

(** The refill at the head of fread()'s loop; [None] leaves the loop. *)
Definition refill (f : FILE) : M W (option FILE) :=
  if f_buf_pos f >=? f_buf_len f then
    '(n, data) ← sys_read (f_fd f) (f_buf_size f);
    if n <=? 0 then mret None
    else b ← access (blit (f_buf f) data 0);
         mret (Some (File (f_fd f) (f_is_write f) (f_bufp f) b (f_buf_size f) 0 n))
  else mret (Some f).

(** The loop of fread(): the bytes copied so far, the buffer, the file. *)
Fixpoint fread_loop (fuel : nat) (dst : list Z) (total copied : Z) (f : FILE) : M W (Z * list Z * FILE) :=
  match fuel with
  | O => diverge
  | S fuel =>
      if copied <? total then
        o ← refill f;
        match o with
        | None => mret (copied, dst, f)
        | Some f =>
            let available := f_buf_len f - f_buf_pos f in
            let remaining := total - copied in
            let chunk := if available <? remaining then available else remaining in
            src ← access (slice (f_buf f) (f_buf_pos f) chunk);
            dst ← access (blit dst src copied);
            fread_loop fuel dst total (copied + chunk)
              (File (f_fd f) (f_is_write f) (f_bufp f) (f_buf f) (f_buf_size f)
                 (f_buf_pos f + chunk) (f_buf_len f))
        end
      else mret (copied, dst, f)
  end.

Definition fread (dst : list Z) (size nmemb : Z) (f : FILE) : M W (Z * list Z * FILE) :=
  if f_is_write f || (size =? 0) || (nmemb =? 0) then mret (0, dst, f)
  else
    let total := u64 (size * nmemb) in
    '(copied, dst, f) ← fread_loop (S (Z.to_nat total)) dst total 0 f;
    mret (copied / size, dst, f).

(** The flush at the head of fwrite()'s loop; [None] leaves the loop. *)
Definition flush (f : FILE) : M W (option FILE) :=
  if f_buf_pos f >=? f_buf_size f then
    r ← sys_write (f_fd f) (take (Z.to_nat (f_buf_pos f)) (f_buf f));
    if r <? 0 then mret None
    else mret (Some (File (f_fd f) (f_is_write f) (f_bufp f) (f_buf f) (f_buf_size f) 0 (f_buf_len f)))
  else mret (Some f).

Fixpoint fwrite_loop (fuel : nat) (src : list Z) (total written : Z) (f : FILE) : M W (Z * FILE) :=
  match fuel with
  | O => diverge
  | S fuel =>
      if written <? total then
        o ← flush f;
        match o with
        | None => mret (written, f)
        | Some f =>
            let space := f_buf_size f - f_buf_pos f in
            let remaining := total - written in
            let chunk := if space <? remaining then space else remaining in
            data ← access (slice src written chunk);
            b ← access (blit (f_buf f) data (f_buf_pos f));
            fwrite_loop fuel src total (written + chunk)
              (File (f_fd f) (f_is_write f) (f_bufp f) b (f_buf_size f)
                 (f_buf_pos f + chunk) (f_buf_len f))
        end
      else mret (written, f)
  end.

Definition fwrite (src : list Z) (size nmemb : Z) (f : FILE) : M W (Z * FILE) :=
  if negb (f_is_write f) || (size =? 0) || (nmemb =? 0) then mret (0, f)
  else
    let total := u64 (size * nmemb) in
    '(written, f) ← fwrite_loop (S (Z.to_nat total)) src total 0 f;
    mret (written / size, f).

End Stdio.

(** * The numbers are right *)

Definition lower_val (d : Z) : Z := if d <? 58 then d - 48 else d - 87.

Definition lower_digits_val (base : Z) (ds : list Z) : Z := foldl (λ v d, v * base + lower_val d) 0 ds.

Lemma lower_digits_val_snoc base ds d :
  lower_digits_val base (ds ++ [d]) = lower_digits_val base ds * base + lower_val d.
Proof. unfold lower_digits_val. by rewrite foldl_app. Qed.

Lemma lower_digit r : 0 <= r < 16 → ∃ d, lower_digits !! Z.to_nat r = Some d ∧ lower_val d = r ∧ is_byte d.
Proof.
  intros Hr. assert (Forall (λ r, match lower_digits !! Z.to_nat r with
    | Some d => lower_val d = r ∧ is_byte d | None => False end) (seqZ 0 16)) as H.
  { repeat constructor; by_compute. }
  rewrite list.Forall_forall in H. specialize (H r). rewrite elem_of_seqZ in H. specialize (H ltac:(lia)).
  destruct (lower_digits !! Z.to_nat r) as [d|]; [|done]. exists d. tauto.
Qed.

Lemma format_loop_spec cap base : 2 <= base <= 16 → ∀ n tmp, 0 <= n < base ^ Z.of_nat cap →
  ∃ ds, format_loop cap n base tmp = Some (tmp ++ ds) ∧ (length ds <= cap)%nat ∧
    lower_digits_val base (reverse ds) = n ∧ Forall is_byte ds.
Proof.
  intros Hb. induction cap as [|cap IH]; intros n tmp Hn.
  - exists []. simpl in *. replace n with 0 by lia. rewrite app_nil_r. by split_and!.
  - cbn [format_loop]. destruct (Z.gtb_spec n 0) as [Hpos|].
    2:{ exists []. replace n with 0 by lia. rewrite app_nil_r. split_and!; try done. simpl. lia. }
    assert (Hm : 0 <= n mod base < base) by (apply Z.mod_pos_bound; lia).
    destruct (lower_digit (n mod base)) as (d & Hd & Hv & Hby); [lia|]. rewrite Hd. cbn [mbind option_bind].
    destruct (IH (n / base) (tmp ++ [d])) as (ds & -> & Hlen & Hval & Hall).
    { rewrite Nat2Z.inj_succ, Z.pow_succ_r in Hn by lia. split; [apply Z.div_pos; lia|].
      apply Z.div_lt_upper_bound; lia. }
    exists (d :: ds). rewrite <- app_assoc. split_and!; [done|simpl; lia| |by constructor].
    rewrite reverse_cons, lower_digits_val_snoc, Hval, Hv. pose proof (Z.div_mod n base). lia.
Qed.

Lemma format_loop_mono cap cap' n base : ∀ tmp r,
  format_loop cap n base tmp = Some r → (cap <= cap')%nat → format_loop cap' n base tmp = Some r.
Proof.
  revert cap' n. induction cap as [|cap IH]; intros [|cap'] n tmp r Hd Hle; try lia; [done| |].
  - simpl in *. by destruct (n >? 0).
  - cbn [format_loop] in *. destruct (n >? 0); [|done].
    destruct (lower_digits !! _) as [d|]; [|done]. cbn [mbind option_bind] in *. eapply IH; [done|lia].
Qed.

(** The digits of a 64-bit number in base 10 or 16: at most 20 of them. *)
Lemma format_uint_spec n base : 10 <= base <= 16 → 0 <= n < 2 ^ 64 →
  ∃ ds, format_uint n base = Some ds ∧ lower_digits_val base ds = n ∧ (length ds <= 20)%nat ∧ Forall is_byte ds.
Proof.
  intros Hb Hn. unfold format_uint. destruct (Z.eqb_spec n 0) as [->|].
  { exists [48]. split_and!; [done|done|simpl; lia|]. by apply (bool_decide_unpack _). }
  assert (Hp : 10 ^ 20 <= base ^ 20) by (apply Z.pow_le_mono_l; lia).
  destruct (format_loop_spec 20 base ltac:(lia) n []) as (ds & Hd & Hlen & Hval & Hall).
  { change (Z.of_nat 20) with 20. change (10 ^ 20) with 100000000000000000000 in Hp. lia. }
  rewrite (format_loop_mono 20 32 _ _ _ _ Hd) by lia. exists (reverse ds).
  rewrite app_nil_l, length_reverse. split_and!; [done|done|done|by apply Forall_reverse].
Qed.

Lemma format_int_spec n : - 2 ^ 63 <= n < 2 ^ 63 →
  ∃ ds, format_int n 10 = Some (if n <? 0 then 45 :: ds else ds) ∧
    lower_digits_val 10 ds = Z.abs n ∧ (length ds <= 20)%nat ∧ Forall is_byte ds.
Proof.
  intros Hn. destruct (format_uint_spec (Z.abs n) 10) as (ds & Hd & H); [lia|lia|].
  exists ds. split; [|done]. unfold format_int. destruct (Z.ltb_spec n 0).
  - rewrite u64_small, <- Z.abs_neq, Hd by lia. done.
  - rewrite u64_small, <- (Z.abs_eq n) at 1 by lia. done.
Qed.

(** * vprintf prints a prefix of the reference rendering *)

Definition vrender_directive (is_long : bool) (k : Z) (args : list arg) : option (list Z * list arg) :=
  if k =? 100 then
    '(v, args) ← va_int args; ds ← format_int (if is_long then i64 v else i32 v) 10; Some (ds, args)
  else if k =? 117 then
    '(v, args) ← va_int args; ds ← format_uint (if is_long then u64 v else u32 v) 10; Some (ds, args)
  else if k =? 120 then
    '(v, args) ← va_int args; ds ← format_uint (if is_long then u64 v else u32 v) 16; Some (ds, args)
  else if k =? 99 then '(v, args) ← va_int args; Some ([u8 v], args)
  else if k =? 115 then
    '(s, args) ← va_str args; match s with Some s => Some (s, args) | None => None end
  else Some (if k =? 37 then [37] else [37; k], args).

Fixpoint vrender (fmt : list Z) (args : list arg) : option (list Z) :=
  match fmt with
  | [] => Some []
  | c :: fmt1 =>
      if negb (c =? 37) then out ← vrender fmt1 args; Some (c :: out)
      else
        match fmt1 with
        | [] => None
        | k :: fmt2 =>
            if k =? 108 then
              match fmt2 with
              | [] => None
              | k :: fmt3 =>
                  '(ds, args) ← vrender_directive true k args; out ← vrender fmt3 args; Some (ds ++ out)
              end
            else '(ds, args) ← vrender_directive false k args; out ← vrender fmt2 args; Some (ds ++ out)
        end
  end.

(** The state after [out] was printed. *)
Definition printed (st : pstate) (out : list Z) : Prop :=
  length st.1 = 1024%nat ∧ st.2 = Z.of_nat (length out) ∧ take (length out) st.1 = out.

Lemma putb_printed st out c : printed st out → (length out < 1024)%nat → is_byte c →
  ∃ st', putb c st = Done tt st' ∧ printed st' (out ++ [c]).
Proof.
  destruct st as [buf pos]. intros (Hl & Hpos & Ht) Hlt Hc. simpl in *. subst pos. unfold putb.
  rewrite (proj2 (Z.leb_le _ _)), (proj2 (Z.ltb_lt _ _)), u8_small, Nat2Z.id by (done || lia).
  eexists. split; [done|]. split_and!; simpl.
  - by rewrite length_insert.
  - rewrite length_app. simpl. lia.
  - rewrite length_app, Nat.add_1_r. simpl. rewrite (take_S_r _ _ c).
    + by rewrite take_insert_ge, Ht by lia.
    + apply list_lookup_insert_eq. lia.
Qed.

Lemma putbs_printed s : ∀ st out, printed st out → (length out + length s <= 1024)%nat → Forall is_byte s →
  ∃ st', putbs s st = Done tt st' ∧ printed st' (out ++ s).
Proof.
  induction s as [|c s IH]; intros st out Hp Hl Hb; simpl in *.
  - exists st. by rewrite app_nil_r.
  - apply list.Forall_cons in Hb as [Hc Hb]. destruct (putb_printed st out c) as (st1 & H1 & Hp1); [done|lia|done|].
    destruct (IH st1 _ Hp1) as (st2 & H2 & Hp2); [rewrite length_app; simpl; lia|done|].
    exists st2. rewrite (bind_Done _ _ _ _ _ H1), H2. split; [done|]. by rewrite <- app_assoc in Hp2.
Qed.

Lemma put_str_printed s : ∀ st out, printed st out → (length out <= 1023)%nat → Forall is_byte s →
  ∃ st', put_str s st = Done tt st' ∧ printed st' (take 1023 (out ++ s)).
Proof.
  induction s as [|c s IH]; intros st out Hp Hl Hb; simpl.
  - exists st. rewrite app_nil_r, take_ge by lia. done.
  - apply list.Forall_cons in Hb as [Hc Hb]. pose proof Hp as (_ & Hpos & _). rewrite Hpos.
    destruct (Z.ltb_spec (Z.of_nat (length out)) (BUF_SIZE - 1)); unfold BUF_SIZE in *.
    + destruct (putb_printed st out c) as (st1 & H1 & Hp1); [done|lia|done|].
      destruct (IH st1 _ Hp1) as (st2 & H2 & Hp2); [rewrite length_app; simpl; lia|done|].
      exists st2. rewrite (bind_Done _ _ _ _ _ H1), H2. split; [done|]. by rewrite <- app_assoc in Hp2.
    + exists st. split; [done|]. rewrite take_app_le, take_ge by lia. done.
Qed.

(** The strings among the arguments are C strings. *)
Lemma vdirective_printed st out is_long k args ds args' :
  printed st out → (length out < 992)%nat → is_byte k → Forall arg_ok args →
  vrender_directive is_long k args = Some (ds, args') →
  Forall arg_ok args' ∧
  ∃ st', vdirective is_long k args st = Done args' st' ∧ printed st' (take 1023 (out ++ ds)).
Proof.
  intros Hp Hl Hk Ha Hr.
  assert (Hput : ∀ ds, Forall is_byte ds → (length ds <= 21)%nat →
    ∃ st', putbs ds st = Done tt st' ∧ printed st' (take 1023 (out ++ ds))).
  { intros l Hb Hll. destruct (putbs_printed l st out Hp) as (st' & H1 & H2); [lia|done|].
    exists st'. rewrite take_ge by (rewrite length_app; lia). done. }
  assert (Hput1 : ∀ c, is_byte c → ∃ st', putb c st = Done tt st' ∧ printed st' (take 1023 (out ++ [c]))).
  { intros c Hc. destruct (putb_printed st out c Hp) as (st' & H1 & H2); [lia|done|].
    exists st'. rewrite take_ge by (rewrite length_app; simpl; lia). done. }
  unfold vdirective, vrender_directive in *.
  destruct (k =? 100); [|destruct (k =? 117); [|destruct (k =? 120); [|destruct (k =? 99);
    [|destruct (k =? 115)]]]].
  1,2,3,4: destruct args as [|[v|] args]; simpl in Hr; try done;
    apply list.Forall_cons in Ha as [_ Ha].
  - destruct (format_int_spec (if is_long then i64 v else i32 v)) as (l & Hf & _ & Hll & Hb).
    { destruct is_long; word_lia. }
    rewrite Hf in Hr. injection Hr as <- <-. split; [done|]. cbn [va_int]. run. rewrite Hf.
    edestruct Hput as (st' & -> & H2); [| |eauto].
    + destruct (_ <? 0); [constructor; [unfold is_byte; lia|]|]; done.
    + destruct (_ <? 0); simpl; lia.
  - destruct (format_uint_spec (if is_long then u64 v else u32 v) 10) as (l & Hf & _ & Hll & Hb); [lia| |].
    { destruct is_long; word_lia. }
    rewrite Hf in Hr. injection Hr as <- <-. split; [done|]. cbn [va_int]. run. rewrite Hf.
    edestruct Hput as (st' & -> & H2); [done|lia|eauto].
  - destruct (format_uint_spec (if is_long then u64 v else u32 v) 16) as (l & Hf & _ & Hll & Hb); [lia| |].
    { destruct is_long; word_lia. }
    rewrite Hf in Hr. injection Hr as <- <-. split; [done|]. cbn [va_int]. run. rewrite Hf.
    edestruct Hput as (st' & -> & H2); [done|lia|eauto].
  - injection Hr as <- <-. split; [done|]. cbn [va_int]. run.
    destruct (Hput1 (u8 v)) as (st' & -> & H2); [apply u8_range|eauto].
  - destruct args as [|[|[s|]] args]; simpl in Hr; try done. injection Hr as <- <-.
    apply list.Forall_cons in Ha as [Hs Ha]. split; [done|]. cbn [va_str]. run.
    destruct (put_str_printed s st out) as (st' & -> & H2); [done|lia|done|eauto].
  - injection Hr as <- <-. split; [done|]. destruct (k =? 37); run.
    + destruct (Hput1 37) as (st' & -> & H2); [unfold is_byte; lia|eauto].
    + destruct (Hput [37; k]) as (st' & H1 & H2).
      { constructor; [unfold is_byte; lia|by constructor]. }
      { simpl; lia. }
      exists st'. split; [|done]. revert H1. cbn [putbs]. run.
      destruct (putb 37 st) as [? s1| | |]; try discriminate.
      destruct (putb k s1); try discriminate. by intros [= ->].
Qed.

Lemma vprintf_loop_printed : ∀ fmt args st out ds,
  printed st out → (length out <= 1023)%nat → Forall (λ c, 0 < c < 256) fmt → Forall arg_ok args →
  vrender fmt args = Some ds →
  ∃ st' res, vprintf_loop (fmt ++ [0]) args st = Done tt st' ∧ printed st' res ∧
    (length res <= 1023)%nat ∧ res = take (length res) (out ++ ds) ∧
    (length (out ++ ds) < 992 → res = out ++ ds)%nat.
Proof.
  intros fmt. induction fmt as [fmt IH] using (induction_ltof1 _ length). unfold ltof in IH.
  intros args st out ds Hp Hl Hf Ha Hr. destruct fmt as [|c fmt]; simpl in Hr.
  { injection Hr as <-. exists st, out. rewrite app_nil_r, take_ge by lia. by split_and!. }
  apply list.Forall_cons in Hf as [Hc Hf]. cbn [vprintf_loop app].
  rewrite (proj2 (Z.eqb_neq c 0)) by lia. pose proof Hp as (_ & Hpos & _). rewrite Hpos.
  unfold BUF_SIZE. cbn [negb andb]. destruct (Z.ltb_spec (Z.of_nat (length out)) (1024 - 32)).
  2:{ exists st, out. split_and!; [done|done|done|by rewrite take_app_le, take_ge by lia|].
    rewrite length_app. lia. }
  assert (Hdir : ∀ is_long k fmt', is_byte k → (length fmt' < length (c :: fmt))%nat →
    Forall (λ c, 0 < c < 256) fmt' →
    ('(ds, args) ← vrender_directive is_long k args; out ← vrender fmt' args; Some (ds ++ out)) = Some ds →
    ∃ st' res, (args ← vdirective is_long k args; vprintf_loop (fmt' ++ [0]) args) st = Done tt st' ∧
      printed st' res ∧ (length res <= 1023)%nat ∧ res = take (length res) (out ++ ds) ∧
      (length (out ++ ds) < 992 → res = out ++ ds)%nat).
  { intros is_long k fmt' Hk Hlt Hf' Hd.
    apply bind_Some in Hd as ([d args'] & Hd & (o & Ho & [= <-])%bind_Some).
    destruct (vdirective_printed st out is_long k args d args') as (Ha' & st1 & H1 & Hp1); [done|lia|done..|].
    destruct (IH fmt' Hlt args' st1 _ o Hp1) as (st2 & res & H2 & Hp2 & Hl2 & Hpre & Heq);
      [rewrite length_take; lia|done..|].
    exists st2, res. rewrite (bind_Done _ _ _ _ _ H1). split; [done|]. split; [done|]. split; [done|].
    destruct (decide (length (out ++ d) <= 1023)%nat) as [Hd1|Hd1].
    - rewrite (take_ge (out ++ d)) in Hpre, Heq by lia. by rewrite <- app_assoc in Hpre, Heq.
    - split; [|rewrite !length_app in *; lia].
      assert (length (take 1023 (out ++ d)) = 1023%nat) by (rewrite length_take; lia).
      rewrite take_app_le, take_take, Nat.min_l in Hpre by lia.
      rewrite app_assoc, take_app_le by lia. done. }
  destruct (Z.eqb_spec c 37) as [->|]; cbn [negb] in *.
  - destruct fmt as [|k fmt]; [done|]. apply list.Forall_cons in Hf as [Hk Hf]. cbn [app].
    destruct (k =? 108).
    + destruct fmt as [|k' fmt]; [done|]. apply list.Forall_cons in Hf as [Hk' Hf]. cbn [app].
      apply (Hdir true k' fmt); [unfold is_byte; lia|simpl; lia|done..].
    + apply (Hdir false k fmt); [unfold is_byte; lia|simpl; lia|done..].
  - apply bind_Some in Hr as (o & Ho & [= <-]).
    destruct (putb_printed st out c Hp) as (st1 & H1 & Hp1); [lia|unfold is_byte; lia|].
    destruct (IH fmt ltac:(simpl; lia) args st1 _ o Hp1) as (st2 & res & H2 & Hp2 & Hl2 & Hpre & Heq);
      [rewrite length_app; simpl; lia|done..|].
    exists st2, res. rewrite (bind_Done _ _ _ _ _ H1). rewrite <- app_assoc in Hpre, Heq. by split_and!.
Qed.


(** * Buffered output

    What the library assumes of write(): it appends a prefix of the bytes to
    the file, as long as its result says, or nothing when that is -1 - it may
    be short, as the one of shadowFS is when a quota is used up, and it may be
    refused - and touches no other file; and of close() and free(): they do not
    change the files' content. *)

Class OutputLaws (W : Type) `{!Libc W} := {
  file_content : W → Z → list Z;
  sys_write_law fd bs w :
    ∃ r w', sys_write fd bs w = Done r w' ∧ -1 <= r <= Z.of_nat (length bs) ∧
      file_content w' fd = file_content w fd ++ take (Z.to_nat r) bs ∧
      ∀ fd', fd' ≠ fd → file_content w' fd' = file_content w fd';
  sys_close_law fd w : ∃ r w', sys_close fd w = Done r w' ∧ -1 <= r ∧ file_content w' = file_content w;
  sys_free_law p w : ∃ w', sys_free p w = Done tt w' ∧ file_content w' = file_content w;
}.

(** A write that was made: the bytes handed over and the result, the bytes
    that the file took, and whether it took them all. *)
Definition handed : Type := list Z * Z.
Definition accepted (h : handed) : Prop := 0 <= h.2 <= Z.of_nat (length h.1).
Definition took (h : handed) : list Z := take (Z.to_nat h.2) h.1.
Definition in_full (h : handed) : Prop := h.2 = Z.of_nat (length h.1).

Lemma in_full_took hs : Forall in_full hs → mjoin (took <$> hs) = mjoin hs.*1.
Proof.
  induction 1 as [|[bs r] hs H _ IH]; [done|]. rewrite !fmap_cons. change (took (bs, r) ++ mjoin (took <$> hs) = bs ++ mjoin hs.*1).
  rewrite IH. unfold took, in_full in *. cbn in *. subst r. by rewrite Nat2Z.id, firstn_all.
Qed.

(** A FILE between two calls. *)
Record file_ok (f : FILE) : Prop := {
  ok_buf : Z.of_nat (length (f_buf f)) = f_buf_size f;
  ok_size : 0 < f_buf_size f;
  ok_pos : 0 <= f_buf_pos f <= f_buf_size f }.

(** The bytes a FILE open for writing holds back. *)
Definition pending (f : FILE) : list Z := take (Z.to_nat (f_buf_pos f)) (f_buf f).

Lemma slice_take l at_ n :
  0 <= at_ → 0 <= n → at_ + n <= Z.of_nat (length l) →
  slice l at_ n = Some (take (Z.to_nat n) (drop (Z.to_nat at_) l)).
Proof. intros. unfold slice. by rewrite (proj2 (Z.leb_le _ _)) by lia. Qed.

Lemma blit_take dst src at_ :
  0 <= at_ → at_ + Z.of_nat (length src) <= Z.of_nat (length dst) →
  ∃ d, blit dst src at_ = Some d ∧ length d = length dst ∧
    take (Z.to_nat at_ + length src) d = take (Z.to_nat at_) dst ++ src ∧
    drop (Z.to_nat at_ + length src) d = drop (Z.to_nat at_ + length src) dst.
Proof.
  intros H0 H. unfold blit. rewrite (proj2 (Z.leb_le _ _)) by lia. eexists. split; [done|].
  assert (length (take (Z.to_nat at_) dst ++ src) = Z.to_nat at_ + length src)%nat as Hl.
  { rewrite length_app, length_take. lia. }
  split_and!.
  - rewrite !length_app, length_take, length_drop. lia.
  - rewrite app_assoc, take_app_le, take_ge by lia. done.
  - rewrite app_assoc, drop_app, Hl, (drop_ge (take _ _ ++ _)), Nat.sub_diag by lia. done.
Qed.

Section Output.
Context {W : Type} `{!Libc W} `{!OutputLaws W}.

(** The last write, of the bytes [bs], was refused. *)
Definition refused (fd : Z) (bs : list Z) (w' : W) : Prop := ∃ w1 r, sys_write fd bs w1 = Done r w' ∧ r < 0.

(** What is written of a FILE from the world [w] to [w']: the bytes [hs], each
    handed over once, and no other file. *)
Definition wrote (fd : Z) (hs : list handed) (w w' : W) : Prop :=
  Forall accepted hs ∧ file_content w' fd = file_content w fd ++ mjoin (took <$> hs) ∧
  ∀ fd', fd' ≠ fd → file_content w' fd' = file_content w fd'.

Lemma wrote_nil fd w : wrote fd [] w w.
Proof. split; [done|]. by rewrite app_nil_r. Qed.

Lemma wrote_app fd hs hs' w w1 w2 : wrote fd hs w w1 → wrote fd hs' w1 w2 → wrote fd (hs ++ hs') w w2.
Proof.
  intros (A & C & O) (A' & C' & O'). split; [by apply Forall_app|]. split.
  - rewrite C', C, fmap_app, join_app, <- app_assoc. done.
  - intros fd' H. by rewrite O', O.
Qed.

Lemma write_one fd bs w : ∃ r w', sys_write fd bs w = Done r w' ∧ -1 <= r <= Z.of_nat (length bs) ∧
  wrote fd (if r <? 0 then [] else [(bs, r)]) w w'.
Proof.
  destruct (sys_write_law fd bs w) as (r & w' & Hw & Hr & Hc & Ho). exists r, w'. split; [done|]. split; [done|].
  unfold wrote. rewrite Hc. destruct (Z.ltb_spec r 0).
  - rewrite Z2Nat.nonpos by lia. done.
  - split; [constructor; [|done]; unfold accepted; cbn; lia|]. split; [|done]. cbn. by rewrite app_nil_r.
Qed.

Lemma flush_exact f w : file_ok f →
  (∃ f' hs w', flush f w = Done (Some f') w' ∧ file_ok f' ∧ f_buf_pos f' < f_buf_size f' ∧
     f_fd f' = f_fd f ∧ f_is_write f' = f_is_write f ∧
     mjoin hs.*1 ++ pending f' = pending f ∧ wrote (f_fd f) hs w w') ∨
  ∃ w', flush f w = Done None w' ∧ refused (f_fd f) (pending f) w' ∧ wrote (f_fd f) [] w w'.
Proof.
  intros [Hb Hs Hp]. unfold flush. rewrite Z.geb_leb. destruct (Z.leb_spec (f_buf_size f) (f_buf_pos f)).
  - destruct (write_one (f_fd f) (pending f) w) as (r & w' & Hw & Hr & Hwr).
    unfold pending in Hw at 1. rewrite (bind_Done _ _ _ _ _ Hw). destruct (Z.ltb_spec r 0).
    + right. exists w'. split; [done|]. split; [by exists w, r|done].
    + left. eexists _, [(pending f, r)], w'. split; [done|]. split; [split; simpl; done || lia|]. cbn. split_and!; [lia|done..| |done].
      by rewrite !app_nil_r.
  - left. exists f, [], w. split_and!; try done. apply wrote_nil.
Qed.

Lemma fwrite_loop_exact fuel src total : ∀ written f w,
  0 <= written <= total → total <= Z.of_nat (length src) → total - written < Z.of_nat fuel → file_ok f →
  ∃ done f' hs w', fwrite_loop fuel src total written f w = Done (done, f') w' ∧ file_ok f' ∧
    f_fd f' = f_fd f ∧ f_is_write f' = f_is_write f ∧ written <= done <= total ∧
    mjoin hs.*1 ++ pending f' = pending f ++ take (Z.to_nat (done - written)) (drop (Z.to_nat written) src) ∧
    wrote (f_fd f) hs w w' ∧ (done < total → refused (f_fd f) (pending f') w').
Proof.
  induction fuel as [|fuel IH]; intros written f w Hw Ht Hf Hok; [lia|].
  cbn [fwrite_loop]. destruct (Z.ltb_spec written total).
  2:{ exists written, f, [], w. rewrite Z.sub_diag. simpl. rewrite app_nil_r. split_and!; try done; try lia. apply wrote_nil. }
  destruct (flush_exact f w Hok) as [(f1 & hs1 & w1 & H1 & Hok1 & Hlt & Hfd & Hiw & Hp & Hwr)|(w1 & H1 & Hrf & Hwr)];
    rewrite (bind_Done _ _ _ _ _ H1); cbv zeta beta iota.
  2:{ exists written, f, [], w1. rewrite Z.sub_diag. simpl. rewrite app_nil_r. split_and!; try done; lia. }
  set (chunk := if _ <? _ then _ else _). destruct Hok1 as [Hb1 Hs1 Hp1].
  assert (Hch : 0 < chunk ∧ chunk <= f_buf_size f1 - f_buf_pos f1 ∧ chunk <= total - written).
  { unfold chunk. destruct (Z.ltb_spec (f_buf_size f1 - f_buf_pos f1) (total - written)); lia. }
  clearbody chunk. rewrite slice_take by lia. unfold access at 1.
  set (data := take (Z.to_nat chunk) (drop (Z.to_nat written) src)).
  assert (Hdl : length data = Z.to_nat chunk) by (unfold data; rewrite length_take, length_drop; lia).
  destruct (blit_take (f_buf f1) data (f_buf_pos f1)) as (b & Hbl & Hlen & Htk & _); [lia|lia|].
  run. rewrite Hbl. run.
  destruct (IH (written + chunk) (File (f_fd f1) (f_is_write f1) (f_bufp f1) b (f_buf_size f1)
    (f_buf_pos f1 + chunk) (f_buf_len f1)) w1) as (dn & f2 & hs2 & w2 & H2 & Hok2 & Hfd2 & Hiw2 & Hd & Hc2 & Hwr2 & Hrf2);
    [lia|lia|lia| |].
  { split; simpl; lia. }
  cbn [f_fd f_is_write] in *. rewrite Hfd in *. rewrite Hiw in *.
  exists dn, f2, (hs1 ++ hs2), w2. split; [exact H2|]. split_and!; [done..|lia|lia| |by eapply wrote_app|done].
  rewrite fmap_app, join_app, <- app_assoc, Hc2, <- Hp, <- !app_assoc. f_equal.
  unfold pending at 1. cbn [f_buf f_buf_pos].
  replace (Z.to_nat (f_buf_pos f1 + chunk)) with (Z.to_nat (f_buf_pos f1) + length data)%nat by lia.
  rewrite Htk, <- app_assoc. f_equal.
  rewrite <- (take_drop (Z.to_nat chunk) (take (Z.to_nat (dn - written)) _)), take_take.
  rewrite Nat.min_l by lia. fold data. f_equal.
  rewrite skipn_firstn_comm, drop_drop. f_equal; [lia|f_equal; lia].
Qed.

(** fclose() hands over what is pending, in one write. *)
Lemma fclose_exact fp f w : file_ok f → f_is_write f = true →
  ∃ r rc w', fclose fp f w = Done (if (r <? 0) || (rc <? 0) then -1 else 0) w' ∧
    -1 <= r <= Z.of_nat (length (pending f)) ∧ (pending f = [] → r = 0) ∧
    wrote (f_fd f) (if r <? 0 then [] else [(pending f, r)]) w w'.
Proof.
  intros Hok Hiw. unfold fclose. rewrite Hiw. cbn [andb].
  assert (Hflush : ∃ r w1, (if f_buf_pos f >? 0
     then r ← sys_write (f_fd f) (take (Z.to_nat (f_buf_pos f)) (f_buf f)); mret (if r <? 0 then -1 else 0)
     else mret 0) w = Done (if r <? 0 then -1 else 0) w1 ∧ -1 <= r <= Z.of_nat (length (pending f)) ∧ (pending f = [] → r = 0) ∧
     wrote (f_fd f) (if r <? 0 then [] else [(pending f, r)]) w w1).
  { destruct (Z.gtb_spec (f_buf_pos f) 0).
    - destruct (write_one (f_fd f) (pending f) w) as (r & w1 & Hw & Hr & Hwr). exists r, w1. unfold pending in Hw at 1.
      rewrite (bind_Done _ _ _ _ _ Hw). split_and!; [done|lia|lia| |done]. intros E. destruct Hok.
      apply (f_equal length) in E. unfold pending in E. rewrite length_take in E. cbn in E. lia.
    - destruct Hok. assert (pending f = []) as -> by (unfold pending; by replace (f_buf_pos f) with 0 by lia).
      exists 0, w. split_and!; [done|lia..|done|]. split; [constructor; [|done]; unfold accepted; cbn; lia|]. by rewrite app_nil_r. }
  destruct Hflush as (r & w1 & Hfl & Hr & Hr0 & Hwr). rewrite (bind_Done _ _ _ _ _ Hfl).
  destruct (sys_close_law (f_fd f) w1) as (rc & w2 & H2 & Hrc & Hc2). rewrite (bind_Done _ _ _ _ _ H2).
  destruct (sys_free_law (f_bufp f) w2) as (w3 & H3 & Hc3). rewrite (bind_Done _ _ _ _ _ H3).
  destruct (sys_free_law fp w3) as (w4 & H4 & Hc4). rewrite (bind_Done _ _ _ _ _ H4).
  exists r, rc, w4. split_and!; [|lia|lia|done|].
  - unfold mret, M_ret. f_equal. by destruct (rc <? 0), (r <? 0).
  - unfold wrote in *. by rewrite Hc4, Hc3, Hc2.
Qed.


End Output.

(** * Buffered input

    What the library assumes of read(): it returns the next bytes of the
    file, between 1 and n of them, and 0 only at its end. *)

Class InputLaws (W : Type) `{!Libc W} := {
  file_rest : W → Z → list Z;
  sys_read_law fd n w : 0 < n →
    ∃ data w', sys_read fd n w = Done (Z.of_nat (length data), data) w' ∧
      Z.of_nat (length data) <= n ∧ file_rest w fd = data ++ file_rest w' fd ∧
      (data = [] → file_rest w fd = []);
}.

(** A FILE open for reading, and the bytes it has read ahead. *)
Record rfile_ok (f : FILE) : Prop := {
  rok_buf : Z.of_nat (length (f_buf f)) = f_buf_size f;
  rok_size : 0 < f_buf_size f;
  rok_len : f_buf_len f <= f_buf_size f;
  rok_pos : 0 <= f_buf_pos f <= f_buf_len f }.

Definition ahead (f : FILE) : list Z :=
  take (Z.to_nat (f_buf_len f - f_buf_pos f)) (drop (Z.to_nat (f_buf_pos f)) (f_buf f)).

Section Input.
Context {W : Type} `{!Libc W} `{!InputLaws W}.

Lemma refill_ok f w : rfile_ok f →
  ∃ o w', refill f w = Done o w' ∧
    match o with
    | None => ahead f ++ file_rest w (f_fd f) = [] ∧ file_rest w' (f_fd f) = [] ∧ ahead f = []
    | Some f' => rfile_ok f' ∧ f_buf_pos f' < f_buf_len f' ∧ f_fd f' = f_fd f ∧
        f_is_write f' = f_is_write f ∧
        ahead f' ++ file_rest w' (f_fd f) = ahead f ++ file_rest w (f_fd f)
    end.
Proof.
  intros [Hb Hs Hl Hp]. unfold refill. rewrite Z.geb_leb. destruct (Z.leb_spec (f_buf_len f) (f_buf_pos f)).
  2:{ exists (Some f), w. by split_and!. }
  destruct (sys_read_law (f_fd f) (f_buf_size f) w Hs) as (data & w' & Hr & Hn & Hc & He).
  rewrite (bind_Done _ _ _ _ _ Hr). cbv beta iota.
  assert (ahead f = []) as ->.
  { unfold ahead. by replace (f_buf_len f - f_buf_pos f) with 0 by lia. }
  destruct (Z.leb_spec (Z.of_nat (length data)) 0).
  - assert (data = []) as -> by (destruct data; [done|simpl in *; lia]).
    specialize (He eq_refl). exists None, w'. rewrite He in Hc. by split_and!.
  - destruct (blit_take (f_buf f) data 0) as (b & Hbl & Hlen & Htk & _); [lia|lia|].
    rewrite Hbl. run. eexists _, w'. split; [done|]. cbn [f_fd f_is_write f_buf_pos f_buf_len].
    split; [split; cbn [f_buf f_buf_size f_buf_pos f_buf_len]; lia|]. split; [lia|].
    split; [done|]. split; [done|]. unfold ahead. cbn [f_buf f_buf_pos f_buf_len].
    rewrite drop_0, Z.sub_0_r, Nat2Z.id. change (Z.to_nat 0) with 0%nat in Htk. simpl in Htk.
    by rewrite Htk, Hc.
Qed.

Lemma fread_loop_ok fuel total : ∀ copied dst f w,
  0 <= copied <= total → total <= Z.of_nat (length dst) → total - copied < Z.of_nat fuel → rfile_ok f →
  ∃ c dst' f' w', fread_loop fuel dst total copied f w = Done (c, dst', f') w' ∧ rfile_ok f' ∧
    f_fd f' = f_fd f ∧ copied <= c <= total ∧ length dst' = length dst ∧
    take (Z.to_nat copied) dst' = take (Z.to_nat copied) dst ∧
    ahead f ++ file_rest w (f_fd f)
      = take (Z.to_nat (c - copied)) (drop (Z.to_nat copied) dst') ++ ahead f' ++ file_rest w' (f_fd f) ∧
    (c < total → ahead f' ++ file_rest w' (f_fd f) = []).
Proof.
  induction fuel as [|fuel IH]; intros copied dst f w Hw Ht Hf Hok; [lia|].
  cbn [fread_loop]. destruct (Z.ltb_spec copied total).
  2:{ exists copied, dst, f, w. rewrite Z.sub_diag. split_and!; try done; lia. }
  destruct (refill_ok f w Hok) as ([f1|] & w1 & H1 & Ho); rewrite (bind_Done _ _ _ _ _ H1); cbv zeta beta iota.
  2:{ destruct Ho as (Hend & Hend' & Ha). exists copied, dst, f, w1. rewrite Hend, Hend', Ha, Z.sub_diag.
      split_and!; try done; lia. }
  destruct Ho as ([Hb1 Hs1 Hl1 Hp1] & Hlt & Hfd & Hiw & Hst).
  set (chunk := if _ <? _ then _ else _).
  assert (Hch : 0 < chunk ∧ chunk <= f_buf_len f1 - f_buf_pos f1 ∧ chunk <= total - copied).
  { unfold chunk. destruct (Z.ltb_spec (f_buf_len f1 - f_buf_pos f1) (total - copied)); lia. }
  clearbody chunk. rewrite slice_take by lia. unfold access at 1.
  set (src := take (Z.to_nat chunk) (drop (Z.to_nat (f_buf_pos f1)) (f_buf f1))).
  assert (Hsl : length src = Z.to_nat chunk) by (unfold src; rewrite length_take, length_drop; lia).
  destruct (blit_take dst src copied) as (d & Hbl & Hlen & Htk & _); [lia|lia|].
  run. rewrite Hbl. run.
  destruct (IH (copied + chunk) d (File (f_fd f1) (f_is_write f1) (f_bufp f1) (f_buf f1) (f_buf_size f1)
    (f_buf_pos f1 + chunk) (f_buf_len f1)) w1) as (c & d' & f2 & w2 & H2 & Hok2 & Hfd2 & Hc & Hl2 & Htk2 & Hst2 & Hend);
    [lia|lia|lia| |].
  { split; simpl; lia. }
  cbn [f_fd] in *. rewrite Hfd in *. exists c, d', f2, w2. split; [exact H2|].
  replace (Z.to_nat (copied + chunk)) with (Z.to_nat copied + length src)%nat in * by lia.
  split_and!; [done|done|lia|lia|by rewrite Hl2| | |done].
  - apply (f_equal (take (Z.to_nat copied))) in Htk2. rewrite Htk, !take_take, Nat.min_l in Htk2 by lia.
    rewrite Htk2, take_app_le, take_take, Nat.min_id by (rewrite length_take; lia). done.
  - rewrite <- Hst. unfold ahead at 1.
    assert (Hsplit : ahead f1 = src ++ ahead (File (f_fd f) (f_is_write f1) (f_bufp f1) (f_buf f1) (f_buf_size f1)
      (f_buf_pos f1 + chunk) (f_buf_len f1))).
    { unfold ahead, src. cbn [f_buf f_buf_pos f_buf_len].
      rewrite <- (take_drop (Z.to_nat chunk) (take (Z.to_nat (f_buf_len f1 - f_buf_pos f1)) _)), take_take, Nat.min_l by lia.
      f_equal. rewrite skipn_firstn_comm, drop_drop. f_equal; [lia|f_equal; lia]. }
    fold (ahead f1). rewrite Hsplit, <- app_assoc, Hst2, app_assoc. f_equal.
    assert (Hsrc : take (length src) (drop (Z.to_nat copied) d') = src).
    { rewrite take_drop_commute, Htk2, Htk, drop_app, length_take.
      rewrite drop_ge by (rewrite length_take; lia). simpl.
      replace (Z.to_nat copied - _)%nat with 0%nat by lia. done. }
    rewrite <- (take_drop (length src) (take (Z.to_nat (c - copied)) _)), take_take, Nat.min_l by lia.
    rewrite Hsrc. f_equal. rewrite skipn_firstn_comm, drop_drop. f_equal; lia.
Qed.

(** fread() hands out the bytes of the file in order, each once: what it
    copied to the front of the destination followed by what is left ahead in
    the buffer and in the file is exactly the stream before the call, and it
    returns fewer members than asked for only at the end of the file. *)
Lemma fread_in_order f dst size nmemb w :
  rfile_ok f → f_is_write f = false → 0 < size → 0 < nmemb → size * nmemb < 2 ^ 64 →
  size * nmemb <= Z.of_nat (length dst) →
  ∃ n c dst' f' w', fread dst size nmemb f w = Done (n, dst', f') w' ∧ rfile_ok f' ∧
    n = c / size ∧ n <= nmemb ∧ length dst' = length dst ∧
    ahead f ++ file_rest w (f_fd f) = take (Z.to_nat c) dst' ++ ahead f' ++ file_rest w' (f_fd f) ∧
    (n < nmemb → ahead f' ++ file_rest w' (f_fd f) = []).
Proof.
  intros Hok Hiw Hs Hn Hov Hdst. unfold fread. rewrite Hiw. cbn [orb].
  rewrite (proj2 (Z.eqb_neq size 0)), (proj2 (Z.eqb_neq nmemb 0)), u64_small by nia. cbn [orb].
  destruct (fread_loop_ok (S (Z.to_nat (size * nmemb))) (size * nmemb) 0 dst f w)
    as (c & d & f' & w' & Hrun & Hok' & Hfd & Hc & Hl & _ & Hst & Hend); [nia|nia|nia|done|].
  rewrite (bind_Done _ _ _ _ _ Hrun). exists (c / size), c, d, f', w'.
  rewrite Z.sub_0_r in Hst. split_and!; try done.
  - apply Z.div_le_upper_bound; lia.
  - intros Hlt. apply Hend. destruct (decide (c = size * nmemb)) as [->|]; [|lia].
    rewrite (Z.mul_comm size), Z.div_mul in Hlt by lia. lia.
Qed.

End Input.

(** * Witnesses: a world with one input stream and an output per descriptor *)

Definition demo_world : Type := list Z * gmap Z (list Z).

Definition mk_world (i : list Z) : demo_world := (i, ∅).
Definition empty_world : demo_world := mk_world [].

#[export] Instance demo_libc : Libc demo_world := {
  sys_open _ _ := mret 3;
  sys_close _ := mret 0;
  sys_read _ n := λ '(i, o),
    Done (Z.of_nat (length (take (Z.to_nat n) i)), take (Z.to_nat n) i) (drop (Z.to_nat n) i, o);
  sys_write fd bs := λ '(i, o), Done (Z.of_nat (length bs)) (i, <[fd := default [] (o !! fd) ++ bs]> o);
  sys_malloc _ := mret 4096;
  sys_free _ := mret tt;
}.

#[export] Instance demo_input : InputLaws demo_world.
Proof.
  refine {| file_rest := λ w _, w.1 |}. intros fd n [i o] Hn. eexists _, _. split; [reflexivity|].
  simpl. split_and!; [rewrite length_take; lia|by rewrite take_drop|].
  destruct i; [done|]. destruct (Z.to_nat n) eqn:He; [lia|done].
Defined.

#[export] Instance demo_output : OutputLaws demo_world.
Proof.
  refine {| file_content := λ w fd, default [] (w.2 !! fd) |}.
  - intros fd bs [i o]. eexists _, _. split; [reflexivity|]. split; [lia|]. simpl. split.
    + by rewrite lookup_insert_eq, Nat2Z.id, firstn_all.
    + intros fd' Hne. by rewrite lookup_insert_ne.
  - intros fd w. eexists _, _. split; [reflexivity|]. split; [lia|done].
  - intros p w. by eexists _.
Defined.


Lemma fread_in_order_witness :
  ∃ n c dst' f' w', fread (replicate 4 0) 2 2 (File 3 false 4096 (replicate 512 0) 512 0 0)
      (mk_world (cs "hello")) = Done (n, dst', f') w' ∧
    cs "hello" = take (Z.to_nat c) dst' ++ ahead f' ++ file_rest w' 3.
Proof.
  destruct (fread_in_order (File 3 false 4096 (replicate 512 0) 512 0 0) (replicate 4 0) 2 2
    (mk_world (cs "hello"))) as (n & c & d & f' & w' & H1 & _ & _ & _ & _ & H2 & _);
    [split; by_compute|reflexivity|by_compute..|].
  exists n, c, d, f', w'. split; [exact H1|exact H2].
Defined.

