(* ===== verification/Phys.v ===== *)
(** Physical memory: bytes, and the 64-bit little-endian words the page tables
    and the kernel stacks are made of.

    A byte the map does not hold reads as 0; the initial map is arbitrary. *)

From S2P Require Import Prelude.

Abbreviation phys := (gmap Z Z).

Definition rd8 (m : phys) (a : Z) : Z := u8 (default 0 (m !! a)).
Definition wr8 (a b : Z) (m : phys) : phys := <[a := u8 b]> m.

(** The value of bytes, least significant first, and back. *)
Definition combine (bs : list Z) : Z := foldr (λ b acc, b + 256 * acc) 0 bs.

Fixpoint split (n : nat) (v : Z) : list Z :=
  match n with O => [] | S n => v mod 256 :: split n (v / 256) end.

Definition rd_bytes (n : nat) (m : phys) (a : Z) : list Z := (λ i, rd8 m (a + i)) <$> seqZ 0 (Z.of_nat n).

Fixpoint wr_bytes (a : Z) (bs : list Z) (m : phys) : phys :=
  match bs with [] => m | b :: bs => wr_bytes (a + 1) bs (wr8 a b m) end.

Definition rd64 (m : phys) (a : Z) : Z := combine (rd_bytes 8 m a).
Definition wr64 (a v : Z) (m : phys) : phys := wr_bytes a (split 8 v) m.

(** * Reading back *)

Lemma rd8_range m a : 0 <= rd8 m a < 256.
Proof. apply u8_range. Qed.

Lemma rd8_wr8 m a b c : rd8 (wr8 a b m) c = if decide (a = c) then u8 b else rd8 m c.
Proof.
  unfold rd8, wr8. rewrite lookup_insert. case_decide; [|done]. simpl.
  unfold u8. by rewrite Zmod_mod.
Qed.

Lemma rd8_wr_bytes bs : ∀ m a c,
  rd8 (wr_bytes a bs m) c =
    if decide (a <= c < a + Z.of_nat (length bs)) then u8 (bs !!! Z.to_nat (c - a)) else rd8 m c.
Proof.
  induction bs as [|b bs IH]; intros m a c; simpl.
  - by rewrite decide_False by lia.
  - rewrite IH. destruct (decide (a = c)) as [->|Hne].
    + rewrite decide_False, decide_True, Z.sub_diag, rd8_wr8, decide_True by lia. done.
    + destruct (decide (a + 1 <= c < a + 1 + Z.of_nat (length bs))).
      * rewrite decide_True by lia. replace (Z.to_nat (c - a)) with (S (Z.to_nat (c - (a + 1)))) by lia. done.
      * by rewrite decide_False, rd8_wr8, decide_False by lia.
Qed.

Lemma rd8_wr_out m a bs c : c < a ∨ a + Z.of_nat (length bs) <= c → rd8 (wr_bytes a bs m) c = rd8 m c.
Proof. intros. by rewrite rd8_wr_bytes, decide_False by lia. Qed.

Lemma length_split n v : length (split n v) = n.
Proof. revert v. induction n; intros; simpl; [done|by f_equal]. Qed.

Lemma split_byte n : ∀ v, Forall is_byte (split n v).
Proof. induction n; intros; simpl; constructor; [apply u8_range|done]. Qed.

Lemma combine_split n : ∀ v, combine (split n v) = v mod 256 ^ Z.of_nat n.
Proof.
  induction n as [|n IH]; intros v; [by rewrite Z.mod_1_r|].
  cbn [split combine foldr]. fold (combine (split n (v / 256))). rewrite IH.
  rewrite Nat2Z.inj_succ, Z.pow_succ_r, Z.rem_mul_r by lia. lia.
Qed.

Lemma combine_range bs : Forall is_byte bs → 0 <= combine bs < 256 ^ Z.of_nat (length bs).
Proof.
  induction 1 as [|b bs Hb _ IH]; simpl combine; [simpl; lia|]. unfold is_byte in Hb.
  cbn [length]. rewrite Nat2Z.inj_succ, Z.pow_succ_r by lia. fold (combine bs). lia.
Qed.

Lemma rd_bytes_byte n m a : Forall is_byte (rd_bytes n m a).
Proof. apply Forall_fmap, list.Forall_forall. intros i _. apply u8_range. Qed.

Lemma length_rd_bytes n m a : length (rd_bytes n m a) = n.
Proof. unfold rd_bytes. rewrite length_fmap, length_seqZ. lia. Qed.

Lemma rd_bytes_ext n m m' a : (∀ i, 0 <= i < Z.of_nat n → rd8 m (a + i) = rd8 m' (a + i)) →
  rd_bytes n m a = rd_bytes n m' a.
Proof.
  intros H. apply list_fmap_ext. intros k i Hi.
  apply list_elem_of_lookup_2, elem_of_seqZ in Hi. apply H. lia.
Qed.

Lemma rd_bytes_wr m a bs : Forall is_byte bs → rd_bytes (length bs) (wr_bytes a bs m) a = bs.
Proof.
  intros Hb. apply list_eq. intros i. unfold rd_bytes. rewrite list_lookup_fmap.
  destruct (bs !! i) as [b|] eqn:Hi.
  - pose proof (lookup_lt_Some _ _ _ Hi). rewrite lookup_seqZ_lt by lia. simpl. f_equal.
    rewrite rd8_wr_bytes, decide_True by lia. replace (Z.to_nat (a + (0 + Z.of_nat i) - a)) with i by lia.
    rewrite (list_lookup_total_correct _ _ _ Hi). apply u8_small. exact (Forall_lookup_1 _ _ _ _ Hb Hi).
  - apply lookup_ge_None in Hi. by rewrite lookup_seqZ_ge by lia.
Qed.

Lemma rd64_range m a : 0 <= rd64 m a < 2 ^ 64.
Proof.
  pose proof (combine_range (rd_bytes 8 m a) (rd_bytes_byte _ _ _)) as H.
  rewrite length_rd_bytes in H. exact H.
Qed.

Lemma rd64_wr64_eq m a v : rd64 (wr64 a v m) a = u64 v.
Proof.
  unfold rd64, wr64. pose proof (rd_bytes_wr m a (split 8 v) (split_byte _ _)) as H.
  rewrite length_split in H. by rewrite H, combine_split.
Qed.

Lemma rd64_ext m m' a : (∀ i, 0 <= i < 8 → rd8 m (a + i) = rd8 m' (a + i)) → rd64 m a = rd64 m' a.
Proof. intros. unfold rd64. f_equal. by apply rd_bytes_ext. Qed.

Lemma rd64_wr64_ne m a b v : a + 8 <= b ∨ b + 8 <= a → rd64 (wr64 a v m) b = rd64 m b.
Proof.
  intros H. apply rd64_ext. intros i Hi. apply rd8_wr_out. rewrite length_split. lia.
Qed.
