(* ===== verification/Paging.v ===== *)
(** The x86-64 page tables: kernel/architecture/x86_64/paging.c.

    Tables live in physical memory, which the kernel reaches through the
    direct map at PHYSICAL_MAP_BASE; a pointer of the code is such a virtual
    address, and every entry is the 64-bit word in memory with the bit fields
    of page_entry_t. The state has the memory, the page allocator, kernel_pml4
    and CR3. TLB flushes and the log are not modelled. *)

From S2P Require Import Prelude Pmm Phys.

Definition PAGE_PRESENT : Z := 1.
Definition PAGE_WRITABLE : Z := 2.
Definition PAGE_USER : Z := 4.
Definition PHYSICAL_MAP_BASE : Z := 0xFFFF800000000000.

Definition physical_to_virtual (physical : Z) : Z := u64 (physical + PHYSICAL_MAP_BASE).
Definition virtual_to_physical (virtual : Z) : Z := u64 (virtual - PHYSICAL_MAP_BASE).

Record vm := Vm { mem : phys; frames : pmm; kernel_pml4 : Z; cr3 : Z }.

Definition set_mem (f : phys → phys) : M vm unit :=
  modify (λ s, Vm (f (mem s)) (frames s) (kernel_pml4 s) (cr3 s)).

Definition in_pmm {A} (m : M pmm A) : M vm A :=
  zoom frames (λ p s, Vm (mem s) p (kernel_pml4 s) (cr3 s)) m.

(** A 64-bit load and store through a kernel pointer. *)
Definition load (p : Z) : M vm Z := gets (λ s, rd64 (mem s) (virtual_to_physical p)).
Definition store (p v : Z) : M vm unit := set_mem (wr64 (virtual_to_physical p) v).

(** * page_entry_t *)

Definition present (e : Z) : bool := Z.testbit e 0.
Definition huge_page (e : Z) : bool := Z.testbit e 7.
Definition frame (e : Z) : Z := Z.land (Z.shiftr e 12) (Z.ones 40).

Definition set_bit (k : Z) (b : bool) (e : Z) : Z :=
  Z.lor (Z.ldiff e (Z.shiftl 1 k)) (if b then Z.shiftl 1 k else 0).

Definition set_frame (f e : Z) : Z :=
  Z.lor (Z.ldiff e (Z.shiftl (Z.ones 40) 12)) (Z.shiftl (Z.land f (Z.ones 40)) 12).

(** An entry cleared and then given its frame, present, writable, user. *)
Definition make_entry (f : Z) (p w u : bool) : Z :=
  set_bit 2 u (set_bit 1 w (set_bit 0 p (set_frame f 0))).

(** The nine bits of an address that index a table of each level. *)
Definition PML4_INDEX (a : Z) : Z := Z.land (Z.shiftr a 39) 0x1FF.
Definition PDPT_INDEX (a : Z) : Z := Z.land (Z.shiftr a 30) 0x1FF.
Definition PD_INDEX (a : Z) : Z := Z.land (Z.shiftr a 21) 0x1FF.
Definition PT_INDEX (a : Z) : Z := Z.land (Z.shiftr a 12) 0x1FF.
Definition PG_OFFSET (a : Z) : Z := Z.land a 0xFFF.

(** &table->entries[i] *)
Definition entry_at (table i : Z) : Z := table + 8 * i.

(** * Tables *)

Definition alloc_table : M vm Z :=
  physical ← in_pmm pmm_alloc;
  if physical =? 0 then kpanic "paging: out of memory for page table!"
  else
    let table := physical_to_virtual physical in
    for_up 512 0 (λ i, store (entry_at table i) 0) ;;
    mret table.

(** One level of the walk: the table the entry at [e] points to, allocated
    when it is missing and [create] is set, or NULL. *)
Definition next_table (create : bool) (e : Z) : M vm Z :=
  w ← load e;
  if negb (present w) then
    if negb create then mret 0
    else
      table ← alloc_table;
      store e (make_entry (Z.shiftr (virtual_to_physical table) 12) true true true) ;;
      w ← load e;
      mret (physical_to_virtual (Z.shiftl (frame w) 12))
  else mret (physical_to_virtual (Z.shiftl (frame w) 12)).

(** The address of the page table entry of [vaddr], or NULL. *)
Definition get_pt_entry (pml4 vaddr : Z) (create : bool) : M vm Z :=
  pdpt ← next_table create (entry_at pml4 (PML4_INDEX vaddr));
  if pdpt =? 0 then mret 0
  else
    pd ← next_table create (entry_at pdpt (PDPT_INDEX vaddr));
    if pd =? 0 then mret 0
    else
      pt ← next_table create (entry_at pd (PD_INDEX vaddr));
      if pt =? 0 then mret 0
      else mret (entry_at pt (PT_INDEX vaddr)).

Definition paging_init : M vm unit :=
  modify (λ s, Vm (mem s) (frames s) (physical_to_virtual (cr3 s)) (cr3 s)).

(** addr & ~0xFFF *)
Definition page_align (a : Z) : Z := Z.ldiff a 0xFFF.

Definition map_page_in (pml4 vaddr paddr flags : Z) : M vm unit :=
  if pml4 =? 0 then kpanic "map_page_in: null PML4!"
  else
    let vaddr := page_align vaddr in
    let paddr := page_align paddr in
    entry ← get_pt_entry pml4 vaddr true;
    if entry =? 0 then kpanic "map_page_in: failed to get page table entry!"
    else
      store entry (make_entry (Z.shiftr paddr 12) (flag flags PAGE_PRESENT)
                     (flag flags PAGE_WRITABLE) (flag flags PAGE_USER)).

Definition map_page (vaddr paddr flags : Z) : M vm unit :=
  let vaddr := page_align vaddr in
  let paddr := page_align paddr in
  pml4 ← gets kernel_pml4;
  entry ← get_pt_entry pml4 vaddr true;
  if entry =? 0 then kpanic "map_page: failed to get page table entry!"
  else
    store entry (make_entry (Z.shiftr paddr 12) (flag flags PAGE_PRESENT)
                   (flag flags PAGE_WRITABLE) (flag flags PAGE_USER)).

Definition unmap_page (vaddr : Z) : M vm unit :=
  let vaddr := Z.ldiff vaddr 0xFF in
  pml4 ← gets kernel_pml4;
  entry ← get_pt_entry pml4 vaddr false;
  if entry =? 0 then mret tt else store entry 0.

Definition get_physical_in (pml4 vaddr : Z) : M vm Z :=
  entry ← get_pt_entry pml4 vaddr false;
  if entry =? 0 then mret 0
  else
    w ← load entry;
    if negb (present w) then mret 0
    else mret (Z.lor (Z.shiftl (frame w) 12) (PG_OFFSET vaddr)).

Definition get_physical (vaddr : Z) : M vm Z :=
  pml4 ← gets kernel_pml4;
  get_physical_in pml4 vaddr.

(** for(i = 256; i < 512; i++) dst->entries[i] = src->entries[i]; *)
Definition copy_kernel_half (dst src : Z) : M vm unit :=
  for_up 256 256 (λ i, w ← load (entry_at src i); store (entry_at dst i) w).

Definition paging_clone_directory : M vm Z :=
  new_pml4 ← alloc_table;
  kernel ← gets kernel_pml4;
  copy_kernel_half new_pml4 kernel ;;
  mret new_pml4.

Definition paging_switch_directory (pml4 : Z) : M vm unit :=
  if pml4 =? 0 then mret tt
  else modify (λ s, Vm (mem s) (frames s) (kernel_pml4 s) (virtual_to_physical pml4)).

(** * Deep copy (fork) *)

(** for(b = 0; b < 4096; b++) dst[b] = src[b]; *)
Definition copy_page (dst src : Z) : M vm unit :=
  for_up 4096 0 (λ b,
    s ← get;
    set_mem (wr8 (virtual_to_physical (dst + b)) (rd8 (mem s) (virtual_to_physical (src + b))))).

(** The loop over one table: [body i e w] for every present entry [w]. *)
Definition for_present (n : nat) (table : Z) (body : Z → Z → M vm unit) : M vm unit :=
  for_up n 0 (λ i,
    w ← load (entry_at table i);
    if negb (present w) then mret tt else body i w).

Definition table_of (w : Z) : Z := physical_to_virtual (Z.shiftl (frame w) 12).
Definition table_to_physical (table : Z) : Z := virtual_to_physical table.

(** A new table hung into [dst] at [i] with the flags of [w]. *)
Definition hang_table (dst i w : Z) : M vm Z :=
  table ← alloc_table;
  store (entry_at dst i) w ;;
  store (entry_at dst i) (set_frame (Z.shiftr (table_to_physical table) 12) w) ;;
  mret table.

Definition copy_pt (dst_pt src_pt : Z) : M vm unit :=
  for_present 512 src_pt (λ i w,
    new_physical ← in_pmm pmm_alloc;
    if new_physical =? 0 then kpanic "paging_deep_copy: out of memory!"
    else
      copy_page (physical_to_virtual new_physical) (table_of w) ;;
      store (entry_at dst_pt i) w ;;
      store (entry_at dst_pt i) (set_frame (Z.shiftr new_physical 12) w)).

Definition copy_pd (dst_pd src_pd : Z) : M vm unit :=
  for_present 512 src_pd (λ i w,
    if huge_page w then store (entry_at dst_pd i) w
    else dst_pt ← hang_table dst_pd i w; copy_pt dst_pt (table_of w)).

Definition copy_pdpt (dst_pdpt src_pdpt : Z) : M vm unit :=
  for_present 512 src_pdpt (λ i w,
    dst_pd ← hang_table dst_pdpt i w; copy_pd dst_pd (table_of w)).

Definition paging_deep_copy_directory (src : Z) : M vm Z :=
  if src =? 0 then kpanic "paging_deep_copy: null source!"
  else
    dst_pml4 ← alloc_table;
    copy_kernel_half dst_pml4 src ;;
    for_present 256 src (λ i w,
      dst_pdpt ← hang_table dst_pml4 i w; copy_pdpt dst_pdpt (table_of w)) ;;
    mret dst_pml4.

(** * Freeing an address space *)

Definition free_pt (pt : Z) : M vm unit :=
  for_present 512 pt (λ _ w, in_pmm (pmm_free (Z.shiftl (frame w) 12))) ;;
  in_pmm (pmm_free (table_to_physical pt)).

Definition free_pd (pd : Z) : M vm unit :=
  for_present 512 pd (λ _ w, if huge_page w then mret tt else free_pt (table_of w)) ;;
  in_pmm (pmm_free (table_to_physical pd)).

Definition free_pdpt (pdpt : Z) : M vm unit :=
  for_present 512 pdpt (λ _ w, free_pd (table_of w)) ;;
  in_pmm (pmm_free (table_to_physical pdpt)).

Definition paging_free_directory (dir : Z) : M vm unit :=
  if dir =? 0 then mret tt
  else
    for_present 256 dir (λ _ w, free_pdpt (table_of w)) ;;
    in_pmm (pmm_free (table_to_physical dir)).

(** * The bit fields *)

Lemma set_bit_spec k b e j : 0 <= k → 0 <= j → Z.testbit (set_bit k b e) j = if k =? j then b else Z.testbit e j.
Proof.
  intros Hk Hj. unfold set_bit. rewrite Z.lor_spec, Z.ldiff_spec, Z.shiftl_1_l, Z.pow2_bits_eqb by lia.
  assert (Z.testbit (if b then 2 ^ k else 0) j = b && (k =? j)) as ->.
  { destruct b; [by apply Z.pow2_bits_eqb|apply Z.bits_0]. }
  destruct (k =? j), b, (Z.testbit e j); done.
Qed.

Lemma set_frame_spec f e j : 0 <= j →
  Z.testbit (set_frame f e) j = if bool_decide (12 <= j < 52) then Z.testbit f (j - 12) else Z.testbit e j.
Proof.
  intros Hj. unfold set_frame. rewrite Z.lor_spec, Z.ldiff_spec, !Z.shiftl_spec by lia. case_bool_decide.
  - rewrite Z.land_spec, Z.ones_spec_low by lia. simpl. by rewrite andb_false_r, andb_true_r.
  - destruct (decide (j < 12)).
    + rewrite !(Z.testbit_neg_r _ (j - 12)) by lia. simpl. by rewrite andb_true_r, orb_false_r.
    + rewrite Z.land_spec, Z.ones_spec_high by lia. simpl. by rewrite andb_true_r, andb_false_r, orb_false_r.
Qed.

Lemma frame_spec e j : 0 <= j → Z.testbit (frame e) j = (j <? 40) && Z.testbit e (j + 12).
Proof.
  intros Hj. unfold frame. rewrite Z.land_spec, Z.shiftr_spec by lia. rewrite andb_comm. f_equal.
  destruct (Z.ltb_spec j 40); [apply Z.ones_spec_low|apply Z.ones_spec_high]; lia.
Qed.

Lemma frame_make_entry f p w u : 0 <= f < 2 ^ 40 → frame (make_entry f p w u) = f.
Proof.
  intros Hf. apply Z.bits_inj'. intros j Hj. rewrite frame_spec by done. unfold make_entry.
  rewrite !set_bit_spec, set_frame_spec by lia.
  rewrite !(proj2 (Z.eqb_neq _ (j + 12))) by lia. destruct (Z.ltb_spec j 40); simpl.
  - rewrite bool_decide_eq_true_2 by lia. f_equal. lia.
  - symmetry. destruct (decide (f = 0)) as [->|]; [apply Z.bits_0|].
    apply Z.bits_above_log2; [lia|]. apply Z.log2_lt_pow2; [lia|].
    apply Z.lt_le_trans with (2 ^ 40); [lia|]. apply Z.pow_le_mono_r; lia.
Qed.

Lemma present_make_entry f p w u : present (make_entry f p w u) = p.
Proof. unfold present, make_entry. by rewrite !set_bit_spec by lia. Qed.

Lemma present_0 : present 0 = false.
Proof. done. Qed.

Lemma frame_set_frame f e : 0 <= f < 2 ^ 40 → frame (set_frame f e) = f.
Proof.
  intros Hf. apply Z.bits_inj'. intros j Hj. rewrite frame_spec, set_frame_spec by lia.
  destruct (Z.ltb_spec j 40); simpl.
  - rewrite bool_decide_eq_true_2 by lia. f_equal. lia.
  - symmetry. destruct (decide (f = 0)) as [->|]; [apply Z.bits_0|].
    apply Z.bits_above_log2; [lia|]. apply Z.log2_lt_pow2; [lia|].
    apply Z.lt_le_trans with (2 ^ 40); [lia|]. apply Z.pow_le_mono_r; lia.
Qed.

Lemma u64_testbit z k : 0 <= k < 64 → Z.testbit (u64 z) k = Z.testbit z k.
Proof. intros. unfold u64. change 18446744073709551616 with (2 ^ 64). apply Z.mod_pow2_bits_low. lia. Qed.

Lemma present_u64 e : present (u64 e) = present e.
Proof. apply u64_testbit. lia. Qed.

Lemma frame_u64 e : frame (u64 e) = frame e.
Proof.
  apply Z.bits_inj'. intros j Hj. rewrite !frame_spec by done. destruct (Z.ltb_spec j 40); simpl; [|done].
  apply u64_testbit. lia.
Qed.

Lemma frame_range e : 0 <= frame e < 2 ^ 40.
Proof. unfold frame. rewrite Z.land_ones by lia. apply Z.mod_pos_bound. lia. Qed.

Lemma index_range a n : 0 <= Z.land (Z.shiftr a n) 0x1FF < 512.
Proof. change 0x1FF with (Z.ones 9). rewrite Z.land_ones by lia. apply Z.mod_pos_bound. lia. Qed.

(** * Loads and stores through the direct map *)

(** A page that physical memory and the direct map can hold. *)
Definition page_ok (a : Z) : Prop := 0 < a < 2 ^ 47 ∧ a mod 4096 = 0.

Lemma entry_physical a i : page_ok a → 0 <= i < 512 →
  virtual_to_physical (entry_at (physical_to_virtual a) i) = a + 8 * i.
Proof.
  intros [Ha _] Hi. unfold virtual_to_physical, entry_at, physical_to_virtual, PHYSICAL_MAP_BASE.
  rewrite (u64_small (a + _)) by lia. rewrite u64_small by lia. lia.
Qed.

Lemma p2v_nonzero a : page_ok a → physical_to_virtual a ≠ 0.
Proof. intros [Ha _]. unfold physical_to_virtual, PHYSICAL_MAP_BASE. rewrite u64_small by lia. lia. Qed.

Lemma v2p_p2v a : page_ok a → virtual_to_physical (physical_to_virtual a) = a.
Proof.
  intros [Ha _]. unfold virtual_to_physical, physical_to_virtual, PHYSICAL_MAP_BASE.
  rewrite (u64_small (a + _)) by lia. rewrite u64_small by lia. lia.
Qed.

Lemma load_entry a i s : page_ok a → 0 <= i < 512 →
  load (entry_at (physical_to_virtual a) i) s = Done (rd64 (mem s) (a + 8 * i)) s.
Proof. intros. unfold load, gets. by rewrite entry_physical. Qed.

Lemma store_entry a i v s : page_ok a → 0 <= i < 512 →
  store (entry_at (physical_to_virtual a) i) v s
  = Done tt (Vm (wr64 (a + 8 * i) v (mem s)) (frames s) (kernel_pml4 s) (cr3 s)).
Proof. intros. unfold store, set_mem, modify. by rewrite entry_physical. Qed.

(** Two pages do not overlap. *)
Lemma page_disjoint a b : page_ok a → page_ok b → a ≠ b → a + 4096 <= b ∨ b + 4096 <= a.
Proof. intros [_ Ha] [_ Hb] Hne. Z.div_mod_to_equations. lia. Qed.

(** Only the memory of page [a] differs. *)
Definition same_but (a : Z) (m m' : phys) : Prop := ∀ c, ¬ (a <= c < a + 4096) → rd8 m' c = rd8 m c.

Lemma same_but_rd64 a m m' b i : same_but a m m' → page_ok a → page_ok b → a ≠ b → 0 <= i < 512 →
  rd64 m' (b + 8 * i) = rd64 m (b + 8 * i).
Proof.
  intros Hs Ha Hb Hne Hi. apply rd64_ext. intros j Hj. apply Hs.
  destruct (page_disjoint a b Ha Hb Hne); lia.
Qed.

Lemma wr64_same_but a i v m : 0 <= i < 512 → same_but a m (wr64 (a + 8 * i) v m).
Proof. intros Hi c Hc. apply rd8_wr_out. rewrite length_split. lia. Qed.

(** The allocator the paging code needs: no page beyond the direct map. *)
Definition frames_ok (s : vm) : Prop := 0 <= total_pages (frames s) <= 2 ^ 35.

Lemma alloc_table_spec s : frames_ok s →
  (∃ msg, alloc_table s = Panic msg) ∨
  ∃ k s', alloc_table s = Done (physical_to_virtual (k * 4096)) s' ∧
    page_ok (k * 4096) ∧ k < total_pages (frames s) ∧
    used (frames s) k = false ∧ frames s' = add_used 1 (bitmap_set k (frames s)) ∧
    kernel_pml4 s' = kernel_pml4 s ∧ cr3 s' = cr3 s ∧
    same_but (k * 4096) (mem s) (mem s') ∧
    ∀ i, 0 <= i < 512 → rd64 (mem s') (k * 4096 + 8 * i) = 0.
Proof.
  intros Hf. unfold alloc_table. unfold in_pmm.
  destruct (pmm_alloc_total (frames s)) as [(a & p & Ha)|[Ha _]].
  2:{ left. exists "pmm_alloc: out of physical memory!". unfold zoom. run. by rewrite Ha. }
  rewrite (bind_Done _ _ _ _ _ (zoom_Done _ _ _ _ _ _ Ha)).
  unfold frames_ok in Hf. assert (Hok : pmm_ok (frames s)) by (unfold pmm_ok; lia).
  destruct (pmm_alloc_Done _ _ _ Hok Ha) as (k & -> & Hk & Hu & _ & ->).
  unfold PAGE_SIZE. destruct (Z.eqb_spec (k * 4096) 0); [left; eauto|right].
  assert (Hpg : page_ok (k * 4096)) by (split; [lia|apply Z.mod_mul; lia]).
  set (s1 := Vm _ _ _ _).
  destruct (for_up_rule (λ i t, frames t = frames s1 ∧ kernel_pml4 t = kernel_pml4 s ∧ cr3 t = cr3 s ∧
    same_but (k * 4096) (mem s) (mem t) ∧ ∀ j, 0 <= j < i → rd64 (mem t) (k * 4096 + 8 * j) = 0)
    512 0 (λ i, store (entry_at (physical_to_virtual (k * 4096)) i) 0) s1)
    as (s' & Hrun & Hfr & Hkp & Hcr & Hsame & Hz).
  - split_and!; try done. intros j Hj. lia.
  - intros j t Hj (Hfr & Hkp & Hcr & Hsame & Hz). rewrite store_entry by (done || lia).
    eexists. split; [done|]. simpl. split_and!; [done|done|done| |].
    + intros c Hc. rewrite wr64_same_but by (done || lia). by apply Hsame.
    + intros i Hi. destruct (decide (i = j)) as [->|].
      * by rewrite rd64_wr64_eq.
      * rewrite rd64_wr64_ne by lia. apply Hz. lia.
  - exists k, s'. cbv zeta. rewrite (bind_Done _ _ _ _ _ Hrun).
    split_and!; try done; lia.
Qed.

(** * Address spaces

    The tables of an address space, by path: the indices that lead from the
    PML4 (the empty path) to the table. Only the user half is described. *)

Definition user_path (q : list Z) : Prop :=
  Forall (λ i, 0 <= i < 512) q ∧ match q with i :: _ => i < 256 | [] => True end.

Record space_wf (s : vm) (root : Z) (T : gmap (list Z) Z) : Prop := {
  wf_root : T !! [] = Some root;
  wf_frames : frames_ok s;
  wf_inj : ∀ q r a, T !! q = Some a → T !! r = Some a → q = r;
  wf_table : ∀ q a, T !! q = Some a →
    page_ok a ∧ used (frames s) (a / 4096) = true ∧ (length q <= 3)%nat;
  wf_parent : ∀ q i b, T !! (q ++ [i]) = Some b → is_Some (T !! q);
  wf_entry : ∀ q a i, T !! q = Some a → (length q < 3)%nat → user_path (q ++ [i]) →
    let w := rd64 (mem s) (a + 8 * i) in
    T !! (q ++ [i]) = if present w then Some (Z.shiftl (frame w) 12) else None }.

(** The page table entry at the end of a full path; 0 when its table is missing. *)
Definition leaf (s : vm) (T : gmap (list Z) Z) (q : list Z) (i : Z) : Z :=
  match T !! q with Some a => rd64 (mem s) (a + 8 * i) | None => 0 end.

(** No page directory entry of the space maps a 2 MB page. *)
Definition no_huge (s : vm) (T : gmap (list Z) Z) : Prop := ∀ q t i, T !! q = Some t → length q = 2%nat → 0 <= i < 512 →
  present (rd64 (mem s) (t + 8 * i)) = true → huge_page (rd64 (mem s) (t + 8 * i)) = false.

Lemma used_fresh s root T k q a :
  space_wf s root T → used (frames s) k = false → T !! q = Some a → a ≠ k * 4096.
Proof.
  intros Hwf Hk Hq ->. destruct (wf_table _ _ _ Hwf _ _ Hq) as (_ & Hu & _).
  rewrite Z.div_mul, Hk in Hu by lia. done.
Qed.

Lemma user_path_snoc q i : user_path (q ++ [i]) → 0 <= i < 512.
Proof. intros [H _]. apply Forall_app in H as [_ H]. by apply list.Forall_cons in H as [H _]. Qed.

Lemma snoc_inj (q r : list Z) i j : q ++ [i] = r ++ [j] → q = r ∧ i = j.
Proof. intros H. apply app_inj_tail in H. done. Qed.

Lemma frame_page k : 0 <= k < 2 ^ 40 → Z.shiftl k 12 = k * 4096.
Proof. intros. by rewrite Z.shiftl_mul_pow2 by lia. Qed.

(** The walk goes down an existing table. *)
Lemma next_table_present s root T q a i create b :
  space_wf s root T → T !! q = Some a → (length q < 3)%nat → user_path (q ++ [i]) →
  T !! (q ++ [i]) = Some b →
  next_table create (entry_at (physical_to_virtual a) i) s = Done (physical_to_virtual b) s.
Proof.
  intros Hwf Hq Hlen Hu Hb. destruct (wf_table _ _ _ Hwf _ _ Hq) as (Hpg & _ & _).
  pose proof (user_path_snoc _ _ Hu) as Hi. pose proof (wf_entry _ _ _ Hwf _ _ _ Hq Hlen Hu) as He.
  unfold next_table. rewrite (bind_Done _ _ _ _ _ (load_entry a i s Hpg Hi)).
  cbv zeta in He. rewrite Hb in He. destruct (present _); simplify_eq. done.
Qed.

Lemma next_table_absent s root T q a i :
  space_wf s root T → T !! q = Some a → (length q < 3)%nat → user_path (q ++ [i]) →
  T !! (q ++ [i]) = None →
  next_table false (entry_at (physical_to_virtual a) i) s = Done 0 s.
Proof.
  intros Hwf Hq Hlen Hu Hb. destruct (wf_table _ _ _ Hwf _ _ Hq) as (Hpg & _ & _).
  pose proof (user_path_snoc _ _ Hu) as Hi. pose proof (wf_entry _ _ _ Hwf _ _ _ Hq Hlen Hu) as He.
  unfold next_table. rewrite (bind_Done _ _ _ _ _ (load_entry a i s Hpg Hi)).
  cbv zeta in He. rewrite Hb in He. destruct (present _); simplify_eq. done.
Qed.

(** What the state looks like after an empty table [b] was hung into the
    entry [i] of the table [a] at path [q]. *)
Record hung (s s' : vm) (T : gmap (list Z) Z) (q : list Z) (a i b : Z) : Prop := {
  hung_page : page_ok b;
  hung_fresh : used (frames s) (b / 4096) = false;
  hung_frames : total_pages (frames s') = total_pages (frames s);
  hung_used : ∀ k, used (frames s') k = bool_decide (k = b / 4096) || used (frames s) k;
  hung_entry : let w := rd64 (mem s') (a + 8 * i) in present w = true ∧ Z.shiftl (frame w) 12 = b;
  hung_frame : ∀ c j, page_ok c → c ≠ a → used (frames s) (c / 4096) = true → 0 <= j < 512 →
    rd64 (mem s') (c + 8 * j) = rd64 (mem s) (c + 8 * j);
  hung_empty : ∀ j, 0 <= j < 512 → rd64 (mem s') (b + 8 * j) = 0;
  hung_other : ∀ r c j, T !! r = Some c → 0 <= j < 512 → (r, j) ≠ (q, i) →
    rd64 (mem s') (c + 8 * j) = rd64 (mem s) (c + 8 * j) }.

Lemma fresh_page s root T b r c :
  space_wf s root T → page_ok b → used (frames s) (b / 4096) = false → T !! r = Some c → c ≠ b.
Proof.
  intros Hwf Hb Hf Hr ->. destruct (wf_table _ _ _ Hwf _ _ Hr) as (_ & Hu & _). congruence.
Qed.

(** A free page made an empty table, and an entry that points to it. *)
Lemma hung_intro s s1 s2 root T q a i k e :
  space_wf s root T → T !! q = Some a → 0 <= i < 512 →
  page_ok (k * 4096) → used (frames s) k = false → frames s1 = add_used 1 (bitmap_set k (frames s)) →
  same_but (k * 4096) (mem s) (mem s1) → (∀ j, 0 <= j < 512 → rd64 (mem s1) (k * 4096 + 8 * j) = 0) →
  frames s2 = frames s1 → rd64 (mem s2) (a + 8 * i) = e → present e = true → frame e = k →
  (∀ c j, page_ok c → 0 <= j < 512 → (c, j) ≠ (a, i) → rd64 (mem s2) (c + 8 * j) = rd64 (mem s1) (c + 8 * j)) →
  hung s s2 T q a i (k * 4096).
Proof.
  intros Hwf Hq Hi Hpk Hku Hfr Hsame Hz Hf2 He Hp Hk Hoth.
  destruct (wf_table _ _ _ Hwf _ _ Hq) as (Hpg & Hused & _).
  assert (Hdiv : k * 4096 / 4096 = k) by (apply Z.div_mul; lia).
  assert (Hfresh : used (frames s) (k * 4096 / 4096) = false) by (by rewrite Hdiv).
  pose proof (λ r c, fresh_page s root T (k * 4096) r c Hwf Hpk Hfresh) as Hne.
  assert (Hframe : ∀ c j, page_ok c → used (frames s) (c / 4096) = true → 0 <= j < 512 → (c, j) ≠ (a, i) →
    rd64 (mem s2) (c + 8 * j) = rd64 (mem s) (c + 8 * j)).
  { intros c j Hpc Huc Hj Hcj. rewrite Hoth by done. eapply same_but_rd64; [exact Hsame|done|done| |done].
    intros <-. congruence. }
  split; [done|done|by rewrite Hf2, Hfr| | | | |].
  - intros k'. by rewrite Hf2, Hfr, used_add_used, used_set, Hdiv.
  - cbv zeta. rewrite He, Hk. split; [done|]. apply Z.shiftl_mul_pow2. lia.
  - intros c j Hpc Hca Huc Hj. apply Hframe; [done..|]. congruence.
  - intros j Hj. rewrite Hoth; [by apply Hz|done|done|]. intros [= Heq _]. by eapply Hne.
  - intros r c j Hr Hj Hrj. destruct (wf_table _ _ _ Hwf _ _ Hr) as (Hpc & Huc & _).
    apply Hframe; [done..|]. intros [= -> ->]. apply Hrj. f_equal. by eapply (wf_inj _ _ _ Hwf).
Qed.

(** Two writes of words of pages do not meet unless they are the same word. *)
Lemma rd64_entry_ne a i v m c j : page_ok a → page_ok c → 0 <= i < 512 → 0 <= j < 512 → (c, j) ≠ (a, i) →
  rd64 (wr64 (a + 8 * i) v m) (c + 8 * j) = rd64 m (c + 8 * j).
Proof.
  intros Ha Hc Hi Hj Hne. apply rd64_wr64_ne. destruct (decide (c = a)) as [->|Hca].
  - assert (j ≠ i) by congruence. lia.
  - destruct (page_disjoint a c Ha Hc); lia.
Qed.

(** A missing table is allocated, empty, and hung into its parent. *)
Lemma next_table_hangs s root T q a i :
  space_wf s root T → T !! q = Some a → (length q < 3)%nat → user_path (q ++ [i]) →
  T !! (q ++ [i]) = None →
  (∃ msg, next_table true (entry_at (physical_to_virtual a) i) s = Panic msg) ∨
  ∃ b s', next_table true (entry_at (physical_to_virtual a) i) s = Done (physical_to_virtual b) s' ∧
    hung s s' T q a i b ∧ huge_page (rd64 (mem s') (a + 8 * i)) = false.
Proof.
  intros Hwf Hq Hlen Hu Hnone. destruct (wf_table _ _ _ Hwf _ _ Hq) as (Hpg & Hused & _).
  pose proof (user_path_snoc _ _ Hu) as Hi. pose proof (wf_entry _ _ _ Hwf _ _ _ Hq Hlen Hu) as He.
  cbv zeta in He. rewrite Hnone in He. destruct (present _) eqn:Hp; [done|]. clear He.
  unfold next_table. rewrite (bind_Done _ _ _ _ _ (load_entry a i s Hpg Hi)), Hp. cbn [negb].
  destruct (alloc_table_spec s (wf_frames _ _ _ Hwf))
    as [[msg Ha]|(k & s1 & Ha & Hpk & Hk & Hku & Hfr & _ & _ & Hsame & Hz)].
  { left. exists msg. unfold mbind, M_bind. by rewrite Ha. }
  right. rewrite (bind_Done _ _ _ _ _ Ha), v2p_p2v by done.
  assert (Hkf : Z.shiftr (k * 4096) 12 = k) by (rewrite Z.shiftr_div_pow2 by lia; apply Z.div_mul; lia).
  rewrite Hkf. pose proof (wf_frames _ _ _ Hwf) as Hfok. unfold frames_ok in Hfok.
  assert (Hk40 : 0 <= k < 2 ^ 40) by (destruct Hpk as [[? ?] _]; lia).
  rewrite (bind_Done _ _ _ _ _ (store_entry a i _ s1 Hpg Hi)).
  set (s2 := Vm _ _ _ _). rewrite (bind_Done _ _ _ _ _ (load_entry a i s2 Hpg Hi)).
  assert (Hrd : rd64 (mem s2) (a + 8 * i) = u64 (make_entry k true true true)) by apply rd64_wr64_eq.
  rewrite Hrd, frame_u64, frame_make_entry, frame_page by done.
  exists (k * 4096), s2. split; [done|]. split; [|rewrite Hrd; unfold huge_page, make_entry; by rewrite u64_testbit, !set_bit_spec, set_frame_spec by lia].
  eapply (hung_intro s s1 s2 root); try eassumption; try done.
  - by rewrite present_u64, present_make_entry.
  - by rewrite frame_u64, frame_make_entry.
  - intros c j Hpc Hj Hcj. by apply rd64_entry_ne.
Qed.

(** The address space grows by that table, and nothing mapped changes. *)
Lemma hung_wf s s' root T q a i b :
  space_wf s root T → T !! q = Some a → (length q < 3)%nat → T !! (q ++ [i]) = None →
  hung s s' T q a i b → space_wf s' root (<[q ++ [i] := b]> T).
Proof.
  intros Hwf Hq Hlen Hnone [Hpb Hf Htot Hus He _ Hemp Hoth]. cbv zeta in He. destruct He as [Hpres Hfra].
  pose proof (λ r c, fresh_page s root T b r c Hwf Hpb Hf) as Hne. split.
  - rewrite lookup_insert_ne by (by destruct q). apply (wf_root _ _ _ Hwf).
  - unfold frames_ok. rewrite Htot. apply (wf_frames _ _ _ Hwf).
  - intros r1 r2 c. rewrite !lookup_insert. repeat case_decide; intros; simplify_eq; try done.
    + exfalso. by eapply Hne.
    + exfalso. by eapply Hne.
    + by eapply (wf_inj _ _ _ Hwf).
  - intros r c. rewrite lookup_insert, Hus. case_decide; intros; simplify_eq.
    + rewrite bool_decide_eq_true_2 by done. split_and!; [done|done|]. rewrite length_app. simpl. lia.
    + destruct (wf_table _ _ _ Hwf r c) as (? & -> & ?); [done|]. by rewrite orb_true_r.
  - intros r j c. rewrite !lookup_insert. case_decide as Hrj.
    + apply snoc_inj in Hrj as [-> ->]. intros _. case_decide; [done|]. by rewrite Hq.
    + intros Hc. case_decide; [done|]. by eapply (wf_parent _ _ _ Hwf).
  - intros r c j Hr Hlr Huj. cbv zeta. pose proof (user_path_snoc _ _ Huj) as Hj.
    rewrite lookup_insert in Hr. case_decide as Hrq.
    + simplify_eq. rewrite Hemp, present_0 by done. rewrite lookup_insert_ne.
      * destruct (T !! ((q ++ [i]) ++ [j])) as [d|] eqn:Hd; [|done].
        apply (wf_parent _ _ _ Hwf) in Hd as [? Hd]. congruence.
      * intros Heq. apply (f_equal length) in Heq. rewrite !length_app in Heq. simpl in Heq. lia.
    + destruct (decide ((r, j) = (q, i))) as [[= -> ->]|Hrj].
      * rewrite lookup_insert_eq. assert (c = a) as -> by congruence. by rewrite Hpres, Hfra.
      * rewrite lookup_insert_ne by (intros [-> ->]%snoc_inj; done).
        rewrite (Hoth r) by done. by apply (wf_entry _ _ _ Hwf).
Qed.

Lemma hung_leaf s s' T q a i b r j :
  (length q < 3)%nat → T !! (q ++ [i]) = None → hung s s' T q a i b → 0 <= j < 512 → length r = 3%nat →
  leaf s' (<[q ++ [i] := b]> T) r j = leaf s T r j.
Proof.
  intros Hlen Hnone Hh Hj Hl3. unfold leaf. rewrite lookup_insert. case_decide as Hr.
  - subst r. rewrite Hnone. by apply (hung_empty _ _ _ _ _ _ _ Hh).
  - destruct (T !! r) as [c|] eqn:Hc; [|done]. apply (hung_other _ _ _ _ _ _ _ Hh r); [done|done|].
    intros [= -> ->]. lia.
Qed.

Lemma hung_no_huge s s' root T q a i b :
  space_wf s root T → T !! q = Some a → hung s s' T q a i b →
  (length q = 2%nat → huge_page (rd64 (mem s') (a + 8 * i)) = false) →
  no_huge s T → no_huge s' (<[q ++ [i] := b]> T).
Proof.
  intros Hwf Hq Hh Hhg Hno r c j Hr Hlr Hj. rewrite lookup_insert in Hr. case_decide.
  - simplify_eq. by rewrite (hung_empty _ _ _ _ _ _ _ Hh).
  - destruct (decide ((r, j) = (q, i))) as [[= -> ->]|Hrj].
    + assert (c = a) as -> by congruence. intros _. by apply Hhg.
    + rewrite (hung_other _ _ _ _ _ _ _ Hh r) by done. by apply (Hno r).
Qed.

(** How far a creating walk may change the state: new tables were free pages,
    no used page is given back, and only the tables of this space are written. *)
Record grows (s s' : vm) (T T' : gmap (list Z) Z) : Prop := {
  grows_sub : T ⊆ T';
  grows_new : ∀ q a, T' !! q = Some a → T !! q = Some a ∨ used (frames s) (a / 4096) = false;
  grows_total : total_pages (frames s') = total_pages (frames s);
  grows_used : ∀ k, used (frames s) k = true → used (frames s') k = true;
  grows_mem : ∀ c j, page_ok c → used (frames s) (c / 4096) = true → (∀ r, T !! r ≠ Some c) → 0 <= j < 512 →
    rd64 (mem s') (c + 8 * j) = rd64 (mem s) (c + 8 * j);
  grows_leaf : ∀ r j, 0 <= j < 512 → length r = 3%nat → leaf s' T' r j = leaf s T r j;
  grows_huge : no_huge s T → no_huge s' T' }.

Lemma grows_refl s T : grows s s T T.
Proof. split; auto. Qed.

Lemma grows_trans s1 s2 s3 T1 T2 T3 : grows s1 s2 T1 T2 → grows s2 s3 T2 T3 → grows s1 s3 T1 T3.
Proof.
  intros [A1 A2 A0 A3 A4 A5 A6] [B1 B2 B0 B3 B4 B5 B6]. split.
  - by etrans.
  - intros q a H. apply B2 in H as [H|H]; [by apply A2|]. right.
    destruct (used (frames s1) (a / 4096)) eqn:Hu; [|done]. apply A3 in Hu. congruence.
  - congruence.
  - auto.
  - intros c j Hc Hu Hr Hj. rewrite B4; [by apply A4|done|by apply A3| |done].
    intros r Hr2. apply A2 in Hr2 as [Hr2|Hr2]; [by eapply Hr|congruence].
  - intros r j Hj Hl. by rewrite B5, A5.
  - auto.
Qed.

(** One level of a creating walk, both cases. *)
Lemma next_table_true s root T q a i :
  space_wf s root T → T !! q = Some a → (length q < 3)%nat → user_path (q ++ [i]) →
  (∃ msg, next_table true (entry_at (physical_to_virtual a) i) s = Panic msg) ∨
  ∃ b s' T', next_table true (entry_at (physical_to_virtual a) i) s = Done (physical_to_virtual b) s' ∧
    space_wf s' root T' ∧ T' !! (q ++ [i]) = Some b ∧ grows s s' T T'.
Proof.
  intros Hwf Hq Hlen Hu. destruct (T !! (q ++ [i])) as [b|] eqn:Hb.
  - right. exists b, s, T. split; [by eapply next_table_present|]. auto using grows_refl.
  - destruct (next_table_hangs s root T q a i Hwf Hq Hlen Hu Hb) as [|(b & s' & Hrun & Hh & Hhg)]; [by left|right].
    exists b, s', (<[q ++ [i] := b]> T). split; [done|]. split; [by eapply hung_wf|].
    split; [by rewrite lookup_insert_eq|]. pose proof Hh as [Hpb Hf Htot Hus _ Hfr _ _]. split.
    + by apply insert_subseteq.
    + intros r c. rewrite lookup_insert. case_decide; intros; simplify_eq; auto.
    + done.
    + intros k Hk. by rewrite Hus, Hk, orb_true_r.
    + intros c j Hc Huc Hr Hj. apply Hfr; try done. intros ->. by eapply Hr.
    + intros r j Hj Hl. by eapply hung_leaf.
    + by eapply hung_no_huge.
Qed.

(** ** User addresses and their paths *)

Definition user_addr (v : Z) : Prop := 0 <= v < 2 ^ 47.

Definition path (v : Z) : list Z := [PML4_INDEX v; PDPT_INDEX v; PD_INDEX v].

Lemma index_div v n : 0 <= n → Z.land (Z.shiftr v n) 0x1FF = v / 2 ^ n mod 512.
Proof. intros. change 0x1FF with (Z.ones 9). by rewrite Z.land_ones, Z.shiftr_div_pow2 by lia. Qed.

Lemma path_index v : user_addr v →
  user_path (path v ++ [PT_INDEX v]).
Proof.
  intros Hv. split.
  - repeat (constructor; [apply index_range|]). constructor.
  - simpl. unfold PML4_INDEX. rewrite index_div by lia. unfold user_addr in Hv.
    change (2 ^ 39) with 549755813888. change (2 ^ 47) with 140737488355328 in Hv.
    Z.div_mod_to_equations. lia.
Qed.

Lemma user_path_app q r : user_path (q ++ r) → user_path q.
Proof.
  intros [H1 H2]. split; [by apply Forall_app in H1 as [? _]|]. by destruct q.
Qed.

Lemma div_mod_inj x y n : 0 < n → x mod n = y mod n → x / n = y / n → x = y.
Proof. intros. rewrite (Z.div_mod x n), (Z.div_mod y n) by lia. congruence. Qed.

(** The index of each level, as a digit of the page number in base 512. *)
Lemma index_digit v (n : nat) :
  Z.land (Z.shiftr v (12 + 9 * Z.of_nat n)) 0x1FF = v / 4096 / 512 ^ Z.of_nat n mod 512.
Proof.
  rewrite index_div by lia. f_equal. change 4096 with (2 ^ 12). change 512 with (2 ^ 9).
  rewrite <- Z.pow_mul_r, Z.div_div, <- Z.pow_add_r by lia. done.
Qed.

(** The path and the index determine the page. *)
Lemma path_inj v v' : user_addr v → user_addr v' →
  path v = path v' → PT_INDEX v = PT_INDEX v' → v / 4096 = v' / 4096.
Proof.
  unfold user_addr, path, PML4_INDEX, PDPT_INDEX, PD_INDEX, PT_INDEX. intros Hv Hv' [= H4 H3 H2] H1.
  pose proof (index_digit v 3) as E3. pose proof (index_digit v' 3) as E3'.
  pose proof (index_digit v 2) as E2. pose proof (index_digit v' 2) as E2'.
  pose proof (index_digit v 1) as E1. pose proof (index_digit v' 1) as E1'.
  pose proof (index_digit v 0) as E0. pose proof (index_digit v' 0) as E0'.
  change (12 + 9 * Z.of_nat 3) with 39 in *. change (12 + 9 * Z.of_nat 2) with 30 in *.
  change (12 + 9 * Z.of_nat 1) with 21 in *. change (12 + 9 * Z.of_nat 0) with 12 in *.
  change (512 ^ Z.of_nat 3) with (262144 * 512) in *. change (512 ^ Z.of_nat 2) with (512 * 512) in *.
  change (512 ^ Z.of_nat 1) with 512 in *. change (512 ^ Z.of_nat 0) with 1 in *.
  rewrite E3, E3' in H4. rewrite E2, E2' in H3. rewrite E1, E1' in H2. rewrite E0, E0' in H1.
  rewrite !Z.div_1_r in H1. clear E0 E0' E1 E1' E2 E2' E3 E3'.
  assert (0 <= v / 4096 < 34359738368) by (split; [apply Z.div_pos; lia|apply Z.div_lt_upper_bound; lia]).
  assert (0 <= v' / 4096 < 34359738368) by (split; [apply Z.div_pos; lia|apply Z.div_lt_upper_bound; lia]).
  generalize dependent (v / 4096). generalize dependent (v' / 4096). clear. intros y Hy x H4 H3 H2 H1 Hx.
  apply (div_mod_inj _ _ 512); [lia|done|]. apply (div_mod_inj _ _ 512); [lia|done|].
  rewrite !Z.div_div by lia. apply (div_mod_inj _ _ 512); [lia|done|]. rewrite !Z.div_div by lia.
  rewrite !Z.mod_small in H4; [|split; [apply Z.div_pos; lia|apply Z.div_lt_upper_bound; lia]..]. done.
Qed.

Lemma page_align_shiftr v n : 12 <= n → Z.shiftr (page_align v) n = Z.shiftr v n.
Proof.
  intros Hn. unfold page_align. rewrite Z.shiftr_ldiff. change 0xFFF with (Z.ones 12).
  rewrite (Z.shiftr_eq_0 (Z.ones 12)) by (by_compute || (simpl; lia)).
  apply Z.ldiff_0_r.
Qed.

Lemma path_align v : path (page_align v) = path v ∧ PT_INDEX (page_align v) = PT_INDEX v.
Proof.
  unfold path, PML4_INDEX, PDPT_INDEX, PD_INDEX, PT_INDEX. by rewrite !page_align_shiftr by lia.
Qed.

(** ** The walk finds the leaf *)

Lemma get_pt_entry_find s root T v : space_wf s root T → user_addr v →
  get_pt_entry (physical_to_virtual root) v false s = Done
    (match T !! path v with Some a => entry_at (physical_to_virtual a) (PT_INDEX v) | None => 0 end) s.
Proof.
  intros Hwf Hv. pose proof (path_index v Hv) as Hu. unfold path in *. simpl app in Hu.
  assert (Hu1 : user_path ([] ++ [PML4_INDEX v])) by (by apply (user_path_app [PML4_INDEX v]) in Hu).
  assert (Hu2 : user_path ([PML4_INDEX v] ++ [PDPT_INDEX v])) by (by apply (user_path_app [PML4_INDEX v; PDPT_INDEX v]) in Hu).
  assert (Hu3 : user_path ([PML4_INDEX v; PDPT_INDEX v] ++ [PD_INDEX v])) by (by apply (user_path_app [PML4_INDEX v; PDPT_INDEX v; PD_INDEX v]) in Hu).
  assert (Hnz : ∀ q b, T !! q = Some b → (physical_to_virtual b =? 0) = false).
  { intros q b Hb. apply Z.eqb_neq, p2v_nonzero. by eapply (wf_table _ _ _ Hwf). }
  pose proof (wf_root _ _ _ Hwf) as Hroot. unfold get_pt_entry.
  destruct (T !! [PML4_INDEX v]) as [t3|] eqn:H3.
  2:{ rewrite (bind_Done _ _ _ _ _ (next_table_absent _ _ _ [] _ _ Hwf Hroot ltac:(simpl; lia) Hu1 H3)).
      destruct (T !! [_; _; _]) as [a|] eqn:Ha; [|done].
      apply (wf_parent _ _ _ Hwf [_; _]) in Ha as [? Ha]. apply (wf_parent _ _ _ Hwf [_]) in Ha as [? Ha]. congruence. }
  rewrite (bind_Done _ _ _ _ _ (next_table_present _ _ _ [] _ _ false _ Hwf Hroot ltac:(simpl; lia) Hu1 H3)), (Hnz _ _ H3).
  destruct (T !! [PML4_INDEX v; PDPT_INDEX v]) as [t2|] eqn:H2.
  2:{ rewrite (bind_Done _ _ _ _ _ (next_table_absent _ _ _ [_] _ _ Hwf H3 ltac:(simpl; lia) Hu2 H2)).
      destruct (T !! [_; _; _]) as [a|] eqn:Ha; [|done].
      apply (wf_parent _ _ _ Hwf [_; _]) in Ha as [? Ha]. congruence. }
  rewrite (bind_Done _ _ _ _ _ (next_table_present _ _ _ [_] _ _ false _ Hwf H3 ltac:(simpl; lia) Hu2 H2)), (Hnz _ _ H2).
  destruct (T !! [PML4_INDEX v; PDPT_INDEX v; PD_INDEX v]) as [t1|] eqn:H1.
  2:{ rewrite (bind_Done _ _ _ _ _ (next_table_absent _ _ _ [_; _] _ _ Hwf H2 ltac:(simpl; lia) Hu3 H1)). done. }
  rewrite (bind_Done _ _ _ _ _ (next_table_present _ _ _ [_; _] _ _ false _ Hwf H2 ltac:(simpl; lia) Hu3 H1)), (Hnz _ _ H1).
  done.
Qed.

(** What an address space translates an address to; 0 when it is not mapped. *)
Definition translation (s : vm) (T : gmap (list Z) Z) (v : Z) : Z :=
  let w := leaf s T (path v) (PT_INDEX v) in
  if present w then Z.lor (Z.shiftl (frame w) 12) (PG_OFFSET v) else 0.

Lemma get_physical_in_translation s root T v : space_wf s root T → user_addr v →
  get_physical_in (physical_to_virtual root) v s = Done (translation s T v) s.
Proof.
  intros Hwf Hv. unfold get_physical_in, translation, leaf.
  rewrite (bind_Done _ _ _ _ _ (get_pt_entry_find _ _ _ _ Hwf Hv)).
  destruct (T !! path v) as [a|] eqn:Ha; [|done].
  destruct (wf_table _ _ _ Hwf _ _ Ha) as (Hpg & _ & _). pose proof (index_range v 12) as Hi. fold (PT_INDEX v) in Hi.
  rewrite (proj2 (Z.eqb_neq _ 0)).
  2:{ unfold entry_at, physical_to_virtual, PHYSICAL_MAP_BASE. destruct Hpg. rewrite u64_small by lia. lia. }
  rewrite (bind_Done _ _ _ _ _ (load_entry a _ s Hpg Hi)). by destruct (present _).
Qed.

Lemma get_pt_entry_create s root T v : space_wf s root T → user_addr v →
  (∃ msg, get_pt_entry (physical_to_virtual root) v true s = Panic msg) ∨
  ∃ a s' T', get_pt_entry (physical_to_virtual root) v true s
      = Done (entry_at (physical_to_virtual a) (PT_INDEX v)) s' ∧
    space_wf s' root T' ∧ T' !! path v = Some a ∧ grows s s' T T'.
Proof.
  intros Hwf Hv. pose proof (path_index v Hv) as Hu. unfold path in *. simpl app in Hu.
  assert (Hu1 : user_path ([] ++ [PML4_INDEX v])) by (by apply (user_path_app [PML4_INDEX v]) in Hu).
  assert (Hu2 : user_path ([PML4_INDEX v] ++ [PDPT_INDEX v])) by (by apply (user_path_app [PML4_INDEX v; PDPT_INDEX v]) in Hu).
  assert (Hu3 : user_path ([PML4_INDEX v; PDPT_INDEX v] ++ [PD_INDEX v])) by (by apply (user_path_app [PML4_INDEX v; PDPT_INDEX v; PD_INDEX v]) in Hu).
  unfold get_pt_entry.
  destruct (next_table_true s root T [] root _ Hwf (wf_root _ _ _ Hwf) ltac:(simpl; lia) Hu1)
    as [[msg H]|(t3 & s1 & T1 & H & Hwf1 & H3 & Hg1)].
  { left. exists msg. unfold mbind, M_bind. by rewrite H. }
  rewrite (bind_Done _ _ _ _ _ H), (proj2 (Z.eqb_neq _ 0)) by (apply p2v_nonzero; by eapply (wf_table _ _ _ Hwf1)).
  destruct (next_table_true s1 root T1 [_] t3 _ Hwf1 H3 ltac:(simpl; lia) Hu2)
    as [[msg H']|(t2 & s2 & T2 & H' & Hwf2 & H2 & Hg2)].
  { left. exists msg. unfold mbind, M_bind. by rewrite H'. }
  rewrite (bind_Done _ _ _ _ _ H'), (proj2 (Z.eqb_neq _ 0)) by (apply p2v_nonzero; by eapply (wf_table _ _ _ Hwf2)).
  destruct (next_table_true s2 root T2 [_; _] t2 _ Hwf2 H2 ltac:(simpl; lia) Hu3)
    as [[msg H'']|(t1 & s3 & T3 & H'' & Hwf3 & H1 & Hg3)].
  { left. exists msg. unfold mbind, M_bind. by rewrite H''. }
  rewrite (bind_Done _ _ _ _ _ H''), (proj2 (Z.eqb_neq _ 0)) by (apply p2v_nonzero; by eapply (wf_table _ _ _ Hwf3)).
  right. exists t1, s3, T3. split; [done|]. split; [done|]. split; [done|].
  eapply grows_trans; [exact Hg1|]. eapply grows_trans; [exact Hg2|exact Hg3].
Qed.

Lemma path_of_page v v' : v' / 4096 = v / 4096 → path v' = path v ∧ PT_INDEX v' = PT_INDEX v.
Proof.
  intros H. unfold path, PML4_INDEX, PDPT_INDEX, PD_INDEX, PT_INDEX.
  pose proof (λ w, index_digit w 3) as E3. pose proof (λ w, index_digit w 2) as E2.
  pose proof (λ w, index_digit w 1) as E1. pose proof (λ w, index_digit w 0) as E0.
  change (12 + 9 * Z.of_nat 3) with 39 in *. change (12 + 9 * Z.of_nat 2) with 30 in *.
  change (12 + 9 * Z.of_nat 1) with 21 in *. change (12 + 9 * Z.of_nat 0) with 12 in *.
  by rewrite !E3, !E2, !E1, !E0, H.
Qed.

(** ** Writing a leaf *)

Lemma store_leaf s root T q a i w : space_wf s root T → T !! q = Some a → length q = 3%nat → 0 <= i < 512 →
  ∃ s', store (entry_at (physical_to_virtual a) i) w s = Done tt s' ∧ space_wf s' root T ∧
    frames s' = frames s ∧
    (∀ c j, page_ok c → c ≠ a → 0 <= j < 512 → rd64 (mem s') (c + 8 * j) = rd64 (mem s) (c + 8 * j)) ∧
    ∀ r j, 0 <= j < 512 → leaf s' T r j = if decide ((r, j) = (q, i)) then u64 w else leaf s T r j.
Proof.
  intros Hwf Hq Hl Hi. destruct (wf_table _ _ _ Hwf _ _ Hq) as (Hpg & _ & _).
  assert (Hoth : ∀ r c j, T !! r = Some c → 0 <= j < 512 → (r, j) ≠ (q, i) →
    rd64 (wr64 (a + 8 * i) w (mem s)) (c + 8 * j) = rd64 (mem s) (c + 8 * j)).
  { intros r c j Hr Hj Hne. apply rd64_wr64_ne. destruct (wf_table _ _ _ Hwf _ _ Hr) as (Hpc & _ & _).
    destruct (decide (c = a)) as [->|Hca].
    - assert (r = q) as -> by (by eapply (wf_inj _ _ _ Hwf)). assert (j ≠ i) by (intros ->; done). lia.
    - destruct (page_disjoint a c Hpg Hpc ltac:(done)); lia. }
  eexists. split; [by apply store_entry|]. split; [|split; [done|split]].
  - destruct Hwf as [H1 H2 H3 H4 H5 H6]. split; try done. intros r c j Hr Hlr Hu. cbn [mem].
    rewrite (Hoth r c j); [by apply H6|done|by apply (user_path_snoc r)|]. intros [= -> ->]. lia.
  - intros c j Hc Hca Hj. cbn [mem]. apply rd64_wr64_ne. destruct (page_disjoint a c Hpg Hc ltac:(done)); lia.
  - intros r j Hj. unfold leaf. cbn [mem]. destruct (decide ((r, j) = (q, i))) as [[= -> ->]|Hne].
    + by rewrite Hq, rd64_wr64_eq.
    + destruct (T !! r) as [c|] eqn:Hr; [|done]. by apply (Hoth r).
Qed.

Lemma lor_page k r : 0 <= r < 4096 → Z.lor (Z.shiftl k 12) r = k * 4096 + r.
Proof.
  intros Hr. assert (Hl : Z.land (Z.shiftl k 12) r = 0).
  { apply Z.bits_inj'. intros j Hj. rewrite Z.land_spec, Z.shiftl_spec, Z.bits_0 by lia.
    destruct (decide (j < 12)); [by rewrite Z.testbit_neg_r by lia|].
    rewrite <- (Z.mod_small r (2 ^ 12)), Z.mod_pow2_bits_high by lia. apply andb_false_r. }
  rewrite <- Z.lxor_lor, <- Z.add_nocarry_lxor, Z.shiftl_mul_pow2 by (done || lia). done.
Qed.

Lemma user_addr_align v : user_addr v → user_addr (page_align v).
Proof.
  unfold user_addr, page_align. change 0xFFF with (Z.ones 12). intros Hv.
  rewrite Z.ldiff_ones_r, Z.shiftl_mul_pow2, Z.shiftr_div_pow2 by lia.
  change (2 ^ 12) with 4096. Z.div_mod_to_equations. lia.
Qed.

Lemma entry_nonzero a i : page_ok a → 0 <= i < 512 → (entry_at (physical_to_virtual a) i =? 0) = false.
Proof.
  intros [Ha _] Hi. apply Z.eqb_neq. unfold entry_at, physical_to_virtual, PHYSICAL_MAP_BASE.
  rewrite u64_small by lia. lia.
Qed.

(** The physical address a mapping of [p] gives to an address in the page. *)
Definition mapped_to (p v : Z) : Z := p / 4096 * 4096 + v mod 4096.

Lemma leaf_mapped p flags v :
  0 <= p < 2 ^ 52 →
  let w := u64 (make_entry (Z.shiftr (page_align p) 12) (flag flags PAGE_PRESENT)
                  (flag flags PAGE_WRITABLE) (flag flags PAGE_USER)) in
  (if present w then Z.lor (Z.shiftl (frame w) 12) (PG_OFFSET v) else 0)
  = if flag flags PAGE_PRESENT then mapped_to p v else 0.
Proof.
  intros Hp. cbv zeta. rewrite present_u64, present_make_entry, frame_u64, page_align_shiftr by lia.
  assert (0 <= Z.shiftr p 12 < 2 ^ 40).
  { rewrite Z.shiftr_div_pow2 by lia. split; [apply Z.div_pos; lia|apply Z.div_lt_upper_bound; lia]. }
  rewrite frame_make_entry by done. destruct (flag _ _); [|done].
  unfold PG_OFFSET. change 0xFFF with (Z.ones 12). rewrite Z.land_ones by lia.
  rewrite lor_page, Z.shiftr_div_pow2 by (try apply Z.mod_pos_bound; lia). done.
Qed.

(** What map_page_in() does to the state. *)
Lemma map_page_in_spec s root T v p flags :
  space_wf s root T → user_addr v → 0 <= p < 2 ^ 52 →
  (∃ msg, map_page_in (physical_to_virtual root) v p flags s = Panic msg) ∨
  ∃ s' T', map_page_in (physical_to_virtual root) v p flags s = Done tt s' ∧
    space_wf s' root T' ∧ T ⊆ T' ∧
    (∀ v', user_addr v' → translation s' T' v' =
        if v' / 4096 =? v / 4096 then if flag flags PAGE_PRESENT then mapped_to p v' else 0
        else translation s T v') ∧
    total_pages (frames s') = total_pages (frames s) ∧
    (∀ k, used (frames s) k = true → used (frames s') k = true) ∧
    (∀ c j, page_ok c → used (frames s) (c / 4096) = true → (∀ r, T !! r ≠ Some c) → 0 <= j < 512 →
      rd64 (mem s') (c + 8 * j) = rd64 (mem s) (c + 8 * j)) ∧
    (∀ q a, T' !! q = Some a → T !! q = Some a ∨ used (frames s) (a / 4096) = false) ∧
    (no_huge s T → no_huge s' T') ∧
    (∀ q i, 0 <= i < 512 → length q = 3%nat → leaf s' T' q i =
       if decide ((q, i) = (path v, PT_INDEX v))
       then u64 (make_entry (Z.shiftr (page_align p) 12) (flag flags PAGE_PRESENT) (flag flags PAGE_WRITABLE) (flag flags PAGE_USER))
       else leaf s T q i).
Proof.
  intros Hwf Hv Hp. unfold map_page_in.
  assert (Hpr : page_ok root) by (eapply (wf_table _ _ _ Hwf), (wf_root _ _ _ Hwf)).
  rewrite (proj2 (Z.eqb_neq _ 0)) by (by apply p2v_nonzero).
  pose proof (user_addr_align v Hv) as Hva. destruct (path_align v) as [Hpath Hidx]. cbv zeta.
  destruct (get_pt_entry_create s root T (page_align v) Hwf Hva) as [[msg H]|(a & s1 & T1 & H & Hwf1 & Ha & Hg)].
  { left. exists msg. unfold mbind, M_bind. by rewrite H. }
  right. rewrite (bind_Done _ _ _ _ _ H). rewrite Hpath in Ha. rewrite Hidx.
  destruct (wf_table _ _ _ Hwf1 _ _ Ha) as (Hpa & _ & _).
  assert (Hi : 0 <= PT_INDEX v < 512) by apply index_range. rewrite (entry_nonzero a _ Hpa Hi).
  match goal with |- context [store _ ?w] =>
    destruct (store_leaf s1 root T1 (path v) a (PT_INDEX v) w Hwf1 Ha eq_refl Hi)
      as (s2 & Hst & Hwf2 & Hfr2 & Hm2 & Hl2)
  end.
  destruct Hg as [Hsub Hnew Htot Hus Hm1 Hleaf Hhg].
  exists s2, T1. split; [done|]. split; [done|]. split; [done|]. split; [|rewrite Hfr2; split; [done|split; [done|split; [|split; [done|split]]]]].
  - intros v' Hv'. unfold translation.
    rewrite Hl2 by apply index_range. destruct (Z.eqb_spec (v' / 4096) (v / 4096)) as [Heq|Hne].
    + destruct (path_of_page v v' Heq) as [-> ->]. rewrite decide_True by done. by apply leaf_mapped.
    + rewrite decide_False by (intros [= ? ? ? ?]; apply Hne, path_inj; [done..|unfold path; congruence|done]).
      rewrite Hleaf by (done || apply index_range). done.
  - intros c j Hc Huc Hr Hj. rewrite Hm2; [by apply Hm1|done| |done].
    intros ->. apply Hnew in Ha as [Ha|Ha]; [by eapply Hr|congruence].
  - intros Hno r c j Hr Hlr Hj. rewrite Hm2; [by apply (Hhg Hno r)|by eapply (wf_table _ _ _ Hwf1)| |done].
    intros ->. by rewrite (wf_inj _ _ _ Hwf1 _ _ _ Hr Ha) in Hlr.
  - intros q i Hi' Hlq. rewrite Hl2 by done. case_decide; [done|]. by apply Hleaf.
Qed.

(** A space whose tables keep their content is the same space. *)
Lemma space_frame s s' root T :
  space_wf s root T → total_pages (frames s') = total_pages (frames s) →
  (∀ k, used (frames s) k = true → used (frames s') k = true) →
  (∀ q c j, T !! q = Some c → 0 <= j < 512 → rd64 (mem s') (c + 8 * j) = rd64 (mem s) (c + 8 * j)) →
  space_wf s' root T ∧ ∀ v, translation s' T v = translation s T v.
Proof.
  intros [H1 H2 H3 H4 H5 H6] Ht Hu Hm. split.
  - split; try done.
    + unfold frames_ok. by rewrite Ht.
    + intros q a Hq. destruct (H4 q a Hq) as (? & ? & ?). auto.
    + intros q a i Hq Hl Hup. cbv zeta. rewrite (Hm q) by (done || by apply (user_path_snoc q)). by apply H6.
  - intros v. unfold translation, leaf. destruct (T !! path v) eqn:Hq; [|done].
    by rewrite (Hm (path v)) by (done || apply index_range).
Qed.

(** C23. Mapping a page translates exactly that page: after map_page_in(), on
    any well-formed address space, get_physical_in() gives the mapped frame
    and offset for the addresses of the page (0 when mapped without
    PAGE_PRESENT) and what it gave before for every other user address; the
    tables stay a well-formed tree. Only running out of memory stops it. *)
Theorem map_page_in_translates s root T v p flags :
  space_wf s root T → user_addr v → 0 <= p < 2 ^ 52 →
  (∃ msg, map_page_in (physical_to_virtual root) v p flags s = Panic msg) ∨
  ∃ s' T', map_page_in (physical_to_virtual root) v p flags s = Done tt s' ∧
    space_wf s' root T' ∧ T ⊆ T' ∧
    ∀ v', user_addr v' →
      ∃ old, get_physical_in (physical_to_virtual root) v' s = Done old s ∧
      get_physical_in (physical_to_virtual root) v' s' = Done
        (if v' / 4096 =? v / 4096 then if flag flags PAGE_PRESENT then mapped_to p v' else 0
         else old) s'.
Proof.
  intros Hwf Hv Hp. destruct (map_page_in_spec s root T v p flags Hwf Hv Hp)
    as [|(s' & T' & H & Hwf' & Hsub & Htr & _)]; [by left|right].
  exists s', T'. split; [done|]. split; [done|]. split; [done|]. intros v' Hv'.
  exists (translation s T v'). split; [by apply get_physical_in_translation|].
  rewrite (get_physical_in_translation _ _ _ _ Hwf' Hv'). by rewrite Htr.
Qed.

(** C9. Address spaces are isolated: mapping a page in one process's tables
    changes no translation of another's, and no byte of a page in use that is
    not one of the first one's tables. *)
Theorem map_page_in_isolated s root T root2 T2 v p flags s' :
  space_wf s root T → space_wf s root2 T2 → (∀ q r a, T !! q = Some a → T2 !! r ≠ Some a) →
  user_addr v → 0 <= p < 2 ^ 52 →
  map_page_in (physical_to_virtual root) v p flags s = Done tt s' →
  space_wf s' root2 T2 ∧
  (∀ v' old, user_addr v' → get_physical_in (physical_to_virtual root2) v' s = Done old s →
    get_physical_in (physical_to_virtual root2) v' s' = Done old s') ∧
  (∀ c j, page_ok c → used (frames s) (c / 4096) = true → (∀ r, T !! r ≠ Some c) → 0 <= j < 512 →
      rd64 (mem s') (c + 8 * j) = rd64 (mem s) (c + 8 * j)).
Proof.
  intros Hwf Hwf2 Hdis Hv Hp Hrun.
  destruct (map_page_in_spec s root T v p flags Hwf Hv Hp)
    as [[msg H]|(s1 & T' & H & _ & _ & _ & Htot & Hus & Hmem & _)]; rewrite H in Hrun; simplify_eq.
  destruct (space_frame s s' root2 T2 Hwf2 Htot Hus) as [Hwf2' Htr].
  { intros q c j Hq Hj. destruct (wf_table _ _ _ Hwf2 _ _ Hq) as (Hc & Hu & _).
    apply Hmem; [done|done| |done]. intros r Hr. by eapply Hdis. }
  split; [done|]. split; [|done]. intros v' old Hv'.
  rewrite (get_physical_in_translation _ _ _ _ Hwf2 Hv'), (get_physical_in_translation _ _ _ _ Hwf2' Hv'), Htr.
  congruence.
Qed.

(** ** A fresh address space *)

(** A table with an empty user half is the empty address space. *)
Lemma space_wf_empty s root :
  frames_ok s → page_ok root → used (frames s) (root / 4096) = true →
  (∀ i, 0 <= i < 256 → present (rd64 (mem s) (root + 8 * i)) = false) →
  space_wf s root {[ [] := root ]} ∧ ∀ v, translation s {[ [] := root ]} v = 0.
Proof.
  intros Hf Hp Hu Hz. split; [split|].
  - by rewrite lookup_singleton_eq.
  - done.
  - intros q r a [<- _]%lookup_singleton_Some [<- _]%lookup_singleton_Some. done.
  - intros q a [<- <-]%lookup_singleton_Some. split_and!; [done|done|simpl; lia].
  - intros q i b [Hq _]%lookup_singleton_Some. by destruct q.
  - intros q a i [<- <-]%lookup_singleton_Some _ [Hi Hlt]. simpl in Hlt. cbv zeta.
    apply list.Forall_cons in Hi as [Hi _]. by rewrite Hz, lookup_singleton_ne by (done || lia).
  - intros v. unfold translation, leaf. by rewrite lookup_singleton_ne.
Qed.

Lemma copy_kernel_half_spec s dst src : page_ok dst → page_ok src → dst ≠ src →
  ∃ s', copy_kernel_half (physical_to_virtual dst) (physical_to_virtual src) s = Done tt s' ∧
    frames s' = frames s ∧ (kernel_pml4 s' = kernel_pml4 s ∧ cr3 s' = cr3 s) ∧ same_but dst (mem s) (mem s') ∧
    (∀ i, 0 <= i < 256 → rd64 (mem s') (dst + 8 * i) = rd64 (mem s) (dst + 8 * i)) ∧
    (∀ i, 256 <= i < 512 → rd64 (mem s') (dst + 8 * i) = rd64 (mem s) (src + 8 * i)).
Proof.
  intros Hd Hs Hne. unfold copy_kernel_half.
  destruct (for_up_rule (λ n t, frames t = frames s ∧ (kernel_pml4 t = kernel_pml4 s ∧ cr3 t = cr3 s) ∧ same_but dst (mem s) (mem t) ∧
    (∀ i, 0 <= i < 256 ∨ n <= i < 512 → rd64 (mem t) (dst + 8 * i) = rd64 (mem s) (dst + 8 * i)) ∧
    (∀ i, 256 <= i < n → rd64 (mem t) (dst + 8 * i) = rd64 (mem s) (src + 8 * i)))
    256 256 (λ i, w ← load (entry_at (physical_to_virtual src) i); store (entry_at (physical_to_virtual dst) i) w) s)
    as (s' & Hrun & Hf & Hregs & Hsame & Hlo & Hhi).
  - split_and!; try done. intros i Hi. lia.
  - intros n t Hn (Hf & Hregs & Hsame & Hlo & Hhi). rewrite (bind_Done _ _ _ _ _ (load_entry src n t Hs ltac:(lia))).
    rewrite store_entry by (done || lia). eexists. split; [done|]. cbn [frames mem].
    rewrite (same_but_rd64 dst (mem s) (mem t) src n) by (done || lia). split; [done|]. split; [done|]. split_and!.
    + intros c Hc. rewrite wr64_same_but by (done || lia). by apply Hsame.
    + intros i Hi. rewrite rd64_wr64_ne by lia. apply Hlo. lia.
    + intros i Hi. destruct (decide (i = n)) as [->|]; [|rewrite rd64_wr64_ne by lia; apply Hhi; lia].
      rewrite rd64_wr64_eq. apply u64_small. apply rd64_range.
  - exists s'. split; [done|]. split; [done|]. split; [done|]. split; [done|]. split; [intros; apply Hlo; lia|intros; apply Hhi; lia].
Qed.

(** paging_clone_directory() takes one page. *)
Lemma clone_directory_spec s kroot :
  frames_ok s → page_ok kroot → used (frames s) (kroot / 4096) = true →
  kernel_pml4 s = physical_to_virtual kroot →
  (∃ msg, paging_clone_directory s = Panic msg) ∨
  ∃ b s', paging_clone_directory s = Done (physical_to_virtual b) s' ∧
    (page_ok b ∧ used (frames s) (b / 4096) = false ∧ space_wf s' b {[ [] := b ]}) ∧
    (∀ j, used (frames s') j = bool_decide (j = b / 4096) || used (frames s) j) ∧
    total_pages (frames s') = total_pages (frames s) ∧ (kernel_pml4 s' = kernel_pml4 s ∧ cr3 s' = cr3 s) ∧
    same_but b (mem s) (mem s') ∧
    (∀ v, translation s' {[ [] := b ]} v = 0) ∧
    (∀ i, 256 <= i < 512 → rd64 (mem s') (b + 8 * i) = rd64 (mem s) (kroot + 8 * i)).
Proof.
  intros Hf Hk Huk Hkp. unfold paging_clone_directory.
  destruct (alloc_table_spec s Hf) as [[msg Ha]|(k & s1 & Ha & Hpk & Hkt & Hku & Hfr & Hkp1 & Hcr & Hsame & Hz)].
  { left. exists msg. by apply bind_Panic. }
  right. assert (Hne : k * 4096 ≠ kroot).
  { intros <-. rewrite Z.div_mul in Huk by lia. congruence. }
  rewrite (bind_Done _ _ _ _ _ Ha). unfold gets. run. rewrite Hkp1, Hkp.
  destruct (copy_kernel_half_spec s1 (k * 4096) kroot Hpk Hk Hne) as (s2 & Hc & Hf2 & [Hkp2 Hcr2] & Hs2 & Hlo & Hhi).
  rewrite Hc. exists (k * 4096), s2. assert (Hdiv : k * 4096 / 4096 = k) by (apply Z.div_mul; lia). rewrite Hdiv.
  assert (Hused : ∀ j, used (frames s2) j = bool_decide (j = k) || used (frames s) j).
  { intros j. by rewrite Hf2, Hfr, used_add_used, used_set. }
  assert (Htot : total_pages (frames s2) = total_pages (frames s)) by (by rewrite Hf2, Hfr).
  destruct (space_wf_empty s2 (k * 4096)) as [Hwf Htr].
  { unfold frames_ok. by rewrite Htot. }
  { done. }
  { by rewrite Hused, Hdiv, bool_decide_eq_true_2. }
  { intros i Hi. by rewrite Hlo, Hz by lia. }
  split; [done|]. split; [by split_and!|]. split; [exact Hused|]. split; [exact Htot|]. split; [|split; [|split; [exact Htr|]]].
  - split; congruence.
  - intros c Hc'. rewrite Hs2 by done. by apply Hsame.
  - intros i Hi. rewrite Hhi by lia. eapply same_but_rd64; [exact Hsame|exact Hpk|exact Hk|exact Hne|lia].
Qed.

(** C24. A cloned directory is a fresh address space: no user address is
    mapped in it, its kernel half is the kernel's, its page was free, and
    every existing address space and page in use is left as it was. *)
Theorem paging_clone_fresh s kroot :
  frames_ok s → page_ok kroot → used (frames s) (kroot / 4096) = true →
  kernel_pml4 s = physical_to_virtual kroot →
  (∃ msg, paging_clone_directory s = Panic msg) ∨
  ∃ b s', paging_clone_directory s = Done (physical_to_virtual b) s' ∧
    used (frames s) (b / 4096) = false ∧ space_wf s' b {[ [] := b ]} ∧
    (∀ v, user_addr v → get_physical_in (physical_to_virtual b) v s' = Done 0 s') ∧
    (∀ i, 256 <= i < 512 → rd64 (mem s') (b + 8 * i) = rd64 (mem s) (kroot + 8 * i)) ∧
    (∀ c i, page_ok c → used (frames s) (c / 4096) = true → 0 <= i < 512 →
      rd64 (mem s') (c + 8 * i) = rd64 (mem s) (c + 8 * i)) ∧
    (∀ root T, space_wf s root T → space_wf s' root T ∧ ∀ v, translation s' T v = translation s T v).
Proof.
  intros Hf Hk Huk Hkp.
  destruct (clone_directory_spec s kroot Hf Hk Huk Hkp)
    as [|(b & s' & H & (Hpb & Hfb & Hwf) & Hused & Htot & _ & Hsame & Htr & Hhi)]; [by left|right].
  assert (Hmem : ∀ c i, page_ok c → used (frames s) (c / 4096) = true → 0 <= i < 512 →
      rd64 (mem s') (c + 8 * i) = rd64 (mem s) (c + 8 * i)).
  { intros c i Hpc Huc Hi. eapply same_but_rd64; [exact Hsame|done|done| |done]. intros <-. congruence. }
  exists b, s'. split; [done|]. split; [done|]. split; [done|]. split; [|split; [done|split; [done|]]].
  - intros v Hv. by rewrite (get_physical_in_translation _ _ _ _ Hwf Hv), Htr.
  - intros root T HT. apply space_frame; [done|done| |].
    + intros j Hj. by rewrite Hused, Hj, orb_true_r.
    + intros q c j Hq Hj. destruct (wf_table _ _ _ HT _ _ Hq) as (? & ? & _). by apply Hmem.
Qed.

(** ** Freeing an address space *)

(** The pages a table at each level gives back. *)
Definition entries (m : phys) (n : Z) (table : Z) : list Z :=
  filter (λ w, present w = true) ((λ i, rd64 m (table + 8 * i)) <$> seqZ 0 n).

Definition table_addr (w : Z) : Z := Z.shiftl (frame w) 12.

Lemma table_addr_frame w : table_addr w = frame w * 4096.
Proof. apply Z.shiftl_mul_pow2. lia. Qed.

Lemma table_addr_div w : table_addr w / 4096 = frame w.
Proof. rewrite table_addr_frame. apply Z.div_mul. lia. Qed.

Definition pt_pages (m : phys) (pt : Z) : list Z :=
  (table_addr <$> entries m 512 pt) ++ [pt].
Definition pd_pages (m : phys) (pd : Z) : list Z :=
  mjoin ((λ w, if huge_page w then [] else pt_pages m (table_addr w)) <$> entries m 512 pd) ++ [pd].
Definition pdpt_pages (m : phys) (pdpt : Z) : list Z :=
  mjoin ((λ w, pd_pages m (table_addr w)) <$> entries m 512 pdpt) ++ [pdpt].
Definition space_pages (m : phys) (root : Z) : list Z :=
  mjoin ((λ w, pdpt_pages m (table_addr w)) <$> entries m 256 root) ++ [root].

(** pmm_free() of each page of a list, in order. *)
Fixpoint free_all (l : list Z) (p : pmm) : pmm :=
  match l with
  | [] => p
  | a :: l => free_all l (if a =? 0 then p else add_used (-1) (bitmap_clear (a / PAGE_SIZE) p))
  end.

Lemma free_all_app l1 l2 p : free_all (l1 ++ l2) p = free_all l2 (free_all l1 p).
Proof. revert p. induction l1; intros; simpl; auto. Qed.

Definition with_frames (s : vm) (p : pmm) : vm := Vm (mem s) p (kernel_pml4 s) (cr3 s).

(** An operation that gives back the pages [l] and does nothing else. *)
Definition frees (m : phys) (op : M vm unit) (l : list Z) : Prop :=
  ∀ s, mem s = m → op s = Done tt (with_frames s (free_all l (frames s))).

Lemma frees_bind m op1 op2 l1 l2 : frees m op1 l1 → frees m op2 l2 → frees m (op1 ;; op2) (l1 ++ l2).
Proof.
  intros H1 H2 s Hs. rewrite (bind_Done _ _ _ _ _ (H1 s Hs)). rewrite H2 by done.
  by rewrite free_all_app.
Qed.

Lemma frees_ret m : frees m (mret tt) [].
Proof. by intros [] Hs. Qed.

Lemma frees_page m a : 0 <= a → frees m (in_pmm (pmm_free a)) [a].
Proof.
  intros Ha s Hs. unfold in_pmm, zoom, pmm_free. simpl. destruct (Z.eqb_spec a 0); done.
Qed.

Lemma table_addr_range w : 0 <= table_addr w < 2 ^ 52.
Proof.
  unfold table_addr. pose proof (frame_range w). rewrite Z.shiftl_mul_pow2 by lia. lia.
Qed.

Lemma load_entry_wide a i s : 0 <= a < 2 ^ 53 → 0 <= i < 512 →
  load (entry_at (physical_to_virtual a) i) s = Done (rd64 (mem s) (a + 8 * i)) s.
Proof.
  intros Ha Hi. unfold load, gets. do 3 f_equal.
  unfold virtual_to_physical, entry_at, physical_to_virtual, PHYSICAL_MAP_BASE. word_lia.
Qed.

Lemma v2p_p2v_wide a : 0 <= a < 2 ^ 53 → virtual_to_physical (physical_to_virtual a) = a.
Proof. intros Ha. unfold virtual_to_physical, physical_to_virtual, PHYSICAL_MAP_BASE. word_lia. Qed.

Lemma entries_S m n table : 0 <= n →
  entries m (n + 1) table = entries m n table ++
    (if present (rd64 m (table + 8 * n)) then [rd64 m (table + 8 * n)] else []).
Proof.
  intros Hn. unfold entries. rewrite seqZ_app, fmap_app, list.filter_app by lia. f_equal. simpl.
  replace (Z.of_nat 0 + (0 + n)) with n by lia. rewrite list.filter_cons, list.filter_nil. case_decide as Hp; [by rewrite Hp|].
  by destruct (present _).
Qed.

(** A loop over a table gives back what its body gives back, entry by entry. *)
Lemma frees_for_present m (n : nat) table body (pages : Z → list Z) :
  0 <= table < 2 ^ 53 → (Z.of_nat n <= 512) →
  (∀ i w, frees m (body i w) (pages w)) →
  frees m (for_present n (physical_to_virtual table) body)
    (mjoin (pages <$> entries m (Z.of_nat n) table)).
Proof.
  intros Ht Hn Hb s Hs. unfold for_present.
  destruct (for_up_rule (λ i t, 0 <= i ∧ t = with_frames s (free_all (mjoin (pages <$> entries m i table)) (frames s)))
    n 0 (λ i, w ← load (entry_at (physical_to_virtual table) i);
       if negb (present w) then mret tt else body i w) s) as (s' & Hrun & _ & ->).
  - split; [lia|]. by destruct s.
  - intros j t Hj [_ ->]. rewrite (bind_Done _ _ _ _ _ (load_entry_wide table j _ Ht ltac:(lia))).
    cbn [mem with_frames]. rewrite Hs, entries_S by lia.
    destruct (present (rd64 m (table + 8 * j))); cbn [negb].
    + rewrite Hb by done. eexists. split; [done|]. split; [lia|].
      unfold with_frames. cbn [mem frames kernel_pml4 cr3].
      rewrite fmap_app, join_app, free_all_app. simpl. by rewrite app_nil_r.
    + eexists. split; [done|]. split; [lia|]. by rewrite app_nil_r.
  - rewrite Hrun. by rewrite Z.add_0_l.
Qed.

Lemma free_pt_frees m pt : 0 <= pt < 2 ^ 52 → frees m (free_pt (physical_to_virtual pt)) (pt_pages m pt).
Proof.
  intros Hpt. unfold free_pt, pt_pages. apply frees_bind.
  - pose proof (frees_for_present m 512 pt (λ _ w, in_pmm (pmm_free (Z.shiftl (frame w) 12))) (λ w, [table_addr w])
      ltac:(lia) ltac:(lia) (λ _ w, frees_page m (table_addr w) (proj1 (table_addr_range w)))) as H.
    replace (table_addr <$> entries m 512 pt) with (mjoin ((λ w, [table_addr w]) <$> entries m (Z.of_nat 512) pt)); [done|].
    change (Z.of_nat 512) with 512. generalize (entries m 512 pt). intros l. induction l; simpl; [done|]. by f_equal.
  - unfold table_to_physical. rewrite v2p_p2v_wide by lia. apply frees_page. lia.
Qed.

Lemma frees_ext m op l l' : l = l' → frees m op l → frees m op l'.
Proof. by intros ->. Qed.

Lemma free_level m (n : nat) table body (pages : Z → list Z) :
  0 <= table < 2 ^ 52 → Z.of_nat n <= 512 → (∀ i w, frees m (body i w) (pages w)) →
  frees m (for_present n (physical_to_virtual table) body ;;
           in_pmm (pmm_free (table_to_physical (physical_to_virtual table))))
    (mjoin (pages <$> entries m (Z.of_nat n) table) ++ [table]).
Proof.
  intros Ht Hn Hb. apply frees_bind; [apply frees_for_present; done || lia|].
  unfold table_to_physical. rewrite v2p_p2v_wide by lia. apply frees_page. lia.
Qed.

Lemma free_pd_frees m pd : 0 <= pd < 2 ^ 52 → frees m (free_pd (physical_to_virtual pd)) (pd_pages m pd).
Proof.
  intros Hp. apply (free_level m 512 pd _ (λ w, if huge_page w then [] else pt_pages m (table_addr w))); [done|done|].
  intros i w. destruct (huge_page w); [apply frees_ret|]. apply free_pt_frees, table_addr_range.
Qed.

Lemma free_pdpt_frees m pdpt : 0 <= pdpt < 2 ^ 52 →
  frees m (free_pdpt (physical_to_virtual pdpt)) (pdpt_pages m pdpt).
Proof.
  intros Hp. apply (free_level m 512 pdpt _ (λ w, pd_pages m (table_addr w))); [done|done|].
  intros i w. apply free_pd_frees, table_addr_range.
Qed.

Lemma free_directory_frees m root : page_ok root →
  frees m (paging_free_directory (physical_to_virtual root)) (space_pages m root).
Proof.
  intros Hp. unfold paging_free_directory. rewrite (proj2 (Z.eqb_neq _ 0)) by (by apply p2v_nonzero).
  destruct Hp as [Hp _].
  apply (free_level m 256 root _ (λ w, pdpt_pages m (table_addr w))); [lia|done|].
  intros i w. apply free_pdpt_frees, table_addr_range.
Qed.

Lemma total_free_all l : ∀ p, total_pages (free_all l p) = total_pages p.
Proof. induction l as [|a l IH]; intros p; simpl; [done|]. rewrite IH. by destruct (a =? 0). Qed.

(** Freeing an address space changes the bitmap and its counter only. *)
Lemma free_directory_frame s root s' : page_ok root → paging_free_directory (physical_to_virtual root) s = Done tt s' →
  mem s' = mem s ∧ total_pages (frames s') = total_pages (frames s) ∧ kernel_pml4 s' = kernel_pml4 s ∧ cr3 s' = cr3 s.
Proof.
  intros Hp H. rewrite (free_directory_frees (mem s) root Hp s) in H by done. injection H as <-.
  split_and!; try done. apply total_free_all.
Qed.

Lemma used_free_all l : ∀ p k, 0 < k →
  used (free_all l p) k = negb (bool_decide (Exists (λ a, a / 4096 = k) l)) && used p k.
Proof.
  induction l as [|a l IH]; intros p k Hk; cbn [free_all].
  - by rewrite bool_decide_eq_false_2 by (intros H; inversion H).
  - rewrite IH by done. destruct (Z.eqb_spec a 0) as [->|Ha].
    + f_equal. f_equal. apply bool_decide_ext. rewrite Exists_cons, Z.div_0_l by lia.
      split; [auto|intros [H|H]; [lia|done]].
    + rewrite used_add_used, used_clear, andb_assoc, <- negb_orb. f_equal. f_equal.
      unfold PAGE_SIZE. destruct (decide (a / 4096 = k)) as [Heq|Hne].
      * rewrite (bool_decide_eq_true_2 (k = a / 4096)), (bool_decide_eq_true_2 (Exists _ (a :: l)))
          by (try (by left); lia). by rewrite orb_true_r.
      * rewrite (bool_decide_eq_false_2 (k = a / 4096)), orb_false_r by lia.
        apply bool_decide_ext. rewrite Exists_cons. tauto.
Qed.

Lemma elem_of_entries m n table w :
  w ∈ entries m n table ↔ ∃ i, 0 <= i < n ∧ w = rd64 m (table + 8 * i) ∧ present w = true.
Proof.
  unfold entries. rewrite list_elem_of_filter, list_elem_of_fmap. setoid_rewrite elem_of_seqZ.
  split; [intros (Hp & i & -> & Hi)|intros (i & Hi & -> & Hp)]; eauto.
Qed.

(** Membership in the pages of one level. *)
Lemma elem_of_level m n table (pages : Z → list Z) a :
  a ∈ mjoin (pages <$> entries m n table) ++ [table] ↔
  a = table ∨ ∃ i, 0 <= i < n ∧ present (rd64 m (table + 8 * i)) = true ∧
    a ∈ pages (rd64 m (table + 8 * i)).
Proof.
  rewrite elem_of_app, list_elem_of_singleton, list_elem_of_join. split.
  - intros [(l & Ha & (w & -> & (i & Hi & -> & Hp)%elem_of_entries)%list_elem_of_fmap)| ->]; [right|by left].
    exists i. done.
  - intros [->|(i & Hi & Hp & Ha)]; [by right|left]. eexists. split; [exact Ha|].
    apply list_elem_of_fmap. eexists. split; [done|]. apply elem_of_entries. eauto.
Qed.

Section Owned.
Context (s : vm) (root : Z) (T : gmap (list Z) Z) (Hwf : space_wf s root T).

(** The tables and mapped frames at and below the table at path [q]. *)
Definition below (q : list Z) (a : Z) : Prop :=
  (∃ r, user_path (q ++ r) ∧ T !! (q ++ r) = Some a) ∨
  (∃ r i, user_path ((q ++ r) ++ [i]) ∧ length (q ++ r) = 3%nat ∧ present (leaf s T (q ++ r) i) = true ∧
     a = table_addr (leaf s T (q ++ r) i)).

Lemma prefix_closed r : ∀ q a, T !! (q ++ r) = Some a → is_Some (T !! q).
Proof.
  induction r as [|i r IH] using rev_ind; intros q a; [rewrite app_nil_r; eauto|].
  rewrite app_assoc. intros H. destruct (wf_parent _ _ _ Hwf _ _ _ H) as [b Hb]. by eapply IH.
Qed.

Lemma user_path_snoc_iff q i : user_path q →
  user_path (q ++ [i]) ↔ 0 <= i < 512 ∧ (q = [] → i < 256).
Proof.
  intros [H1 H2]. unfold user_path. rewrite Forall_app, list.Forall_singleton.
  destruct q as [|j q]; simpl; naive_solver lia.
Qed.

Lemma below_step q t a : T !! q = Some t → user_path q → (length q < 3)%nat →
  below q a ↔ a = t ∨ ∃ i, user_path (q ++ [i]) ∧ present (rd64 (mem s) (t + 8 * i)) = true ∧
    T !! (q ++ [i]) = Some (table_addr (rd64 (mem s) (t + 8 * i))) ∧ below (q ++ [i]) a.
Proof.
  intros Hq Hu Hl.
  assert (Hd : ∀ i r b, T !! (q ++ i :: r) = Some b → user_path (q ++ [i]) →
    present (rd64 (mem s) (t + 8 * i)) = true ∧
    T !! (q ++ [i]) = Some (table_addr (rd64 (mem s) (t + 8 * i)))).
  { intros i r b Hb Hui. rewrite cons_middle, app_assoc in Hb. apply prefix_closed in Hb as [c Hc].
    pose proof (wf_entry _ _ _ Hwf _ _ _ Hq Hl Hui) as He. cbv zeta in He. rewrite Hc in He |- *.
    destruct (present _); by simplify_eq. }
  split.
  - intros [(r & Hur & Hr)|(r & j & Hur & Hlr & Hp & ->)].
    + destruct r as [|i r]; [left; rewrite app_nil_r in Hr; congruence|right].
      rewrite cons_middle, app_assoc in Hur. pose proof (user_path_app _ _ Hur) as Hui.
      destruct (Hd _ _ _ Hr Hui) as [H1 H2]. exists i. split_and!; [done..|].
      left. exists r. by rewrite <- app_assoc in *.
    + right. destruct r as [|i r]; [rewrite app_nil_r in Hlr; lia|].
      assert (is_Some (T !! (q ++ i :: r))) as [b Hb].
      { unfold leaf in Hp. destruct (T !! (q ++ i :: r)); [eauto|done]. }
      rewrite (cons_middle i q r), (app_assoc q) in Hur.
      pose proof (user_path_app _ _ (user_path_app _ _ Hur)) as Hui.
      destruct (Hd _ _ _ Hb Hui) as [H1 H2]. exists i. split_and!; [done..|].
      right. exists r, j. by rewrite <- !app_assoc in *.
  - intros [->|(i & Hui & Hp & Hi & [(r & Hur & Hr)|(r & j & Hur & Hlr & Hpj & ->)])].
    + left. exists []. by rewrite app_nil_r.
    + left. exists (i :: r). by rewrite <- app_assoc in *.
    + right. exists (i :: r), j. by rewrite <- !app_assoc in *.
Qed.

Lemma below_last q t a : T !! q = Some t → user_path q → length q = 3%nat →
  below q a ↔ a ∈ pt_pages (mem s) t.
Proof.
  intros Hq Hu Hl. unfold pt_pages. rewrite elem_of_app, list_elem_of_singleton, list_elem_of_fmap.
  setoid_rewrite elem_of_entries. split.
  - intros [(r & Hur & Hr)|(r & j & Hur & Hlr & Hp & ->)].
    + right. destruct (wf_table _ _ _ Hwf _ _ Hr) as (_ & _ & Hlr). rewrite length_app in Hlr.
      destruct r; [|simpl in Hlr; lia]. rewrite app_nil_r in Hr. congruence.
    + left. rewrite length_app in Hlr. destruct r; [|simpl in Hlr; lia]. rewrite app_nil_r in *.
      unfold leaf in *. rewrite Hq in *. eexists. split; [done|]. exists j.
      split; [by apply user_path_snoc in Hur|done].
  - intros [(w & -> & i & Hi & -> & Hp)| ->].
    + right. exists [], i. rewrite !app_nil_r. unfold leaf. rewrite Hq. split_and!; try done.
      apply user_path_snoc_iff; [done|]. split; [done|]. intros ->. done.
    + left. exists []. by rewrite app_nil_r.
Qed.

(** A level whose entries' pages are those below them. *)
Lemma below_level q t n pages a : T !! q = Some t → user_path q → (length q < 3)%nat →
  n = (if decide (q = []) then 256 else 512) →
  (∀ i w, user_path (q ++ [i]) → w = rd64 (mem s) (t + 8 * i) → T !! (q ++ [i]) = Some (table_addr w) →
     present w = true → below (q ++ [i]) a ↔ a ∈ pages w) →
  below q a ↔ a ∈ mjoin (pages <$> entries (mem s) n t) ++ [t].
Proof.
  intros Hq Hu Hl Hn Hpg. rewrite (below_step q t a Hq Hu Hl), elem_of_level. f_equiv. split.
  - intros (i & Hui & Hp & Hi & Hb). exists i. split; [|split; [done|exact (proj1 (Hpg i _ Hui eq_refl Hi Hp) Hb)]].
    apply user_path_snoc_iff in Hui as [Hi1 Hi2]; [|done]. case_decide; subst n; naive_solver lia.
  - intros (i & Hi & Hp & Ha).
    assert (Hui : user_path (q ++ [i])).
    { apply user_path_snoc_iff; [done|]. case_decide; subst n; split; naive_solver lia. }
    pose proof (wf_entry _ _ _ Hwf _ _ _ Hq Hl Hui) as He. cbv zeta in He. rewrite Hp in He.
    exists i. split_and!; [done..|]. exact (proj2 (Hpg i _ Hui eq_refl He Hp) Ha).
Qed.

Lemma below_root a : no_huge s T → below [] a ↔ a ∈ space_pages (mem s) root.
Proof.
  intros Hh. apply below_level; [apply (wf_root _ _ _ Hwf)|done|simpl; lia|done|].
  intros i3 w3 Hu3 Hw3 H3 _. apply below_level; [done|done|simpl; lia|done|].
  intros i2 w2 Hu2 Hw2 H2 _. apply below_level; [done|done|simpl; lia|done|].
  intros i1 w1 Hu1 Hw1 H1 Hp1.
  rewrite (below_last _ _ _ H1 Hu1 eq_refl), Hw1, (Hh _ _ _ H2 eq_refl); [done| |by rewrite <- Hw1].
  by apply (user_path_snoc _ _ Hu1).
Qed.

End Owned.

(** What paging_free_directory() leaves in use. *)
Lemma free_directory_exact s root T :
  space_wf s root T → no_huge s T →
  ∃ s', paging_free_directory (physical_to_virtual root) s = Done tt s' ∧
    mem s' = mem s ∧ kernel_pml4 s' = kernel_pml4 s ∧
    ∀ k, 0 < k → used (frames s') k = true ↔
      used (frames s) k = true ∧
      (∀ q a, user_path q → T !! q = Some a → a / 4096 ≠ k) ∧
      (∀ q i, user_path (q ++ [i]) → length q = 3%nat → present (leaf s T q i) = true →
         frame (leaf s T q i) ≠ k).
Proof.
  intros Hwf Hh. destruct (wf_table _ _ _ Hwf _ _ (wf_root _ _ _ Hwf)) as (Hpr & _ & _).
  exists (with_frames s (free_all (space_pages (mem s) root) (frames s))).
  split; [by apply free_directory_frees|]. split; [done|]. split; [done|]. intros k Hk. cbn [frames with_frames].
  rewrite used_free_all, andb_true_iff, negb_true_iff, bool_decide_eq_false, list.Exists_exists by done.
  split.
  - intros [Hne Hu]. split; [done|]. split.
    + intros q a Huq Hq Hak. apply Hne. exists a. split; [|done].
      apply (below_root s root T Hwf a Hh). left. by exists q.
    + intros q i Huq Hl Hp Hf. apply Hne. exists (table_addr (leaf s T q i)). rewrite table_addr_div. split; [|done].
      apply (below_root s root T Hwf _ Hh). right. by exists q, i.
  - intros (Hu & Ht & Hm). split; [|done]. intros (a & Ha & Hak).
    apply (below_root s root T Hwf a Hh) in Ha as [(r & Hr1 & Hr2)|(r & i & Hr1 & Hr2 & Hr3 & ->)].
    + by eapply Ht.
    + rewrite table_addr_div in Hak. by eapply Hm.
Qed.

(** C25. paging_free_directory() gives back exactly what the address space
    owns: a page of memory is free afterwards if and only if it was free
    before, is one of the space's tables, or is mapped in its user half; the
    memory itself and the kernel's tables are not touched. *)
Theorem paging_free_exact s root T :
  space_wf s root T → no_huge s T →
  ∃ s', paging_free_directory (physical_to_virtual root) s = Done tt s' ∧
    mem s' = mem s ∧ kernel_pml4 s' = kernel_pml4 s ∧
    ∀ k, 0 < k → used (frames s') k = true ↔
      used (frames s) k = true ∧
      (∀ q a, user_path q → T !! q = Some a → a / 4096 ≠ k) ∧
      (∀ q i, user_path (q ++ [i]) → length q = 3%nat → present (leaf s T q i) = true →
         frame (leaf s T q i) ≠ k).
Proof. apply free_directory_exact. Qed.

(** ** Witnesses: a machine of 64 pages, the first four in use *)

Definition demo_vm : vm := Vm ∅ (Pmm {[0 := 0x0F]} 64 4) (physical_to_virtual 0x1000) 0x1000.

Lemma rd64_empty a : rd64 ∅ a = 0.
Proof.
  unfold rd64, rd_bytes. assert (H : ∀ i, rd8 ∅ i = 0) by (intros i; unfold rd8; by rewrite lookup_empty).
  simpl. by rewrite !H.
Qed.

Lemma demo_wf root : root = 0x2000 ∨ root = 0x3000 → space_wf demo_vm root {[ [] := root ]}.
Proof.
  intros H. apply space_wf_empty.
  - unfold frames_ok. simpl. lia.
  - unfold page_ok. destruct H as [->| ->]; split; by_compute.
  - by destruct H as [->| ->].
  - intros i _. change (mem demo_vm) with (∅ : gmap Z Z). by rewrite rd64_empty.
Qed.

Lemma demo_map_runs :
  (match map_page_in (physical_to_virtual 0x3000) 0x400123 0x5000 7 demo_vm with Done _ _ => true | _ => false end) = true.
Proof. vm_compute. reflexivity. Qed.

Lemma map_page_in_translates_witness :
  ∃ s', map_page_in (physical_to_virtual 0x3000) 0x400123 0x5000 7 demo_vm = Done tt s' ∧
    get_physical_in (physical_to_virtual 0x3000) 0x400ABC s' = Done 0x5ABC s'.
Proof.
  pose proof demo_map_runs as Hr.
  destruct (map_page_in_translates demo_vm 0x3000 _ 0x400123 0x5000 7 (demo_wf 0x3000 (or_intror eq_refl)))
    as [[msg H]|(s' & T' & H & _ & _ & Htr)].
  - unfold user_addr. by_compute.
  - by_compute.
  - rewrite H in Hr. discriminate Hr.
  - exists s'. split; [exact H|]. destruct (Htr 0x400ABC) as (old & _ & Hq).
    + unfold user_addr. by_compute.
    + exact Hq.
Defined.

Lemma map_page_in_isolated_witness :
  ∃ s', map_page_in (physical_to_virtual 0x3000) 0x400123 0x5000 7 demo_vm = Done tt s' ∧
    space_wf s' 0x2000 {[ [] := 0x2000 ]}.
Proof.
  pose proof demo_map_runs as Hr.
  destruct (map_page_in (physical_to_virtual 0x3000) 0x400123 0x5000 7 demo_vm) as [[] s'| | |] eqn:H; try discriminate Hr.
  exists s'. split; [reflexivity|].
  destruct (map_page_in_isolated demo_vm 0x3000 _ 0x2000 _ 0x400123 0x5000 7 s'
    (demo_wf 0x3000 (or_intror eq_refl)) (demo_wf 0x2000 (or_introl eq_refl))) as [Hw _].
  - intros q r a [_ <-]%lookup_singleton_Some [_ Ha]%lookup_singleton_Some. discriminate Ha.
  - unfold user_addr. by_compute.
  - by_compute.
  - exact H.
  - exact Hw.
Defined.

Lemma demo_clone_runs :
  (match paging_clone_directory demo_vm with Done _ _ => true | _ => false end) = true.
Proof. vm_compute. reflexivity. Qed.

Lemma paging_clone_fresh_witness :
  ∃ b s', paging_clone_directory demo_vm = Done (physical_to_virtual b) s' ∧
    get_physical_in (physical_to_virtual b) 0x400000 s' = Done 0 s'.
Proof.
  pose proof demo_clone_runs as Hr.
  destruct (paging_clone_fresh demo_vm 0x1000) as [[msg H]|(b & s' & H & _ & _ & Hv & _)].
  - unfold frames_ok. by_compute.
  - unfold page_ok. split; by_compute.
  - reflexivity.
  - reflexivity.
  - rewrite H in Hr. discriminate Hr.
  - exists b, s'. split; [exact H|]. apply Hv. unfold user_addr. by_compute.
Defined.

Lemma paging_free_exact_witness :
  ∃ s', paging_free_directory (physical_to_virtual 0x3000) demo_vm = Done tt s' ∧
    used (frames s') 3 ≠ true.
Proof.
  destruct (paging_free_exact demo_vm 0x3000 _ (demo_wf 0x3000 (or_intror eq_refl)))
    as (s' & H & _ & _ & Hu).
  - intros q t i [<- _]%lookup_singleton_Some Hl. discriminate Hl.
  - exists s'. split; [exact H|]. intros H3. destruct (proj1 (Hu 3 ltac:(lia)) H3) as (_ & Ht & _).
    apply (Ht [] 0x3000); [split; [constructor|exact I]|apply lookup_singleton_eq|reflexivity].
Defined.
