(* ===== verification/Space.v ===== *)
(** Growing a user address space: what sys_heap_grow() and elf_load() share.

    Both give a page a fresh, zeroed frame through the same three calls, and
    then write through the direct map. [grown] says what the address space has
    gained: which pages, on which frames, with which bytes, and that nothing
    else changed. *)

From S2P Require Import Prelude Pmm Phys Paging.

(** page[k] = 0 for the bytes of a page, through the direct map. *)
Definition zero_page (page : Z) : M vm unit :=
  for_up 4096 0 (λ k, set_mem (wr8 (virtual_to_physical (page + k)) 0)).

(** Allocate, map and zero the page of [va]. *)
Definition fresh_page (dir va flags : Z) : M vm unit :=
  physical ← in_pmm pmm_alloc;
  map_page_in dir va physical flags ;;
  zero_page (physical_to_virtual physical).

(** The loop over the pages from [first] to [last]. *)
Definition fresh_pages (dir first last flags : Z) : M vm unit :=
  for_up (Z.to_nat ((last - first) / PAGE_SIZE)) 0 (λ k, fresh_page dir (first + k * PAGE_SIZE) flags).

(** * Bytes of pages *)

Lemma virtual_byte a i : page_ok a → 0 <= i < 4096 → virtual_to_physical (physical_to_virtual a + i) = a + i.
Proof.
  intros [Ha _] Hi. unfold virtual_to_physical, physical_to_virtual, PHYSICAL_MAP_BASE.
  rewrite (u64_small (a + _)), u64_small by lia. lia.
Qed.

Lemma combine_inj bs : ∀ bs', length bs = length bs' → Forall is_byte bs → Forall is_byte bs' →
  combine bs = combine bs' → bs = bs'.
Proof.
  induction bs as [|b bs IH]; intros [|b' bs'] Hl H1 H2 Hc; try done.
  apply list.Forall_cons in H1 as [Hb H1]. apply list.Forall_cons in H2 as [Hb' H2].
  unfold combine in Hc. cbn [foldr] in Hc. fold (combine bs) (combine bs') in Hc. unfold is_byte in *.
  assert (b = b' ∧ combine bs = combine bs') as [-> Hc'] by lia. f_equal. apply IH; [simpl in Hl; lia|done..].
Qed.

Lemma rd_bytes_lookup n m a i : (i < n)%nat → rd_bytes n m a !! i = Some (rd8 m (a + Z.of_nat i)).
Proof. intros Hi. unfold rd_bytes. by rewrite list_lookup_fmap, lookup_seqZ_lt by lia. Qed.

(** Equal words have equal bytes. *)
Lemma rd64_bytes m m' a i : rd64 m a = rd64 m' a → 0 <= i < 8 → rd8 m (a + i) = rd8 m' (a + i).
Proof.
  intros H Hi. apply combine_inj in H; [|by rewrite !length_rd_bytes|apply rd_bytes_byte..].
  apply (f_equal (λ l, l !! Z.to_nat i)) in H. rewrite !rd_bytes_lookup, Z2Nat.id in H by lia. by simplify_eq.
Qed.

Lemma rd64_page_bytes m m' a i : (∀ j, 0 <= j < 512 → rd64 m (a + 8 * j) = rd64 m' (a + 8 * j)) →
  0 <= i < 4096 → rd8 m (a + i) = rd8 m' (a + i).
Proof.
  intros H Hi. replace (a + i) with (a + 8 * (i / 8) + i mod 8) by (Z.div_mod_to_equations; lia).
  apply rd64_bytes; [apply H|]; Z.div_mod_to_equations; lia.
Qed.

Lemma page_bytes_rd64 m m' a j : (∀ i, 0 <= i < 4096 → rd8 m (a + i) = rd8 m' (a + i)) →
  0 <= j < 512 → rd64 m (a + 8 * j) = rd64 m' (a + 8 * j).
Proof. intros H Hj. apply rd64_ext. intros i Hi. rewrite <- !Z.add_assoc. apply H. lia. Qed.

Lemma zero_page_spec a s : page_ok a →
  ∃ s', zero_page (physical_to_virtual a) s = Done tt s' ∧ frames s' = frames s ∧
    same_but a (mem s) (mem s') ∧ ∀ i, 0 <= i < 4096 → rd8 (mem s') (a + i) = 0.
Proof.
  intros Ha. unfold zero_page.
  destruct (for_up_rule (λ n t, frames t = frames s ∧ same_but a (mem s) (mem t) ∧
      ∀ i, 0 <= i < n → rd8 (mem t) (a + i) = 0) 4096 0
      (λ i, set_mem (wr8 (virtual_to_physical (physical_to_virtual a + i)) 0)) s)
    as (s' & Hrun & Hf & Hsame & Hz).
  - split; [done|]. split; [done|]. intros i Hi. lia.
  - intros j t Hj (Hf & Hsame & Hz). rewrite virtual_byte by (done || lia). eexists. split; [done|]. cbn [frames mem].
    split; [done|]. split.
    + intros c Hc. rewrite rd8_wr8, decide_False by lia. by apply Hsame.
    + intros i Hi. rewrite rd8_wr8. case_decide; [done|]. apply Hz. lia.
  - exists s'. split; [exact Hrun|]. split; [exact Hf|]. split; [exact Hsame|exact Hz].
Qed.

(** * Growth *)

(** From [s] to [t] the address space [root] has gained the pages of [F],
    page number by frame number, holding the bytes [img] by address; the
    page [kp] of the kernel may have been written too. *)
Record grown (s t : vm) (root kp : Z) (T T' : gmap (list Z) Z) (F : gmap Z Z) (img : Z → Z) : Prop := {
  grown_wf : space_wf t root T';
  grown_total : total_pages (frames t) = total_pages (frames s);
  grown_used : ∀ k, used (frames s) k = true → used (frames t) k = true;
  grown_tables : ∀ q a, T' !! q = Some a → T !! q = Some a ∨ used (frames s) (a / 4096) = false;
  grown_frame : ∀ p f, F !! p = Some f → page_ok (f * 4096) ∧ used (frames s) f = false ∧
    used (frames t) f = true ∧ ∀ q, T' !! q ≠ Some (f * 4096);
  grown_inj : ∀ p q f, F !! p = Some f → F !! q = Some f → p = q;
  grown_byte : ∀ p f i, F !! p = Some f → 0 <= i < 4096 → rd8 (mem t) (f * 4096 + i) = img (p * 4096 + i);
  grown_in : ∀ v f, user_addr v → F !! (v / 4096) = Some f → translation t T' v = f * 4096 + v mod 4096;
  grown_out : ∀ v, user_addr v → F !! (v / 4096) = None → translation t T' v = translation s T v;
  grown_mem : ∀ c i, page_ok c → used (frames s) (c / 4096) = true → (∀ r, T !! r ≠ Some c) → c ≠ kp →
    0 <= i < 4096 → rd8 (mem t) (c + i) = rd8 (mem s) (c + i) }.

Lemma grown_refl s root kp T img : space_wf s root T → grown s s root kp T T ∅ img.
Proof.
  intros Hwf. split; try done.
  auto.
Qed.

Lemma grown_ext s t root kp T T' F img img' : (∀ v, img v = img' v) →
  grown s t root kp T T' F img → grown s t root kp T T' F img'.
Proof. intros He []. split; try done. intros p f i Hp Hi. rewrite <- He. auto. Qed.

(** The image after the page [p] was zeroed. *)
Definition img_zero (p : Z) (img : Z → Z) (v : Z) : Z := if v / 4096 =? p then 0 else img v.

(** The image after the bytes [bs] were written at [a]. *)
Definition img_write (a : Z) (bs : list Z) (img : Z → Z) (v : Z) : Z :=
  if decide (a <= v < a + Z.of_nat (length bs)) then u8 (bs !!! Z.to_nat (v - a)) else img v.

(** The user address of byte [i] of page [p]. *)
Lemma page_byte p i : 0 <= i < 4096 → (p * 4096 + i) / 4096 = p ∧ (p * 4096 + i) mod 4096 = i.
Proof. intros. Z.div_mod_to_equations. lia. Qed.

(** One more fresh page. *)
Lemma fresh_page_spec s t root kp T T' F img p flags : grown s t root kp T T' F img →
  used (frames s) 0 = true → 0 <= p < 2 ^ 35 → flag flags PAGE_PRESENT = true →
  (∃ msg, fresh_page (physical_to_virtual root) (p * 4096) flags t = Panic msg) ∨
  ∃ f t' T'', fresh_page (physical_to_virtual root) (p * 4096) flags t = Done tt t' ∧
    grown s t' root kp T T'' (<[p := f]> F) (img_zero p img).
Proof.
  intros [Hwf Htot Hus Htab Hfr Hinj Hbyte Hin Hout Hmem] H0 Hp Hflag. unfold fresh_page, in_pmm.
  destruct (pmm_alloc_total (frames t)) as [(a & fr & Ha)|[Ha _]].
  2:{ left. eexists. apply bind_Panic. unfold zoom. by rewrite Ha. }
  rewrite (bind_Done _ _ _ _ _ (zoom_Done _ _ _ _ _ _ Ha)). pose proof (wf_frames _ _ _ Hwf) as Hfo. unfold frames_ok in Hfo.
  assert (Hok : pmm_ok (frames t)) by (unfold pmm_ok; lia).
  destruct (pmm_alloc_Done _ _ _ Hok Ha) as (k & -> & Hk & Hku & _ & ->). unfold PAGE_SIZE.
  assert (Hsk : used (frames s) k = false).
  { destruct (used (frames s) k) eqn:E; [|done]. apply Hus in E. congruence. }
  assert (Hk0 : k ≠ 0) by (intros ->; congruence).
  assert (Hpk : page_ok (k * 4096)) by (split; [lia|apply Z.mod_mul; lia]).
  assert (Hdiv : ∀ j, j * 4096 / 4096 = j) by (intros j; apply Z.div_mul; lia).
  set (t1 := Vm _ _ _ _).
  assert (Hu1 : ∀ j, used (frames t1) j = bool_decide (j = k) || used (frames t) j).
  { intros j. unfold t1. cbn [frames]. by rewrite used_add_used, used_set. }
  destruct (space_frame t t1 root T' Hwf eq_refl) as [Hwf1 Htr1]; [intros j Hj; by rewrite Hu1, Hj, orb_true_r|done|].
  assert (Hva : user_addr (p * 4096)) by (unfold user_addr; lia).
  destruct (map_page_in_spec t1 root T' (p * 4096) (k * 4096) flags Hwf1 Hva)
    as [[msg H]|(t2 & T2 & H & Hwf2 & Hsub & Htr & Htot2 & Hus2 & Hmem2 & Hnew & _)]; [lia|left; eexists; by apply bind_Panic|right].
  rewrite (bind_Done _ _ _ _ _ H). destruct (zero_page_spec (k * 4096) t2 Hpk) as (t3 & Hz & Hf3 & Hsame & Hzero).
  exists k, t3, T2. split; [exact Hz|]. clear Hz H Ha.
  assert (Hnotk : ∀ q, T2 !! q ≠ Some (k * 4096)).
  { intros q Hq. apply Hnew in Hq as [Hq|Hq].
    - destruct (wf_table _ _ _ Hwf _ _ Hq) as (_ & Hu & _). rewrite Hdiv in Hu. congruence.
    - by rewrite Hu1, Hdiv, bool_decide_eq_true_2 in Hq. }
  assert (Hm3 : ∀ c i, page_ok c → c ≠ k * 4096 → 0 <= i < 4096 → rd8 (mem t3) (c + i) = rd8 (mem t2) (c + i)).
  { intros c i Hc Hne Hi. apply Hsame. destruct (page_disjoint c (k * 4096) Hc Hpk Hne); lia. }
  assert (Hm2 : ∀ c i, page_ok c → used (frames t) (c / 4096) = true → (∀ r, T' !! r ≠ Some c) → 0 <= i < 4096 →
    rd8 (mem t3) (c + i) = rd8 (mem t) (c + i)).
  { intros c i Hc Hu Hr Hi. rewrite Hm3; [|done| |done].
    - apply rd64_page_bytes; [|done]. intros j Hj. apply Hmem2; [done| |done|done]. by rewrite Hu1, Hu, orb_true_r.
    - intros ->. rewrite Hdiv in Hu. congruence. }
  destruct (space_frame t2 t3 root T2 Hwf2) as [Hwf3 Htr3]; [by rewrite Hf3|by rewrite Hf3| |].
  { intros q c j Hq Hj. apply page_bytes_rd64; [|done]. intros i Hi.
    apply Hm3; [by eapply (wf_table _ _ _ Hwf2)| |done]. intros ->. by eapply Hnotk. }
  split.
  - done.
  - rewrite Hf3, Htot2. exact Htot.
  - intros j Hj. rewrite Hf3. apply Hus2. by rewrite Hu1, Hus, orb_true_r.
  - intros q a [Hq|Hq]%Hnew; [by apply Htab|]. right. rewrite Hu1 in Hq. apply orb_false_iff in Hq as [_ Hq].
    destruct (used (frames s) (a / 4096)) eqn:E; [|done]. apply Hus in E. congruence.
  - intros q f. rewrite lookup_insert. case_decide; intros Hq.
    + simplify_eq. split_and!; [done|done| |done]. rewrite Hf3. apply Hus2. by rewrite Hu1, bool_decide_eq_true_2.
    + destruct (Hfr q f Hq) as (Hpf & Hsf & Htf & Hnf). split_and!; [done|done| |].
      * rewrite Hf3. apply Hus2. by rewrite Hu1, Htf, orb_true_r.
      * intros r [Hr|Hr]%Hnew; [by eapply Hnf|]. rewrite Hdiv, Hu1, Htf, orb_true_r in Hr. done.
  - assert (Hkf : ∀ q, F !! q ≠ Some k).
    { intros q Hq. destruct (Hfr q k Hq) as (_ & _ & Hu & _). congruence. }
    intros q r f. rewrite !lookup_insert. intros E1 E2.
    destruct (decide (p = q)), (decide (p = r)); simplify_eq; [done|by destruct (Hkf r)|by destruct (Hkf q)|by eapply Hinj].
  - intros q f i. rewrite lookup_insert. unfold img_zero. intros Hq Hi. destruct (page_byte q i Hi) as [-> _].
    case_decide; simplify_eq; [rewrite Z.eqb_refl; by apply Hzero|]. rewrite (proj2 (Z.eqb_neq q p)) by done.
    destruct (Hfr q f Hq) as (Hpf & _ & Htf & Hnf). rewrite Hm2; [by apply Hbyte|done|by rewrite Hdiv|done|done].
  - intros v f Hv. rewrite Htr3, Htr, Hdiv, lookup_insert by done. destruct (Z.eqb_spec (v / 4096) p) as [->|E].
    + rewrite decide_True, Hflag by done. intros [= <-]. unfold mapped_to. by rewrite Hdiv.
    + rewrite decide_False, Htr1 by done. by apply Hin.
  - intros v Hv. rewrite Htr3, Htr, Hdiv, lookup_insert by done. destruct (Z.eqb_spec (v / 4096) p) as [->|E].
    + by rewrite decide_True.
    + rewrite decide_False, Htr1 by done. by apply Hout.
  - intros c i Hc Hu Hr Hkp Hi. rewrite Hm2; [by apply Hmem|done|by apply Hus| |done].
    intros r [Hq|Hq]%Htab; [by eapply Hr|congruence].
Qed.

(** A write through the direct map into a page of [F], or into [kp], keeps
    the tables and changes those bytes. *)
Lemma grown_write_at s t root kp T T' F img a bs :
  grown s t root kp T T' F img → page_ok a → (∀ q, T' !! q ≠ Some a) →
  let t' := λ i, Vm (wr_bytes (a + i) bs (mem t)) (frames t) (kernel_pml4 t) (cr3 t) in
  ∀ i, 0 <= i → i + Z.of_nat (length bs) <= 4096 →
  space_wf (t' i) root T' ∧ (∀ v, translation (t' i) T' v = translation t T' v) ∧
  ∀ c j, page_ok c → c ≠ a → 0 <= j < 4096 → rd8 (mem (t' i)) (c + j) = rd8 (mem t) (c + j).
Proof.
  intros Hg Ha Hna t' i Hi Hl.
  assert (Hoth : ∀ c j, page_ok c → c ≠ a → 0 <= j < 4096 → rd8 (mem (t' i)) (c + j) = rd8 (mem t) (c + j)).
  { intros c j Hc Hne Hj. apply rd8_wr_out. destruct (page_disjoint c a Hc Ha Hne); lia. }
  destruct (space_frame t (t' i) root T' (grown_wf _ _ _ _ _ _ _ _ Hg)) as [H1 H2]; [done|done| |by split_and!].
  intros q c j Hq Hj. apply page_bytes_rd64; [|done]. intros l Hl'.
  apply Hoth; [by eapply (wf_table _ _ _ (grown_wf _ _ _ _ _ _ _ _ Hg))| |done]. intros ->. by eapply Hna.
Qed.

Lemma grown_write s t root kp T T' F img p f i bs :
  grown s t root kp T T' F img → F !! p = Some f → 0 <= i → i + Z.of_nat (length bs) <= 4096 → page_ok kp ∨ kp = 0 →
  used (frames s) (kp / 4096) = true →
  grown s (Vm (wr_bytes (f * 4096 + i) bs (mem t)) (frames t) (kernel_pml4 t) (cr3 t)) root kp T T' F
    (img_write (p * 4096 + i) bs img).
Proof.
  intros Hg Hf Hi Hl Hkp Hukp. pose proof Hg as [Hwf Htot Hus Htab Hfr Hinj Hbyte Hin Hout Hmem].
  destruct (Hfr p f Hf) as (Hpf & Hsf & Htf & Hnf).
  destruct (grown_write_at _ _ _ _ _ _ _ _ (f * 4096) bs Hg Hpf Hnf i Hi Hl) as (H1 & H2 & H3).
  split; try done.
  - intros q g j Hq Hj. unfold img_write. destruct (decide (q = p)) as [->|Hne].
    + assert (g = f) as -> by congruence. cbn [mem]. rewrite rd8_wr_bytes.
      destruct (decide (i <= j < i + Z.of_nat (length bs))).
      * rewrite !decide_True by lia. by replace (f * 4096 + j - (f * 4096 + i)) with (p * 4096 + j - (p * 4096 + i)) by lia.
      * rewrite !decide_False by lia. by apply Hbyte.
    + rewrite decide_False by lia. destruct (Hfr q g Hq) as (Hpg & _). rewrite H3; [by apply Hbyte|done| |done].
      intros E. apply Hne. eapply Hinj; [exact Hq|]. rewrite Hf. f_equal. lia.
  - intros v g Hv Hq. rewrite H2. by apply Hin.
  - intros v Hv Hq. rewrite H2. by apply Hout.
  - intros c j Hc Hu Hr Hk Hj. rewrite H3; [by apply Hmem|done| |done].
    intros ->. rewrite Z.div_mul in Hu by lia. congruence.
Qed.

(** A write into the kernel's page. *)
Lemma grown_kernel_write s t root kp T T' F img i bs :
  grown s t root kp T T' F img → page_ok kp → used (frames s) (kp / 4096) = true → (∀ r, T !! r ≠ Some kp) →
  0 <= i → i + Z.of_nat (length bs) <= 4096 →
  grown s (Vm (wr_bytes (kp + i) bs (mem t)) (frames t) (kernel_pml4 t) (cr3 t)) root kp T T' F img.
Proof.
  intros Hg Hk Hu Hr Hi Hl. pose proof Hg as [Hwf Htot Hus Htab Hfr Hinj Hbyte Hin Hout Hmem].
  assert (Hnk : ∀ q, T' !! q ≠ Some kp) by (intros q [Hq|Hq]%Htab; [by eapply Hr|congruence]).
  destruct (grown_write_at _ _ _ _ _ _ _ _ kp bs Hg Hk Hnk i Hi Hl) as (H1 & H2 & H3).
  split; try done.
  - intros q g j Hq Hj. destruct (Hfr q g Hq) as (Hpg & Hsg & _). rewrite H3; [by apply Hbyte|done| |done].
    intros <-. rewrite Z.div_mul in Hu by lia. congruence.
  - intros v g Hv Hq. rewrite H2. by apply Hin.
  - intros v Hv Hq. rewrite H2. by apply Hout.
  - intros c j Hc Huc Hrc Hne Hj. rewrite H3 by done. by apply Hmem.
Qed.

(** * The loop over pages *)

(** The frames of the pages [p], ..., [p + n - 1] are those of [F'], the
    others those of [F]. *)
Definition covers (F F' : gmap Z Z) (p n : Z) : Prop :=
  ∀ q, (p <= q < p + n → is_Some (F' !! q)) ∧ (¬ (p <= q < p + n) → F' !! q = F !! q).

(** The image after the pages were zeroed. *)
Definition img_zeros (p n : Z) (img : Z → Z) (v : Z) : Z :=
  if decide (p <= v / 4096 < p + n) then 0 else img v.

Lemma fresh_pages_spec s t root kp T T' F img p n flags : grown s t root kp T T' F img →
  used (frames s) 0 = true → 0 <= p → 0 <= n → p + n <= 2 ^ 35 → flag flags PAGE_PRESENT = true →
  (∃ msg, fresh_pages (physical_to_virtual root) (p * 4096) ((p + n) * 4096) flags t = Panic msg) ∨
  ∃ t' T'' F', fresh_pages (physical_to_virtual root) (p * 4096) ((p + n) * 4096) flags t = Done tt t' ∧
    covers F F' p n ∧ grown s t' root kp T T'' F' (img_zeros p n img).
Proof.
  intros Hg H0 Hp Hn0 Hn Hfl. unfold fresh_pages, PAGE_SIZE.
  replace ((p + n) * 4096 - p * 4096) with (n * 4096) by lia. rewrite Z.div_mul by lia.
  destruct (for_up_panic_rule (λ i u, 0 <= i ∧ ∃ T'' F', covers F F' p i ∧ grown s u root kp T T'' F' (img_zeros p i img))
    (Z.to_nat n) 0 (λ k, fresh_page (physical_to_virtual root) (p * 4096 + k * 4096) flags) t)
    as [|(t' & Hrun & _ & T'' & F' & Hc & Hg')].
  - split; [done|]. exists T', F. split; [intros q; split; [lia|done]|]. eapply grown_ext; [|exact Hg].
    intros v. unfold img_zeros. by rewrite decide_False by lia.
  - intros j u Hj (Hj0 & T1 & F1 & Hc & Hg1). rewrite <- Z.mul_add_distr_r.
    destruct (fresh_page_spec s u root kp T T1 F1 _ (p + j) flags Hg1 H0) as [|(f & u' & T2 & Hs & Hg2)]; [lia|done|by left|right].
    exists u'. split; [exact Hs|]. split; [lia|]. exists T2, (<[p + j := f]> F1). split.
    + intros q. destruct (Hc q) as [Hc1 Hc2]. rewrite lookup_insert. split; intros Hq; case_decide; try lia; eauto.
      * apply Hc1. lia.
      * apply Hc2. lia.
    + eapply grown_ext; [|exact Hg2]. intros v. unfold img_zero, img_zeros.
      destruct (Z.eqb_spec (v / 4096) (p + j)); [by rewrite decide_True by lia|]. apply decide_ext. lia.
  - by left.
  - right. rewrite Z2Nat.id in * by lia. eauto 10.
Qed.

(** * Writing a range, page by page *)

(** dst[j] = b(j) for the bytes of one page of the space. *)
Lemma grown_write_bytes s t root kp T T' F img p f i m (body : Z → M vm unit) (g : Z → Z) :
  grown s t root kp T T' F img → F !! p = Some f → 0 <= i → 0 <= m → i + m <= 4096 → page_ok kp ∨ kp = 0 →
  used (frames s) (kp / 4096) = true →
  (∀ j u img', 0 <= j < m → grown s u root kp T T' F img' → body j u = Done tt (Vm (wr8 (f * 4096 + i + j) (g (p * 4096 + i + j)) (mem u)) (frames u) (kernel_pml4 u) (cr3 u))) →
  ∃ t', for_up (Z.to_nat m) 0 body t = Done tt t' ∧ grown s t' root kp T T' F
    (λ v, if decide (p * 4096 + i <= v < p * 4096 + i + m) then u8 (g v) else img v).
Proof.
  intros Hg Hf Hi Hm Him Hkp Hu Hb.
  destruct (for_up_rule (λ n u, grown s u root kp T T' F
    (λ v, if decide (p * 4096 + i <= v < p * 4096 + i + n) then u8 (g v) else img v)) (Z.to_nat m) 0 body t)
    as (t' & Hrun & Hg').
  - eapply grown_ext; [|exact Hg]. intros v. by rewrite decide_False by lia.
  - intros j u Hj Hgu. rewrite (Hb j u _ ltac:(lia) Hgu). eexists. split; [done|].
    pose proof (grown_write s u root kp T T' F _ p f (i + j) [g (p * 4096 + i + j)] Hgu Hf ltac:(lia) ltac:(simpl; lia) Hkp Hu) as Hw.
    rewrite !Z.add_assoc in Hw. eapply grown_ext; [|exact Hw]. intros v. unfold img_write. simpl length.
    destruct (decide (v = p * 4096 + i + j)) as [->|].
    + rewrite !decide_True by lia. by replace (p * 4096 + i + j - (p * 4096 + i + j)) with 0 by lia.
    + rewrite (decide_False (P := _ <= v < _ + Z.of_nat 1)) by lia. apply decide_ext. lia.
  - exists t'. split; [exact Hrun|]. by rewrite Z2Nat.id in Hg' by lia.
Qed.
