(* ===== verification/UserMemory.v ===== *)
(** Memory behind a pointer: a pointer of the kernel is read and written through
    the direct map, one of a process through the page tables that are loaded
    (architecture/x86_64/paging.c). *)

From S2P Require Import Prelude Phys Paging Space.

(** * Pointers *)

(** The physical address behind a pointer. *)
Definition physical_of (p : Z) : M vm Z :=
  if PHYSICAL_MAP_BASE <=? p then mret (virtual_to_physical p)
  else
    dir ← gets cr3;
    a ← get_physical_in (physical_to_virtual dir) p;
    if a =? 0 then fault else mret a.

Fixpoint write_to (p : Z) (bs : list Z) : M vm unit :=
  match bs with
  | [] => mret tt
  | b :: bs => a ← physical_of p; set_mem (wr8 a b) ;; write_to (p + 1) bs
  end.

Fixpoint read_from (n : nat) (p : Z) : M vm (list Z) :=
  match n with
  | O => mret []
  | S n => a ← physical_of p; b ← gets (λ v, rd8 (mem v) a); bs ← read_from n (p + 1); mret (b :: bs)
  end.

Lemma write_to_kernel bs : ∀ p t, PHYSICAL_MAP_BASE <= p → p + Z.of_nat (length bs) <= 2 ^ 64 →
  write_to p bs t = Done tt (Vm (wr_bytes (p - PHYSICAL_MAP_BASE) bs (mem t)) (frames t) (kernel_pml4 t) (cr3 t)).
Proof.
  induction bs as [|b bs IH]; intros p t Hlo Hhi; [by destruct t|]. cbn [length write_to] in *.
  unfold physical_of, virtual_to_physical. rewrite (proj2 (Z.leb_le _ _)), u64_small by (unfold PHYSICAL_MAP_BASE in *; lia).
  unfold set_mem, modify. run. rewrite IH by lia. cbn [mem frames kernel_pml4 cr3 wr_bytes].
  by replace (p + 1 - PHYSICAL_MAP_BASE) with (p - PHYSICAL_MAP_BASE + 1) by lia.
Qed.

(** * The memory of the caller *)

(** The [n] bytes at [buf] in the address space with the tables [T]. *)
Definition user_bytes (v : vm) (T : gmap (list Z) Z) (buf n : Z) : list Z :=
  (λ i, rd8 (mem v) (translation v T (buf + i))) <$> seqZ 0 n.

(** The space that is loaded maps the [n] bytes at [buf]. *)
Record buffer (v : vm) (root : Z) (T : gmap (list Z) Z) (buf n : Z) : Prop := {
  bu_root : cr3 v = root;
  bu_space : space_wf v root T;
  bu_mapped i : 0 <= i < n → user_addr (buf + i) ∧ translation v T (buf + i) ≠ 0 }.

(** Its bytes may be written: they are no page table's, and each is at an
    address of its own. *)
Record private_buffer (v : vm) (T : gmap (list Z) Z) (buf n : Z) : Prop := {
  pb_tables i q t : 0 <= i < n → T !! q = Some t → translation v T (buf + i) / 4096 ≠ t / 4096;
  pb_apart i j : 0 <= i < n → 0 <= j < n → translation v T (buf + i) = translation v T (buf + j) → i = j }.

Lemma physical_of_user v root T a : cr3 v = root → space_wf v root T → user_addr a → translation v T a ≠ 0 →
  physical_of a v = Done (translation v T a) v.
Proof.
  intros Hr Hwf Ha Ht. unfold physical_of. rewrite (proj2 (Z.leb_gt _ _)) by (unfold user_addr, PHYSICAL_MAP_BASE in *; lia).
  erewrite bind_Done by reflexivity. rewrite Hr. rewrite (bind_Done _ _ _ _ _ (get_physical_in_translation _ _ _ _ Hwf Ha)).
  by rewrite (proj2 (Z.eqb_neq _ 0)).
Qed.

Lemma read_from_user n : ∀ p v root T, buffer v root T p (Z.of_nat n) →
  read_from n p v = Done (user_bytes v T p (Z.of_nat n)) v.
Proof.
  induction n as [|n IH]; intros p v root T Hb; [done|]. pose proof Hb as [Hr Hwf Hm]. cbn [read_from].
  destruct (Hm 0 ltac:(lia)) as [Ha Ht]. rewrite Z.add_0_r in Ha, Ht.
  rewrite (bind_Done _ _ _ _ _ (physical_of_user v root T p Hr Hwf Ha Ht)). erewrite bind_Done by reflexivity.
  assert (Hb' : buffer v root T (p + 1) (Z.of_nat n)).
  { split; [done..|]. intros i Hi. rewrite <- Z.add_assoc. apply Hm. lia. }
  rewrite (bind_Done _ _ _ _ _ (IH _ _ _ _ Hb')). unfold mret, M_ret. f_equal. unfold user_bytes.
  rewrite Nat2Z.inj_succ, (seqZ_cons 0 (Z.succ (Z.of_nat n))) by lia. cbn [fmap list_fmap]. rewrite Z.add_0_r. f_equal.
  rewrite Z.pred_succ, <- (fmap_add_seqZ 1 0), <- list_fmap_compose. apply list_fmap_ext. intros j i _. unfold compose. by rewrite Z.add_assoc.
Qed.

(** Storing a byte off the page tables changes no translation. *)
Lemma store_keeps_space v root T a b : space_wf v root T → (∀ q t, T !! q = Some t → a / 4096 ≠ t / 4096) →
  let v' := Vm (wr8 a b (mem v)) (frames v) (kernel_pml4 v) (cr3 v) in
  space_wf v' root T ∧ ∀ c, translation v' T c = translation v T c.
Proof.
  intros Hwf Ha v'. apply space_frame; [done|done|done|]. intros q t j Hq Hj. destruct (wf_table _ _ _ Hwf _ _ Hq) as (Ht & _ & _).
  apply rd64_ext. intros i Hi. cbn [mem v']. rewrite rd8_wr8. case_decide as E; [|done]. exfalso. apply (Ha q t Hq).
  destruct Ht as [_ Ht]. subst a. Z.div_mod_to_equations. lia.
Qed.

Definition with_memory (m : phys) (v : vm) : vm := Vm m (frames v) (kernel_pml4 v) (cr3 v).

Lemma write_to_user bs : ∀ p v root T, buffer v root T p (Z.of_nat (length bs)) → private_buffer v T p (Z.of_nat (length bs)) →
  ∃ m, write_to p bs v = Done tt (with_memory m v) ∧ space_wf (with_memory m v) root T ∧
    (∀ c, translation (with_memory m v) T c = translation v T c) ∧
    (∀ i b, bs !! i = Some b → rd8 m (translation v T (p + Z.of_nat i)) = u8 b) ∧
    ∀ a, (∀ i, 0 <= i < Z.of_nat (length bs) → a ≠ translation v T (p + i)) → rd8 m a = rd8 (mem v) a.
Proof.
  induction bs as [|b bs IH]; intros p v root T [Hr Hwf Hm] [Ht Ha].
  { exists (mem v). by destruct v. }
  cbn [write_to length] in *. destruct (Hm 0 ltac:(lia)) as [Ha0 Ht0]. rewrite Z.add_0_r in Ha0, Ht0.
  rewrite (bind_Done _ _ _ _ _ (physical_of_user v root T p Hr Hwf Ha0 Ht0)). erewrite bind_Done by reflexivity.
  set (v1 := Vm (wr8 (translation v T p) b (mem v)) (frames v) (kernel_pml4 v) (cr3 v)).
  destruct (store_keeps_space v root T (translation v T p) b Hwf) as [Hwf1 Htr1].
  { intros q t Hq. specialize (Ht 0 q t ltac:(lia) Hq). by rewrite Z.add_0_r in Ht. }
  fold v1 in Hwf1, Htr1.
  assert (Hshift : ∀ i, p + 1 + i = p + (1 + i)) by lia.
  destruct (IH (p + 1) v1 root T) as (m & Hrun & Hwf2 & Htr2 & Hin & Hout).
  - split; [done..|]. intros i Hi. rewrite Htr1, Hshift. apply Hm. lia.
  - split; intros i; rewrite ?Htr1, Hshift; [intros q t Hi; apply Ht; lia|].
    intros j Hi Hj. rewrite !Htr1, Hshift. intros E. specialize (Ha (1 + i) (1 + j) ltac:(lia) ltac:(lia) E). lia.
  - change (set_mem (wr8 (translation v T p) b) v) with (Done tt v1) in *. exists m. split; [exact Hrun|]. split; [exact Hwf2|].
    split; [intros c; by rewrite <- Htr1, <- Htr2|]. split.
    + intros [|i] c Hc; cbn [lookup list_lookup] in Hc.
      * injection Hc as <-. change (Z.of_nat 0) with 0. rewrite Z.add_0_r, Hout; [cbn [mem v1]; by rewrite rd8_wr8, decide_True|].
        intros i Hi E. rewrite Htr1, Hshift in E. specialize (Ha 0 (1 + i) ltac:(lia) ltac:(lia)). rewrite Z.add_0_r in Ha. specialize (Ha E). lia.
      * specialize (Hin i c Hc). rewrite Htr1, Hshift in Hin. by replace (Z.of_nat (S i)) with (1 + Z.of_nat i) by lia.
    + intros a Hne. rewrite Hout.
      * cbn [mem v1]. rewrite rd8_wr8, decide_False; [done|]. specialize (Hne 0 ltac:(lia)). rewrite Z.add_0_r in Hne. congruence.
      * intros i Hi. rewrite Htr1, Hshift. apply Hne. lia.
Qed.

(** What a read puts there is what the caller finds there. *)
Lemma user_bytes_written m v T p bs : Forall is_byte bs → (∀ c, translation (with_memory m v) T c = translation v T c) →
  (∀ i b, bs !! i = Some b → rd8 m (translation v T (p + Z.of_nat i)) = u8 b) →
  user_bytes (with_memory m v) T p (Z.of_nat (length bs)) = bs.
Proof.
  intros Hb Htr Hin. unfold user_bytes. apply list_eq. intros i. rewrite list_lookup_fmap.
  destruct (bs !! i) as [b|] eqn:Hi.
  - pose proof (lookup_lt_Some _ _ _ Hi). rewrite lookup_seqZ_lt by lia. cbn [fmap option_fmap option_map]. rewrite Htr, Z.add_0_l.
    cbn [mem with_memory]. rewrite (Hin _ _ Hi). rewrite list.Forall_forall in Hb. specialize (Hb b (list_elem_of_lookup_2 _ _ _ Hi)).
    by rewrite u8_small by (unfold is_byte in Hb; lia).
  - apply lookup_ge_None in Hi. by rewrite lookup_seqZ_ge by lia.
Qed.

(** ** Parts of a buffer, and a buffer after other stores *)

Lemma buffer_part v root T p n d n' : buffer v root T p n → 0 <= d → d + n' <= n → buffer v root T (p + d) n'.
Proof. intros [H1 H2 H3] Hd Hn. split; [done..|]. intros i Hi. rewrite <- Z.add_assoc. apply H3. lia. Qed.

Lemma private_part v T p n d n' : private_buffer v T p n → 0 <= d → d + n' <= n → private_buffer v T (p + d) n'.
Proof.
  intros [H1 H2] Hd Hn. split; intros i; rewrite <- Z.add_assoc; [intros q t Hi; apply H1; lia|].
  intros j Hi Hj. rewrite <- Z.add_assoc. intros E. specialize (H2 (d + i) (d + j) ltac:(lia) ltac:(lia) E). lia.
Qed.

Lemma buffer_moved v v' root T p n : buffer v root T p n → cr3 v' = cr3 v → space_wf v' root T →
  (∀ c, translation v' T c = translation v T c) → buffer v' root T p n.
Proof. intros [H1 H2 H3] Hc Hwf Htr. split; [congruence|done|]. intros i Hi. rewrite Htr. by apply H3. Qed.

Lemma private_moved v v' T p n : private_buffer v T p n → (∀ c, translation v' T c = translation v T c) → private_buffer v' T p n.
Proof.
  intros [H1 H2] Htr. split; [intros i q t; rewrite Htr; apply H1|]. intros i j. rewrite !Htr. apply H2.
Qed.

(** Memory that differs off the page tables is the same address space. *)
Lemma same_tables_space v m root T : space_wf v root T →
  (∀ a q t, rd8 m a ≠ rd8 (mem v) a → T !! q = Some t → a / 4096 ≠ t / 4096) →
  space_wf (with_memory m v) root T ∧ ∀ c, translation (with_memory m v) T c = translation v T c.
Proof.
  intros Hwf Hm. apply space_frame; [done|done|done|]. intros q t j Hq Hj. destruct (wf_table _ _ _ Hwf _ _ Hq) as ((_ & Ht) & _ & _).
  apply rd64_ext. intros i Hi. cbn [mem with_memory]. destruct (decide (rd8 m (t + 8 * j + i) = rd8 (mem v) (t + 8 * j + i))) as [|Hne]; [done|].
  exfalso. apply (Hm _ _ _ Hne Hq). Z.div_mod_to_equations. lia.
Qed.

Lemma user_bytes_same v m T p n : (∀ c, translation (with_memory m v) T c = translation v T c) →
  (∀ i, 0 <= i < n → rd8 m (translation v T (p + i)) = rd8 (mem v) (translation v T (p + i))) →
  user_bytes (with_memory m v) T p n = user_bytes v T p n.
Proof.
  intros Htr Hm. apply list_fmap_ext. intros j i Hi. apply list_elem_of_lookup_2, elem_of_seqZ in Hi. rewrite Htr. apply Hm. lia.
Qed.
