(* ===== verification/Sched.v ===== *)
(** Processes and the scheduler: kernel/processes/scheduler.c, the process
    states of process.h and the block/wake/exit operations of process.c.

    A process_t is a record at an address of the kernel heap; a pointer that
    holds no record is null or dangling and using it is a fault. The state is
    the file's globals: the run queue, the process table, the current process,
    the timer. A context switch is recorded, not performed: [switches] lists
    the switch_context(old, new) calls. Log output is not modelled. *)

From S2P Require Import Prelude.

Inductive process_state_t :=
  | PROCESS_READY | PROCESS_RUNNING | PROCESS_BLOCKED | PROCESS_DEAD | PROCESS_SLEEPING.

#[export] Instance process_state_eq_dec : EqDecision process_state_t.
Proof. solve_decision. Defined.

Record cpu_state_t := Cpu {
  rax : Z; rbx : Z; rcx : Z; rdx : Z; rsi : Z; rdi : Z; rbp : Z; rsp : Z; rip : Z; rflags : Z;
  seg_cs : Z; seg_ds : Z; seg_ss : Z; r12 : Z; r13 : Z; r14 : Z; r15 : Z }.

Record process_t := Proc {
  p_pid : Z; p_name : list Z; p_state : process_state_t; p_cpu : cpu_state_t; p_stack : Z;
  p_stack_top : Z; p_page_dir : Z; p_time_slice : Z; p_ticks_remaining : Z; p_next : Z;
  p_user_esp : Z; p_user_eip : Z; p_parent_pid : Z; p_exit_code : Z; 
  p_is_user : bool; p_heap_start : Z; p_heap_end : Z; p_wake_at_tick : Z }.

Definition set_state (v : process_state_t) (p : process_t) : process_t :=
  Proc (p_pid p) (p_name p) v (p_cpu p) (p_stack p) (p_stack_top p) (p_page_dir p) (p_time_slice p) (p_ticks_remaining p) (p_next p) (p_user_esp p) (p_user_eip p) (p_parent_pid p) (p_exit_code p) (p_is_user p) (p_heap_start p) (p_heap_end p) (p_wake_at_tick p).
Definition set_cpu (v : cpu_state_t) (p : process_t) : process_t :=
  Proc (p_pid p) (p_name p) (p_state p) v (p_stack p) (p_stack_top p) (p_page_dir p) (p_time_slice p) (p_ticks_remaining p) (p_next p) (p_user_esp p) (p_user_eip p) (p_parent_pid p) (p_exit_code p) (p_is_user p) (p_heap_start p) (p_heap_end p) (p_wake_at_tick p).
Definition set_stack (v : Z) (p : process_t) : process_t :=
  Proc (p_pid p) (p_name p) (p_state p) (p_cpu p) v (p_stack_top p) (p_page_dir p) (p_time_slice p) (p_ticks_remaining p) (p_next p) (p_user_esp p) (p_user_eip p) (p_parent_pid p) (p_exit_code p) (p_is_user p) (p_heap_start p) (p_heap_end p) (p_wake_at_tick p).
Definition set_stack_top (v : Z) (p : process_t) : process_t :=
  Proc (p_pid p) (p_name p) (p_state p) (p_cpu p) (p_stack p) v (p_page_dir p) (p_time_slice p) (p_ticks_remaining p) (p_next p) (p_user_esp p) (p_user_eip p) (p_parent_pid p) (p_exit_code p) (p_is_user p) (p_heap_start p) (p_heap_end p) (p_wake_at_tick p).
Definition set_page_dir (v : Z) (p : process_t) : process_t :=
  Proc (p_pid p) (p_name p) (p_state p) (p_cpu p) (p_stack p) (p_stack_top p) v (p_time_slice p) (p_ticks_remaining p) (p_next p) (p_user_esp p) (p_user_eip p) (p_parent_pid p) (p_exit_code p) (p_is_user p) (p_heap_start p) (p_heap_end p) (p_wake_at_tick p).
Definition set_ticks_remaining (v : Z) (p : process_t) : process_t :=
  Proc (p_pid p) (p_name p) (p_state p) (p_cpu p) (p_stack p) (p_stack_top p) (p_page_dir p) (p_time_slice p) v (p_next p) (p_user_esp p) (p_user_eip p) (p_parent_pid p) (p_exit_code p) (p_is_user p) (p_heap_start p) (p_heap_end p) (p_wake_at_tick p).
Definition set_next (v : Z) (p : process_t) : process_t :=
  Proc (p_pid p) (p_name p) (p_state p) (p_cpu p) (p_stack p) (p_stack_top p) (p_page_dir p) (p_time_slice p) (p_ticks_remaining p) v (p_user_esp p) (p_user_eip p) (p_parent_pid p) (p_exit_code p) (p_is_user p) (p_heap_start p) (p_heap_end p) (p_wake_at_tick p).
Definition set_user_esp (v : Z) (p : process_t) : process_t :=
  Proc (p_pid p) (p_name p) (p_state p) (p_cpu p) (p_stack p) (p_stack_top p) (p_page_dir p) (p_time_slice p) (p_ticks_remaining p) (p_next p) v (p_user_eip p) (p_parent_pid p) (p_exit_code p) (p_is_user p) (p_heap_start p) (p_heap_end p) (p_wake_at_tick p).
Definition set_user_eip (v : Z) (p : process_t) : process_t :=
  Proc (p_pid p) (p_name p) (p_state p) (p_cpu p) (p_stack p) (p_stack_top p) (p_page_dir p) (p_time_slice p) (p_ticks_remaining p) (p_next p) (p_user_esp p) v (p_parent_pid p) (p_exit_code p) (p_is_user p) (p_heap_start p) (p_heap_end p) (p_wake_at_tick p).
Definition set_parent_pid (v : Z) (p : process_t) : process_t :=
  Proc (p_pid p) (p_name p) (p_state p) (p_cpu p) (p_stack p) (p_stack_top p) (p_page_dir p) (p_time_slice p) (p_ticks_remaining p) (p_next p) (p_user_esp p) (p_user_eip p) v (p_exit_code p) (p_is_user p) (p_heap_start p) (p_heap_end p) (p_wake_at_tick p).
Definition set_exit_code (v : Z) (p : process_t) : process_t :=
  Proc (p_pid p) (p_name p) (p_state p) (p_cpu p) (p_stack p) (p_stack_top p) (p_page_dir p) (p_time_slice p) (p_ticks_remaining p) (p_next p) (p_user_esp p) (p_user_eip p) (p_parent_pid p) v (p_is_user p) (p_heap_start p) (p_heap_end p) (p_wake_at_tick p).
Definition set_is_user (v : bool) (p : process_t) : process_t :=
  Proc (p_pid p) (p_name p) (p_state p) (p_cpu p) (p_stack p) (p_stack_top p) (p_page_dir p) (p_time_slice p) (p_ticks_remaining p) (p_next p) (p_user_esp p) (p_user_eip p) (p_parent_pid p) (p_exit_code p) v (p_heap_start p) (p_heap_end p) (p_wake_at_tick p).
Definition set_heap_end (v : Z) (p : process_t) : process_t :=
  Proc (p_pid p) (p_name p) (p_state p) (p_cpu p) (p_stack p) (p_stack_top p) (p_page_dir p) (p_time_slice p) (p_ticks_remaining p) (p_next p) (p_user_esp p) (p_user_eip p) (p_parent_pid p) (p_exit_code p) (p_is_user p) (p_heap_start p) v (p_wake_at_tick p).
Definition set_heap_start (v : Z) (p : process_t) : process_t :=
  Proc (p_pid p) (p_name p) (p_state p) (p_cpu p) (p_stack p) (p_stack_top p) (p_page_dir p) (p_time_slice p) (p_ticks_remaining p) (p_next p) (p_user_esp p) (p_user_eip p) (p_parent_pid p) (p_exit_code p) (p_is_user p) v (p_heap_end p) (p_wake_at_tick p).
Definition set_wake_at_tick (v : Z) (p : process_t) : process_t :=
  Proc (p_pid p) (p_name p) (p_state p) (p_cpu p) (p_stack p) (p_stack_top p) (p_page_dir p) (p_time_slice p) (p_ticks_remaining p) (p_next p) (p_user_esp p) (p_user_eip p) (p_parent_pid p) (p_exit_code p) (p_is_user p) (p_heap_start p) (p_heap_end p) v.
Definition set_pid (v : Z) (p : process_t) : process_t :=
  Proc v (p_name p) (p_state p) (p_cpu p) (p_stack p) (p_stack_top p) (p_page_dir p) (p_time_slice p) (p_ticks_remaining p) (p_next p) (p_user_esp p) (p_user_eip p) (p_parent_pid p) (p_exit_code p) (p_is_user p) (p_heap_start p) (p_heap_end p) (p_wake_at_tick p).
Definition set_name (v : list Z) (p : process_t) : process_t :=
  Proc (p_pid p) v (p_state p) (p_cpu p) (p_stack p) (p_stack_top p) (p_page_dir p) (p_time_slice p) (p_ticks_remaining p) (p_next p) (p_user_esp p) (p_user_eip p) (p_parent_pid p) (p_exit_code p) (p_is_user p) (p_heap_start p) (p_heap_end p) (p_wake_at_tick p).

(** * State *)

Definition MAX_PROCESSES : nat := 16.

Record sched := Sched {
  procs : gmap Z process_t;      (* process_t objects, by address *)
  process_table : list Z;
  current_process : Z;
  next_pid : Z;
  run_queue_head : Z;
  run_queue_tail : Z;
  timer_ticks : Z;
  tss_rsp0 : Z;
  switches : list (Z * Z) }.

Definition with_procs (f : gmap Z process_t → gmap Z process_t) (s : sched) : sched :=
  Sched (f (procs s)) (process_table s) (current_process s) (next_pid s) (run_queue_head s)
    (run_queue_tail s) (timer_ticks s) (tss_rsp0 s) (switches s).
Definition with_queue (h t : Z) (s : sched) : sched :=
  Sched (procs s) (process_table s) (current_process s) (next_pid s) h t
    (timer_ticks s) (tss_rsp0 s) (switches s).
Definition with_current (c : Z) (s : sched) : sched :=
  Sched (procs s) (process_table s) c (next_pid s) (run_queue_head s) (run_queue_tail s)
    (timer_ticks s) (tss_rsp0 s) (switches s).
Definition with_tss (r : Z) (s : sched) : sched :=
  Sched (procs s) (process_table s) (current_process s) (next_pid s) (run_queue_head s)
    (run_queue_tail s) (timer_ticks s) r (switches s).
Definition with_switch (o n : Z) (s : sched) : sched :=
  Sched (procs s) (process_table s) (current_process s) (next_pid s) (run_queue_head s)
    (run_queue_tail s) (timer_ticks s) (tss_rsp0 s) (switches s ++ [(o, n)]).
Definition with_ticks (t : Z) (s : sched) : sched :=
  Sched (procs s) (process_table s) (current_process s) (next_pid s) (run_queue_head s)
    (run_queue_tail s) t (tss_rsp0 s) (switches s).
Definition with_table (f : list Z → list Z) (s : sched) : sched :=
  Sched (procs s) (f (process_table s)) (current_process s) (next_pid s) (run_queue_head s)
    (run_queue_tail s) (timer_ticks s) (tss_rsp0 s) (switches s).
Definition with_next_pid (n : Z) (s : sched) : sched :=
  Sched (procs s) (process_table s) (current_process s) n (run_queue_head s)
    (run_queue_tail s) (timer_ticks s) (tss_rsp0 s) (switches s).

(** Reading and writing through a process pointer. *)
Definition deref (p : Z) : M sched process_t := λ s,
  match procs s !! p with Some x => Done x s | None => Fault end.

Definition update (p : Z) (f : process_t → process_t) : M sched unit := λ s,
  match procs s !! p with
  | Some x => Done tt (with_procs <[p := f x]> s)
  | None => Fault
  end.

(** * Run queue *)

Definition scheduler_init : M sched unit := modify (with_queue 0 0).

Definition scheduler_add (proc : Z) : M sched unit :=
  if proc =? 0 then kpanic "scheduler: null process!"
  else
    update proc (set_state PROCESS_READY) ;;
    update proc (set_next 0) ;;
    s ← get;
    if run_queue_head s =? 0 then
      modify (with_queue proc proc) ;;
      update proc (set_next proc)
    else
      update (run_queue_tail s) (set_next proc) ;;
      update proc (set_next (run_queue_head s)) ;;
      modify (with_queue (run_queue_head s) proc).

(** The search for the node before [proc]; at most MAX_PROCESSES steps. *)
Fixpoint remove_loop (n : nat) (proc prev node : Z) : M sched unit :=
  match n with
  | O => mret tt
  | S n =>
      x ← deref node;
      if node =? proc then
        update prev (set_next (p_next x)) ;;
        s ← get;
        x ← deref node;
        (if run_queue_head s =? proc then modify (with_queue (p_next x) (run_queue_tail s)) else mret tt) ;;
        s ← get;
        (if run_queue_tail s =? proc then modify (with_queue (run_queue_head s) prev) else mret tt)
      else remove_loop n proc node (p_next x)
  end.

Definition scheduler_remove (proc : Z) : M sched unit :=
  s ← get;
  if (proc =? 0) || (run_queue_head s =? 0) then mret tt
  else if (run_queue_head s =? proc) && (run_queue_head s =? run_queue_tail s) then
    modify (with_queue 0 0)
  else remove_loop MAX_PROCESSES proc (run_queue_tail s) (run_queue_head s).

(** * The timer tick *)

Definition TIMER_FREQUENCY : Z := 100.

Definition timer_get_ticks : M sched Z := gets timer_ticks.
Definition timer_get_seconds : M sched Z := gets (λ s, timer_ticks s / TIMER_FREQUENCY).

(** The tick counter of timer_handler(), a uint32_t. *)
Definition timer_handler : M sched unit := modify (λ s, with_ticks (u32 (timer_ticks s + 1)) s).

Definition scheduler_wake_sleepers : M sched unit :=
  now ← timer_get_ticks;
  for_up MAX_PROCESSES 0 (λ i,
    t ← gets process_table;
    proc ← access (t !! Z.to_nat i);
    if proc =? 0 then mret tt
    else
      x ← deref proc;
      if bool_decide (p_state x = PROCESS_SLEEPING) && (p_wake_at_tick x <=? now)
      then update proc (set_state PROCESS_READY) else mret tt).

(** The walk for the next process to run. *)
Fixpoint pick_loop (n : nat) (old new : Z) : M sched Z :=
  match n with
  | O => mret new
  | S n =>
      x ← deref new;
      if bool_decide (p_state x = PROCESS_READY)
         || (bool_decide (p_state x = PROCESS_RUNNING) && negb (new =? old)) then mret new
      else if new =? old then mret new
      else pick_loop n old (p_next x)
  end.

Definition reset_slice (p : Z) : M sched unit :=
  x ← deref p; update p (set_ticks_remaining (p_time_slice x)).

Definition switch_to (old new : Z) : M sched unit :=
  reset_slice new ;;
  x ← deref old;
  update old (set_state (if bool_decide (p_state x = PROCESS_RUNNING) then PROCESS_READY else p_state x)) ;;
  update new (set_state PROCESS_RUNNING) ;;
  modify (with_current new) ;;
  x ← deref new;
  modify (with_tss (p_stack_top x)) ;;
  modify (with_switch old new).

Definition scheduler_tick : M sched unit :=
  scheduler_wake_sleepers ;;
  s ← get;
  if current_process s =? 0 then mret tt
  else if run_queue_head s =? 0 then mret tt
  else
    let cur := current_process s in
    update cur (λ x, set_ticks_remaining (i32 (p_ticks_remaining x - 1)) x) ;;
    x ← deref cur;
    if (0 <? p_ticks_remaining x) && negb (p_pid x =? 0) && bool_decide (p_state x = PROCESS_RUNNING)
    then mret tt
    else
      let old := cur in
      let new := p_next x in
      (if new =? 0 then kpanic "scheduler_tick: corrupted run queue - null next pointer!" else mret tt) ;;
      new ← pick_loop MAX_PROCESSES old new;
      y ← deref new;
      if negb (bool_decide (p_state y = PROCESS_READY)) && negb (bool_decide (p_state y = PROCESS_RUNNING))
      then reset_slice cur
      else if new =? old then reset_slice cur
      else switch_to old new.

Definition scheduler_yield : M sched unit :=
  s ← get;
  if current_process s =? 0 then mret tt
  else
    update (current_process s) (set_ticks_remaining 0) ;;
    scheduler_tick.

(** The state scheduler_start() leaves; it then jumps into the process. *)
Definition scheduler_start : M sched unit :=
  s ← get;
  if run_queue_head s =? 0 then kpanic "Scheduler: no process to run!"
  else
    modify (with_current (run_queue_head s)) ;;
    update (run_queue_head s) (set_state PROCESS_RUNNING) ;;
    reset_slice (run_queue_head s).

(** irq_handler() for IRQ0. *)
Definition timer_irq : M sched unit := timer_handler ;; scheduler_tick.

(** * process.c: block, wake, exit *)

Definition process_block (proc : Z) : M sched unit :=
  if proc =? 0 then mret tt else update proc (set_state PROCESS_BLOCKED).

Definition process_wake (proc : Z) : M sched unit :=
  if proc =? 0 then mret tt
  else
    x ← deref proc;
    if negb (bool_decide (p_state x = PROCESS_BLOCKED)) then mret tt
    else update proc (set_state PROCESS_READY).

Definition process_exit (process : Z) : M sched unit :=
  if process =? 0 then mret tt else update process (set_state PROCESS_DEAD).

(** process_init(): an empty table. *)
Definition process_init : M sched unit :=
  for_up MAX_PROCESSES 0 (λ i, modify (with_table <[Z.to_nat i := 0]>)) ;;
  modify (with_next_pid 0) ;;
  modify (with_current 0).

(** * Rings

    [chain m l e]: following the next pointers through the list [l] ends at
    [e]. The run queue is a chain that ends where it starts. *)

Definition nxt (l : list Z) (e : Z) : Z := match l with [] => e | p :: _ => p end.

Fixpoint chain (m : gmap Z process_t) (l : list Z) (e : Z) : Prop :=
  match l with
  | [] => True
  | p :: l => (∃ x, m !! p = Some x ∧ p_next x = nxt l e) ∧ chain m l e
  end.

Record queue (s : sched) (l : list Z) : Prop := {
  queue_nodup : NoDup l;
  queue_nonnull : 0 ∉ l;
  queue_head : run_queue_head s = nxt l 0;
  queue_tail : run_queue_tail s = nxt (reverse l) 0;
  queue_chain : chain (procs s) l (nxt l 0) }.

Lemma nxt_app l1 l2 e : nxt (l1 ++ l2) e = nxt l1 (nxt l2 e).
Proof. by destruct l1. Qed.

Lemma ring_chain_app m l1 l2 e : chain m (l1 ++ l2) e ↔ chain m l1 (nxt l2 e) ∧ chain m l2 e.
Proof.
  induction l1 as [|p l1 IH]; simpl; [tauto|]. rewrite IH, nxt_app. tauto.
Qed.

(** A chain depends on the next pointers of its members only. *)
Lemma ring_chain_frame m m' l e :
  (∀ p x, p ∈ l → m !! p = Some x → ∃ x', m' !! p = Some x' ∧ p_next x' = p_next x) →
  chain m l e → chain m' l e.
Proof.
  induction l as [|p l IH]; intros Hm; simpl; [done|]. intros [(x & Hx & Hn) Hc]. split.
  - destruct (Hm p x) as (x' & Hx' & Hn'); [by left|done|]. exists x'. split; [done|congruence].
  - apply IH; [|done]. intros q y Hq. apply Hm. by right.
Qed.

Lemma chain_insert m l e p x : p ∉ l → chain m l e → chain (<[p := x]> m) l e.
Proof.
  intros Hp. apply ring_chain_frame. intros q y Hq Hy. exists y. split; [|done].
  rewrite lookup_insert_ne; [done|]. intros ->. done.
Qed.

Lemma chain_elem m l e p : chain m l e → p ∈ l → ∃ x, m !! p = Some x.
Proof.
  induction l as [|q l IH]; intros Hc Hp; [by apply not_elem_of_nil in Hp|].
  destruct Hc as [(x & Hx & _) Hc]. apply elem_of_cons in Hp as [->|Hp]; [by exists x|by apply IH].
Qed.

Lemma chain_rotate m l1 l2 : chain m (l1 ++ l2) (nxt (l1 ++ l2) 0) → chain m (l2 ++ l1) (nxt (l2 ++ l1) 0).
Proof.
  rewrite !ring_chain_app, !nxt_app. intros [H1 H2]. split.
  - destruct l1; [done|]. simpl in *. by destruct l2.
  - destruct l2; [by destruct l1|done].
Qed.

(** ** Effects of the primitive operations *)

Lemma deref_Done p x s : procs s !! p = Some x → deref p s = Done x s.
Proof. unfold deref. by intros ->. Qed.

Lemma update_Done p f x s : procs s !! p = Some x → update p f s = Done tt (with_procs <[p := f x]> s).
Proof. unfold update. by intros ->. Qed.

(** ** scheduler_add *)

Lemma set_next_id x : set_next (p_next x) x = x.
Proof. by destruct x. Qed.

Lemma queue_add s l p x : queue s l → p ∉ l → p ≠ 0 → procs s !! p = Some x →
  ∃ s', scheduler_add p s = Done tt s' ∧ queue s' (l ++ [p]) ∧
    (∃ n, procs s' !! p = Some (set_next n (set_state PROCESS_READY x))) ∧
    (∀ q y, q ≠ p → procs s !! q = Some y → ∃ n, procs s' !! q = Some (set_next n y)) ∧
    (process_table s' = process_table s ∧ current_process s' = current_process s ∧ next_pid s' = next_pid s) ∧
    ∀ q, q ≠ p → procs s !! q = None → procs s' !! q = None.
Proof.
  intros [Hnd Hnz Hh Ht Hc] Hp Hp0 Hx. unfold scheduler_add. rewrite (proj2 (Z.eqb_neq p 0)) by done.
  rewrite (bind_Done _ _ _ _ _ (update_Done p _ x s Hx)).
  set (s1 := with_procs _ s).
  assert (H1 : procs s1 !! p = Some (set_state PROCESS_READY x)) by (apply lookup_insert_eq).
  rewrite (bind_Done _ _ _ _ _ (update_Done p _ _ s1 H1)).
  set (s2 := with_procs _ s1). unfold get. run.
  assert (H2 : procs s2 !! p = Some (set_next 0 (set_state PROCESS_READY x))) by (apply lookup_insert_eq).
  assert (Hoth : ∀ q, q ≠ p → procs s2 !! q = procs s !! q).
  { intros q Hq. cbn. by rewrite !lookup_insert_ne. }
  change (run_queue_head s2) with (run_queue_head s). change (run_queue_tail s2) with (run_queue_tail s).
  rewrite Hh. destruct (decide (l = [])) as [->|Hl].
  - cbn [nxt]. rewrite Z.eqb_refl. unfold update at 1. cbn [with_queue procs]. rewrite H2.
    eexists. split; [done|]. split; [|split; [|split; [|split; [by cbn|]]]].
    + split; cbn; [apply NoDup_singleton|set_solver|done|done|].
      split; [|done]. eexists. by rewrite lookup_insert_eq.
    + cbn. eexists. by rewrite lookup_insert_eq.
    + intros q y Hq Hy. exists (p_next y). cbn. rewrite lookup_insert_ne, Hoth by done. by rewrite set_next_id.
    + intros q Hq Hn. cbn. by rewrite lookup_insert_ne, Hoth by done.
  - destruct (exists_last Hl) as (l0 & t & ->). rewrite reverse_snoc in Ht. cbn in Ht. rewrite Ht.
    assert (Hht : nxt (l0 ++ [t]) 0 ∈ l0 ++ [t]) by (destruct l0; by left).
    rewrite (proj2 (Z.eqb_neq _ 0)) by (intros H0; rewrite H0 in Hht; done).
    assert (Htp : t ≠ p) by (intros ->; apply Hp; set_solver).
    destruct (chain_elem _ _ _ t Hc) as (y & Hy); [set_solver|].
    assert (Hy2 : procs s2 !! t = Some y) by (by rewrite Hoth).
    unfold update. rewrite Hy2. cbn [with_procs procs]. rewrite lookup_insert_ne, H2 by done.
    eexists. split; [done|].
    assert (Hnd' : NoDup (l0 ++ [t])) by done. apply list.NoDup_app in Hnd' as (Hnd0 & Hdis & _).
    assert (Ht0 : t ∉ l0) by (intros H0; apply (Hdis t H0); set_solver).
    set (h := nxt (l0 ++ [t]) 0) in *. split; [|split; [|split; [|split; [by cbn|]]]].
    + split; cbn.
      * apply list.NoDup_app. split; [done|]. split; [|apply NoDup_singleton].
        intros q Hq Hqp%list_elem_of_singleton. by subst q.
      * set_solver.
      * by rewrite nxt_app; destruct l0.
      * by rewrite reverse_snoc.
      * replace (nxt ((l0 ++ [t]) ++ [p]) 0) with h by (unfold h; destruct l0; done).
        apply ring_chain_app. split; [|split; [|done]].
        -- apply chain_insert; [done|]. apply ring_chain_app in Hc as [Hc0 _]. apply ring_chain_app. split.
           ++ apply chain_insert; [done|]. apply (ring_chain_frame (procs s)); [|exact Hc0].
              intros q z Hq Hz. exists z. split; [|done].
              rewrite <- Hz. apply Hoth. intros ->. apply Hp. set_solver.
           ++ split; [|done]. eexists. by rewrite lookup_insert_eq.
        -- eexists. by rewrite lookup_insert_eq.
    + eexists. cbn. by rewrite lookup_insert_eq.
    + intros q z Hq Hz. cbn. rewrite lookup_insert_ne by done. rewrite lookup_insert.
      case_decide as Hqt; [|rewrite Hoth by done; exists (p_next z); by rewrite set_next_id].
      subst q. assert (z = y) as -> by congruence. by eexists.
    + intros q Hq Hn. cbn. rewrite !lookup_insert_ne by (done || by intros ->; congruence). exact Hn.
Qed.

#[local] Arguments reverse {_} _ : simpl never.

(** ** scheduler_remove *)

(** What the loop does when it reaches the node. *)
Definition unlink (proc prev : Z) : M sched unit :=
  x ← deref proc;
  update prev (set_next (p_next x)) ;;
  s ← get;
  x ← deref proc;
  (if run_queue_head s =? proc then modify (with_queue (p_next x) (run_queue_tail s)) else mret tt) ;;
  s ← get;
  (if run_queue_tail s =? proc then modify (with_queue (run_queue_head s) prev) else mret tt).

Lemma remove_loop_walk s p l2 e : ∀ l1 n prev,
  chain (procs s) (l1 ++ p :: l2) e → p ∉ l1 → (length l1 < n)%nat →
  remove_loop n p prev (nxt (l1 ++ [p]) 0) s = unlink p (nxt (reverse l1) prev) s.
Proof.
  induction l1 as [|q l1 IH]; intros n prev Hc Hp Hn; (destruct n as [|n]; [simpl in Hn; lia|]).
  - cbn [app nxt remove_loop reverse]. destruct Hc as [(x & Hx & _) _].
    rewrite (bind_Done _ _ _ _ _ (deref_Done _ _ _ Hx)), Z.eqb_refl.
    unfold unlink. rewrite (bind_Done _ _ _ _ _ (deref_Done _ _ _ Hx)). done.
  - destruct Hc as [(x & Hx & Hnx) Hc]. apply not_elem_of_cons in Hp as [Hpq Hp].
    cbn [app nxt remove_loop]. rewrite (bind_Done _ _ _ _ _ (deref_Done _ _ _ Hx)).
    rewrite (proj2 (Z.eqb_neq q p)) by done. rewrite reverse_cons, nxt_app. cbn [nxt].
    rewrite <- (IH n q) by (done || (simpl in Hn; lia)). f_equal. rewrite Hnx.
    fold (app l1 (p :: l2)). by destruct l1.
Qed.

(** Without the node, at most MAX_PROCESSES steps change nothing. *)
Lemma remove_loop_miss s p l : chain (procs s) l (nxt l 0) → p ∉ l → ∀ n prev q, q ∈ l →
  remove_loop n p prev q s = Done tt s.
Proof.
  intros Hc Hp. induction n as [|n IH]; intros prev q Hq; [done|]. cbn [remove_loop].
  destruct (chain_elem _ _ _ q Hc Hq) as [x Hx]. rewrite (bind_Done _ _ _ _ _ (deref_Done _ _ _ Hx)).
  rewrite (proj2 (Z.eqb_neq q p)) by (intros ->; done). apply IH.
  apply list_elem_of_split in Hq as (l1 & l2 & ->). apply ring_chain_app in Hc as [_ [(y & Hy & Hn) _]].
  assert (y = x) as -> by congruence. rewrite Hn. destruct l2 as [|r l2]; [|set_solver].
  cbn. destruct l1; set_solver.
Qed.

(** Only next pointers change, and no process appears or disappears. *)
Definition relinked (s s' : sched) : Prop :=
  (∀ q y, procs s !! q = Some y → ∃ n, procs s' !! q = Some (set_next n y)) ∧
  (∀ q, procs s !! q = None → procs s' !! q = None) ∧
  process_table s' = process_table s ∧ current_process s' = current_process s ∧
  next_pid s' = next_pid s.

Lemma relinked_update s q y n : procs s !! q = Some y →
  relinked s (with_procs <[q := set_next n y]> s).
Proof.
  intros Hy. split_and!; try done; cbn.
  - intros r z Hz. rewrite lookup_insert. case_decide; [|exists (p_next z); by rewrite set_next_id].
    exists n. congruence.
  - intros r Hr. rewrite lookup_insert_ne; [done|]. intros ->. congruence.
Qed.

(** Replacing the last next pointer of a chain. *)
Lemma chain_last m l t y e n : chain m (l ++ [t]) e → NoDup (l ++ [t]) → m !! t = Some y →
  chain (<[t := set_next n y]> m) (l ++ [t]) n.
Proof.
  intros Hc Hnd Hy. apply list.NoDup_app in Hnd as (_ & Hd & _).
  apply ring_chain_app in Hc as [Hc _]. apply ring_chain_app. split.
  - apply chain_insert; [|done]. intros H. apply (Hd t H). by left.
  - split; [|done]. eexists. by rewrite lookup_insert_eq.
Qed.

Lemma unlink_first s p l t : queue s (p :: l ++ [t]) → p ∉ l ++ [t] →
  ∃ s', unlink p t s = Done tt s' ∧ queue s' (l ++ [t]) ∧ relinked s s'.
Proof.
  intros [Hnd Hnz Hh Ht Hc] Hp. destruct Hc as [(x & Hx & Hn) Hc].
  assert (Htp : t ≠ p) by (intros ->; set_solver).
  destruct (chain_elem _ _ _ t Hc) as [y Hy]; [set_solver|].
  unfold unlink. rewrite (bind_Done _ _ _ _ _ (deref_Done _ _ _ Hx)).
  rewrite (bind_Done _ _ _ _ _ (update_Done t _ _ _ Hy)). unfold get. run.
  rewrite (deref_Done p x) by (cbn; by rewrite lookup_insert_ne). cbn [run_queue_head run_queue_tail with_procs].
  rewrite Hh. cbn [nxt]. rewrite Z.eqb_refl. cbn [run_queue_head run_queue_tail with_procs with_queue].
  rewrite Ht, reverse_cons, reverse_snoc. cbn [app nxt]. rewrite (proj2 (Z.eqb_neq t p)) by done.
  eexists. split; [done|]. split; [|by apply relinked_update].
  apply list.NoDup_cons in Hnd as [_ Hnd]. split; cbn.
  - done.
  - set_solver.
  - rewrite Hn. by destruct l.
  - by rewrite reverse_snoc.
  - rewrite Hn. replace (nxt (l ++ [t]) (nxt (p :: l ++ [t]) 0)) with (nxt (l ++ [t]) 0) by (by destruct l).
    by eapply chain_last.
Qed.

Lemma unlink_later s l q p l2 : queue s ((l ++ [q]) ++ p :: l2) →
  ∃ s', unlink p q s = Done tt s' ∧ queue s' ((l ++ [q]) ++ l2) ∧ relinked s s'.
Proof.
  intros [Hnd Hnz Hh Ht Hc]. pose proof Hc as Hc0. apply ring_chain_app in Hc0 as [Hc1 [(x & Hx & Hn) Hc2]].
  apply list.NoDup_app in Hnd as (Hnd1 & Hdis & [Hp2 Hnd2]%list.NoDup_cons).
  assert (Hqp : q ≠ p) by (intros ->; apply (Hdis p); [set_solver|by left]).
  assert (Hql2 : q ∉ l2) by (intros H; apply (Hdis q); [set_solver|by right]).
  destruct (chain_elem _ _ _ q Hc1) as [y Hy]; [set_solver|].
  set (h := nxt ((l ++ [q]) ++ p :: l2) 0) in *.
  assert (Hhp : h ≠ p).
  { intros Hhp. apply (Hdis h); [unfold h; destruct l; by left|rewrite Hhp; by left]. }
  unfold unlink. rewrite (bind_Done _ _ _ _ _ (deref_Done _ _ _ Hx)).
  rewrite (bind_Done _ _ _ _ _ (update_Done q _ _ _ Hy)). unfold get. run.
  rewrite (deref_Done p x) by (cbn; by rewrite lookup_insert_ne). cbn [run_queue_head run_queue_tail with_procs].
  rewrite Hh, (proj2 (Z.eqb_neq h p)) by done. cbn [run_queue_head run_queue_tail with_procs].
  assert (Hch : chain (<[q:=set_next (p_next x) y]> (procs s)) ((l ++ [q]) ++ l2) h).
  { apply ring_chain_app. split; [rewrite <- Hn; by eapply chain_last|by apply chain_insert]. }
  assert (Hh' : h = nxt ((l ++ [q]) ++ l2) 0) by (unfold h; by destruct l).
  assert (Hnd' : NoDup ((l ++ [q]) ++ l2)).
  { apply list.NoDup_app. split_and!; [done| |done]. intros r H1 H2. apply (Hdis r H1). by right. }
  assert (Hnz' : 0 ∉ (l ++ [q]) ++ l2) by set_solver.
  destruct (decide (l2 = [])) as [->|Hl2].
  - assert (Htail : nxt (reverse ((l ++ [q]) ++ [p])) 0 = p) by (by rewrite reverse_snoc).
    rewrite Ht, Htail, Z.eqb_refl. rewrite app_nil_r in *.
    eexists. split; [done|]. split; [|by apply relinked_update].
    split; cbn; [done|done|by rewrite Hh|by rewrite reverse_snoc|by rewrite <- Hh'].
  - destruct (exists_last Hl2) as (l3 & t & ->).
    assert (Htail : nxt (reverse ((l ++ [q]) ++ p :: l3 ++ [t])) 0 = t).
    { rewrite (app_comm_cons l3 [t] p), (app_assoc (l ++ [q])), reverse_snoc. done. }
    rewrite Ht, Htail. rewrite (proj2 (Z.eqb_neq t p)) by (intros ->; set_solver).
    eexists. split; [done|]. split; [|by apply relinked_update].
    split; cbn; [done|done|by rewrite Hh| |by rewrite <- Hh'].
    by rewrite Ht, Htail, (app_assoc (l ++ [q])), reverse_snoc.
Qed.

Lemma exists_last_or_nil (l : list Z) : l = [] ∨ ∃ l' t, l = l' ++ [t].
Proof.
  destruct (decide (l = [])) as [->|Hl]; [by left|right]. destruct (exists_last Hl) as (l' & t & ->). eauto.
Qed.

Lemma queue_remove s l1 p l2 : queue s (l1 ++ p :: l2) → (length (l1 ++ p :: l2) <= 16)%nat →
  ∃ s', scheduler_remove p s = Done tt s' ∧ queue s' (l1 ++ l2) ∧
    relinked s s'.
Proof.
  intros Hqueue Hlen. pose proof Hqueue as [Hnd Hnz Hh Ht Hc]. unfold scheduler_remove. unfold get. run.
  assert (Hp0 : p ≠ 0) by (intros ->; set_solver).
  assert (Hheadin : nxt (l1 ++ p :: l2) 0 ∈ l1 ++ p :: l2) by (destruct l1; set_solver).
  rewrite (proj2 (Z.eqb_neq p 0)) by done. cbn [orb].
  rewrite (proj2 (Z.eqb_neq (run_queue_head s) 0)) by (rewrite Hh; intros H0; rewrite H0 in Hheadin; done).
  apply list.NoDup_app in Hnd as (Hnd1 & Hdis & Hnd2). apply list.NoDup_cons in Hnd2 as [Hp2 Hnd2].
  assert (Hp1 : p ∉ l1) by (intros H; apply (Hdis p H); by left).
  assert (Hq : ∀ l, l = l1 ++ l2 → NoDup l ∧ 0 ∉ l).
  { intros l ->. split; [|set_solver]. apply list.NoDup_app. split_and!; [done| |done].
    intros q H1 H2. apply (Hdis q H1). by right. }
  destruct (Hq _ eq_refl) as [Hnd' Hnz']. clear Hq.
  destruct (decide (l1 = [] ∧ l2 = [])) as [[-> ->]|Hne].
  { cbn in *. change (nxt (reverse [p]) 0) with p in *. rewrite Hh, Ht, Z.eqb_refl. cbn. eexists. split; [done|]. split.
    { split; [constructor|set_solver|done|done|done]. }
    split_and!; try done. intros q y Hy. exists (p_next y). by rewrite set_next_id. }
  assert ((run_queue_head s =? p) && (run_queue_head s =? run_queue_tail s) = false) as ->.
  { apply andb_false_iff. destruct l1 as [|a l1]; [right|left].
    - apply Z.eqb_neq. rewrite Hh, Ht. cbn. rewrite reverse_cons.
      destruct (reverse l2) as [|t l] eqn:Hr.
      { apply (f_equal reverse) in Hr. rewrite reverse_involutive in Hr. cbn in Hr. subst l2. tauto. }
      cbn. intros ->. apply Hp2. apply (f_equal reverse) in Hr. rewrite reverse_involutive in Hr. subst l2.
      rewrite reverse_cons. set_solver.
    - apply Z.eqb_neq. rewrite Hh. cbn. intros ->. set_solver. }
  rewrite Hh, nxt_app. change (nxt (p :: l2) 0) with (nxt [p] 0). rewrite <- nxt_app.
  rewrite (remove_loop_walk s p l2 (nxt (l1 ++ p :: l2) 0)) by (done || (rewrite length_app in Hlen; simpl in *; unfold MAX_PROCESSES; lia)).
  destruct (exists_last_or_nil l1) as [->|(l & q & ->)].
  - destruct (exists_last_or_nil l2) as [->|(l & t & ->)]; [tauto|].
    rewrite Ht. cbn [app]. rewrite reverse_nil, reverse_cons, reverse_snoc. cbn [app nxt].
    by apply unlink_first.
  - rewrite reverse_snoc. cbn [nxt]. by apply unlink_later.
Qed.

(** ** Waking sleepers *)

Definition woken (now : Z) (x : process_t) : process_t :=
  if bool_decide (p_state x = PROCESS_SLEEPING) && (p_wake_at_tick x <=? now)
  then set_state PROCESS_READY x else x.

(** The processes after the sleepers of the table whose time has come woke. *)
Definition wake_all (t : list Z) (now : Z) (m : gmap Z process_t) : gmap Z process_t :=
  foldl (λ m p, if p =? 0 then m else alter (woken now) p m) m t.

(** The table has its slots, and they are empty or hold live processes. *)
Definition table_ok (s : sched) : Prop :=
  length (process_table s) = MAX_PROCESSES ∧
  ∀ p, p ∈ process_table s → p ≠ 0 → is_Some (procs s !! p).

Lemma wake_all_lookup t now : ∀ m q, wake_all t now m !! q =
  if decide (q ∈ t ∧ q ≠ 0) then woken now <$> m !! q else m !! q.
Proof.
  assert (Hid : ∀ x, woken now (woken now x) = woken now x).
  { intros x. unfold woken.
    destruct (bool_decide (p_state x = PROCESS_SLEEPING) && (p_wake_at_tick x <=? now)) eqn:H; [done|by rewrite H]. }
  induction t as [|p t IH]; intros m q.
  - rewrite decide_False; [done|]. intros [H _]. by apply not_elem_of_nil in H.
  - unfold wake_all in *. cbn [foldl]. rewrite IH. destruct (Z.eqb_spec p 0) as [->|Hp].
    + apply decide_ext. rewrite elem_of_cons. naive_solver.
    + destruct (decide (q = p)) as [->|Hq].
      * rewrite lookup_alter_eq, (decide_True _ _ (P := p ∈ p :: t ∧ p ≠ 0)) by (split; [by left|done]).
        case_decide; [|done]. destruct (m !! p); simpl; [by rewrite Hid|done].
      * rewrite lookup_alter_ne by done. apply decide_ext. rewrite elem_of_cons. naive_solver.
Qed.

Lemma wake_all_snoc t now m p : wake_all (t ++ [p]) now m =
  if p =? 0 then wake_all t now m else alter (woken now) p (wake_all t now m).
Proof. unfold wake_all. by rewrite foldl_app. Qed.

Lemma wake_sleepers_spec s : table_ok s →
  scheduler_wake_sleepers s = Done tt (with_procs (wake_all (process_table s) (timer_ticks s)) s).
Proof.
  intros [Hlen Hin]. unfold scheduler_wake_sleepers, timer_get_ticks, gets. run.
  set (now := timer_ticks s). set (body := λ i, _).
  destruct (for_up_rule (λ i t, 0 <= i ∧ t = with_procs (wake_all (take (Z.to_nat i) (process_table s)) now) s)
    MAX_PROCESSES 0 body s) as (s' & Hrun & _ & ->).
  - split; [lia|]. by destruct s.
  - intros j t Hj [_ ->]. unfold MAX_PROCESSES in *. subst body. cbn beta. cbn [process_table with_procs].
    destruct (lookup_lt_is_Some_2 (process_table s) (Z.to_nat j)) as [p Hp]; [lia|]. rewrite Hp. run.
    assert (Htake : take (Z.to_nat (j + 1)) (process_table s) = take (Z.to_nat j) (process_table s) ++ [p]).
    { replace (Z.to_nat (j + 1)) with (S (Z.to_nat j)) by lia. by apply take_S_r. }
    rewrite Htake. unfold with_procs at 2. rewrite wake_all_snoc.
    destruct (Z.eqb_spec p 0) as [->|Hp0]; [eexists; split; [done|split; [lia|done]]|].
    destruct (Hin p) as [x Hx]; [by eapply list_elem_of_lookup_2|done|].
    assert (Hex : ∃ y, wake_all (take (Z.to_nat j) (process_table s)) now (procs s) !! p = Some y).
    { rewrite wake_all_lookup, Hx. case_decide; simpl; eauto. }
    destruct Hex as [y Hy]. unfold deref. cbn [procs with_procs]. rewrite Hy. unfold update. cbn [procs with_procs].
    assert (Halt : alter (woken now) p (wake_all (take (Z.to_nat j) (process_table s)) now (procs s))
      = <[p := woken now y]> (wake_all (take (Z.to_nat j) (process_table s)) now (procs s))).
    { apply map_eq. intros q. destruct (decide (p = q)) as [<-|Hq].
      - by rewrite lookup_alter_eq, lookup_insert_eq, Hy.
      - by rewrite lookup_alter_ne, lookup_insert_ne. }
    rewrite Halt. unfold woken at 1. unfold with_procs. cbn [procs].
    destruct (bool_decide _ && _) eqn:Hw; cbn [procs]; rewrite ?Hy;
      eexists; (split; [done|]); (split; [lia|done || f_equal]).
    by rewrite insert_id.
  - subst body. rewrite Hrun. rewrite Z.add_0_l, Nat2Z.id, firstn_all2 by lia. done.
Qed.

(** ** The walk finds the next runnable process *)

Definition runnable (x : process_t) : Prop := p_state x = PROCESS_READY ∨ p_state x = PROCESS_RUNNING.

#[export] Instance runnable_dec x : Decision (runnable x).
Proof. unfold runnable. apply _. Defined.

(** The first runnable process of [r], or [old]. *)
Fixpoint pick (m : gmap Z process_t) (r : list Z) (old : Z) : Z :=
  match r with
  | [] => old
  | p :: r =>
      match m !! p with
      | Some x => if decide (runnable x) then p else pick m r old
      | None => old
      end
  end.

Lemma pick_elem m r old : pick m r old = old ∨ (pick m r old ∈ r ∧ ∃ x, m !! pick m r old = Some x ∧ runnable x).
Proof.
  induction r as [|p r IH]; simpl; [by left|]. destruct (m !! p) as [x|] eqn:Hx; [|by left].
  case_decide; [right; split; [by left|by exists x]|].
  destruct IH as [->|[H1 H2]]; [by left|right]. split; [by right|done].
Qed.

Lemma pick_loop_spec s old : (∃ x, procs s !! old = Some x) → ∀ r n,
  chain (procs s) r old → old ∉ r → (length r < n)%nat →
  pick_loop n old (nxt r old) s = Done (pick (procs s) r old) s.
Proof.
  intros [xo Hxo]. induction r as [|p r IH]; intros n Hc Ho Hn; (destruct n as [|n]; [simpl in Hn; lia|]).
  - cbn [nxt pick_loop pick]. rewrite (bind_Done _ _ _ _ _ (deref_Done _ _ _ Hxo)), Z.eqb_refl.
    by destruct (bool_decide _ || _).
  - destruct Hc as [(x & Hx & Hnx) Hc]. apply not_elem_of_cons in Ho as [Hop Ho].
    cbn [nxt pick_loop pick]. rewrite (bind_Done _ _ _ _ _ (deref_Done _ _ _ Hx)), Hx.
    rewrite (proj2 (Z.eqb_neq p old)), andb_true_r by congruence.
    destruct (decide (runnable x)) as [Hr|Hr].
    + assert (bool_decide (p_state x = PROCESS_READY) || bool_decide (p_state x = PROCESS_RUNNING) = true) as ->.
      { destruct Hr as [->| ->]; done. }
      done.
    + assert (bool_decide (p_state x = PROCESS_READY) || bool_decide (p_state x = PROCESS_RUNNING) = false) as ->.
      { unfold runnable in Hr. by destruct (p_state x); naive_solver. }
      rewrite Hnx. apply IH; [done|done|simpl in Hn; lia].
Qed.

(** ** scheduler_tick *)

(** The time slice a process has left after this tick. *)
Definition tick_down (x : process_t) : process_t := set_ticks_remaining (i32 (p_ticks_remaining x - 1)) x.

Definition keeps_running (x : process_t) : Prop :=
  0 < p_ticks_remaining x ∧ p_pid x ≠ 0 ∧ p_state x = PROCESS_RUNNING.

#[export] Instance keeps_running_dec x : Decision (keeps_running x).
Proof. unfold keeps_running. apply _. Defined.

Definition fresh_slice (x : process_t) : process_t := set_ticks_remaining (p_time_slice x) x.

Definition switched_out (x : process_t) : process_t :=
  set_state (if bool_decide (p_state x = PROCESS_RUNNING) then PROCESS_READY else p_state x) x.

(** The state after a tick in which [c] was running with [rest] behind it in
    the ring, as a function of the state [s] in which the sleepers woke. *)
Definition tick_result (c : Z) (rest : list Z) (s : sched) : sched :=
  match procs s !! c with
  | None => s
  | Some x =>
      let s1 := with_procs <[c := tick_down x]> s in
      if decide (keeps_running (tick_down x)) then s1
      else
        let n := pick (procs s1) rest c in
        if decide (n = c) then with_procs <[c := fresh_slice (tick_down x)]> s1
        else
          match procs s1 !! n with
          | None => s1
          | Some y =>
              with_switch c n (with_tss (p_stack_top y) (with_current n
                (with_procs (λ m, <[n := set_state PROCESS_RUNNING (fresh_slice y)]>
                                   (<[c := switched_out (tick_down x)]> m)) s1)))
          end
  end.

Lemma with_procs_twice f g s : with_procs f (with_procs g s) = with_procs (f ∘ g) s.
Proof. done. Qed.

Lemma switch_to_spec s c n x y : procs s !! c = Some x → procs s !! n = Some y → c ≠ n →
  switch_to c n s = Done tt (with_switch c n (with_tss (p_stack_top y) (with_current n
    (with_procs (λ m, <[n := set_state PROCESS_RUNNING (fresh_slice y)]> (<[c := switched_out x]> m)) s)))).
Proof.
  intros Hx Hy Hne. unfold switch_to, reset_slice.
  unfold deref, update, modify. run. rewrite Hy. cbn [procs with_procs]. rewrite Hy.
  cbn [procs with_procs]. rewrite lookup_insert_ne, Hx by done. cbn [procs with_procs].
  rewrite lookup_insert_ne, Hx by done. cbn [procs with_procs].
  rewrite lookup_insert_ne, lookup_insert_eq by done. cbn [procs with_procs with_current].
  rewrite lookup_insert_eq. unfold with_procs, with_switch, with_tss, with_current. cbn.
  f_equal. f_equal. rewrite (insert_insert_ne _ c n) by done. by rewrite insert_insert_eq.
Qed.

Lemma scheduler_tick_spec s l1 c l2 : queue s (l1 ++ c :: l2) → (length (l1 ++ c :: l2) <= 16)%nat →
  table_ok s → current_process s = c →
  scheduler_tick s = Done tt
    (tick_result c (l2 ++ l1) (with_procs (wake_all (process_table s) (timer_ticks s)) s)).
Proof.
  intros [Hnd Hnz Hh Ht Hc] Hlen Htab Hcur. unfold scheduler_tick.
  rewrite (bind_Done _ _ _ _ _ (wake_sleepers_spec s Htab)).
  set (s0 := with_procs _ s). unfold get. run.
  assert (Hc0 : c ≠ 0) by (intros ->; set_solver).
  assert (Hhin : nxt (l1 ++ c :: l2) 0 ≠ 0).
  { intros H0. apply Hnz. rewrite <- H0 at 1. destruct l1; by left. }
  change (current_process s0) with (current_process s). change (run_queue_head s0) with (run_queue_head s).
  rewrite Hcur, Hh, (proj2 (Z.eqb_neq c 0)), (proj2 (Z.eqb_neq _ 0)) by done.
  assert (Hfr : ∀ p y, procs s !! p = Some y → ∃ y', procs s0 !! p = Some y' ∧ p_next y' = p_next y).
  { intros p y Hy. unfold s0. cbn. rewrite wake_all_lookup, Hy. case_decide; [|eauto]. simpl.
    eexists. split; [done|]. unfold woken. by destruct (_ && _). }
  assert (Hc1 : chain (procs s0) (c :: l2 ++ l1) (nxt (c :: l2 ++ l1) 0)).
  { apply (chain_rotate _ l1 (c :: l2)). eapply ring_chain_frame; [|exact Hc]. intros p y _. apply Hfr. }
  cbn [nxt] in Hc1. destruct Hc1 as [(x & Hx & Hnx) Hc1].
  unfold tick_result. rewrite Hx. set (x1 := tick_down x).
  unfold update at 1. rewrite Hx. change (set_ticks_remaining (i32 (p_ticks_remaining x - 1)) x) with x1.
  set (s1 := with_procs <[c:=x1]> s0).
  assert (Hx1 : procs s1 !! c = Some x1) by (apply lookup_insert_eq).
  rewrite (deref_Done _ _ _ Hx1).
  assert (Hkr : (0 <? p_ticks_remaining x1) && negb (p_pid x1 =? 0) && bool_decide (p_state x1 = PROCESS_RUNNING)
    = bool_decide (keeps_running x1)).
  { apply eq_true_iff_eq. rewrite !andb_true_iff, !bool_decide_eq_true, Z.ltb_lt, negb_true_iff, Z.eqb_neq.
    unfold keeps_running. tauto. }
  rewrite Hkr. destruct (decide (keeps_running x1)) as [Hk|Hk].
  { by rewrite bool_decide_eq_true_2. }
  rewrite bool_decide_eq_false_2 by done.
  assert (Hndr : NoDup (l2 ++ l1) ∧ c ∉ l2 ++ l1).
  { apply list.NoDup_app in Hnd as (? & Hd & [Hcl2 ?]%list.NoDup_cons). split.
    - apply list.NoDup_app. split_and!; [done| |done]. intros q H1 H2. apply (Hd q H2). by right.
    - apply not_elem_of_app. split; [done|]. intros H1. apply (Hd c H1). by left. }
  destruct Hndr as [Hndr Hcr].
  assert (Hnext : p_next x1 = nxt (l2 ++ l1) c) by exact Hnx.
  rewrite Hnext, (proj2 (Z.eqb_neq (nxt (l2 ++ l1) c) 0)).
  2:{ intros H0. destruct (l2 ++ l1) as [|a r] eqn:Hr; simpl in H0; [done|]. subst a.
      apply Hnz. assert (0 ∈ l2 ++ l1) by (rewrite Hr; by left). set_solver. }
  assert (Hc2 : chain (procs s1) (l2 ++ l1) c) by (by apply chain_insert).
  rewrite (pick_loop_spec s1 c ltac:(by exists x1)) by
    (done || (rewrite length_app in *; simpl in *; unfold MAX_PROCESSES; lia)).
  set (n := pick (procs s1) (l2 ++ l1) c).
  destruct (pick_elem (procs s1) (l2 ++ l1) c) as [Hn|[Hn (y & Hy & Hrun)]]; fold n in Hn.
  - rewrite Hn, (deref_Done _ _ _ Hx1), Z.eqb_refl, decide_True by done.
    unfold reset_slice. destruct (negb _ && negb _); rewrite (bind_Done _ _ _ _ _ (deref_Done _ _ _ Hx1));
      by rewrite (update_Done _ _ _ _ Hx1).
  - fold n in Hy. assert (Hnc : n ≠ c) by (intros H0; rewrite H0 in Hn; done).
    rewrite decide_False, Hy, (deref_Done _ _ _ Hy) by done.
    assert (negb (bool_decide (p_state y = PROCESS_READY)) && negb (bool_decide (p_state y = PROCESS_RUNNING)) = false) as ->.
    { destruct Hrun as [->| ->]; done. }
    rewrite (proj2 (Z.eqb_neq n c)) by done. by rewrite (switch_to_spec s1 c n x1 y) by done.
Qed.

Lemma pick_ext m m' r old : (∀ q, q ∈ r → m !! q = m' !! q) → pick m r old = pick m' r old.
Proof.
  induction r as [|p r IH]; intros H; simpl; [done|]. rewrite <- H by (by left).
  destruct (m !! p); [|done]. case_decide; [done|]. apply IH. intros q Hq. apply H. by right.
Qed.

(** What one tick leaves, as facts about the new state. *)
Record ticked (s s' : sched) (m : gmap Z process_t) (c n : Z) (x : process_t) : Prop := {
  ticked_current : current_process s' = n;
  ticked_switch : switches s' = switches s ++ (if decide (n = c) then [] else [(c, n)]);
  ticked_queue : run_queue_head s' = run_queue_head s ∧ run_queue_tail s' = run_queue_tail s;
  ticked_table : process_table s' = process_table s ∧ timer_ticks s' = timer_ticks s ∧ next_pid s' = next_pid s;
  ticked_other : ∀ q, q ≠ c → q ≠ n → procs s' !! q = m !! q;
  ticked_same : n = c → tss_rsp0 s' = tss_rsp0 s ∧
    procs s' !! c = Some (if decide (keeps_running (tick_down x)) then tick_down x else fresh_slice x);
  ticked_new : n ≠ c → ∃ y, m !! n = Some y ∧ runnable y ∧ tss_rsp0 s' = p_stack_top y ∧
    procs s' !! n = Some (set_state PROCESS_RUNNING (fresh_slice y)) ∧
    procs s' !! c = Some (switched_out (tick_down x)) }.

Lemma scheduler_tick_facts s l1 c l2 : queue s (l1 ++ c :: l2) → (length (l1 ++ c :: l2) <= 16)%nat →
  table_ok s → current_process s = c →
  ∃ s' x, scheduler_tick s = Done tt s' ∧
    wake_all (process_table s) (timer_ticks s) (procs s) !! c = Some x ∧
    ticked s s' (wake_all (process_table s) (timer_ticks s) (procs s)) c
      (if decide (keeps_running (tick_down x)) then c
       else pick (wake_all (process_table s) (timer_ticks s) (procs s)) (l2 ++ l1) c) x.
Proof.
  intros Hq Hlen Htab Hcur. rewrite (scheduler_tick_spec s l1 c l2) by done.
  set (m := wake_all _ _ _). pose proof Hq as [Hnd Hnz _ _ Hc].
  assert (Hcr : c ∉ l2 ++ l1).
  { apply list.NoDup_app in Hnd as (_ & Hd & [Hc2 _]%list.NoDup_cons). apply not_elem_of_app.
    split; [done|]. intros H1. apply (Hd c H1). by left. }
  destruct (chain_elem _ _ _ c Hc) as [x0 Hx0]; [set_solver|].
  assert (Hx : ∃ x, m !! c = Some x).
  { unfold m. rewrite wake_all_lookup, Hx0. case_decide; simpl; eauto. }
  destruct Hx as [x Hx]. eexists _, x. split; [done|]. split; [done|].
  unfold tick_result. cbn [procs with_procs]. fold m. rewrite Hx.
  destruct (decide (keeps_running (tick_down x))) as [Hk|Hk].
  { split; cbn -[decide keeps_running_dec]; rewrite ?decide_True, ?app_nil_r by done; try done.
    - intros q Hq1 _. by rewrite lookup_insert_ne.
    - intros _. split; [done|]. by rewrite lookup_insert_eq. }
  rewrite (pick_ext (<[c:=tick_down x]> m) m) by (intros q Hqr; rewrite lookup_insert_ne; [done|by intros ->]).
  set (n := pick m (l2 ++ l1) c).
  destruct (decide (n = c)) as [Hn|Hn].
  { rewrite Hn. split; cbn -[decide keeps_running_dec]; rewrite ?decide_True, ?app_nil_r by done; try done.
    - intros q Hq1 _. by rewrite !lookup_insert_ne.
    - intros _. split; [done|]. by rewrite lookup_insert_eq, decide_False by done. }
  destruct (pick_elem m (l2 ++ l1) c) as [|[_ (y & Hy & Hrun)]]; [done|]. fold n in Hy.
  rewrite lookup_insert_ne, Hy by done. split; cbn -[decide keeps_running_dec]; rewrite ?decide_False by done; try done.
  - intros q Hq1 Hq2. by rewrite !lookup_insert_ne.
  - intros _. exists y. rewrite lookup_insert_eq, lookup_insert_ne, lookup_insert_eq by done. done.
Qed.

(** A tick keeps the ring and the table. *)
Lemma ticked_next s s' m c n x : wake_all (process_table s) (timer_ticks s) (procs s) = m →
  m !! c = Some x → ticked s s' m c n x →
  ∀ q y, procs s !! q = Some y → ∃ y', procs s' !! q = Some y' ∧ p_next y' = p_next y.
Proof.
  intros <- Hx [_ _ _ _ Ho Hs Hn] q y Hy.
  assert (Hm : ∃ y', wake_all (process_table s) (timer_ticks s) (procs s) !! q = Some y' ∧ p_next y' = p_next y).
  { clear Hs. rewrite wake_all_lookup, Hy. case_decide; [|eauto]. simpl. eexists. split; [done|].
    unfold woken. by destruct (_ && _). }
  destruct Hm as (y1 & Hm & Hn1). destruct (decide (n = c)) as [->|Hnc].
  - destruct (decide (q = c)) as [->|Hqc]; [|rewrite Ho by done; eauto].
    destruct (Hs eq_refl) as [_ ->]. eexists. split; [done|]. destruct (decide (keeps_running _)); simpl; congruence.
  - destruct (Hn Hnc) as (z & Hz & _ & _ & Hpn & Hpc).
    destruct (decide (q = n)) as [->|]; [rewrite Hpn; eexists; split; [done|]; simpl; congruence|].
    destruct (decide (q = c)) as [->|]; [rewrite Hpc; eexists; split; [done|]; simpl; congruence|].
    rewrite Ho by done. eauto.
Qed.

Lemma ticked_keeps s s' m c n x l : wake_all (process_table s) (timer_ticks s) (procs s) = m →
  m !! c = Some x → ticked s s' m c n x → queue s l → table_ok s → queue s' l ∧ table_ok s'.
Proof.
  intros Hm Hx Ht [Hnd Hnz Hh Htl Hc] [Hl Hin]. pose proof (ticked_next _ _ _ _ _ _ Hm Hx Ht) as Hnext.
  destruct (ticked_queue _ _ _ _ _ _ Ht) as [E1 E2]. destruct (ticked_table _ _ _ _ _ _ Ht) as (E3 & _).
  split.
  - split; [done|done|congruence|congruence|]. eapply ring_chain_frame; [|exact Hc]. intros p y _. apply Hnext.
  - split; [congruence|]. rewrite E3. intros p Hp Hp0. destruct (Hin p Hp Hp0) as [y Hy].
    destruct (Hnext p y Hy) as (y' & -> & _). eauto.
Qed.

(** * Properties *)

(** The run queue is a ring in arrival order: scheduler_add() appends the
    process at its end, ready to run; scheduler_remove() splices it out
    wherever it stands; neither changes anything but next pointers (and the
    new process's state). *)
Lemma run_queue_ring s l1 p l2 x :
  (queue s l1 → p ∉ l1 → p ≠ 0 → procs s !! p = Some x →
   ∃ s', scheduler_add p s = Done tt s' ∧ queue s' (l1 ++ [p]) ∧
     (∃ n, procs s' !! p = Some (set_next n (set_state PROCESS_READY x))) ∧
     (∀ q y, q ≠ p → procs s !! q = Some y → ∃ n, procs s' !! q = Some (set_next n y)) ∧
     process_table s' = process_table s ∧ current_process s' = current_process s) ∧
  (queue s (l1 ++ p :: l2) → (length (l1 ++ p :: l2) <= MAX_PROCESSES)%nat →
   ∃ s', scheduler_remove p s = Done tt s' ∧ queue s' (l1 ++ l2) ∧ relinked s s').
Proof.
  split.
  - intros Hq Hp Hp0 Hx. destruct (queue_add s l1 p x Hq Hp Hp0 Hx) as (s' & H1 & H2 & H3 & H4 & (H5 & H6 & _) & _). eauto 10.
  - intros Hq Hl. by apply queue_remove.
Qed.


(** At most the current process is in state RUNNING. *)
Definition one_running (s : sched) : Prop :=
  ∀ q y, procs s !! q = Some y → p_state y = PROCESS_RUNNING → q = current_process s.

(** At most one process runs: if no process but the current one is in
    state RUNNING, the same holds after every tick and every yield, whatever
    states the others are in. *)
Lemma tick_one_running s l1 c l2 :
  queue s (l1 ++ c :: l2) → (length (l1 ++ c :: l2) <= MAX_PROCESSES)%nat →
  table_ok s → current_process s = c → one_running s →
  ∃ s', scheduler_tick s = Done tt s' ∧ one_running s'.
Proof.
  intros Hq Hlen Htab Hcur Hone. destruct (scheduler_tick_facts s l1 c l2 Hq Hlen Htab Hcur) as (s' & x & H1 & Hx & H3).
  exists s'. split; [done|]. set (m := wake_all _ _ _) in *. set (n := if decide _ then _ else _) in H3.
  destruct H3 as [Hc _ _ _ Ho Hs Hn].
  assert (Hm : ∀ q y, m !! q = Some y → p_state y = PROCESS_RUNNING → q = c).
  { intros q y. unfold m. rewrite wake_all_lookup. intros Hy Hr. rewrite <- Hcur. case_decide; [|by eapply Hone].
    apply fmap_Some in Hy as (z & Hz & ->). unfold woken in Hr. destruct (_ && _); [done|by eapply Hone]. }
  intros q y Hy Hr. rewrite Hc. destruct (decide (q = n)) as [|Hqn]; [done|].
  destruct (decide (n = c)) as [Hnc|Hnc].
  - rewrite Ho in Hy by congruence. rewrite Hnc. by eapply Hm.
  - destruct (Hn Hnc) as (z & _ & _ & _ & _ & Hpc). destruct (decide (q = c)) as [->|Hqc].
    + rewrite Hpc in Hy. simplify_eq. cbn in Hr. by case_bool_decide.
    + rewrite Ho in Hy by done. exfalso. apply Hqc. by eapply Hm.
Qed.

(** Every process of the ring wants to run. *)
Definition all_runnable (s : sched) (l : list Z) : Prop :=
  ∀ p x, p ∈ l → procs s !! p = Some x → runnable x.

Lemma yield_next s l1 c l2 : queue s (l1 ++ c :: l2) → (length (l1 ++ c :: l2) <= 16)%nat →
  table_ok s → current_process s = c → all_runnable s (l1 ++ c :: l2) →
  ∃ s', scheduler_yield s = Done tt s' ∧ queue s' (l1 ++ c :: l2) ∧ table_ok s' ∧
    all_runnable s' (l1 ++ c :: l2) ∧ current_process s' = nxt (l2 ++ l1) c.
Proof.
  intros Hq Hlen Htab Hcur Hall. unfold scheduler_yield, get. run.
  pose proof Hq as [Hnd Hnz Hh Ht Hc]. assert (Hc0 : c ≠ 0) by (intros ->; set_solver).
  rewrite Hcur, (proj2 (Z.eqb_neq c 0)) by done.
  destruct (chain_elem _ _ _ c Hc) as [x0 Hx0]; [set_solver|]. rewrite (update_Done _ _ _ _ Hx0).
  set (s0 := with_procs _ s).
  assert (Hfr : ∀ p y, procs s !! p = Some y → ∃ y', procs s0 !! p = Some y' ∧ p_next y' = p_next y ∧ p_state y' = p_state y).
  { intros p y Hy. unfold s0. cbn. rewrite lookup_insert. case_decide; [|eauto]. subst p.
    eexists. split; [done|]. simpl. split; congruence. }
  assert (Hq0 : queue s0 (l1 ++ c :: l2)).
  { split; [done|done|done|done|]. eapply ring_chain_frame; [|exact Hc]. intros p y _ Hy.
    destruct (Hfr p y Hy) as (y' & ? & ? & _). eauto. }
  assert (Htab0 : table_ok s0).
  { destruct Htab as [Hl Hin]. split; [done|]. intros p Hp Hp0. destruct (Hin p Hp Hp0) as [y Hy].
    destruct (Hfr p y Hy) as (y' & Hy' & _). eauto. }
  destruct (scheduler_tick_facts s0 l1 c l2 Hq0 Hlen Htab0 Hcur) as (s' & x & H1 & Hx & H3).
  exists s'. split; [done|]. set (m := wake_all _ _ _) in *.
  destruct (ticked_keeps s0 s' m c _ x _ eq_refl Hx H3 Hq0 Htab0) as [Hq' Htab']. split; [done|]. split; [done|].
  assert (Hrun : ∀ p y, p ∈ l1 ++ c :: l2 → m !! p = Some y → runnable y ∧
    (p = c → p_ticks_remaining y = 0)).
  { intros p y Hp Hy. unfold m in Hy. rewrite wake_all_lookup in Hy.
    assert (∃ z, procs s0 !! p = Some z ∧ (y = z ∨ y = woken (timer_ticks s0) z)) as (z & Hz & Hyz).
    { case_decide; [apply fmap_Some in Hy as (z & ? & ->)|]; eauto. }
    assert (runnable z) as Hrz.
    { destruct (decide (p = c)) as [->|Hpc].
      - unfold s0 in Hz. cbn in Hz. rewrite lookup_insert_eq in Hz. simplify_eq. exact (Hall _ x0 Hp Hx0).
      - unfold s0 in Hz. cbn in Hz. rewrite lookup_insert_ne in Hz by done. by eapply Hall. }
    assert (y = z) as ->.
    { destruct Hyz as [->| ->]; [done|]. unfold woken. by destruct Hrz as [->| ->]. }
    split; [done|]. intros ->. unfold s0 in Hz. cbn in Hz. rewrite lookup_insert_eq in Hz. by simplify_eq. }
  assert (Hcin : c ∈ l1 ++ c :: l2) by set_solver.
  destruct (Hrun c x Hcin Hx) as [Hrx Htx]. specialize (Htx eq_refl).
  rewrite decide_False in H3.
  2:{ intros [Hk _]. unfold tick_down in Hk. cbn in Hk. rewrite Htx in Hk. by vm_compute in Hk. }
  assert (Hpick : pick m (l2 ++ l1) c = nxt (l2 ++ l1) c).
  { destruct (l2 ++ l1) as [|p r] eqn:Hr; [done|]. cbn [pick nxt]. assert (p ∈ l2 ++ l1) as Hp by (rewrite Hr; by left).
    assert (p ∈ l1 ++ c :: l2) as Hp' by set_solver.
    destruct (chain_elem _ _ _ p (queue_chain _ _ Hq0) Hp') as [y Hy].
    assert (∃ y', m !! p = Some y') as [y' Hy'].
    { unfold m. rewrite wake_all_lookup, Hy. case_decide; simpl; eauto. }
    rewrite Hy', decide_True; [done|]. by eapply (Hrun p y'). }
  rewrite Hpick in H3. split; [|by apply (ticked_current _ _ _ _ _ _ H3)].
  intros p y Hp Hy. destruct H3 as [_ _ _ _ Ho Hs Hn]. set (n := nxt (l2 ++ l1) c) in *.
  destruct (decide (n = c)) as [Hnc|Hnc].
  - destruct (decide (p = c)) as [->|Hpc].
    + destruct (Hs Hnc) as [_ Ht']. rewrite Ht' in Hy. simplify_eq. destruct (decide (keeps_running _)); exact Hrx.
    + rewrite Ho in Hy by congruence. by eapply (Hrun p y).
  - destruct (Hn Hnc) as (z & Hz & _ & _ & Hpn & Hpc). destruct (decide (p = n)) as [->|Hpn'].
    + rewrite Hpn in Hy. simplify_eq. by right.
    + destruct (decide (p = c)) as [->|Hpc'].
      * rewrite Hpc in Hy. simplify_eq. destruct Hrx as [Hs1|Hs1]; left; cbn; rewrite Hs1; done.
      * rewrite Ho in Hy by done. by eapply (Hrun p y).
Qed.

Lemma pick_not_old m r old q y : (∀ p, p ∈ r → is_Some (m !! p)) → old ∉ r → q ∈ r →
  m !! q = Some y → runnable y → pick m r old ≠ old.
Proof.
  intros Hm Ho Hq Hy Hr. induction r as [|p r IH]; [by apply not_elem_of_nil in Hq|]. simpl.
  apply not_elem_of_cons in Ho as [Hop Ho]. destruct (Hm p) as [x Hx]; [by left|]. rewrite Hx.
  case_decide as Hd; [done|]. apply elem_of_cons in Hq as [->|Hq]; [congruence|].
  apply IH; [|done|done]. intros p' Hp'. apply Hm. by right.
Qed.

(** A process that blocked, sleeps or died before it yields gives the CPU to
    another one as long as one can run, and stays as it was. *)
Lemma yield_away s l1 c l2 x0 : queue s (l1 ++ c :: l2) → (length (l1 ++ c :: l2) <= 16)%nat →
  table_ok s → current_process s = c → procs s !! c = Some x0 → ¬ runnable x0 →
  woken (timer_ticks s) x0 = x0 →
  (∃ q y, q ∈ l2 ++ l1 ∧ procs s !! q = Some y ∧ runnable y) →
  ∃ s' t, scheduler_yield s = Done tt s' ∧ current_process s' ∈ l2 ++ l1 ∧
    procs s' !! c = Some (set_ticks_remaining t x0) ∧
    (∃ z, procs s' !! current_process s' = Some z ∧ p_state z = PROCESS_RUNNING) ∧
    queue s' (l1 ++ c :: l2) ∧ table_ok s'.
Proof.
  intros Hq Hlen Htab Hcur Hx0 Hnr Hw (q & y & Hqin & Hy & Hry). pose proof Hq as [Hnd Hnz _ _ Hc].
  assert (Hc0 : c ≠ 0) by (intros ->; set_solver).
  assert (Hcr : c ∉ l2 ++ l1).
  { apply list.NoDup_app in Hnd as (_ & Hd & [Hc2 _]%list.NoDup_cons). apply not_elem_of_app.
    split; [done|]. intros H1. apply (Hd c H1). by left. }
  unfold scheduler_yield, get. run. rewrite Hcur, (proj2 (Z.eqb_neq c 0)) by done.
  rewrite (update_Done _ _ _ _ Hx0). set (s0 := with_procs _ s). set (x1 := set_ticks_remaining 0 x0) in *.
  assert (Hlk : ∀ p, procs s0 !! p = if decide (c = p) then Some x1 else procs s !! p).
  { intros p. unfold s0. cbn. by rewrite lookup_insert. }
  assert (Hq0 : queue s0 (l1 ++ c :: l2)).
  { destruct Hq as [_ _ Hh Ht _]. split; [done|done|done|done|]. eapply ring_chain_frame; [|exact Hc].
    intros p z _ Hz. rewrite Hlk. case_decide; [subst p|eauto]. eexists. split; [done|]. simpl. congruence. }
  assert (Htab0 : table_ok s0).
  { destruct Htab as [Hl Hin]. split; [done|]. intros p Hp Hp0. destruct (Hin p Hp Hp0) as [z Hz].
    rewrite Hlk. case_decide; eauto. }
  destruct (scheduler_tick_facts s0 l1 c l2 Hq0 Hlen Htab0 Hcur) as (s' & x & H1 & Hx & H3).
  destruct (ticked_keeps _ _ _ _ _ _ _ eq_refl Hx H3 Hq0 Htab0) as [Hq' Htab'].
  set (m := wake_all _ _ _) in *.
  assert (x = x1) as ->.
  { unfold m in Hx. rewrite wake_all_lookup, Hlk, (decide_True _ _ (P := c = c)) in Hx by done.
    assert (Hw1 : woken (timer_ticks s0) x1 = x1).
    { unfold woken in Hw |- *. cbn [x1 p_state p_wake_at_tick set_ticks_remaining timer_ticks s0 with_procs].
      destruct (_ && _); [|done]. exfalso. apply Hnr. left. by rewrite <- Hw. }
    change (timer_ticks s0) with (timer_ticks s) in *. simpl in Hx. clear H3. case_decide; congruence. }
  rewrite decide_False in H3 by (intros (Hk & _); by vm_compute in Hk).
  set (n := pick m (l2 ++ l1) c) in *.
  assert (Hmq : ∃ y', m !! q = Some y' ∧ runnable y').
  { unfold m. rewrite wake_all_lookup, Hlk, (decide_False (P := c = q)), Hy by (intros ->; done). case_decide; [|eauto].
    eexists. split; [done|]. unfold woken. destruct (_ && _); [by left|done]. }
  destruct Hmq as (y' & Hy' & Hry').
  assert (Hn : n ≠ c).
  { destruct (pick_elem m (l2 ++ l1) c) as [Hp|[Hp _]]; [|intros Hn; apply Hcr; by rewrite <- Hn].
    exfalso. apply (pick_not_old m (l2 ++ l1) c q y'); try done.
    intros p Hp'. destruct (chain_elem _ _ _ p Hc) as [z Hz]; [set_solver|].
    unfold m. rewrite wake_all_lookup, Hlk. repeat case_decide; rewrite ?Hz; simpl; eauto. }
  destruct (pick_elem m (l2 ++ l1) c) as [|[Hin _]]; [done|].
  destruct H3 as [Hcu _ _ _ _ _ Hnew]. destruct (Hnew Hn) as (z & _ & _ & _ & Hz & Hxc).
  exists s'. assert (He : procs s' !! c = Some (set_ticks_remaining (i32 (p_ticks_remaining x1 - 1)) x0)).
  { rewrite Hxc. unfold switched_out. rewrite bool_decide_eq_false_2; [done|].
    intros Hr. apply Hnr. by right. }
  eexists. split; [done|]. rewrite Hcu. split_and!; try done. eauto.
Qed.

(** [n] yields, one after the other, by whoever runs. *)
Fixpoint yields (n : nat) : M sched unit :=
  match n with O => mret tt | S n => scheduler_yield ;; yields n end.


(** ** Witnesses: two processes, the first one running *)

Definition no_cpu : cpu_state_t := Cpu 0 0 0 0 0 0 0 0 0 0 0 0 0 0 0 0 0.

Definition demo_proc (pid next : Z) (st : process_state_t) : process_t :=
  Proc pid (cs "demo") st no_cpu 0x8000 0x8FF8 0 10 1 next 0 0 0 0 false 0 0 0.

Definition demo_sched : sched :=
  Sched {[100 := demo_proc 1 200 PROCESS_RUNNING; 200 := demo_proc 2 100 PROCESS_READY]}
    (100 :: 200 :: replicate 14 0) 100 3 100 200 5 0x8FF8 [].

Lemma demo_queue : queue demo_sched [100; 200].
Proof.
  split; [|set_solver by lia|reflexivity|reflexivity|].
  - apply (bool_decide_unpack _). by vm_compute.
  - cbn. split_and!; [by eexists|by eexists|done].
Qed.

Lemma demo_table : table_ok demo_sched.
Proof.
  split; [reflexivity|]. intros p Hp Hp0. assert (p = 100 ∨ p = 200) as [->| ->].
  { cbn in Hp. rewrite !elem_of_cons in Hp. destruct Hp as [?|[?|Hp]]; [auto..|].
    exfalso. apply Hp0. by apply elem_of_replicate in Hp as [-> _] || set_solver. }
  all: by eexists.
Qed.

Lemma run_queue_ring_witness :
  ∃ s', scheduler_remove 100 demo_sched = Done tt s' ∧ queue s' [200].
Proof.
  destruct (run_queue_ring demo_sched [] 100 [200] (demo_proc 1 200 PROCESS_RUNNING)) as [_ H].
  destruct (H demo_queue ltac:(unfold MAX_PROCESSES; simpl; lia)) as (s' & H1 & H2 & _).
  exists s'. split; [exact H1|exact H2].
Defined.


Lemma tick_one_running_witness : ∃ s', scheduler_tick demo_sched = Done tt s' ∧ one_running s'.
Proof.
  apply (tick_one_running demo_sched [] 100 [200] demo_queue
    ltac:(unfold MAX_PROCESSES; simpl; lia) demo_table eq_refl).
  intros q y Hy Hr. cbn in Hy. rewrite lookup_insert in Hy.
  destruct (decide (100 = q)) as [<-|]; [reflexivity|].
  apply lookup_singleton_Some in Hy as [_ <-]. discriminate Hr.
Defined.

