(* ===== verification/Process.v ===== *)
(** Process creation, fork, exec, wait: kernel/processes/process.c.

    The kernel state puts together the scheduler's globals, the address spaces
    (with physical memory and the page allocator) and the kernel heap. The ELF
    loader is seen through the interface [ElfLoader]. A name is the content of
    its char[32] (see CString). A function that loops until it is woken is
    given by one pass of its loop; enter_ring3(), which does not come back, is
    the end of the model's run. Log output is not modelled. *)

From S2P Require Import Prelude CString Pmm Heap Phys Paging Sched.

Record kernel := Kernel { k_sched : sched; k_vm : vm; k_heap : heap }.

Definition in_sched {A} (m : M sched A) : M kernel A :=
  zoom k_sched (λ t k, Kernel t (k_vm k) (k_heap k)) m.
Definition in_vm {A} (m : M vm A) : M kernel A :=
  zoom k_vm (λ t k, Kernel (k_sched k) t (k_heap k)) m.
Definition in_heap {A} (m : M heap A) : M kernel A :=
  zoom k_heap (λ t k, Kernel (k_sched k) (k_vm k) t) m.

(** An operation of the kernel in the larger state that has the file system. *)
Definition in_kernel {W A} (m : M kernel A) : M (kernel * W) A := zoom fst (λ k s, (k, s.2)) m.

(** The file system as its callers see it, on a state [W] of its own; results
    are C ints, pointers are the callers'. An operation may change the kernel
    state too (a device read blocks). [vfs_size] is
    vfs_get_file(fd)->inode->size, [None] when there is no such file. *)
Class Vfs (W : Type) := {
  vfs_open : Z → Z → M (kernel * W) Z;
  vfs_close : Z → M (kernel * W) Z;
  vfs_read : Z → Z → Z → M (kernel * W) Z;
  vfs_write : Z → Z → Z → M (kernel * W) Z;
  vfs_seek : Z → Z → Z → M (kernel * W) Z;
  vfs_mkdir : Z → M (kernel * W) Z;
  vfs_readdir : Z → Z → M (kernel * W) Z;
  vfs_delete : Z → M (kernel * W) Z;
  vfs_size : Z → M (kernel * W) (option Z);
}.

(** elf_load_from_path(path, proc, argv): the entry point, 0 on failure.
    [path] and [argv] are the caller's pointers. *)
Class ElfLoader (W : Type) := elf_load_from_path : Z → Z → Z → M (kernel * W) Z.

Lemma in_kernel_Done {W A} (m : M kernel A) (k : kernel) (w : W) a k' :
  m k = Done a k' → in_kernel (W := W) m (k, w) = Done a (k', w).
Proof. unfold in_kernel, zoom. cbn. by intros ->. Qed.

Lemma run_sched {A} (m : M sched A) (k : kernel) a s' :
  m (k_sched k) = Done a s' → in_sched m k = Done a (Kernel s' (k_vm k) (k_heap k)).
Proof. unfold in_sched, zoom. by intros ->. Qed.

Lemma run_vm {A} (m : M vm A) (k : kernel) a t :
  m (k_vm k) = Done a t → in_vm m k = Done a (Kernel (k_sched k) t (k_heap k)).
Proof. unfold in_vm, zoom. by intros ->. Qed.

Lemma in_heap_Done {A} (m : M heap A) (k : kernel) a t :
  m (k_heap k) = Done a t → in_heap m k = Done a (Kernel (k_sched k) (k_vm k) t).
Proof. unfold in_heap, zoom. by intros ->. Qed.

Lemma kernel_eta (k : kernel) : Kernel (k_sched k) (k_vm k) (k_heap k) = k.
Proof. by destruct k. Qed.

Definition PROCESS_T_SIZE : Z := 280.
Definition PROCESS_STACK_SIZE : Z := 4096.
Definition PROCESS_USER : Z := 1.

(** kmemset(proc, 0, sizeof(process_t)) *)
Definition zero_cpu : cpu_state_t := Cpu 0 0 0 0 0 0 0 0 0 0 0 0 0 0 0 0 0.
Definition zero_process : process_t :=
  Proc 0 [] PROCESS_READY zero_cpu 0 0 0 0 0 0 0 0 0 0 false 0 0 0.

(** The first empty slot of the process table. *)
Fixpoint find_slot (i : nat) (t : list Z) : option nat :=
  match t with
  | [] => None
  | p :: t => if p =? 0 then Some i else find_slot (S i) t
  end.

Definition put_process (p : Z) (x : process_t) : M kernel unit :=
  in_sched (modify (with_procs <[p := x]>)).
Definition drop_process (p : Z) : M kernel unit :=
  in_sched (modify (with_procs (delete p))).
Definition set_slot (i : nat) (p : Z) : M kernel unit :=
  in_sched (modify (with_table <[i := p]>)).
Definition take_pid : M kernel Z :=
  in_sched (pid ← gets next_pid; modify (with_next_pid (u64 (pid + 1))) ;; mret pid).

(** The PID of the running process, 0 when none runs yet. *)
Definition current_pid : M kernel Z :=
  in_sched (c ← gets current_process;
            if c =? 0 then mret 0 else x ← deref c; mret (p_pid x)).

(** The initial registers of a ring 3 and of a ring 0 process. *)
Definition user_cpu : cpu_state_t :=
  Cpu 0 0 0 0 0 0 0 0 0 0x200 0x2B 0x23 0x23 0 0 0 0.
Definition kernel_cpu (entry stack_top : Z) : cpu_state_t :=
  Cpu 0 0 0 0 0 0 stack_top stack_top entry 0x200 0x08 0x10 0x10 0 0 0 0.

(** process_create(): the new process, not in the run queue yet. *)
Definition process_create (name : option (list Z)) (entry flags : Z) : M kernel Z :=
  if entry =? 0 then kpanic "process_create: null entry point!"
  else
    match name with
    | None => kpanic "process_create: null process name!"
    | Some name =>
        t ← in_sched (gets process_table);
        match find_slot 0 t with
        | None => kpanic "process_create: process table full!"
        | Some slot =>
            proc ← in_heap (kmalloc PROCESS_T_SIZE);
            parent_pid ← current_pid;
            pid ← take_pid;
            stack_physical ← in_vm (in_pmm pmm_alloc);
            let stack := physical_to_virtual stack_physical in
            let stack_top := u64 (stack + PROCESS_STACK_SIZE - 8) in
            let user := flag flags PROCESS_USER in
            let cpu := if user then user_cpu else kernel_cpu entry stack_top in
            (if user then mret tt else in_vm (store stack_top entry)) ;;
            page_dir ← in_vm paging_clone_directory;
            put_process proc
              (Proc pid (kstrcpy_val name 32) PROCESS_READY cpu stack stack_top page_dir 10 10 0 0 0
                 parent_pid 0 false 0 0 0) ;;
            set_slot slot proc ;;
            mret proc
        end
    end.

(** An iret frame pushed at [kstack] downwards; the pointer below the frame. *)
Fixpoint push_all (kstack : Z) (l : list Z) : M vm Z :=
  match l with
  | [] => mret kstack
  | v :: l => store kstack v ;; push_all (kstack - 8) l
  end.

(** * Reaping *)

(** What a parent does with a dead child in slot [i]. *)
Definition reap (i : nat) (child : Z) : M kernel unit :=
  x ← in_sched (deref child);
  in_sched (scheduler_remove child) ;;
  in_vm (paging_free_directory (p_page_dir x)) ;;
  in_vm (in_pmm (pmm_free (virtual_to_physical (p_stack x)))) ;;
  set_slot i 0 ;;
  drop_process child ;;
  in_heap (kfree child).

(** The first slot from [i] on whose process satisfies [f]. *)
Fixpoint find_process (f : process_t → bool) (i : nat) (t : list Z) : M kernel (option (nat * Z)) :=
  match t with
  | [] => mret None
  | p :: t =>
      if p =? 0 then find_process f (S i) t
      else
        x ← in_sched (deref p);
        if f x then mret (Some (i, p)) else find_process f (S i) t
  end.

(** find_process() reads only. *)
Lemma find_process_spec f t : ∀ i k o k', find_process f i t k = Done o k' → k' = k ∧
  match o with
  | Some (_, p) => p ≠ 0 ∧ p ∈ t ∧ ∃ x, procs (k_sched k) !! p = Some x ∧ f x = true
  | None => ∀ p, p ≠ 0 → p ∈ t → ∃ x, procs (k_sched k) !! p = Some x ∧ f x = false
  end.
Proof.
  induction t as [|p t IH]; intros i k o k' H; simpl in H.
  { injection H as <- <-. split; [done|]. intros p _ Hp. by apply not_elem_of_nil in Hp. }
  destruct (Z.eqb_spec p 0) as [->|Hp0].
  { apply IH in H as [-> H]. split; [done|]. destruct o as [[j q]|].
    - destruct H as (? & ? & ?). split_and!; [done|by right|done].
    - intros q Hq Hqt. apply H; [done|]. apply elem_of_cons in Hqt as [->|]; done. }
  apply bind_Done_inv in H as (x & k1 & H1 & H). apply zoom_Done_inv in H1 as (t1 & H1 & ->).
  unfold deref in H1. destruct (procs (k_sched k) !! p) as [x0|] eqn:Hx; [|done]. injection H1 as -> <-.
  replace (Kernel (k_sched k) (k_vm k) (k_heap k)) with k in H by (by destruct k).
  destruct (f x) eqn:Hf.
  - injection H as <- <-. split; [done|]. split_and!; [done|by left|eauto].
  - apply IH in H as [-> H]. split; [done|]. destruct o as [[j q]|].
    + destruct H as (? & ? & ?). split_and!; [done|by right|done].
    + intros q Hq Hqt. apply elem_of_cons in Hqt as [->|Hqt]; [eauto|by apply H].
Qed.

Definition is_dead (x : process_t) : bool := bool_decide (p_state x = PROCESS_DEAD).

(** One pass of process_wait()'s loop: [true] when it returns, [false] when
    it blocked and gave up the CPU. *)
Definition process_wait_pass (pid : Z) : M kernel bool :=
  c ← in_sched (gets current_process);
  if c =? 0 then mret true
  else
    t ← in_sched (gets process_table);
    o ← find_process (λ x, (p_pid x =? pid) && is_dead x) 0 t;
    match o with
    | Some (i, child) => reap i child ;; mret true
    | None =>
        in_sched (process_block c) ;;
        in_sched scheduler_yield ;;
        mret false
    end.

(** * fork *)

Definition copy_cpu_for_child (parent child : process_t) : cpu_state_t :=
  let c := p_cpu parent in
  Cpu 0 (rbx c) (rcx c) (rdx c) (rsi c) (rdi c)
    (u64 (p_stack_top child - u64 (p_stack_top parent - rbp c)))
    (u64 (p_stack_top child - u64 (p_stack_top parent - rsp c)))
    (rip c) (rflags c) (seg_cs c) (seg_ds c) (seg_ss c) (r12 c) (r13 c) (r14 c) (r15 c).

(** The registers of a user child: the copied ones, entering through iret. *)
Definition iret_cpu (c : cpu_state_t) (rsp' iret_stub : Z) : cpu_state_t :=
  Cpu 0 (rbx c) (rcx c) (rdx c) (rsi c) (rdi c) (rbp c) rsp' iret_stub 0x200
    0x08 0x10 0x10 (r12 c) (r13 c) (r14 c) (r15 c).

Definition process_fork (iret_stub : Z) : M kernel Z :=
  c ← in_sched (gets current_process);
  if c =? 0 then kpanic "fork: no current process!"
  else
    t ← in_sched (gets process_table);
    match find_slot 0 t with
    | None => kpanic "fork: process table full"
    | Some slot =>
        child ← in_heap (kmalloc PROCESS_T_SIZE);
        if child =? 0 then mret (-1)
        else
          parent ← in_sched (deref c);
          pid ← take_pid;
          let x := set_name (kstrcpy_val (p_name parent) 32)
                     (set_parent_pid (p_pid parent) (set_pid pid parent)) in
          stack_physical ← in_vm (in_pmm pmm_alloc);
          if stack_physical =? 0 then in_heap (kfree child) ;; mret (-1)
          else
            let stack := physical_to_virtual stack_physical in
            if stack =? 0 then in_heap (kfree child) ;; mret (-1)
            else
              in_vm (copy_page stack (p_stack parent)) ;;
              let x := set_stack_top (u64 (stack + PAGE_SIZE - 8)) (set_stack stack x) in
              page_dir ← in_vm (paging_deep_copy_directory (p_page_dir parent));
              if page_dir =? 0 then kpanic "fork: failed to deep copy page directory!"
              else
                let x := set_page_dir page_dir x in
                x ← (if negb (p_is_user parent) then mret (set_cpu (copy_cpu_for_child parent x) x)
                     else
                       kstack ← in_vm (push_all (p_stack_top x)
                         [0x23; p_user_esp parent; 0x200; 0x2B; p_user_eip parent; 0]);
                       mret (set_cpu (iret_cpu (p_cpu x) (u64 (kstack + 8)) iret_stub) x));
                let x := set_next 0 (set_ticks_remaining (p_time_slice x) (set_state PROCESS_READY x)) in
                put_process child x ;;
                set_slot slot child ;;
                in_sched (scheduler_add child) ;;
                mret pid
    end.

Section Loading.
Context {W : Type} `{!ElfLoader W}.

(** The clearing loop after a failed load: the first slot that holds [proc]. *)
Fixpoint clear_slot (proc : Z) (i : nat) (t : list Z) : M kernel unit :=
  match t with
  | [] => mret tt
  | p :: t => if p =? proc then set_slot i 0 else clear_slot proc (S i) t
  end.

(** The half-built process is torn down. *)
Definition unspawn (proc : Z) : M kernel unit :=
  x ← in_sched (deref proc);
  in_vm (paging_free_directory (p_page_dir x)) ;;
  in_vm (in_pmm (pmm_free (virtual_to_physical (p_stack x)))) ;;
  t ← in_sched (gets process_table);
  clear_slot proc 0 t ;;
  drop_process proc ;;
  in_heap (kfree proc).

(** process_spawn(): [name] is the string at [path]. *)
Definition process_spawn (path : Z) (name : list Z) (argv : Z) : M (kernel * W) Z :=
  if path =? 0 then mret (-1)
  else
    proc ← in_kernel (process_create (Some name) 0x400000 0);
    if proc =? 0 then mret (-1)
    else
      entry ← elf_load_from_path path proc argv;
      if entry =? 0 then in_kernel (unspawn proc) ;; mret (-1)
      else
        in_kernel (in_sched (scheduler_add proc)) ;;
        x ← in_kernel (in_sched (deref proc));
        mret (p_pid x).

(** The new kernel stack and address space of process_exec(). *)
Definition exec_begin (c : Z) : M kernel (Z * Z) :=
  new_kstack_physical ← in_vm (in_pmm pmm_alloc);
  let new_kstack := physical_to_virtual new_kstack_physical in
  let new_kstack_top := u64 (new_kstack + PAGE_SIZE - 8) in
  new_dir ← in_vm paging_clone_directory;
  if new_dir =? 0 then kpanic "exec: failed to allocate page directory!"
  else
    in_sched (update c (λ x, set_page_dir new_dir
      (set_stack_top new_kstack_top (set_stack new_kstack x)))) ;;
    mret (new_kstack_physical, new_dir).

(** The old image [x] of process [c] comes back; the new one is discarded. *)
Definition exec_rollback (c : Z) (x : process_t) (new_kstack_physical new_dir : Z) : M kernel unit :=
  in_sched (update c (λ y, set_page_dir (p_page_dir x)
    (set_stack_top (p_stack_top x) (set_stack (p_stack x) y)))) ;;
  in_vm (paging_free_directory new_dir) ;;
  in_vm (in_pmm (pmm_free new_kstack_physical)).

(** The new image takes over; the old one [x] is freed. *)
Definition exec_commit (c : Z) (x : process_t) : M kernel unit :=
  y ← in_sched (deref c);
  in_sched (modify (with_tss (p_stack_top y))) ;;
  in_vm (paging_switch_directory (p_page_dir y)) ;;
  in_vm (paging_free_directory (p_page_dir x)) ;;
  in_vm (in_pmm (pmm_free (virtual_to_physical (p_stack x)))).

(** process_exec(): [Some (-1)] when it returns, [None] when the process has
    entered ring 3 in its new image. *)
Definition process_exec (path argv : Z) : M (kernel * W) (option Z) :=
  if path =? 0 then kpanic "exec: null path!"
  else
    c ← in_kernel (in_sched (gets current_process));
    if c =? 0 then kpanic "exec: no current process!"
    else
      x ← in_kernel (in_sched (deref c));
      '(new_kstack_physical, new_dir) ← in_kernel (exec_begin c);
      entry ← elf_load_from_path path c argv;
      if entry =? 0 then
        in_kernel (exec_rollback c x new_kstack_physical new_dir) ;;
        mret (Some (-1))
      else
        in_kernel (exec_commit c x) ;;
        mret None.

End Loading.
