(* ===== verification/Fork.v ===== *)
(** Copying a process: paging_deep_copy_directory() and process_fork().

    The copy walks the source tables and hangs new ones into the new space,
    so the invariant of the walk, [copying], is about the space built so far:
    it is well formed, its pages are new, different from each other and all
    that was allocated, and memory that was in use is as it was. What is
    copied below a path is stated path by path. *)

From S2P Require Import Prelude CString Pmm Heap Phys Paging Space Sched Process.

(** * Entries *)

Lemma set_frame_other f e j : 0 <= j → j < 12 ∨ 52 <= j → Z.testbit (set_frame f e) j = Z.testbit e j.
Proof. intros Hj Ho. by rewrite set_frame_spec, bool_decide_false by lia. Qed.

Lemma present_set_frame f e : present (set_frame f e) = present e.
Proof. apply set_frame_other; lia. Qed.

Lemma huge_set_frame f e : huge_page (u64 (set_frame f e)) = huge_page e.
Proof. unfold huge_page. rewrite u64_testbit by lia. apply set_frame_other; lia. Qed.

(** [w'] is the entry [w] with another frame. *)
Definition same_flags (w w' : Z) : Prop := ∀ j, 0 <= j < 12 ∨ 52 <= j < 64 → Z.testbit w' j = Z.testbit w j.

Lemma same_flags_set_frame f w : same_flags w (u64 (set_frame f w)).
Proof. intros j Hj. rewrite u64_testbit by lia. apply set_frame_other; lia. Qed.

Lemma frame_of_set_frame k w : 0 <= k < 2 ^ 40 → frame (u64 (set_frame k w)) = k.
Proof. intros Hk. by rewrite frame_u64, frame_set_frame. Qed.

(** * Pages *)

Lemma copy_page_spec dst src s : page_ok dst → page_ok src → dst ≠ src →
  ∃ s', copy_page (physical_to_virtual dst) (physical_to_virtual src) s = Done tt s' ∧
    frames s' = frames s ∧ kernel_pml4 s' = kernel_pml4 s ∧ cr3 s' = cr3 s ∧ same_but dst (mem s) (mem s') ∧
    ∀ i, 0 <= i < 4096 → rd8 (mem s') (dst + i) = rd8 (mem s) (src + i).
Proof.
  intros Hd Hs Hne. unfold copy_page.
  destruct (for_up_rule (λ n t, frames t = frames s ∧ kernel_pml4 t = kernel_pml4 s ∧ cr3 t = cr3 s ∧
      same_but dst (mem s) (mem t) ∧ ∀ i, 0 <= i < n → rd8 (mem t) (dst + i) = rd8 (mem s) (src + i)) 4096 0
      (λ b, t ← get; set_mem (wr8 (virtual_to_physical (physical_to_virtual dst + b))
              (rd8 (mem t) (virtual_to_physical (physical_to_virtual src + b))))) s)
    as (s' & Hrun & Hf & Hkp & Hcr & Hsame & Hc).
  - split_and!; try done. intros i Hi. lia.
  - intros j t Hj (Hf & Hkp & Hcr & Hsame & Hc). unfold get. run.
    rewrite (virtual_byte dst), (virtual_byte src) by (done || lia). eexists. split; [done|]. cbn [frames mem kernel_pml4 cr3].
    split_and!; [done|done|done| |].
    + intros c Hcc. rewrite rd8_wr8, decide_False by lia. by apply Hsame.
    + intros i Hi. rewrite rd8_wr8. case_decide as Hij; [|apply Hc; lia]. assert (i = j) as -> by lia.
      rewrite Hsame by (destruct (page_disjoint src dst Hs Hd); lia). apply u8_small, rd8_range.
  - exists s'. split; [exact Hrun|]. split_and!; [done..|]. intros i Hi. apply Hc. lia.
Qed.

(** * The copy so far *)

Section Copy.

(** The source address space: 4 KB pages on frames in use. *)
Context (s : vm) (src : Z) (T : gmap (list Z) Z) (Hsrc : space_wf s src T) (Hhuge : no_huge s T).
Context (Hpages : ∀ q i, user_path (q ++ [i]) → length q = 3%nat → present (leaf s T q i) = true →
  page_ok (frame (leaf s T q i) * 4096) ∧ used (frames s) (frame (leaf s T q i)) = true).
Context (dst : Z).

(** The space [T'] is a part of a copy: all of it was free in [s], no page of
    it serves twice, it is all that was allocated, and what was in use in [s]
    has not changed. *)
Record copying (t : vm) (T' : gmap (list Z) Z) : Prop := {
  cp_wf : space_wf t dst T';
  cp_total : total_pages (frames t) = total_pages (frames s);
  cp_regs : kernel_pml4 t = kernel_pml4 s ∧ cr3 t = cr3 s;
  cp_table : ∀ q a, T' !! q = Some a → used (frames s) (a / 4096) = false ∧ user_path q;
  cp_leaf : ∀ q i, length q = 3%nat → 0 <= i < 512 → present (leaf t T' q i) = true →
    page_ok (frame (leaf t T' q i) * 4096) ∧ used (frames s) (frame (leaf t T' q i)) = false ∧
    used (frames t) (frame (leaf t T' q i)) = true ∧ ∀ r, T' !! r ≠ Some (frame (leaf t T' q i) * 4096);
  cp_inj : ∀ q i r j, length q = 3%nat → length r = 3%nat → 0 <= i < 512 → 0 <= j < 512 →
    present (leaf t T' q i) = true → present (leaf t T' r j) = true →
    frame (leaf t T' q i) = frame (leaf t T' r j) → (q, i) = (r, j);
  cp_used : ∀ k, used (frames t) k = true ↔ used (frames s) k = true ∨
    (∃ q a, T' !! q = Some a ∧ a / 4096 = k) ∨
    (∃ q i, length q = 3%nat ∧ 0 <= i < 512 ∧ present (leaf t T' q i) = true ∧ frame (leaf t T' q i) = k);
  cp_huge : no_huge t T';
  cp_mem : ∀ c i, page_ok c → used (frames s) (c / 4096) = true → 0 <= i < 4096 →
    rd8 (mem t) (c + i) = rd8 (mem s) (c + i) }.

(** From [t] to [t'] only the part of the space at and below [q] may change,
    and only its tables and free pages are written. *)
Record outside (q : list Z) (t : vm) (T1 : gmap (list Z) Z) (t' : vm) (T2 : gmap (list Z) Z) : Prop := {
  out_sub : T1 ⊆ T2;
  out_table : ∀ r, ¬ q `prefix_of` r → T2 !! r = T1 !! r;
  out_leaf : ∀ r i, ¬ q `prefix_of` r → length r = 3%nat → 0 <= i < 512 → leaf t' T2 r i = leaf t T1 r i;
  out_new : ∀ r a, T2 !! r = Some a → T1 !! r = Some a ∨ used (frames t) (a / 4096) = false;
  out_kernel : ∀ i, 256 <= i < 512 → rd64 (mem t') (dst + 8 * i) = rd64 (mem t) (dst + 8 * i);
  out_used : ∀ k, used (frames t) k = true → used (frames t') k = true;
  out_mem : ∀ c i, page_ok c → used (frames t) (c / 4096) = true → (∀ r, T1 !! r ≠ Some c) → 0 <= i < 4096 →
    rd8 (mem t') (c + i) = rd8 (mem t) (c + i) }.

Lemma outside_refl q t T1 : outside q t T1 t T1.
Proof. split; auto. Qed.

Lemma outside_trans q t1 t2 t3 T1 T2 T3 : outside q t1 T1 t2 T2 → outside q t2 T2 t3 T3 → outside q t1 T1 t3 T3.
Proof.
  intros [A0 A1 A2 A3 A6 A4 A5] [B0 B1 B2 B3 B6 B4 B5]. split.
  - by etrans.
  - intros r Hr. by rewrite B1, A1.
  - intros r i Hr Hl Hi. by rewrite B2, A2.
  - intros r a [H|H]%B3; [by apply A3|]. right.
    destruct (used (frames t1) (a / 4096)) eqn:Hu; [|done]. apply A4 in Hu. congruence.
  - intros i Hi. by rewrite B6, A6.
  - auto.
  - intros c i Hc Hu Hr Hi. rewrite B5; [by apply A5|done|by apply A4| |done].
    intros r [H|H]%A3; [by eapply Hr|congruence].
Qed.

Lemma outside_weaken q r t T1 t' T2 : outside (q ++ r) t T1 t' T2 → outside q t T1 t' T2.
Proof.
  intros [A0 A1 A2 A3 A6 A4 A5].
  assert (∀ p, ¬ q `prefix_of` p → ¬ (q ++ r) `prefix_of` p) by (intros p Hq [p' ->]; apply Hq; exists (r ++ p'); by rewrite app_assoc).
  split; auto.
Qed.

(** [w'] maps a copy of the page [w] maps, with its permissions. *)
Definition leaf_copy (t : vm) (w w' : Z) : Prop :=
  present w' = present w ∧
  (present w = true → same_flags w w' ∧
   ∀ i, 0 <= i < 4096 → rd8 (mem t) (frame w' * 4096 + i) = rd8 (mem s) (frame w * 4096 + i)).

(** The copy has a table at [r] just as the source has, with the same pages. *)
Definition path_copy (t : vm) (T' : gmap (list Z) Z) (r : list Z) : Prop :=
  (is_Some (T' !! r) ↔ is_Some (T !! r)) ∧
  (length r = 3%nat → ∀ i, 0 <= i < 512 → leaf_copy t (leaf s T r i) (leaf t T' r i)).

Lemma leaf_copy_outside q t T1 t' T2 w r i : copying t T1 → outside q t T1 t' T2 → length r = 3%nat → 0 <= i < 512 →
  leaf t' T2 r i = leaf t T1 r i → leaf_copy t w (leaf t T1 r i) → leaf_copy t' w (leaf t' T2 r i).
Proof.
  intros Hc Ho Hl Hi -> [Hp Hw]. split; [done|].
  intros Hpw. destruct (Hw Hpw) as [Hf Hb]. split; [done|]. intros b Hbb. rewrite <- Hb by done.
  destruct (cp_leaf _ _ Hc r i Hl Hi) as (Hpg & _ & Hu & Ht); [congruence|].
  apply (out_mem _ _ _ _ _ Ho); [done| |done|done]. by rewrite Z.div_mul by lia.
Qed.

Lemma path_copy_outside q t T1 t' T2 r : copying t T1 → outside q t T1 t' T2 → ¬ q `prefix_of` r →
  path_copy t T1 r → path_copy t' T2 r.
Proof.
  intros Hc Ho Hq [H1 H2]. unfold path_copy. rewrite (out_table _ _ _ _ _ Ho) by done. split; [done|].
  intros Hl i Hi. eapply leaf_copy_outside; [done|done|done|done| |by apply H2]. by apply (out_leaf _ _ _ _ _ Ho).
Qed.

(** A path neither space has is copied. *)
Lemma path_copy_none t T' r : T !! r = None → T' !! r = None → path_copy t T' r.
Proof.
  intros H1 H2. unfold path_copy, leaf. rewrite H1, H2. split; [done|]. intros _ i _. by split.
Qed.

(** ** Hanging a new table *)

Lemma hung_outside q a i b t t' T1 : space_wf t dst T1 → T1 !! q = Some a → (length q < 3)%nat →
  user_path (q ++ [i]) → T1 !! (q ++ [i]) = None → hung t t' T1 q a i b → outside (q ++ [i]) t T1 t' (<[q ++ [i] := b]> T1).
Proof.
  intros Hwf Hq Hl Hup Hn Hh. pose proof Hh as [Hpb Hf _ Hus _ Hfr _ Hoth]. split.
  - by apply insert_subseteq.
  - intros r Hr. apply lookup_insert_ne. intros <-. by apply Hr.
  - intros r j _ Hlr Hj. by eapply hung_leaf.
  - intros r c. rewrite lookup_insert. case_decide; intros; simplify_eq; auto.
  - intros j Hj. apply (Hoth []); [apply (wf_root _ _ _ Hwf)|lia|]. intros [= <- ->]. destruct Hup as [_ Hup]. simpl in Hup. lia.
  - intros k Hk. by rewrite Hus, Hk, orb_true_r.
  - intros c j Hc Hu Hr Hj. apply rd64_page_bytes; [|done]. intros l Hl'. apply Hfr; try done.
    intros ->. by eapply Hr.
Qed.

Lemma copying_hung q a i b t t' T1 : copying t T1 → T1 !! q = Some a → (length q < 3)%nat →
  user_path (q ++ [i]) → T1 !! (q ++ [i]) = None → hung t t' T1 q a i b →
  kernel_pml4 t' = kernel_pml4 t ∧ cr3 t' = cr3 t →
  (length q = 2%nat → huge_page (rd64 (mem t') (a + 8 * i)) = false) → copying t' (<[q ++ [i] := b]> T1).
Proof.
  intros Hc Hq Hl Hu Hn Hh [Hkp Hcr] Hhg. pose proof (cp_wf _ _ Hc) as Hwf.
  pose proof (hung_outside _ _ _ _ _ _ _ Hwf Hq Hl Hu Hn Hh) as Ho.
  pose proof Hh as [Hpb Hf Htot Hus _ _ _ _].
  assert (Hlf : ∀ r j, 0 <= j < 512 → length r = 3%nat → leaf t' (<[q ++ [i] := b]> T1) r j = leaf t T1 r j)
    by (intros; by eapply hung_leaf).
  assert (Hfs : used (frames s) (b / 4096) = false).
  { destruct (used (frames s) _) eqn:E; [|done]. pose proof (proj2 (cp_used _ _ Hc _) (or_introl E)). congruence. }
  split.
  - by eapply hung_wf.
  - rewrite Htot. apply (cp_total _ _ Hc).
  - rewrite Hkp, Hcr. apply (cp_regs _ _ Hc).
  - intros r c. rewrite lookup_insert. case_decide; intros Hr; simplify_eq; [done|by apply (cp_table _ _ Hc)].
  - intros r j Hlr Hj. rewrite Hlf by done. intros Hp. destruct (cp_leaf _ _ Hc r j Hlr Hj Hp) as (H1 & H2 & H3 & H4).
    split_and!; [done|done|by apply (out_used _ _ _ _ _ Ho)|]. intros p. rewrite lookup_insert. case_decide; [|apply H4].
    intros [= ->]. rewrite Z.div_mul in Hf by lia. congruence.
  - intros r j r' j' ? ? ? ?. rewrite !Hlf by done. by apply (cp_inj _ _ Hc).
  - intros k. rewrite Hus, orb_true_iff, bool_decide_eq_true, (cp_used _ _ Hc). split.
    + intros [->|[H|[(r & c & Hr & <-)|(r & j & H1 & H2 & H3 & H4)]]].
      * right; left. exists (q ++ [i]), b. by rewrite lookup_insert_eq.
      * by left.
      * right; left. exists r, c. split; [by apply (lookup_weaken _ _ _ _ Hr), (out_sub _ _ _ _ _ Ho)|done].
      * right; right. exists r, j. by rewrite Hlf.
    + intros [H|[(r & c & Hr & <-)|(r & j & H1 & H2 & H3 & H4)]]; [by right; left| |].
      * rewrite lookup_insert in Hr. case_decide; simplify_eq; [by left|]. right; right; left. eauto.
      * rewrite Hlf in H3, H4 by done. right; right; right. eauto 10.
  - eapply hung_no_huge; [exact Hwf|exact Hq|exact Hh|exact Hhg|apply (cp_huge _ _ Hc)].
  - intros c j Hpc Huc Hj. rewrite <- (cp_mem _ _ Hc) by done.
    apply (out_mem _ _ _ _ _ Ho); [done|by apply (cp_used _ _ Hc); left| |done].
    intros r Hr. apply (cp_table _ _ Hc) in Hr as [Hr _]. congruence.
Qed.

Lemma hang_table_spec q d i w t T1 : copying t T1 → T1 !! q = Some d → (length q < 3)%nat →
  user_path (q ++ [i]) → T1 !! (q ++ [i]) = None → present w = true → (length q = 2%nat → huge_page w = false) →
  (∃ msg, hang_table (physical_to_virtual d) i w t = Panic msg) ∨
  ∃ b t', hang_table (physical_to_virtual d) i w t = Done (physical_to_virtual b) t' ∧
    copying t' (<[q ++ [i] := b]> T1) ∧ outside (q ++ [i]) t T1 t' (<[q ++ [i] := b]> T1) ∧
    ∀ j, 0 <= j < 512 → rd64 (mem t') (b + 8 * j) = 0.
Proof.
  intros Hc Hq Hl Hu Hn Hp Hhg. pose proof (cp_wf _ _ Hc) as Hwf. pose proof (user_path_snoc _ _ Hu) as Hi.
  destruct (wf_table _ _ _ Hwf _ _ Hq) as (Hpd & _ & _). unfold hang_table.
  destruct (alloc_table_spec t (wf_frames _ _ _ Hwf))
    as [[msg Ha]|(k & t1 & Ha & Hpk & Hk & Hku & Hfr & Hkp & Hcr & Hsame & Hz)].
  { left. exists msg. by apply bind_Panic. }
  right. rewrite (bind_Done _ _ _ _ _ Ha), (bind_Done _ _ _ _ _ (store_entry d i _ t1 Hpd Hi)).
  set (t2 := Vm _ _ _ _). rewrite (bind_Done _ _ _ _ _ (store_entry d i _ t2 Hpd Hi)).
  unfold table_to_physical. rewrite v2p_p2v by done.
  replace (Z.shiftr (k * 4096) 12) with k by (rewrite Z.shiftr_div_pow2 by lia; symmetry; apply Z.div_mul; lia).
  pose proof (wf_frames _ _ _ Hwf) as Hfok. unfold frames_ok in Hfok.
  assert (Hk40 : 0 <= k < 2 ^ 40) by (destruct Hpk as [[? ?] _]; lia).
  set (t3 := Vm _ _ _ _).
  assert (Hh : hung t t3 T1 q d i (k * 4096)).
  { eapply (hung_intro t t1 t3 dst T1 q d i k (u64 (set_frame k w))); try eassumption; try done.
    - apply rd64_wr64_eq.
    - by rewrite present_u64, present_set_frame.
    - by apply frame_of_set_frame.
    - intros c j Hpc Hj Hne. cbn [t3 t2 mem]. by rewrite !rd64_entry_ne. }
  exists (k * 4096), t3. split; [done|]. split.
  { eapply copying_hung; try done. intros H2. cbn [t3 t2 mem]. rewrite rd64_wr64_eq, huge_set_frame. by apply Hhg. }
  split; [by eapply hung_outside|].
  apply (hung_empty _ _ _ _ _ _ _ Hh).
Qed.

(** ** Copying a page *)

(** A free page, given the bytes of the page [w] maps. *)
Definition copy_frame (w : Z) : M vm Z :=
  new_physical ← in_pmm pmm_alloc;
  if new_physical =? 0 then kpanic "paging_deep_copy: out of memory!"
  else copy_page (physical_to_virtual new_physical) (table_of w) ;; mret new_physical.

Lemma copy_frame_spec t T1 w : copying t T1 → page_ok (frame w * 4096) → used (frames s) (frame w) = true →
  (∃ msg, copy_frame w t = Panic msg) ∨
  ∃ k t', copy_frame w t = Done (k * 4096) t' ∧ page_ok (k * 4096) ∧ used (frames t) k = false ∧
    frames t' = add_used 1 (bitmap_set k (frames t)) ∧ kernel_pml4 t' = kernel_pml4 t ∧ cr3 t' = cr3 t ∧
    same_but (k * 4096) (mem t) (mem t') ∧
    ∀ i, 0 <= i < 4096 → rd8 (mem t') (k * 4096 + i) = rd8 (mem s) (frame w * 4096 + i).
Proof.
  intros Hc Hpw Huw. unfold copy_frame, in_pmm.
  destruct (pmm_alloc_total (frames t)) as [(a & fr & Ha)|[Ha _]].
  2:{ left. eexists. apply bind_Panic. unfold zoom. by rewrite Ha. }
  rewrite (bind_Done _ _ _ _ _ (zoom_Done _ _ _ _ _ _ Ha)).
  pose proof (wf_frames _ _ _ (cp_wf _ _ Hc)) as Hfo. unfold frames_ok in Hfo.
  assert (Hok : pmm_ok (frames t)) by (unfold pmm_ok; lia).
  destruct (pmm_alloc_Done _ _ _ Hok Ha) as (k & -> & Hk & Hku & _ & ->). unfold PAGE_SIZE.
  destruct (Z.eqb_spec (k * 4096) 0); [left; by eexists|right].
  assert (Hpk : page_ok (k * 4096)) by (split; [lia|apply Z.mod_mul; lia]).
  assert (Huw' : used (frames t) (frame w) = true) by (apply (cp_used _ _ Hc); by left).
  assert (Hne : k * 4096 ≠ frame w * 4096) by (intros E; assert (k = frame w) by lia; congruence).
  unfold table_of. fold (table_addr w). rewrite table_addr_frame. set (t1 := Vm _ _ _ _).
  destruct (copy_page_spec (k * 4096) (frame w * 4096) t1 Hpk Hpw Hne) as (t2 & Hcp & Hf & Hkp & Hcr & Hsame & Hb).
  rewrite (bind_Done _ _ _ _ _ Hcp). exists k, t2. split; [done|]. clear Hcp Ha.
  split_and!; [done|done|done|done|done|done|]. intros i Hi. rewrite Hb by done.
  cbn [t1 mem]. apply (cp_mem _ _ Hc); [done|by rewrite Z.div_mul by lia|done].
Qed.

(** One page table entry of the source. *)
Definition copy_entry (dst_pt i w : Z) : M vm unit :=
  new_physical ← in_pmm pmm_alloc;
  if new_physical =? 0 then kpanic "paging_deep_copy: out of memory!"
  else
    copy_page (physical_to_virtual new_physical) (table_of w) ;;
    store (entry_at dst_pt i) w ;;
    store (entry_at dst_pt i) (set_frame (Z.shiftr new_physical 12) w).

Lemma copy_entry_frame d i w t : copy_entry d i w t =
  (p ← copy_frame w; store (entry_at d i) w ;; store (entry_at d i) (set_frame (Z.shiftr p 12) w)) t.
Proof.
  unfold copy_entry, copy_frame, mbind, M_bind. destruct (in_pmm pmm_alloc t) as [p t1| | |]; try done.
  destruct (p =? 0); [done|]. by destruct (copy_page _ _ t1).
Qed.

(** One more page of the space, where there was none. *)
Lemma copying_leaf q d i k w' t t' T1 : copying t T1 → T1 !! q = Some d → length q = 3%nat → 0 <= i < 512 →
  leaf t T1 q i = 0 → page_ok (k * 4096) → used (frames t) k = false → (∀ r, T1 !! r ≠ Some (k * 4096)) →
  space_wf t' dst T1 → total_pages (frames t') = total_pages (frames t) →
  kernel_pml4 t' = kernel_pml4 t ∧ cr3 t' = cr3 t →
  (∀ j, used (frames t') j = bool_decide (j = k) || used (frames t) j) →
  present w' = true → frame w' = k →
  (∀ r j, 0 <= j < 512 → leaf t' T1 r j = if decide ((r, j) = (q, i)) then w' else leaf t T1 r j) →
  (∀ c j, page_ok c → c ≠ d → c ≠ k * 4096 → 0 <= j < 4096 → rd8 (mem t') (c + j) = rd8 (mem t) (c + j)) →
  copying t' T1 ∧ outside q t T1 t' T1.
Proof.
  intros Hc Hq Hl Hi H0 Hpk Hku Hnk Hwf Htot [Hkp Hcr] Hus Hp Hk Hlf Hm.
  assert (Hks : used (frames s) k = false).
  { destruct (used (frames s) k) eqn:E; [|done]. pose proof (proj2 (cp_used _ _ Hc _) (or_introl E)). congruence. }
  assert (Hold : ∀ r j, length r = 3%nat → 0 <= j < 512 → present (leaf t T1 r j) = true → frame (leaf t T1 r j) ≠ k).
  { intros r j Hlr Hj Hpr E. destruct (cp_leaf _ _ Hc r j Hlr Hj Hpr) as (_ & _ & Hu & _). congruence. }
  assert (Hout : outside q t T1 t' T1).
  { split; [done|done| |by left| | |].
    - intros r j Hr _ Hj. rewrite Hlf, decide_False by (done || by intros [= -> _]; apply Hr). done.
    - pose proof (wf_root _ _ _ (cp_wf _ _ Hc)) as Hroot.
      intros j Hj. apply page_bytes_rd64; [|lia]. intros b Hb.
      apply Hm; [by eapply (wf_table _ _ _ (cp_wf _ _ Hc))| |intros E; by apply (Hnk []); rewrite Hroot, E|done].
      intros E. rewrite E in Hroot. pose proof (wf_inj _ _ _ (cp_wf _ _ Hc) _ _ _ Hroot Hq) as <-. done.
    - intros j Hj. by rewrite Hus, Hj, orb_true_r.
    - intros c j Hpc Hu Hr Hj. apply Hm; [done| | |done]; intros ->; [by eapply Hr|].
      rewrite Z.div_mul in Hu by lia. congruence. }
  split; [|done]. split.
  - done.
  - rewrite Htot. apply (cp_total _ _ Hc).
  - rewrite Hkp, Hcr. apply (cp_regs _ _ Hc).
  - apply (cp_table _ _ Hc).
  - intros r j Hlr Hj. rewrite Hlf by done. case_decide as E; intros Hpr.
    + rewrite Hk. split_and!; [done|done| |done]. by rewrite Hus, bool_decide_eq_true_2.
    + destruct (cp_leaf _ _ Hc r j Hlr Hj Hpr) as (H1 & H2 & H3 & H4).
      split_and!; [done|done|by apply (out_used _ _ _ _ _ Hout)|done].
  - intros r j r' j' Hr Hr' Hj Hj'. rewrite !Hlf by done. do 2 case_decide; intros Hp1 Hp2 E; [congruence| | |].
    + rewrite Hk in E. by destruct (Hold r' j').
    + rewrite Hk in E. by destruct (Hold r j).
    + by apply (cp_inj _ _ Hc).
  - intros j. rewrite Hus, orb_true_iff, bool_decide_eq_true, (cp_used _ _ Hc). split.
    + intros [->|[H|[H|(r & l & H1 & H2 & H3 & H4)]]]; [|by left|by right; left|].
      * right; right. exists q, i. by rewrite Hlf, decide_True.
      * right; right. exists r, l. rewrite Hlf, decide_False; [done|intros [= -> ->]; by rewrite H0 in H3|done].
    + intros [H|[H|(r & l & H1 & H2 & H3 & H4)]]; [by right; left|by right; right; left|].
      rewrite Hlf in H3, H4 by done. case_decide; [left; congruence|]. right; right; right. eauto 10.
  - intros r c j Hr Hlr Hj. destruct (wf_table _ _ _ Hwf _ _ Hr) as (Hpc & _ & _).
    rewrite (page_bytes_rd64 (mem t') (mem t)); [by apply (cp_huge _ _ Hc r)| |done].
    intros b Hb. apply Hm; [done| | |done]; intros ->; [|by eapply Hnk].
    assert (r = q) by (by eapply (wf_inj _ _ _ Hwf)). congruence.
  - intros c j Hpc Hu Hj. rewrite <- (cp_mem _ _ Hc) by done.
    apply (out_mem _ _ _ _ _ Hout); [done|by apply (cp_used _ _ Hc); left| |done].
    intros r Hr. apply (cp_table _ _ Hc) in Hr as [Hr _]. congruence.
Qed.

Lemma copy_entry_spec q d i t T1 : copying t T1 → T1 !! q = Some d → length q = 3%nat → user_path (q ++ [i]) →
  present (leaf s T q i) = true → leaf t T1 q i = 0 →
  (∃ msg, copy_entry (physical_to_virtual d) i (leaf s T q i) t = Panic msg) ∨
  ∃ t', copy_entry (physical_to_virtual d) i (leaf s T q i) t = Done tt t' ∧ copying t' T1 ∧ outside q t T1 t' T1 ∧
    (∀ j, 0 <= j < 512 → j ≠ i → leaf t' T1 q j = leaf t T1 q j) ∧
    leaf_copy t' (leaf s T q i) (leaf t' T1 q i).
Proof.
  intros Hc Hq Hl Hu Hp H0. destruct (Hpages q i Hu Hl Hp) as [Hpw Huw]. pose proof (user_path_snoc _ _ Hu) as Hi.
  rewrite copy_entry_frame. set (w := leaf s T q i) in *.
  destruct (copy_frame_spec t T1 w Hc Hpw Huw) as [[msg H]|(k & t1 & H & Hpk & Hku & Hfr & Hkp & Hcr & Hsame & Hb)].
  { left. eexists. by apply bind_Panic. }
  right. rewrite (bind_Done _ _ _ _ _ H). clear H. pose proof (cp_wf _ _ Hc) as Hwf.
  assert (Hdiv : k * 4096 / 4096 = k) by (apply Z.div_mul; lia).
  replace (Z.shiftr (k * 4096) 12) with k by (by rewrite Z.shiftr_div_pow2 by lia).
  assert (Hnk : ∀ r, T1 !! r ≠ Some (k * 4096)).
  { intros r Hr. destruct (wf_table _ _ _ Hwf _ _ Hr) as (_ & Hur & _). rewrite Hdiv in Hur. congruence. }
  assert (Hu1 : ∀ j, used (frames t1) j = bool_decide (j = k) || used (frames t) j)
    by (intros j; by rewrite Hfr, used_add_used, used_set).
  assert (Hw1 : ∀ c j, page_ok c → c ≠ k * 4096 → 0 <= j < 512 → rd64 (mem t1) (c + 8 * j) = rd64 (mem t) (c + 8 * j)).
  { intros c j Hpc Hne Hj. by eapply same_but_rd64. }
  destruct (space_frame t t1 dst T1 Hwf) as [Hwf1 _]; [by rewrite Hfr|intros j Hj; by rewrite Hu1, Hj, orb_true_r| |].
  { intros r c j Hr Hj. apply Hw1; [by eapply (wf_table _ _ _ Hwf)| |done]. intros ->. by eapply Hnk. }
  assert (Hl1 : ∀ r j, 0 <= j < 512 → leaf t1 T1 r j = leaf t T1 r j).
  { intros r j Hj. unfold leaf. destruct (T1 !! r) as [c|] eqn:Hr; [|done].
    apply Hw1; [by eapply (wf_table _ _ _ Hwf)| |done]. intros ->. by eapply Hnk. }
  destruct (store_leaf t1 dst T1 q d i w Hwf1 Hq Hl Hi) as (t2 & Hst2 & Hwf2 & Hf2 & Hm2 & Hl2).
  rewrite (bind_Done _ _ _ _ _ Hst2).
  destruct (store_leaf t2 dst T1 q d i (set_frame k w) Hwf2 Hq Hl Hi) as (t3 & Hst3 & Hwf3 & Hf3 & Hm3 & Hl3).
  assert (Hregs : kernel_pml4 t3 = kernel_pml4 t ∧ cr3 t3 = cr3 t).
  { destruct (wf_table _ _ _ Hwf _ _ Hq) as (Hpd & _ & _). rewrite store_entry in Hst2, Hst3 by done.
    injection Hst2 as <-. by injection Hst3 as <-. }
  exists t3. split; [exact Hst3|]. clear Hst2 Hst3.
  assert (Hk40 : 0 <= k < 2 ^ 40) by (destruct Hpk as [[? ?] _]; lia).
  assert (Hlf : ∀ r j, 0 <= j < 512 →
    leaf t3 T1 r j = if decide ((r, j) = (q, i)) then u64 (set_frame k w) else leaf t T1 r j).
  { intros r j Hj. rewrite Hl3, Hl2, Hl1 by done. by case_decide. }
  assert (Hm : ∀ c j, page_ok c → c ≠ d → 0 <= j < 4096 → rd8 (mem t3) (c + j) = rd8 (mem t1) (c + j)).
  { intros c j Hpc Hcd Hj. apply rd64_page_bytes; [|done]. intros l Hl'. by rewrite Hm3, Hm2. }
  destruct (copying_leaf q d i k (u64 (set_frame k w)) t t3 T1) as [Hc3 Ho3]; try done.
  { by rewrite Hf3, Hf2, Hfr. }
  { intros j. by rewrite Hf3, Hf2, Hu1. }
  { by rewrite present_u64, present_set_frame. }
  { by apply frame_of_set_frame. }
  { intros c j Hpc Hcd Hck Hj. rewrite Hm by done. apply Hsame. destruct (page_disjoint c (k * 4096) Hpc Hpk Hck); lia. }
  split; [done|]. split; [done|]. split.
  - intros j Hj Hne. rewrite Hlf, decide_False by (done || congruence). done.
  - rewrite Hlf, decide_True by done. split; [by rewrite present_u64, present_set_frame|]. intros _.
    split; [apply same_flags_set_frame|]. intros b Hbb. rewrite frame_of_set_frame, Hm; [by apply Hb|done| |done|done].
    intros E. apply (Hnk q). by rewrite E.
Qed.

(** ** Levels *)

(** [op] copies what the source has at and below [q] into an empty table. *)
Definition copies (q : list Z) (op : Z → M vm unit) : Prop := ∀ d t T1,
  copying t T1 → T1 !! q = Some d → (∀ i r, T1 !! ((q ++ [i]) ++ r) = None) →
  (length q = 3%nat → ∀ i, 0 <= i < 512 → leaf t T1 q i = 0) →
  (∃ msg, op (physical_to_virtual d) t = Panic msg) ∨
  ∃ t' T2, op (physical_to_virtual d) t = Done tt t' ∧ copying t' T2 ∧ outside q t T1 t' T2 ∧
    ∀ r, user_path (q ++ r) → path_copy t' T2 (q ++ r).

(** The copy reads the source's tables as they were. *)
Lemma source_entry t T1 q a i : copying t T1 → T !! q = Some a → 0 <= i < 512 →
  load (entry_at (physical_to_virtual a) i) t = Done (rd64 (mem s) (a + 8 * i)) t.
Proof.
  intros Hc Hq Hi. destruct (wf_table _ _ _ Hsrc _ _ Hq) as (Hpa & Hu & _). rewrite load_entry by done. f_equal.
  apply page_bytes_rd64; [|done]. intros b Hb. by apply (cp_mem _ _ Hc).
Qed.

Lemma copy_pt_copies q a : T !! q = Some a → user_path q → length q = 3%nat →
  copies q (λ d, copy_pt d (physical_to_virtual a)).
Proof.
  intros Hq Hu Hl d t T1 Hc Hd Hnone H0. specialize (H0 Hl).
  assert (Hup : ∀ i, 0 <= i < 512 → user_path (q ++ [i])).
  { intros i Hi. apply user_path_snoc_iff; [done|]. split; [done|]. intros ->. done. }
  destruct (for_up_panic_rule (λ j u, copying u T1 ∧ outside q t T1 u T1 ∧
    (∀ i, 0 <= i < j → leaf_copy u (leaf s T q i) (leaf u T1 q i)) ∧ ∀ i, j <= i < 512 → leaf u T1 q i = 0)
    512 0 (λ i, w ← load (entry_at (physical_to_virtual a) i);
                if negb (present w) then mret tt else copy_entry (physical_to_virtual d) i w) t)
    as [|(t' & Hrun & Hc' & Ho & Hdone & _)].
  - split_and!; [done|apply outside_refl|lia|]. intros i Hi. apply H0. lia.
  - intros j u Hj (Hcu & Ho & Hdone & Hrest). rewrite (bind_Done _ _ _ _ _ (source_entry u T1 q a j Hcu Hq ltac:(lia))).
    assert (Hw : rd64 (mem s) (a + 8 * j) = leaf s T q j) by (unfold leaf; by rewrite Hq). rewrite Hw.
    destruct (present (leaf s T q j)) eqn:Hp; cbn [negb].
    + destruct (copy_entry_spec q d j u T1 Hcu Hd Hl (Hup j ltac:(lia)) Hp) as [|(u' & Hrun & Hcu' & Hou & Hoth & Hnew)];
        [apply Hrest; lia|by left|right].
      exists u'. split; [exact Hrun|]. split; [done|]. split; [by eapply outside_trans|]. split.
      * intros i Hi. destruct (decide (i = j)) as [->|Hne]; [done|].
        eapply leaf_copy_outside; [exact Hcu|exact Hou|done|lia| |apply Hdone; lia]. apply Hoth; lia.
      * intros i Hi. rewrite Hoth by lia. apply Hrest. lia.
    + right. exists u. split; [done|]. split_and!; [done|done| |intros i Hi; apply Hrest; lia].
      intros i Hi. destruct (decide (i = j)) as [->|Hne]; [|apply Hdone; lia].
      rewrite Hrest by lia. split; [by rewrite Hp|]. by rewrite Hp.
  - by left.
  - right. exists t', T1. split; [exact Hrun|]. split; [done|]. split; [done|]. intros [|i r] Hr.
    + rewrite app_nil_r. split; [by rewrite Hd, Hq|]. intros _ i Hi. apply Hdone. lia.
    + rewrite cons_middle, app_assoc in Hr |- *. apply path_copy_none; [|apply Hnone].
      destruct (T !! ((q ++ [i]) ++ r)) as [c|] eqn:E; [|done]. apply (wf_table _ _ _ Hsrc) in E as (_ & _ & E).
      rewrite !length_app in E. simpl in E. lia.
Qed.

(** One entry of a table above the last level. *)
Lemma copy_below q d i w t T1 sub : copying t T1 → T1 !! q = Some d → (length q < 3)%nat → user_path (q ++ [i]) →
  (∀ r, T1 !! ((q ++ [i]) ++ r) = None) → present w = true → (length q = 2%nat → huge_page w = false) → copies (q ++ [i]) sub →
  (∃ msg, (d' ← hang_table (physical_to_virtual d) i w; sub d') t = Panic msg) ∨
  ∃ t' T2, (d' ← hang_table (physical_to_virtual d) i w; sub d') t = Done tt t' ∧ copying t' T2 ∧
    outside (q ++ [i]) t T1 t' T2 ∧ ∀ r, user_path ((q ++ [i]) ++ r) → path_copy t' T2 ((q ++ [i]) ++ r).
Proof.
  intros Hc Hd Hl Hu Hnone Hp Hhg Hsub. pose proof (Hnone []) as Hn. rewrite app_nil_r in Hn.
  destruct (hang_table_spec q d i w t T1 Hc Hd Hl Hu Hn Hp Hhg) as [[msg H]|(b & t1 & H & Hc1 & Ho1 & Hz)].
  { left. exists msg. by apply bind_Panic. }
  rewrite (bind_Done _ _ _ _ _ H). destruct (Hsub b t1 _ Hc1) as [|(t2 & T2 & Hrun & Hc2 & Ho2 & Hr)].
  - apply lookup_insert_eq.
  - intros j r. rewrite lookup_insert_ne; [rewrite <- app_assoc; apply Hnone|].
    intros E. apply (f_equal length) in E. rewrite !length_app in E. simpl in E. lia.
  - intros _ j Hj. unfold leaf. rewrite lookup_insert_eq. by apply Hz.
  - by left.
  - right. exists t2, T2. split; [done|]. split; [done|]. split; [by eapply outside_trans|done].
Qed.

Lemma copies_level q a n body sub : T !! q = Some a → user_path q → (length q < 3)%nat →
  n = (if decide (q = []) then 256 else 512)%nat →
  (∀ i w, user_path (q ++ [i]) → w = rd64 (mem s) (a + 8 * i) → present w = true →
     T !! (q ++ [i]) = Some (table_addr w) → copies (q ++ [i]) (sub w) ∧
     ∀ d t, body d i w t = (d' ← hang_table d i w; sub w d') t) →
  copies q (λ d, for_present n (physical_to_virtual a) (body d)).
Proof.
  intros Hq Hu Hl Hn Hsub d t T1 Hc Hd Hnone _.
  assert (Hn512 : (n <= 512)%nat) by (subst n; case_decide; lia).
  assert (Hup : ∀ i, 0 <= i < Z.of_nat n → user_path (q ++ [i])).
  { intros i Hi. apply user_path_snoc_iff; [done|]. subst n. case_decide; split; naive_solver lia. }
  destruct (for_up_panic_rule (λ j u, ∃ T2, copying u T2 ∧ outside q t T1 u T2 ∧
    (∀ i r, 0 <= i < j → user_path ((q ++ [i]) ++ r) → path_copy u T2 ((q ++ [i]) ++ r)) ∧
    ∀ i r, j <= i → T2 !! ((q ++ [i]) ++ r) = None) n 0
    (λ i, w ← load (entry_at (physical_to_virtual a) i);
          if negb (present w) then mret tt else body (physical_to_virtual d) i w) t)
    as [|(t' & Hrun & T2 & Hc' & Ho & Hdone & _)].
  - exists T1. split_and!; [done|apply outside_refl|lia|done].
  - intros j u Hj (T2 & Hcu & Ho & Hdone & Hrest). pose proof (Hup j ltac:(lia)) as Huj.
    rewrite (bind_Done _ _ _ _ _ (source_entry u T2 q a j Hcu Hq ltac:(lia))).
    pose proof (wf_entry _ _ _ Hsrc _ _ _ Hq Hl Huj) as He. cbv zeta in He.
    assert (Hd2 : T2 !! q = Some d) by (by eapply lookup_weaken, (out_sub _ _ _ _ _ Ho)).
    destruct (present _) eqn:Hp; cbn [negb].
    + destruct (Hsub j _ Huj eq_refl Hp He) as [Hs Hb]. rewrite Hb.
      destruct (copy_below q d j _ u T2 _ Hcu Hd2 Hl Huj (λ r, Hrest j r ltac:(lia)) Hp
        (λ Hl2, Hhuge q a j Hq Hl2 (user_path_snoc q j Huj) Hp) Hs)
        as [|(u' & T3 & Hrun & Hcu' & Hou & Hnew)]; [by left|right].
      assert (Hne : ∀ i r, i ≠ j → ¬ (q ++ [j]) `prefix_of` ((q ++ [i]) ++ r)).
      { intros i r Hij [r' E]. rewrite <- !app_assoc in E. apply app_inv_head in E. by injection E as -> _. }
      exists u'. split; [exact Hrun|]. exists T3. split; [done|]. split.
      { eapply outside_trans; [exact Ho|]. by eapply outside_weaken. }
      split; intros i r Hi.
      * destruct (decide (i = j)) as [->|Hij]; [apply Hnew|]. intros Hur.
        eapply path_copy_outside; [exact Hcu|exact Hou|by apply Hne|]. apply Hdone; [lia|done].
      * rewrite (out_table _ _ _ _ _ Hou) by (apply Hne; lia). apply Hrest. lia.
    + right. exists u. split; [done|]. exists T2. split_and!; [done|done| |intros i r Hi; apply Hrest; lia].
      intros i r Hi Hur. destruct (decide (i = j)) as [->|Hij]; [|apply Hdone; [lia|done]].
      apply path_copy_none; [|apply Hrest; lia].
      destruct (T !! ((q ++ [j]) ++ r)) as [c|] eqn:E; [|done].
      apply (prefix_closed _ _ _ Hsrc) in E as [c' E]. congruence.
  - by left.
  - right. exists t', T2. split; [exact Hrun|]. split; [done|]. split; [done|]. intros [|i r] Hr.
    + rewrite app_nil_r. split; [by rewrite Hq, (lookup_weaken _ _ _ _ Hd (out_sub _ _ _ _ _ Ho))|lia].
    + rewrite cons_middle, app_assoc in Hr |- *. apply Hdone; [|done].
      apply user_path_app, user_path_snoc_iff in Hr as [Hi1 Hi2]; [|done]. subst n. case_decide as E; [specialize (Hi2 E)|]; lia.
Qed.

Lemma copy_pd_copies q a : T !! q = Some a → user_path q → length q = 2%nat →
  copies q (λ d, copy_pd d (physical_to_virtual a)).
Proof.
  intros Hq Hu Hl. eapply (copies_level q a 512 _ (λ w d, copy_pt d (table_of w))); [done|done|lia| |].
  { rewrite decide_False; [done|]. by intros ->. }
  intros i w Hui -> Hp Hi. split.
  - apply copy_pt_copies; [done|done|]. rewrite length_app, Hl. done.
  - intros d t. by rewrite (Hhuge q a i Hq Hl (user_path_snoc q i Hui) Hp).
Qed.

Lemma copy_pdpt_copies q a : T !! q = Some a → user_path q → length q = 1%nat →
  copies q (λ d, copy_pdpt d (physical_to_virtual a)).
Proof.
  intros Hq Hu Hl. eapply (copies_level q a 512 _ (λ w d, copy_pd d (table_of w))); [done|done|lia| |].
  { rewrite decide_False; [done|]. by intros ->. }
  intros i w Hui -> Hp Hi. split; [|done]. apply copy_pd_copies; [done|done|]. rewrite length_app, Hl. done.
Qed.

Lemma copy_user_half : copies [] (λ d, for_present 256 (physical_to_virtual src) (λ i w,
  dst_pdpt ← hang_table d i w; copy_pdpt dst_pdpt (table_of w))).
Proof.
  eapply (copies_level [] src 256 _ (λ w d, copy_pdpt d (table_of w))); [apply (wf_root _ _ _ Hsrc)|done|simpl; lia|done|].
  intros i w Hui -> Hp Hi. split; [|done]. by apply copy_pdpt_copies.
Qed.

(** ** The whole directory *)

Lemma copying_start t : used (frames s) (dst / 4096) = false → space_wf t dst {[ [] := dst ]} →
  total_pages (frames t) = total_pages (frames s) → kernel_pml4 t = kernel_pml4 s ∧ cr3 t = cr3 s →
  (∀ k, used (frames t) k = bool_decide (k = dst / 4096) || used (frames s) k) →
  (∀ c i, page_ok c → used (frames s) (c / 4096) = true → 0 <= i < 4096 → rd8 (mem t) (c + i) = rd8 (mem s) (c + i)) →
  copying t {[ [] := dst ]}.
Proof.
  intros Hd Hwf Htot Hregs Hus Hm.
  assert (Hl : ∀ q i, length q = 3%nat → leaf t {[ [] := dst ]} q i = 0).
  { intros q i Hl. unfold leaf. rewrite lookup_singleton_ne; [done|]. by intros <-. }
  split; try done.
  - intros q a [<- <-]%lookup_singleton_Some. done.
  - intros q i Hlq _. by rewrite Hl.
  - intros q i r j Hlq _ _ _. by rewrite Hl.
  - intros k. rewrite Hus, orb_true_iff, bool_decide_eq_true. split.
    + intros [->|H]; [right; left|by left]. exists [], dst. by rewrite lookup_singleton_eq.
    + intros [H|[(q & a & [_ <-]%lookup_singleton_Some & <-)|(q & i & Hlq & _ & H & _)]]; [by right|by left|].
      by rewrite Hl in H.
  - intros q a i [<- _]%lookup_singleton_Some. done.
Qed.

End Copy.

(** The pages an address space maps are frames in use. *)
Definition pages_in_use (s : vm) (T : gmap (list Z) Z) : Prop := ∀ q i,
  user_path (q ++ [i]) → length q = 3%nat → present (leaf s T q i) = true →
  page_ok (frame (leaf s T q i) * 4096) ∧ used (frames s) (frame (leaf s T q i)) = true.

Lemma deep_copy_spec s src T : space_wf s src T → no_huge s T → pages_in_use s T →
  (∃ msg, paging_deep_copy_directory (physical_to_virtual src) s = Panic msg) ∨
  ∃ b s' T', paging_deep_copy_directory (physical_to_virtual src) s = Done (physical_to_virtual b) s' ∧
    copying s b s' T' ∧ (∀ r, user_path r → path_copy s T s' T' r) ∧
    ∀ i, 256 <= i < 512 → rd64 (mem s') (b + 8 * i) = rd64 (mem s) (src + 8 * i).
Proof.
  intros Hwf Hh Hp. unfold paging_deep_copy_directory.
  destruct (wf_table _ _ _ Hwf _ _ (wf_root _ _ _ Hwf)) as (Hps & Hus & _).
  rewrite (proj2 (Z.eqb_neq _ 0)) by (by apply p2v_nonzero). pose proof (wf_frames _ _ _ Hwf) as Hfo.
  destruct (alloc_table_spec s Hfo) as [[msg Ha]|(k & s1 & Ha & Hpk & Hk & Hku & Hfr & Hkp & Hcr & Hsame & Hz)].
  { left. exists msg. by apply bind_Panic. }
  rewrite (bind_Done _ _ _ _ _ Ha). assert (Hdiv : k * 4096 / 4096 = k) by (apply Z.div_mul; lia).
  assert (Hne : k * 4096 ≠ src) by (intros E; rewrite <- E, Hdiv in Hus; congruence).
  destruct (copy_kernel_half_spec s1 (k * 4096) src Hpk Hps Hne) as (s2 & Hc & Hf2 & Hr2 & Hs2 & Hlo & Hhi).
  rewrite (bind_Done _ _ _ _ _ Hc). clear Ha Hc.
  assert (Hu2 : ∀ j, used (frames s2) j = bool_decide (j = k * 4096 / 4096) || used (frames s) j)
    by (intros j; by rewrite Hdiv, Hf2, Hfr, used_add_used, used_set).
  assert (Hm2 : ∀ c i, page_ok c → used (frames s) (c / 4096) = true → 0 <= i < 4096 → rd8 (mem s2) (c + i) = rd8 (mem s) (c + i)).
  { intros c i Hpc Huc Hi. assert (Hck : c ≠ k * 4096) by (intros ->; rewrite Hdiv in Huc; congruence).
    destruct (page_disjoint c (k * 4096) Hpc Hpk Hck); rewrite Hs2, Hsame by lia; done. }
  destruct (space_wf_empty s2 (k * 4096)) as [Hwf2 _].
  { unfold frames_ok in *. by rewrite Hf2, Hfr. }
  { done. }
  { by rewrite Hu2, bool_decide_eq_true_2. }
  { intros i Hi. by rewrite Hlo, Hz by lia. }
  assert (Hc2 : copying s (k * 4096) s2 {[ [] := k * 4096 ]}).
  { apply copying_start; try done; [by rewrite Hdiv|by rewrite Hf2, Hfr|]. destruct Hr2 as [-> ->]. done. }
  destruct (copy_user_half s src T Hwf Hh Hp (k * 4096) (k * 4096) s2 _ Hc2) as [[msg H]|(s3 & T3 & H & Hc3 & Ho & Hr)].
  - by rewrite lookup_singleton_eq.
  - intros i r. by rewrite lookup_singleton_ne by (by destruct r).
  - done.
  - left. exists msg. by apply bind_Panic.
  - right. rewrite (bind_Done _ _ _ _ _ H). exists (k * 4096), s3, T3. split; [done|]. split; [done|]. split; [done|].
    intros i Hi. rewrite (out_kernel _ _ _ _ _ _ Ho), Hhi by done.
    eapply same_but_rd64; [exact Hsame|exact Hpk|exact Hps|exact Hne|lia].
Qed.

(** ** Translations *)

Lemma translation_leaf s T v : let w := leaf s T (path v) (PT_INDEX v) in
  translation s T v = if present w then frame w * 4096 + v mod 4096 else 0.
Proof.
  cbv zeta. unfold translation. destruct (present _); [|done]. unfold PG_OFFSET. change 0xFFF with (Z.ones 12).
  rewrite Z.land_ones by lia. change (2 ^ 12) with 4096. rewrite lor_page by (apply Z.mod_pos_bound; lia). done.
Qed.

Lemma page_offset k v : (k * 4096 + v mod 4096) / 4096 = k ∧ (k * 4096 + v mod 4096) mod 4096 = v mod 4096.
Proof. Z.div_mod_to_equations. lia. Qed.

(** Mapping a frame in use keeps the pages of the space in use. *)
Lemma pages_in_use_map s s' T T' v p flags : pages_in_use s T → page_ok (p * 4096) → used (frames s) p = true →
  (∀ k, used (frames s) k = true → used (frames s') k = true) →
  (∀ q i, 0 <= i < 512 → length q = 3%nat → leaf s' T' q i =
     if decide ((q, i) = (path v, PT_INDEX v))
     then u64 (make_entry (Z.shiftr (page_align (p * 4096)) 12) (flag flags PAGE_PRESENT) (flag flags PAGE_WRITABLE) (flag flags PAGE_USER))
     else leaf s T q i) → pages_in_use s' T'.
Proof.
  intros Hp Hpg Hup Hus Hlf q i Hu Hl. rewrite Hlf by (done || by apply (user_path_snoc q)). case_decide.
  - intros _. rewrite frame_u64, page_align_shiftr, Z.shiftr_div_pow2 by lia. change (2 ^ 12) with 4096.
    rewrite Z.div_mul, frame_make_entry by (destruct Hpg; lia). auto.
  - intros Hpr. destruct (Hp q i Hu Hl Hpr). auto.
Qed.

(** What is mapped at [v] in both spaces. *)
Definition same_byte (s : vm) (T : gmap (list Z) Z) (s' : vm) (T' : gmap (list Z) Z) (v : Z) : Prop :=
  let p := translation s T v in let p' := translation s' T' v in
  (p = 0 ∧ p' = 0) ∨
  (p ≠ 0 ∧ p' ≠ 0 ∧ p' mod 4096 = v mod 4096 ∧ used (frames s) (p' / 4096) = false ∧
   rd8 (mem s') p' = rd8 (mem s) p ∧ same_flags (leaf s T (path v) (PT_INDEX v)) (leaf s' T' (path v) (PT_INDEX v))).

Lemma copied_byte s T s' b T' v : pages_in_use s T → copying s b s' T' →
  (∀ r, user_path r → path_copy s T s' T' r) → user_addr v → same_byte s T s' T' v.
Proof.
  intros Hp Hc Hr Hv. pose proof (path_index v Hv) as Hu. pose proof (index_range v 12) as Hi. fold (PT_INDEX v) in Hi.
  destruct (proj2 (Hr (path v) (user_path_app _ _ Hu)) eq_refl (PT_INDEX v) Hi) as [Hpr Hb].
  unfold same_byte. rewrite !translation_leaf. cbv zeta. rewrite Hpr. destruct (present (leaf s T _ _)) eqn:E; [right|by left].
  destruct (Hb eq_refl) as [Hf Hbb]. destruct (Hp _ _ Hu eq_refl E) as [[Hk _] _].
  destruct (cp_leaf _ _ _ _ Hc (path v) (PT_INDEX v) eq_refl Hi Hpr) as ([Hk' _] & Hs & _).
  pose proof (Z.mod_pos_bound v 4096 ltac:(lia)). destruct (page_offset (frame (leaf s' T' (path v) (PT_INDEX v))) v) as [-> ->].
  split_and!; [lia|lia|done|done|by apply Hbb|done].
Qed.

Lemma copied_inj s b s' T' v v' : copying s b s' T' → user_addr v → user_addr v' →
  translation s' T' v = translation s' T' v' → translation s' T' v ≠ 0 → v = v'.
Proof.
  intros Hc Hv Hv'. rewrite !translation_leaf. cbv zeta.
  pose proof (index_range v 12) as Hi. pose proof (index_range v' 12) as Hi'. fold (PT_INDEX v) in Hi. fold (PT_INDEX v') in Hi'.
  destruct (present (leaf s' T' (path v) _)) eqn:E; [|done]. destruct (present (leaf s' T' (path v') _)) eqn:E'.
  2:{ intros ->. done. }
  intros Heq _. pose proof (page_offset (frame (leaf s' T' (path v) (PT_INDEX v))) v) as [H1 H2].
  pose proof (page_offset (frame (leaf s' T' (path v') (PT_INDEX v'))) v') as [H1' H2']. rewrite Heq in H1, H2.
  apply (div_mod_inj v v' 4096); [lia|congruence|].
  pose proof (cp_inj _ _ _ _ Hc (path v) (PT_INDEX v) (path v') (PT_INDEX v') eq_refl eq_refl Hi Hi' E E') as Hpi.
  assert (Hpair : (path v, PT_INDEX v) = (path v', PT_INDEX v')) by (apply Hpi; congruence).
  apply (f_equal snd) in Hpair as Hx. apply (f_equal fst) in Hpair. cbn [fst snd] in Hx, Hpair.
  by apply path_inj.
Qed.

(** Every address space that was well formed still is, and maps the same. *)
Lemma copying_frame s b s' T' root T : copying s b s' T' → space_wf s root T →
  space_wf s' root T ∧ ∀ v, translation s' T v = translation s T v.
Proof.
  intros Hc Hwf. apply space_frame; [done|apply (cp_total _ _ _ _ Hc)|intros k Hk; apply (cp_used _ _ _ _ Hc); by left|].
  intros q c j Hq Hj. destruct (wf_table _ _ _ Hwf _ _ Hq) as (Hpc & Hu & _). apply page_bytes_rd64; [|done].
  intros i Hi. by apply (cp_mem _ _ _ _ Hc).
Qed.

(** Freeing the copy gives back all that copying took. *)
Lemma copying_free s b s' T' : copying s b s' T' →
  ∃ s'', paging_free_directory (physical_to_virtual b) s' = Done tt s'' ∧ mem s'' = mem s' ∧
    ∀ k, 0 < k → used (frames s'') k = used (frames s) k.
Proof.
  intros Hc. destruct (free_directory_exact s' b T' (cp_wf _ _ _ _ Hc) (cp_huge _ _ _ _ Hc)) as (s'' & H & Hm & _ & Hu).
  exists s''. split; [done|]. split; [done|]. intros k Hk. apply eq_iff_eq_true. rewrite Hu, (cp_used _ _ _ _ Hc) by done. split.
  - intros ([H1|[(q & a & Hq & <-)|(q & i & Hl & Hi & Hp & <-)]] & Ht & Hlf); [done| |].
    + exfalso. eapply Ht; [by eapply (cp_table _ _ _ _ Hc)|done|done].
    + exfalso. eapply Hlf; [|exact Hl|exact Hp|done]. unfold leaf in Hp. destruct (T' !! q) eqn:Hq; [|done].
      apply user_path_snoc_iff; [by eapply (cp_table _ _ _ _ Hc)|]. split; [done|]. intros ->. done.
  - intros Hs. split; [by left|]. split.
    + intros q a _ Hq <-. destruct (cp_table _ _ _ _ Hc _ _ Hq) as [Hq' _]. congruence.
    + intros q i Hui Hl Hp <-. destruct (cp_leaf _ _ _ _ Hc q i Hl (user_path_snoc _ _ Hui) Hp) as (_ & H2 & _). congruence.
Qed.

(** * The memory of a forked process *)

(** [v'] has a copy [b] of the space [src] of [v] and a kernel stack [stk'];
    both are new, and what was in use is as it was. *)
Record vm_forked (v v' : vm) (src : Z) (T : gmap (list Z) Z) (stk' b : Z) (T' : gmap (list Z) Z) : Prop := {
  vf_space : space_wf v' b T';
  vf_same : ∀ a, user_addr a → same_byte v T v' T' a;
  vf_kernel : ∀ i, 256 <= i < 512 → rd64 (mem v') (b + 8 * i) = rd64 (mem v) (src + 8 * i);
  vf_stack : page_ok stk' ∧ used (frames v) (stk' / 4096) = false ∧ used (frames v') (stk' / 4096) = true;
  vf_apart : (∀ q, T' !! q ≠ Some stk') ∧
    ∀ a, user_addr a → translation v' T' a ≠ 0 → translation v' T' a / 4096 ≠ stk' / 4096;
  vf_others : ∀ root2 T2, space_wf v root2 T2 → space_wf v' root2 T2 ∧ ∀ a, translation v' T2 a = translation v T2 a;
  vf_mem : ∀ c i, page_ok c → used (frames v) (c / 4096) = true → 0 <= i < 4096 → rd8 (mem v') (c + i) = rd8 (mem v) (c + i);
  vf_used : ∀ k, used (frames v) k = true → used (frames v') k = true;
  vf_total : total_pages (frames v') = total_pages (frames v);
  vf_regs : kernel_pml4 v' = kernel_pml4 v ∧ cr3 v' = cr3 v }.

(** A page taken from the allocator and written. *)
Record page_taken (v v1 : vm) (a : Z) : Prop := {
  pt_page : page_ok a;
  pt_free : used (frames v) (a / 4096) = false;
  pt_used : ∀ k, used (frames v1) k = bool_decide (k = a / 4096) || used (frames v) k;
  pt_total : total_pages (frames v1) = total_pages (frames v);
  pt_regs : kernel_pml4 v1 = kernel_pml4 v ∧ cr3 v1 = cr3 v;
  pt_mem : same_but a (mem v) (mem v1) }.

Lemma page_taken_mem v v1 a c i : page_taken v v1 a → page_ok c → used (frames v) (c / 4096) = true → 0 <= i < 4096 →
  rd8 (mem v1) (c + i) = rd8 (mem v) (c + i).
Proof.
  intros Ht Hc Hu Hi. apply (pt_mem _ _ _ Ht).
  assert (Hca : c ≠ a) by (intros ->; rewrite (pt_free _ _ _ Ht) in Hu; done).
  destruct (page_disjoint c a Hc (pt_page _ _ _ Ht) Hca); lia.
Qed.

(** Nothing in use notices it. *)
Lemma page_taken_space v v1 a root T : page_taken v v1 a → space_wf v root T →
  space_wf v1 root T ∧ (∀ q i, 0 <= i < 512 → leaf v1 T q i = leaf v T q i) ∧
  (∀ x, translation v1 T x = translation v T x) ∧ (no_huge v T → no_huge v1 T) ∧ (pages_in_use v T → pages_in_use v1 T).
Proof.
  intros Ht Hwf.
  assert (Hw : ∀ q c j, T !! q = Some c → 0 <= j < 512 → rd64 (mem v1) (c + 8 * j) = rd64 (mem v) (c + 8 * j)).
  { intros q c j Hq Hj. destruct (wf_table _ _ _ Hwf _ _ Hq) as (Hc & Hu & _). apply page_bytes_rd64; [|done].
    intros i Hi. by eapply page_taken_mem. }
  assert (Hl : ∀ q i, 0 <= i < 512 → leaf v1 T q i = leaf v T q i).
  { intros q i Hi. unfold leaf. destruct (T !! q) eqn:Hq; [|done]. by eapply Hw. }
  destruct (space_frame v v1 root T Hwf (pt_total _ _ _ Ht)) as [Hwf1 Htr]; [|done|].
  { intros k Hk. by rewrite (pt_used _ _ _ Ht), Hk, orb_true_r. }
  split; [done|]. split; [done|]. split; [done|]. split.
  - intros Hh q t i Hq Hlq Hi. rewrite (Hw q) by done. by apply (Hh q).
  - intros Hp q i Hu Hlq. rewrite Hl by (by apply (user_path_snoc q)). intros Hpr. destruct (Hp q i Hu Hlq Hpr) as [H1 H2].
    split; [done|]. by rewrite (pt_used _ _ _ Ht), H2, orb_true_r.
Qed.

Lemma vm_forked_intro v v1 v2 src T stk' b T' : space_wf v src T → pages_in_use v T → page_taken v v1 stk' →
  copying v1 b v2 T' → (∀ r, user_path r → path_copy v1 T v2 T' r) →
  (∀ i, 256 <= i < 512 → rd64 (mem v2) (b + 8 * i) = rd64 (mem v1) (src + 8 * i)) →
  vm_forked v v2 src T stk' b T'.
Proof.
  intros Hwf Hp Ht Hc Hr Hk. destruct (page_taken_space _ _ _ _ _ Ht Hwf) as (Hwf1 & Hl1 & Htr1 & _ & Hp1).
  specialize (Hp1 Hp). pose proof (pt_page _ _ _ Ht) as Hps.
  assert (Hu1 : used (frames v1) (stk' / 4096) = true) by (by rewrite (pt_used _ _ _ Ht), bool_decide_eq_true_2).
  assert (Hmono : ∀ k, used (frames v) k = true → used (frames v1) k = true).
  { intros k E. by rewrite (pt_used _ _ _ Ht), E, orb_true_r. }
  split; [apply (cp_wf _ _ _ _ Hc)| | | | | | | | |].
  - intros a Ha. pose proof (path_index a Ha) as Hua. pose proof (index_range a 12) as Hia. fold (PT_INDEX a) in Hia.
    destruct (copied_byte v1 T v2 b T' a Hp1 Hc Hr Ha) as [H|(H1 & H2 & H3 & H4 & H5 & H6)];
      rewrite Htr1 in *; [by left|right]. split_and!; [done|done|done| | |by rewrite <- Hl1].
    + destruct (used (frames v) _) eqn:E; [|done]. apply Hmono in E. congruence.
    + rewrite H5. revert H1. rewrite translation_leaf. cbv zeta. destruct (present _) eqn:E; [intros _|done].
      destruct (Hp _ _ Hua eq_refl E) as [Hpg Hpu]. eapply page_taken_mem; [done|done| |apply Z.mod_pos_bound; lia].
      by rewrite Z.div_mul by lia.
  - intros i Hi. rewrite Hk by done. destruct (wf_table _ _ _ Hwf _ _ (wf_root _ _ _ Hwf)) as (Hs & Hus & _).
    apply page_bytes_rd64; [|lia]. intros j Hj. by eapply page_taken_mem.
  - split; [done|]. split; [apply (pt_free _ _ _ Ht)|]. apply (cp_used _ _ _ _ Hc). by left.
  - split.
    + intros q Hq. apply (cp_table _ _ _ _ Hc) in Hq as [Hq _]. congruence.
    + intros a Ha Hne E. destruct (copied_byte v1 T v2 b T' a Hp1 Hc Hr Ha) as [[_ H]|(_ & _ & _ & H & _)]; [done|].
      rewrite E in H. congruence.
  - intros root2 T2 H2. destruct (page_taken_space _ _ _ _ _ Ht H2) as (H21 & _ & Htr2 & _).
    destruct (copying_frame _ _ _ _ _ _ Hc H21) as [H22 Htr]. split; [done|]. intros a. by rewrite Htr.
  - intros c i Hpc Hu Hi. rewrite (cp_mem _ _ _ _ Hc) by auto. by eapply page_taken_mem.
  - intros k E. apply (cp_used _ _ _ _ Hc). left. by apply Hmono.
  - rewrite (cp_total _ _ _ _ Hc). apply (pt_total _ _ _ Ht).
  - destruct (cp_regs _ _ _ _ Hc) as [-> ->]. apply (pt_regs _ _ _ Ht).
Qed.

(** Writing the new stack afterwards. *)
Lemma vm_forked_write v v2 v3 src T stk' b T' : vm_forked v v2 src T stk' b T' → same_but stk' (mem v2) (mem v3) →
  frames v3 = frames v2 → kernel_pml4 v3 = kernel_pml4 v2 → cr3 v3 = cr3 v2 → vm_forked v v3 src T stk' b T'.
Proof.
  intros [H1 H2 H3 (Hs1 & Hs2 & Hs3) [Ha1 Ha2] H5 H6 H7 H8 H9] Hsame Hf Hkp Hcr.
  assert (Hb : ∀ c i, page_ok c → c ≠ stk' → 0 <= i < 4096 → rd8 (mem v3) (c + i) = rd8 (mem v2) (c + i)).
  { intros c i Hc Hne Hi. apply Hsame. destruct (page_disjoint c stk' Hc Hs1 Hne); lia. }
  assert (Hsp : ∀ root2 T2, space_wf v2 root2 T2 → (∀ q, T2 !! q ≠ Some stk') →
    space_wf v3 root2 T2 ∧ (∀ a, translation v3 T2 a = translation v2 T2 a) ∧
    ∀ q c j, T2 !! q = Some c → 0 <= j < 512 → rd64 (mem v3) (c + 8 * j) = rd64 (mem v2) (c + 8 * j)).
  { intros root2 T2 Hw Hn.
    assert (Hw2 : ∀ q c j, T2 !! q = Some c → 0 <= j < 512 → rd64 (mem v3) (c + 8 * j) = rd64 (mem v2) (c + 8 * j)).
    { intros q c j Hq Hj. apply page_bytes_rd64; [|done]. intros i Hi.
      apply Hb; [by eapply (wf_table _ _ _ Hw)|intros ->; by eapply Hn|done]. }
    destruct (space_frame v2 v3 root2 T2 Hw) as [Hx Hy]; [by rewrite Hf|by rewrite Hf|done|by split_and!]. }
  destruct (Hsp b T' H1 Ha1) as (Hw3 & Htr3 & Hwd3).
  split; [done| | | | | | | | |].
  - intros a Ha. specialize (H2 a Ha). unfold same_byte in *. cbv zeta in *. rewrite Htr3.
    destruct H2 as [H2|(K1 & K2 & K3 & K4 & K5 & K6)]; [by left|right]. split_and!; [done|done|done|done| |].
    + rewrite <- K5. apply Hsame. intros E. specialize (Ha2 a Ha K2). destruct Hs1 as [_ Hs1].
      apply Ha2. Z.div_mod_to_equations. lia.
    + replace (leaf v3 T' (path a) (PT_INDEX a)) with (leaf v2 T' (path a) (PT_INDEX a)); [done|].
      unfold leaf. destruct (T' !! path a) eqn:E; [|done]. symmetry. by apply (Hwd3 (path a)), index_range.
  - intros i Hi. rewrite (Hwd3 []) by (apply (wf_root _ _ _ H1) || lia). by apply H3.
  - split_and!; [done|done|by rewrite Hf].
  - split; [done|]. intros a Ha. rewrite Htr3. by apply Ha2.
  - intros root2 T2 HT2. destruct (H5 root2 T2 HT2) as [Hx Hy].
    destruct (Hsp root2 T2 Hx) as (Hx3 & Hy3 & _).
    { intros q Hq. destruct (wf_table _ _ _ HT2 _ _ Hq) as (_ & Hu & _). congruence. }
    split; [done|]. intros a. by rewrite Hy3.
  - intros c i Hc Hu Hi. rewrite Hb; [by apply H6|done| |done]. intros ->. congruence.
  - intros k. rewrite Hf. apply H7.
  - by rewrite Hf.
  - by rewrite Hkp, Hcr.
Qed.

(** * process_fork() *)

(** A stack frame pushed in a kernel stack page. *)
Lemma push_frame_spec a l : page_ok a → ∀ i t, i + 8 <= 4096 → 8 * Z.of_nat (length l) <= i + 8 →
  ∃ t', push_all (physical_to_virtual a + i) l t = Done (physical_to_virtual a + i - 8 * Z.of_nat (length l)) t' ∧
    frames t' = frames t ∧ kernel_pml4 t' = kernel_pml4 t ∧ cr3 t' = cr3 t ∧ same_but a (mem t) (mem t') ∧
    (∀ j w, l !! j = Some w → rd64 (mem t') (a + i - 8 * Z.of_nat j) = u64 w) ∧
    ∀ b, a + i + 8 <= b → rd64 (mem t') b = rd64 (mem t) b.
Proof.
  intros Ha. induction l as [|w l IH]; intros i t Hi Hl; cbn [push_all length] in *.
  { exists t. split; [by rewrite Z.mul_0_r, Z.sub_0_r|]. split_and!; try done. }
  unfold store. rewrite virtual_byte by (done || lia). unfold set_mem, modify. run. set (t1 := Vm _ _ _ _).
  destruct (IH (i - 8) t1 ltac:(lia) ltac:(lia)) as (t' & Hrun & Hf & Hkp & Hcr & Hs & Hw & Hup).
  exists t'. replace (physical_to_virtual a + i - 8) with (physical_to_virtual a + (i - 8)) by lia. rewrite Hrun.
  split; [f_equal; lia|]. split_and!; [done|done|done| | |].
  - intros c Hc. rewrite Hs by done. apply rd8_wr_out. rewrite length_split. lia.
  - intros [|j] w' Hj.
    + injection Hj as <-. replace (a + i - 8 * Z.of_nat 0) with (a + i) by lia. rewrite Hup by lia. apply rd64_wr64_eq.
    + replace (a + i - 8 * Z.of_nat (S j)) with (a + (i - 8) - 8 * Z.of_nat j) by lia. by apply Hw.
  - intros b Hb. rewrite Hup by lia. apply rd64_wr64_ne. lia.
Qed.

(** Every process is a block of the heap of its own. *)
Definition processes_owned (k : kernel) : Prop := ∃ l, heap_inv (k_heap k) l ∧
  ∀ p x, procs (k_sched k) !! p = Some x → (p, PROCESS_T_SIZE) ∈ l.

Lemma kmalloc_process k : processes_owned k →
  kmalloc PROCESS_T_SIZE (k_heap k) = Panic out_of_memory ∨
  ∃ p h, kmalloc PROCESS_T_SIZE (k_heap k) = Done p h ∧ p ≠ 0 ∧ procs (k_sched k) !! p = None ∧
    ∀ s v, (∀ q, q ≠ p → procs (k_sched k) !! q = None → procs s !! q = None) → processes_owned (Kernel s v h).
Proof.
  intros (l & HI & Hl).
  destruct (heap_inv_kmalloc _ _ PROCESS_T_SIZE HI) as [Hk|(p & h & Hk & HI')]; [unfold PROCESS_T_SIZE; lia|by left|right].
  exists p, h. split; [done|].
  destruct (heap_inv_region _ _ p PROCESS_T_SIZE HI') as (Hlo & _); [by left|].
  split; [unfold HEAP_START, HEADER_SIZE in *; lia|]. split.
  - destruct (procs (k_sched k) !! p) as [x|] eqn:E; [|done]. apply Hl, list_elem_of_lookup_1 in E as [i Hi].
    destruct (heap_inv_disjoint _ _ 0 (S i) _ _ _ _ HI' ltac:(done) ltac:(done) Hi); unfold PROCESS_T_SIZE, HEADER_SIZE in *; lia.
  - intros s v Hs. exists ((p, PROCESS_T_SIZE) :: l). split; [done|]. intros q x Hq. apply elem_of_cons.
    destruct (decide (q = p)) as [->|Hne]; [by left|right].
    destruct (procs (k_sched k) !! q) as [y|] eqn:E; [by eapply Hl|]. rewrite Hs in Hq by done. done.
Qed.

Lemma free_slot_spec t : ∀ i n, find_slot i t = Some n → (i <= n)%nat ∧ t !! (n - i)%nat = Some 0.
Proof.
  induction t as [|p t IH]; intros i n H; simpl in H; [done|]. destruct (Z.eqb_spec p 0) as [->|_].
  - injection H as <-. by rewrite Nat.sub_diag.
  - apply IH in H as [Hle H]. split; [lia|]. by replace (n - i)%nat with (S (n - S i)) by lia.
Qed.

(** The child of [x] on the stack page [stk] and the address space [dir]. *)
Definition forked_child (x : process_t) (pid stk dir : Z) (cpu : cpu_state_t) : process_t :=
  Proc pid (take 31 (p_name x)) PROCESS_READY cpu (physical_to_virtual stk) (physical_to_virtual stk + 4088) dir
    (p_time_slice x) (p_time_slice x) 0 (p_user_esp x) (p_user_eip x) (p_pid x) (p_exit_code x) (p_is_user x)
    (p_heap_start x) (p_heap_end x) (p_wake_at_tick x).

(** Where it starts: a user process through the frame on its kernel stack, a
    kernel process where the parent is, at the same depth of its own stack;
    both with 0 as the result of fork() and the other registers as they are. *)
Definition child_cpu (stub stk : Z) (x : process_t) : cpu_state_t :=
  let c := p_cpu x in
  let top := physical_to_virtual stk + 4088 in
  if p_is_user x then
    Cpu 0 (rbx c) (rcx c) (rdx c) (rsi c) (rdi c) (rbp c) (top - 40) stub 0x200 0x08 0x10 0x10 (r12 c) (r13 c) (r14 c) (r15 c)
  else
    let moved := λ a, u64 (a + top - p_stack_top x) in
    Cpu 0 (rbx c) (rcx c) (rdx c) (rsi c) (rdi c) (moved (rbp c)) (moved (rsp c)) (rip c) (rflags c)
      (seg_cs c) (seg_ds c) (seg_ss c) (r12 c) (r13 c) (r14 c) (r15 c).

Lemma moved_u64 t t' r : u64 (t' - u64 (t - r)) = u64 (r + t' - t).
Proof. word_lia. Qed.

Definition child_stack (v v' : vm) (x : process_t) (stk stk' : Z) : Prop :=
  if p_is_user x then
    ∀ j w, [0x23; p_user_esp x; 0x200; 0x2B; p_user_eip x; 0] !! j = Some w →
      rd64 (mem v') (stk' + 4088 - 8 * Z.of_nat j) = u64 w
  else ∀ i, 0 <= i < 4096 → rd8 (mem v') (stk' + i) = rd8 (mem v) (stk + i).

(** A kernel whose current process can fork. *)
Record can_fork (k : kernel) (c : Z) (x : process_t) (src stk : Z) (T : gmap (list Z) Z) (l : list Z) : Prop := {
  cf_current : current_process (k_sched k) = c ∧ c ≠ 0 ∧ procs (k_sched k) !! c = Some x;
  cf_queue : queue (k_sched k) l;
  cf_heap : processes_owned k;
  cf_page0 : used (frames (k_vm k)) 0 = true;
  cf_dir : p_page_dir x = physical_to_virtual src;
  cf_space : space_wf (k_vm k) src T;
  cf_huge : no_huge (k_vm k) T;
  cf_pages : pages_in_use (k_vm k) T;
  cf_stack : p_stack x = physical_to_virtual stk ∧ page_ok stk ∧ used (frames (k_vm k)) (stk / 4096) = true }.

(** The new kernel stack. *)
Lemma fork_stack_spec v stk : frames_ok v → used (frames v) 0 = true → page_ok stk → used (frames v) (stk / 4096) = true →
  (∃ msg, in_pmm pmm_alloc v = Panic msg) ∨
  ∃ stk' v0 v1, in_pmm pmm_alloc v = Done stk' v0 ∧
    copy_page (physical_to_virtual stk') (physical_to_virtual stk) v0 = Done tt v1 ∧ page_taken v v1 stk' ∧
    ∀ i, 0 <= i < 4096 → rd8 (mem v1) (stk' + i) = rd8 (mem v) (stk + i).
Proof.
  intros Hfo H0 Hstk Hu. unfold in_pmm. destruct (pmm_alloc_total (frames v)) as [(a & fr & Ha)|[Ha _]].
  2:{ left. eexists. unfold zoom. by rewrite Ha. }
  right. unfold frames_ok in Hfo. assert (Hok : pmm_ok (frames v)) by (unfold pmm_ok; lia).
  rewrite (zoom_Done _ _ _ _ _ _ Ha).
  destruct (pmm_alloc_Done _ _ _ Hok Ha) as (k & -> & Hk & Hku & _ & ->). unfold PAGE_SIZE. clear Ha.
  assert (Hk0 : k ≠ 0) by (intros ->; congruence).
  assert (Hpk : page_ok (k * 4096)) by (split; [lia|apply Z.mod_mul; lia]).
  assert (Hdiv : k * 4096 / 4096 = k) by (apply Z.div_mul; lia).
  assert (Hne : k * 4096 ≠ stk) by (intros E; rewrite <- E, Hdiv in Hu; congruence).
  set (v0 := Vm _ _ _ _). destruct (copy_page_spec (k * 4096) stk v0 Hpk Hstk Hne) as (v1 & Hc & Hf & Hkp & Hcr & Hs & Hb).
  exists (k * 4096), v0, v1. split; [done|]. split; [exact Hc|]. clear Hc. split; [|exact Hb]. split.
  - done.
  - by rewrite Hdiv.
  - intros j. by rewrite Hf, Hdiv; cbn [v0 frames]; rewrite used_add_used, used_set.
  - by rewrite Hf.
  - done.
  - exact Hs.
Qed.

Lemma in_vm_Panic {A} (m : M vm A) k msg : m (k_vm k) = Panic msg → in_vm m k = Panic msg.
Proof. unfold in_vm, zoom. by intros ->. Qed.

(** Memory for the child: stack, address space, and what it starts from. *)
Definition fork_memory (stub : Z) (parent : process_t) (x : process_t) : M kernel (option process_t) :=
  stack_physical ← in_vm (in_pmm pmm_alloc);
  if stack_physical =? 0 then mret None
  else
    let stack := physical_to_virtual stack_physical in
    if stack =? 0 then mret None
    else
      in_vm (copy_page stack (p_stack parent)) ;;
      let x := set_stack_top (u64 (stack + PAGE_SIZE - 8)) (set_stack stack x) in
      page_dir ← in_vm (paging_deep_copy_directory (p_page_dir parent));
      if page_dir =? 0 then kpanic "fork: failed to deep copy page directory!"
      else
        let x := set_page_dir page_dir x in
        x ← (if negb (p_is_user parent) then mret (set_cpu (copy_cpu_for_child parent x) x)
             else
               kstack ← in_vm (push_all (p_stack_top x)
                 [0x23; p_user_esp parent; 0x200; 0x2B; p_user_eip parent; 0]);
               mret (set_cpu (iret_cpu (p_cpu x) (u64 (kstack + 8)) stub) x));
        mret (Some (set_next 0 (set_ticks_remaining (p_time_slice x) (set_state PROCESS_READY x)))).

Lemma fork_memory_spec stub k c x src stk T l pid : can_fork k c x src stk T l →
  let child := set_name (kstrcpy_val (p_name x) 32) (set_parent_pid (p_pid x) (set_pid pid x)) in
  ∀ s h, let k0 := Kernel s (k_vm k) h in
  (∃ msg, fork_memory stub x child k0 = Panic msg) ∨
  ∃ v' stk' b T', fork_memory stub x child k0
      = Done (Some (forked_child x pid stk' (physical_to_virtual b) (child_cpu stub stk' x))) (Kernel s v' h) ∧
    vm_forked (k_vm k) v' src T stk' b T' ∧ child_stack (k_vm k) v' x stk stk'.
Proof.
  intros [_ _ _ H0 Hdir Hwf Hh Hp (Hst & Hps & Hus)] child s h k0. unfold fork_memory.
  destruct (fork_stack_spec (k_vm k) stk (wf_frames _ _ _ Hwf) H0 Hps Hus) as [[msg H]|(stk' & v0 & v1 & Ha & Hcp & Ht & Hb)].
  { left. exists msg. by apply bind_Panic, in_vm_Panic. }
  rewrite (bind_Done _ _ _ _ _ (run_vm _ k0 _ _ Ha)). pose proof (pt_page _ _ _ Ht) as Hps'.
  rewrite (proj2 (Z.eqb_neq stk' 0)) by (destruct Hps'; lia). cbv zeta.
  rewrite (proj2 (Z.eqb_neq _ 0)) by (by apply p2v_nonzero). rewrite Hst.
  rewrite (bind_Done _ _ _ _ _ (run_vm _ (Kernel s v0 h) _ _ Hcp)). rewrite Hdir. clear Ha Hcp.
  destruct (page_taken_space _ _ _ _ _ Ht Hwf) as (Hwf1 & _ & _ & Hh1 & Hp1).
  destruct (deep_copy_spec v1 src T Hwf1 (Hh1 Hh) (Hp1 Hp)) as [[msg H]|(b & v2 & T' & Hd & Hc & Hr & Hk)].
  { left. exists msg. by apply bind_Panic, in_vm_Panic. }
  rewrite (bind_Done _ _ _ _ _ (run_vm _ (Kernel s v1 h) _ _ Hd)). clear Hd.
  destruct (wf_table _ _ _ (cp_wf _ _ _ _ Hc) _ _ (wf_root _ _ _ (cp_wf _ _ _ _ Hc))) as (Hpb & _ & _).
  rewrite (proj2 (Z.eqb_neq _ 0)) by (by apply p2v_nonzero).
  pose proof (vm_forked_intro _ _ _ _ _ _ _ _ Hwf Hp Ht Hc Hr Hk) as Hvf.
  assert (Hin : ∀ i, 0 <= i < 4096 → u64 (physical_to_virtual stk' + i) = physical_to_virtual stk' + i).
  { intros i Hi. destruct Hps' as [Hlo Hal]. assert (stk' + 4096 <= 2 ^ 47) by (Z.div_mod_to_equations; lia).
    unfold physical_to_virtual, PHYSICAL_MAP_BASE. rewrite (u64_small (stk' + _)), u64_small by lia. lia. }
  assert (Htop : u64 (physical_to_virtual stk' + PAGE_SIZE - 8) = physical_to_virtual stk' + 4088).
  { unfold PAGE_SIZE. rewrite <- (Hin 4088) by lia. f_equal. lia. }
  right. unfold child_cpu, child_stack. destruct (p_is_user x) eqn:Hu; cbn [negb].
  - cbn [p_stack_top set_page_dir set_stack_top]. rewrite Htop.
    destruct (push_frame_spec stk' [0x23; p_user_esp x; 0x200; 0x2B; p_user_eip x; 0] Hps' 4088 v2)
      as (v3 & Hpu & Hf & Hkp & Hcr & Hs & Hw & _); [lia|simpl; lia|].
    exists v3, stk', b, T'. split; [|split; [by eapply vm_forked_write|exact Hw]].
    erewrite bind_Done by (rewrite (bind_Done _ _ _ _ _ (run_vm _ (Kernel s v2 h) _ _ Hpu)); reflexivity). run.
    clear Hpu. replace (physical_to_virtual stk' + 4088 - 8 * Z.of_nat _ + 8) with (physical_to_virtual stk' + 4048) by (simpl; lia).
    rewrite (Hin 4048) by lia. replace (physical_to_virtual stk' + 4048) with (physical_to_virtual stk' + 4088 - 40) by lia.
    by destruct x; cbn in Hu |- *; subst.
  - exists v2, stk', b, T'. split; [|split; [done|]].
    + run. rewrite Htop. unfold copy_cpu_for_child. cbn [p_stack_top set_page_dir set_stack_top]. rewrite !moved_u64.
      by destruct x; cbn in Hu |- *; subst.
    + intros i Hi. rewrite <- Hb by done. apply (cp_mem _ _ _ _ Hc); [done| |done].
      by rewrite (pt_used _ _ _ Ht), bool_decide_eq_true_2.
Qed.

(** process_fork() from the point where the PCB is allocated. *)
Definition fork_from (stub c : Z) (slot : nat) : M kernel Z :=
  child ← in_heap (kmalloc PROCESS_T_SIZE);
  if child =? 0 then mret (-1)
  else
    parent ← in_sched (deref c);
    pid ← take_pid;
    o ← fork_memory stub parent
          (set_name (kstrcpy_val (p_name parent) 32) (set_parent_pid (p_pid parent) (set_pid pid parent)));
    match o with
    | None => in_heap (kfree child) ;; mret (-1)
    | Some x =>
        put_process child x ;;
        set_slot slot child ;;
        in_sched (scheduler_add child) ;;
        mret pid
    end.

Lemma process_fork_from stub k : current_process (k_sched k) ≠ 0 →
  process_fork stub k = match find_slot 0 (process_table (k_sched k)) with
                        | None => Panic "fork: process table full"
                        | Some slot => fork_from stub (current_process (k_sched k)) slot k
                        end.
Proof.
  intros Hc. unfold process_fork. rewrite (bind_Done _ _ _ _ _ (run_sched (gets current_process) k _ _ eq_refl)), kernel_eta.
  rewrite (proj2 (Z.eqb_neq _ 0)) by done.
  rewrite (bind_Done _ _ _ _ _ (run_sched (gets process_table) k _ _ eq_refl)), kernel_eta.
  destruct (find_slot 0 _) as [slot|]; [|done]. unfold fork_from, fork_memory, mbind, M_bind.
  destruct (in_heap _ k) as [child k1| | |]; try done. destruct (child =? 0); [done|].
  destruct (in_sched _ k1) as [parent k2| | |]; try done. destruct (take_pid k2) as [pid k3| | |]; try done.
  destruct (in_vm (in_pmm pmm_alloc) k3) as [a k4| | |]; try done. destruct (a =? 0); [done|]. cbv zeta.
  destruct (physical_to_virtual a =? 0); [done|]. destruct (in_vm (copy_page _ _) k4) as [[] k5| | |]; try done.
  destruct (in_vm (paging_deep_copy_directory _) k5) as [d k6| | |]; try done. destruct (d =? 0); [done|].
  destruct (negb (p_is_user parent)); [done|]. by destruct (in_vm (push_all _ _) k6).
Qed.

(** C11. fork() makes a second process that is the first one but for its
    identity. On a kernel whose current process [x] has a well-formed address
    space, process_fork() returns the next PID and leaves: a child in a free
    table slot and at the end of the run queue, READY, with the parent's
    fields, its own stack and its own address space that maps the same
    addresses to the same bytes; registers (and an iret frame, for a user
    process) that continue where the parent is with 0 as result; and every
    other process, address space and page in use as it was. Only a full table
    and running out of memory stop it. *)
Theorem process_fork_clones stub k c x src stk T l :
  can_fork k c x src stk T l →
  (∃ msg, process_fork stub k = Panic msg) ∨
  ∃ k' child n slot stk' b T', process_fork stub k = Done (next_pid (k_sched k)) k' ∧
    procs (k_sched k) !! child = None ∧
    procs (k_sched k') !! child = Some (set_next n
      (forked_child x (next_pid (k_sched k)) stk' (physical_to_virtual b) (child_cpu stub stk' x))) ∧
    (∀ q y, procs (k_sched k) !! q = Some y → ∃ m, procs (k_sched k') !! q = Some (set_next m y)) ∧
    queue (k_sched k') (l ++ [child]) ∧
    process_table (k_sched k) !! slot = Some 0 ∧
    process_table (k_sched k') = <[slot := child]> (process_table (k_sched k)) ∧
    current_process (k_sched k') = c ∧ next_pid (k_sched k') = u64 (next_pid (k_sched k) + 1) ∧
    vm_forked (k_vm k) (k_vm k') src T stk' b T' ∧
    child_stack (k_vm k) (k_vm k') x stk stk' ∧ processes_owned k'.
Proof.
  intros Hf. pose proof Hf as [(Hcur & Hc0 & Hx) Hq Hown _ _ _ _ _ _].
  rewrite process_fork_from by congruence. rewrite Hcur.
  destruct (find_slot 0 (process_table (k_sched k))) as [slot|] eqn:Hslot; [|left; eauto].
  apply free_slot_spec in Hslot as [_ Hslot]. rewrite Nat.sub_0_r in Hslot. unfold fork_from.
  destruct (kmalloc_process k Hown) as [Hk|(child & h & Hk & Hch0 & Hnone & Hown')].
  { left. eexists. apply bind_Panic. unfold in_heap, zoom. by rewrite Hk. }
  erewrite bind_Done by (unfold in_heap, zoom; rewrite Hk; reflexivity).
  rewrite (proj2 (Z.eqb_neq child 0)) by done. set (k1 := Kernel _ _ h).
  rewrite (bind_Done _ _ _ _ _ (run_sched _ k1 _ _ (deref_Done _ _ _ Hx))).
  erewrite bind_Done by reflexivity. cbn [k_sched k_vm k_heap k1]. set (s1 := with_next_pid _ _).
  destruct (fork_memory_spec stub k c x src stk T l (next_pid (k_sched k)) Hf s1 h)
    as [[msg H]|(v' & stk' & b & T' & H & Hvf & Hst)].
  { left. exists msg. apply bind_Panic. exact H. }
  rewrite (bind_Done _ _ _ _ _ H). clear H. set (y := forked_child _ _ _ _ _).
  set (s2 := with_table <[slot := child]> (with_procs <[child := y]> s1)).
  assert (Hnl : child ∉ l).
  { intros Hin. destruct (chain_elem _ _ _ _ (queue_chain _ _ Hq) Hin) as [z Hz]. congruence. }
  assert (Hq2 : queue s2 l).
  { destruct Hq as [Q1 Q2 Q3 Q4 Q5]. split; try done. by apply chain_insert. }
  destruct (queue_add s2 l child y Hq2 Hnl Hch0 (lookup_insert_eq _ _ _)) as (s3 & Ha & Hq3 & [n Hy] & Hoth & (Ht3 & Hc3 & Hp3) & Hno).
  right. exists (Kernel s3 v' h), child, n, slot, stk', b, T'. split.
  { erewrite bind_Done by reflexivity. erewrite bind_Done by reflexivity.
    by rewrite (bind_Done _ _ _ _ _ (run_sched _ (Kernel s2 v' h) tt _ Ha)). }
  cbn [k_sched k_vm]. split_and!; try done.
  - intros q z Hz. apply Hoth; [congruence|]. unfold s2. cbn. rewrite lookup_insert_ne by congruence. exact Hz.
  - by rewrite Hc3.
  - apply Hown'. intros q Hq1 Hq2'. apply Hno; [done|]. cbn. by rewrite lookup_insert_ne.
Qed.

(** C10. fork() gives the child an address space of its own that reads like the
    parent's: paging_deep_copy_directory() maps exactly the addresses the
    source maps, each to the same byte and with the same permissions, on
    frames that were free and that no two addresses share; the kernel half is
    the source's, no other address space and no page in use changes, and
    freeing the copy later gives back exactly what was taken. Only running
    out of memory stops it. *)
Theorem paging_deep_copy_exact s src T :
  space_wf s src T → no_huge s T → pages_in_use s T →
  (∃ msg, paging_deep_copy_directory (physical_to_virtual src) s = Panic msg) ∨
  ∃ b s' T', paging_deep_copy_directory (physical_to_virtual src) s = Done (physical_to_virtual b) s' ∧
    space_wf s' b T' ∧
    (∀ v, user_addr v → same_byte s T s' T' v) ∧
    (∀ v v' p, user_addr v → user_addr v' → get_physical_in (physical_to_virtual b) v s' = Done p s' →
       get_physical_in (physical_to_virtual b) v' s' = Done p s' → p ≠ 0 → v = v') ∧
    (∀ i, 256 <= i < 512 → rd64 (mem s') (b + 8 * i) = rd64 (mem s) (src + 8 * i)) ∧
    (∀ root2 T2, space_wf s root2 T2 → space_wf s' root2 T2 ∧ ∀ v, translation s' T2 v = translation s T2 v) ∧
    (∀ c i, page_ok c → used (frames s) (c / 4096) = true → 0 <= i < 4096 → rd8 (mem s') (c + i) = rd8 (mem s) (c + i)) ∧
    (∃ s'', paging_free_directory (physical_to_virtual b) s' = Done tt s'' ∧
       ∀ k, 0 < k → used (frames s'') k = used (frames s) k).
Proof.
  intros Hwf Hh Hp. destruct (deep_copy_spec s src T Hwf Hh Hp) as [|(b & s' & T' & H & Hc & Hr & Hk)]; [by left|right].
  exists b, s', T'. split; [exact H|]. clear H. pose proof (cp_wf _ _ _ _ Hc) as Hwf'.
  split_and!; [done| | |done| |apply (cp_mem _ _ _ _ Hc)|].
  - intros v Hv. by eapply copied_byte.
  - intros v v' p Hv Hv'. rewrite !(get_physical_in_translation _ _ _ _ Hwf') by done. intros [= <-] [= He] Hne.
    by eapply copied_inj.
  - intros root2 T2. by eapply copying_frame.
  - destruct (copying_free _ _ _ _ Hc) as (s'' & Hf & _ & Hu). eauto.
Qed.

(** ** Witness: a space with one page, copied *)

Lemma demo_copy_runs :
  (match map_page_in (physical_to_virtual 0x3000) 0x400000 0x2000 7 demo_vm with
   | Done _ s => match paging_deep_copy_directory (physical_to_virtual 0x3000) s with Done _ _ => true | _ => false end
   | _ => false
   end) = true.
Proof. vm_compute. reflexivity. Qed.

Lemma demo_mapped : ∃ s' T', map_page_in (physical_to_virtual 0x3000) 0x400000 0x2000 7 demo_vm = Done tt s' ∧
  space_wf s' 0x3000 T' ∧ no_huge s' T' ∧ pages_in_use s' T' ∧
  (∀ k, used (frames demo_vm) k = true → used (frames s') k = true) ∧ translation s' T' 0x400000 = 0x2000.
Proof.
  pose proof demo_copy_runs as Hr.
  destruct (map_page_in_spec demo_vm 0x3000 _ 0x400000 0x2000 7 (demo_wf 0x3000 (or_intror eq_refl)))
    as [[msg H]|(s' & T' & H & Hwf & _ & Htr & _ & Hus & _ & _ & Hh & Hlf)].
  - unfold user_addr. by_compute.
  - by_compute.
  - rewrite H in Hr. discriminate Hr.
  - exists s', T'. split; [exact H|]. split; [exact Hwf|]. split; [|split; [|split; [exact Hus|]]].
    + apply Hh. intros q t i [<- _]%lookup_singleton_Some Hl. discriminate Hl.
    + eapply (pages_in_use_map demo_vm s' _ T' 0x400000 2 7); [|split; by_compute|reflexivity|exact Hus|exact Hlf].
      intros q i _ Hl Hp. unfold leaf in Hp. rewrite lookup_singleton_ne in Hp by (by intros <-). discriminate Hp.
    + rewrite Htr by (unfold user_addr; by_compute). reflexivity.
Qed.

Lemma paging_deep_copy_exact_witness : ∃ s b s' T', paging_deep_copy_directory (physical_to_virtual 0x3000) s
    = Done (physical_to_virtual b) s' ∧ space_wf s' b T' ∧ translation s' T' 0x400000 ≠ 0.
Proof.
  pose proof demo_copy_runs as Hr. destruct demo_mapped as (s & T & H & Hwf & Hh & Hp & _ & Ht). rewrite H in Hr.
  destruct (paging_deep_copy_exact s 0x3000 T) as [[msg Hc]|(b & s' & T' & Hc & Hwf' & Hb & _)].
  - exact Hwf.
  - exact Hh.
  - exact Hp.
  - rewrite Hc in Hr. discriminate Hr.
  - exists s, b, s', T'. split; [exact Hc|]. split; [exact Hwf'|].
    destruct (Hb 0x400000) as [[H0 _]|(_ & H0 & _)].
    + unfold user_addr. by_compute.
    + cbv zeta in H0. rewrite Ht in H0. discriminate H0.
    + exact H0.
Defined.

(** Its process, forked. *)
Definition demo_parent : Z := HEAP_START + HEADER_SIZE.

Definition demo_fork_heap : heap :=
  match kmalloc PROCESS_T_SIZE fresh_heap with Done _ h => h | _ => fresh_heap end.

Definition demo_fork_proc : process_t :=
  Proc 7 (cs "init") PROCESS_RUNNING zero_cpu (physical_to_virtual 0x1000) (physical_to_virtual 0x1000 + 4088)
    (physical_to_virtual 0x3000) 10 5 demo_parent 0x7000FF8 0x400010 1 0 true 0x600000 0x600000 0.

Definition demo_fork_sched : sched :=
  Sched {[ demo_parent := demo_fork_proc ]} (demo_parent :: replicate 15 0) demo_parent 8 demo_parent demo_parent 0 0 [].

Lemma demo_fork_runs :
  (match map_page_in (physical_to_virtual 0x3000) 0x400000 0x2000 7 demo_vm with
   | Done _ v => match process_fork 0x1234 (Kernel demo_fork_sched v demo_fork_heap) with Done _ _ => true | _ => false end
   | _ => false
   end) = true.
Proof. vm_compute. reflexivity. Qed.

Lemma demo_can_fork v T : space_wf v 0x3000 T → no_huge v T → pages_in_use v T →
  (∀ k, used (frames demo_vm) k = true → used (frames v) k = true) →
  can_fork (Kernel demo_fork_sched v demo_fork_heap) demo_parent demo_fork_proc 0x3000 0x1000 T [demo_parent].
Proof.
  intros Hwf Hh Hp Hus. split; try done.
  - split; [apply NoDup_singleton|by rewrite list_elem_of_singleton|done|done|]. split; [|done].
    exists demo_fork_proc. split; [apply lookup_singleton_eq|done].
  - exists [(demo_parent, PROCESS_T_SIZE)]. split.
    + apply heap_run_inv, (heap_run_kmalloc fresh_heap).
      * eapply heap_run_start, fresh_init.
      * unfold PROCESS_T_SIZE. lia.
      * vm_compute. reflexivity.
    + intros p x Hx. cbn in Hx. apply (lookup_singleton_Some demo_parent p) in Hx as [<- _]. by left.
  - by apply Hus.
  - split; [done|]. split; [split; by_compute|by apply Hus].
Qed.

Lemma process_fork_clones_witness : ∃ k k' child, process_fork 0x1234 k = Done 8 k' ∧
  procs (k_sched k) !! child = None ∧ queue (k_sched k') [demo_parent; child].
Proof.
  pose proof demo_fork_runs as Hr. destruct demo_mapped as (v & T & H & Hwf & Hh & Hp & Hus & _). rewrite H in Hr.
  destruct (process_fork_clones 0x1234 (Kernel demo_fork_sched v demo_fork_heap) demo_parent demo_fork_proc 0x3000 0x1000 T
    [demo_parent] (demo_can_fork v T Hwf Hh Hp Hus))
    as [[msg Hc]|(k' & child & n & slot & stk' & b & T' & Hc & Hn & _ & _ & Hq & _)].
  - rewrite Hc in Hr. discriminate Hr.
  - exists (Kernel demo_fork_sched v demo_fork_heap), k', child. split; [exact Hc|]. split; [exact Hn|exact Hq].
Defined.
