(* ===== verification/Vga.v ===== *)
(** The text display: drivers/display/vga.c, and the clock of
    drivers/timer/timer.c in its corner.

    The screen memory is the list of its 80 x 25 cells, each a character and
    an attribute byte; an access outside it is a fault. What the driver does
    is compared with writing on paper: lines are added at the bottom and never
    move, and the screen is the last 25 of them. *)

From S2P Require Import Prelude Sched.

Definition VGA_WIDTH : Z := 80.
Definition VGA_HEIGHT : Z := 25.

(** The colours used: enum vga_colour. *)
Definition BLACK : Z := 0.
Definition CYAN : Z := 3.
Definition RED : Z := 4.
Definition LIGHT_BLUE : Z := 9.
Definition LIGHT_GREEN : Z := 10.
Definition LIGHT_CYAN : Z := 11.
Definition LIGHT_RED : Z := 12.
Definition YELLOW : Z := 14.
Definition WHITE : Z := 15.

Record vga := Vga { cells : list Z; cursor_x : Z; cursor_y : Z; colour : Z }.

Definition peek (i : Z) : M vga Z := λ v,
  if decide (0 <= i) then access (cells v !! Z.to_nat i) v else Fault.

Definition put (i e : Z) : M vga unit := λ v,
  if decide (0 <= i < Z.of_nat (length (cells v)))
  then Done tt (Vga (<[Z.to_nat i := e]> (cells v)) (cursor_x v) (cursor_y v) (colour v))
  else Fault.

Definition set_cursor (x y : Z) : M vga unit := modify (λ v, Vga (cells v) x y (colour v)).

(** (unsigned short)c of a signed char, and the attribute in the high byte. *)
Definition make_entry (c col : Z) : Z := u16 (Z.lor (u16 (i8 c)) (Z.shiftl col 8)).

Definition vga_set_colour (fg bg : Z) : M vga unit :=
  modify (λ v, Vga (cells v) (cursor_x v) (cursor_y v) (u8 (Z.lor (Z.shiftl bg 4) fg))).

Definition put_char (i c : Z) : M vga unit :=
  col ← gets colour; put i (make_entry c col).

Definition vga_clear : M vga unit :=
  for_up (Z.to_nat (VGA_WIDTH * VGA_HEIGHT)) 0 (λ i, put_char i 32) ;;
  set_cursor 0 0.

Definition scroll : M vga unit :=
  y ← gets cursor_y;
  if y <? VGA_HEIGHT then mret tt
  else
    for_up (Z.to_nat (VGA_HEIGHT - 1)) 0 (λ y,
      for_up (Z.to_nat VGA_WIDTH) 0 (λ x,
        e ← peek ((y + 1) * VGA_WIDTH + x);
        put (y * VGA_WIDTH + x) e)) ;;
    for_up (Z.to_nat VGA_WIDTH) 0 (λ x, put_char ((VGA_HEIGHT - 1) * VGA_WIDTH + x) 32) ;;
    x ← gets cursor_x;
    set_cursor x (VGA_HEIGHT - 1).

Definition vga_putchar (c : Z) : M vga unit :=
  v ← get;
  let x := cursor_x v in
  let y := cursor_y v in
  (if c =? 10 then set_cursor 0 (y + 1)
   else if c =? 13 then set_cursor 0 y
   else if c =? 8 then
     if x >? 0 then
       set_cursor (x - 1) y ;;
       put_char (y * VGA_WIDTH + (x - 1)) 32
     else mret tt
   else
     put_char (y * VGA_WIDTH + x) c ;;
     if x + 1 >=? VGA_WIDTH then set_cursor 0 (y + 1) else set_cursor (x + 1) y) ;;
  scroll.

(** [str] is the string without its NUL. *)
Fixpoint vga_print (str : list Z) : M vga unit :=
  match str with
  | [] => mret tt
  | c :: str => vga_putchar c ;; vga_print str
  end.

Definition vga_init : M vga unit :=
  vga_set_colour WHITE BLACK ;;
  vga_clear.

(** The handler of /devices/display, on the bytes of its buffer. *)
Definition dev_display_write (buffer : list Z) (size : Z) : M vga Z :=
  for_up (Z.to_nat size) 0 (λ i, c ← access (buffer !! Z.to_nat i); vga_putchar c) ;;
  mret (i32 size).

(** update_clock() of the timer: the uptime in the top right corner. *)
Definition clock_text (ticks : Z) : list Z :=
  let seconds := ticks / TIMER_FREQUENCY in
  let minutes := seconds / 60 in
  let hours := minutes / 60 in
  let seconds := seconds mod 60 in
  let minutes := minutes mod 60 in
  u8 <$> [85; 80; 32; 48 + hours / 10; 48 + hours mod 10; 58;
          48 + minutes / 10; 48 + minutes mod 10; 58; 48 + seconds / 10; 48 + seconds mod 10].

Definition update_clock (ticks : Z) : M vga unit :=
  for_up 11 0 (λ i,
    c ← access (clock_text ticks !! Z.to_nat i);
    put (69 + i) (u16 (Z.lor (u16 (i8 c)) (Z.shiftl 10 8)))).

(** What timer_handler() does to the screen when the counter reaches [ticks]. *)
Definition clock_tick (ticks : Z) : M vga unit :=
  if ticks mod TIMER_FREQUENCY =? 0 then update_clock ticks else mret tt.

(** * Writing on paper

    The reference: rows of 80 cells; a new row is added when the text goes
    past the last one. *)

Record paper := Paper { rows : list (list Z); row : nat; col : Z }.

Definition blank_row (attr : Z) : list Z := replicate 80 (make_entry 32 attr).

Definition new_line (attr : Z) (p : paper) : paper :=
  Paper (if decide (S (row p) < length (rows p))%nat then rows p else rows p ++ [blank_row attr]) (S (row p)) 0.

Definition write_at (x : Z) (e : Z) (p : paper) : list (list Z) :=
  alter (λ r, <[Z.to_nat x := e]> r) (row p) (rows p).

Definition type_char (attr c : Z) (p : paper) : paper :=
  if c =? 10 then new_line attr p
  else if c =? 13 then Paper (rows p) (row p) 0
  else if c =? 8 then
    if col p >? 0 then Paper (write_at (col p - 1) (make_entry 32 attr) p) (row p) (col p - 1) else p
  else
    let p' := Paper (write_at (col p) (make_entry c attr) p) (row p) (col p + 1) in
    if col p + 1 =? 80 then new_line attr p' else p'.

Definition type_text (attr : Z) (text : list Z) (p : paper) : paper := foldl (λ p c, type_char attr c p) p text.

(** 25 blank rows. *)
Definition blank_paper (attr : Z) : paper := Paper (replicate 25 (blank_row attr)) 0 0.

Record paper_ok (p : paper) : Prop := {
  ok_rows : (25 <= length (rows p))%nat;
  ok_width : Forall (λ r, length r = 80%nat) (rows p);
  ok_row : (length (rows p) - 25 <= row p < length (rows p))%nat;
  ok_col : 0 <= col p < 80 }.

(** The screen is the last 25 rows, and the cursor is in it. *)
Record shows (v : vga) (p : paper) : Prop := {
  sh_cells : cells v = mjoin (drop (length (rows p) - 25) (rows p));
  sh_x : cursor_x v = col p;
  sh_y : cursor_y v = Z.of_nat (row p - (length (rows p) - 25)) }.

(** ** Grids: rows of the same width, as one list *)

Lemma length_grid (w : nat) (l : list (list Z)) : Forall (λ r, length r = w) l → length (mjoin l) = (w * length l)%nat.
Proof. induction 1 as [|r l Hr _ IH]; simpl; [lia|]. rewrite length_app, IH, Hr. lia. Qed.

Lemma grid_lookup (w : nat) (l : list (list Z)) y x r : Forall (λ r, length r = w) l → l !! y = Some r → (x < w)%nat →
  mjoin l !! (y * w + x)%nat = r !! x.
Proof.
  intros Hf. revert y. induction Hf as [|r' l Hr _ IH]; intros [|y] Hy Hx; simplify_eq/=.
  - by rewrite lookup_app_l by lia.
  - rewrite lookup_app_r by lia. rewrite <- (IH y) by done. f_equal. lia.
Qed.

Lemma grid_insert (w : nat) (l : list (list Z)) y x e : Forall (λ r, length r = w) l → (y < length l)%nat → (x < w)%nat →
  <[(y * w + x)%nat := e]> (mjoin l) = mjoin (alter (λ r, <[x := e]> r) y l).
Proof.
  intros Hf. revert y. induction Hf as [|r l Hr _ IH]; intros [|y] Hy Hx; simpl in *; try lia.
  - by rewrite insert_app_l by lia.
  - replace (w + y * w + x)%nat with (length r + (y * w + x))%nat by lia. rewrite insert_app_r. f_equal. apply IH; lia.
Qed.

(** ** The driver's steps *)

Lemma cell_put_Done i e v : 0 <= i < Z.of_nat (length (cells v)) →
  put i e v = Done tt (Vga (<[Z.to_nat i := e]> (cells v)) (cursor_x v) (cursor_y v) (colour v)).
Proof. intros Hi. unfold put. by rewrite decide_True. Qed.

Lemma peek_Done i e v : 0 <= i → cells v !! Z.to_nat i = Some e → peek i v = Done e v.
Proof. intros Hi He. unfold peek. by rewrite decide_True, He by done. Qed.

(** One cell of the move: the cells before [k] are those 80 further on. *)
Lemma move_cell k (c : list Z) e : c !! (k + 80)%nat = Some e →
  <[k := e]> (take k (drop 80 c) ++ drop k c) = take (S k) (drop 80 c) ++ drop (S k) c.
Proof.
  intros He. pose proof (lookup_lt_Some _ _ _ He) as Hl.
  assert (Ht : length (take k (drop 80 c)) = k) by (rewrite length_take, length_drop; lia).
  assert (Hk : drop 80 c !! k = Some e) by (by rewrite lookup_drop, Nat.add_comm).
  destruct (lookup_lt_is_Some_2 c k) as [d Hd]; [lia|].
  rewrite (take_S_r _ _ _ Hk), (drop_S _ _ _ Hd), <- app_assoc. rewrite insert_app_r_alt by lia. by rewrite Ht, Nat.sub_diag.
Qed.

Definition moved (v : vga) (k : Z) (t : vga) : Prop :=
  cells t = take (Z.to_nat k) (drop 80 (cells v)) ++ drop (Z.to_nat k) (cells v) ∧
  cursor_x t = cursor_x v ∧ cursor_y t = cursor_y v ∧ colour t = colour v.

Lemma move_row v y t : length (cells v) = 2000%nat → 0 <= y < 24 → moved v (y * 80) t →
  ∃ t', for_up (Z.to_nat VGA_WIDTH) 0 (λ x, e ← peek ((y + 1) * VGA_WIDTH + x); put (y * VGA_WIDTH + x) e) t = Done tt t' ∧
    moved v ((y + 1) * 80) t'.
Proof.
  intros Hl Hy Hm. unfold VGA_WIDTH.
  destruct (for_up_rule (λ x u, moved v (y * 80 + x) u) (Z.to_nat 80) 0
    (λ x, e ← peek ((y + 1) * 80 + x); put (y * 80 + x) e) t) as (t' & Hrun & Hm').
  - by rewrite Z.add_0_r.
  - intros x u Hx (Hc & H1 & H2 & H3).
    destruct (lookup_lt_is_Some_2 (cells v) (Z.to_nat (y * 80 + x) + 80)) as [e He]; [lia|].
    assert (Hlen : length (cells u) = 2000%nat) by (rewrite Hc, length_app, length_take, !length_drop; lia).
    erewrite bind_Done.
    2:{ apply peek_Done; [lia|]. rewrite Hc, lookup_app_r by (rewrite length_take, length_drop; lia).
        rewrite length_take, length_drop, lookup_drop. rewrite <- He. f_equal. lia. }
    rewrite cell_put_Done by lia. eexists. split; [done|]. split; [|by split_and!]. cbn [cells].
    rewrite Hc, (move_cell _ _ _ He). by replace (Z.to_nat (y * 80 + (x + 1))) with (S (Z.to_nat (y * 80 + x))) by lia.
  - exists t'. split; [exact Hrun|]. by replace ((y + 1) * 80) with (y * 80 + (0 + Z.of_nat (Z.to_nat 80))) by lia.
Qed.

(** Blanks from cell [a] on. *)
Lemma fill_blank (n : nat) a t : 0 <= a → (Z.to_nat a + n <= length (cells t))%nat →
  ∃ t', for_up n 0 (λ x, put_char (a + x) 32) t = Done tt t' ∧
    cells t' = take (Z.to_nat a) (cells t) ++ replicate n (make_entry 32 (colour t)) ++ drop (Z.to_nat a + n) (cells t) ∧
    cursor_x t' = cursor_x t ∧ cursor_y t' = cursor_y t ∧ colour t' = colour t.
Proof.
  intros Ha Hl.
  destruct (for_up_rule (λ x u, cells u = take (Z.to_nat a) (cells t) ++ replicate (Z.to_nat x) (make_entry 32 (colour t)) ++ drop (Z.to_nat a + Z.to_nat x) (cells t) ∧
    cursor_x u = cursor_x t ∧ cursor_y u = cursor_y t ∧ colour u = colour t) n 0 (λ x, put_char (a + x) 32) t) as (t' & Hrun & Hc & H).
  - split; [|done]. simpl. by rewrite Nat.add_0_r, take_drop.
  - intros x u Hx (Hc & H1 & H2 & H3).
    assert (Hlen : length (cells u) = length (cells t)).
    { rewrite Hc, !length_app, length_take, length_replicate, length_drop. lia. }
    unfold put_char. run. rewrite cell_put_Done by lia. eexists. split; [done|]. cbn [cells cursor_x cursor_y colour].
    split; [|done]. rewrite Hc, H3.
    replace (Z.to_nat (a + x)) with (length (take (Z.to_nat a) (cells t)) + Z.to_nat x)%nat by (rewrite length_take; lia).
    rewrite insert_app_r. f_equal. replace (Z.to_nat (x + 1)) with (S (Z.to_nat x)) by lia.
    rewrite insert_app_r_alt by (rewrite length_replicate; lia). rewrite length_replicate, Nat.sub_diag.
    destruct (lookup_lt_is_Some_2 (cells t) (Z.to_nat a + Z.to_nat x)) as [d Hd]; [lia|].
    rewrite (drop_S _ _ _ Hd), replicate_S_end, <- app_assoc. simpl. by rewrite Nat.add_succ_r.
  - exists t'. split; [exact Hrun|]. rewrite Z.add_0_l, Nat2Z.id in Hc. by split.
Qed.

Lemma scroll_none v : cursor_y v < 25 → scroll v = Done tt v.
Proof. intros Hy. unfold scroll, VGA_HEIGHT. run. by rewrite (proj2 (Z.ltb_lt _ _)). Qed.

Lemma scroll_one v : length (cells v) = 2000%nat → cursor_y v = 25 →
  scroll v = Done tt (Vga (drop 80 (cells v) ++ blank_row (colour v)) (cursor_x v) 24 (colour v)).
Proof.
  intros Hl Hy. unfold scroll. rewrite (bind_Done (gets cursor_y) _ v (cursor_y v) v eq_refl), Hy.
  change (25 <? VGA_HEIGHT) with false. cbv iota.
  destruct (for_up_rule (λ y u, moved v (y * 80) u) (Z.to_nat (VGA_HEIGHT - 1)) 0
    (λ y, for_up (Z.to_nat VGA_WIDTH) 0 (λ x, e ← peek ((y + 1) * VGA_WIDTH + x); put (y * VGA_WIDTH + x) e)) v)
    as (t & Hrun & Hc & Hx & Hyy & Hcol).
  - unfold moved. by rewrite take_0, drop_0.
  - intros y u Hyr Hm. unfold VGA_HEIGHT in Hyr. by apply move_row; [|lia|].
  - rewrite (bind_Done _ _ _ _ _ Hrun).
    change (Z.to_nat ((0 + Z.of_nat (Z.to_nat (VGA_HEIGHT - 1))) * 80)) with 1920%nat in Hc.
    destruct (fill_blank 80 ((VGA_HEIGHT - 1) * VGA_WIDTH) t) as (t' & Hrun' & Hc' & Hx' & Hy' & Hcol').
    { unfold VGA_HEIGHT, VGA_WIDTH. lia. }
    { rewrite Hc, length_app, length_take, !length_drop. unfold VGA_HEIGHT, VGA_WIDTH. lia. }
    change (Z.to_nat VGA_WIDTH) with 80%nat. rewrite (bind_Done _ _ _ _ _ Hrun'). unfold set_cursor, modify. run.
    rewrite Hc', Hx', Hcol', Hcol, Hx. do 2 f_equal. change (Z.to_nat ((VGA_HEIGHT - 1) * VGA_WIDTH)) with 1920%nat.
    rewrite Hc, (drop_ge _ (1920 + 80)) by (rewrite length_app, length_take, !length_drop; lia). rewrite app_nil_r. f_equal.
    rewrite take_app_length' by (rewrite length_take, length_drop; lia). apply take_ge. rewrite length_drop. lia.
Qed.

(** ** The screen shows the paper *)

Lemma shows_length v p : paper_ok p → shows v p → length (cells v) = 2000%nat.
Proof.
  intros [Hn Hw _ _] [Hc _ _]. rewrite Hc, (length_grid 80) by (by apply Forall_drop). rewrite length_drop. lia.
Qed.

Lemma blank_width attr : length (blank_row attr) = 80%nat.
Proof. apply length_replicate. Qed.

(** A cell of the cursor's row. *)
Lemma shows_put v p x e : paper_ok p → shows v p → 0 <= x < 80 →
  let p' := Paper (write_at x e p) (row p) (col p) in
  ∃ v', put (cursor_y v * VGA_WIDTH + x) e v = Done tt v' ∧ shows v' p' ∧ paper_ok p' ∧ colour v' = colour v.
Proof.
  intros Hok Hs Hx p'. pose proof (shows_length v p Hok Hs) as Hl. pose proof Hok as [Hn Hw Hr Hcol].
  pose proof Hs as [Hc Hsx Hsy]. unfold VGA_WIDTH. rewrite cell_put_Done by lia. eexists. split; [done|].
  assert (Hlen : length (write_at x e p) = length (rows p)) by (unfold write_at; by rewrite length_alter).
  split; [|split; [|done]].
  - split; cbn [cells cursor_x cursor_y p' rows row col]; [|done|by rewrite Hlen].
    rewrite Hlen, Hc. set (k := (length (rows p) - 25)%nat) in *.
    replace (Z.to_nat (cursor_y v * 80 + x)) with ((row p - k) * 80 + Z.to_nat x)%nat by lia.
    rewrite (grid_insert 80); [|by apply Forall_drop|rewrite length_drop; lia|lia]. f_equal. unfold write_at.
    rewrite drop_alter_ge by lia. done.
  - split; cbn [p' rows row col]; [by rewrite Hlen| |by rewrite Hlen|done].
    unfold write_at. apply Forall_alter; [done|]. intros r _ H. by rewrite length_insert.
Qed.

(** The end of a line. *)
Lemma shows_new_line v p : paper_ok p → shows v p →
  ∃ v', scroll (Vga (cells v) 0 (cursor_y v + 1) (colour v)) = Done tt v' ∧
    shows v' (new_line (colour v) p) ∧ paper_ok (new_line (colour v) p) ∧ colour v' = colour v.
Proof.
  intros Hok Hs. pose proof (shows_length v p Hok Hs) as Hl. pose proof Hok as [Hn Hw Hr Hcol].
  pose proof Hs as [Hc Hsx Hsy]. unfold new_line. case_decide as Hd.
  - rewrite scroll_none by (cbn [cursor_y]; lia). eexists. split; [done|]. split; [|split; [|done]].
    + split; cbn; [done|done|lia].
    + split; cbn; [done|done|lia|lia].
  - rewrite scroll_one by (done || cbn [cursor_y]; lia). eexists. split; [done|]. cbn [cells cursor_x colour].
    split; [|split; [|done]].
    + split; cbn [cells cursor_x cursor_y rows row col]; [|done|rewrite length_app; simpl; lia].
      rewrite length_app. simpl length. rewrite drop_app_le by lia.
      replace (length (rows p) + 1 - 25)%nat with (S (length (rows p) - 25)) by lia.
      destruct (lookup_lt_is_Some_2 (rows p) (length (rows p) - 25)) as [r Hrk]; [lia|].
      rewrite Hc, (drop_S _ _ _ Hrk). rewrite join_app.
      change (mjoin [blank_row (colour v)]) with (blank_row (colour v) ++ []). rewrite app_nil_r. f_equal.
      match goal with |- drop 80 (mjoin (r :: ?l)) = _ => change (mjoin (r :: l)) with (r ++ mjoin l) end.
      pose proof (Forall_lookup_1 _ _ _ _ Hw Hrk) as H80. simpl in H80. by rewrite drop_app_length'.
    + split; cbn [rows row col]; rewrite ?length_app; simpl length; [lia| |lia|lia].
      apply Forall_app. split; [done|]. constructor; [apply blank_width|done].
Qed.

Lemma vga_putchar_shows c v p : paper_ok p → shows v p →
  ∃ v', vga_putchar c v = Done tt v' ∧ shows v' (type_char (colour v) c p) ∧
    paper_ok (type_char (colour v) c p) ∧ colour v' = colour v.
Proof.
  intros Hok Hs. pose proof Hok as [Hn Hw Hr Hcol]. pose proof Hs as [Hc Hsx Hsy].
  unfold vga_putchar, type_char. rewrite (bind_Done get _ v v v eq_refl). cbv zeta. rewrite Hsx.
  destruct (c =? 10).
  { erewrite bind_Done by reflexivity. by apply shows_new_line. }
  destruct (c =? 13).
  { erewrite bind_Done by reflexivity. rewrite scroll_none by (cbn [cursor_y]; lia). eexists. split; [done|].
    split; [by split|]. split; [|done]. split; cbn; [done|done|done|lia]. }
  destruct (c =? 8).
  { destruct (Z.gtb_spec (col p) 0).
    - set (p1 := Paper (rows p) (row p) (col p - 1)).
      destruct (shows_put (Vga (cells v) (col p - 1) (cursor_y v) (colour v)) p1 (col p - 1) (make_entry 32 (colour v)))
        as (v' & Hput & Hs' & Hok' & Hcol').
      { split; cbn; [done|done|done|lia]. }
      { by split. }
      { lia. }
      erewrite bind_Done by (erewrite bind_Done by reflexivity; exact Hput).
      rewrite scroll_none by (rewrite (sh_y _ _ Hs'); cbn [rows row p1]; unfold write_at; rewrite length_alter; cbn; lia).
      eexists. split; [done|]. by split_and!.
    - erewrite bind_Done by reflexivity. rewrite scroll_none by lia. eauto 10. }
  destruct (shows_put v p (col p) (make_entry c (colour v)) Hok Hs Hcol) as (v1 & Hput & Hs1 & Hok1 & Hcol1).
  rewrite (bind_Done _ _ _ tt (if col p + 1 =? 80 then Vga (cells v1) 0 (cursor_y v + 1) (colour v1)
                              else Vga (cells v1) (col p + 1) (cursor_y v) (colour v1))).
  2:{ rewrite (bind_Done (put_char (cursor_y v * VGA_WIDTH + col p) c) _ v tt v1 Hput). unfold VGA_WIDTH.
      destruct (Z.geb_spec (col p + 1) 80), (Z.eqb_spec (col p + 1) 80); try lia; reflexivity. }
  assert (Hy1 : cursor_y v1 = cursor_y v).
  { rewrite (sh_y _ _ Hs1), Hsy. cbn [rows row]. unfold write_at. by rewrite length_alter. }
  rewrite <- Hcol1. destruct (Z.eqb_spec (col p + 1) 80).
  - rewrite <- Hy1. eapply (shows_new_line v1 (Paper _ _ (col p))) in Hok1 as (v' & H1 & H2 & H3 & H4); [|done].
    exists v'. rewrite <- Hcol1 in *. split_and!; [done|exact H2|exact H3|done].
  - rewrite scroll_none by (cbn [cursor_y]; lia). eexists. split; [done|]. destruct Hok1 as [A1 A2 A3 A4], Hs1 as [B1 B2 B3].
    rewrite Hcol1 in *. split; [split; cbn in *; [done|done|congruence]|]. split; [split; cbn in *; [done|done|done|lia]|done].
Qed.

Lemma vga_print_shows text : ∀ v p, paper_ok p → shows v p →
  ∃ v', vga_print text v = Done tt v' ∧ shows v' (type_text (colour v) text p) ∧
    paper_ok (type_text (colour v) text p) ∧ colour v' = colour v.
Proof.
  induction text as [|c text IH]; intros v p Hok Hs; simpl; [eauto|].
  destruct (vga_putchar_shows c v p Hok Hs) as (v1 & H1 & Hs1 & Hok1 & Hc1).
  rewrite (bind_Done _ _ _ _ _ H1). destruct (IH v1 _ Hok1 Hs1) as (v2 & H2 & Hs2 & Hok2 & Hc2).
  rewrite Hc1 in Hs2, Hok2. exists v2. split_and!; [done..|congruence].
Qed.

Lemma blank_ok attr : paper_ok (blank_paper attr).
Proof. split; cbn; [lia| |lia|lia]. repeat constructor. Qed.

Lemma vga_clear_shows v : length (cells v) = 2000%nat →
  ∃ v', vga_clear v = Done tt v' ∧ shows v' (blank_paper (colour v)) ∧ colour v' = colour v.
Proof.
  intros Hl. unfold vga_clear. change (Z.to_nat (VGA_WIDTH * VGA_HEIGHT)) with 2000%nat.
  destruct (fill_blank 2000 0 v) as (t & Hrun & Hc & Hx & Hy & Hcol); [done|rewrite Hl; done|].
  change (λ x, put_char (0 + x) 32) with (λ i, put_char i 32) in Hrun.
  rewrite (bind_Done _ _ _ _ _ Hrun). eexists. split; [done|]. split; [|done].
  split; cbn [cells cursor_x cursor_y set_cursor]; [|done|done].
  rewrite Hc, take_0, drop_ge, app_nil_r by (rewrite Hl; simpl; lia). reflexivity.
Qed.

(** The handler of the device writes the first [size] bytes of its buffer. *)
Lemma dev_display_write_print buffer (n : nat) v : (n <= length buffer)%nat →
  ∀ v', vga_print (take n buffer) v = Done tt v' → dev_display_write buffer (Z.of_nat n) v = Done (i32 (Z.of_nat n)) v'.
Proof.
  intros Hn v' Hp. unfold dev_display_write. rewrite Nat2Z.id.
  assert (Hgen : ∀ k i w, (i + k <= length buffer)%nat → vga_print (take k (drop i buffer)) w = Done tt v' →
    for_up k (Z.of_nat i) (λ i, c ← access (buffer !! Z.to_nat i); vga_putchar c) w = Done tt v').
  { clear. induction k as [|k IH]; intros i w Hk H; [done|].
    destruct (lookup_lt_is_Some_2 buffer i) as [c Hc]; [lia|]. rewrite (drop_S _ _ _ Hc) in H. simpl in H |- *.
    rewrite Nat2Z.id, Hc. apply bind_Done_inv in H as ([] & w1 & H1 & H).
    erewrite bind_Done by (erewrite bind_Done by reflexivity; exact H1).
    replace (Z.of_nat i + 1) with (Z.of_nat (S i)) by lia. apply IH; [lia|done]. }
  rewrite (bind_Done _ _ _ _ _ (Hgen n 0%nat v Hn Hp)). done.
Qed.

(** Characters that move the cursor by one. *)
Definition printable (c : Z) : Prop := c ≠ 8 ∧ c ≠ 10 ∧ c ≠ 13.

(** A word that fits in the rest of the line stands there. *)
Lemma type_word attr s : ∀ p r, Forall printable s → rows p !! row p = Some r → length r = 80%nat → 0 <= col p →
  col p + Z.of_nat (length s) < 80 →
  let p' := type_text attr s p in
  row p' = row p ∧ col p' = col p + Z.of_nat (length s) ∧ length (rows p') = length (rows p) ∧
  ∃ r', rows p' !! row p = Some r' ∧ length r' = 80%nat ∧
    (∀ k, (k < Z.to_nat (col p))%nat → r' !! k = r !! k) ∧
    ∀ k c, s !! k = Some c → r' !! (Z.to_nat (col p) + k)%nat = Some (make_entry c attr).
Proof.
  induction s as [|c s IH]; intros p r Hs Hr Hlr Hcol Hfit; cbv zeta.
  { simpl. rewrite Z.add_0_r. split_and!; try done. exists r. split_and!; done. }
  apply list.Forall_cons in Hs as [(H8 & H10 & H13) Hs]. simpl length in Hfit. simpl type_text.
  set (p1 := Paper (write_at (col p) (make_entry c attr) p) (row p) (col p + 1)).
  assert (type_char attr c p = p1) as ->.
  { unfold type_char. rewrite (proj2 (Z.eqb_neq c 10)), (proj2 (Z.eqb_neq c 13)), (proj2 (Z.eqb_neq c 8)) by done.
    by rewrite (proj2 (Z.eqb_neq _ 80)) by lia. }
  destruct (IH p1 (<[Z.to_nat (col p) := make_entry c attr]> r) Hs) as (H1 & H2 & H3 & r' & H4 & H5 & H6 & H7).
  - cbn [rows row p1]. unfold write_at. by rewrite list_lookup_alter, decide_True, Hr.
  - by rewrite length_insert.
  - cbn [col p1]. lia.
  - cbn [col p1]. lia.
  - fold (type_text attr s p1). cbn [rows row col p1] in H1, H2, H3, H4, H6, H7.
    split; [done|]. split; [rewrite H2; simpl; lia|]. split; [rewrite H3; unfold write_at; by rewrite length_alter|].
    exists r'. split; [done|]. split; [done|]. split.
    + intros k Hk. rewrite H6 by lia. apply list_lookup_insert_ne. lia.
    + intros [|k] c' Hc'.
      * injection Hc' as <-. rewrite Nat.add_0_r, H6 by lia. apply list_lookup_insert_eq. lia.
      * rewrite <- (H7 k c' Hc'). f_equal. lia.
Qed.

Lemma shows_word v p s v' : paper_ok p → shows v p → Forall printable s → cursor_x v + Z.of_nat (length s) < 80 →
  shows v' (type_text (colour v) s p) →
  ∀ k c, s !! k = Some c → cells v' !! Z.to_nat (cursor_y v * 80 + cursor_x v + Z.of_nat k) = Some (make_entry c (colour v)).
Proof.
  intros Hok Hs Hp Hfit Hs' k c Hk. pose proof Hok as [Hn Hw Hr Hcol]. pose proof Hs as [_ Hsx Hsy]. rewrite Hsx in *.
  destruct (lookup_lt_is_Some_2 (rows p) (row p)) as [r Hrow]; [lia|].
  pose proof (Forall_lookup_1 _ _ _ _ Hw Hrow) as H80. simpl in H80.
  destruct (type_word (colour v) s p r Hp Hrow H80 ltac:(lia) Hfit) as (_ & _ & H3 & r' & H4 & H5 & _ & H7).
  pose proof (lookup_lt_Some _ _ _ Hk). rewrite (sh_cells _ _ Hs'), H3, Hsy.
  replace (Z.to_nat _) with ((row p - (length (rows p) - 25)) * 80 + (Z.to_nat (col p) + k))%nat by lia.
  destruct (vga_print_shows s v p Hok Hs) as (v2 & _ & _ & [_ Hw' _ _] & _).
  rewrite (grid_lookup 80 _ _ _ r'); [by apply H7|by apply Forall_drop| |lia].
  rewrite lookup_drop. rewrite <- H4. f_equal. lia.
Qed.

(** C19. The display is a sheet of paper seen through a window of 25 lines.
    vga_init() blanks it; from then on, whatever text (newlines, returns and
    backspaces included) vga_print() or a write to /devices/display puts out,
    the screen is the last 25 rows of the paper the same text gives with no
    scrolling at all, and the cursor stays inside it: no store ever leaves the
    screen memory. A word that fits in the line stands at the cursor. *)
Theorem display_shows_text v p text :
  (length (cells v) = 2000%nat →
   ∃ v', vga_init v = Done tt v' ∧ shows v' (blank_paper WHITE) ∧ paper_ok (blank_paper WHITE) ∧ colour v' = WHITE) ∧
  (paper_ok p → shows v p →
   (∃ v', vga_print text v = Done tt v' ∧ shows v' (type_text (colour v) text p) ∧
     paper_ok (type_text (colour v) text p) ∧ colour v' = colour v ∧
     0 <= cursor_x v' < 80 ∧ 0 <= cursor_y v' < 25 ∧ length (cells v') = 2000%nat ∧
     (Forall printable text → cursor_x v + Z.of_nat (length text) < 80 →
        ∀ k c, text !! k = Some c →
          cells v' !! Z.to_nat (cursor_y v * 80 + cursor_x v + Z.of_nat k) = Some (make_entry c (colour v)))) ∧
   ∀ (n : nat), (n <= length text)%nat →
     ∃ v', dev_display_write text (Z.of_nat n) v = Done (i32 (Z.of_nat n)) v' ∧
       shows v' (type_text (colour v) (take n text) p)).
Proof.
  split.
  - intros Hl. set (v0 := Vga (cells v) (cursor_x v) (cursor_y v) WHITE).
    destruct (vga_clear_shows v0 Hl) as (v' & Hrun & Hs & Hc). exists v'.
    split; [|split; [exact Hs|split; [apply blank_ok|exact Hc]]].
    unfold vga_init. erewrite bind_Done by reflexivity. exact Hrun.
  - intros Hok Hs. split.
    + destruct (vga_print_shows text v p Hok Hs) as (v' & Hrun & Hs' & Hok' & Hc). exists v'.
      pose proof (shows_length _ _ Hok' Hs'). pose proof Hok' as [? ? ? ?]. pose proof Hs' as [_ ? ?].
      split_and!; [done|done|done|done|lia|lia|lia|lia|done|]. intros Hp Hfit. exact (shows_word v p text v' Hok Hs Hp Hfit Hs').
    + intros n Hn. destruct (vga_print_shows (take n text) v p Hok Hs) as (v' & Hrun & Hs' & _).
      exists v'. split; [by apply dev_display_write_print|done].
Qed.

(** ** Witness *)

Definition demo_screen : vga := Vga (replicate 2000 (make_entry 32 WHITE)) 0 0 WHITE.

Lemma demo_shows : shows demo_screen (blank_paper WHITE).
Proof. split; [|reflexivity|reflexivity]. reflexivity. Qed.

Lemma display_shows_text_witness : ∃ v', vga_print (cs "acorn> ") demo_screen = Done tt v' ∧
  cells v' !! 3%nat = Some (make_entry 114 WHITE).
Proof.
  destruct (display_shows_text demo_screen (blank_paper WHITE) (cs "acorn> ")) as [_ H].
  destruct (H (blank_ok WHITE) demo_shows) as [(v' & Hrun & _ & _ & _ & _ & _ & _ & Hw) _].
  exists v'. split; [exact Hrun|]. apply (Hw ltac:(repeat constructor; discriminate) ltac:(reflexivity) 3%nat 114 eq_refl).
Defined.

(** ** The clock *)

(** The clock overwrites the last eleven cells of the first line, wherever the
    text is, and reads "UP hh:mm:ss" for the first hundred hours. *)
Lemma update_clock_spec ticks v : length (cells v) = 2000%nat →
  ∃ v', update_clock ticks v = Done tt v' ∧ length (cells v') = 2000%nat ∧
    cursor_x v' = cursor_x v ∧ cursor_y v' = cursor_y v ∧ colour v' = colour v ∧
    (∀ i c, clock_text ticks !! i = Some c → cells v' !! (69 + i)%nat = Some (u16 (Z.lor (u16 (i8 c)) (Z.shiftl 10 8)))) ∧
    ∀ i, ¬ (69 <= i < 80)%nat → cells v' !! i = cells v !! i.
Proof.
  intros Hl. unfold update_clock.
  destruct (for_up_rule (λ j u, length (cells u) = 2000%nat ∧ cursor_x u = cursor_x v ∧ cursor_y u = cursor_y v ∧ colour u = colour v ∧
    (∀ i c, (i < Z.to_nat j)%nat → clock_text ticks !! i = Some c → cells u !! (69 + i)%nat = Some (u16 (Z.lor (u16 (i8 c)) (Z.shiftl 10 8)))) ∧
    ∀ i, ¬ (69 <= i < 80)%nat → cells u !! i = cells v !! i) 11 0
    (λ i, c ← access (clock_text ticks !! Z.to_nat i); put (69 + i) (u16 (Z.lor (u16 (i8 c)) (Z.shiftl 10 8)))) v)
    as (v' & Hrun & H1 & H2 & H3 & H4 & H5 & H6).
  - split_and!; try done. intros i c Hi. lia.
  - intros j u Hj (H1 & H2 & H3 & H4 & H5 & H6).
    destruct (lookup_lt_is_Some_2 (clock_text ticks) (Z.to_nat j)) as [c Hc]; [cbn; lia|]. rewrite Hc.
    erewrite bind_Done by reflexivity. rewrite cell_put_Done by lia. eexists. split; [done|]. cbn [cells cursor_x cursor_y colour].
    rewrite length_insert. split_and!; [done..| |].
    + intros i c' Hi Hc'. destruct (decide (i = Z.to_nat j)) as [->|Hne].
      * replace (69 + Z.to_nat j)%nat with (Z.to_nat (69 + j)) by lia. rewrite list_lookup_insert_eq by lia. congruence.
      * rewrite list_lookup_insert_ne by lia. apply H5; [lia|done].
    + intros i Hi. rewrite list_lookup_insert_ne by lia. by apply H6.
  - exists v'. split; [exact Hrun|]. split_and!; try done. intros i c Hi. apply H5; [|done].
    apply lookup_lt_Some in Hi. cbn in Hi. lia.
Qed.
