(* ===== verification/Descriptors.v ===== *)
(** Descriptors and the interrupt controller: kernel/architecture/x86_64/gdt.c,
    tss.c, usermode.c, pic.c, and the tables of idt.c.

    The tables are bytes, written field by field at the offsets of the packed
    structures; what the processor does with them is read off the same bytes.
    Theorems: a gate and the TSS descriptor read back as what was put in, and
    the selectors the kernel uses name the segments they should. *)

From S2P Require Import Prelude Phys.

(** * pic.c: the bytes written to the ports of the two controllers

    A function that only writes gives the list of its writes, port and byte;
    what it reads from a port is an argument. *)

Definition PIC1_COMMAND : Z := 0x20.
Definition PIC1_DATA : Z := 0x21.
Definition PIC2_COMMAND : Z := 0xA0.
Definition PIC2_DATA : Z := 0xA1.
Definition PIC_EOI : Z := 0x20.

Definition io_wait : list (Z * Z) := [(0x80, 0)].

(** [mask1] and [mask2] are what the two data ports read. *)
Definition pic_init (mask1 mask2 : Z) : list (Z * Z) :=
  [(PIC1_COMMAND, 0x11)] ++ io_wait ++ [(PIC2_COMMAND, 0x11)] ++ io_wait ++
  [(PIC1_DATA, 0x20)] ++ io_wait ++ [(PIC2_DATA, 0x28)] ++ io_wait ++
  [(PIC1_DATA, 0x04)] ++ io_wait ++ [(PIC2_DATA, 0x02)] ++ io_wait ++
  [(PIC1_DATA, 0x01)] ++ io_wait ++ [(PIC2_DATA, 0x01)] ++ io_wait ++
  [(PIC1_DATA, mask1); (PIC2_DATA, mask2)].

Definition pic_send_eoi (irq : Z) : list (Z * Z) :=
  (if irq >=? 8 then [(PIC2_COMMAND, PIC_EOI)] else []) ++ [(PIC1_COMMAND, PIC_EOI)].

(** [mask port] is what the port reads. *)
Definition pic_mask (irq : Z) (mask : Z → Z) : list (Z * Z) :=
  let port := if irq <? 8 then PIC1_DATA else PIC2_DATA in
  let irq := if irq >=? 8 then irq - 8 else irq in
  [(port, u8 (Z.lor (mask port) (Z.shiftl 1 irq)))].

Definition pic_unmask (irq : Z) (mask : Z → Z) : list (Z * Z) :=
  let port := if irq <? 8 then PIC1_DATA else PIC2_DATA in
  let irq := if irq >=? 8 then irq - 8 else irq in
  [(port, u8 (Z.land (mask port) (Z.lnot (Z.shiftl 1 irq))))].

(** * The tables *)

Definition GDT_KERNEL_CODE : Z := 0x08.
Definition GDT_KERNEL_DATA : Z := 0x10.
Definition GDT_USER_CODE : Z := 0x2B.
Definition GDT_USER_DATA : Z := 0x23.
Definition GDT_TSS : Z := 0x30.
Definition GDT_ENTRIES : Z := 8.
Definition IDT_ENTRIES : Z := 256.

(** The bytes of the three tables, the structure gdt_flush() is given (limit
    and base), what the processor was told (the registers of the tables, the
    task register) and the model-specific registers written. *)
Record tables := Tables {
  gdt : phys; idt : phys; tss : phys; descriptor : Z * Z;
  gdtr : Z * Z; idtr : Z * Z; task_register : Z; msrs : list (Z * Z) }.

(** The fields of the packed structures: offset and number of bytes. *)
Definition field : Type := Z * nat.

(** gdt_entry_t *)
Definition limit_low : field := (0, 2%nat).
Definition base_low : field := (2, 2%nat).
Definition base_mid : field := (4, 1%nat).
Definition gdt_access : field := (5, 1%nat).
Definition granularity : field := (6, 1%nat).
Definition base_high : field := (7, 1%nat).

(** idt_entry_t *)
Definition gate_low : field := (0, 2%nat).
Definition gate_selector : field := (2, 2%nat).
Definition gate_ist : field := (4, 1%nat).
Definition gate_flags : field := (5, 1%nat).
Definition gate_mid : field := (6, 2%nat).
Definition gate_high : field := (8, 4%nat).
Definition gate_reserved : field := (12, 4%nat).

(** tss_t, 104 bytes *)
Definition SIZEOF_TSS : Z := 104.
Definition rsp0 : field := (4, 8%nat).
Definition iobp : field := (102, 2%nat).

Definition set_field (a : Z) (f : field) (v : Z) (m : phys) : phys := wr_bytes (a + f.1) (split f.2 v) m.
Definition get_field (a : Z) (f : field) (m : phys) : Z := combine (rd_bytes f.2 m (a + f.1)).

Definition in_gdt (f : phys → phys) : M tables unit :=
  modify (λ t, Tables (f (gdt t)) (idt t) (tss t) (descriptor t) (gdtr t) (idtr t) (task_register t) (msrs t)).
Definition in_idt (f : phys → phys) : M tables unit :=
  modify (λ t, Tables (gdt t) (f (idt t)) (tss t) (descriptor t) (gdtr t) (idtr t) (task_register t) (msrs t)).
Definition in_tss (f : phys → phys) : M tables unit :=
  modify (λ t, Tables (gdt t) (idt t) (f (tss t)) (descriptor t) (gdtr t) (idtr t) (task_register t) (msrs t)).
Definition set_descriptor (r : Z * Z) : M tables unit :=
  modify (λ t, Tables (gdt t) (idt t) (tss t) r (gdtr t) (idtr t) (task_register t) (msrs t)).
(** gdt_flush() is always given the address of [descriptor]. *)
Definition gdt_flush : M tables unit :=
  modify (λ t, Tables (gdt t) (idt t) (tss t) (descriptor t) (descriptor t) (idtr t) (task_register t) (msrs t)).
Definition idt_flush (r : Z * Z) : M tables unit :=
  modify (λ t, Tables (gdt t) (idt t) (tss t) (descriptor t) (gdtr t) r (task_register t) (msrs t)).
Definition ltr (sel : Z) : M tables unit :=
  modify (λ t, Tables (gdt t) (idt t) (tss t) (descriptor t) (gdtr t) (idtr t) sel (msrs t)).
Definition wrmsr (r v : Z) : M tables unit :=
  modify (λ t, Tables (gdt t) (idt t) (tss t) (descriptor t) (gdtr t) (idtr t) (task_register t) (msrs t ++ [(r, v)])).

Section Tables.

(** The addresses the linker gives the tables, and those of the assembly
    stubs isr0 to irq1 (by vector) and syscall_entry. *)
Context (gdt_address idt_address tss_address : Z) (stub : Z → Z) (syscall_entry : Z).

Definition set_entry (i acc gran : Z) : M tables unit :=
  in_gdt (set_field (8 * i) base_low 0) ;;
  in_gdt (set_field (8 * i) base_mid 0) ;;
  in_gdt (set_field (8 * i) base_high 0) ;;
  in_gdt (set_field (8 * i) limit_low 0xFFFF) ;;
  in_gdt (set_field (8 * i) granularity gran) ;;
  in_gdt (set_field (8 * i) gdt_access acc).

(** Entries 6 and 7 are cleared field by field. *)
Definition clear_entry (i : Z) : M tables unit :=
  in_gdt (set_field (8 * i) base_low 0) ;;
  in_gdt (set_field (8 * i) base_mid 0) ;;
  in_gdt (set_field (8 * i) base_high 0) ;;
  in_gdt (set_field (8 * i) limit_low 0) ;;
  in_gdt (set_field (8 * i) granularity 0) ;;
  in_gdt (set_field (8 * i) gdt_access 0).

Definition gdt_init : M tables unit :=
  set_entry 0 0x00 0x00 ;;
  set_entry 1 0x9A 0x20 ;;
  set_entry 2 0x92 0x00 ;;
  set_entry 3 0x00 0x00 ;;
  set_entry 4 0xF2 0x00 ;;
  set_entry 5 0xFA 0x20 ;;
  clear_entry 6 ;;
  clear_entry 7 ;;
  set_descriptor (8 * GDT_ENTRIES - 1, gdt_address) ;;
  gdt_flush.

(** The upper half of the descriptor is stored over entry 7 as one word. *)
Definition gdt_set_tss_entry (base limit : Z) : M tables unit :=
  in_gdt (set_field (8 * 6) limit_low (Z.land limit 0xFFFF)) ;;
  in_gdt (set_field (8 * 6) base_low (Z.land base 0xFFFF)) ;;
  in_gdt (set_field (8 * 6) base_mid (Z.land (Z.shiftr base 16) 0xFF)) ;;
  in_gdt (set_field (8 * 6) gdt_access 0x89) ;;
  in_gdt (set_field (8 * 6) granularity (Z.land (Z.shiftr limit 16) 0x0F)) ;;
  in_gdt (set_field (8 * 6) base_high (Z.land (Z.shiftr base 24) 0xFF)) ;;
  in_gdt (set_field (8 * 7) (0, 8%nat) (Z.land (Z.shiftr base 32) 0xFFFFFFFF)) ;;
  gdt_flush.

Definition tss_set_kernel_stack (stack : Z) : M tables unit := in_tss (set_field 0 rsp0 stack).

Definition tss_init : M tables unit :=
  for_up (Z.to_nat SIZEOF_TSS) 0 (λ i, in_tss (wr8 i 0)) ;;
  in_tss (set_field 0 rsp0 0x90000) ;;
  in_tss (set_field 0 iobp SIZEOF_TSS) ;;
  gdt_set_tss_entry tss_address (SIZEOF_TSS - 1) ;;
  ltr 0x30.

(** An index outside the table is a store out of bounds. *)
Definition idt_set_entry (n base selector flags : Z) : M tables unit :=
  if decide (0 <= n < IDT_ENTRIES) then
    in_idt (set_field (16 * n) gate_low (Z.land base 0xFFFF)) ;;
    in_idt (set_field (16 * n) gate_mid (Z.land (Z.shiftr base 16) 0xFFFF)) ;;
    in_idt (set_field (16 * n) gate_high (Z.land (Z.shiftr base 32) 0xFFFFFFFF)) ;;
    in_idt (set_field (16 * n) gate_selector selector) ;;
    in_idt (set_field (16 * n) gate_ist 0) ;;
    in_idt (set_field (16 * n) gate_flags flags) ;;
    in_idt (set_field (16 * n) gate_reserved 0)
  else fault.

Definition idt_init : M tables unit :=
  idt_set_entry 0 (stub 0) 0x08 0x8E ;;
  idt_set_entry 1 (stub 1) 0x08 0x8E ;;
  idt_set_entry 2 (stub 2) 0x08 0x8E ;;
  idt_set_entry 3 (stub 3) 0x08 0x8E ;;
  idt_set_entry 8 (stub 8) 0x08 0x8E ;;
  idt_set_entry 13 (stub 13) 0x08 0x8E ;;
  idt_set_entry 14 (stub 14) 0x08 0x8E ;;
  idt_set_entry 32 (stub 32) 0x08 0x8E ;;
  idt_set_entry 33 (stub 33) 0x08 0x8E ;;
  idt_flush (16 * IDT_ENTRIES - 1, idt_address).

Definition IA32_EFER : Z := 0xC0000080.
Definition IA32_STAR : Z := 0xC0000081.
Definition IA32_LSTAR : Z := 0xC0000082.
Definition IA32_FMASK : Z := 0xC0000084.

(** The two halves a register is written in. *)
Definition wrmsr_halves (r lo hi : Z) : M tables unit := wrmsr r (Z.lor (u32 lo) (Z.shiftl (u32 hi) 32)).

(** [efer] is what the register reads. *)
Definition syscall_msr_init (efer : Z) : M tables unit :=
  wrmsr_halves IA32_EFER (Z.lor (u32 efer) 1) (u32 (Z.shiftr efer 32)) ;;
  let star := u64 (Z.lor (Z.shiftl 0x18 48) (Z.shiftl 0x08 32)) in
  wrmsr_halves IA32_STAR star (Z.shiftr star 32) ;;
  wrmsr_halves IA32_LSTAR syscall_entry (Z.shiftr syscall_entry 32) ;;
  wrmsr_halves IA32_FMASK 0x200 (Z.shiftr 0x200 32).

(** jump_to_usermode() ends in enter_usermode(entry, stack), assembly: the
    result is what it is called with. [user_stack] is the array's address. *)
Definition jump_to_usermode (user_stack entry : Z) : M tables (Z * Z) :=
  tss_set_kernel_stack 0x90000 ;;
  mret (entry, u64 (user_stack + 4096 - 8)).

End Tables.

(** * What the processor reads

    Segment descriptors, the 16-byte TSS descriptor and interrupt gates, as the
    architecture manual lays them out. *)

Inductive segment := Absent | Code (ring : Z) (long : bool) | Data (ring : Z) | System (ring type : Z).

Definition segment_of (g : phys) (sel : Z) : segment :=
  let acc := get_field (8 * (sel / 8)) gdt_access g in
  let ring := acc / 32 mod 4 in
  if negb (Z.testbit acc 7) then Absent
  else if negb (Z.testbit acc 4) then System ring (acc mod 16)
  else if Z.testbit acc 3 then Code ring (Z.testbit (get_field (8 * (sel / 8)) granularity g) 5)
  else Data ring.

Definition tss_base (g : phys) (sel : Z) : Z :=
  let a := 8 * (sel / 8) in
  get_field a base_low g + get_field a base_mid g * 2 ^ 16 + get_field a base_high g * 2 ^ 24 +
  get_field (a + 8) (0, 4%nat) g * 2 ^ 32.

Definition tss_limit (g : phys) (sel : Z) : Z :=
  let a := 8 * (sel / 8) in
  get_field a limit_low g + get_field a granularity g mod 16 * 2 ^ 16.

(** Handler, selector and flags of gate [n]. *)
Definition gate (g : phys) (n : Z) : Z * Z * Z :=
  let a := 16 * n in
  (get_field a gate_low g + get_field a gate_mid g * 2 ^ 16 + get_field a gate_high g * 2 ^ 32,
   get_field a gate_selector g, get_field a gate_flags g).

(** The selectors SYSCALL and SYSRET load, from STAR: CS and SS. *)
Definition syscall_selectors (star : Z) : Z * Z := (star / 2 ^ 32 mod 2 ^ 16, star / 2 ^ 32 mod 2 ^ 16 + 8).
Definition sysret_selectors (star : Z) : Z * Z := (star / 2 ^ 48 mod 2 ^ 16 + 16 + 3, star / 2 ^ 48 mod 2 ^ 16 + 8 + 3).

(** ** Fields *)

Lemma get_set_same a f v m : get_field a f (set_field a f v m) = v mod 256 ^ Z.of_nat f.2.
Proof.
  unfold get_field, set_field. rewrite <- (length_split f.2 v) at 1.
  by rewrite rd_bytes_wr, combine_split by apply split_byte.
Qed.

Lemma get_set_other a f v b g m :
  a + f.1 + Z.of_nat f.2 <= b + g.1 ∨ b + g.1 + Z.of_nat g.2 <= a + f.1 →
  get_field b g (set_field a f v m) = get_field b g m.
Proof.
  intros H. unfold get_field, set_field. f_equal. apply rd_bytes_ext. intros i Hi. apply rd8_wr_out.
  rewrite length_split. lia.
Qed.

Lemma get_wr8_other a v b g m : a < b + g.1 ∨ b + g.1 + Z.of_nat g.2 <= a →
  get_field b g (wr8 a v m) = get_field b g m.
Proof.
  intros H. unfold get_field. f_equal. apply rd_bytes_ext. intros i Hi. rewrite rd8_wr8, decide_False by lia. done.
Qed.

(** Read the fields of a chain of stores. *)
Ltac fields :=
  repeat first [rewrite get_set_same | rewrite get_set_other by (cbn; lia) | rewrite get_wr8_other by (cbn; lia)].

(** A value cut into pieces by shifts and masks, and put together again. *)
Lemma pieces v k : 0 <= k → Z.land (Z.shiftr v k) 0xFF = v / 2 ^ k mod 2 ^ 8 ∧
  Z.land (Z.shiftr v k) 0xFFFF = v / 2 ^ k mod 2 ^ 16 ∧ Z.land (Z.shiftr v k) 0xFFFFFFFF = v / 2 ^ k mod 2 ^ 32 ∧
  Z.land (Z.shiftr v k) 0x0F = v / 2 ^ k mod 2 ^ 4.
Proof.
  intros Hk. rewrite Z.shiftr_div_pow2 by done.
  change 0xFF with (Z.ones 8). change 0xFFFF with (Z.ones 16). change 0xFFFFFFFF with (Z.ones 32).
  change 0x0F with (Z.ones 4). by rewrite !Z.land_ones by lia.
Qed.

Lemma low_word v : Z.land v 0xFFFF = v mod 2 ^ 16.
Proof. change 0xFFFF with (Z.ones 16). by rewrite Z.land_ones by lia. Qed.

(** Run a sequence of stores, one at a time. *)
Section Run.
Context {A : Type} (c : unit → M tables A) (g i s : phys) (d r q : Z * Z) (k : Z) (l : list (Z * Z)).

Lemma run_in_gdt f : (in_gdt f ≫= c) (Tables g i s d r q k l) = c tt (Tables (f g) i s d r q k l).
Proof. done. Qed.

Lemma run_in_idt f : (in_idt f ≫= c) (Tables g i s d r q k l) = c tt (Tables g (f i) s d r q k l).
Proof. done. Qed.

Lemma run_in_tss f : (in_tss f ≫= c) (Tables g i s d r q k l) = c tt (Tables g i (f s) d r q k l).
Proof. done. Qed.

Lemma run_set_descriptor x : (set_descriptor x ≫= c) (Tables g i s d r q k l) = c tt (Tables g i s x r q k l).
Proof. done. Qed.

Lemma run_gdt_flush : (gdt_flush ≫= c) (Tables g i s d r q k l) = c tt (Tables g i s d d q k l).
Proof. done. Qed.

Lemma run_idt_flush x : (idt_flush x ≫= c) (Tables g i s d r q k l) = c tt (Tables g i s d r x k l).
Proof. done. Qed.

Lemma run_ltr x : (ltr x ≫= c) (Tables g i s d r q k l) = c tt (Tables g i s d r q x l).
Proof. done. Qed.

Lemma run_wrmsr x y : (wrmsr x y ≫= c) (Tables g i s d r q k l) = c tt (Tables g i s d r q k (l ++ [(x, y)])).
Proof. done. Qed.

End Run.

Ltac run_stores :=
  rewrite ?run_in_gdt, ?run_in_idt, ?run_in_tss, ?run_set_descriptor, ?run_gdt_flush, ?run_idt_flush, ?run_ltr, ?run_wrmsr;
  unfold in_gdt, in_idt, in_tss, gdt_flush, idt_flush, ltr, wrmsr, modify;
  cbn [gdt idt tss descriptor gdtr idtr task_register msrs]; reflexivity.

(** The six fields of an entry of the GDT that is written leave the others. *)
Lemma segment_ext g g' sel : (∀ f, 0 <= f.1 → f.1 + Z.of_nat f.2 <= 8 → get_field (8 * (sel / 8)) f g' = get_field (8 * (sel / 8)) f g) →
  segment_of g' sel = segment_of g sel.
Proof. intros H. unfold segment_of. by rewrite !H by (cbn; lia). Qed.

Lemma set_tss_spec base limit t : 0 <= base < 2 ^ 64 → 0 <= limit < 2 ^ 20 →
  ∃ g, gdt_set_tss_entry base limit t = Done tt (Tables g (idt t) (tss t) (descriptor t) (descriptor t) (idtr t) (task_register t) (msrs t)) ∧
    tss_base g GDT_TSS = base ∧ tss_limit g GDT_TSS = limit ∧ segment_of g GDT_TSS = System 0 9 ∧
    ∀ sel, 0 <= sel < GDT_TSS → segment_of g sel = segment_of (gdt t) sel.
Proof.
  intros Hb Hl. destruct t as [g0 i0 s0 d0 r0 q0 k0 l0]. cbn [gdt idt tss descriptor gdtr idtr task_register msrs]. eexists. split; [unfold gdt_set_tss_entry; run_stores|]. split_and!.
  - unfold tss_base. change (8 * (GDT_TSS / 8)) with (8 * 6). change (8 * 6 + 8) with (8 * 7).
    rewrite (low_word base), (proj1 (pieces base 16 ltac:(done))), (proj1 (pieces base 24 ltac:(done))),
      (proj1 (proj2 (proj2 (pieces base 32 ltac:(done))))).
    assert (Hhi : ∀ v g, get_field (8 * 7) (0, 4%nat) (set_field (8 * 7) (0, 8%nat) v g) = v mod 2 ^ 32).
    { intros v g. unfold get_field, set_field. cbn [fst snd]. rewrite (rd_bytes_ext 4 _ (wr_bytes (8 * 7 + 0) (split 4 v) g)).
      - rewrite <- (length_split 4 v) at 1. by rewrite rd_bytes_wr, combine_split by apply split_byte.
      - intros i Hi. rewrite !rd8_wr_bytes, !length_split, !decide_True by lia. f_equal.
        replace (Z.to_nat (8 * 7 + 0 + i - (8 * 7 + 0))) with (Z.to_nat i) by lia.
        assert (i = 0 ∨ i = 1 ∨ i = 2 ∨ i = 3) as [-> | [-> | [-> | ->]]] by lia; reflexivity. }
    rewrite Hhi. fields. cbn [snd base_low base_mid base_high]. clear -Hb. cbn. Z.div_mod_to_equations. lia.
  - unfold tss_limit. change (8 * (GDT_TSS / 8)) with (8 * 6). rewrite !low_word, (proj2 (proj2 (proj2 (pieces limit 16 ltac:(done))))).
    fields. clear -Hl. cbn. Z.div_mod_to_equations. lia.
  - unfold segment_of. change (8 * (GDT_TSS / 8)) with (8 * 6). fields. reflexivity.
  - intros sel Hs. unfold GDT_TSS in Hs. apply segment_ext. intros f Hf1 Hf2.
    assert (8 * (sel / 8) <= 40) by (Z.div_mod_to_equations; lia).
    rewrite !get_set_other by (cbn; lia). done.
Qed.

Lemma idt_set_spec n base sel flags t : 0 <= n < 256 → 0 <= base < 2 ^ 64 → 0 <= sel < 2 ^ 16 → 0 <= flags < 2 ^ 8 →
  ∃ g, idt_set_entry n base sel flags t = Done tt (Tables (gdt t) g (tss t) (descriptor t) (gdtr t) (idtr t) (task_register t) (msrs t)) ∧
    gate g n = (base, sel, flags) ∧ ∀ k, k ≠ n → gate g k = gate (idt t) k.
Proof.
  intros Hn Hb Hs Hf. unfold idt_set_entry. rewrite decide_True by done.
  destruct t as [g0 i0 s0 d0 r0 q0 k0 l0]. cbn [gdt idt tss descriptor gdtr idtr task_register msrs]. eexists. split; [run_stores|]. split.
  - unfold gate. rewrite (low_word base), (proj1 (proj2 (pieces base 16 ltac:(done)))), (proj1 (proj2 (proj2 (pieces base 32 ltac:(done))))).
    fields. cbn [snd gate_low gate_mid gate_high gate_selector gate_flags]. f_equal; [f_equal|].
    + clear -Hb. cbn. Z.div_mod_to_equations. lia.
    + cbn. by rewrite Z.mod_small.
    + cbn. by rewrite Z.mod_small.
  - intros n' Hn'. unfold gate. fields. done.
Qed.

(** ** The tables at start-up *)

Lemma gdt_init_spec addr t :
  ∃ g, gdt_init addr t = Done tt (Tables g (idt t) (tss t) (63, addr) (63, addr) (idtr t) (task_register t) (msrs t)) ∧
    segment_of g 0 = Absent ∧ segment_of g GDT_KERNEL_CODE = Code 0 true ∧ segment_of g GDT_KERNEL_DATA = Data 0 ∧
    segment_of g GDT_USER_DATA = Data 3 ∧ segment_of g GDT_USER_CODE = Code 3 true.
Proof.
  destruct t as [g0 i0 s0 d0 r0 q0 k0 l0]. cbn [gdt idt tss descriptor gdtr idtr task_register msrs]. eexists. split.
  { assert (Hset : ∀ i acc gran (c : unit → M tables unit) g i' s d r q k l, (set_entry i acc gran ≫= c) (Tables g i' s d r q k l) =
      c tt (Tables (set_field (8 * i) gdt_access acc (set_field (8 * i) granularity gran (set_field (8 * i) limit_low 0xFFFF
        (set_field (8 * i) base_high 0 (set_field (8 * i) base_mid 0 (set_field (8 * i) base_low 0 g)))))) i' s d r q k l)) by reflexivity.
    assert (Hclr : ∀ i (c : unit → M tables unit) g i' s d r q k l, (clear_entry i ≫= c) (Tables g i' s d r q k l) =
      c tt (Tables (set_field (8 * i) gdt_access 0 (set_field (8 * i) granularity 0 (set_field (8 * i) limit_low 0
        (set_field (8 * i) base_high 0 (set_field (8 * i) base_mid 0 (set_field (8 * i) base_low 0 g)))))) i' s d r q k l)) by reflexivity.
    unfold gdt_init. rewrite !Hset, !Hclr. run_stores. }
  unfold segment_of.
  change (8 * (0 / 8)) with (8 * 0). change (8 * (GDT_KERNEL_CODE / 8)) with (8 * 1). change (8 * (GDT_KERNEL_DATA / 8)) with (8 * 2).
  change (8 * (GDT_USER_DATA / 8)) with (8 * 4). change (8 * (GDT_USER_CODE / 8)) with (8 * 5).
  split_and!; fields; reflexivity.
Qed.

Lemma tss_init_spec addr t : 0 <= addr < 2 ^ 64 →
  ∃ g s, tss_init addr t = Done tt (Tables g (idt t) s (descriptor t) (descriptor t) (idtr t) GDT_TSS (msrs t)) ∧
    tss_base g GDT_TSS = addr ∧ tss_limit g GDT_TSS = SIZEOF_TSS - 1 ∧ segment_of g GDT_TSS = System 0 9 ∧
    (∀ sel, 0 <= sel < GDT_TSS → segment_of g sel = segment_of (gdt t) sel) ∧
    get_field 0 rsp0 s = 0x90000 ∧ get_field 0 iobp s = SIZEOF_TSS ∧
    (∀ a, 0 <= a < SIZEOF_TSS → ¬ 4 <= a < 12 → ¬ 102 <= a < 104 → rd8 s a = 0).
Proof.
  intros Ha. destruct t as [g0 i0 s0 d0 r0 q0 k0 l0]. cbn [gdt idt tss descriptor gdtr idtr task_register msrs].
  destruct (for_up_rule (λ j u, ∃ s, u = Tables g0 i0 s d0 r0 q0 k0 l0 ∧ ∀ a, 0 <= a < j → rd8 s a = 0)
    (Z.to_nat SIZEOF_TSS) 0 (λ i, in_tss (wr8 i 0)) (Tables g0 i0 s0 d0 r0 q0 k0 l0)) as (u & Hrun & s & -> & Hz).
  - exists s0. split; [done|]. lia.
  - intros j u Hj (s & -> & Hz). eexists. split; [reflexivity|]. eexists. split; [reflexivity|].
    intros a Haj. cbn [tss]. rewrite rd8_wr8. case_decide; [done|]. apply Hz. lia.
  - set (s2 := set_field 0 iobp SIZEOF_TSS (set_field 0 rsp0 0x90000 s)).
    destruct (set_tss_spec addr (SIZEOF_TSS - 1) (Tables g0 i0 s2 d0 r0 q0 k0 l0) Ha ltac:(done)) as (g & Hset & H1 & H2 & H3 & H4).
    exists g, s2. split_and!; try done.
    + unfold tss_init. rewrite (bind_Done _ _ _ _ _ Hrun), !run_in_tss. fold s2. by rewrite (bind_Done _ _ _ _ _ Hset).
    + unfold s2. fields. done.
    + unfold s2. fields. done.
    + intros a Hr H5 H6. unfold s2, set_field. cbn [fst snd iobp rsp0].
      rewrite !rd8_wr_out by (rewrite length_split; lia). apply Hz. unfold SIZEOF_TSS in *. lia.
Qed.

(** The vectors that have a handler. *)
Definition vectors : list Z := [0; 1; 2; 3; 8; 13; 14; 32; 33].

Lemma idt_init_fold addr (stub : Z → Z) :
  idt_init addr stub = foldr (λ n k, idt_set_entry n (stub n) 0x08 0x8E ;; k) (idt_flush (4095, addr)) vectors.
Proof. unfold idt_init, vectors. cbn [foldr]. change (16 * IDT_ENTRIES - 1) with 4095. reflexivity. Qed.

Lemma idt_init_spec addr (stub : Z → Z) t : (∀ n, 0 <= stub n < 2 ^ 64) →
  ∃ g, idt_init addr stub t = Done tt (Tables (gdt t) g (tss t) (descriptor t) (gdtr t) (4095, addr) (task_register t) (msrs t)) ∧
    ∀ n, gate g n = if decide (n ∈ vectors) then (stub n, GDT_KERNEL_CODE, 0x8E) else gate (idt t) n.
Proof.
  intros Hs. destruct t as [g0 i0 s0 d0 r0 q0 k0 l0]. cbn [gdt idt tss descriptor gdtr idtr task_register msrs].
  assert (Hgo : ∀ l i, Forall (λ n, 0 <= n < 256) l →
    ∃ g, foldr (λ n k, idt_set_entry n (stub n) 0x08 0x8E ;; k) (idt_flush (4095, addr)) l (Tables g0 i s0 d0 r0 q0 k0 l0) =
        Done tt (Tables g0 g s0 d0 r0 (4095, addr) k0 l0) ∧
      ∀ n, gate g n = if decide (n ∈ l) then (stub n, GDT_KERNEL_CODE, 0x8E) else gate i n).
  { induction l as [|n l IH]; intros i Hl; cbn [foldr].
    - exists i. split; [done|]. intros n. by rewrite decide_False by apply not_elem_of_nil.
    - apply list.Forall_cons in Hl as [Hn Hl].
      destruct (idt_set_spec n (stub n) 0x08 0x8E (Tables g0 i s0 d0 r0 q0 k0 l0) Hn (Hs n) ltac:(done) ltac:(done)) as (i1 & H1 & H2 & H3).
      cbn [gdt idt tss descriptor gdtr idtr task_register msrs] in H1, H3. rewrite (bind_Done _ _ _ _ _ H1).
      destruct (IH i1 Hl) as (g & Hg & Hgate). exists g. split; [done|]. intros m. rewrite Hgate.
      destruct (decide (m ∈ l)) as [Hm|Hm]; [by rewrite decide_True by (by right)|].
      destruct (decide (m = n)) as [->|Hne]; [rewrite decide_True by (by left); by rewrite H2|].
      rewrite decide_False by (intros [?|?]%elem_of_cons; tauto). by apply H3. }
  destruct (Hgo vectors i0) as (g & Hg & Hgate); [|exists g; rewrite idt_init_fold; by split].
  unfold vectors. repeat (apply list.Forall_cons; split; [lia|]). constructor.
Qed.

(** A word written as its two halves is the word. *)
Lemma halves v : 0 <= v < 2 ^ 64 → Z.lor (u32 v) (Z.shiftl (u32 (Z.shiftr v 32)) 32) = v.
Proof.
  intros Hv. rewrite Z.shiftr_div_pow2, Z.shiftl_mul_pow2 by done. unfold u32.
  rewrite (Z.mod_small (v / 2 ^ 32)) by (Z.div_mod_to_equations; lia).
  rewrite <- (Z.lxor_lor _ _), <- Z.add_nocarry_lxor.
  - Z.div_mod_to_equations. lia.
  - apply Z.bits_inj'. intros n Hn. rewrite Z.land_spec, Z.bits_0. change 4294967296 with (2 ^ 32).
    destruct (Z.lt_ge_cases n 32); [rewrite Z.mul_pow2_bits_low by lia; apply andb_false_r|].
    by rewrite Z.mod_pow2_bits_high by lia.
  - apply Z.bits_inj'. intros n Hn. rewrite Z.land_spec, Z.bits_0. change 4294967296 with (2 ^ 32).
    destruct (Z.lt_ge_cases n 32); [rewrite Z.mul_pow2_bits_low by lia; apply andb_false_r|].
    by rewrite Z.mod_pow2_bits_high by lia.
Qed.

Definition STAR : Z := Z.lor (Z.shiftl 0x18 48) (Z.shiftl 0x08 32).

Lemma syscall_msr_spec entry efer t : 0 <= entry < 2 ^ 64 → 0 <= efer < 2 ^ 64 →
  syscall_msr_init entry efer t = Done tt (Tables (gdt t) (idt t) (tss t) (descriptor t) (gdtr t) (idtr t) (task_register t)
    (msrs t ++ [(IA32_EFER, Z.lor efer 1); (IA32_STAR, STAR); (IA32_LSTAR, entry); (IA32_FMASK, 0x200)])).
Proof.
  intros He Hf. destruct t as [g0 i0 s0 d0 r0 q0 k0 l0]. unfold syscall_msr_init, wrmsr_halves.
  assert (Z.lor (u32 (Z.lor (u32 efer) 1)) (Z.shiftl (u32 (u32 (Z.shiftr efer 32))) 32) = Z.lor efer 1) as ->.
  { rewrite <- (halves efer Hf) at 3. apply Z.bits_inj'. intros n Hn. rewrite !Z.lor_spec. unfold u32 at 3.
    rewrite (Z.mod_small (u32 _)) by apply u32_range. unfold u32 at 1. change 4294967296 with (2 ^ 32).
    destruct (Z.lt_ge_cases n 32) as [Hlt|Hge].
    - rewrite Z.mod_pow2_bits_low, Z.lor_spec by lia. rewrite Z.shiftl_spec_low by lia. by rewrite !orb_false_r.
    - rewrite Z.mod_pow2_bits_high by lia. unfold u32 at 2. change 4294967296 with (2 ^ 32).
      rewrite Z.mod_pow2_bits_high by lia. rewrite (Z.bits_above_log2 1) by (simpl; lia). by rewrite orb_false_r. }
  cbv zeta. change (u64 (Z.lor (Z.shiftl 24 48) (Z.shiftl 8 32))) with STAR.
  rewrite (halves STAR), (halves entry), (halves 0x200) by done. rewrite !run_wrmsr. unfold wrmsr, modify.
  cbn [gdt idt tss descriptor gdtr idtr task_register msrs]. by rewrite <- !app_assoc.
Qed.

Lemma set_kernel_stack_spec stack t :
  ∃ s, tss_set_kernel_stack stack t = Done tt (Tables (gdt t) (idt t) s (descriptor t) (gdtr t) (idtr t) (task_register t) (msrs t)) ∧
    get_field 0 rsp0 s = u64 stack ∧ ∀ a, ¬ 4 <= a < 12 → rd8 s a = rd8 (tss t) a.
Proof.
  eexists. split; [reflexivity|]. split; [by rewrite get_set_same|].
  intros a Ha. unfold set_field. cbn [fst snd rsp0]. apply rd8_wr_out. rewrite length_split. lia.
Qed.

(** Bit [k] of the mask of an interrupt's controller. *)
Definition line_port (irq : Z) : Z := if irq <? 8 then PIC1_DATA else PIC2_DATA.

Lemma pic_mask_bits irq mask k : 0 <= irq < 16 → 0 <= k < 8 →
  (∃ v, pic_mask irq mask = [(line_port irq, v)] ∧ Z.testbit v k = Z.testbit (mask (line_port irq)) k || (k =? irq mod 8)) ∧
  (∃ v, pic_unmask irq mask = [(line_port irq, v)] ∧ Z.testbit v k = Z.testbit (mask (line_port irq)) k && negb (k =? irq mod 8)).
Proof.
  intros Hi Hk. unfold pic_mask, pic_unmask, line_port.
  assert ((if irq >=? 8 then irq - 8 else irq) = irq mod 8) as ->.
  { destruct (Z.geb_spec irq 8); Z.div_mod_to_equations; lia. }
  assert (0 <= irq mod 8) by (apply Z.mod_pos_bound; lia).
  assert (Hb : Z.testbit (Z.shiftl 1 (irq mod 8)) k = (k =? irq mod 8)).
  { rewrite Z.shiftl_1_l, Z.pow2_bits_eqb by done. apply Z.eqb_sym. }
  split; eexists; (split; [reflexivity|]); rewrite u8_testbit by done.
  - by rewrite Z.lor_spec, Hb.
  - by rewrite Z.land_spec, Z.lnot_spec, Hb by lia.
Qed.

(** * Properties *)

(** What the tables are given is what the processor reads. The TSS
    descriptor scattered over entries 6 and 7 reads back as its base and limit,
    a present system segment of ring 0, and no other descriptor changes; a gate
    reads back as its handler, selector and flags, and no other gate changes;
    an index outside the table is out of bounds; the ring 0 stack of the TSS is
    the one stored and no other byte changes; masking and unmasking a line
    changes the bit of that line in its controller and no other. *)
Lemma descriptors_roundtrip t base limit n handler sel flags stack irq mask k :
  0 <= base < 2 ^ 64 → 0 <= limit < 2 ^ 20 → 0 <= handler < 2 ^ 64 → 0 <= sel < 2 ^ 16 → 0 <= flags < 2 ^ 8 →
  0 <= irq < 16 → 0 <= k < 8 →
  (∃ g, gdt_set_tss_entry base limit t =
        Done tt (Tables g (idt t) (tss t) (descriptor t) (descriptor t) (idtr t) (task_register t) (msrs t)) ∧
      tss_base g GDT_TSS = base ∧ tss_limit g GDT_TSS = limit ∧ segment_of g GDT_TSS = System 0 9 ∧
      ∀ sel, 0 <= sel < GDT_TSS → segment_of g sel = segment_of (gdt t) sel) ∧
  (0 <= n < 256 → ∃ g, idt_set_entry n handler sel flags t =
        Done tt (Tables (gdt t) g (tss t) (descriptor t) (gdtr t) (idtr t) (task_register t) (msrs t)) ∧
      gate g n = (handler, sel, flags) ∧ ∀ m, m ≠ n → gate g m = gate (idt t) m) ∧
  (¬ 0 <= n < 256 → idt_set_entry n handler sel flags t = Fault) ∧
  (∃ s, tss_set_kernel_stack stack t =
        Done tt (Tables (gdt t) (idt t) s (descriptor t) (gdtr t) (idtr t) (task_register t) (msrs t)) ∧
      get_field 0 rsp0 s = u64 stack ∧ ∀ a, ¬ 4 <= a < 12 → rd8 s a = rd8 (tss t) a) ∧
  (∃ v, pic_mask irq mask = [(line_port irq, v)] ∧ Z.testbit v k = Z.testbit (mask (line_port irq)) k || (k =? irq mod 8)) ∧
  (∃ v, pic_unmask irq mask = [(line_port irq, v)] ∧ Z.testbit v k = Z.testbit (mask (line_port irq)) k && negb (k =? irq mod 8)).
Proof.
  intros Hb Hl Hh Hs Hf Hi Hk. split_and!.
  - by apply set_tss_spec.
  - intros Hn. by apply idt_set_spec.
  - intros Hn. unfold idt_set_entry. by rewrite decide_False.
  - apply set_kernel_stack_spec.
  - by apply pic_mask_bits.
  - by apply pic_mask_bits.
Qed.

(** What the four calls set up in the tables [t']. *)
Record segments_ready (t t' : tables) (gdt_address idt_address tss_address : Z) (stub : Z → Z) (entry efer : Z) : Prop := {
  sg_registers : gdtr t' = (63, gdt_address) ∧ idtr t' = (4095, idt_address) ∧ task_register t' = GDT_TSS;
  sg_kernel : segment_of (gdt t') GDT_KERNEL_CODE = Code 0 true ∧ segment_of (gdt t') GDT_KERNEL_DATA = Data 0;
  sg_user : segment_of (gdt t') GDT_USER_CODE = Code 3 true ∧ segment_of (gdt t') GDT_USER_DATA = Data 3;
  sg_null : segment_of (gdt t') 0 = Absent;
  sg_tss : segment_of (gdt t') GDT_TSS = System 0 9 ∧ tss_base (gdt t') GDT_TSS = tss_address ∧ tss_limit (gdt t') GDT_TSS = 103;
  sg_stack : get_field 0 rsp0 (tss t') = 0x90000 ∧ tss_limit (gdt t') GDT_TSS < get_field 0 iobp (tss t');
  sg_syscall : ∃ star, msrs t' = msrs t ++ [(IA32_EFER, Z.lor efer 1); (IA32_STAR, star); (IA32_LSTAR, entry); (IA32_FMASK, 0x200)] ∧
    syscall_selectors star = (GDT_KERNEL_CODE, GDT_KERNEL_DATA) ∧ sysret_selectors star = (GDT_USER_CODE, GDT_USER_DATA);
  sg_gates n : gate (idt t') n = if decide (n ∈ vectors) then (stub n, GDT_KERNEL_CODE, 0x8E) else gate (idt t) n }.

Lemma segments_stages t gdt_address idt_address tss_address (stub : Z → Z) entry efer :
  0 <= tss_address < 2 ^ 64 → (∀ n, 0 <= stub n < 2 ^ 64) → 0 <= entry < 2 ^ 64 → 0 <= efer < 2 ^ 64 →
  ∃ t1 t2 t3 t', gdt_init gdt_address t = Done tt t1 ∧ tss_init tss_address t1 = Done tt t2 ∧
    idt_init idt_address stub t2 = Done tt t3 ∧ syscall_msr_init entry efer t3 = Done tt t' ∧
    segments_ready t t' gdt_address idt_address tss_address stub entry efer.
Proof.
  intros Ha Hs He Hf. destruct (gdt_init_spec gdt_address t) as (g1 & H1 & S0 & S1 & S2 & S4 & S5).
  edestruct (tss_init_spec tss_address) as (g2 & s2 & H2 & T1 & T2 & T3 & T4 & T5 & T6 & _); [done|].
  edestruct (idt_init_spec idt_address stub) as (g3 & H3 & T7); [done|].
  do 4 eexists. split; [exact H1|]. split; [exact H2|]. split; [exact H3|]. split; [by rewrite syscall_msr_spec|].
  split; cbn [gdt idt tss descriptor gdtr idtr task_register msrs] in *.
  all: try (repeat split; rewrite ?T4 by done; done).
  - split; [done|by rewrite T2, T6].
  - exists STAR. by split_and!.
Qed.

(** C7. The selectors have the segments of their ring. After gdt_init(),
    tss_init(), idt_init() and syscall_msr_init(), from any tables: the kernel's
    selectors name 64-bit code and data of ring 0, the user's those of ring 3,
    and the task register a TSS with its address, its limit and ring 0 stack and
    no I/O bitmap; SYSCALL loads the kernel's selectors and SYSRET the user's,
    and SYSCALL enters at syscall_entry; exactly the nine vectors with a stub
    have a gate, an interrupt gate of ring 0 in the kernel's code segment:
    0x80 has none. *)
Theorem segments_set_up t gdt_address idt_address tss_address (stub : Z → Z) entry efer :
  0 <= tss_address < 2 ^ 64 → (∀ n, 0 <= stub n < 2 ^ 64) → 0 <= entry < 2 ^ 64 → 0 <= efer < 2 ^ 64 →
  ∃ t', (gdt_init gdt_address ;; tss_init tss_address ;; idt_init idt_address stub ;; syscall_msr_init entry efer) t = Done tt t' ∧
    gdtr t' = (63, gdt_address) ∧ idtr t' = (4095, idt_address) ∧ task_register t' = GDT_TSS ∧
    segment_of (gdt t') GDT_KERNEL_CODE = Code 0 true ∧ segment_of (gdt t') GDT_KERNEL_DATA = Data 0 ∧
    segment_of (gdt t') GDT_USER_CODE = Code 3 true ∧ segment_of (gdt t') GDT_USER_DATA = Data 3 ∧
    segment_of (gdt t') 0 = Absent ∧ segment_of (gdt t') GDT_TSS = System 0 9 ∧
    tss_base (gdt t') GDT_TSS = tss_address ∧ tss_limit (gdt t') GDT_TSS = 103 ∧
    get_field 0 rsp0 (tss t') = 0x90000 ∧ tss_limit (gdt t') GDT_TSS < get_field 0 iobp (tss t') ∧
    (∃ star, msrs t' = msrs t ++ [(IA32_EFER, Z.lor efer 1); (IA32_STAR, star); (IA32_LSTAR, entry); (IA32_FMASK, 0x200)] ∧
      syscall_selectors star = (GDT_KERNEL_CODE, GDT_KERNEL_DATA) ∧ sysret_selectors star = (GDT_USER_CODE, GDT_USER_DATA)) ∧
    ∀ n, gate (idt t') n = if decide (n ∈ vectors) then (stub n, GDT_KERNEL_CODE, 0x8E) else gate (idt t) n.
Proof.
  intros Ha Hs He Hf.
  destruct (segments_stages t gdt_address idt_address tss_address stub entry efer Ha Hs He Hf)
    as (t1 & t2 & t3 & t' & H1 & H2 & H3 & H4 & [R K U N [T0 [T1 T2]] [S1 S2] Y G]).
  exists t'. rewrite (bind_Done _ _ _ _ _ H1), (bind_Done _ _ _ _ _ H2), (bind_Done _ _ _ _ _ H3). tauto.
Qed.

(** ** Witnesses *)

Definition no_tables : tables := Tables ∅ ∅ ∅ (0, 0) (0, 0) (0, 0) 0 [].

Lemma descriptors_roundtrip_witness :
  ∃ g, gdt_set_tss_entry 0xFFFF800000123456 103 no_tables = Done tt (Tables g ∅ ∅ (0, 0) (0, 0) (0, 0) 0 []) ∧
    tss_base g GDT_TSS = 0xFFFF800000123456.
Proof.
  destruct (descriptors_roundtrip no_tables 0xFFFF800000123456 103 14 0xFFFF800000100000 8 0x8E 0x90000 1 (λ _, 0xFF) 1)
    as [(g & H1 & H2 & _) _]; try (split; [discriminate|reflexivity]).
  exists g. split; [exact H1|exact H2].
Defined.

Lemma segments_set_up_witness :
  ∃ t', (gdt_init 0x1000 ;; tss_init 0x3000 ;; idt_init 0x2000 (λ n, 0x5000 + 16 * (n mod 256)) ;; syscall_msr_init 0x9000 0x500) no_tables = Done tt t' ∧
    gate (idt t') 14 = (0x50E0, 8, 0x8E) ∧ segment_of (gdt t') 0x2B = Code 3 true.
Proof.
  destruct (segments_set_up no_tables 0x1000 0x2000 0x3000 (λ n, 0x5000 + 16 * (n mod 256)) 0x9000 0x500)
    as (t' & Hrun & _ & _ & _ & _ & _ & Hu & _ & _ & _ & _ & _ & _ & _ & _ & Hg); try (split; [discriminate|reflexivity]).
  { intros n. pose proof (Z.mod_pos_bound n 256 eq_refl). lia. }
  exists t'. split; [exact Hrun|]. split; [|exact Hu]. rewrite Hg. reflexivity.
Defined.
