(* ===== verification/Drivers.v ===== *)
(** The serial line and the random device: drivers/serial/serial.c and
    drivers/random/random.c.

    What the hardware answers is part of the state: the readings of the line
    status register and the numbers of RDRAND still to come. A wait for which
    no reading is left never ends. *)

From S2P Require Import Prelude Phys Sched.

(** * The serial line *)

Definition COM1 : Z := 0x3F8.
Definition DATA_REG : Z := 0.
Definition INT_ENABLE_REG : Z := 1.
Definition BAUD_LOW_REG : Z := 0.
Definition BAUD_HIGH_REG : Z := 1.
Definition FIFO_REG : Z := 2.
Definition LINE_CTRL_REG : Z := 3.
Definition MODEM_CTRL_REG : Z := 4.

(** [status]: the readings of the line status register to come; [port_writes]:
    the bytes written, with their ports. *)
Record uart := Uart { status : list Z; port_writes : list (Z * Z) }.

Definition outb (port value : Z) : M uart unit :=
  modify (λ u, Uart (status u) (port_writes u ++ [(port, u8 value)])).

(** serial_is_ready() until it says so: the readings left. *)
Fixpoint wait_ready (l : list Z) : option (list Z) :=
  match l with
  | [] => None
  | s :: l => if flag s 0x20 then Some l else wait_ready l
  end.

Definition serial_putchar (c : Z) : M uart unit := λ u,
  match wait_ready (status u) with
  | None => Diverge
  | Some l => outb (COM1 + DATA_REG) c (Uart l (port_writes u))
  end.

Fixpoint serial_print (str : list Z) : M uart unit :=
  match str with
  | [] => mret tt
  | c :: str => (if c =? 10 then serial_putchar 13 else mret tt) ;; serial_putchar c ;; serial_print str
  end.

Definition serial_println (str : list Z) : M uart unit :=
  serial_print str ;;
  serial_print [10].

Definition serial_init : M uart unit :=
  outb (COM1 + INT_ENABLE_REG) 0x00 ;;
  outb (COM1 + LINE_CTRL_REG) 0x80 ;;
  outb (COM1 + BAUD_LOW_REG) 0x03 ;;
  outb (COM1 + BAUD_HIGH_REG) 0x00 ;;
  outb (COM1 + LINE_CTRL_REG) 0x03 ;;
  outb (COM1 + FIFO_REG) 0xC7 ;;
  outb (COM1 + MODEM_CTRL_REG) 0x03 ;;
  serial_println (cs "acornOS serial output online.") ;;
  serial_println (cs "-----------------------------").

(** Reading is not implemented: the buffer is left alone. *)
Definition dev_serial_read (buffer : list Z) (size : Z) : M uart Z := mret 0.

Definition dev_serial_write (buffer : list Z) (size : Z) : M uart Z :=
  for_up (Z.to_nat size) 0 (λ i, c ← access (buffer !! Z.to_nat i); serial_putchar c) ;;
  mret (i32 size).

(** ** What arrives *)

(** Carriage returns before the newlines. *)
Definition crlf (text : list Z) : list Z := text ≫= (λ c, if c =? 10 then [13; 10] else [c]).

Definition ready (l : list Z) : nat := length (filter (λ s, flag s 0x20 = true) l).

(** After [n] characters: [n] ready readings are used, and their busy ones. *)
Definition sends (text : list Z) (u u' : uart) : Prop :=
  port_writes u' = port_writes u ++ ((λ c, (COM1, u8 c)) <$> text) ∧ ready (status u) = (length text + ready (status u'))%nat.

Lemma sends_refl u : sends [] u u.
Proof. split; [by rewrite app_nil_r|done]. Qed.

Lemma sends_trans t1 t2 u1 u2 u3 : sends t1 u1 u2 → sends t2 u2 u3 → sends (t1 ++ t2) u1 u3.
Proof.
  intros [W1 R1] [W2 R2]. split; [by rewrite W2, W1, fmap_app, app_assoc|]. rewrite length_app. lia.
Qed.

Lemma wait_ready_spec l : (1 <= ready l)%nat → ∃ l', wait_ready l = Some l' ∧ ready l = S (ready l').
Proof.
  unfold ready. induction l as [|s l IH]; simpl; [lia|]. rewrite filter_cons. case_decide as Hf.
  - rewrite Hf. eauto.
  - destruct (flag s 32); [done|]. exact IH.
Qed.

Lemma putchar_sends c u : (1 <= ready (status u))%nat → ∃ u', serial_putchar c u = Done tt u' ∧ sends [c] u u'.
Proof.
  intros Hr. destruct (wait_ready_spec _ Hr) as (l & Hl & Hn). unfold serial_putchar. rewrite Hl.
  eexists. split; [reflexivity|]. by split.
Qed.

Lemma print_sends text : ∀ u, (length (crlf text) <= ready (status u))%nat →
  ∃ u', serial_print text u = Done tt u' ∧ sends (crlf text) u u'.
Proof.
  induction text as [|c text IH]; intros u Hr; [eexists; split; [done|apply sends_refl]|].
  change (crlf (c :: text)) with ((if c =? 10 then [13; 10] else [c]) ++ crlf text) in *. rewrite length_app in Hr.
  cbn [serial_print]. destruct (Z.eqb_spec c 10) as [->|Hne]; simpl in Hr.
  - destruct (putchar_sends 13 u) as (u1 & H1 & S1); [lia|]. rewrite (bind_Done _ _ _ _ _ H1).
    pose proof (proj2 S1) as R1. simpl in R1. destruct (putchar_sends 10 u1) as (u2 & H2 & S2); [lia|].
    rewrite (bind_Done _ _ _ _ _ H2). pose proof (proj2 S2) as R2. simpl in R2.
    destruct (IH u2) as (u3 & H3 & S3); [lia|]. exists u3. split; [done|].
    apply (sends_trans [13; 10] _ u u2); [|done]. by apply (sends_trans [13] [10] u u1).
  - erewrite bind_Done by reflexivity. destruct (putchar_sends c u) as (u1 & H1 & S1); [lia|].
    rewrite (bind_Done _ _ _ _ _ H1). pose proof (proj2 S1) as R1. simpl in R1.
    destruct (IH u1) as (u2 & H2 & S2); [lia|]. exists u2. split; [done|]. by apply (sends_trans [c] _ u u1).
Qed.

Lemma println_sends text u : (length (crlf (text ++ [10%Z])) <= ready (status u))%nat →
  ∃ u', serial_println text u = Done tt u' ∧ sends (crlf (text ++ [10%Z])) u u'.
Proof.
  unfold crlf. rewrite bind_app. fold (crlf text). intros Hr. rewrite length_app in Hr.
  destruct (print_sends text u) as (u1 & H1 & S1); [lia|]. unfold serial_println. rewrite (bind_Done _ _ _ _ _ H1).
  pose proof (proj2 S1) as R1. destruct (print_sends [10] u1) as (u2 & H2 & S2); [simpl in *; lia|].
  exists u2. split; [done|]. exact (sends_trans _ _ _ _ _ S1 S2).
Qed.

(** serial_init() programs the port and sends its two lines. *)
Definition serial_setup : list (Z * Z) :=
  [(COM1 + INT_ENABLE_REG, 0x00); (COM1 + LINE_CTRL_REG, 0x80); (COM1 + BAUD_LOW_REG, 0x03); (COM1 + BAUD_HIGH_REG, 0x00);
   (COM1 + LINE_CTRL_REG, 0x03); (COM1 + FIFO_REG, 0xC7); (COM1 + MODEM_CTRL_REG, 0x03)].
Definition serial_banner : list Z :=
  crlf (cs "acornOS serial output online." ++ [10]) ++ crlf (cs "-----------------------------" ++ [10]).

Lemma serial_init_spec u : (length serial_banner <= ready (status u))%nat →
  ∃ u', serial_init u = Done tt u' ∧ port_writes u' = port_writes u ++ serial_setup ++ ((λ c, (COM1, u8 c)) <$> serial_banner).
Proof.
  intros Hr. unfold serial_banner in Hr. rewrite length_app in Hr. set (u0 := Uart (status u) (port_writes u ++ serial_setup)).
  destruct (println_sends (cs "acornOS serial output online.") u0) as (u1 & H1 & S1); [change (status u0) with (status u); lia|].
  pose proof (proj2 S1) as R1. change (status u0) with (status u) in R1.
  destruct (println_sends (cs "-----------------------------") u1) as (u2 & H2 & S2); [lia|]. exists u2. split.
  - transitivity ((serial_println (cs "acornOS serial output online.") ;; serial_println (cs "-----------------------------")) u0).
    + destruct u as [l w]. unfold u0, serial_init, outb. do 7 (erewrite bind_Done by reflexivity). cbn [status port_writes]. by rewrite <- !app_assoc.
    + by rewrite (bind_Done _ _ _ _ _ H1).
  - destruct (sends_trans _ _ _ _ _ S1 S2) as [-> _]. unfold serial_banner. unfold u0. cbn [port_writes]. by rewrite <- app_assoc.
Qed.

(** * The random device *)

Record random := Random { seed : Z; rdrand : list Z }.

(** The generator; nothing calls it. *)
Definition rand_next (ticks : Z) : M random Z := λ r,
  let s := Z.lxor (seed r) ticks in
  let s := u64 (s * 6364136223846793005 + 1442695040888963407) in
  Done s (Random s (rdrand r)).

(** The instruction: the next number. *)
Definition next_rdrand : M random Z := λ r,
  match rdrand r with [] => Diverge | v :: l => Done v (Random (seed r) l) end.

Definition set_byte (i b : Z) (dst : list Z) : M random (list Z) :=
  if decide (0 <= i < Z.of_nat (length dst)) then mret (<[Z.to_nat i := b]> dst) else fault.

(** for(j = 0; j < to_copy; j++) dst[i + j] = (uint8_t)(val >> (j * 8)) *)
Fixpoint copy_bytes (n : nat) (j i val : Z) (dst : list Z) : M random (list Z) :=
  match n with
  | O => mret dst
  | S n => dst ← set_byte (u32 (i + j)) (u8 (Z.shiftr val (j * 8))) dst; copy_bytes n (j + 1) i val dst
  end.

Fixpoint random_loop (fuel : nat) (i size : Z) (dst : list Z) : M random (list Z) :=
  if i <? size then
    match fuel with
    | O => diverge
    | S fuel =>
        val ← next_rdrand;
        let to_copy := if u32 (size - i) <? 8 then u32 (size - i) else 8 in
        dst ← copy_bytes (Z.to_nat to_copy) 0 i val dst;
        random_loop fuel (u32 (i + 8)) size dst
    end
  else mret dst.

Fixpoint zero_loop (n : nat) (i : Z) (dst : list Z) : M random (list Z) :=
  match n with O => mret dst | S n => dst ← set_byte i 0 dst; zero_loop n (i + 1) dst end.

(** [supported]: the bit of CPUID. The result is the count and the buffer. *)
Definition dev_random_read (fuel : nat) (supported : bool) (dst : list Z) (size : Z) : M random (Z * list Z) :=
  dst ← (if supported then random_loop fuel 0 size dst else zero_loop (Z.to_nat size) 0 dst);
  mret (i32 size, dst).

(** ** What the device gives *)

Lemma split_seq n : ∀ v j, 0 <= j → split n (Z.shiftr v (8 * j)) = (λ k, u8 (Z.shiftr v (k * 8))) <$> seqZ j (Z.of_nat n).
Proof.
  induction n as [|n IH]; intros v j Hj; [done|]. rewrite seqZ_cons by lia. cbn [split fmap list_fmap].
  replace (Z.pred (Z.of_nat (S n))) with (Z.of_nat n) by lia. change (Z.succ j) with (j + 1). rewrite <- (IH v (j + 1)) by lia.
  f_equal; [unfold u8; by rewrite Z.mul_comm|]. f_equal. replace (8 * (j + 1)) with (8 * j + 8) by lia.
  rewrite !Z.shiftr_div_pow2, Z.pow_add_r, Z.div_div by lia. done.
Qed.

Lemma copy_bytes_spec n : ∀ j i val dst r, 0 <= j → 0 <= i → i + j + Z.of_nat n <= Z.of_nat (length dst) → i + j + Z.of_nat n <= 2 ^ 32 →
  copy_bytes n j i val dst r = Done (take (Z.to_nat (i + j)) dst ++ split n (Z.shiftr val (8 * j)) ++ drop (Z.to_nat (i + j) + n) dst) r.
Proof.
  induction n as [|n IH]; intros j i val dst r Hj Hi Hl Hw.
  { cbn. by rewrite Nat.add_0_r, take_drop. }
  cbn [copy_bytes]. rewrite (u32_small (i + j)) by lia. unfold set_byte. rewrite decide_True by lia.
  erewrite bind_Done by reflexivity. rewrite IH by (rewrite ?length_insert; lia). f_equal.
  replace (Z.to_nat (i + (j + 1))) with (S (Z.to_nat (i + j))) by lia.
  rewrite !split_seq by lia. rewrite (seqZ_cons j) by lia. replace (Z.pred (Z.of_nat (S n))) with (Z.of_nat n) by lia.
  cbn [fmap list_fmap]. change (Z.succ j) with (j + 1).
  rewrite (take_S_r _ _ (u8 (Z.shiftr val (j * 8)))) by (rewrite list_lookup_insert_eq by lia; done).
  rewrite take_insert_ge by lia. rewrite <- app_assoc. f_equal. cbn. f_equal. f_equal.
  rewrite drop_insert_lt by lia. f_equal. lia.
Qed.

(** The bytes of the numbers drawn for [n] bytes. *)
Definition drawn (n : nat) (vals : list Z) : list Z := take n (vals ≫= split 8).

Lemma split_take n k v : (k <= n)%nat → take k (split n v) = split k v.
Proof. revert n v. induction k as [|k IH]; intros [|n] v Hk; simpl; try done; [lia|]. f_equal. apply IH. lia. Qed.

Lemma random_loop_spec fuel : ∀ i size dst r, 0 <= i → i <= size + 7 → size <= Z.of_nat (length dst) → size <= 2 ^ 32 - 8 →
  size - i <= 8 * Z.of_nat fuel → size - i <= 8 * Z.of_nat (length (rdrand r)) →
  ∃ r', random_loop fuel i size dst r = Done (take (Z.to_nat i) dst ++ drawn (Z.to_nat (size - i)) (rdrand r) ++ drop (Z.to_nat (Z.max i size)) dst) r' ∧
    seed r' = seed r.
Proof.
  induction fuel as [|fuel IH]; intros i size dst r Hi H7 Hl Hw Hf Hv.
  - cbn [random_loop]. rewrite (proj2 (Z.ltb_ge _ _)) by lia. exists r. split; [|done]. unfold drawn.
    replace (Z.to_nat (size - i)) with 0%nat by lia. rewrite take_0. rewrite Z.max_l by lia. cbn [app]. by rewrite take_drop.
  - cbn [random_loop]. destruct (Z.ltb_spec i size) as [Hlt|Hge].
    2:{ exists r. split; [|done]. unfold drawn. replace (Z.to_nat (size - i)) with 0%nat by lia. rewrite take_0.
        rewrite Z.max_l by lia. cbn [app]. by rewrite take_drop. }
    destruct r as [s [|v vals]]; cbn [rdrand seed] in *; [simpl in Hv; lia|]. erewrite bind_Done by reflexivity. cbv zeta. cbn [seed rdrand].
    rewrite (u32_small (size - i)) by lia.
    destruct (Z.ltb_spec (size - i) 8) as [Hs|Hs].
    + rewrite (bind_Done _ _ _ _ _ (copy_bytes_spec (Z.to_nat (size - i)) 0 i v dst _ ltac:(lia) Hi ltac:(lia) ltac:(lia))).
      rewrite (u32_small (i + 8)) by lia. rewrite Z.add_0_r.
      assert (Hend : random_loop fuel (i + 8) size (take (Z.to_nat i) dst ++ split (Z.to_nat (size - i)) (Z.shiftr v (8 * 0)) ++ drop (Z.to_nat i + Z.to_nat (size - i)) dst) (Random s vals) =
        Done (take (Z.to_nat i) dst ++ split (Z.to_nat (size - i)) (Z.shiftr v (8 * 0)) ++ drop (Z.to_nat i + Z.to_nat (size - i)) dst) (Random s vals)).
      { destruct fuel; cbn [random_loop]; by rewrite (proj2 (Z.ltb_ge _ _)) by lia. }
      rewrite Hend. exists (Random s vals). split; [|reflexivity]. f_equal. f_equal. unfold drawn. cbn [mbind list_bind].
      change (Z.shiftr v (8 * 0)) with v. rewrite take_app_le by (rewrite length_split; lia).
      rewrite split_take by lia. f_equal. f_equal. lia.
    + rewrite (bind_Done _ _ _ _ _ (copy_bytes_spec 8 0 i v dst _ ltac:(lia) Hi ltac:(lia) ltac:(lia))).
      rewrite (u32_small (i + 8)) by lia. rewrite Z.add_0_r. change (Z.shiftr v (8 * 0)) with v.
      set (dst' := take (Z.to_nat i) dst ++ split 8 v ++ drop (Z.to_nat i + 8) dst).
      assert (Hlen : length dst' = length dst).
      { unfold dst'. rewrite !length_app, length_take, length_split, length_drop. lia. }
      destruct (IH (i + 8) size dst' (Random s vals)) as (r' & Hrun & Hseed); cbn [rdrand]; [lia..|simpl in Hv; lia|].
      rewrite Hrun. exists r'. split; [|done]. f_equal. unfold drawn. cbn [rdrand mbind list_bind].
      assert (Hpre : length (take (Z.to_nat i) dst ++ split 8 v) = Z.to_nat (i + 8)) by (rewrite length_app, length_take, length_split; lia).
      rewrite (take_app_ge (split 8 v)) by (rewrite length_split; lia). rewrite length_split.
      replace (take (Z.to_nat (i + 8)) dst') with (take (Z.to_nat i) dst ++ split 8 v).
      2:{ unfold dst'. rewrite app_assoc, <- Hpre. by rewrite take_app_length. }
      replace (drop (Z.to_nat (Z.max (i + 8) size)) dst') with (drop (Z.to_nat (Z.max i size)) dst).
      2:{ unfold dst'. rewrite app_assoc, drop_app_ge by (rewrite Hpre; lia). rewrite Hpre, drop_drop. f_equal. lia. }
      rewrite <- !app_assoc. do 4 f_equal. lia.
Qed.

Lemma zero_loop_spec n : ∀ i dst r, 0 <= i → i + Z.of_nat n <= Z.of_nat (length dst) →
  zero_loop n i dst r = Done (take (Z.to_nat i) dst ++ replicate n 0 ++ drop (Z.to_nat i + n) dst) r.
Proof.
  induction n as [|n IH]; intros i dst r Hi Hl; [cbn; by rewrite Nat.add_0_r, take_drop|].
  cbn [zero_loop]. unfold set_byte. rewrite decide_True by lia. erewrite bind_Done by reflexivity.
  rewrite IH by (rewrite ?length_insert; lia). f_equal. replace (Z.to_nat (i + 1)) with (S (Z.to_nat i)) by lia.
  rewrite (take_S_r _ _ 0) by (rewrite list_lookup_insert_eq by lia; done). rewrite take_insert_ge by lia.
  rewrite <- app_assoc. f_equal. cbn. f_equal. f_equal. rewrite drop_insert_lt by lia. f_equal. lia.
Qed.

(** ** The two drivers *)

(** The serial line carries the text with a carriage return before every
    newline, and a write to /devices/serial its bytes as they are, each once
    and in order, whatever the waits; the drivers stop as soon as the line was
    ready once for each byte. *)
Lemma serial_carries_text text (n : nat) u :
  (n <= length text)%nat →
  ((length (crlf text) <= ready (status u))%nat → ∃ u', serial_print text u = Done tt u' ∧ sends (crlf text) u u') ∧
  ((n <= ready (status u))%nat → ∃ u', dev_serial_write text (Z.of_nat n) u = Done (i32 (Z.of_nat n)) u' ∧ sends (take n text) u u').
Proof.
  intros Hn. split; [by apply print_sends|]. intros Hr. unfold dev_serial_write. rewrite Nat2Z.id.
  destruct (for_up_rule (λ j u1, sends (take (Z.to_nat j) text) u u1) n 0 (λ i, c ← access (text !! Z.to_nat i); serial_putchar c) u) as (u' & Hrun & Hs).
  - apply sends_refl.
  - intros j u1 Hj Hs. destruct (lookup_lt_is_Some_2 text (Z.to_nat j)) as [c Hc]; [lia|]. rewrite Hc. erewrite bind_Done by reflexivity.
    pose proof (proj2 Hs) as R. rewrite length_take in R.
    destruct (putchar_sends c u1) as (u2 & H2 & S2); [lia|]. exists u2. split; [done|].
    replace (Z.to_nat (j + 1)) with (S (Z.to_nat j)) by lia. rewrite (take_S_r _ _ _ Hc). by eapply sends_trans.
  - rewrite (bind_Done _ _ _ _ _ Hrun). exists u'. split; [done|]. by rewrite Z.add_0_l, Nat2Z.id in Hs.
Qed.

(** A read of /devices/random returns, and fills exactly the bytes asked
    for: with the bytes of the numbers the processor draws, least significant
    first, eight to a number and the last cut short, or with zeros where the
    processor draws none. The generator rand_next() loses nothing of its seed. *)
Lemma random_fills dst size r ticks :
  0 <= size <= Z.of_nat (length dst) → size <= 2 ^ 32 - 8 → size <= 8 * Z.of_nat (length (rdrand r)) →
  (∃ r', dev_random_read (S (Z.to_nat size)) true dst size r =
      Done (i32 size, drawn (Z.to_nat size) (rdrand r) ++ drop (Z.to_nat size) dst) r' ∧ seed r' = seed r) ∧
  dev_random_read (S (Z.to_nat size)) false dst size r = Done (i32 size, replicate (Z.to_nat size) 0 ++ drop (Z.to_nat size) dst) r ∧
  (0 <= seed r < 2 ^ 64 → 0 <= ticks < 2 ^ 64 → ∃ s, rand_next ticks r = Done s (Random s (rdrand r)) ∧
     Z.lxor (u64 ((s - 1442695040888963407) * 13877824140714322085)) ticks = seed r).
Proof.
  intros Hs Hw Hv. unfold dev_random_read. split_and!.
  - destruct (random_loop_spec (S (Z.to_nat size)) 0 size dst r) as (r' & Hrun & Hseed); [lia..|].
    rewrite (bind_Done _ _ _ _ _ Hrun). exists r'. split; [|done]. rewrite Z.sub_0_r, Z.max_r by lia. done.
  - rewrite (bind_Done _ _ _ _ _ (zero_loop_spec (Z.to_nat size) 0 dst r ltac:(lia) ltac:(lia))). done.
  - intros Hseed Ht. eexists. split; [reflexivity|]. set (x := Z.lxor (seed r) ticks).
    assert (Hx : 0 <= x < 2 ^ 64).
    { split; [by apply Z.lxor_nonneg; split; lia|]. destruct (Z.eq_dec x 0) as [->|Hne]; [lia|].
      assert (0 <= x) by (apply Z.lxor_nonneg; split; lia).
      apply Z.log2_lt_pow2; [lia|]. eapply Z.le_lt_trans; [apply Z.log2_lxor; lia|].
      apply Z.max_lub_lt; (destruct (Z.eq_dec (seed r) 0), (Z.eq_dec ticks 0); subst; try (apply Z.log2_lt_pow2; lia); simpl; try lia).
      all: try (rewrite e; simpl; lia); try (rewrite e0; simpl; lia). }
    replace (u64 _) with x.
    { unfold x. by rewrite Z.lxor_assoc, Z.lxor_nilpotent, Z.lxor_0_r. }
    unfold u64. rewrite Zmult_mod, Zminus_mod, Zmod_mod, <- Zminus_mod, <- Zmult_mod.
    replace ((x * 6364136223846793005 + 1442695040888963407 - 1442695040888963407) * 13877824140714322085)
      with (x + x * 4787856489426250814 * 18446744073709551616) by lia.
    rewrite Z_mod_plus_full. symmetry. apply Z.mod_small. lia.
Qed.
