(* ===== verification/Elf.v ===== *)
(** The ELF loader: kernel/core/elf.c.

    The file is in kernel memory at the pointer [data], and is read through
    the direct map with the offsets of the two packed structs of elf.h. The
    argument strings are given by their contents: [None] for a null argv. A
    page of the new address space that is not mapped has physical address 0
    for get_physical_in(), and is written there. *)

From S2P Require Import Prelude Pmm Heap Phys Paging Space Sched Process.

Definition MAX_ARGV_BLOCK_SIZE : Z := 2048.
Definition MAX_ARGV_COUNT : Z := 32.
Definition PT_LOAD : Z := 1.
Definition PF_W : Z := 2.
Definition STACK_VIRTUAL : Z := 0x00007FFFFFFFE000.

(** * Memory accesses *)

(** A little-endian field of [n] bytes at [p]. *)
Definition load_field (n : nat) (p : Z) : M vm Z :=
  gets (λ s, combine (rd_bytes n (mem s) (virtual_to_physical p))).

Definition load8 (p : Z) : M vm Z := gets (λ s, rd8 (mem s) (virtual_to_physical p)).
Definition store8 (p b : Z) : M vm unit := set_mem (wr8 (virtual_to_physical p) b).

(** The bytes of a string with its NUL, or of any list. *)
Fixpoint store_bytes (p : Z) (bs : list Z) : M vm unit :=
  match bs with [] => mret tt | b :: bs => store8 p b ;; store_bytes (p + 1) bs end.

Fixpoint store_words (p : Z) (ws : list Z) : M vm unit :=
  match ws with [] => mret tt | w :: ws => store p w ;; store_words (p + 8) ws end.

(** * Headers *)

(** Fields of elf64_header_t: the struct has an e_flags of 8 bytes. *)
Definition e_ident (data i : Z) : M vm Z := load8 (data + i).
Definition e_type (data : Z) : M vm Z := load_field 2 (data + 16).
Definition e_machine (data : Z) : M vm Z := load_field 2 (data + 18).
Definition e_entry (data : Z) : M vm Z := load_field 8 (data + 24).
Definition e_phoff (data : Z) : M vm Z := load_field 8 (data + 32).
Definition e_phnum (data : Z) : M vm Z := load_field 2 (data + 60).

Record elf64_phdr_t := Phdr { p_type : Z; p_flags : Z; p_offset : Z; p_vaddr : Z; p_filesz : Z; p_memsz : Z }.

Definition PHDR_SIZE : Z := 56.

Definition load_phdr (ph : Z) : M vm elf64_phdr_t :=
  t ← load_field 4 ph;
  f ← load_field 4 (ph + 4);
  o ← load_field 8 (ph + 8);
  v ← load_field 8 (ph + 16);
  fs ← load_field 8 (ph + 32);
  ms ← load_field 8 (ph + 40);
  mret (Phdr t f o v fs ms).

(** The checks elf_get_entry() and elf_load() make. *)
Definition check_header (data : Z) : M vm bool :=
  i0 ← e_ident data 0; i1 ← e_ident data 1; i2 ← e_ident data 2; i3 ← e_ident data 3;
  if negb (i0 =? 0x7F) || negb (i1 =? 0x45) || negb (i2 =? 0x4C) || negb (i3 =? 0x46) then mret false
  else
    class ← e_ident data 4;
    if negb (class =? 2) then mret false
    else
      machine ← e_machine data;
      if negb (machine =? 0x3E) then mret false
      else
        type ← e_type data;
        mret (type =? 2).

Definition elf_get_entry (data : Z) : M vm Z :=
  ok ← check_header data; if negb ok then mret 0 else e_entry data.

(** * Segments *)

(** The copy loop of a segment; [n] bounds its iterations. *)
Fixpoint copy_loop (n : nat) (dir src copy_va remaining : Z) : M vm unit :=
  match n with
  | O => diverge
  | S n =>
      if 0 <? remaining then
        let page_offset := Z.land copy_va 0xFFF in
        physical ← get_physical_in dir (page_align copy_va);
        let dst := physical_to_virtual physical + page_offset in
        let to_copy := if remaining <? PAGE_SIZE - page_offset then remaining else PAGE_SIZE - page_offset in
        for_up (Z.to_nat to_copy) 0 (λ j, b ← load8 (src + j); store8 (dst + j) b) ;;
        copy_loop n dir (u64 (src + to_copy)) (u64 (copy_va + to_copy)) (remaining - to_copy)
      else mret tt
  end.

(** The zeroing loop for the rest of the segment. *)
Fixpoint bss_loop (n : nat) (dir bss_va bss_end : Z) : M vm unit :=
  match n with
  | O => diverge
  | S n =>
      if bss_va <? bss_end then
        let page_offset := Z.land bss_va 0xFFF in
        physical ← get_physical_in dir (page_align bss_va);
        let dst := physical_to_virtual physical + page_offset in
        let to_zero := if bss_end - bss_va <? PAGE_SIZE - page_offset then bss_end - bss_va else PAGE_SIZE - page_offset in
        for_up (Z.to_nat to_zero) 0 (λ j, store8 (dst + j) 0) ;;
        bss_loop n dir (u64 (bss_va + to_zero)) bss_end
      else mret tt
  end.

(** Enough iterations for [len] bytes from anywhere in a page. *)
Definition page_steps (len : Z) : nat := S (S (Z.to_nat (len / PAGE_SIZE + 1))).

Definition page_up (a : Z) : Z := Z.ldiff (u64 (a + 0xFFF)) 0xFFF.

Definition segment_flags (ph : elf64_phdr_t) : Z :=
  let flags := Z.lor PAGE_PRESENT PAGE_USER in
  if flag (p_flags ph) PF_W then Z.lor flags PAGE_WRITABLE else flags.

(** One LOAD segment; the new heap start. *)
Definition load_segment (dir data : Z) (ph : elf64_phdr_t) (heap_start : Z) : M vm Z :=
  let virtual_address := page_align (p_vaddr ph) in
  let virtual_address_end := page_up (u64 (p_vaddr ph + p_memsz ph)) in
  let heap_start := if heap_start <? virtual_address_end then virtual_address_end else heap_start in
  fresh_pages dir virtual_address virtual_address_end (segment_flags ph) ;;
  copy_loop (page_steps (p_filesz ph)) dir (u64 (data + p_offset ph)) (p_vaddr ph) (p_filesz ph) ;;
  let bss_va := u64 (p_vaddr ph + p_filesz ph) in
  let bss_end := u64 (p_vaddr ph + p_memsz ph) in
  bss_loop (page_steps (bss_end - bss_va)) dir bss_va bss_end ;;
  mret heap_start.

(** The loop over the program headers from number [i] on. *)
Fixpoint load_segments (n : nat) (i : Z) (dir data heap_start : Z) : M vm Z :=
  match n with
  | O => mret heap_start
  | S n =>
      phoff ← e_phoff data;
      ph ← load_phdr (u64 (data + phoff) + PHDR_SIZE * i);
      if negb (p_type ph =? PT_LOAD) then load_segments n (i + 1) dir data heap_start
      else
        heap_start ← load_segment dir data ph heap_start;
        load_segments n (i + 1) dir data heap_start
  end.

(** * Arguments *)

(** The strings, last first, from [cursor] downwards; the final cursor and the
    addresses, first string first. *)
Fixpoint place_strings (page_base page_top : Z) (strs : list (list Z)) (cursor : Z) (string_addr : list Z) :
    M vm (option (Z * list Z)) :=
  match strs with
  | [] => mret (Some (cursor, string_addr))
  | str :: strs =>
      let len := Z.of_nat (length str) + 1 in
      if MAX_ARGV_BLOCK_SIZE <? u64 (page_top - u64 (cursor - len)) then mret None
      else
        let cursor := u64 (cursor - len) in
        store_bytes (page_base + Z.land cursor 0xFFF) (str ++ [0]) ;;
        place_strings page_base page_top strs cursor (cursor :: string_addr)
  end.

(** build_argv_stack(): argc and the new stack top, [None] when it returns 0. *)
Definition build_argv_stack (dir stack_virtual : Z) (argv : option (list (list Z))) : M vm (option (Z * Z)) :=
  match argv with
  | None | Some [] => mret None
  | Some strs =>
      let argc := Z.of_nat (length strs) in
      if MAX_ARGV_COUNT <=? argc then mret None
      else
        let page_top := stack_virtual + PAGE_SIZE in
        physical ← get_physical_in dir stack_virtual;
        let page_base := physical_to_virtual physical in
        o ← place_strings page_base page_top (reverse strs) page_top [];
        match o with
        | None => mret None
        | Some (cursor, string_addr) =>
            let cursor := Z.ldiff cursor 7 in
            let pointer_array_bytes := (argc + 1) * 8 in
            if MAX_ARGV_BLOCK_SIZE <? u64 (page_top - u64 (cursor - pointer_array_bytes)) then mret None
            else
              let cursor := u64 (cursor - pointer_array_bytes) in
              store_words (page_base + Z.land cursor 0xFFF) (string_addr ++ [0]) ;;
              mret (Some (argc, cursor))
        end
  end.

(** * elf_load *)

(** The registers and fields of the process that enters the new image. *)
Definition enter_image (stack_top heap_start argc argv : Z) (x : process_t) : process_t :=
  let c := p_cpu x in
  set_heap_end heap_start (set_heap_start heap_start (set_is_user true
    (set_cpu (Cpu (rax c) (rbx c) (rcx c) (rdx c) argv argc (rbp c) stack_top stack_top 0x200
                  0x2B 0x10 0x10 (r12 c) (r13 c) (r14 c) (r15 c))
      (set_stack_top stack_top x)))).

(** The memory side: segments, user stack, arguments, iret frame. The result
    is the entry point, the kernel stack top, the heap start, argc and argv. *)
Definition build_image (dir kstack data : Z) (argv : option (list (list Z))) : M vm (Z * Z * Z * Z * Z) :=
  phnum ← e_phnum data;
  heap_start ← load_segments (Z.to_nat phnum) 0 dir data 0;
  fresh_page dir STACK_VIRTUAL (Z.lor (Z.lor PAGE_PRESENT PAGE_WRITABLE) PAGE_USER) ;;
  o ← build_argv_stack dir STACK_VIRTUAL argv;
  let '(argc, user_stack_top, argv_user_addr) :=
    match o with
    | Some (argc, top) => (argc, top, top)
    | None => (0, STACK_VIRTUAL + PAGE_SIZE - 8, 0)
    end in
  entry ← e_entry data;
  kstack ← push_all kstack [0x23; user_stack_top; 0x200; 0x2B; entry];
  mret (entry, u64 (kstack + 8), heap_start, argc, argv_user_addr).

Definition elf_load (data proc : Z) (argv : option (list (list Z))) : M kernel Z :=
  ok ← in_vm (check_header data);
  if negb ok then mret 0
  else
    x ← in_sched (deref proc);
    '(entry, stack_top, heap_start, argc, argv_user_addr) ← in_vm (build_image (p_page_dir x) (p_stack_top x) data argv);
    in_sched (update proc (enter_image stack_top heap_start argc argv_user_addr)) ;;
    mret entry.

Section FromPath.
Context {W : Type} `{!Vfs W}.

(** The strings the caller's pointer [argv] leads to, in the current address
    space. *)
Variable argv_strings : Z → vm → option (list (list Z)).

#[global] Instance elf_load_from_file : ElfLoader W := λ path process argv,
  fd ← vfs_open path 0;
  if fd <? 0 then mret 0
  else
    o ← vfs_size fd;
    match o with
    | None => vfs_close fd ;; mret 0
    | Some size =>
        let size := u32 size in
        if size =? 0 then vfs_close fd ;; mret 0
        else
          buffer ← in_kernel (in_heap (kmalloc size));
          if buffer =? 0 then vfs_close fd ;; mret 0
          else
            bytes_read ← vfs_read fd buffer size;
            vfs_close fd ;;
            if (bytes_read <? 0) || negb (u32 bytes_read =? size) then in_kernel (in_heap (kfree buffer)) ;; mret 0
            else
              strs ← in_kernel (in_vm (gets (argv_strings argv)));
              entry ← in_kernel (elf_load buffer process strs);
              in_kernel (in_heap (kfree buffer)) ;;
              mret entry
    end.

End FromPath.

(** * The file in memory *)

Lemma page_align_div a : page_align a = a / 4096 * 4096.
Proof.
  unfold page_align. change 0xFFF with (Z.ones 12).
  rewrite Z.ldiff_ones_r, Z.shiftl_mul_pow2, Z.shiftr_div_pow2 by lia. done.
Qed.

Lemma offset_mod a : Z.land a 0xFFF = a mod 4096.
Proof. change 0xFFF with (Z.ones 12). by rewrite Z.land_ones by lia. Qed.

Lemma page_up_div a : 0 <= a < 2 ^ 63 → page_up a = (a + 4095) / 4096 * 4096.
Proof.
  intros Ha. unfold page_up. rewrite u64_small by lia. fold (page_align (a + 0xFFF)). apply page_align_div.
Qed.

(** [buffer_ok]: the [size] bytes at [data] lie in the direct map, in pages in
    use that are neither page tables of the space nor the page [kp]. *)
Record buffer_ok (s : vm) (T : gmap (list Z) Z) (kp data size : Z) : Prop := {
  buf_map : PHYSICAL_MAP_BASE <= data ∧ data + size < 2 ^ 64;
  buf_page : ∀ i, 0 <= i < size → let c := (data - PHYSICAL_MAP_BASE + i) / 4096 * 4096 in
    page_ok c ∧ used (frames s) (c / 4096) = true ∧ (∀ r, T !! r ≠ Some c) ∧ c ≠ kp }.

Section Loading.
Context (s : vm) (root kp data size : Z) (T : gmap (list Z) Z).
Context (Hbuf : buffer_ok s T kp data size) (H0 : used (frames s) 0 = true).
Context (Hkp : page_ok kp) (Hkpu : used (frames s) (kp / 4096) = true) (Hkpt : ∀ r, T !! r ≠ Some kp).

(** The file, as it is when the loader starts. *)
Definition file (i : Z) : Z := rd8 (mem s) (data - PHYSICAL_MAP_BASE + i).
Definition field (n : nat) (i : Z) : Z := combine ((λ k, file (i + k)) <$> seqZ 0 (Z.of_nat n)).

Definition grows_to (t : vm) (T' : gmap (list Z) Z) (F : gmap Z Z) (img : Z → Z) : Prop := grown s t root kp T T' F img.

Lemma v2p_data i : 0 <= i <= size → virtual_to_physical (data + i) = data - PHYSICAL_MAP_BASE + i.
Proof. destruct Hbuf as [Hm _]. intros Hi. unfold virtual_to_physical, PHYSICAL_MAP_BASE in *. rewrite u64_small by lia. lia. Qed.

Lemma file_kept t T' F img i : grows_to t T' F img → 0 <= i < size →
  rd8 (mem t) (data - PHYSICAL_MAP_BASE + i) = file i.
Proof.
  intros Hg Hi. destruct (buf_page _ _ _ _ _ Hbuf i Hi) as (Hc & Hu & Ht & Hk).
  unfold file. set (a := data - PHYSICAL_MAP_BASE + i) in *.
  replace a with (a / 4096 * 4096 + a mod 4096) by (Z.div_mod_to_equations; lia).
  apply (grown_mem _ _ _ _ _ _ _ _ Hg); [done..|]. apply Z.mod_pos_bound. lia.
Qed.

Lemma load8_file t T' F img i : grows_to t T' F img → 0 <= i < size → load8 (data + i) t = Done (file i) t.
Proof. intros Hg Hi. unfold load8, gets. rewrite v2p_data by lia. by rewrite (file_kept t T' F img i Hg Hi). Qed.

Lemma load_field_file n t T' F img i : grows_to t T' F img → 0 <= i → i + Z.of_nat n <= size →
  load_field n (data + i) t = Done (field n i) t.
Proof.
  intros Hg Hi Hn. unfold load_field, gets, field. rewrite v2p_data by lia. f_equal. f_equal.
  unfold rd_bytes. apply list_fmap_ext. intros j k Hk%list_elem_of_lookup_2. apply elem_of_seqZ in Hk.
  rewrite <- Z.add_assoc. apply (file_kept t T' F img (i + k) Hg). lia.
Qed.

(** * The copy and zeroing loops *)

(** The image with [g] on the [len] addresses from [a] on. *)
Definition img_range (a len : Z) (g img : Z → Z) (v : Z) : Z := if decide (a <= v < a + len) then g v else img v.

(** One chunk: the bytes of one page from the address [va] on. *)
Lemma chunk_spec t T' F img va m f g (body : Z → M vm unit) :
  grows_to t T' F img → 0 <= va → 0 < m → va mod 4096 + m <= 4096 → F !! (va / 4096) = Some f →
  (∀ j u img', 0 <= j < m → grows_to u T' F img' →
     body j u = store8 (physical_to_virtual (f * 4096) + va mod 4096 + j) (g (va + j)) u) →
  ∃ t', for_up (Z.to_nat m) 0 body t = Done tt t' ∧ grows_to t' T' F (img_range va m (λ v, u8 (g v)) img).
Proof.
  intros Hg Hva Hm Hpage Hf Hb. pose proof (Z.mod_pos_bound va 4096 ltac:(lia)) as Hmod.
  pose proof (Z.div_mod va 4096 ltac:(lia)) as Hdm.
  destruct (grown_frame _ _ _ _ _ _ _ _ Hg _ _ Hf) as (Hpf & _).
  destruct (grown_write_bytes s t root kp T T' F img (va / 4096) f (va mod 4096) m body g Hg Hf)
    as (t' & Hrun & Hg'); [lia|lia|lia|by left|done| |].
  - intros j u img' Hj Hgu. rewrite (Hb j u img' Hj Hgu). unfold store8, set_mem, modify.
    rewrite <- Z.add_assoc, virtual_byte by (done || lia).
    replace (va / 4096 * 4096 + va mod 4096 + j) with (va + j) by lia. by rewrite Z.add_assoc.
  - exists t'. split; [done|]. eapply grown_ext; [|exact Hg']. intros v. unfold img_range. apply decide_ext. lia.
Qed.

Lemma physical_page t T' F img va f : grows_to t T' F img → user_addr va → F !! (va / 4096) = Some f →
  get_physical_in (physical_to_virtual root) (page_align va) t = Done (f * 4096) t.
Proof.
  intros Hg Hv Hf. pose proof (user_addr_align va Hv) as Ha.
  rewrite (get_physical_in_translation _ _ _ _ (grown_wf _ _ _ _ _ _ _ _ Hg) Ha). f_equal.
  rewrite page_align_div in *. rewrite (grown_in _ _ _ _ _ _ _ _ Hg _ f Ha) by (by rewrite Z.div_mul by lia).
  rewrite Z.mod_mul by lia. lia.
Qed.

(** All pages of a range are in [F]. *)
Definition mapped (F : gmap Z Z) (va len : Z) : Prop :=
  ∀ q, va / 4096 <= q → q * 4096 < va + len → is_Some (F !! q).

Lemma copy_loop_spec n : ∀ t T' F img src va remaining,
  grows_to t T' F img → 0 <= src → src + remaining <= size → 0 <= va → va + remaining <= 2 ^ 47 → 0 <= remaining →
  mapped F va remaining → (0 < remaining → va mod 4096 + remaining <= 4096 * (Z.of_nat n - 1)) → (1 <= n)%nat →
  ∃ t', copy_loop n (physical_to_virtual root) (data + src) va remaining t = Done tt t' ∧
    grows_to t' T' F (img_range va remaining (λ v, file (src + (v - va))) img).
Proof.
  induction n as [|n IH]; intros t T' F img src va rem Hg Hs Hsz Hva Hlim Hr HF Hn Hn1; [lia|]. cbn [copy_loop].
  destruct (Z.ltb_spec 0 rem) as [Hpos|Hz].
  2:{ exists t. split; [done|]. eapply grown_ext; [|exact Hg]. intros v. unfold img_range. by rewrite decide_False by lia. }
  specialize (Hn Hpos). pose proof (Z.mod_pos_bound va 4096 ltac:(lia)) as Hmod.
  pose proof (Z.div_mod va 4096 ltac:(lia)) as Hdm. destruct Hbuf as [Hbm _]. unfold PHYSICAL_MAP_BASE in Hbm.
  destruct (HF (va / 4096)) as [f Hf]; [lia|lia|].
  rewrite offset_mod. cbv zeta. unfold PAGE_SIZE.
  rewrite (bind_Done _ _ _ _ _ (physical_page t T' F img va f Hg ltac:(unfold user_addr; lia) Hf)).
  set (m := if rem <? 4096 - va mod 4096 then rem else 4096 - va mod 4096).
  assert (Hm : 0 < m ∧ m <= rem ∧ va mod 4096 + m <= 4096 ∧ (m < rem → va mod 4096 + m = 4096)).
  { unfold m. destruct (Z.ltb_spec rem (4096 - va mod 4096)); lia. }
  destruct (chunk_spec t T' F img va m f (λ v, file (src + (v - va)))
    (λ j, b ← load8 (data + src + j); store8 (physical_to_virtual (f * 4096) + va mod 4096 + j) b) Hg)
    as (t1 & Hrun & Hg1); [lia..|done| |].
  { intros j u img' Hj Hgu. rewrite <- (Z.add_assoc data).
    rewrite (bind_Done _ _ _ _ _ (load8_file u T' F img' (src + j) Hgu ltac:(lia))).
    cbv beta. by replace (va + j - va) with j by lia. }
  rewrite (bind_Done _ _ _ _ _ Hrun). rewrite (u64_small (va + m)), (u64_small (data + src + m)), <- (Z.add_assoc data) by lia.
  destruct (IH t1 T' F _ (src + m) (va + m) (rem - m) Hg1) as (t2 & Hrun2 & Hg2); [lia..| | |lia|].
  { intros q Hq1 Hq2. apply HF; [|lia]. transitivity ((va + m) / 4096); [apply Z.div_le_mono; lia|done]. }
  { intros Hpos'. assert (va mod 4096 + m = 4096) by lia.
    assert ((va + m) mod 4096 = 0) as -> by (Z.div_mod_to_equations; lia). lia. }
  exists t2. split; [done|]. eapply grown_ext; [|exact Hg2]. intros v. unfold img_range.
  repeat case_decide; try lia; try done.
  - f_equal. lia.
  - apply u8_small. apply rd8_range.
Qed.

Lemma bss_loop_spec n : ∀ t T' F img va end_va,
  grows_to t T' F img → 0 <= va → end_va <= 2 ^ 47 →
  mapped F va (end_va - va) → (va < end_va → va mod 4096 + (end_va - va) <= 4096 * (Z.of_nat n - 1)) → (1 <= n)%nat →
  ∃ t', bss_loop n (physical_to_virtual root) va end_va t = Done tt t' ∧
    grows_to t' T' F (img_range va (end_va - va) (λ _, 0) img).
Proof.
  induction n as [|n IH]; intros t T' F img va ve Hg Hva Hlim HF Hn Hn1; [lia|]. cbn [bss_loop].
  destruct (Z.ltb_spec va ve) as [Hpos|Hz].
  2:{ exists t. split; [done|]. eapply grown_ext; [|exact Hg]. intros v. unfold img_range. by rewrite decide_False by lia. }
  specialize (Hn Hpos). pose proof (Z.mod_pos_bound va 4096 ltac:(lia)) as Hmod.
  pose proof (Z.div_mod va 4096 ltac:(lia)) as Hdm.
  destruct (HF (va / 4096)) as [f Hf]; [lia|lia|].
  rewrite offset_mod. cbv zeta. unfold PAGE_SIZE.
  rewrite (bind_Done _ _ _ _ _ (physical_page t T' F img va f Hg ltac:(unfold user_addr; lia) Hf)).
  set (m := if ve - va <? 4096 - va mod 4096 then ve - va else 4096 - va mod 4096).
  assert (Hm : 0 < m ∧ m <= ve - va ∧ va mod 4096 + m <= 4096 ∧ (m < ve - va → va mod 4096 + m = 4096)).
  { unfold m. destruct (Z.ltb_spec (ve - va) (4096 - va mod 4096)); lia. }
  destruct (chunk_spec t T' F img va m f (λ _, 0)
    (λ j, store8 (physical_to_virtual (f * 4096) + va mod 4096 + j) 0) Hg)
    as (t1 & Hrun & Hg1); [lia..|done|done|].
  rewrite (bind_Done _ _ _ _ _ Hrun), (u64_small (va + m)) by lia.
  destruct (IH t1 T' F _ (va + m) ve Hg1) as (t2 & Hrun2 & Hg2); [lia..| | |lia|].
  { intros q Hq1 Hq2. apply HF; [|lia]. transitivity ((va + m) / 4096); [apply Z.div_le_mono; lia|done]. }
  { intros Hpos'. assert (va mod 4096 + m = 4096) by lia.
    assert ((va + m) mod 4096 = 0) as -> by (Z.div_mod_to_equations; lia). lia. }
  exists t2. split; [done|]. eapply grown_ext; [|exact Hg2]. intros v. unfold img_range.
  repeat case_decide; try lia; done.
Qed.

(** * Segments *)

Definition first_page (ph : elf64_phdr_t) : Z := p_vaddr ph / 4096.
Definition end_page (ph : elf64_phdr_t) : Z := (p_vaddr ph + p_memsz ph + 4095) / 4096.

(** The file holds the bytes of the segment, which ends below the stack. *)
Record segment_ok (ph : elf64_phdr_t) : Prop := {
  seg_nonneg : 0 <= p_offset ph ∧ 0 <= p_vaddr ph ∧ 0 <= p_filesz ph;
  seg_file : p_offset ph + p_filesz ph <= size;
  seg_sizes : p_filesz ph <= p_memsz ph;
  seg_limit : p_vaddr ph + p_memsz ph <= STACK_VIRTUAL }.

(** The image once the segment is loaded over [img]: its bytes from the file,
    zeros on the rest of its pages. *)
Definition segment_image (ph : elf64_phdr_t) (img : Z → Z) (v : Z) : Z :=
  if decide (p_vaddr ph <= v < p_vaddr ph + p_filesz ph) then file (p_offset ph + (v - p_vaddr ph))
  else if decide (first_page ph <= v / 4096 < end_page ph) then 0 else img v.

Lemma page_steps_enough len r : 0 <= len → 0 <= r < 4096 → r + len <= 4096 * (Z.of_nat (page_steps len) - 1).
Proof. intros. unfold page_steps, PAGE_SIZE. rewrite !Nat2Z.inj_succ, Z2Nat.id; Z.div_mod_to_equations; lia. Qed.

Lemma segment_flags_present ph : flag (segment_flags ph) PAGE_PRESENT = true.
Proof. unfold segment_flags. by destruct (flag (p_flags ph) PF_W). Qed.

Lemma load_segment_spec t T' F img ph h : grows_to t T' F img → segment_ok ph →
  (∃ msg, load_segment (physical_to_virtual root) data ph h t = Panic msg) ∨
  ∃ t' T'' F', load_segment (physical_to_virtual root) data ph h t = Done (Z.max h (end_page ph * 4096)) t' ∧
    covers F F' (first_page ph) (end_page ph - first_page ph) ∧ grows_to t' T'' F' (segment_image ph img).
Proof.
  intros Hg [[Ho [Hv Hfs]] Hfile Hsz Hlim]. unfold STACK_VIRTUAL in Hlim. unfold load_segment. cbv zeta.
  rewrite (u64_small (p_vaddr ph + p_memsz ph)), (u64_small (p_vaddr ph + p_filesz ph)), page_up_div, page_align_div by lia.
  fold (first_page ph) (end_page ph).
  assert (Hp : 0 <= first_page ph <= end_page ph ∧ end_page ph <= 2 ^ 35)
    by (unfold first_page, end_page; Z.div_mod_to_equations; lia).
  destruct (fresh_pages_spec s t root kp T T' F img (first_page ph) (end_page ph - first_page ph) (segment_flags ph) Hg H0)
    as [[msg H]|(t1 & T1 & F1 & H & Hcov & Hg1)]; [lia..|apply segment_flags_present| |];
    replace (first_page ph + (end_page ph - first_page ph)) with (end_page ph) in H by lia.
  { left. exists msg. by apply bind_Panic. }
  right. rewrite (bind_Done _ _ _ _ _ H). clear H.
  assert (Hmap : ∀ va len, p_vaddr ph <= va → va + len <= p_vaddr ph + p_memsz ph → mapped F1 va len).
  { intros va len H1 H2 q Hq1 Hq2. apply Hcov. split.
    - etrans; [|exact Hq1]. unfold first_page. apply Z.div_le_mono; lia.
    - assert (q < end_page ph) by (unfold end_page; Z.div_mod_to_equations; lia). lia. }
  destruct Hbuf as [Hbm _]. unfold PHYSICAL_MAP_BASE in Hbm. rewrite (u64_small (data + _)) by lia.
  destruct (copy_loop_spec (page_steps (p_filesz ph)) t1 T1 F1 _ (p_offset ph) (p_vaddr ph) (p_filesz ph) Hg1)
    as (t2 & H2 & Hg2); [lia..|apply Hmap; lia| |unfold page_steps; lia|].
  { intros _. apply page_steps_enough; [lia|apply Z.mod_pos_bound; lia]. }
  rewrite (bind_Done _ _ _ _ _ H2). clear H2.
  destruct (bss_loop_spec (page_steps (p_vaddr ph + p_memsz ph - (p_vaddr ph + p_filesz ph))) t2 T1 F1 _
    (p_vaddr ph + p_filesz ph) (p_vaddr ph + p_memsz ph) Hg2) as (t3 & H3 & Hg3);
    [lia..|apply Hmap; lia| |unfold page_steps; lia|].
  { intros _. apply page_steps_enough; [lia|apply Z.mod_pos_bound; lia]. }
  rewrite (bind_Done _ _ _ _ _ H3). exists t3, T1, F1.
  split; [|split; [done|]].
  - destruct (Z.ltb_spec h (end_page ph * 4096)); unfold mret, M_ret; f_equal; lia.
  - eapply grown_ext; [|exact Hg3]. intros v. unfold segment_image, img_range, img_zeros.
    replace (first_page ph + (end_page ph - first_page ph)) with (end_page ph) by lia.
    destruct (decide (p_vaddr ph <= v < p_vaddr ph + p_filesz ph)).
    + by rewrite decide_False by lia.
    + case_decide; [|done]. rewrite decide_True; [done|].
      unfold first_page, end_page. Z.div_mod_to_equations. lia.
Qed.

(** ** The program headers *)

Definition phdr_at (i : Z) : elf64_phdr_t :=
  let o := field 8 32 + PHDR_SIZE * i in
  Phdr (field 4 o) (field 4 (o + 4)) (field 8 (o + 8)) (field 8 (o + 16)) (field 8 (o + 32)) (field 8 (o + 40)).

(** The image and the heap start after [n] headers from number [i] on. *)
Fixpoint image_from (n : nat) (i : Z) (img : Z → Z) : Z → Z :=
  match n with
  | O => img
  | S n => image_from n (i + 1) (if p_type (phdr_at i) =? PT_LOAD then segment_image (phdr_at i) img else img)
  end.

Fixpoint heap_from (n : nat) (i : Z) (h : Z) : Z :=
  match n with
  | O => h
  | S n => heap_from n (i + 1) (if p_type (phdr_at i) =? PT_LOAD then Z.max h (end_page (phdr_at i) * 4096) else h)
  end.

(** The page [q] belongs to a LOAD segment. *)
Definition in_segment (n : nat) (i q : Z) : Prop :=
  ∃ j, i <= j < i + Z.of_nat n ∧ p_type (phdr_at j) = PT_LOAD ∧ first_page (phdr_at j) <= q < end_page (phdr_at j).

Lemma field_nonneg n i : 0 <= field n i.
Proof.
  apply combine_range, Forall_fmap, list.Forall_forall. intros k _. apply rd8_range.
Qed.

Lemma load_phdr_spec t T' F img i : grows_to t T' F img → 0 <= i → field 8 32 + PHDR_SIZE * (i + 1) <= size → 40 <= size →
  (phoff ← e_phoff data; load_phdr (u64 (data + phoff) + PHDR_SIZE * i)) t = Done (phdr_at i) t.
Proof.
  intros Hg Hi Hsz H40. pose proof (field_nonneg 8 32) as Hn. unfold PHDR_SIZE in *.
  destruct Hbuf as [Hbm _]. unfold PHYSICAL_MAP_BASE in Hbm. unfold e_phoff.
  rewrite (bind_Done _ _ _ _ _ (load_field_file 8 t T' F img 32 Hg ltac:(lia) ltac:(lia))).
  rewrite u64_small, <- Z.add_assoc by lia. unfold load_phdr, phdr_at, PHDR_SIZE. cbv zeta.
  set (o := field 8 32 + 56 * i). rewrite <- !Z.add_assoc.
  assert (Hf : ∀ n k, 0 <= k → k + Z.of_nat n <= 56 → load_field n (data + (o + k)) t = Done (field n (o + k)) t).
  { intros n k Hk Hnk. apply (load_field_file n t T' F img); [done|unfold o; lia..]. }
  pose proof (Hf 4%nat 0 ltac:(lia) ltac:(lia)) as Hf0. rewrite Z.add_0_r in Hf0. rewrite (bind_Done _ _ _ _ _ Hf0).
  do 5 (erewrite bind_Done by (apply Hf; lia)). done.
Qed.

Lemma load_segments_spec n : ∀ i t T' F img h,
  grows_to t T' F img → 0 <= i → field 8 32 + PHDR_SIZE * (i + Z.of_nat n) <= size → 40 <= size →
  (∀ j, i <= j < i + Z.of_nat n → p_type (phdr_at j) = PT_LOAD → segment_ok (phdr_at j)) →
  (∃ msg, load_segments n i (physical_to_virtual root) data h t = Panic msg) ∨
  ∃ t' T'' F', load_segments n i (physical_to_virtual root) data h t = Done (heap_from n i h) t' ∧
    (∀ q, is_Some (F' !! q) ↔ is_Some (F !! q) ∨ in_segment n i q) ∧ grows_to t' T'' F' (image_from n i img).
Proof.
  induction n as [|n IH]; intros i t T' F img h Hg Hi Hsz H40 Hok; cbn [load_segments image_from heap_from].
  { right. exists t, T', F. split; [done|]. split; [|done]. intros q. split; [by left|].
    intros [|(j & Hj & _)]; [done|lia]. }
  assert (Hph := load_phdr_spec t T' F img i Hg Hi ltac:(unfold PHDR_SIZE in *; lia) H40).
  apply bind_Done_inv in Hph as (phoff & u & H1 & H2).
  assert (u = t) as -> by (unfold e_phoff, load_field, gets in H1; by injection H1).
  rewrite (bind_Done _ _ _ _ _ H1), (bind_Done _ _ _ _ _ H2). clear H1 H2.
  destruct (Z.eqb_spec (p_type (phdr_at i)) PT_LOAD) as [Hl|Hl]; cbn [negb].
  - destruct (load_segment_spec t T' F img (phdr_at i) h Hg) as [[msg H]|(t1 & T1 & F1 & H & Hcov & Hg1)];
      [apply Hok; [lia|done]|left; exists msg; by apply bind_Panic|].
    rewrite (bind_Done _ _ _ _ _ H).
    destruct (IH (i + 1) t1 T1 F1 _ (Z.max h (end_page (phdr_at i) * 4096)) Hg1) as [|(t2 & T2 & F2 & H2 & Hdom & Hg2)];
      [lia|lia|done|intros j Hj; apply Hok; lia|by left|right].
    exists t2, T2, F2. split; [done|]. split; [|done]. intros q. rewrite Hdom. destruct (Hcov q) as [Hc1 Hc2].
    destruct (decide (first_page (phdr_at i) <= q < end_page (phdr_at i))) as [Hq|Hq].
    + split; [|intros _; left; apply Hc1; lia]. intros _. right. exists i. split; [lia|done].
    + rewrite Hc2 by lia. split; (intros [|(j & Hj & Hrest)]; [by left|right]; exists j).
      * split; [lia|done].
      * split; [|done]. destruct (decide (j = i)) as [->|]; [|lia]. destruct Hrest. lia.
  - destruct (IH (i + 1) t T' F img h Hg) as [|(t2 & T2 & F2 & H2 & Hdom & Hg2)];
      [lia|lia|done|intros j Hj; apply Hok; lia|by left|right].
    exists t2, T2, F2. split; [done|]. split; [|done]. intros q. rewrite Hdom.
    split; (intros [|(j & Hj & Hrest)]; [by left|right]; exists j).
    + split; [lia|done].
    + split; [|done]. destruct (decide (j = i)) as [->|]; [|lia]. by destruct Hrest.
Qed.

(** * Arguments *)

Lemma wr_bytes_app bs : ∀ bs' a m, wr_bytes a (bs ++ bs') m = wr_bytes (a + Z.of_nat (length bs)) bs' (wr_bytes a bs m).
Proof.
  induction bs as [|b bs IH]; intros bs' a m; [by rewrite Z.add_0_r|]. cbn [app wr_bytes length]. rewrite IH.
  f_equal. lia.
Qed.

Lemma store_bytes_spec a bs : page_ok a → ∀ i t, 0 <= i → i + Z.of_nat (length bs) <= 4096 →
  store_bytes (physical_to_virtual a + i) bs t
  = Done tt (Vm (wr_bytes (a + i) bs (mem t)) (frames t) (kernel_pml4 t) (cr3 t)).
Proof.
  intros Ha. induction bs as [|b bs IH]; intros i t Hi Hl; [by destruct t|]. cbn [length store_bytes] in *.
  unfold store8. rewrite virtual_byte by (done || lia). unfold set_mem, modify. run.
  rewrite <- Z.add_assoc, IH by lia. cbn [mem frames kernel_pml4 cr3]. by rewrite Z.add_assoc.
Qed.

Lemma store_words_spec a ws : page_ok a → ∀ i t, 0 <= i → i + 8 * Z.of_nat (length ws) <= 4096 →
  store_words (physical_to_virtual a + i) ws t
  = Done tt (Vm (wr_bytes (a + i) (concat (split 8 <$> ws)) (mem t)) (frames t) (kernel_pml4 t) (cr3 t)).
Proof.
  intros Ha. induction ws as [|w ws IH]; intros i t Hi Hl; [by destruct t|]. cbn [length store_words] in *.
  unfold store. rewrite virtual_byte by (done || lia). unfold set_mem, modify. run.
  rewrite <- Z.add_assoc, IH by lia. cbn [mem frames kernel_pml4 cr3].
  change (concat (split 8 <$> w :: ws)) with (split 8 w ++ concat (split 8 <$> ws)).
  rewrite wr_bytes_app, length_split. unfold wr64. change (Z.of_nat 8) with 8. by rewrite Z.add_assoc.
Qed.

(** The stack page and the end of it. *)
Definition STACK_PAGE : Z := 0x7FFFFFFFE.
Definition stack_end : Z := STACK_VIRTUAL + PAGE_SIZE.

(** The image holds the bytes [bs] at [a]. *)
Definition has_bytes (img : Z → Z) (a : Z) (bs : list Z) : Prop :=
  ∀ j b, bs !! j = Some b → img (a + Z.of_nat j) = b.

Definition block_size (strs : list (list Z)) : Z := foldr (λ str n, Z.of_nat (length str) + 1 + n) 0 strs.

(** A string of [strs] at an address of [addrs], between [cursor] and the end
    of the stack. *)
Definition placed (img : Z → Z) (cursor : Z) (addrs : list Z) (strs : list (list Z)) : Prop :=
  Forall2 (λ a str, cursor <= a ∧ a + Z.of_nat (length str) + 1 <= stack_end ∧ has_bytes img a (str ++ [0])) addrs strs.

Definition argv_bytes (strs : list (list Z)) : Prop :=
  Forall (λ str, Forall is_byte str ∧ Z.of_nat (length str) < 2 ^ 62) strs.

Lemma block_size_nonneg strs : 0 <= block_size strs.
Proof. induction strs; simpl; lia. Qed.

Lemma img_write_bytes img a bs : Forall is_byte bs → has_bytes (img_write a bs img) a bs.
Proof.
  intros Hb j b Hj. unfold img_write. pose proof (lookup_lt_Some _ _ _ Hj). rewrite decide_True by lia.
  replace (Z.to_nat (a + Z.of_nat j - a)) with j by lia. rewrite (list_lookup_total_correct _ _ _ Hj).
  apply u8_small. exact (Forall_lookup_1 _ _ _ _ Hb Hj).
Qed.

Lemma img_write_out img a bs v : v < a ∨ a + Z.of_nat (length bs) <= v → img_write a bs img v = img v.
Proof. intros H. unfold img_write. by rewrite decide_False by lia. Qed.

Lemma has_bytes_write img a bs b bs' : has_bytes img a bs → b + Z.of_nat (length bs') <= a →
  has_bytes (img_write b bs' img) a bs.
Proof. intros H Hl j x Hj. rewrite img_write_out by (pose proof (lookup_lt_Some _ _ _ Hj); lia). by apply H. Qed.

Lemma placed_write img c addrs strs b bs' c' : placed img c addrs strs → b + Z.of_nat (length bs') <= c → c' <= c →
  placed (img_write b bs' img) c' addrs strs.
Proof.
  intros H Hl Hc. eapply Forall2_impl; [|exact H]. cbv beta. intros a str (H1 & H2 & H3). split; [lia|]. split; [done|].
  apply has_bytes_write; [done|lia].
Qed.

(** Writing bytes into the stack page. *)
Lemma stack_write t T' F img f c bs : grows_to t T' F img → F !! STACK_PAGE = Some f →
  STACK_VIRTUAL <= c → c + Z.of_nat (length bs) <= stack_end →
  grows_to (Vm (wr_bytes (f * 4096 + (c - STACK_VIRTUAL)) bs (mem t)) (frames t) (kernel_pml4 t) (cr3 t)) T' F (img_write c bs img).
Proof.
  intros Hg Hf Hc Hl. unfold stack_end, PAGE_SIZE in Hl.
  pose proof (grown_write s t root kp T T' F img STACK_PAGE f (c - STACK_VIRTUAL) bs Hg Hf ltac:(lia) ltac:(lia) (or_introl Hkp) Hkpu) as Hw.
  by replace (STACK_PAGE * 4096 + (c - STACK_VIRTUAL)) with c in Hw by (unfold STACK_PAGE, STACK_VIRTUAL; lia).
Qed.

Lemma stack_offset c : STACK_VIRTUAL <= c < stack_end → Z.land c 0xFFF = c - STACK_VIRTUAL.
Proof. unfold stack_end, STACK_VIRTUAL, PAGE_SIZE. intros. rewrite offset_mod. Z.div_mod_to_equations. lia. Qed.

Lemma place_strings_spec strs : ∀ t T' F img f cursor addrs done_strs,
  grows_to t T' F img → F !! STACK_PAGE = Some f → argv_bytes strs →
  stack_end - 2048 <= cursor <= stack_end → placed img cursor addrs done_strs →
  ∃ o t' img', place_strings (physical_to_virtual (f * 4096)) stack_end strs cursor addrs t = Done o t' ∧
    grows_to t' T' F img' ∧ (∀ v, v < STACK_VIRTUAL → img' v = img v) ∧
    if decide (stack_end - (cursor - block_size strs) <= 2048)
    then ∃ addrs', o = Some (cursor - block_size strs, addrs') ∧
      placed img' (cursor - block_size strs) addrs' (reverse strs ++ done_strs)
    else o = None.
Proof.
  induction strs as [|str strs IH]; intros t T' F img f cursor addrs ds Hg Hf Hb Hc Hp; cbn [place_strings block_size foldr].
  { eexists _, t, img. split; [done|]. split; [done|]. split; [done|]. rewrite Z.sub_0_r, decide_True by lia. eauto. }
  apply list.Forall_cons in Hb as [[Hb1 Hb2] Hb]. fold (block_size strs). pose proof (block_size_nonneg strs) as Hbs.
  set (len := Z.of_nat (length str) + 1). unfold MAX_ARGV_BLOCK_SIZE. cbv zeta.
  assert (Hwrap : u64 (stack_end - u64 (cursor - len)) = stack_end - (cursor - len)).
  { unfold stack_end, STACK_VIRTUAL, PAGE_SIZE in *. unfold len. word_lia. }
  rewrite Hwrap. destruct (Z.ltb_spec 2048 (stack_end - (cursor - len))) as [Hbig|Hfit].
  { eexists None, t, img. split; [done|]. split; [done|]. split; [done|]. by rewrite decide_False by lia. }
  rewrite (u64_small (cursor - len)) by (unfold stack_end, STACK_VIRTUAL, PAGE_SIZE, len in *; lia).
  destruct (grown_frame _ _ _ _ _ _ _ _ Hg _ _ Hf) as (Hpf & _).
  assert (Hlen : Z.of_nat (length (str ++ [0])) = len) by (rewrite length_app; simpl; lia).
  rewrite stack_offset by (unfold stack_end, STACK_VIRTUAL, PAGE_SIZE, len in *; lia).
  pose proof (store_bytes_spec (f * 4096) (str ++ [0]) Hpf (cursor - len - STACK_VIRTUAL) t) as Hst.
  rewrite (bind_Done _ _ _ _ _ (Hst ltac:(unfold stack_end, STACK_VIRTUAL, PAGE_SIZE, len in *; lia)
    ltac:(unfold stack_end, STACK_VIRTUAL, PAGE_SIZE in *; lia))).
  pose proof (stack_write t T' F img f (cursor - len) (str ++ [0]) Hg Hf
    ltac:(unfold stack_end, STACK_VIRTUAL, PAGE_SIZE in *; lia) ltac:(lia)) as Hg1.
  destruct (IH _ T' F _ f (cursor - len) ((cursor - len) :: addrs) (str :: ds) Hg1 Hf Hb) as (o & t' & img' & Hrun & Hg' & Hlow & Hres);
    [unfold len in *; lia| |].
  { constructor; cbv beta.
    - split; [lia|]. split; [unfold len in *; lia|]. apply img_write_bytes. apply Forall_app. split; [done|].
      constructor; [by vm_compute|constructor].
    - apply (placed_write img cursor); [done|lia|unfold len; lia]. }
  exists o, t', img'. split; [done|]. split; [done|]. split.
  - intros v Hv. rewrite Hlow by done. apply img_write_out. left. unfold stack_end, STACK_VIRTUAL, PAGE_SIZE in *. lia.
  - destruct (decide (stack_end - (cursor - len - block_size strs) <= 2048)) as [Hfit'|Hbig'].
    2:{ rewrite decide_False by (unfold len in *; lia). done. }
    rewrite decide_True by (unfold len in *; lia). destruct Hres as (addrs' & -> & Hpl). exists addrs'.
    rewrite Z.sub_add_distr.
    split; [done|].
    by rewrite reverse_cons, <- app_assoc.
Qed.

(** The block fits: its pointer array starts at [argv_top]. *)
Definition argv_top (strs : list (list Z)) : Z :=
  (stack_end - block_size strs) / 8 * 8 - 8 * (Z.of_nat (length strs) + 1).

Definition argv_fits (strs : list (list Z)) : Prop :=
  1 <= Z.of_nat (length strs) < 32 ∧ stack_end - argv_top strs <= 2048.

#[export] Instance argv_fits_dec strs : Decision (argv_fits strs).
Proof. unfold argv_fits. apply _. Defined.

(** What _start(argc, argv) finds on its stack: at [argv_top] the addresses of
    the strings and a null pointer, each string with its NUL above them. *)
Definition argv_layout (img : Z → Z) (strs : list (list Z)) : Prop :=
  ∃ addrs, placed img (argv_top strs + 8 * (Z.of_nat (length strs) + 1)) addrs strs ∧
    has_bytes img (argv_top strs) (concat (split 8 <$> addrs ++ [0])).

Lemma length_words ws : length (concat (split 8 <$> ws)) = (8 * length ws)%nat.
Proof.
  induction ws as [|w ws IH]; [done|]. rewrite fmap_cons. cbn [concat length]. rewrite length_app, length_split, IH. lia.
Qed.

Lemma words_byte ws : Forall is_byte (concat (split 8 <$> ws)).
Proof.
  induction ws as [|w ws IH]; [constructor|]. rewrite fmap_cons. cbn [concat]. apply Forall_app. split; [apply split_byte|done].
Qed.

Lemma block_size_app l1 l2 : block_size (l1 ++ l2) = block_size l1 + block_size l2.
Proof. induction l1; [done|]. cbn [app block_size foldr]. fold (block_size (l1 ++ l2)) (block_size l1). lia. Qed.

Lemma block_size_reverse strs : block_size (reverse strs) = block_size strs.
Proof.
  induction strs as [|str strs IH]; [done|]. rewrite reverse_cons, block_size_app, IH.
  cbn [block_size foldr]. fold (block_size strs). lia.
Qed.

Lemma build_argv_stack_spec t T' F img f strs : grows_to t T' F img → F !! STACK_PAGE = Some f → argv_bytes strs →
  ∃ t' img', build_argv_stack (physical_to_virtual root) STACK_VIRTUAL (Some strs) t
      = Done (if decide (argv_fits strs) then Some (Z.of_nat (length strs), argv_top strs) else None) t' ∧
    grows_to t' T' F img' ∧ (∀ v, v < STACK_VIRTUAL → img' v = img v) ∧
    (argv_fits strs → argv_layout img' strs).
Proof.
  intros Hg Hf Hb. unfold build_argv_stack. destruct strs as [|str0 strs0].
  { exists t, img. rewrite decide_False by (intros [H _]; simpl in H; lia). split_and!; try done. intros [H _]. simpl in H; lia. }
  set (strs := str0 :: strs0) in *. unfold MAX_ARGV_COUNT. cbv zeta.
  destruct (Z.leb_spec 32 (Z.of_nat (length strs))) as [Hmany|Hfew].
  { exists t, img. rewrite decide_False by (intros [H _]; lia). split_and!; try done. intros [H _]. lia. }
  assert (Hus : user_addr STACK_VIRTUAL) by (unfold user_addr, STACK_VIRTUAL; lia).
  pose proof (physical_page t T' F img STACK_VIRTUAL f Hg Hus Hf) as Hph.
  change (page_align STACK_VIRTUAL) with STACK_VIRTUAL in Hph. rewrite (bind_Done _ _ _ _ _ Hph). fold stack_end.
  assert (Hbr : argv_bytes (reverse strs)) by (by apply Forall_reverse).
  destruct (place_strings_spec (reverse strs) t T' F img f stack_end [] [] Hg Hf Hbr ltac:(lia) ltac:(constructor))
    as (o & t1 & img1 & Hrun & Hg1 & Hlow & Hres).
  rewrite (bind_Done _ _ _ _ _ Hrun). clear Hrun. rewrite block_size_reverse, reverse_involutive, app_nil_r in Hres.
  pose proof (block_size_nonneg strs) as Hbs.
  assert (Hlow8 : Z.ldiff (stack_end - block_size strs) 7 = (stack_end - block_size strs) / 8 * 8).
  { change 7 with (Z.ones 3). rewrite Z.ldiff_ones_r, Z.shiftl_mul_pow2, Z.shiftr_div_pow2 by lia. done. }
  destruct (decide (stack_end - (stack_end - block_size strs) <= 2048)) as [Hsz|Hsz].
  2:{ subst o. exists t1, img1. rewrite decide_False by (unfold argv_fits, argv_top; Z.div_mod_to_equations; lia).
      split_and!; try done. unfold argv_fits, argv_top. intros [_ H]. Z.div_mod_to_equations. lia. }
  destruct Hres as (addrs & -> & Hpl). rewrite Hlow8.
  assert (Htop : (stack_end - block_size strs) / 8 * 8 - (Z.of_nat (length strs) + 1) * 8 = argv_top strs).
  { unfold argv_top. lia. }
  rewrite Htop. unfold MAX_ARGV_BLOCK_SIZE.
  assert (Hrange : stack_end - 4096 <= argv_top strs <= stack_end ∧ argv_top strs + 8 * (Z.of_nat (length strs) + 1) <= stack_end - block_size strs).
  { unfold argv_top. Z.div_mod_to_equations. lia. }
  rewrite (u64_small (argv_top strs)), u64_small by (unfold stack_end, STACK_VIRTUAL, PAGE_SIZE in *; lia).
  destruct (Z.ltb_spec 2048 (stack_end - argv_top strs)) as [Hbig|Hfit].
  { exists t1, img1. rewrite decide_False by (unfold argv_fits; lia). split_and!; try done. unfold argv_fits. lia. }
  destruct (grown_frame _ _ _ _ _ _ _ _ Hg _ _ Hf) as (Hpf & _).
  pose proof (Forall2_length Hpl) as Hla.
  assert (Hlw : Z.of_nat (length (concat (split 8 <$> addrs ++ [0]))) = 8 * (Z.of_nat (length strs) + 1)).
  { rewrite length_words, length_app, Hla. change (length [0]) with 1%nat. lia. }
  rewrite stack_offset by (unfold stack_end, STACK_VIRTUAL, PAGE_SIZE in *; lia).
  pose proof (store_words_spec (f * 4096) (addrs ++ [0]) Hpf (argv_top strs - STACK_VIRTUAL) t1) as Hst.
  rewrite (bind_Done _ _ _ _ _ (Hst ltac:(unfold stack_end, STACK_VIRTUAL, PAGE_SIZE in *; lia)
    ltac:(rewrite length_app, Hla; change (length [0]) with 1%nat; unfold stack_end, STACK_VIRTUAL, PAGE_SIZE in *; lia))).
  eexists _, (img_write (argv_top strs) (concat (split 8 <$> addrs ++ [0])) img1).
  split; [rewrite decide_True by (split; [simpl in *; lia|done]); reflexivity|]. split; [|split].
  - apply stack_write; [done|done|unfold stack_end, STACK_VIRTUAL, PAGE_SIZE in *; lia|lia].
  - intros v Hv. rewrite img_write_out; [by apply Hlow|]. left. unfold stack_end, STACK_VIRTUAL, PAGE_SIZE in *. lia.
  - intros _. exists addrs. split; [|apply img_write_bytes, words_byte].
    eapply (placed_write img1); [exact Hpl|lia|lia].
Qed.

(** * The iret frame *)

(** The words of [l], the first at [kp + i], each 8 bytes below the one before. *)
Definition frame_words (t : vm) (i : Z) (l : list Z) : Prop :=
  ∀ j w, l !! j = Some w → rd64 (mem t) (kp + i - 8 * Z.of_nat j) = u64 w.

Lemma push_all_spec l : ∀ i t T' F img, grows_to t T' F img → i + 8 <= 4096 → 8 * Z.of_nat (length l) <= i + 8 →
  ∃ t', push_all (physical_to_virtual kp + i) l t = Done (physical_to_virtual kp + i - 8 * Z.of_nat (length l)) t' ∧
    grows_to t' T' F img ∧ frame_words t' i l ∧
    ∀ a, kp + i + 8 <= a → rd64 (mem t') a = rd64 (mem t) a.
Proof.
  induction l as [|w l IH]; intros i t T' F img Hg Hi Hl; cbn [push_all length] in *.
  { exists t. split; [by rewrite Z.mul_0_r, Z.sub_0_r|]. split; [done|]. split; [by intros j w Hj|done]. }
  unfold store. rewrite virtual_byte by (done || lia). unfold set_mem, modify. run.
  pose proof (grown_kernel_write s t root kp T T' F img i (split 8 w) Hg Hkp Hkpu Hkpt ltac:(lia)
    ltac:(rewrite length_split; lia)) as Hg1. fold (wr64 (kp + i) w (mem t)) in Hg1.
  destruct (IH (i - 8) _ T' F img Hg1 ltac:(lia) ltac:(lia)) as (t' & Hrun & Hg' & Hw & Hup). cbn [mem] in Hup.
  exists t'. replace (physical_to_virtual kp + i - 8) with (physical_to_virtual kp + (i - 8)) by lia. rewrite Hrun.
  split; [f_equal; lia|]. split; [done|]. split.
  - intros [|j] w' Hj.
    + injection Hj as <-. replace (kp + i - 8 * Z.of_nat 0) with (kp + i) by lia. rewrite Hup by lia. apply rd64_wr64_eq.
    + replace (kp + i - 8 * Z.of_nat (S j)) with (kp + (i - 8) - 8 * Z.of_nat j) by lia. by apply Hw.
  - intros a Ha. rewrite Hup by lia. apply rd64_wr64_ne. lia.
Qed.

(** * The whole image *)

(** A well-formed file: an x86-64 executable whose headers and segments lie
    within its [size] bytes and below the stack page. *)
Record elf_ok : Prop := {
  elf_size : 64 <= size;
  elf_magic : file 0 = 0x7F ∧ file 1 = 0x45 ∧ file 2 = 0x4C ∧ file 3 = 0x46 ∧ file 4 = 2;
  elf_target : field 2 18 = 0x3E ∧ field 2 16 = 2;
  elf_table : field 8 32 + PHDR_SIZE * field 2 60 <= size;
  elf_segments : ∀ j, 0 <= j < field 2 60 → p_type (phdr_at j) = PT_LOAD → segment_ok (phdr_at j) }.

Definition phnum : nat := Z.to_nat (field 2 60).

(** What the new process finds in its user half: the pages of its segments
    and one stack page, with the bytes of the file, and its arguments. *)
Record loaded (t : vm) (T' : gmap (list Z) Z) (F : gmap Z Z) (img : Z → Z) (argv : option (list (list Z))) : Prop := {
  loaded_grown : grows_to t T' F img;
  loaded_pages : ∀ q, is_Some (F !! q) ↔ in_segment phnum 0 q ∨ q = STACK_PAGE;
  loaded_image : ∀ v, v < STACK_VIRTUAL → img v = image_from phnum 0 (λ _, 0) v;
  loaded_argv : ∀ strs, argv = Some strs → argv_fits strs → argv_layout img strs }.

(** argc, argv and the initial stack pointer. *)
Definition start_args (argv : option (list (list Z))) : Z * Z * Z :=
  match argv with
  | Some strs => if decide (argv_fits strs) then (Z.of_nat (length strs), argv_top strs, argv_top strs)
                 else (0, 0, STACK_VIRTUAL + PAGE_SIZE - 8)
  | None => (0, 0, STACK_VIRTUAL + PAGE_SIZE - 8)
  end.

Lemma check_header_ok t T' F img : grows_to t T' F img → elf_ok → check_header data t = Done true t.
Proof.
  intros Hg [Hsz (E0 & E1 & E2 & E3 & E4) [E5 E6] _ _]. unfold check_header, e_ident, e_machine, e_type.
  assert (Hf : ∀ i, 0 <= i < 64 → load8 (data + i) t = Done (file i) t).
  { intros i Hi. apply (load8_file t T' F img); [done|lia]. }
  do 4 (erewrite bind_Done by (apply Hf; lia)). rewrite E0, E1, E2, E3. cbn.
  erewrite bind_Done by (apply Hf; lia). rewrite E4. cbn.
  rewrite (bind_Done _ _ _ _ _ (load_field_file 2 t T' F img 18 Hg ltac:(lia) ltac:(lia))), E5. cbn.
  by rewrite (bind_Done _ _ _ _ _ (load_field_file 2 t T' F img 16 Hg ltac:(lia) ltac:(lia))), E6.
Qed.

Lemma build_image_spec argv : space_wf s root T → elf_ok → (∀ strs, argv = Some strs → argv_bytes strs) →
  let '(argc, argv_addr, sp) := start_args argv in
  (∃ msg, build_image (physical_to_virtual root) (physical_to_virtual kp + 4088) data argv s = Panic msg) ∨
  ∃ t T' F img, build_image (physical_to_virtual root) (physical_to_virtual kp + 4088) data argv s
      = Done (field 8 24, physical_to_virtual kp + 4056, heap_from phnum 0 0, argc, argv_addr) t ∧
    loaded t T' F img argv ∧ frame_words t 4088 [0x23; sp; 0x200; 0x2B; field 8 24].
Proof.
  intros Hwf Hok Hstr. pose proof Hok as [Hsz _ _ Htab Hsegs]. unfold build_image, e_phnum, e_entry.
  pose proof (grown_refl s root kp T (λ _, 0) Hwf) as Hg0. pose proof (field_nonneg 2 60) as Hph.
  pose proof (load_field_file 2 s T ∅ (λ _, 0) 60 Hg0 ltac:(lia) ltac:(lia)) as Hphn.
  destruct (start_args argv) as [[argc av] sp] eqn:Hargs.
  rewrite (bind_Done _ _ _ _ _ Hphn). fold phnum.
  destruct (load_segments_spec phnum 0 s T ∅ (λ _, 0) 0 Hg0) as [[msg H]|(t1 & T1 & F1 & H & Hdom & Hg1)];
    [lia|unfold phnum; by rewrite Z2Nat.id, Z.add_0_l by lia|lia|intros j Hj; apply Hsegs; unfold phnum in Hj; lia
    |left; exists msg; by apply bind_Panic|].
  rewrite (bind_Done _ _ _ _ _ H). clear H.
  destruct (fresh_page_spec s t1 root kp T T1 F1 _ STACK_PAGE (Z.lor (Z.lor PAGE_PRESENT PAGE_WRITABLE) PAGE_USER) Hg1 H0)
    as [[msg H]|(f & t2 & T2 & H & Hg2)]; [unfold STACK_PAGE; lia|done|left; exists msg; by apply bind_Panic|].
  change (STACK_PAGE * 4096) with STACK_VIRTUAL in H. rewrite (bind_Done _ _ _ _ _ H). clear H.
  set (F2 := <[STACK_PAGE := f]> F1) in *. set (img2 := img_zero STACK_PAGE (image_from phnum 0 (λ _, 0))) in *.
  assert (Hf : F2 !! STACK_PAGE = Some f) by apply lookup_insert_eq.
  assert (Hpages : ∀ q, is_Some (F2 !! q) ↔ in_segment phnum 0 q ∨ q = STACK_PAGE).
  { intros q. unfold F2. rewrite lookup_insert. case_decide as Hq.
    - split; [auto|eauto].
    - rewrite Hdom, lookup_empty. split; [intros [[? ?]|]; [done|by left]|intros [|]; [by right|done]]. }
  assert (Hlow2 : ∀ v, v < STACK_VIRTUAL → img2 v = image_from phnum 0 (λ _, 0) v).
  { intros v Hv. unfold img2, img_zero. rewrite (proj2 (Z.eqb_neq _ _)); [done|].
    unfold STACK_PAGE, STACK_VIRTUAL in *. Z.div_mod_to_equations. lia. }
  assert (Hargv : ∃ t3 img3, build_argv_stack (physical_to_virtual root) STACK_VIRTUAL argv t2
      = Done (match argv with Some strs => if decide (argv_fits strs) then Some (Z.of_nat (length strs), argv_top strs) else None
              | None => None end) t3 ∧
    grows_to t3 T2 F2 img3 ∧ (∀ v, v < STACK_VIRTUAL → img3 v = img2 v) ∧
    (∀ strs, argv = Some strs → argv_fits strs → argv_layout img3 strs)).
  { destruct argv as [strs|].
    - destruct (build_argv_stack_spec t2 T2 F2 img2 f strs Hg2 Hf (Hstr _ eq_refl)) as (t3 & img3 & ? & ? & ? & ?).
      exists t3, img3. split_and!; try done. intros strs' [= <-]. done.
    - exists t2, img2. split_and!; done. }
  destruct Hargv as (t3 & img3 & H3 & Hg3 & Hlow3 & Hlay). rewrite (bind_Done _ _ _ _ _ H3). clear H3.
  assert (Hres : (match match argv with Some strs => if decide (argv_fits strs) then Some (Z.of_nat (length strs), argv_top strs) else None
              | None => None end with Some (argc, top) => (argc, top, top) | None => (0, STACK_VIRTUAL + PAGE_SIZE - 8, 0) end) = (argc, sp, av)).
  { unfold start_args in Hargs. destruct argv as [strs|]; [|by simplify_eq]. destruct (decide (argv_fits strs)); by simplify_eq. }
  rewrite Hres. right.
  rewrite (bind_Done _ _ _ _ _ (load_field_file 8 t3 T2 F2 img3 24 Hg3 ltac:(lia) ltac:(lia))).
  destruct (push_all_spec [0x23; sp; 0x200; 0x2B; field 8 24] 4088 t3 T2 F2 img3 Hg3) as (t4 & H4 & Hg4 & Hw & _);
    [lia|simpl; lia|].
  rewrite (bind_Done _ _ _ _ _ H4). exists t4, T2, F2, img3. split; [|split; [|done]].
  - unfold mret, M_ret. cbn [length]. repeat f_equal. destruct Hkp as [Hk Hal].
    assert (kp + 4096 <= 2 ^ 47) by (Z.div_mod_to_equations; lia).
    unfold physical_to_virtual, PHYSICAL_MAP_BASE. rewrite (u64_small (kp + _)) by lia. rewrite u64_small by lia. lia.
  - split; [done|done| |done]. intros v Hv. rewrite Hlow3, Hlow2 by done. done.
Qed.

End Loading.

(** * Properties *)

(** A process [x] at [proc] about to be loaded: a well-formed user space, a
    kernel stack page [kp] and a file of [size] bytes at [data] in pages in
    use that are not among its page tables. *)
Record ready (k : kernel) (proc : Z) (x : process_t) (root kp data size : Z) (T : gmap (list Z) Z) : Prop := {
  ready_proc : procs (k_sched k) !! proc = Some x;
  ready_dir : p_page_dir x = physical_to_virtual root;
  ready_stack : p_stack_top x = physical_to_virtual kp + 4088;
  ready_space : space_wf (k_vm k) root T;
  ready_page0 : used (frames (k_vm k)) 0 = true;
  ready_kp : page_ok kp ∧ used (frames (k_vm k)) (kp / 4096) = true ∧ ∀ r, T !! r ≠ Some kp;
  ready_buf : buffer_ok (k_vm k) T kp data size }.

(** elf_load() of a well-formed file. *)
Lemma elf_load_spec k proc x root kp data size T argv :
  ready k proc x root kp data size T → elf_ok (k_vm k) data size →
  (∀ strs, argv = Some strs → argv_bytes strs) →
  let s := k_vm k in
  let '(argc, argv_addr, sp) := start_args argv in
  let entry := field s data 8 24 in
  (∃ msg, elf_load data proc argv k = Panic msg) ∨
  ∃ t T' F img,
    elf_load data proc argv k = Done entry (Kernel
      (with_procs <[proc := enter_image (physical_to_virtual kp + 4056)
                              (heap_from s data (phnum s data) 0 0) argc argv_addr x]> (k_sched k)) t (k_heap k)) ∧
    loaded s root kp data T t T' F img argv ∧
    frame_words kp t 4088 [0x23; sp; 0x200; 0x2B; entry].
Proof.
  intros [Hx Hdir Hst Hwf H0 (Hkp & Hkpu & Hkpt) Hbuf] Hok Hstr. cbv zeta.
  pose proof (build_image_spec (k_vm k) root kp data size T Hbuf H0 Hkp Hkpu Hkpt argv Hwf Hok Hstr) as Hb.
  destruct (start_args argv) as [[argc av] sp]. unfold elf_load.
  pose proof (check_header_ok (k_vm k) root kp data size T Hbuf (k_vm k) T ∅ (λ _, 0) (grown_refl _ _ _ _ _ Hwf) Hok) as Hc.
  rewrite (bind_Done _ _ _ _ _ (run_vm _ _ _ _ Hc)). cbn [negb]. rewrite kernel_eta.
  rewrite (bind_Done _ _ _ _ _ (run_sched _ _ _ _ (deref_Done _ _ _ Hx))), kernel_eta, Hdir, Hst. destruct Hb as [[msg H]|(t & T' & F & img & H & Hl & Hf)].
  { left. exists msg. apply bind_Panic. unfold in_vm, zoom. cbn [k_vm]. by rewrite H. }
  right. exists t, T', F, img. split; [|done].
  rewrite (bind_Done _ _ _ _ _ (run_vm _ _ _ _ H)).
  by rewrite (bind_Done _ _ _ _ _ (run_sched _ (Kernel _ _ _) _ _ (update_Done _ _ _ _ Hx))).
Qed.

(** C28. Loading a well-formed file gives the process exactly its program:
    every page of a LOAD segment, and the stack page, is mapped on a fresh
    frame of its own; the bytes below the stack are those of the file where a
    segment has file bytes, and zero on the rest of these pages, later
    segments over earlier ones; a set of arguments that fits is laid out on
    the stack with its pointer array; the kernel stack holds the iret frame
    that enters ring 3 at the entry point; the process has its argc, argv and
    heap start. Nothing else changes. Only running out of memory stops it. *)
Theorem elf_load_loads k proc x root kp data size T argv :
  ready k proc x root kp data size T → elf_ok (k_vm k) data size →
  (∀ strs, argv = Some strs → argv_bytes strs) →
  let s := k_vm k in
  let '(argc, argv_addr, sp) := start_args argv in
  let entry := field s data 8 24 in
  (∃ msg, elf_load data proc argv k = Panic msg) ∨
  ∃ t T' F img,
    elf_load data proc argv k = Done entry (Kernel
      (with_procs <[proc := enter_image (physical_to_virtual kp + 4056)
                              (heap_from s data (phnum s data) 0 0) argc argv_addr x]> (k_sched k)) t (k_heap k)) ∧
    loaded s root kp data T t T' F img argv ∧
    frame_words kp t 4088 [0x23; sp; 0x200; 0x2B; entry].
Proof. apply elf_load_spec. Qed.

(** The magic number, class, machine and type the loader asks for. *)
Definition valid_header (s : vm) (data : Z) : Prop :=
  rd_bytes 5 (mem s) (virtual_to_physical data) = [0x7F; 0x45; 0x4C; 0x46; 2] ∧
  combine (rd_bytes 2 (mem s) (virtual_to_physical (data + 18))) = 0x3E ∧
  combine (rd_bytes 2 (mem s) (virtual_to_physical (data + 16))) = 2.

#[export] Instance valid_header_dec s data : Decision (valid_header s data).
Proof. unfold valid_header. apply _. Defined.

Lemma valid_header_bytes s data : PHYSICAL_MAP_BASE <= data < 2 ^ 64 - 64 →
  let byte i := rd8 (mem s) (virtual_to_physical (data + i)) in
  valid_header s data ↔ byte 0 = 0x7F ∧ byte 1 = 0x45 ∧ byte 2 = 0x4C ∧ byte 3 = 0x46 ∧ byte 4 = 2 ∧
    combine (rd_bytes 2 (mem s) (virtual_to_physical (data + 18))) = 0x3E ∧
    combine (rd_bytes 2 (mem s) (virtual_to_physical (data + 16))) = 2.
Proof.
  intros Hd. cbv zeta.
  assert (Hv : ∀ i, 0 <= i < 64 → virtual_to_physical (data + i) = virtual_to_physical data + i).
  { intros i Hi. unfold virtual_to_physical, PHYSICAL_MAP_BASE in *. rewrite !u64_small by lia. lia. }
  assert (Hr : rd_bytes 5 (mem s) (virtual_to_physical data) = (λ i, rd8 (mem s) (virtual_to_physical (data + i))) <$> [0; 1; 2; 3; 4]).
  { cbn. by rewrite !Hv by lia. }
  unfold valid_header. rewrite Hr. cbn [fmap list_fmap]. split.
  - intros (H & ? & ?). by simplify_eq.
  - intros (-> & -> & -> & -> & -> & ? & ?). done.
Qed.

(** [reject x v]: the header is refused unless [x = v]. *)
Ltac reject x v := destruct (Z.eqb_spec x v) as [->|];
  [|cbn [negb orb]; rewrite ?orb_true_r; cbv iota; by rewrite bool_decide_eq_false_2 by tauto].

Lemma check_header_spec s data : PHYSICAL_MAP_BASE <= data < 2 ^ 64 - 64 →
  check_header data s = Done (bool_decide (valid_header s data)) s.
Proof.
  intros Hd. unfold check_header, e_machine, e_type.
  set (byte := λ i, rd8 (mem s) (virtual_to_physical (data + i))).
  set (m := combine (rd_bytes 2 (mem s) (virtual_to_physical (data + 18)))).
  set (y := combine (rd_bytes 2 (mem s) (virtual_to_physical (data + 16)))).
  assert (Hiff : valid_header s data ↔ byte 0 = 0x7F ∧ byte 1 = 0x45 ∧ byte 2 = 0x4C ∧ byte 3 = 0x46 ∧ byte 4 = 2 ∧
    m = 0x3E ∧ y = 2) by (by apply valid_header_bytes).
  assert (Hb : ∀ i, e_ident data i s = Done (byte i) s) by done.
  assert (Hm : load_field 2 (data + 18) s = Done m s) by done.
  assert (Hy : load_field 2 (data + 16) s = Done y s) by done. clearbody byte m y.
  rewrite (bool_decide_ext _ _ Hiff). do 4 (rewrite (bind_Done _ _ _ _ _ (Hb _))).
  reject (byte 0) 0x7F. reject (byte 1) 0x45. reject (byte 2) 0x4C. reject (byte 3) 0x46. cbn [negb orb].
  rewrite (bind_Done _ _ _ _ _ (Hb 4)). reject (byte 4) 2. cbn [negb].
  rewrite (bind_Done _ _ _ _ _ Hm). reject m 0x3E. cbn [negb].
  rewrite (bind_Done _ _ _ _ _ Hy). unfold mret, M_ret. f_equal. destruct (Z.eqb_spec y 2) as [->|]; symmetry.
  - by apply bool_decide_eq_true_2.
  - apply bool_decide_eq_false_2. tauto.
Qed.

(** A file that is not a 64-bit x86-64 executable is refused without
    any effect, by elf_load() and by elf_get_entry() alike. *)
Lemma elf_rejects data proc argv k :
  PHYSICAL_MAP_BASE <= data < 2 ^ 64 - 64 → ¬ valid_header (k_vm k) data →
  elf_load data proc argv k = Done 0 k ∧ elf_get_entry data (k_vm k) = Done 0 (k_vm k).
Proof.
  intros Hd Hv. pose proof (check_header_spec (k_vm k) data Hd) as Hc. rewrite bool_decide_eq_false_2 in Hc by done.
  split.
  - unfold elf_load. rewrite (bind_Done _ _ _ _ _ (run_vm _ _ _ _ Hc)). cbn [negb]. by rewrite kernel_eta.
  - unfold elf_get_entry. by rewrite (bind_Done _ _ _ _ _ Hc).
Qed.

(** ** Witnesses *)

(** A file of 124 bytes: one LOAD segment of 4 file bytes and 8 in memory. *)
Definition demo_file : list Z :=
  [0x7F; 0x45; 0x4C; 0x46; 2; 1; 1; 0; 0; 0; 0; 0; 0; 0; 0; 0] ++ split 2 2 ++ split 2 0x3E ++ split 4 1 ++
  split 8 0x400000 ++ split 8 64 ++ split 8 0 ++ split 8 0 ++ split 2 64 ++ split 2 56 ++ split 2 1 ++ split 2 0 ++
  split 4 1 ++ split 4 5 ++ split 8 120 ++ split 8 0x400000 ++ split 8 0 ++ split 8 4 ++ split 8 8 ++ split 8 4096 ++
  [0xB8; 1; 0xCD; 0x80].

(** The file at 0x1000, the kernel stack at 0x2000, the PML4 at 0x3000. *)
Definition demo_load : kernel :=
  Kernel (with_procs <[100 := set_stack_top (physical_to_virtual 0x2000 + 4088) (set_page_dir (physical_to_virtual 0x3000)
            (demo_proc 1 200 PROCESS_RUNNING))]> demo_sched)
    (Vm (wr_bytes 0x1000 demo_file ∅) (Pmm {[0 := 0x0F]} 64 4) (physical_to_virtual 0x1000) 0x1000) (Heap ∅ 0 0).

Lemma demo_space : space_wf (k_vm demo_load) 0x3000 {[ [] := 0x3000 ]}.
Proof.
  apply space_wf_empty.
  - unfold frames_ok. simpl. lia.
  - unfold page_ok. split; by_compute.
  - done.
  - intros i Hi. rewrite (rd64_ext _ ∅), rd64_empty; [done|]. intros j Hj. cbn [k_vm demo_load mem].
    rewrite rd8_wr_out; [done|]. right. change (Z.of_nat (length demo_file)) with 124. lia.
Qed.

Lemma demo_ready : ready demo_load 100 (set_stack_top (physical_to_virtual 0x2000 + 4088)
  (set_page_dir (physical_to_virtual 0x3000) (demo_proc 1 200 PROCESS_RUNNING)))
  0x3000 0x2000 (physical_to_virtual 0x1000) 124 {[ [] := 0x3000 ]}.
Proof.
  split.
  - vm_compute. reflexivity.
  - reflexivity.
  - reflexivity.
  - exact demo_space.
  - reflexivity.
  - split; [unfold page_ok; split; by_compute|]. split; [reflexivity|]. intros r [_ H]%lookup_singleton_Some. discriminate H.
  - split; [split; by_compute|]. intros i Hi. cbv zeta.
    replace ((physical_to_virtual 0x1000 - PHYSICAL_MAP_BASE + i) / 4096 * 4096) with 0x1000.
    2:{ change (physical_to_virtual 0x1000 - PHYSICAL_MAP_BASE) with 4096. Z.div_mod_to_equations. lia. }
    split; [unfold page_ok; split; by_compute|]. split; [reflexivity|]. split; [|lia].
    intros r [_ H]%lookup_singleton_Some. discriminate H.
Qed.

Lemma demo_elf_ok : elf_ok (k_vm demo_load) (physical_to_virtual 0x1000) 124.
Proof.
  split.
  - lia.
  - vm_compute. auto.
  - vm_compute. auto.
  - vm_compute. discriminate.
  - intros j Hj _. assert (j = 0) as ->.
    { change (field (k_vm demo_load) (physical_to_virtual 0x1000) 2 60) with 1 in Hj. lia. }
    split; vm_compute; intuition discriminate.
Qed.

Lemma demo_load_runs :
  (match elf_load (physical_to_virtual 0x1000) 100 (Some [cs "hi"]) demo_load with Done _ _ => true | _ => false end) = true.
Proof. vm_compute. reflexivity. Qed.

Lemma elf_load_loads_witness :
  ∃ t T' F img, loaded (k_vm demo_load) 0x3000 0x2000 (physical_to_virtual 0x1000) {[ [] := 0x3000 ]} t T' F img (Some [cs "hi"]) ∧
    ∃ s h, elf_load (physical_to_virtual 0x1000) 100 (Some [cs "hi"]) demo_load = Done 0x400000 (Kernel s t h).
Proof.
  pose proof demo_load_runs as Hr.
  pose proof (elf_load_loads demo_load 100 _ 0x3000 0x2000 (physical_to_virtual 0x1000) 124 _ (Some [cs "hi"]) demo_ready demo_elf_ok) as H.
  destruct H as [[msg H]|(t & T' & F & img & H & Hl & _)].
  - intros strs [= <-]. constructor; [|constructor]. split; [by apply (bool_decide_unpack _)|by_compute].
  - rewrite H in Hr. discriminate Hr.
  - exists t, T', F, img. split; [exact Hl|]. eexists _, _. exact H.
Defined.

Lemma elf_rejects_witness : elf_load (physical_to_virtual 0x5000) 100 None demo_load = Done 0 demo_load.
Proof.
  apply (elf_rejects (physical_to_virtual 0x5000) 100 None demo_load).
  - by_compute.
  - intros [H _]. vm_compute in H. discriminate H.
Defined.
