(* ===== verification/Spawn.v ===== *)
(** Starting programs: process_create(), process_spawn() and process_exec()
    of kernel/processes/process.c, with the loader of Elf.

    A program comes from a file; what these functions rely on of the file
    system is the interface [FileServer]. Memory in use is left alone but for
    the kernel heap, where the file is read to: the relation [kept]. *)

From S2P Require Import Prelude CString Pmm Heap Phys Paging Space Sched Process Fork Elf.

(** * Memory that is kept *)

(** The pages of the kernel heap. *)
Definition heap_page (c : Z) : Prop :=
  HEAP_START - PHYSICAL_MAP_BASE <= c < HEAP_START - PHYSICAL_MAP_BASE + Heap.HEAP_SIZE.

#[export] Instance heap_page_dec c : Decision (heap_page c).
Proof. unfold heap_page. apply _. Defined.

(** What was in use in [v] still is in [v'], and holds what it held. *)
Record kept (v v' : vm) : Prop := {
  kept_total : total_pages (frames v') = total_pages (frames v);
  kept_used : ∀ j, used (frames v) j = true → used (frames v') j = true;
  kept_mem : ∀ c i, page_ok c → used (frames v) (c / 4096) = true → ¬ heap_page c → 0 <= i < 4096 →
    rd8 (mem v') (c + i) = rd8 (mem v) (c + i) }.

#[export] Instance kept_preorder : PreOrder kept.
Proof.
  split.
  - by intros v.
  - intros v1 v2 v3 [A1 A2 A3] [B1 B2 B3]. split; [congruence|auto|].
    intros c i Hc Hu Hh Hi. rewrite B3 by auto. auto.
Qed.

Lemma kept_taken v v' a : page_taken v v' a → kept v v'.
Proof.
  intros Ht. split; [apply (pt_total _ _ _ Ht)| |].
  - intros j Hj. by rewrite (pt_used _ _ _ Ht), Hj, orb_true_r.
  - intros c i Hc Hu _ Hi. by eapply page_taken_mem.
Qed.

Lemma kept_rd64 v v' c i : kept v v' → page_ok c → used (frames v) (c / 4096) = true → ¬ heap_page c → 0 <= i < 512 →
  rd64 (mem v') (c + 8 * i) = rd64 (mem v) (c + 8 * i).
Proof. intros Hk Hc Hu Hh Hi. apply page_bytes_rd64; [|done]. intros j Hj. by apply (kept_mem _ _ Hk). Qed.

(** No table of the space lies in the heap. *)
Definition off_heap (T : gmap (list Z) Z) : Prop := ∀ q c, T !! q = Some c → ¬ heap_page c.

(** An address space does not notice. *)
Lemma kept_space v v' root T : kept v v' → space_wf v root T → off_heap T →
  space_wf v' root T ∧ (∀ a, translation v' T a = translation v T a) ∧
  (∀ q i, 0 <= i < 512 → leaf v' T q i = leaf v T q i) ∧
  (no_huge v T → no_huge v' T) ∧ (pages_in_use v T → pages_in_use v' T).
Proof.
  intros Hk Hwf Hoff.
  assert (Hw : ∀ q c j, T !! q = Some c → 0 <= j < 512 → rd64 (mem v') (c + 8 * j) = rd64 (mem v) (c + 8 * j)).
  { intros q c j Hq Hj. destruct (wf_table _ _ _ Hwf _ _ Hq) as (Hc & Hu & _). apply kept_rd64; eauto. }
  assert (Hl : ∀ q i, 0 <= i < 512 → leaf v' T q i = leaf v T q i).
  { intros q i Hi. unfold leaf. destruct (T !! q) eqn:Hq; [|done]. by eapply Hw. }
  destruct (space_frame v v' root T Hwf (kept_total _ _ Hk) (kept_used _ _ Hk) Hw) as [Hwf' Htr].
  split; [done|]. split; [done|]. split; [done|]. split.
  - intros Hh q t i Hq Hlq Hi. rewrite (Hw q) by done. by apply (Hh q).
  - intros Hp q i Hu Hlq. rewrite Hl by (by apply (user_path_snoc q)). intros Hpr. destruct (Hp q i Hu Hlq Hpr) as [H1 H2].
    split; [done|]. by apply (kept_used _ _ Hk).
Qed.

(** * A kernel stack and an empty address space *)

(** The pages [stk] and [b] are new; [b] is an empty space with the kernel's
    half. *)
Record fresh_memory (v v' : vm) (kroot stk b : Z) : Prop := {
  fm_stack : page_ok stk ∧ used (frames v) (stk / 4096) = false ∧ used (frames v') (stk / 4096) = true;
  fm_dir : page_ok b ∧ used (frames v) (b / 4096) = false ∧ b ≠ stk;
  fm_space : space_wf v' b {[ [] := b ]} ∧ ∀ a, translation v' {[ [] := b ]} a = 0;
  fm_used : ∀ j, used (frames v') j = bool_decide (j = stk / 4096) || bool_decide (j = b / 4096) || used (frames v) j;
  fm_regs : kernel_pml4 v' = kernel_pml4 v ∧ cr3 v' = cr3 v;
  fm_kept : kept v v';
  fm_mem : ∀ c i, page_ok c → c ≠ stk → c ≠ b → 0 <= i < 4096 → rd8 (mem v') (c + i) = rd8 (mem v) (c + i);
  fm_kernel : ∀ i, 256 <= i < 512 → rd64 (mem v') (b + 8 * i) = rd64 (mem v) (kroot + 8 * i) }.

(** The kernel has its own tables, page 0 is never given out, and the pages of
    its heap are in use. *)
Record kernel_memory (v : vm) (kroot : Z) : Prop := {
  km_frames : frames_ok v;
  km_page0 : used (frames v) 0 = true;
  km_root : kernel_pml4 v = physical_to_virtual kroot ∧ page_ok kroot ∧ used (frames v) (kroot / 4096) = true;
  km_heap : ∀ c, heap_page c → used (frames v) (c / 4096) = true }.

Lemma stack_taken v : frames_ok v → used (frames v) 0 = true →
  panics_or (in_pmm pmm_alloc) v (λ a v', page_taken v v' a ∧ mem v' = mem v).
Proof.
  intros Hfo H0. unfold in_pmm. destruct (pmm_alloc_total (frames v)) as [(a & fr & Ha)|[Ha _]].
  2:{ left. eexists. unfold zoom. by rewrite Ha. }
  unfold frames_ok in Hfo. assert (Hok : pmm_ok (frames v)) by (unfold pmm_ok; lia).
  eapply panics_or_done; [by apply zoom_Done|].
  destruct (pmm_alloc_Done _ _ _ Hok Ha) as (k & -> & Hk & Hku & _ & ->). unfold PAGE_SIZE. clear Ha.
  assert (Hk0 : k ≠ 0) by (intros ->; congruence).
  assert (Hdiv : k * 4096 / 4096 = k) by (apply Z.div_mul; lia).
  split; [|done]. split; try done.
  - split; [lia|apply Z.mod_mul; lia].
  - by rewrite Hdiv.
  - intros j. cbn [frames]. by rewrite Hdiv, used_add_used, used_set.
Qed.

(** A word written at the top of the new stack. *)
Lemma page_taken_store v v' a i w : page_taken v v' a → 0 <= i < 512 →
  page_taken v (Vm (wr64 (a + 8 * i) w (mem v')) (frames v') (kernel_pml4 v') (cr3 v')) a.
Proof.
  intros [H1 H2 H3 H4 H5 H6] Hi. split; try done. cbn [mem].
  intros c Hc. rewrite (wr64_same_but a i w) by done. by apply H6.
Qed.

Lemma fresh_memory_spec v v1 stk kroot : kernel_memory v kroot → page_taken v v1 stk →
  panics_or paging_clone_directory v1 (λ dir v', ∃ b, dir = physical_to_virtual b ∧ fresh_memory v v' kroot stk b ∧
    ∀ i, 0 <= i < 512 → rd64 (mem v') (stk + 8 * i) = rd64 (mem v1) (stk + 8 * i)).
Proof.
  intros [Hfo H0 (Hkp & Hpk & Huk) _] Ht. pose proof (pt_regs _ _ _ Ht) as [Hkp1 Hcr1].
  assert (Hmono : ∀ j, used (frames v) j = true → used (frames v1) j = true) by apply (kept_used _ _ (kept_taken _ _ _ Ht)).
  destruct (clone_directory_spec v1 kroot) as [H|(b & v2 & H & (Hpb & Hfb & Hwf) & Hus & Htot & [Hkp2 Hcr2] & Hsame & Htr & Hhi)].
  { unfold frames_ok. by rewrite (pt_total _ _ _ Ht). }
  { done. }
  { auto. }
  { congruence. }
  { by left. }
  eapply panics_or_done; [exact H|]. exists b. split; [done|]. pose proof (pt_page _ _ _ Ht) as Hps.
  assert (Hus1 : used (frames v1) (stk / 4096) = true) by (by rewrite (pt_used _ _ _ Ht), bool_decide_eq_true_2).
  assert (Hne : b ≠ stk) by (intros ->; congruence).
  assert (Hfree : used (frames v) (b / 4096) = false).
  { destruct (used (frames v) (b / 4096)) eqn:E; [|done]. specialize (Hmono _ E). congruence. }
  assert (Htb : page_taken v1 v2 b) by done.
  split.
  2:{ intros i Hi. by eapply same_but_rd64. }
  split.
  - split_and!; [done|apply (pt_free _ _ _ Ht)|]. by rewrite Hus, Hus1, orb_true_r.
  - done.
  - done.
  - intros j. rewrite Hus, (pt_used _ _ _ Ht). by destruct (bool_decide (j = b / 4096)), (bool_decide (j = stk / 4096)).
  - split; congruence.
  - by etrans; eapply kept_taken.
  - intros c i Hc H1 H2 Hi. rewrite Hsame by (destruct (page_disjoint c b Hc Hpb H2); lia).
    apply (pt_mem _ _ _ Ht). destruct (page_disjoint c stk Hc Hps H1); lia.
  - intros i Hi. rewrite Hhi by done. apply page_bytes_rd64; [|lia]. intros j Hj. by eapply page_taken_mem.
Qed.

(** * process_create() *)

(** Whom the new process has as parent. *)
Definition running_pid (s : sched) : Z :=
  if current_process s =? 0 then 0 else default 0 (p_pid <$> procs s !! current_process s).

(** A new process on the stack page [stk] with the address space [b]. *)
Definition new_process (user : bool) (name : list Z) (entry pid parent stk b : Z) : process_t :=
  Proc pid (take 31 name) PROCESS_READY
    (if user then user_cpu else kernel_cpu entry (physical_to_virtual stk + 4088))
    (physical_to_virtual stk) (physical_to_virtual stk + 4088) (physical_to_virtual b)
    10 10 0 0 0 parent 0 false 0 0 0.

(** The table has only processes, each a block of the heap of its own. *)
Record can_create (k : kernel) (kroot : Z) : Prop := {
  cc_heap : processes_owned k;
  cc_memory : kernel_memory (k_vm k) kroot;
  cc_table : ∀ p, p ∈ process_table (k_sched k) → p ≠ 0 → is_Some (procs (k_sched k) !! p);
  cc_current : current_process (k_sched k) = 0 ∨ is_Some (procs (k_sched k) !! current_process (k_sched k)) }.

(** [k'] is [k] with the process [x] at [proc] in the slot [slot], on the new
    pages [stk] and [b]. *)
Record created (k k' : kernel) (kroot proc : Z) (x : process_t) (slot : nat) (stk b : Z) : Prop := {
  cr_proc : proc ≠ 0 ∧ procs (k_sched k) !! proc = None;
  cr_slot : find_slot 0 (process_table (k_sched k)) = Some slot;
  cr_sched : k_sched k' = with_table <[slot := proc]> (with_procs <[proc := x]>
    (with_next_pid (u64 (next_pid (k_sched k) + 1)) (k_sched k)));
  cr_memory : fresh_memory (k_vm k) (k_vm k') kroot stk b;
  cr_heap : ∀ l, heap_inv (k_heap k) l → heap_inv (k_heap k') ((proc, PROCESS_T_SIZE) :: l) }.

Lemma kmalloc_kept h l n : heap_inv h l → 0 < n <= 2 ^ 64 - 4 →
  panics_or (kmalloc n) h (λ p h', ∀ l, heap_inv h l → heap_inv h' ((p, n) :: l)).
Proof.
  intros HI Hn. destruct (heap_inv_kmalloc h l n HI Hn) as [H|(p & h' & H & _)]; [by left; eexists|].
  eapply panics_or_done; [exact H|]. intros l' HI'.
  destruct (heap_inv_kmalloc h l' n HI' Hn) as [H2|(p2 & h2 & H2 & HI2)]; congruence.
Qed.

Lemma kfree_kept h l1 p n l2 : heap_inv h (l1 ++ (p, n) :: l2) →
  ∃ h', kfree p h = Done tt h' ∧ ∀ l1 n l2, heap_inv h (l1 ++ (p, n) :: l2) → heap_inv h' (l1 ++ l2).
Proof.
  intros HI. destruct (heap_inv_kfree _ _ _ _ _ HI) as (h' & H & _). exists h'. split; [done|].
  intros l1' n' l2' HI'. destruct (heap_inv_kfree _ _ _ _ _ HI') as (h2 & H2 & HI2). congruence.
Qed.

Lemma kmalloc_process_kept k : processes_owned k →
  panics_or (kmalloc PROCESS_T_SIZE) (k_heap k) (λ p h, p ≠ 0 ∧ procs (k_sched k) !! p = None ∧
    ∀ l, heap_inv (k_heap k) l → heap_inv h ((p, PROCESS_T_SIZE) :: l)).
Proof.
  intros Hown. pose proof Hown as (l & HI & _).
  destruct (kmalloc_kept _ _ PROCESS_T_SIZE HI) as [H|(p & h & H & Hl)]; [unfold PROCESS_T_SIZE; lia|by left|].
  eapply panics_or_done; [exact H|].
  destruct (kmalloc_process k Hown) as [H2|(p2 & h2 & H2 & Hp & Hn & _)]; [congruence|].
  rewrite H in H2. injection H2 as <- <-. auto.
Qed.

Lemma current_pid_spec k : current_process (k_sched k) = 0 ∨ is_Some (procs (k_sched k) !! current_process (k_sched k)) →
  current_pid k = Done (running_pid (k_sched k)) k.
Proof.
  intros Hc. unfold current_pid, running_pid. etrans; [apply run_sched; instantiate (1 := k_sched k)|by rewrite kernel_eta].
  erewrite bind_Done by reflexivity. destruct (Z.eqb_spec (current_process (k_sched k)) 0) as [E|E].
  - reflexivity.
  - destruct Hc as [|[x Hx]]; [done|]. rewrite (bind_Done _ _ _ _ _ (deref_Done _ _ _ Hx)), Hx. reflexivity.
Qed.

(** The top of a page, where the code computes it. *)
Lemma page_top a : page_ok a → u64 (physical_to_virtual a + 4096 - 8) = physical_to_virtual a + 4088.
Proof.
  intros [Hlo Hal]. assert (a + 4096 <= 2 ^ 47) by (Z.div_mod_to_equations; lia).
  unfold physical_to_virtual, PHYSICAL_MAP_BASE. rewrite (u64_small (a + _)), u64_small by lia. lia.
Qed.

Lemma process_create_spec k kroot name entry flags : can_create k kroot → entry ≠ 0 →
  let user := flag flags PROCESS_USER in
  panics_or (process_create (Some name) entry flags) k (λ proc k', ∃ slot stk b,
    created k k' kroot proc (new_process user name entry (next_pid (k_sched k)) (running_pid (k_sched k)) stk b) slot stk b ∧
    (user = false → rd64 (mem (k_vm k')) (stk + 4088) = u64 entry)).
Proof.
  intros [Hown Hmem _ Hcur] He. cbv zeta. unfold process_create. rewrite (proj2 (Z.eqb_neq entry 0)) by done.
  eapply panics_or_step; [by apply (run_sched (gets process_table))|]. rewrite kernel_eta.
  destruct (find_slot 0 (process_table (k_sched k))) as [slot|] eqn:Hslot; [|by left; eexists].
  eapply panics_or_bind; [by apply panics_or_zoom, kmalloc_process_kept|].
  intros proc k1 (h & -> & Hp0 & Hnone & Hheap).
  eapply panics_or_step; [by apply current_pid_spec|]. eapply panics_or_step; [reflexivity|]. cbn [k_sched k_vm k_heap].
  eapply panics_or_bind; [apply panics_or_zoom, stack_taken; apply Hmem|].
  intros stk k2 (v1 & -> & Ht & Hmv1). cbv beta zeta. cbn [k_sched k_vm k_heap].
  pose proof (pt_page _ _ _ Ht) as Hps. unfold PROCESS_STACK_SIZE. rewrite page_top by done.
  set (s1 := with_next_pid _ _).
  assert (∃ v2, (if flag flags PROCESS_USER then mret tt else in_vm (store (physical_to_virtual stk + 4088) entry))
      (Kernel s1 v1 h) = Done tt (Kernel s1 v2 h) ∧ page_taken (k_vm k) v2 stk ∧
      (flag flags PROCESS_USER = false → rd64 (mem v2) (stk + 4088) = u64 entry)) as (v2 & Hst & Ht2 & Hw).
  { destruct (flag flags PROCESS_USER); [by exists v1|]. eexists. split; [|split].
    - apply (run_vm _ (Kernel s1 v1 h)). apply (store_entry stk 511 entry); [done|lia].
    - apply (page_taken_store _ _ stk 511); [done|lia].
    - intros _. cbn [mem]. change (8 * 511) with 4088. apply rd64_wr64_eq. }
  eapply panics_or_step; [exact Hst|].
  eapply panics_or_bind; [apply panics_or_zoom; by eapply fresh_memory_spec|].
  intros dir k3 (v3 & -> & b & -> & Hf & Hsw). cbn [k_sched k_vm k_heap].
  eapply panics_or_step; [reflexivity|]. eapply panics_or_step; [reflexivity|]. eapply panics_or_done; [reflexivity|].
  exists slot, stk, b. split; [by split|]. intros Hu. rewrite <- Hw by done.
  change 4088 with (8 * 511). apply Hsw. lia.
Qed.

(** * Files by content *)

(** What the loader reads depends on the bytes of the file only. *)
Section SameFile.
Context (s s' : vm) (data data' size : Z).
Context (Hfile : ∀ i, 0 <= i < size → file s data i = file s' data' i).

Lemma field_same n i : 0 <= i → i + Z.of_nat n <= size → field s data n i = field s' data' n i.
Proof.
  intros Hi Hn. unfold field. f_equal. apply list_fmap_ext. intros j k Hk%list_elem_of_lookup_2.
  apply elem_of_seqZ in Hk. apply Hfile. lia.
Qed.

Lemma phdr_same j : 40 <= size → 0 <= j → field s data 8 32 + PHDR_SIZE * (j + 1) <= size → phdr_at s data j = phdr_at s' data' j.
Proof.
  intros H40 Hj Hs. unfold phdr_at, PHDR_SIZE in *. rewrite <- (field_same 8 32) by lia. cbv zeta.
  pose proof (field_nonneg s data 8 32). set (o := field s data 8 32 + 56 * j).
  assert (Ho : 0 <= o ∧ o + 56 <= size) by lia. clearbody o. by rewrite !field_same by lia.
Qed.

Context (Hok : elf_ok s data size).

Lemma phnum_same : phnum s data = phnum s' data'.
Proof. unfold phnum. destruct Hok as [Hs _ _ _ _]. by rewrite field_same by lia. Qed.

Lemma header_same j : 0 <= j < field s data 2 60 → phdr_at s data j = phdr_at s' data' j.
Proof. intros Hj. destruct Hok as [Hs _ _ Ht _]. apply phdr_same; [lia|lia|]. unfold PHDR_SIZE in *. lia. Qed.

Lemma elf_ok_same : elf_ok s' data' size.
Proof.
  pose proof Hok as [Hs (E0 & E1 & E2 & E3 & E4) [E5 E6] Ht Hseg]. split; [done| | | |].
  - rewrite <- !Hfile by lia. auto.
  - rewrite <- !(field_same 2) by lia. auto.
  - by rewrite <- !field_same by lia.
  - intros j. rewrite <- (field_same 2) by lia. intros Hj. rewrite <- header_same by done. by apply Hseg.
Qed.

Lemma image_same n : ∀ i img img' v, (∀ a, img a = img' a) → 0 <= i → i + Z.of_nat n <= field s data 2 60 →
  image_from s data n i img v = image_from s' data' n i img' v.
Proof.
  induction n as [|n IH]; intros i img img' v Himg Hi Hn; [apply Himg|]. cbn [image_from]. rewrite <- header_same by lia.
  apply IH; [|lia|lia]. intros a. destruct (Z.eqb_spec (p_type (phdr_at s data i)) PT_LOAD) as [Hl|_]; [|done].
  destruct Hok as [_ _ _ _ Hseg]. destruct (Hseg i ltac:(lia) Hl) as [[Ho _] Hf _ _].
  unfold segment_image. case_decide; [|by rewrite Himg]. apply Hfile. lia.
Qed.

Lemma heap_same n : ∀ i h, 0 <= i → i + Z.of_nat n <= field s data 2 60 → heap_from s data n i h = heap_from s' data' n i h.
Proof.
  induction n as [|n IH]; intros i h Hi Hn; [done|]. cbn [heap_from]. rewrite <- header_same by lia. apply IH; lia.
Qed.

Lemma segment_same q : in_segment s data (phnum s data) 0 q ↔ in_segment s' data' (phnum s' data') 0 q.
Proof.
  rewrite <- phnum_same. pose proof (field_nonneg s data 2 60).
  unfold in_segment, phnum. split; intros (j & Hj & Hr); exists j; (split; [done|]).
  - by rewrite <- header_same by lia.
  - by rewrite header_same by lia.
Qed.

End SameFile.

(** ** The program in a file *)

(** The bytes at the bottom of the direct map. *)
Definition contents (bytes : list Z) : vm :=
  Vm (wr_bytes 0 bytes ∅) (Pmm ∅ 0 0) 0 0.

Definition program (bytes : list Z) : Prop := elf_ok (contents bytes) PHYSICAL_MAP_BASE (Z.of_nat (length bytes)).
Definition program_entry (bytes : list Z) : Z := field (contents bytes) PHYSICAL_MAP_BASE 8 24.

(** The image of the segments, the pages it takes, and where the heap starts. *)
Definition program_image (bytes : list Z) : Z → Z :=
  image_from (contents bytes) PHYSICAL_MAP_BASE (phnum (contents bytes) PHYSICAL_MAP_BASE) 0 (λ _, 0).
Definition program_page (bytes : list Z) (q : Z) : Prop :=
  in_segment (contents bytes) PHYSICAL_MAP_BASE (phnum (contents bytes) PHYSICAL_MAP_BASE) 0 q ∨ q = STACK_PAGE.
Definition program_heap (bytes : list Z) : Z :=
  heap_from (contents bytes) PHYSICAL_MAP_BASE (phnum (contents bytes) PHYSICAL_MAP_BASE) 0 0.

(** The header the loader asks for. *)
Definition program_header (bytes : list Z) : Prop := valid_header (contents bytes) PHYSICAL_MAP_BASE.

(** [v] holds the bytes at [data]. *)
Definition holds (v : vm) (data : Z) (bytes : list Z) : Prop :=
  ∀ i, 0 <= i < Z.of_nat (length bytes) → file v data i = u8 (bytes !!! Z.to_nat i).

Lemma contents_holds bytes : holds (contents bytes) PHYSICAL_MAP_BASE bytes.
Proof.
  intros i Hi. unfold file, contents. cbn [mem]. rewrite rd8_wr_bytes, decide_True by lia.
  do 2 f_equal. lia.
Qed.

Lemma holds_same v data bytes : holds v data bytes →
  ∀ i, 0 <= i < Z.of_nat (length bytes) → file (contents bytes) PHYSICAL_MAP_BASE i = file v data i.
Proof. intros H i Hi. rewrite H by done. by apply contents_holds. Qed.

(** * The file system, as the loader relies on it *)

(** Between [h] and [h'] the blocks [bl] were taken, or given back, and no
    other block changed. *)
Definition takes (bl : list (Z * Z)) (h h' : heap) : Prop := ∀ l, heap_inv h l → heap_inv h' (bl ++ l).
Definition gives (bl : list (Z * Z)) (h h' : heap) : Prop := ∀ l, heap_inv h (bl ++ l) → heap_inv h' l.

(** Only the [n] bytes at [buf] were written. *)
Record wrote (buf n : Z) (v v' : vm) : Prop := {
  wr_frames : frames v' = frames v;
  wr_regs : kernel_pml4 v' = kernel_pml4 v ∧ cr3 v' = cr3 v;
  wr_mem : ∀ a, ¬ (buf - PHYSICAL_MAP_BASE <= a < buf - PHYSICAL_MAP_BASE + n) → rd8 (mem v') a = rd8 (mem v) a }.

(** [file_at path o s]: [path] leads to a file with the content [o], [None]
    for no file. [opened fd bytes bl s]: the descriptor [fd] is at the start of
    a file with these bytes, and its structures are the blocks [bl];
    [is_open fd bl s]: it is anywhere in a file. All are about the file system,
    and the kernel may allocate, as long as it keeps what is in use. Only
    running out of memory can panic. *)
Class FileServer (W : Type) `{!Vfs W} := {
  file_at : Z → option (list Z) → kernel * W → Prop;
  opened : Z → list Z → list (Z * Z) → kernel * W → Prop;
  is_open : Z → list (Z * Z) → kernel * W → Prop;
  file_at_kept path o k k' w bl : file_at path o (k, w) → kept (k_vm k) (k_vm k') →
    takes bl (k_heap k) (k_heap k') → file_at path o (k', w);
  opened_is_open fd bytes bl s : opened fd bytes bl s → is_open fd bl s;
  opened_kept fd bytes b k k' w bl : opened fd bytes b (k, w) → kept (k_vm k) (k_vm k') →
    takes bl (k_heap k) (k_heap k') → opened fd bytes b (k', w);
  open_missing path k w : file_at path None (k, w) →
    panics_or (vfs_open path 0) (k, w) (λ fd s', fd < 0 ∧
      ∃ h w', s' = (Kernel (k_sched k) (k_vm k) h, w') ∧ takes [] (k_heap k) h);
  open_file path bytes k w : file_at path (Some bytes) (k, w) →
    panics_or (vfs_open path 0) (k, w) (λ fd s', 0 <= fd ∧
      ∃ h w' bl, s' = (Kernel (k_sched k) (k_vm k) h, w') ∧ takes bl (k_heap k) h ∧ opened fd bytes bl s');
  size_file fd bytes bl k w : opened fd bytes bl (k, w) →
    vfs_size fd (k, w) = Done (Some (Z.of_nat (length bytes))) (k, w);
  read_file fd bytes bl k w buf l : opened fd bytes bl (k, w) →
    heap_inv (k_heap k) ((buf, Z.of_nat (length bytes)) :: bl ++ l) → Z.of_nat (length bytes) < 2 ^ 31 →
    ∃ v w', vfs_read fd buf (Z.of_nat (length bytes)) (k, w)
        = Done (Z.of_nat (length bytes)) (Kernel (k_sched k) v (k_heap k), w') ∧
      wrote buf (Z.of_nat (length bytes)) (k_vm k) v ∧ holds v buf bytes ∧
      is_open fd bl (Kernel (k_sched k) v (k_heap k), w');
  close_file fd bl k w l : is_open fd bl (k, w) → heap_inv (k_heap k) (bl ++ l) →
    ∃ r h w', vfs_close fd (k, w) = Done r (Kernel (k_sched k) (k_vm k) h, w') ∧ gives bl (k_heap k) h;
}.

(** * Loading from a file *)

(** A block of the heap lies in the heap's pages. *)
Lemma block_in_heap h l buf n i : heap_inv h l → (buf, n) ∈ l → 0 <= i < n → heap_page (buf - PHYSICAL_MAP_BASE + i).
Proof.
  intros HI Hin Hi. destruct (heap_inv_region _ _ _ _ HI Hin) as (H1 & H2 & _).
  unfold heap_page, HEADER_SIZE in *. lia.
Qed.

(** Reading into a block keeps the rest. *)
Lemma kept_wrote h l buf n v v' : heap_inv h l → (buf, n) ∈ l → wrote buf n v v' → kept v v'.
Proof.
  intros HI Hin [Hf _ Hm]. split; [by rewrite Hf|by rewrite Hf|]. intros c i [_ Hal] _ Hnh Hi. apply Hm. intros Hc.
  assert (Hb : heap_page (c + i)).
  { replace (c + i) with (buf - PHYSICAL_MAP_BASE + (c + i - (buf - PHYSICAL_MAP_BASE))) by lia.
    eapply block_in_heap; [exact HI|exact Hin|lia]. }
  apply Hnh. unfold heap_page, HEAP_START, PHYSICAL_MAP_BASE, Heap.HEAP_SIZE in *. Z.div_mod_to_equations. lia.
Qed.

Section FromFile.
Context {W : Type} `{!Vfs W} `{!FileServer W} (argv_strings : Z → vm → option (list (list Z))).

Abbreviation load_from := (elf_load_from_file argv_strings).

(** The file is in the block [buf] of the kernel's heap. *)
Record file_read (k k1 : kernel) (buf : Z) (bytes : list Z) : Prop := {
  fr_sched : k_sched k1 = k_sched k;
  fr_holds : holds (k_vm k1) buf bytes;
  fr_wrote : wrote buf (Z.of_nat (length bytes)) (k_vm k) (k_vm k1);
  fr_kept : kept (k_vm k) (k_vm k1);
  fr_block : ∀ i, 0 <= i < Z.of_nat (length bytes) → heap_page (buf - PHYSICAL_MAP_BASE + i) }.

(** The buffer is allocated, read into and freed around elf_load(). *)
Lemma load_from_spec path proc argv bytes k w l Q :
  file_at path (Some bytes) (k, w) → heap_inv (k_heap k) l → 0 < Z.of_nat (length bytes) < 2 ^ 31 →
  (∀ k1 buf, file_read k k1 buf bytes →
     panics_or (elf_load buf proc (argv_strings argv (k_vm k1))) k1 (λ e k2, k_heap k2 = k_heap k1 ∧ Q e k2)) →
  panics_or (load_from path proc argv) (k, w) (λ e s', ∃ k2 h w', s' = (Kernel (k_sched k2) (k_vm k2) h, w') ∧
    takes [] (k_heap k) h ∧ Q e k2).
Proof.
  intros Hf HI Hlen HQ. unfold elf_load_from_file.
  eapply panics_or_bind; [by apply (open_file path bytes)|].
  intros fd s1 (Hfd & h1 & w1 & bl & -> & Hbl & Ho). cbv beta. rewrite (proj2 (Z.ltb_ge fd 0)) by done.
  eapply panics_or_step; [by eapply size_file|]. cbv beta iota zeta. unfold u32. rewrite Z.mod_small by lia.
  rewrite (proj2 (Z.eqb_neq (Z.of_nat _) 0)) by lia.
  eapply panics_or_bind; [apply panics_or_zoom, panics_or_zoom, (kmalloc_kept _ _ _ (Hbl _ HI)); lia|].
  intros buf s2 (t2 & -> & h2 & -> & Hh2). cbn [k_sched k_vm k_heap fst snd].
  assert (HI2 : heap_inv h2 ((buf, Z.of_nat (length bytes)) :: bl ++ l)) by (by apply Hh2, Hbl).
  destruct (heap_inv_region _ _ buf (Z.of_nat (length bytes)) HI2) as (Hlo & _); [by left|].
  rewrite (proj2 (Z.eqb_neq buf 0)) by (unfold HEAP_START, HEADER_SIZE in *; lia).
  assert (Ho2 : opened fd bytes bl (Kernel (k_sched k) (k_vm k) h2, w1)).
  { eapply (opened_kept _ _ _ (Kernel (k_sched k) (k_vm k) h1) _ _ [_]); [exact Ho|done|exact Hh2]. }
  destruct (read_file _ _ _ _ _ _ _ Ho2 HI2) as (v & w2 & Hr & Hwr & Hho & Ho3); [lia|].
  eapply panics_or_step; [exact Hr|]. cbn [k_sched k_heap] in *.
  destruct (close_file _ _ _ _ ((buf, Z.of_nat (length bytes)) :: l) Ho3) as (r & h3 & w3 & Hcl & Hg).
  { cbn [k_heap]. by rewrite <- Permutation_middle. }
  eapply panics_or_step; [exact Hcl|]. cbn [k_sched k_vm k_heap] in *.
  rewrite (proj2 (Z.ltb_ge _ 0)), Z.mod_small, Z.eqb_refl by lia. cbn [negb orb].
  eapply panics_or_step; [reflexivity|]. cbv beta. cbn [k_vm].
  assert (HI3 : heap_inv h3 ([] ++ (buf, Z.of_nat (length bytes)) :: l)).
  { apply Hg. cbn [app]. by rewrite <- Permutation_middle. }
  eapply panics_or_bind; [apply panics_or_zoom, (HQ (Kernel (k_sched k) v h3) buf)|].
  { split; [done|done|done| |].
    - eapply (kept_wrote _ _ _ _ _ _ HI2); [by left|exact Hwr].
    - intros i Hi. eapply (block_in_heap _ _ _ _ _ HI3); [by left|done]. }
  intros e s3 (k2 & -> & Hh & Hq). cbn [fst snd k_heap] in *.
  destruct (kfree_kept _ _ _ _ _ HI3) as (h4 & Hfr & Hfr').
  eapply panics_or_step; [by apply in_kernel_Done, in_heap_Done; rewrite Hh|]. cbv beta.
  eapply panics_or_done; [reflexivity|]. exists k2, h4, w3. split; [done|]. split; [|done].
  intros l' HI'. apply (Hfr' [] (Z.of_nat (length bytes)) l'). apply Hg. cbn [app].
  rewrite <- Permutation_middle. by apply Hh2, Hbl.
Qed.

(** No file: nothing happens. *)
Lemma load_from_missing path proc argv k w : file_at path None (k, w) →
  panics_or (load_from path proc argv) (k, w) (λ e s', e = 0 ∧
    ∃ h w', s' = (Kernel (k_sched k) (k_vm k) h, w') ∧ takes [] (k_heap k) h).
Proof.
  intros Hf. unfold elf_load_from_file. eapply panics_or_bind; [by apply open_missing|].
  intros fd s1 (Hfd & h & w' & -> & Hh). cbv beta. rewrite (proj2 (Z.ltb_lt fd 0)) by done.
  eapply panics_or_done; [reflexivity|]. eauto.
Qed.

End FromFile.

(** * A program in memory *)

(** In [t], and not in [v], the space [b] holds the program: its pages are
    those of the segments and the stack, on the frames [F], all new; they read
    as [img]; the kernel stack [stk] has the frame that enters it. *)
Record has_program (v t : vm) (b stk : Z) (bytes : list Z) (argv : option (list (list Z)))
    (T : gmap (list Z) Z) (F : gmap Z Z) (img : Z → Z) : Prop := {
  hp_stack : page_ok stk ∧ used (frames v) (stk / 4096) = false ∧ used (frames t) (stk / 4096) = true;
  hp_space : space_wf t b T;
  hp_tables : ∀ q a, T !! q = Some a → used (frames v) (a / 4096) = false ∧ a ≠ stk;
  hp_new : ∀ p f, F !! p = Some f → used (frames v) f = false ∧ used (frames t) f = true ∧ page_ok (f * 4096) ∧
    f * 4096 ≠ stk ∧ ∀ q, T !! q ≠ Some (f * 4096);
  hp_inj : ∀ p q f, F !! p = Some f → F !! q = Some f → p = q;
  hp_pages : ∀ q, is_Some (F !! q) ↔ program_page bytes q;
  hp_in : ∀ a f, user_addr a → F !! (a / 4096) = Some f → translation t T a = f * 4096 + a mod 4096;
  hp_out : ∀ a, user_addr a → F !! (a / 4096) = None → translation t T a = 0;
  hp_byte : ∀ p f i, F !! p = Some f → 0 <= i < 4096 → rd8 (mem t) (f * 4096 + i) = img (p * 4096 + i);
  hp_image : ∀ a, a < STACK_VIRTUAL → img a = program_image bytes a;
  hp_argv : ∀ strs, argv = Some strs → argv_fits strs → argv_layout img strs;
  hp_frame : let '(_, _, sp) := start_args argv in
    frame_words stk t 4088 [0x23; sp; 0x200; 0x2B; program_entry bytes] }.

(** The process [x] with the registers and fields to run it. *)
Definition entering (bytes : list Z) (argv : option (list (list Z))) (stk : Z) (x : process_t) : process_t :=
  let '(argc, argv_addr, _) := start_args argv in
  enter_image (physical_to_virtual stk + 4056) (program_heap bytes) argc argv_addr x.

Lemma heap_page_ok c : heap_page c → c mod 4096 = 0 → page_ok c.
Proof. unfold heap_page, page_ok, HEAP_START, PHYSICAL_MAP_BASE, Heap.HEAP_SIZE. intros. split; [lia|done]. Qed.

Lemma heap_page_floor a : heap_page a → heap_page (a / 4096 * 4096).
Proof. unfold heap_page, HEAP_START, PHYSICAL_MAP_BASE, Heap.HEAP_SIZE. intros. Z.div_mod_to_equations. lia. Qed.

Section NewMemory.
Context (v v1 : vm) (kroot stk b : Z) (Hkm : kernel_memory v kroot) (Hfm : fresh_memory v v1 kroot stk b).

Lemma new_off_heap c : page_ok c → used (frames v) (c / 4096) = false → ¬ heap_page c.
Proof. intros _ Hu Hh. apply (km_heap _ _ Hkm) in Hh. congruence. Qed.

(** The buffer is apart from the new pages. *)
Lemma read_buffer_ok k k1 buf bytes : k_vm k = v1 → file_read k k1 buf bytes → 0 < Z.of_nat (length bytes) →
  buffer_ok (k_vm k1) {[ [] := b ]} stk buf (Z.of_nat (length bytes)).
Proof.
  intros Hv [_ _ [Hfr _ _] _ Hb] Hlen. destruct (fm_stack _ _ _ _ _ Hfm) as (Hps & Hsf & _).
  destruct (fm_dir _ _ _ _ _ Hfm) as (Hpb & Hbf & _).
  assert (Hin : ∀ c, heap_page c → used (frames (k_vm k1)) (c / 4096) = true).
  { intros c Hc. rewrite Hfr, Hv. by apply (kept_used _ _ (fm_kept _ _ _ _ _ Hfm)), (km_heap _ _ Hkm). }
  split.
  - pose proof (Hb 0 ltac:(lia)). pose proof (Hb (Z.of_nat (length bytes) - 1) ltac:(lia)).
    unfold heap_page, HEAP_START, PHYSICAL_MAP_BASE, Heap.HEAP_SIZE in *. lia.
  - intros i Hi. cbv zeta. pose proof (heap_page_floor _ (Hb i Hi)) as Hc. set (c := _ / 4096 * 4096) in *.
    split; [apply heap_page_ok; [done|apply Z.mod_mul; lia]|]. split; [by apply Hin|]. split.
    + intros r [_ E]%lookup_singleton_Some. apply (new_off_heap b Hpb Hbf). by rewrite E.
    + intros E. apply (new_off_heap stk Hps Hsf). by rewrite <- E.
Qed.

Lemma new_page_used a : page_ok a → used (frames v) (a / 4096) = false → ∀ c, page_ok c → used (frames v) (c / 4096) = true → c ≠ a.
Proof. intros _ Hu c _ Huc ->. congruence. Qed.

(** What loading has added is new with respect to [v]. *)
Lemma grown_kept v2 t T F img : kept v1 v2 → grown v2 t b stk {[ [] := b ]} T F img → kept v t.
Proof.
  intros Hk Hg. pose proof (fm_kept _ _ _ _ _ Hfm) as Hk1. assert (Hk2 : kept v v2) by (by etrans).
  destruct (fm_stack _ _ _ _ _ Hfm) as (Hps & Hsf & _). destruct (fm_dir _ _ _ _ _ Hfm) as (Hpb & Hbf & _). split.
  - rewrite (grown_total _ _ _ _ _ _ _ _ Hg). apply (kept_total _ _ Hk2).
  - intros j Hj. by apply (grown_used _ _ _ _ _ _ _ _ Hg), (kept_used _ _ Hk2).
  - intros c i Hc Hu Hh Hi. rewrite <- (kept_mem _ _ Hk2) by done.
    apply (grown_mem _ _ _ _ _ _ _ _ Hg); [done|by apply (kept_used _ _ Hk2)| | |done].
    + intros r [_ E]%lookup_singleton_Some. by apply (new_page_used b Hpb Hbf c Hc Hu).
    + by apply (new_page_used stk Hps Hsf).
Qed.

Lemma has_program_intro v2 t T F img data bytes argv : kept v1 v2 → program bytes → holds v2 data bytes →
  (∀ a, translation v2 {[ [] := b ]} a = 0) →
  loaded v2 b stk data {[ [] := b ]} t T F img argv →
  (let '(_, _, sp) := start_args argv in frame_words stk t 4088 [0x23; sp; 0x200; 0x2B; field v2 data 8 24]) →
  has_program v t b stk bytes argv T F img.
Proof.
  intros Hk Hprog Hh Hz [Hg Hpages Himg Hargv] Hfr. pose proof (holds_same _ _ _ Hh) as Hsame.
  destruct (fm_stack _ _ _ _ _ Hfm) as (Hps & Hsf & Hsu). destruct (fm_dir _ _ _ _ _ Hfm) as (Hpb & Hbf & Hne).
  assert (Hnew : ∀ j, used (frames v2) j = false → used (frames v) j = false).
  { intros j Hj. destruct (used (frames v) j) eqn:E; [|done].
    apply (kept_used _ _ (fm_kept _ _ _ _ _ Hfm)), (kept_used _ _ Hk) in E. congruence. }
  apply (kept_used _ _ Hk) in Hsu. pose proof Hprog as [Hs _ _ _ _]. split.
  - split_and!; [done|done|]. by apply (grown_used _ _ _ _ _ _ _ _ Hg).
  - apply (grown_wf _ _ _ _ _ _ _ _ Hg).
  - intros q a [[_ <-]%lookup_singleton_Some|Hq]%(grown_tables _ _ _ _ _ _ _ _ Hg); [done|].
    split; [by apply Hnew|]. intros ->. congruence.
  - intros p f Hp. destruct (grown_frame _ _ _ _ _ _ _ _ Hg _ _ Hp) as (H1 & H2 & H3 & H4).
    split_and!; [by apply Hnew|done|done| |done]. intros <-. rewrite Z.div_mul in Hsu by lia. congruence.
  - apply (grown_inj _ _ _ _ _ _ _ _ Hg).
  - intros q. rewrite Hpages. unfold program_page. by rewrite (segment_same _ _ _ _ _ Hsame Hprog).
  - apply (grown_in _ _ _ _ _ _ _ _ Hg).
  - intros a Ha Hp. by rewrite (grown_out _ _ _ _ _ _ _ _ Hg).
  - apply (grown_byte _ _ _ _ _ _ _ _ Hg).
  - intros a Ha. rewrite Himg by done. unfold program_image. pose proof (field_nonneg (contents bytes) PHYSICAL_MAP_BASE 2 60).
    rewrite (phnum_same _ _ _ _ _ Hsame Hprog). symmetry.
    apply (image_same _ _ _ _ _ Hsame Hprog); [done|lia|]. rewrite <- (phnum_same _ _ _ _ _ Hsame Hprog). unfold phnum. lia.
  - done.
  - unfold program_entry. by rewrite (field_same _ _ _ _ _ Hsame) by lia.
Qed.

End NewMemory.

(** * Loading programs, and files that are not *)

(** No file, an empty one, or one whose header the loader refuses. *)
Definition no_program (o : option (list Z)) : Prop :=
  match o with
  | None => True
  | Some bytes => bytes = [] ∨ 20 <= Z.of_nat (length bytes) < 2 ^ 31 ∧ ¬ program_header bytes
  end.

Lemma rd_bytes_file n v data o : PHYSICAL_MAP_BASE <= data → data + o < 2 ^ 64 → 0 <= o →
  rd_bytes n (mem v) (virtual_to_physical (data + o)) = (λ i, file v data (o + i)) <$> seqZ 0 (Z.of_nat n).
Proof.
  intros H1 H2 H3. unfold rd_bytes, file, virtual_to_physical. rewrite u64_small by (unfold PHYSICAL_MAP_BASE in *; lia).
  apply list_fmap_ext. intros _ i _. f_equal. lia.
Qed.

Lemma header_same_bytes v data bytes : holds v data bytes → 20 <= Z.of_nat (length bytes) →
  PHYSICAL_MAP_BASE <= data < 2 ^ 64 - 64 → valid_header v data ↔ program_header bytes.
Proof.
  intros Hh Hl Hd. pose proof (holds_same _ _ _ Hh) as Hs. unfold program_header, valid_header.
  assert (He : ∀ n o, 0 <= o → o + Z.of_nat n <= 20 →
    rd_bytes n (mem v) (virtual_to_physical (data + o))
    = rd_bytes n (mem (contents bytes)) (virtual_to_physical (PHYSICAL_MAP_BASE + o))).
  { intros n o Ho Hn. rewrite !rd_bytes_file by (unfold PHYSICAL_MAP_BASE in *; lia).
    apply list_fmap_ext. intros _ i Hi%list_elem_of_lookup_2. apply elem_of_seqZ in Hi. symmetry. apply Hs. lia. }
  pose proof (He 5%nat 0 ltac:(lia) ltac:(lia)) as H5. rewrite !Z.add_0_r in H5.
  by rewrite H5, !He by lia.
Qed.

Section Programs.
Context {W : Type} `{!Vfs W} `{!FileServer W} (argv_strings : Z → vm → option (list (list Z))).

Abbreviation load_from := (elf_load_from_file argv_strings).

Lemma load_from_empty path proc argv k w l : file_at path (Some []) (k, w) → heap_inv (k_heap k) l →
  panics_or (load_from path proc argv) (k, w) (λ e s', e = 0 ∧
    ∃ h w', s' = (Kernel (k_sched k) (k_vm k) h, w') ∧ takes [] (k_heap k) h).
Proof.
  intros Hf HI. unfold elf_load_from_file. eapply panics_or_bind; [by apply (open_file path [])|].
  intros fd s1 (Hfd & h1 & w1 & bl & -> & Hbl & Ho). cbv beta. rewrite (proj2 (Z.ltb_ge fd 0)) by done.
  eapply panics_or_step; [by eapply size_file|]. change (u32 (Z.of_nat (length (@nil Z))) =? 0) with true. cbv beta iota zeta.
  destruct (close_file _ _ _ _ l (opened_is_open _ _ _ _ Ho)) as (r & h2 & w2 & Hc & Hg); [by apply Hbl|].
  eapply panics_or_step; [exact Hc|]. eapply panics_or_done; [reflexivity|]. split; [done|].
  exists h2, w2. split; [done|]. intros l' HI'. by apply Hg, Hbl.
Qed.

(** A file that is no program is refused; only its buffer was written. *)
Lemma load_from_refuses o path proc argv k w l : file_at path o (k, w) → no_program o → heap_inv (k_heap k) l →
  panics_or (load_from path proc argv) (k, w) (λ e s', e = 0 ∧
    ∃ v h w' buf n, s' = (Kernel (k_sched k) v h, w') ∧ takes [] (k_heap k) h ∧ wrote buf n (k_vm k) v ∧
      (∀ i, 0 <= i < n → heap_page (buf - PHYSICAL_MAP_BASE + i)) ∧ kept (k_vm k) v).
Proof.
  intros Hf Hno HI.
  assert (Hsame : panics_or (load_from path proc argv) (k, w) (λ e s', e = 0 ∧
    ∃ h w', s' = (Kernel (k_sched k) (k_vm k) h, w') ∧ takes [] (k_heap k) h) →
    panics_or (load_from path proc argv) (k, w) (λ e s', e = 0 ∧
    ∃ v h w' buf n, s' = (Kernel (k_sched k) v h, w') ∧ takes [] (k_heap k) h ∧ wrote buf n (k_vm k) v ∧
      (∀ i, 0 <= i < n → heap_page (buf - PHYSICAL_MAP_BASE + i)) ∧ kept (k_vm k) v)).
  { intros H. eapply panics_or_impl; [exact H|]. intros e s' (-> & h & w' & -> & Ht). split; [done|].
    exists (k_vm k), h, w', 0, 0. split; [done|]. split; [done|]. split; [by split|]. split; [lia|done]. }
  destruct o as [bytes|]; [|by apply Hsame, load_from_missing].
  destruct Hno as [-> |[Hlen Hhd]]; [by eapply Hsame, load_from_empty|].
  eapply panics_or_impl.
  - eapply (load_from_spec argv_strings path proc argv bytes k w l (λ e k2, e = 0 ∧ k_sched k2 = k_sched k ∧
      ∃ buf, wrote buf (Z.of_nat (length bytes)) (k_vm k) (k_vm k2) ∧ kept (k_vm k) (k_vm k2) ∧
      ∀ i, 0 <= i < Z.of_nat (length bytes) → heap_page (buf - PHYSICAL_MAP_BASE + i)) Hf HI); [lia|].
    intros k1 buf [H1 H2 H3 H4 H5].
    assert (Hd : PHYSICAL_MAP_BASE <= buf < 2 ^ 64 - 64).
    { pose proof (H5 0 ltac:(lia)). unfold heap_page, HEAP_START, PHYSICAL_MAP_BASE, Heap.HEAP_SIZE in *. lia. }
    eapply panics_or_done; [apply elf_rejects; [done|]|eauto 10].
    intros Hv. apply Hhd. by apply (header_same_bytes _ _ _ H2 ltac:(lia) Hd).
  - intros e s' (k2 & h & w' & -> & Ht & -> & -> & buf & H1 & H2 & H3). split; [done|].
    exists (k_vm k2), h, w', buf, (Z.of_nat (length bytes)). done.
Qed.

(** A program is loaded into the new memory of the process [proc]. *)
Lemma load_from_loads path proc argv bytes strs k w l x v kroot stk b :
  kernel_memory v kroot → fresh_memory v (k_vm k) kroot stk b →
  procs (k_sched k) !! proc = Some x → p_page_dir x = physical_to_virtual b →
  p_stack_top x = physical_to_virtual stk + 4088 → heap_inv (k_heap k) l →
  file_at path (Some bytes) (k, w) → program bytes → Z.of_nat (length bytes) < 2 ^ 31 →
  (∀ v', kept v v' → argv_strings argv v' = strs) → (∀ l, strs = Some l → argv_bytes l) →
  panics_or (load_from path proc argv) (k, w) (λ e s', e = program_entry bytes ∧
    ∃ t h w' T F img, s' = (Kernel (with_procs <[proc := entering bytes strs stk x]> (k_sched k)) t h, w') ∧
      takes [] (k_heap k) h ∧ kept v t ∧ has_program v t b stk bytes strs T F img).
Proof.
  intros Hkm Hfm Hx Hdir Hst HI Hf Hprog Hlen Hargs Hstr. pose proof Hprog as [Hs _ _ _ _].
  destruct (fm_stack _ _ _ _ _ Hfm) as (Hps & Hsf & Hsu). destruct (fm_dir _ _ _ _ _ Hfm) as (Hpb & Hbf & Hne).
  destruct (fm_space _ _ _ _ _ Hfm) as [Hwf Hz].
  assert (Hoff : off_heap {[ [] := b ]}).
  { intros q c [_ <-]%lookup_singleton_Some. by eapply new_off_heap. }
  eapply panics_or_impl.
  - eapply (load_from_spec argv_strings path proc argv bytes k w l (λ e k2, e = program_entry bytes ∧
      k_sched k2 = with_procs <[proc := entering bytes strs stk x]> (k_sched k) ∧ kept v (k_vm k2) ∧
      ∃ T F img, has_program v (k_vm k2) b stk bytes strs T F img) Hf HI); [lia|].
    intros k1 buf Hr. pose proof Hr as [Hsch Hh Hwr Hk1 _]. rewrite Hargs by (etrans; [apply (fm_kept _ _ _ _ _ Hfm)|done]).
    pose proof (holds_same _ _ _ Hh) as Hsame. destruct (kept_space _ _ _ _ Hk1 Hwf Hoff) as (Hwf1 & Htr & _).
    assert (Hready : ready k1 proc x b stk buf (Z.of_nat (length bytes)) {[ [] := b ]}).
    { split; [by rewrite Hsch|done|done|done| | |].
      - by apply (kept_used _ _ Hk1), (kept_used _ _ (fm_kept _ _ _ _ _ Hfm)), Hkm.
      - split; [done|]. split; [by apply (kept_used _ _ Hk1)|]. intros r [_ E]%lookup_singleton_Some. by apply Hne.
      - eapply read_buffer_ok; [done|done|reflexivity|done|lia]. }
    pose proof (elf_load_spec k1 proc x b stk buf _ _ strs Hready (elf_ok_same _ _ _ _ _ Hsame Hprog) Hstr) as Hl.
    cbv zeta in Hl. destruct (start_args strs) as [[argc av] sp] eqn:Hsa.
    destruct Hl as [[msg Hl]|(t & T & F & img & Hl & Hld & Hfw)]; [left; by exists msg|].
    eapply panics_or_done; [exact Hl|]. split; [done|]. cbn [k_sched k_vm]. split_and!.
    + symmetry. apply (field_same _ _ _ _ _ Hsame); lia.
    + unfold entering, program_heap. rewrite Hsa, Hsch. do 3 f_equal. rewrite (phnum_same _ _ _ _ _ Hsame Hprog). symmetry.
      apply (heap_same _ _ _ _ _ Hsame Hprog); [lia|]. rewrite <- (phnum_same _ _ _ _ _ Hsame Hprog). unfold phnum.
      pose proof (field_nonneg (contents bytes) PHYSICAL_MAP_BASE 2 60). lia.
    + eapply grown_kept; [exact Hfm|exact Hk1|apply Hld].
    + exists T, F, img. eapply has_program_intro; [exact Hfm|exact Hk1|exact Hprog|exact Hh| |exact Hld|].
      * intros a. by rewrite Htr.
      * by rewrite Hsa.
  - intros e s' (k2 & h & w' & -> & Ht & -> & -> & Hk2 & T & F & img & Hp). split; [done|]. eauto 15.
Qed.

End Programs.

(** * Taking the new memory back *)

(** An empty address space and a stack page, freed after memory elsewhere was
    written: what is in use is what was. *)
Lemma free_new_memory v v1 v2 kroot stk b : kernel_memory v kroot → fresh_memory v v1 kroot stk b → kept v1 v2 →
  frames v2 = frames v1 →
  ∃ v3, paging_free_directory (physical_to_virtual b) v2 = Done tt v3 ∧
    ∃ v4, in_pmm (pmm_free stk) v3 = Done tt v4 ∧ mem v4 = mem v2 ∧ (kernel_pml4 v4 = kernel_pml4 v2 ∧ cr3 v4 = cr3 v2) ∧
      ∀ j, 0 < j → used (frames v4) j = used (frames v) j.
Proof.
  intros Hkm Hfm Hk Hfr. destruct (fm_stack _ _ _ _ _ Hfm) as (Hps & Hsf & _). destruct (fm_dir _ _ _ _ _ Hfm) as (Hpb & Hbf & Hne).
  destruct (fm_space _ _ _ _ _ Hfm) as [Hwf _].
  destruct (kept_space _ _ b _ Hk Hwf) as (Hwf2 & _ & Hlf & _).
  { intros q c [_ <-]%lookup_singleton_Some. by eapply new_off_heap. }
  destruct (free_directory_exact v2 b _ Hwf2) as (v3 & H & Hm & _ & Hu).
  { intros q t i [<- _]%lookup_singleton_Some Hl. done. }
  exists v3. split; [done|]. unfold in_pmm, pmm_free, zoom. rewrite (proj2 (Z.eqb_neq stk 0)) by (destruct Hps; lia).
  destruct (free_directory_frame _ _ _ Hpb H) as (_ & _ & Hregs).
  eexists. split; [done|]. split; [done|]. split; [done|]. intros j Hj. cbn [frames]. rewrite used_add_used, used_clear.
  apply eq_iff_eq_true. rewrite andb_true_iff, negb_true_iff, bool_decide_eq_false, (Hu j Hj), Hfr, (fm_used _ _ _ _ _ Hfm).
  rewrite !orb_true_iff, !bool_decide_eq_true. unfold PAGE_SIZE. split.
  - intros (Hnj & [[H1|H1]|H1] & Ht & _); [done| |done]. exfalso. by apply (Ht [] b).
  - intros H1. split; [intros ->; congruence|]. split; [by right|]. split.
    + intros q a _ [_ <-]%lookup_singleton_Some <-. congruence.
    + intros q i _ Hl Hp. unfold leaf in Hp. by rewrite lookup_singleton_ne in Hp by (by intros <-).
Qed.

(** The slot of the process is the first that holds it. *)
Lemma clear_slot_spec proc t : ∀ i n slot k, find_slot i t = Some n → n = (i + slot)%nat → proc ∉ t → proc ≠ 0 →
  clear_slot proc i (<[slot := proc]> t) k = set_slot n 0 k.
Proof.
  induction t as [|p t IH]; intros i n slot k Hf Hn Hp H0; [done|]. simpl in Hf. apply not_elem_of_cons in Hp as [Hpp Hpt].
  destruct (Z.eqb_spec p 0) as [->|Hp0].
  - assert (slot = 0%nat) as -> by (injection Hf; lia). rewrite Nat.add_0_r in Hn. subst n. simpl. by rewrite Z.eqb_refl.
  - destruct slot as [|slot].
    { apply free_slot_spec in Hf as [Hle _]. lia. }
    simpl. rewrite (proj2 (Z.eqb_neq p proc)) by done. apply (IH (S i) n slot); [done|lia|done|done].
Qed.

Lemma with_undone proc x slot n s : procs s !! proc = None → process_table s !! slot = Some 0 →
  with_procs (delete proc) (with_table <[slot := 0]> (with_table <[slot := proc]> (with_procs <[proc := x]> (with_next_pid n s))))
  = with_next_pid n s.
Proof.
  intros Hp Ht. destruct s as [pr tb c np h t tk r sw]. unfold with_procs, with_table, with_next_pid. cbn in *.
  by rewrite delete_insert_id, list_insert_insert_eq, list_insert_id.
Qed.

(** The state [k2] is that of a created process, but for what the file system
    wrote and took. *)
Lemma unspawn_spec k k1 k2 kroot proc x slot stk b : can_create k kroot →
  created k k1 kroot proc x slot stk b → p_page_dir x = physical_to_virtual b → p_stack x = physical_to_virtual stk →
  k_sched k2 = k_sched k1 → kept (k_vm k1) (k_vm k2) → frames (k_vm k2) = frames (k_vm k1) → takes [] (k_heap k1) (k_heap k2) →
  ∃ v h, unspawn proc k2 = Done tt (Kernel (with_next_pid (u64 (next_pid (k_sched k) + 1)) (k_sched k)) v h) ∧
    mem v = mem (k_vm k2) ∧ (∀ j, 0 < j → used (frames v) j = used (frames (k_vm k)) j) ∧ takes [] (k_heap k) h.
Proof.
  intros [(l & HI & _) Hkm Htab _] [[Hp0 Hnone] Hslot Hs Hfm Hheap] Hdir Hstk Hs2 Hk2 Hfr Hh2.
  destruct (fm_stack _ _ _ _ _ Hfm) as (Hps & _ & _).
  destruct (free_new_memory _ _ _ _ _ _ Hkm Hfm Hk2 Hfr) as (v3 & Hf3 & v4 & Hf4 & Hm4 & _ & Hu4).
  pose proof (Hheap _ HI) as HI1. apply Hh2 in HI1. destruct (kfree_kept _ [] _ _ _ HI1) as (h & Hkf & Hkf').
  assert (Hx : procs (k_sched k2) !! proc = Some x) by (rewrite Hs2, Hs; apply lookup_insert_eq).
  apply free_slot_spec in Hslot as Hslot'. destruct Hslot' as [_ Hsl]. rewrite Nat.sub_0_r in Hsl.
  assert (Hnt : proc ∉ process_table (k_sched k)) by (intros Hin; destruct (Htab proc Hin Hp0); congruence).
  exists v4, h. split; [|split; [done|split; [done|]]].
  - unfold unspawn. rewrite (bind_Done _ _ _ _ _ (run_sched _ k2 _ _ (deref_Done _ _ _ Hx))), kernel_eta, Hdir, Hstk.
    rewrite (bind_Done _ _ _ _ _ (run_vm _ k2 _ _ Hf3)). rewrite v2p_p2v by done.
    rewrite (bind_Done _ _ _ _ _ (run_vm _ (Kernel (k_sched k2) v3 (k_heap k2)) _ _ Hf4)). set (k4 := Kernel _ v4 _).
    rewrite (bind_Done _ _ _ _ _ (run_sched (gets process_table) k4 _ _ eq_refl)), kernel_eta.
    assert (Hcl : clear_slot proc 0 (process_table (k_sched k4)) k4
      = Done tt (Kernel (with_table <[slot := 0]> (k_sched k4)) v4 (k_heap k2))).
    { cbn [k4 k_sched]. rewrite Hs2, Hs. cbn [process_table with_table with_procs with_next_pid].
      rewrite (clear_slot_spec proc _ 0 slot slot) by done. by rewrite <- Hs, <- Hs2. }
    rewrite (bind_Done _ _ _ _ _ Hcl). cbn [k4 k_sched]. erewrite bind_Done by reflexivity. cbn [k_sched k_vm k_heap].
    rewrite Hs2, Hs, with_undone by done. by apply (in_heap_Done _ (Kernel _ _ (k_heap k2))).
  - intros l' HI'. apply (Hkf' [] PROCESS_T_SIZE l'). by apply Hh2, Hheap.
Qed.

(** * process_spawn() *)

Lemma created_kept k k1 kroot proc x slot stk b : created k k1 kroot proc x slot stk b → kept (k_vm k) (k_vm k1).
Proof. intros Hc. apply (fm_kept _ _ _ _ _ (cr_memory _ _ _ _ _ _ _ _ Hc)). Qed.

(** The new process is in no queue yet. *)
Lemma created_queue k k1 kroot proc x slot stk b l : created k k1 kroot proc x slot stk b →
  queue (k_sched k) l → queue (k_sched k1) l ∧ proc ∉ l.
Proof.
  intros [[Hp0 Hnone] _ Hs _ _] Hq.
  assert (Hnl : proc ∉ l).
  { intros Hin. destruct (chain_elem _ _ _ _ (queue_chain _ _ Hq) Hin) as [z Hz]. congruence. }
  split; [|done]. rewrite Hs. destruct Hq as [Q1 Q2 Q3 Q4 Q5]. split; try done. by apply chain_insert.
Qed.

Lemma set_state_entering bytes argv stk x : set_state (p_state x) (entering bytes argv stk x) = entering bytes argv stk x.
Proof. unfold entering. by destruct (start_args argv) as [[? ?] ?]. Qed.

(** A kernel with a run queue that can create processes. *)
Record can_spawn (k : kernel) (kroot : Z) (l : list Z) : Prop := {
  cs_create : can_create k kroot;
  cs_queue : queue (k_sched k) l }.

Section Spawning.
Context {W : Type} `{!Vfs W} `{!FileServer W} (argv_strings : Z → vm → option (list (list Z))).
#[local] Instance loader : ElfLoader W := elf_load_from_file argv_strings.

(** The argument pointer leads to the strings [strs], as long as memory in
    use is kept. *)
Definition args_at (v : vm) (argv : Z) (strs : option (list (list Z))) : Prop :=
  (∀ v', kept v v' → argv_strings argv v' = strs) ∧ ∀ l, strs = Some l → argv_bytes l.

(** process_spawn() of a program. *)
Lemma process_spawn_spec k w path name argv bytes strs kroot l :
  can_spawn k kroot l → path ≠ 0 → file_at path (Some bytes) (k, w) → program bytes → program_entry bytes ≠ 0 →
  Z.of_nat (length bytes) < 2 ^ 31 → args_at (k_vm k) argv strs →
  panics_or (process_spawn path name argv) (k, w) (λ r s', r = next_pid (k_sched k) ∧
    ∃ k' w' child n slot stk b T F img, s' = (k', w') ∧
      procs (k_sched k) !! child = None ∧
      procs (k_sched k') !! child = Some (set_next n (entering bytes strs stk
        (new_process false name 0x400000 (next_pid (k_sched k)) (running_pid (k_sched k)) stk b))) ∧
      (∀ q y, procs (k_sched k) !! q = Some y → ∃ m, procs (k_sched k') !! q = Some (set_next m y)) ∧
      queue (k_sched k') (l ++ [child]) ∧
      find_slot 0 (process_table (k_sched k)) = Some slot ∧
      process_table (k_sched k') = <[slot := child]> (process_table (k_sched k)) ∧
      current_process (k_sched k') = current_process (k_sched k) ∧
      next_pid (k_sched k') = u64 (next_pid (k_sched k) + 1) ∧
      has_program (k_vm k) (k_vm k') b stk bytes strs T F img ∧ kept (k_vm k) (k_vm k') ∧
      (∀ root T2, space_wf (k_vm k) root T2 → off_heap T2 →
        space_wf (k_vm k') root T2 ∧ ∀ a, translation (k_vm k') T2 a = translation (k_vm k) T2 a) ∧
      takes [(child, PROCESS_T_SIZE)] (k_heap k) (k_heap k')).
Proof.
  intros [Hcc Hq] Hpath Hf Hprog Hent Hlen [Ha Hs]. unfold process_spawn. rewrite (proj2 (Z.eqb_neq path 0)) by done.
  eapply panics_or_bind; [apply panics_or_zoom; by apply (process_create_spec k kroot)|].
  intros child s1 (k1 & -> & slot & stk & b & Hc & _). cbn [fst snd].
  pose proof Hc as [[Hc0 Hnone] Hslot Hk1 Hfm Hheap]. rewrite (proj2 (Z.eqb_neq child 0)) by done.
  change (flag 0 PROCESS_USER) with false in *. set (x := new_process _ _ _ _ _ _ _) in *.
  assert (Hx : procs (k_sched k1) !! child = Some x) by (rewrite Hk1; apply lookup_insert_eq).
  destruct (cc_heap _ _ Hcc) as (bl & HI & _). pose proof (Hheap _ HI) as HI1.
  eapply panics_or_bind.
  { eapply (load_from_loads argv_strings path child argv bytes strs k1 w _ x (k_vm k) kroot stk b);
      [apply Hcc|exact Hfm|exact Hx|done|done|exact HI1| |done|done|done|done].
    eapply (file_at_kept _ _ k _ _ [(child, PROCESS_T_SIZE)]); [exact Hf|by eapply created_kept|exact Hheap]. }
  intros e s2 (-> & t & h & w2 & T & F & img & -> & Hh & Hkt & Hp). cbv beta. rewrite (proj2 (Z.eqb_neq _ 0)) by done.
  destruct (created_queue _ _ _ _ _ _ _ _ _ Hc Hq) as [Hq1 Hnl].
  set (y := entering bytes strs stk x). set (s2 := with_procs <[child := y]> (k_sched k1)).
  assert (Hq2 : queue s2 l) by (destruct Hq1 as [Q1 Q2 Q3 Q4 Q5]; split; try done; by apply chain_insert).
  destruct (queue_add s2 l child y Hq2 Hnl Hc0 (lookup_insert_eq _ _ _)) as (s3 & Hadd & Hq3 & [n Hy] & Hoth & (Ht3 & Hc3 & Hp3) & _).
  eapply panics_or_step; [by apply in_kernel_Done, (run_sched _ (Kernel s2 t h))|].
  eapply panics_or_step; [by apply in_kernel_Done, (run_sched _ (Kernel s3 t h)), deref_Done|].
  eapply panics_or_done; [reflexivity|]. cbn [k_sched k_vm k_heap].
  assert (Hst : set_state PROCESS_READY y = y) by apply (set_state_entering _ _ _ x). rewrite Hst in *. split.
  { unfold y, entering. by destruct (start_args strs) as [[? ?] ?]. }
  exists (Kernel s3 t h), w2, child, n, slot, stk, b, T, F, img. cbn [k_sched k_vm k_heap]. split_and!; try done.
  - intros q z Hz. apply Hoth; [congruence|]. unfold s2. rewrite Hk1. cbn. by rewrite !lookup_insert_ne by congruence.
  - rewrite Ht3. unfold s2. by rewrite Hk1.
  - rewrite Hc3. unfold s2. by rewrite Hk1.
  - rewrite Hp3. unfold s2. by rewrite Hk1.
  - intros root T2 H2 Hoff. destruct (kept_space _ _ _ _ Hkt H2 Hoff) as (H3 & H4 & _). done.
  - intros l' HI'. by apply Hh, Hheap.
Qed.

(** C14. process_spawn() starts the program in a file. On a kernel that can
    create processes, with a well-formed executable at the path, it returns
    the next PID and leaves a new process in the first free slot and at the
    end of the run queue, READY and set to enter ring 3 at the entry point of
    the file; its address space, new pages only, is exactly the segments of
    the file and a stack with its arguments; every other process, address
    space and page in use outside the kernel heap is as it was, and of the
    heap only the block of the process is taken. Only a full table and
    running out of memory stop it. *)
Theorem process_spawn_starts k w path name argv bytes strs kroot l :
  can_spawn k kroot l → path ≠ 0 → file_at path (Some bytes) (k, w) → program bytes → program_entry bytes ≠ 0 →
  Z.of_nat (length bytes) < 2 ^ 31 → args_at (k_vm k) argv strs →
  panics_or (process_spawn path name argv) (k, w) (λ r s', r = next_pid (k_sched k) ∧
    ∃ k' w' child n slot stk b T F img, s' = (k', w') ∧
      procs (k_sched k) !! child = None ∧
      procs (k_sched k') !! child = Some (set_next n (entering bytes strs stk
        (new_process false name 0x400000 (next_pid (k_sched k)) (running_pid (k_sched k)) stk b))) ∧
      (∀ q y, procs (k_sched k) !! q = Some y → ∃ m, procs (k_sched k') !! q = Some (set_next m y)) ∧
      queue (k_sched k') (l ++ [child]) ∧
      find_slot 0 (process_table (k_sched k)) = Some slot ∧
      process_table (k_sched k') = <[slot := child]> (process_table (k_sched k)) ∧
      current_process (k_sched k') = current_process (k_sched k) ∧
      next_pid (k_sched k') = u64 (next_pid (k_sched k) + 1) ∧
      has_program (k_vm k) (k_vm k') b stk bytes strs T F img ∧ kept (k_vm k) (k_vm k') ∧
      (∀ root T2, space_wf (k_vm k) root T2 → off_heap T2 →
        space_wf (k_vm k') root T2 ∧ ∀ a, translation (k_vm k') T2 a = translation (k_vm k) T2 a) ∧
      takes [(child, PROCESS_T_SIZE)] (k_heap k) (k_heap k')).
Proof. apply process_spawn_spec. Qed.

(** C15. process_spawn() of what is not a program undoes everything. When there
    is no file at the path, or it is empty or not a 64-bit x86-64 executable,
    it returns -1 and leaves the scheduler as it was but for the PID it took:
    the same processes, table and run queue; the same pages are free, memory
    in use outside the kernel heap is as it was, and every block of the heap
    it took is free again. Only a full table and running out of memory stop
    it. *)
Theorem process_spawn_undoes k w path name argv o kroot :
  can_create k kroot → path ≠ 0 → file_at path o (k, w) → no_program o →
  panics_or (process_spawn path name argv) (k, w) (λ r s', r = -1 ∧ ∃ k' w', s' = (k', w') ∧
    k_sched k' = with_next_pid (u64 (next_pid (k_sched k) + 1)) (k_sched k) ∧
    (∀ j, 0 < j → used (frames (k_vm k')) j = used (frames (k_vm k)) j) ∧
    (∀ c i, page_ok c → used (frames (k_vm k)) (c / 4096) = true → ¬ heap_page c → 0 <= i < 4096 →
       rd8 (mem (k_vm k')) (c + i) = rd8 (mem (k_vm k)) (c + i)) ∧
    takes [] (k_heap k) (k_heap k')).
Proof.
  intros Hcc Hpath Hf Hno. unfold process_spawn. rewrite (proj2 (Z.eqb_neq path 0)) by done.
  eapply panics_or_bind; [apply panics_or_zoom; by apply (process_create_spec k kroot)|].
  intros child s1 (k1 & -> & slot & stk & b & Hc & _). cbn [fst snd].
  pose proof Hc as [[Hc0 Hnone] Hslot Hk1 Hfm Hheap]. rewrite (proj2 (Z.eqb_neq child 0)) by done.
  destruct (cc_heap _ _ Hcc) as (bl & HI & _). pose proof (Hheap _ HI) as HI1.
  eapply panics_or_bind.
  { eapply (load_from_refuses argv_strings o path child argv k1 w); [|done|exact HI1].
    eapply (file_at_kept _ _ k _ _ [(child, PROCESS_T_SIZE)]); [exact Hf|by eapply created_kept|exact Hheap]. }
  intros e s2 (-> & v2 & h2 & w2 & buf & n & -> & Hh2 & Hwr & Hin & Hk2). cbn [Z.eqb].
  destruct (unspawn_spec k k1 (Kernel (k_sched k1) v2 h2) kroot child _ slot stk b Hcc Hc eq_refl eq_refl eq_refl Hk2
    (wr_frames _ _ _ _ Hwr) Hh2) as (v & h & Hun & Hm & Hu & Hh).
  eapply panics_or_step; [by apply in_kernel_Done|]. eapply panics_or_done; [reflexivity|]. split; [done|].
  eexists _, w2. split; [done|]. split; [done|]. split; [done|]. split; [|done]. cbn [k_vm].
  intros c i Hpc Huc Hh' Hi. rewrite Hm. cbn [k_vm]. assert (Hk : kept (k_vm k) v2) by (etrans; [by eapply created_kept|done]).
  by apply (kept_mem _ _ Hk).
Qed.

(** * process_exec() *)

(** The process [x] with the new stack page and address space. *)
Definition moved_to (stk b : Z) (x : process_t) : process_t :=
  set_page_dir (physical_to_virtual b) (set_stack_top (physical_to_virtual stk + 4088) (set_stack (physical_to_virtual stk) x)).

(** The current process [x] has an address space [src] and a stack page of
    its own, on pages in use that are not the heap's. *)
Record can_exec (k : kernel) (kroot c : Z) (x : process_t) (src stk : Z) (T : gmap (list Z) Z) : Prop := {
  ce_memory : kernel_memory (k_vm k) kroot;
  ce_heap : ∃ l, heap_inv (k_heap k) l;
  ce_current : current_process (k_sched k) = c ∧ c ≠ 0 ∧ procs (k_sched k) !! c = Some x;
  ce_dir : p_page_dir x = physical_to_virtual src;
  ce_space : space_wf (k_vm k) src T;
  ce_off : off_heap T;
  ce_huge : no_huge (k_vm k) T;
  ce_pages : pages_in_use (k_vm k) T;
  ce_stack : p_stack x = physical_to_virtual stk ∧ page_ok stk ∧ used (frames (k_vm k)) (stk / 4096) = true }.

Lemma exec_begin_spec k kroot c x : kernel_memory (k_vm k) kroot → procs (k_sched k) !! c = Some x →
  panics_or (exec_begin c) k (λ r k', ∃ stk b, r = (stk, physical_to_virtual b) ∧
    k' = Kernel (with_procs <[c := moved_to stk b x]> (k_sched k)) (k_vm k') (k_heap k) ∧
    fresh_memory (k_vm k) (k_vm k') kroot stk b).
Proof.
  intros Hkm Hx. unfold exec_begin.
  eapply panics_or_bind; [apply panics_or_zoom, stack_taken; apply Hkm|].
  intros stk k1 (v1 & -> & Ht & _). cbv beta zeta. cbn [k_sched k_vm k_heap]. pose proof (pt_page _ _ _ Ht) as Hps.
  eapply panics_or_bind; [apply panics_or_zoom; by eapply fresh_memory_spec|].
  intros dir k2 (v2 & -> & b & -> & Hf & _). cbn [k_sched k_vm k_heap]. destruct (fm_dir _ _ _ _ _ Hf) as (Hpb & _).
  rewrite (proj2 (Z.eqb_neq _ 0)) by (by apply p2v_nonzero).
  eapply panics_or_step; [by apply (run_sched _ (Kernel (k_sched k) v2 (k_heap k))), update_Done|].
  eapply panics_or_done; [reflexivity|]. exists stk, b. split; [done|]. split; [|done]. cbn [k_sched k_vm k_heap].
  unfold PAGE_SIZE, moved_to. by rewrite page_top.
Qed.

(** C16. A failed process_exec() leaves the process as it was. When what is at
    the path is not a program, it returns -1 with the scheduler's state
    unchanged, the old address space loaded, the same pages free, memory in
    use outside the kernel heap as it was, and every block of the heap it took
    given back. Only running out of memory stops it. *)
Theorem process_exec_rolls_back k w path argv o kroot c x src stk T :
  can_exec k kroot c x src stk T → path ≠ 0 → file_at path o (k, w) → no_program o →
  panics_or (process_exec path argv) (k, w) (λ r s', r = Some (-1) ∧ ∃ v h w', s' = (Kernel (k_sched k) v h, w') ∧
    (kernel_pml4 v = kernel_pml4 (k_vm k) ∧ cr3 v = cr3 (k_vm k)) ∧
    (∀ j, 0 < j → used (frames v) j = used (frames (k_vm k)) j) ∧
    (∀ c i, page_ok c → used (frames (k_vm k)) (c / 4096) = true → ¬ heap_page c → 0 <= i < 4096 →
       rd8 (mem v) (c + i) = rd8 (mem (k_vm k)) (c + i)) ∧
    takes [] (k_heap k) h).
Proof.
  intros [Hkm [l HI] (Hcur & Hc0 & Hx) _ _ _ _ _ _] Hpath Hf Hno. unfold process_exec.
  rewrite (proj2 (Z.eqb_neq path 0)) by done.
  eapply panics_or_step; [by apply in_kernel_Done, (run_sched (gets current_process))|]. rewrite kernel_eta, Hcur.
  rewrite (proj2 (Z.eqb_neq c 0)) by done.
  eapply panics_or_step; [by apply in_kernel_Done, run_sched, deref_Done|]. rewrite kernel_eta.
  eapply panics_or_bind; [apply panics_or_zoom; by eapply exec_begin_spec|].
  intros r s1 (k1 & -> & stk' & b & -> & Hk1 & Hfm). cbn [fst snd] in *. cbv beta iota.
  eapply panics_or_bind.
  { eapply (load_from_refuses argv_strings o path c argv k1 w l); [|done|by rewrite Hk1].
    eapply (file_at_kept _ _ k _ _ []); [exact Hf|apply Hfm|rewrite Hk1; by intros l' HI']. }
  intros e s2 (-> & v2 & h2 & w2 & buf & n & -> & Hh2 & Hwr & _ & Hk2). cbn [Z.eqb]. rewrite Hk1. cbn [k_sched fst].
  destruct (free_new_memory _ _ _ _ _ _ Hkm Hfm Hk2 (wr_frames _ _ _ _ Hwr)) as (v3 & Hf3 & v4 & Hf4 & Hm4 & [Hr1 Hr2] & Hu4).
  set (s0 := with_procs <[c := _]> (k_sched k)).
  assert (Hup : update c (λ y, set_page_dir (p_page_dir x) (set_stack_top (p_stack_top x) (set_stack (p_stack x) y))) s0
    = Done tt (k_sched k)).
  { rewrite (update_Done c _ (moved_to stk' b x)) by apply lookup_insert_eq. f_equal.
    assert (Hback : set_page_dir (p_page_dir x) (set_stack_top (p_stack_top x) (set_stack (p_stack x) (moved_to stk' b x))) = x)
      by (by destruct x). rewrite Hback. unfold s0, with_procs. destruct (k_sched k); cbn in *. by rewrite insert_insert_eq, insert_id. }
  assert (Hrb : exec_rollback c x stk' (physical_to_virtual b) (Kernel s0 v2 h2) = Done tt (Kernel (k_sched k) v4 h2)).
  { unfold exec_rollback. rewrite (bind_Done _ _ _ _ _ (run_sched _ (Kernel s0 v2 h2) _ _ Hup)).
    rewrite (bind_Done _ _ _ _ _ (run_vm _ (Kernel (k_sched k) v2 h2) _ _ Hf3)).
    apply (run_vm _ (Kernel (k_sched k) v3 h2) _ _ Hf4). }
  eapply panics_or_step; [by apply in_kernel_Done|]. eapply panics_or_done; [reflexivity|]. split; [done|].
  destruct Hwr as [_ [Hw1 Hw2] _]. destruct (fm_regs _ _ _ _ _ Hfm) as [Hg1 Hg2].
  exists v4, h2, w2. split; [done|]. split; [by split; congruence|]. split; [done|]. split.
  - intros a i Hpa Hua Hha Hi. rewrite Hm4. assert (Hk : kept (k_vm k) v2) by (etrans; [apply Hfm|done]).
    by apply (kept_mem _ _ Hk).
  - intros l' HI'. apply Hh2. by rewrite Hk1.
Qed.

(** The page [j] belongs to the image of the process: a table of its space,
    a page mapped in it, or its kernel stack. *)
Definition owns_page (v : vm) (T : gmap (list Z) Z) (stk j : Z) : Prop :=
  (∃ q a, user_path q ∧ T !! q = Some a ∧ a / 4096 = j) ∨
  (∃ q i, user_path (q ++ [i]) ∧ length q = 3%nat ∧ present (leaf v T q i) = true ∧ frame (leaf v T q i) = j) ∨
  stk / 4096 = j.

Lemma owned_in_use v root T stk j : space_wf v root T → pages_in_use v T → used (frames v) (stk / 4096) = true →
  owns_page v T stk j → used (frames v) j = true.
Proof.
  intros Hwf Hp Hs [(q & a & _ & Hq & <-)|[(q & i & Hu & Hl & Hpr & <-)| <-]]; [|by apply Hp|done].
  apply (wf_table _ _ _ Hwf _ _ Hq).
Qed.

(** The image survives what frees pages it does not have. *)
Lemma has_program_freed v t t' b stk bytes argv T F img : has_program v t b stk bytes argv T F img →
  mem t' = mem t → total_pages (frames t') = total_pages (frames t) →
  (∀ j, 0 < j → used (frames v) j = false → used (frames t) j = true → used (frames t') j = true) →
  has_program v t' b stk bytes argv T F img.
Proof.
  intros [(S1 & S2 & S3) Hwf Htab Hnew Hinj Hpages Hin Hout Hbyte Himg Hargv Hfr] Hm Htot Hu.
  assert (Hpos : ∀ a, page_ok a → 0 < a / 4096) by (intros a [? ?]; Z.div_mod_to_equations; lia).
  assert (Htr : ∀ a, translation t' T a = translation t T a) by (intros a; unfold translation, leaf; by rewrite Hm).
  split; try done.
  - auto.
  - destruct Hwf as [W1 W2 W3 W4 W5 W6]. split; try done.
    + unfold frames_ok. by rewrite Htot.
    + intros q a Hq. destruct (W4 q a Hq) as (? & ? & ?). destruct (Htab q a Hq) as [? _]. auto.
    + by rewrite Hm.
  - intros p f Hp. destruct (Hnew p f Hp) as (? & ? & Hpf & ? & ?).
    pose proof (Hpos _ Hpf) as Hf. rewrite Z.div_mul in Hf by lia. auto.
  - intros a f. rewrite Htr. apply Hin.
  - intros a. rewrite Htr. apply Hout.
  - by rewrite Hm.
  - destruct (start_args argv) as [[? ?] ?]. unfold frame_words. by rewrite Hm.
Qed.

(** Switching to the new image frees exactly the old one. *)
Lemma exec_commit_spec k2 k kroot c x y src stk T b t h :
  can_exec k kroot c x src stk T → kept (k_vm k) t → k2 = Kernel (with_procs <[c := y]> (k_sched k)) t h →
  p_page_dir y = physical_to_virtual b → page_ok b →
  ∃ v, exec_commit c x k2 = Done tt (Kernel (with_tss (p_stack_top y) (with_procs <[c := y]> (k_sched k))) v h) ∧
    mem v = mem t ∧ total_pages (frames v) = total_pages (frames t) ∧ cr3 v = b ∧
    (∀ j, 0 < j → used (frames v) j = true ↔ used (frames t) j = true ∧ ¬ owns_page (k_vm k) T stk j).
Proof.
  intros [Hkm _ _ Hdir Hwf Hoff Hh _ (Hst & Hps & Hsu)] Hk -> Hdy Hpb.
  destruct (kept_space _ _ _ _ Hk Hwf Hoff) as (Hwt & _ & Hl & Hht & _).
  destruct (wf_table _ _ _ Hwt _ _ (wf_root _ _ _ Hwt)) as (Hpr & _ & _).
  set (t1 := Vm (mem t) (frames t) (kernel_pml4 t) b).
  destruct (space_frame t t1 src T Hwt) as [Hwt1 _]; [done..|].
  destruct (free_directory_exact t1 src T Hwt1 (Hht Hh)) as (v3 & Hf3 & Hm3 & _ & Hu3).
  destruct (free_directory_frame _ _ _ Hpr Hf3) as (_ & Htot & _ & Hcr).
  set (v4 := Vm (mem v3) (add_used (-1) (bitmap_clear (stk / PAGE_SIZE) (frames v3))) (kernel_pml4 v3) (cr3 v3)).
  assert (Hf4 : in_pmm (pmm_free stk) v3 = Done tt v4).
  { unfold in_pmm, pmm_free, zoom. by rewrite (proj2 (Z.eqb_neq stk 0)) by (destruct Hps; lia). }
  exists v4. split; [|split; [done|split; [done|split; [done|]]]].
  - unfold exec_commit. set (s := with_procs _ _).
    assert (Hy : procs s !! c = Some y) by apply lookup_insert_eq.
    rewrite (bind_Done _ _ _ _ _ (run_sched _ (Kernel s t h) _ _ (deref_Done _ _ _ Hy))).
    erewrite bind_Done by reflexivity. cbn [k_sched k_vm k_heap]. set (s' := with_tss _ _).
    assert (Hsw : paging_switch_directory (p_page_dir y) t = Done tt t1).
    { unfold paging_switch_directory. rewrite Hdy, (proj2 (Z.eqb_neq _ 0)) by (by apply p2v_nonzero).
      unfold modify. by rewrite v2p_p2v. }
    rewrite (bind_Done _ _ _ _ _ (run_vm _ (Kernel s' t h) _ _ Hsw)), Hdir.
    rewrite (bind_Done _ _ _ _ _ (run_vm _ (Kernel s' t1 h) _ _ Hf3)), Hst, v2p_p2v by done.
    apply (run_vm _ (Kernel s' v3 h) _ _ Hf4).
  - intros j Hj. cbn [v4 frames]. rewrite used_add_used, used_clear, andb_true_iff, negb_true_iff, bool_decide_eq_false, (Hu3 j Hj).
    unfold owns_page, PAGE_SIZE. split.
    + intros (Hn & Hu & Ht & Hlf). split; [done|]. intros [(q & a & Hq & Ha & E)|[(q & i & Hq & Hlq & Hp & E)|E]]; [by eapply Ht| |congruence].
      rewrite <- (Hl q i) in Hp, E by (by apply (user_path_snoc q)). by eapply Hlf.
    + intros [Hu Hn]. split; [intros ->; apply Hn; auto|]. split; [done|]. split.
      * intros q a Hq Ha E. apply Hn. left. eauto.
      * intros q i Hq Hlq Hp E. apply Hn. right; left. exists q, i.
        assert (Hlt1 : leaf t1 T q i = leaf (k_vm k) T q i) by (apply (Hl q i); by apply (user_path_snoc q)).
        by rewrite <- Hlt1.
Qed.

(** C13. process_exec() replaces the program of the current process. With a
    well-formed executable at the path it enters the new image and has left
    the process with its PID, its place in table, queue and tree, and the
    registers to enter ring 3 at the entry point of the file; its new address
    space is loaded and is exactly the segments of the file and a stack with
    its arguments, on pages that were free; of what was in use, exactly the
    pages of the old image are free again (its tables, the pages mapped in it
    and its kernel stack), and the rest holds what it held, the kernel heap
    apart, of which no block is kept. Only running out of memory stops it. *)
Theorem process_exec_replaces k w path argv bytes strs kroot c x src stk T :
  can_exec k kroot c x src stk T → path ≠ 0 → file_at path (Some bytes) (k, w) → program bytes → program_entry bytes ≠ 0 →
  Z.of_nat (length bytes) < 2 ^ 31 → args_at (k_vm k) argv strs →
  panics_or (process_exec path argv) (k, w) (λ r s', r = None ∧ ∃ v h w' stk' b T' F img,
    s' = (Kernel (with_tss (physical_to_virtual stk' + 4056)
            (with_procs <[c := entering bytes strs stk' (moved_to stk' b x)]> (k_sched k))) v h, w') ∧
    cr3 v = b ∧ has_program (k_vm k) v b stk' bytes strs T' F img ∧
    (∀ j, 0 < j → used (frames (k_vm k)) j = true → used (frames v) j = true ↔ ¬ owns_page (k_vm k) T stk j) ∧
    (∀ a i, page_ok a → used (frames (k_vm k)) (a / 4096) = true → ¬ heap_page a → 0 <= i < 4096 →
       rd8 (mem v) (a + i) = rd8 (mem (k_vm k)) (a + i)) ∧
    takes [] (k_heap k) h).
Proof.
  intros Hce Hpath Hf Hprog Hent Hlen [Ha Hs]. pose proof Hce as [Hkm [l HI] (Hcur & Hc0 & Hx) _ Hwf _ _ Hpg (_ & _ & Hsu)].
  unfold process_exec. rewrite (proj2 (Z.eqb_neq path 0)) by done.
  eapply panics_or_step; [by apply in_kernel_Done, (run_sched (gets current_process))|]. rewrite kernel_eta, Hcur.
  rewrite (proj2 (Z.eqb_neq c 0)) by done.
  eapply panics_or_step; [by apply in_kernel_Done, run_sched, deref_Done|]. rewrite kernel_eta.
  eapply panics_or_bind; [apply panics_or_zoom; by eapply exec_begin_spec|].
  intros r s1 (k1 & -> & stk' & b & -> & Hk1 & Hfm). cbn [fst snd] in *. cbv beta iota.
  destruct (fm_dir _ _ _ _ _ Hfm) as (Hpb & _).
  eapply panics_or_bind.
  { eapply (load_from_loads argv_strings path c argv bytes strs k1 w l (moved_to stk' b x) (k_vm k) kroot stk' b);
      [done|exact Hfm|rewrite Hk1; apply lookup_insert_eq|done|done|by rewrite Hk1| |done|done|done|done].
    eapply (file_at_kept _ _ k _ _ []); [exact Hf|apply Hfm|rewrite Hk1; by intros l' HI']. }
  intros e s2 (-> & t & h & w2 & T' & F & img & -> & Hh & Hkt & Hp). cbv beta. rewrite (proj2 (Z.eqb_neq _ 0)) by done.
  set (y := entering bytes strs stk' (moved_to stk' b x)).
  assert (Hy : p_page_dir y = physical_to_virtual b ∧ p_stack_top y = physical_to_virtual stk' + 4056).
  { unfold y, entering. by destruct (start_args strs) as [[? ?] ?]. }
  destruct Hy as [Hdy Hty].
  assert (Hk2 : Kernel (with_procs <[c := y]> (k_sched k1)) t h = Kernel (with_procs <[c := y]> (k_sched k)) t h).
  { rewrite Hk1. f_equal. unfold with_procs. destruct (k_sched k). cbn. by rewrite insert_insert_eq. }
  destruct (exec_commit_spec _ k kroot c x y src stk T b t h Hce Hkt Hk2 Hdy Hpb) as (v & Hcm & Hm & Htot & Hcr & Hu).
  eapply panics_or_step; [apply in_kernel_Done, Hcm|]. eapply panics_or_done; [reflexivity|]. split; [done|].
  exists v, h, w2, stk', b, T', F, img. rewrite Hty. split; [done|]. split; [done|]. split; [|split; [|split]].
  - eapply has_program_freed; [exact Hp|done|done|]. intros j Hj0 Hj Hjt.
    apply Hu; [done|]. split; [done|]. intros Ho. rewrite (owned_in_use _ _ _ _ _ Hwf Hpg Hsu Ho) in Hj. done.
  - intros j Hj Hjt. rewrite Hu by done. split; [by intros [_ ?]|]. intros Hn. split; [|done]. by apply (kept_used _ _ Hkt).
  - intros a i Hpa Hua Hha Hi. rewrite Hm. by apply (kept_mem _ _ Hkt).
  - intros l' HI'. apply Hh. by rewrite Hk1.
Qed.

End Spawning.

(** ** Witnesses: a file system of one file, at path 1 *)

Section OneFile.
Context (content : list Z).

#[local] Instance one_file_vfs : Vfs unit := {|
  vfs_open path _ := mret (if path =? 1 then 3 else -1);
  vfs_close _ := mret 0;
  vfs_read _ buf n := in_kernel (in_vm (store_bytes buf (take (Z.to_nat n) content))) ;; mret n;
  vfs_write _ _ _ := mret (-1);
  vfs_seek _ _ _ := mret 0;
  vfs_mkdir _ := mret (-1);
  vfs_readdir _ _ := mret (-1);
  vfs_delete _ := mret (-1);
  vfs_size _ := mret (Some (Z.of_nat (length content))) |}.

Lemma store_bytes_heap bs : ∀ buf t, HEAP_START <= buf → buf + Z.of_nat (length bs) <= HEAP_START + Heap.HEAP_SIZE →
  store_bytes buf bs t = Done tt (Vm (wr_bytes (buf - PHYSICAL_MAP_BASE) bs (mem t)) (frames t) (kernel_pml4 t) (cr3 t)).
Proof.
  induction bs as [|b bs IH]; intros buf t Hlo Hhi; [by destruct t|]. cbn [length store_bytes] in *.
  unfold store8, virtual_to_physical. rewrite u64_small by (unfold HEAP_START, PHYSICAL_MAP_BASE, Heap.HEAP_SIZE in *; lia).
  unfold set_mem, modify. run. rewrite IH by lia. cbn [mem frames kernel_pml4 cr3 wr_bytes].
  by replace (buf + 1 - PHYSICAL_MAP_BASE) with (buf - PHYSICAL_MAP_BASE + 1) by lia.
Qed.

#[local, refine] Instance one_file_server : FileServer unit := {|
  file_at path o s := o = if path =? 1 then Some content else None;
  opened fd bytes bl s := bytes = content ∧ bl = [];
  is_open fd bl s := bl = [] |}.
Proof.
  - done.
  - by intros fd bytes bl s [_ ?].
  - done.
  - intros path k [] H. cbv beta in H. unfold vfs_open, one_file_vfs. destruct (path =? 1); [done|].
    eapply panics_or_done; [reflexivity|]. split; [lia|]. exists (k_heap k), tt. split; [by rewrite kernel_eta|by intros l].
  - intros path bytes k [] H. cbv beta in H. unfold vfs_open, one_file_vfs. destruct (path =? 1); [|done].
    eapply panics_or_done; [reflexivity|]. split; [lia|]. exists (k_heap k), tt, [].
    split; [by rewrite kernel_eta|]. split; [by intros l|]. split; [congruence|done].
  - intros fd bytes bl k w [-> _]. done.
  - intros fd bytes bl k w buf l [-> ->] HI Hlen. cbn [app] in HI.
    destruct (heap_inv_region _ _ buf _ HI ltac:(by left)) as (H1 & H2 & _). unfold HEADER_SIZE in *.
    eexists _, w. unfold vfs_read, one_file_vfs. rewrite Nat2Z.id, take_ge by done. split; [|split; [|split; [|done]]].
    + erewrite bind_Done by (apply in_kernel_Done, run_vm, store_bytes_heap; lia). done.
    + split; [done|done|]. intros a Ha. apply rd8_wr_out. lia.
    + intros i Hi. unfold file. cbn [mem]. rewrite rd8_wr_bytes, decide_True by lia. do 2 f_equal. lia.
  - intros fd bl k w l -> HI. exists 0, (k_heap k), w. rewrite kernel_eta. split; [done|]. by intros l'.
Defined.

End OneFile.

(** The kernel of Fork's witness, on a machine with 64 pages after its heap. *)
Definition spawn_frames : pmm :=
  Pmm (list_to_map ((0, 0x1F) :: ((λ i, (i, 0xFF)) <$> seqZ 0x440 0x200))) 0x3240 0x1005.

Definition spawn_vm : vm := Vm ∅ spawn_frames (physical_to_virtual 0x1000) 0x3000.

Definition spawn_proc : process_t :=
  Proc 7 (cs "init") PROCESS_RUNNING zero_cpu (physical_to_virtual 0x2000) (physical_to_virtual 0x2000 + 4088)
    (physical_to_virtual 0x3000) 10 5 demo_parent 0x7000FF8 0x400010 1 0 true 0x600000 0x600000 0.

Definition spawn_kernel : kernel :=
  Kernel (Sched {[ demo_parent := spawn_proc ]} (demo_parent :: replicate 15 0) demo_parent 8 demo_parent demo_parent 0 0 [])
    spawn_vm demo_fork_heap.

Definition spawn_args (_ : Z) (_ : vm) : option (list (list Z)) := Some [cs "hi"].

Lemma heap_reserved_demo : forallb (λ i, bitmap_byte spawn_frames i =? 0xFF) (seqZ 0x440 0x200) = true.
Proof. vm_compute. reflexivity. Qed.

Lemma spawn_kernel_memory : kernel_memory spawn_vm 0x1000.
Proof.
  split.
  - unfold frames_ok. by_compute.
  - by_compute.
  - split; [done|]. split; [split; by_compute|by_compute].
  - intros c Hc. unfold used. pose proof heap_reserved_demo as H. rewrite forallb_forall in H.
    assert (Hr : 0x440 <= c / 4096 / 8 < 0x640).
    { unfold heap_page, HEAP_START, PHYSICAL_MAP_BASE, Heap.HEAP_SIZE in Hc. Z.div_mod_to_equations. lia. }
    specialize (H (c / 4096 / 8)). cbn [spawn_vm frames]. rewrite (proj1 (Z.eqb_eq _ _) (H ltac:(apply list_elem_of_In, elem_of_seqZ; lia))).
    pose proof (Z.mod_pos_bound (c / 4096) 8 ltac:(lia)) as Hm. change 0xFF with (Z.ones 8). rewrite Z.testbit_ones_nonneg by lia. lia.
Qed.

Lemma spawn_heap : heap_inv demo_fork_heap [(demo_parent, PROCESS_T_SIZE)].
Proof.
  apply heap_run_inv, (heap_run_kmalloc fresh_heap).
  - eapply heap_run_start, fresh_init.
  - unfold PROCESS_T_SIZE. lia.
  - vm_compute. reflexivity.
Qed.

Lemma spawn_current : procs (k_sched spawn_kernel) !! demo_parent = Some spawn_proc.
Proof. apply lookup_singleton_eq. Qed.

Lemma spawn_can_create : can_create spawn_kernel 0x1000.
Proof.
  split.
  - exists [(demo_parent, PROCESS_T_SIZE)]. split; [apply spawn_heap|]. intros p x Hp. cbn in Hp. apply (lookup_singleton_Some demo_parent p) in Hp as [<- _]. by left.
  - exact spawn_kernel_memory.
  - intros p Hp Hp0. change (p ∈ demo_parent :: replicate 15 0) in Hp. apply elem_of_cons in Hp as [->|Hp].
    + by rewrite spawn_current.
    + apply elem_of_replicate in Hp as [-> _]. done.
  - right. change (current_process (k_sched spawn_kernel)) with demo_parent. by rewrite spawn_current.
Qed.

Lemma spawn_queue : queue (k_sched spawn_kernel) [demo_parent].
Proof.
  split; [apply NoDup_singleton|by rewrite list_elem_of_singleton|done|done|]. split; [|done].
  exists spawn_proc. split; [apply spawn_current|done].
Qed.

Lemma demo_program : program demo_file.
Proof.
  split.
  - by_compute.
  - vm_compute. auto.
  - vm_compute. auto.
  - vm_compute. discriminate.
  - intros j Hj _. assert (j = 0) as ->.
    { change (field (contents demo_file) PHYSICAL_MAP_BASE 2 60) with 1 in Hj. lia. }
    split; vm_compute; intuition discriminate.
Qed.

Lemma demo_args : args_at spawn_args spawn_vm 0 (Some [cs "hi"]).
Proof.
  split; [done|]. intros strs [= <-]. constructor; [|constructor]. split; [by apply (bool_decide_unpack _)|by_compute].
Qed.

(** What the four calls come to on it. *)
Definition spawn_outcome (content : list Z) (path : Z) : outcome (kernel * unit) Z :=
  @process_spawn unit (elf_load_from_file (Vfs0 := one_file_vfs content) spawn_args) path (cs "hi") 0 (spawn_kernel, tt).
Definition exec_outcome (content : list Z) (path : Z) : outcome (kernel * unit) (option Z) :=
  @process_exec unit (elf_load_from_file (Vfs0 := one_file_vfs content) spawn_args) path 0 (spawn_kernel, tt).

Definition is_done {S A} (o : outcome S A) : bool := match o with Done _ _ => true | _ => false end.

Lemma demo_spawn_runs : is_done (spawn_outcome demo_file 1) = true ∧ is_done (spawn_outcome demo_file 2) = true.
Proof. split; vm_compute; reflexivity. Qed.

Lemma demo_exec_runs : is_done (exec_outcome demo_file 1) = true ∧ is_done (exec_outcome demo_file 2) = true.
Proof. split; vm_compute; reflexivity. Qed.

Lemma demo_entry : program_entry demo_file = 0x400000.
Proof. vm_compute. reflexivity. Qed.

Lemma spawn_can_exec : can_exec spawn_kernel 0x1000 demo_parent spawn_proc 0x3000 0x2000 {[ [] := 0x3000 ]}.
Proof.
  split.
  - exact spawn_kernel_memory.
  - eexists. exact spawn_heap.
  - split; [done|]. split; [by_compute|exact spawn_current].
  - reflexivity.
  - apply space_wf_empty; [apply spawn_kernel_memory|split; by_compute|by_compute|].
    intros i Hi. cbn [k_vm spawn_kernel spawn_vm mem]. by rewrite rd64_empty.
  - intros q c [_ <-]%lookup_singleton_Some. unfold heap_page. vm_compute. intros [H _]. by apply H.
  - intros q t i [<- _]%lookup_singleton_Some Hl. discriminate Hl.
  - intros q i _ Hl Hp. unfold leaf in Hp. rewrite lookup_singleton_ne in Hp by (by intros <-). discriminate Hp.
  - split; [done|]. split; [split; by_compute|by_compute].
Qed.

Lemma process_spawn_starts_witness : ∃ k' w' child,
  spawn_outcome demo_file 1 = Done 8 (k', w') ∧ queue (k_sched k') [demo_parent; child].
Proof.
  destruct demo_spawn_runs as [Hr _].
  destruct (@process_spawn_starts unit _ (one_file_server demo_file) spawn_args spawn_kernel tt 1 (cs "hi") 0 demo_file
    (Some [cs "hi"]) 0x1000 [demo_parent]) as [[msg H]|(r & s' & H & -> & k' & w' & child & n & slot & stk & b & T & F & img & -> & _ & _ & _ & Hq & _)].
  - split; [exact spawn_can_create|exact spawn_queue].
  - lia.
  - reflexivity.
  - exact demo_program.
  - rewrite demo_entry. lia.
  - by_compute.
  - exact demo_args.
  - assert (E : spawn_outcome demo_file 1 = Panic msg) by exact H. rewrite E in Hr. discriminate Hr.
  - exists k', w', child. split; [exact H|exact Hq].
Defined.

Lemma process_spawn_undoes_witness : ∃ k' w',
  spawn_outcome demo_file 2 = Done (-1) (k', w') ∧ k_sched k' = with_next_pid 9 (k_sched spawn_kernel).
Proof.
  destruct demo_spawn_runs as [_ Hr].
  destruct (@process_spawn_undoes unit _ (one_file_server demo_file) spawn_args spawn_kernel tt 2 (cs "hi") 0 None 0x1000)
    as [[msg H]|(r & s' & H & -> & k' & w' & -> & Hs & _)].
  - exact spawn_can_create.
  - lia.
  - reflexivity.
  - exact I.
  - assert (E : spawn_outcome demo_file 2 = Panic msg) by exact H. rewrite E in Hr. discriminate Hr.
  - exists k', w'. split; [exact H|exact Hs].
Defined.

Lemma process_exec_rolls_back_witness : ∃ v h w',
  exec_outcome demo_file 2 = Done (Some (-1)) (Kernel (k_sched spawn_kernel) v h, w').
Proof.
  destruct demo_exec_runs as [_ Hr].
  destruct (@process_exec_rolls_back unit _ (one_file_server demo_file) spawn_args spawn_kernel tt 2 0 None 0x1000 _ _ _ _ _ spawn_can_exec)
    as [[msg H]|(r & s' & H & -> & v & h & w' & -> & _)].
  - lia.
  - reflexivity.
  - exact I.
  - assert (E : exec_outcome demo_file 2 = Panic msg) by exact H. rewrite E in Hr. discriminate Hr.
  - exists v, h, w'. exact H.
Defined.

Lemma process_exec_replaces_witness : ∃ s v h w' stk b T F img,
  exec_outcome demo_file 1 = Done None (Kernel s v h, w') ∧ cr3 v = b ∧
  has_program spawn_vm v b stk demo_file (Some [cs "hi"]) T F img ∧ used (frames v) 2 = false ∧ used (frames v) 3 = false.
Proof.
  destruct demo_exec_runs as [Hr _].
  destruct (@process_exec_replaces unit _ (one_file_server demo_file) spawn_args spawn_kernel tt 1 0 demo_file
    (Some [cs "hi"]) 0x1000 _ _ _ _ _ spawn_can_exec)
    as [[msg H]|(r & s' & H & -> & v & h & w' & stk & b & T & F & img & -> & Hc & Hp & Hu & _)].
  - lia.
  - reflexivity.
  - exact demo_program.
  - rewrite demo_entry. lia.
  - by_compute.
  - exact demo_args.
  - assert (E : exec_outcome demo_file 1 = Panic msg) by exact H. rewrite E in Hr. discriminate Hr.
  - eexists _, v, h, w', stk, b, T, F, img. split; [exact H|]. split; [exact Hc|]. split; [exact Hp|]. split.
    + apply not_true_is_false. intros E. apply (Hu 2) in E; [|lia|by_compute]. apply E. right; right. reflexivity.
    + apply not_true_is_false. intros E. apply (Hu 3) in E; [|lia|by_compute]. apply E. left. exists [], 0x3000.
      split; [split; [constructor|exact I]|]. split; [reflexivity|reflexivity].
Defined.
