(* ===== verification/Syscall.v ===== *)
(** System calls: kernel/processes/syscall.c.

    A handler takes the saved registers of the caller and returns them with
    the result in RAX; a user pointer is a number that is passed on. The file
    system is seen through the interface [Vfs], whose operations may change
    the kernel state (a device read blocks). sys_wait() is given by one pass
    of its loop: [None] says that it blocked and gave up the CPU, and will look
    again when it is scheduled. cli/sti make a pass atomic with respect to the
    other handlers, which is what the model's steps are. *)

From S2P Require Import Prelude Pmm Heap Phys Paging Space Sched Process.

Record registers_t := Regs {
  reg_ds : Z; reg_r15 : Z; reg_r14 : Z; reg_r13 : Z; reg_r12 : Z; reg_r11 : Z; reg_r10 : Z; reg_r9 : Z; reg_r8 : Z; reg_rbp : Z; reg_rdi : Z; reg_rsi : Z;
  reg_rdx : Z; reg_rcx : Z; reg_rbx : Z; reg_rax : Z; reg_int_no : Z; reg_err_code : Z; reg_rip : Z; reg_cs : Z; reg_rflags : Z; reg_rsp : Z; reg_ss : Z }.

Definition set_reg_rax (v : Z) (r : registers_t) : registers_t :=
  Regs (reg_ds r) (reg_r15 r) (reg_r14 r) (reg_r13 r) (reg_r12 r) (reg_r11 r) (reg_r10 r) (reg_r9 r) (reg_r8 r) (reg_rbp r) (reg_rdi r) (reg_rsi r) (reg_rdx r) (reg_rcx r) (reg_rbx r) v (reg_int_no r) (reg_err_code r) (reg_rip r) (reg_cs r) (reg_rflags r) (reg_rsp r) (reg_ss r).

Definition MINUS_1 : Z := 0xFFFFFFFFFFFFFFFF.

Section Syscalls.
Context {W : Type} `{!Vfs W} `{!ElfLoader W} (iret_stub : Z).

Definition current : M (kernel * W) Z := in_kernel (in_sched (gets current_process)).
Definition update_current (f : process_t → process_t) : M (kernel * W) unit :=
  c ← current; in_kernel (in_sched (update c f)).

(** * Handlers *)

(** The parent of [x], blocked: the loop of sys_exit(). *)
Definition wake_parent (x : process_t) : M kernel unit :=
  if 0 <? p_parent_pid x then
    t ← in_sched (gets process_table);
    o ← find_process (λ y, (p_pid y =? p_parent_pid x) && bool_decide (p_state y = PROCESS_BLOCKED)) 0 t;
    match o with
    | Some (_, p) => in_sched (process_wake p)
    | None => mret tt
    end
  else mret tt.

(** The uninterrupted part of sys_exit(): dead first, then wake the parent. *)
Definition die (c : Z) : M kernel unit :=
  in_sched (process_exit c) ;;
  x ← in_sched (deref c);
  wake_parent x.

(** sys_exit(): it does not return to the caller. *)
Definition sys_exit (regs : registers_t) : M (kernel * W) unit :=
  c ← current;
  if c =? 0 then kpanic "sys_exit: no current process!"
  else
    in_kernel (in_sched (update c (set_exit_code (i32 (reg_rdi regs))))) ;;
    in_kernel (die c) ;;
    in_kernel (in_sched scheduler_yield).

Definition ret (v : Z) (regs : registers_t) : M (kernel * W) registers_t := mret (set_reg_rax (u64 v) regs).

Definition sys_write (regs : registers_t) : M (kernel * W) registers_t :=
  let fd := i32 (reg_rdi regs) in
  let count := u32 (i32 (reg_rdx regs)) in
  if reg_rsi regs =? 0 then ret (-1) regs
  else if 4096 <? count then ret (-1) regs
  else r ← vfs_write fd (reg_rsi regs) count; ret r regs.

Definition sys_read (regs : registers_t) : M (kernel * W) registers_t :=
  let fd := i32 (reg_rdi regs) in
  let count := u32 (reg_rdx regs) in
  if reg_rsi regs =? 0 then ret (-1) regs
  else if 4096 <? count then ret (-1) regs
  else r ← vfs_read fd (reg_rsi regs) count; ret r regs.

Definition sys_getpid (regs : registers_t) : M (kernel * W) registers_t :=
  pid ← in_kernel current_pid; ret pid regs.

Definition sys_yield (regs : registers_t) : M (kernel * W) registers_t :=
  in_kernel (in_sched scheduler_yield) ;; mret regs.

(** The registers of the caller, as sys_fork() saves them in its PCB. *)
Definition save_cpu (regs : registers_t) (x : process_t) : process_t :=
  let c := p_cpu x in
  set_cpu (Cpu (reg_rax regs) (reg_rbx regs) (reg_rcx regs) (reg_rdx regs) (reg_rsi regs) (reg_rdi regs)
    (reg_rbp regs) (reg_rsp regs) (reg_rip regs) (reg_rflags regs)
    (seg_cs c) (seg_ds c) (seg_ss c) (r12 c) (r13 c) (r14 c) (r15 c)) x.

Definition sys_fork (regs : registers_t) : M (kernel * W) registers_t :=
  c ← current;
  if c =? 0 then kpanic "sys_fork: no current process!"
  else
    update_current (save_cpu regs) ;;
    child_pid ← in_kernel (process_fork iret_stub);
    ret (u32 child_pid) regs.

(** One pass of the loop of sys_wait(). *)
Definition wait_pass : M kernel (option Z) :=
  c ← in_sched (gets current_process);
  x ← in_sched (deref c);
  t ← in_sched (gets process_table);
  o ← find_process (λ y, (p_parent_pid y =? p_pid x) && is_dead y) 0 t;
  match o with
  | Some (i, child) =>
      y ← in_sched (deref child);
      reap i child ;;
      mret (Some (p_exit_code y))
  | None =>
      o ← find_process (λ y, p_parent_pid y =? p_pid x) 0 t;
      match o with
      | None => mret (Some (-1))
      | Some _ =>
          in_sched (process_block c) ;;
          in_sched scheduler_yield ;;
          mret None
      end
  end.

Definition sys_wait_pass (regs : registers_t) : M (kernel * W) (option registers_t) :=
  o ← in_kernel wait_pass;
  match o with
  | Some v => r ← ret v regs; mret (Some r)
  | None => mret None
  end.

(** [None]: the process has entered its new image. *)
Definition sys_exec (regs : registers_t) : M (kernel * W) (option registers_t) :=
  if reg_rdi regs =? 0 then r ← ret (-1) regs; mret (Some r)
  else
    o ← process_exec (reg_rdi regs) (reg_rsi regs);
    match o with
    | None => mret None
    | Some _ => r ← ret (-1) regs; mret (Some r)
    end.

Definition sys_open (regs : registers_t) : M (kernel * W) registers_t :=
  if reg_rdi regs =? 0 then ret (-1) regs
  else fd ← vfs_open (reg_rdi regs) (u32 (reg_rsi regs)); ret fd regs.

Definition sys_close (regs : registers_t) : M (kernel * W) registers_t :=
  r ← vfs_close (i32 (reg_rdi regs)); ret r regs.

Definition sys_seek (regs : registers_t) : M (kernel * W) registers_t :=
  r ← vfs_seek (i32 (reg_rdi regs)) (u32 (reg_rsi regs)) (i32 (reg_rdx regs)); ret r regs.

Definition sys_mkdir (regs : registers_t) : M (kernel * W) registers_t :=
  if reg_rdi regs =? 0 then ret (-1) regs else r ← vfs_mkdir (reg_rdi regs); ret r regs.

Definition sys_readdir (regs : registers_t) : M (kernel * W) registers_t :=
  if reg_rsi regs =? 0 then ret (-1) regs
  else r ← vfs_readdir (i32 (reg_rdi regs)) (reg_rsi regs); ret r regs.

Definition sys_delete (regs : registers_t) : M (kernel * W) registers_t :=
  if reg_rdi regs =? 0 then ret (-1) regs else r ← vfs_delete (reg_rdi regs); ret r regs.

(** (a + 0xFFF) & ~0xFFF *)
Definition round_up (a : Z) : Z := Z.ldiff (u64 (a + 0xFFF)) 0xFFF.

Definition sys_heap_grow (regs : registers_t) : M (kernel * W) registers_t :=
  let increment := i64 (reg_rdi regs) in
  c ← current;
  if c =? 0 then ret (-1) regs
  else
    x ← in_kernel (in_sched (deref c));
    let old_end := p_heap_end x in
    if increment =? 0 then ret old_end regs
    else if increment <? 0 then ret (-1) regs
    else
      let new_end := u64 (old_end + increment) in
      in_kernel (in_vm (fresh_pages (p_page_dir x) (round_up old_end) (round_up new_end)
        (Z.lor (Z.lor PAGE_PRESENT PAGE_WRITABLE) PAGE_USER))) ;;
      update_current (set_heap_end new_end) ;;
      ret old_end regs.

(** (ms * TIMER_FREQUENCY + 999) / 1000 in uint64_t, kept in a uint32_t; at least 1. *)
Definition sleep_ticks (ms : Z) : Z :=
  let ticks := u32 (u64 (u64 (ms * TIMER_FREQUENCY) + 999) / 1000) in
  if ticks =? 0 then 1 else ticks.

Definition sys_sleep (regs : registers_t) : M (kernel * W) registers_t :=
  c ← current;
  if c =? 0 then mret regs
  else
    now ← in_kernel (in_sched timer_get_ticks);
    update_current (λ x, set_state PROCESS_SLEEPING
      (set_wake_at_tick (u32 (now + sleep_ticks (reg_rdi regs))) x)) ;;
    in_kernel (in_sched scheduler_yield) ;;
    mret regs.

(** * Dispatch *)

(** The calls that come back to their caller at once; SYS_EXIT, SYS_WAIT and
    SYS_EXEC may not. *)
Definition syscall_table : list (registers_t → M (kernel * W) (option registers_t)) :=
  let some h := λ r, r' ← h r; mret (Some r') in
  [ (λ r, sys_exit r ;; mret None); some sys_write; some sys_read; some sys_getpid; some sys_yield;
    some sys_fork; sys_wait_pass; sys_exec; some sys_open; some sys_close; some sys_seek;
    some sys_mkdir; some sys_readdir; some sys_delete; some sys_heap_grow; some sys_sleep ].

Definition syscall_handler (regs : registers_t) : M (kernel * W) (option registers_t) :=
  c ← current;
  (if c =? 0 then mret tt
   else update_current (λ x, set_user_eip (reg_rip regs) (set_user_esp (reg_rsp regs) x))) ;;
  let syscall_num := u32 (reg_rax regs) in
  match syscall_table !! Z.to_nat syscall_num with
  | None => r ← ret (-1) regs; mret (Some r)
  | Some h => h regs
  end.

End Syscalls.

(** * No wake-up is lost

    A parent sleeps in sys_wait() only while it has no dead child: [sys_exit]
    marks itself dead before it wakes the parent, and [wait_pass] looks for a
    dead child before it blocks, each without interruption. *)

(** A change that makes no process blocked or dead, gives none a new identity,
    and adds none to the table. *)
Definition calm (s s' : sched) : Prop :=
  (∀ p, p ≠ 0 → p ∈ process_table s' → p ∈ process_table s) ∧
  ∀ p y', procs s' !! p = Some y' → ∃ y, procs s !! p = Some y ∧
    p_pid y' = p_pid y ∧ p_parent_pid y' = p_parent_pid y ∧
    (p_state y' = PROCESS_BLOCKED → p_state y = PROCESS_BLOCKED) ∧
    (p_state y' = PROCESS_DEAD → p_state y = PROCESS_DEAD).

#[export] Instance calm_refl : Reflexive calm.
Proof. intros s. split; [done|]. eauto 10. Qed.

#[export] Instance calm_trans : Transitive calm.
Proof.
  intros s1 s2 s3 [T1 P1] [T2 P2]. split; [auto|].
  intros p y3 H3. destruct (P2 p y3 H3) as (y2 & H2 & E1 & E2 & E3 & E4).
  destruct (P1 p y2 H2) as (y1 & H1 & F1 & F2 & F3 & F4). exists y1. split_and!; [done|congruence|congruence|auto|auto].
Qed.

(** [preserves R m]: every run of [m] that ends well relates its states. *)
Definition preserves {S A} (R : S → S → Prop) (m : M S A) : Prop :=
  ∀ s a s', m s = Done a s' → R s s'.

Create HintDb preserves.

Section Preserves.
Context {S : Type} (R : S → S → Prop) `{!Reflexive R, !Transitive R}.

Lemma preserves_bind {A B} (m : M S A) (f : A → M S B) :
  preserves R m → (∀ a, preserves R (f a)) → preserves R (m ≫= f).
Proof.
  intros Hm Hf s b s'' H. apply bind_Done_inv in H as (a & s' & H1 & H2).
  etrans; [by eapply Hm|by eapply Hf].
Qed.

Lemma preserves_ret {A} (a : A) : preserves R (mret a).
Proof. intros s b s' H. by injection H as _ <-. Qed.

Lemma preserves_gets {A} (f : S → A) : preserves R (gets f).
Proof. intros s b s' H. by injection H as _ <-. Qed.

Lemma preserves_get : preserves R get.
Proof. intros s b s' H. by injection H as _ <-. Qed.

Lemma preserves_access {A} (o : option A) : preserves R (access o).
Proof. intros s b s' H. destruct o; [by injection H as _ <-|done]. Qed.

Lemma preserves_kpanic {A} msg : preserves R (kpanic (A := A) msg).
Proof. by intros s b s' H. Qed.

Lemma preserves_diverge {A} : preserves R (diverge (A := A)).
Proof. by intros s b s' H. Qed.

Lemma preserves_if {A} (b : bool) (m1 m2 : M S A) :
  preserves R m1 → preserves R m2 → preserves R (if b then m1 else m2).
Proof. by destruct b. Qed.

Lemma preserves_for_up n : ∀ i body, (∀ j, preserves R (body j)) → preserves R (for_up n i body).
Proof.
  induction n as [|n IH]; intros i body Hb; simpl; [apply preserves_ret|].
  apply preserves_bind; auto.
Qed.

End Preserves.

#[export] Hint Extern 1 (preserves _ (mret _)) => apply preserves_ret; exact _ : preserves.
#[export] Hint Extern 1 (preserves _ (gets _)) => apply preserves_gets; exact _ : preserves.
#[export] Hint Extern 1 (preserves _ get) => apply preserves_get; exact _ : preserves.
#[export] Hint Extern 1 (preserves _ (access _)) => apply preserves_access; exact _ : preserves.
#[export] Hint Extern 1 (preserves _ (kpanic _)) => apply preserves_kpanic : preserves.
#[export] Hint Extern 1 (preserves _ diverge) => apply preserves_diverge : preserves.
#[export] Hint Extern 2 (preserves _ (if _ then _ else _)) => apply preserves_if : preserves.

Lemma calm_bind {A B} (m : M sched A) (f : A → M sched B) :
  preserves calm m → (∀ a, preserves calm (f a)) → preserves calm (m ≫= f).
Proof. apply (preserves_bind calm). Qed.

Lemma calm_for_up n i body : (∀ j, preserves calm (body j)) → preserves calm (for_up n i body).
Proof. apply (preserves_for_up calm). Qed.

Lemma deref_calm p : preserves calm (deref p).
Proof. intros s a s' H. unfold deref in H. destruct (procs s !! p); by simplify_eq. Qed.

(** An update that keeps the identity and makes nothing blocked or dead. *)
Definition gentle (f : process_t → process_t) (x : process_t) : Prop :=
  p_pid (f x) = p_pid x ∧ p_parent_pid (f x) = p_parent_pid x ∧
  (p_state (f x) = PROCESS_BLOCKED → p_state x = PROCESS_BLOCKED) ∧
  (p_state (f x) = PROCESS_DEAD → p_state x = PROCESS_DEAD).

Lemma update_calm_at p f s a s' x :
  procs s !! p = Some x → gentle f x → update p f s = Done a s' → calm s s'.
Proof.
  intros Hx Hf H. unfold update in H. rewrite Hx in H. injection H as _ <-. split; [done|].
  intros q y'. cbn. rewrite lookup_insert. case_decide as Hq; intros H; simplify_eq.
  - exists x. unfold gentle in Hf. tauto.
  - eauto 10.
Qed.

Lemma update_calm p f : (∀ x, gentle f x) → preserves calm (update p f).
Proof.
  intros Hf s a s' H. destruct (procs s !! p) as [x|] eqn:Hx; [by eapply update_calm_at|].
  unfold update in H. by rewrite Hx in H.
Qed.

Lemma modify_calm f : (∀ s, calm s (f s)) → preserves calm (modify f).
Proof. intros Hf s a s' H. injection H as _ <-. apply Hf. Qed.

#[export] Hint Resolve deref_calm update_calm modify_calm : preserves.

Ltac gentle := first [intros ?; unfold gentle; cbn; tauto | intros ?; unfold gentle; cbn; split_and!; done].
Ltac calm := eauto 20 with preserves.

Lemma calm_same s s' : procs s' = procs s → process_table s' = process_table s → calm s s'.
Proof. intros H1 H2. split; rewrite ?H1, ?H2; [done|]. eauto 10. Qed.

Lemma wake_sleepers_calm : preserves calm scheduler_wake_sleepers.
Proof.
  unfold scheduler_wake_sleepers, timer_get_ticks. apply calm_bind; [calm|]. intros now.
  apply calm_for_up. intros j. apply calm_bind; [calm|]. intros t.
  apply calm_bind; [calm|]. intros p. apply preserves_if; [calm|].
  apply calm_bind; [calm|]. intros x. apply preserves_if; [|calm]. apply update_calm. gentle.
Qed.

Lemma reset_slice_calm p : preserves calm (reset_slice p).
Proof. unfold reset_slice. apply calm_bind; [calm|]. intros x. apply update_calm. gentle. Qed.

Lemma pick_loop_calm n old : ∀ new, preserves calm (pick_loop n old new).
Proof.
  induction n as [|n IH]; intros new; simpl; [calm|]. apply calm_bind; [calm|]. intros x.
  repeat apply preserves_if; calm.
Qed.

Lemma switch_to_calm old new : preserves calm (switch_to old new).
Proof.
  unfold switch_to. apply calm_bind; [apply reset_slice_calm|]. intros _.
  intros s a s' H. apply bind_Done_inv in H as (x & s1 & H1 & H).
  unfold deref in H1. destruct (procs s !! old) as [x0|] eqn:Hx; [|done]. injection H1 as <- <-.
  apply bind_Done_inv in H as ([] & s2 & H2 & H). transitivity s2.
  - eapply (update_calm_at old); [exact Hx| |exact H2]. unfold gentle. cbn. split_and!; try done;
      case_bool_decide; congruence.
  - revert s2 a s' H H2. intros s2 a s' H _. revert s2 a s' H.
    change (preserves calm (update new (set_state PROCESS_RUNNING) ;; modify (with_current new) ;;
      x ← deref new; modify (with_tss (p_stack_top x)) ;; modify (with_switch old new))).
    apply calm_bind; [apply update_calm; gentle|]. intros _.
    apply calm_bind; [apply modify_calm; intros; by apply calm_same|]. intros _.
    apply calm_bind; [calm|]. intros y.
    apply calm_bind; [apply modify_calm; intros; by apply calm_same|]. intros _.
    apply modify_calm; intros; by apply calm_same.
Qed.

Lemma tick_calm : preserves calm scheduler_tick.
Proof.
  unfold scheduler_tick. apply calm_bind; [apply wake_sleepers_calm|]. intros _.
  apply calm_bind; [calm|]. intros s. repeat apply preserves_if; [calm..|].
  cbv zeta. apply calm_bind; [apply update_calm; gentle|]. intros _.
  apply calm_bind; [calm|]. intros x. apply preserves_if; [calm|].
  apply calm_bind; [calm|]. intros _.
  apply calm_bind; [apply pick_loop_calm|]. intros n.
  apply calm_bind; [calm|]. intros y.
  repeat apply preserves_if; auto using reset_slice_calm, switch_to_calm.
Qed.

Lemma yield_calm : preserves calm scheduler_yield.
Proof.
  unfold scheduler_yield. apply calm_bind; [calm|]. intros s. apply preserves_if; [calm|].
  apply calm_bind; [apply update_calm; gentle|]. intros _. apply tick_calm.
Qed.

Lemma remove_loop_calm n p : ∀ prev node, preserves calm (remove_loop n p prev node).
Proof.
  induction n as [|n IH]; intros prev node; simpl; [calm|].
  apply calm_bind; [calm|]. intros x. apply preserves_if; [|apply IH].
  apply calm_bind; [apply update_calm; gentle|]. intros _. apply calm_bind; [calm|]. intros s.
  apply calm_bind; [calm|]. intros y.
  apply calm_bind; [apply preserves_if; [apply modify_calm; intros; by apply calm_same|calm]|]. intros _.
  apply calm_bind; [calm|]. intros s'. apply preserves_if; [apply modify_calm; intros; by apply calm_same|calm].
Qed.

Lemma scheduler_remove_calm p : preserves calm (scheduler_remove p).
Proof.
  unfold scheduler_remove. apply calm_bind; [calm|]. intros s. apply preserves_if; [calm|].
  apply preserves_if; [apply modify_calm; intros; by apply calm_same|apply remove_loop_calm].
Qed.

(** The same for the whole kernel state. *)
Definition kcalm (k k' : kernel) : Prop := calm (k_sched k) (k_sched k').

#[export] Instance kcalm_refl : Reflexive kcalm.
Proof. intros k. apply calm_refl. Qed.

#[export] Instance kcalm_trans : Transitive kcalm.
Proof. intros k1 k2 k3. apply calm_trans. Qed.

Lemma kcalm_bind {A B} (m : M kernel A) (f : A → M kernel B) :
  preserves kcalm m → (∀ a, preserves kcalm (f a)) → preserves kcalm (m ≫= f).
Proof. apply (preserves_bind kcalm). Qed.

Lemma in_sched_kcalm {A} (m : M sched A) : preserves calm m → preserves kcalm (in_sched m).
Proof. intros H k a k' Hk. apply zoom_Done_inv in Hk as (t & Ht & ->). by eapply H. Qed.

Lemma in_vm_kcalm {A} (m : M vm A) : preserves kcalm (in_vm m).
Proof. intros k a k' Hk. apply zoom_Done_inv in Hk as (t & _ & ->). apply calm_refl. Qed.

Lemma in_heap_kcalm {A} (m : M heap A) : preserves kcalm (in_heap m).
Proof. intros k a k' Hk. apply zoom_Done_inv in Hk as (t & _ & ->). apply calm_refl. Qed.

#[export] Hint Resolve in_sched_kcalm in_vm_kcalm in_heap_kcalm scheduler_remove_calm : preserves.

Lemma reap_kcalm i child : preserves kcalm (reap i child).
Proof.
  unfold reap. apply kcalm_bind; [calm|]. intros x. do 3 (apply kcalm_bind; [calm|]; intros _).
  apply kcalm_bind.
  { apply in_sched_kcalm, modify_calm. intros s. split; cbn; [|eauto 10].
    intros p Hp (j & Hj)%list_elem_of_lookup_1. destruct (decide (j = i)) as [->|Hne].
    - destruct (decide (i < length (process_table s))%nat) as [Hi|Hi].
      + rewrite list_lookup_insert_eq in Hj by done. congruence.
      + rewrite list_insert_ge in Hj by lia. by eapply list_elem_of_lookup_2.
    - rewrite list_lookup_insert_ne in Hj by done. by eapply list_elem_of_lookup_2. }
  intros _. apply kcalm_bind; [|calm]. apply in_sched_kcalm, modify_calm. intros s. split; cbn; [done|].
  intros p y' Hy. rewrite lookup_delete in Hy. case_decide; [done|]. eauto 10.
Qed.

(** The invariant, and what it needs: distinct PIDs. *)
Definition no_lost_wakeup (s : sched) : Prop :=
  ∀ p q x y, p ≠ 0 → q ≠ 0 → p ∈ process_table s → q ∈ process_table s →
    procs s !! p = Some x → procs s !! q = Some y →
    0 < p_pid x → p_state x = PROCESS_BLOCKED → p_parent_pid y = p_pid x → p_state y ≠ PROCESS_DEAD.

Definition pids_distinct (s : sched) : Prop :=
  ∀ p q x y, p ≠ 0 → q ≠ 0 → p ∈ process_table s → q ∈ process_table s →
    procs s !! p = Some x → procs s !! q = Some y → p_pid x = p_pid y → p = q.

Definition wait_inv (s : sched) : Prop := no_lost_wakeup s ∧ pids_distinct s.

Lemma calm_wait_inv s s' : calm s s' → wait_inv s → wait_inv s'.
Proof.
  intros [Ht Hp] [Hl Hd]. split.
  - intros p q x' y' Hp0 Hq0 Hpt Hqt Hx' Hy' Hpid Hb Hpar Hdead.
    destruct (Hp p x' Hx') as (x & Hx & E1 & _ & E3 & _).
    destruct (Hp q y' Hy') as (y & Hy & _ & F2 & _ & F4).
    eapply (Hl p q x y); eauto; congruence.
  - intros p q x' y' Hp0 Hq0 Hpt Hqt Hx' Hy' Heq.
    destruct (Hp p x' Hx') as (x & Hx & E1 & _). destruct (Hp q y' Hy') as (y & Hy & F1 & _).
    eapply (Hd p q x y); eauto; congruence.
Qed.

(** Between its death and the wake-up only the parent of [xd] may miss one. *)
Definition only_parent (s : sched) (xd : process_t) : Prop :=
  (∀ p q x y, p ≠ 0 → q ≠ 0 → p ∈ process_table s → q ∈ process_table s →
    procs s !! p = Some x → procs s !! q = Some y → 0 < p_pid x → p_state x = PROCESS_BLOCKED →
    p_parent_pid y = p_pid x → p_state y = PROCESS_DEAD → p_pid x = p_parent_pid xd) ∧
  pids_distinct s.

Lemma lookup_put (s : sched) c xd p y : procs (with_procs <[c := xd]> s) !! p = Some y →
  (p = c ∧ y = xd) ∨ (p ≠ c ∧ procs s !! p = Some y).
Proof. cbn. rewrite lookup_insert. case_decide; [left|right]; by simplify_eq. Qed.

Lemma pids_distinct_put s c xc xd : procs s !! c = Some xc → p_pid xd = p_pid xc → c ≠ 0 →
  c ∈ process_table s → pids_distinct s → pids_distinct (with_procs <[c := xd]> s).
Proof.
  intros Hc Hpid Hc0 Hct Hd p q x y Hp0 Hq0 Hpt Hqt Hx Hy Heq.
  apply lookup_put in Hx as [[-> ->]|[Hpc Hx]]; apply lookup_put in Hy as [[-> ->]|[Hqc Hy]];
    [done| | |by eapply Hd].
  - eapply (Hd c q xc y); eauto. congruence.
  - eapply (Hd p c x xc); eauto. congruence.
Qed.

Lemma exit_only_parent s c xc : c ≠ 0 → c ∈ process_table s → procs s !! c = Some xc → wait_inv s →
  only_parent (with_procs <[c := set_state PROCESS_DEAD xc]> s) (set_state PROCESS_DEAD xc).
Proof.
  intros Hc0 Hct Hc [Hl Hd]. split; [|by eapply pids_distinct_put].
  intros p q x y Hp0 Hq0 Hpt Hqt Hx Hy Hpid Hb Hpar Hdead.
  apply lookup_put in Hx as [[-> ->]|[Hpc Hx]]; [done|].
  apply lookup_put in Hy as [[-> ->]|[Hqc Hy]]; [done|]. exfalso.
  exact (Hl p q x y Hp0 Hq0 Hpt Hqt Hx Hy Hpid Hb Hpar Hdead).
Qed.

Lemma process_wake_blocked p x s s' : p ≠ 0 → procs s !! p = Some x → p_state x = PROCESS_BLOCKED →
  process_wake p s = Done tt s' → s' = with_procs <[p := set_state PROCESS_READY x]> s.
Proof.
  intros Hp Hx Hb. unfold process_wake. rewrite (proj2 (Z.eqb_neq p 0)) by done.
  rewrite (bind_Done _ _ _ _ _ (deref_Done _ _ _ Hx)), bool_decide_eq_true_2 by done. cbn [negb].
  rewrite (update_Done _ _ _ _ Hx). by intros [= <-].
Qed.

Lemma wake_parent_inv k xd k' : only_parent (k_sched k) xd → wake_parent xd k = Done tt k' → wait_inv (k_sched k').
Proof.
  intros [Hl Hd] H. unfold wake_parent in H. destruct (Z.ltb_spec 0 (p_parent_pid xd)) as [Hpos|Hneg].
  2:{ injection H as <-. split; [|done]. intros p q x y Hp0 Hq0 Hpt Hqt Hx Hy Hpid Hb Hpar Hdead.
      pose proof (Hl p q x y Hp0 Hq0 Hpt Hqt Hx Hy Hpid Hb Hpar Hdead). lia. }
  apply bind_Done_inv in H as (t0 & k1 & H1 & H). apply zoom_Done_inv in H1 as (t1 & H1 & ->).
  injection H1 as <- <-. replace (Kernel (k_sched k) (k_vm k) (k_heap k)) with k in H by (by destruct k).
  apply bind_Done_inv in H as (o & k2 & H2 & H). apply find_process_spec in H2 as [-> Ho].
  destruct o as [[j p0]|].
  - destruct Ho as (Hp0 & Hpt & x0 & Hx0 & Hf). apply andb_true_iff in Hf as [Hpid0%Z.eqb_eq Hb0%bool_decide_eq_true].
    apply zoom_Done_inv in H as (s2 & H & ->). cbn [k_sched].
    apply (process_wake_blocked _ _ _ _ Hp0 Hx0 Hb0) in H as ->. split; [|by eapply pids_distinct_put].
    intros p q x y Hpn Hqn Hpt' Hqt' Hx Hy Hpid Hb Hpar Hdead.
    apply lookup_put in Hx as [[-> ->]|[Hpp Hx]]; [done|].
    apply lookup_put in Hy as [[-> ->]|[Hqp Hy]]; [done|].
    pose proof (Hl p q x y Hpn Hqn Hpt' Hqt' Hx Hy Hpid Hb Hpar Hdead) as Heq.
    apply Hpp. eapply (Hd p p0 x x0); eauto. congruence.
  - injection H as <-. split; [|done]. intros p q x y Hpn Hqn Hpt' Hqt' Hx Hy Hpid Hb Hpar Hdead.
    pose proof (Hl p q x y Hpn Hqn Hpt' Hqt' Hx Hy Hpid Hb Hpar Hdead) as Heq.
    destruct (Ho p Hpn Hpt') as (x2 & Hx2 & Hf). rewrite Hx in Hx2. injection Hx2 as <-.
    apply andb_false_iff in Hf as [Hf%Z.eqb_neq|Hf%bool_decide_eq_false]; done.
Qed.

Lemma die_wait_inv k c a k' : c ≠ 0 → c ∈ process_table (k_sched k) →
  wait_inv (k_sched k) → die c k = Done a k' → wait_inv (k_sched k').
Proof.
  intros Hc0 Hct Hinv H. unfold die in H.
  apply bind_Done_inv in H as ([] & k1 & H1 & H). apply zoom_Done_inv in H1 as (s1 & H1 & ->).
  unfold process_exit in H1. rewrite (proj2 (Z.eqb_neq c 0)) in H1 by done. unfold update in H1.
  destruct (procs (k_sched k) !! c) as [xc|] eqn:Hc; [|done]. injection H1 as <-.
  apply bind_Done_inv in H as (x & k2 & H2 & H). apply zoom_Done_inv in H2 as (t & H2 & ->).
  unfold deref in H2. cbn [k_sched procs with_procs] in H2. rewrite lookup_insert_eq in H2. injection H2 as <- <-.
  destruct a. eapply wake_parent_inv; [|exact H]. by apply exit_only_parent.
Qed.

(** A blocking pass of sys_wait() blocks only a process without a dead child. *)
Lemma block_wait_inv k c x t : c ≠ 0 → procs (k_sched k) !! c = Some x → c ∈ process_table (k_sched k) →
  wait_inv (k_sched k) →
  (∀ p, p ≠ 0 → p ∈ process_table (k_sched k) → ∃ y, procs (k_sched k) !! p = Some y ∧
     (p_parent_pid y =? p_pid x) && is_dead y = false) →
  process_block c (k_sched k) = Done tt t → wait_inv t.
Proof.
  intros Hc0 Hx Hct [Hl Hd] Hno H. unfold process_block in H. rewrite (proj2 (Z.eqb_neq c 0)) in H by done.
  rewrite (update_Done _ _ _ _ Hx) in H. injection H as <-. split; [|by eapply pids_distinct_put].
  intros p q x' y Hpn Hqn Hpt Hqt Hx' Hy Hpid Hb Hpar Hdead.
  apply lookup_put in Hy as [[-> ->]|[Hqc Hy]]; [done|].
  apply lookup_put in Hx' as [[-> ->]|[Hpc Hx']]; [|by eapply (Hl p q x' y)].
  destruct (Hno q Hqn Hqt) as (y' & Hy' & Hf). rewrite Hy in Hy'. injection Hy' as <-.
  apply andb_false_iff in Hf as [Hf%Z.eqb_neq|Hf]; [done|].
  unfold is_dead in Hf. by apply bool_decide_eq_false in Hf.
Qed.

Lemma in_sched_Done {A} (m : M sched A) k a k' : in_sched m k = Done a k' →
  ∃ t, m (k_sched k) = Done a t ∧ k' = Kernel t (k_vm k) (k_heap k).
Proof. apply zoom_Done_inv. Qed.

Lemma wait_pass_inv k o k' : current_process (k_sched k) ≠ 0 →
  current_process (k_sched k) ∈ process_table (k_sched k) →
  wait_inv (k_sched k) → wait_pass k = Done o k' → wait_inv (k_sched k').
Proof.
  intros Hc0 Hct Hinv H. unfold wait_pass in H. set (c := current_process (k_sched k)) in *.
  assert (Hid : ∀ t, t = k_sched k → Kernel t (k_vm k) (k_heap k) = k) by (intros t ->; by destruct k).
  apply bind_Done_inv in H as (c' & k1 & H1 & H). apply in_sched_Done in H1 as (t & [= <- <-] & ->).
  rewrite Hid in H by done. fold c in H.
  apply bind_Done_inv in H as (x & k1 & H1 & H). apply in_sched_Done in H1 as (t & H1 & ->).
  unfold deref in H1. destruct (procs (k_sched k) !! c) as [x0|] eqn:Hx; [|done]. injection H1 as -> <-.
  rewrite Hid in H by done.
  apply bind_Done_inv in H as (t0 & k1 & H1 & H). apply in_sched_Done in H1 as (t & [= <- <-] & ->).
  rewrite Hid in H by done.
  apply bind_Done_inv in H as (o1 & k1 & H1 & H). apply find_process_spec in H1 as [-> Ho].
  destruct o1 as [[i child]|].
  { apply bind_Done_inv in H as (y & k2 & H2 & H). apply bind_Done_inv in H as ([] & k3 & H3 & H).
    injection H as _ <-. eapply calm_wait_inv; [|exact Hinv]. transitivity (k_sched k2).
    - by eapply in_sched_kcalm; [apply deref_calm|].
    - by eapply reap_kcalm. }
  apply bind_Done_inv in H as (o2 & k1 & H1 & H). apply find_process_spec in H1 as [-> _].
  destruct o2 as [_|]; [|by injection H as _ <-].
  apply bind_Done_inv in H as ([] & k1 & H1 & H). apply in_sched_Done in H1 as (t & H1 & ->).
  apply bind_Done_inv in H as ([] & k2 & H2 & H). injection H as _ <-.
  apply in_sched_Done in H2 as (t2 & H2 & ->). cbn [k_sched] in *.
  eapply calm_wait_inv; [by eapply yield_calm|]. by eapply block_wait_inv.
Qed.

(** The steps of the running system that touch process states: the timer, a
    yield, an interrupt handler's wake-up, a pass of sys_wait() and sys_exit()
    by the current process, which is one of the table. *)
Inductive kstep (k k' : kernel) : Prop :=
  | step_tick a : in_sched timer_irq k = Done a k' → kstep k k'
  | step_yield a : in_sched scheduler_yield k = Done a k' → kstep k k'
  | step_wake p a : in_sched (process_wake p) k = Done a k' → kstep k k'
  | step_wait o c : c = current_process (k_sched k) → c ≠ 0 → c ∈ process_table (k_sched k) →
      wait_pass k = Done o k' → kstep k k'
  | step_exit k1 a b c : c = current_process (k_sched k) → c ≠ 0 → c ∈ process_table (k_sched k) →
      die c k = Done a k1 → in_sched scheduler_yield k1 = Done b k' → kstep k k'.

(** C18. No wake-up is lost: along every interleaving of timer ticks, yields,
    wake-ups, waits and exits, from a state with distinct PIDs in which it
    holds, no process (of positive PID) is ever blocked in sys_wait() while
    it has a dead child to collect. *)
Theorem no_wakeup_lost k k' :
  wait_inv (k_sched k) → rtc kstep k k' →
  no_lost_wakeup (k_sched k') ∧ pids_distinct (k_sched k').
Proof.
  intros Hinv Hsteps. revert Hinv. induction Hsteps as [k|k1 k2 k3 Hstep _ IH]; [done|].
  intros Hinv. apply IH. clear IH. destruct Hstep as [a H|a H|p a H|o c -> Hc0 Hct H|k4 a b c -> Hc0 Hct H1 H2].
  - apply in_sched_Done in H as (t & H & ->). cbn. eapply calm_wait_inv; [|exact Hinv].
    unfold timer_irq in H. revert H. apply calm_bind; [|intros _; apply tick_calm].
    apply modify_calm. intros s. by apply calm_same.
  - apply in_sched_Done in H as (t & H & ->). cbn. eapply calm_wait_inv; [|exact Hinv]. by eapply yield_calm.
  - apply in_sched_Done in H as (t & H & ->). cbn. eapply calm_wait_inv; [|exact Hinv].
    revert H. unfold process_wake. apply preserves_if; [calm|]. apply calm_bind; [calm|]. intros x.
    apply preserves_if; [calm|]. apply update_calm. gentle.
  - by eapply wait_pass_inv.
  - apply in_sched_Done in H2 as (t & H2 & ->). cbn. eapply calm_wait_inv; [by eapply yield_calm|].
    by eapply die_wait_inv.
Qed.

(** * Steps of a handler on the state of the kernel *)

Lemma current_Done {W} (k : kernel) (w : W) : current (k, w) = Done (current_process (k_sched k)) (k, w).
Proof. unfold current. apply in_kernel_Done. by destruct k. Qed.

Lemma read_process_Done {W} (k : kernel) (w : W) p x : procs (k_sched k) !! p = Some x →
  in_kernel (W := W) (in_sched (deref p)) (k, w) = Done x (k, w).
Proof.
  intros Hx. apply in_kernel_Done. rewrite (run_sched _ _ _ _ (deref_Done _ _ _ Hx)). by rewrite kernel_eta.
Qed.

Lemma update_current_Done {W} (k : kernel) (w : W) f x :
  procs (k_sched k) !! current_process (k_sched k) = Some x →
  update_current f (k, w) = Done tt
    (Kernel (with_procs <[current_process (k_sched k) := f x]> (k_sched k)) (k_vm k) (k_heap k), w).
Proof.
  intros Hx. unfold update_current. rewrite (bind_Done _ _ _ _ _ (current_Done k w)).
  apply in_kernel_Done, run_sched. by apply update_Done.
Qed.

(** * Sleeping *)

Lemma sleep_ticks_spec ms : 0 <= ms <= 42949672950 →
  1 <= sleep_ticks ms < 2 ^ 32 ∧ ms <= 10 * sleep_ticks ms ∧ (ms = 0 ∨ 10 * sleep_ticks ms < ms + 10).
Proof.
  intros Hms. unfold sleep_ticks, TIMER_FREQUENCY. rewrite (u64_small (ms * 100)), (u64_small (_ + 999)) by lia.
  rewrite u32_small by (Z.div_mod_to_equations; lia).
  destruct (Z.eqb_spec ((ms * 100 + 999) / 1000) 0); Z.div_mod_to_equations; lia.
Qed.

(** What the sleeper looks like when it gives up the CPU. *)
Lemma sys_sleep_facts {W} (k : kernel) (w : W) regs l1 c l2 x :
  let s := k_sched k in
  queue s (l1 ++ c :: l2) → (length (l1 ++ c :: l2) <= 16)%nat → table_ok s →
  current_process s = c → procs s !! c = Some x →
  (∃ q y, q ∈ l2 ++ l1 ∧ procs s !! q = Some y ∧ runnable y) →
  0 <= reg_rdi regs <= 42949672950 → 0 <= timer_ticks s →
  timer_ticks s + sleep_ticks (reg_rdi regs) < 2 ^ 32 →
  ∃ k' x', sys_sleep regs (k, w) = Done regs (k', w) ∧
    current_process (k_sched k') ∈ l2 ++ l1 ∧ procs (k_sched k') !! c = Some x' ∧
    p_state x' = PROCESS_SLEEPING ∧ p_wake_at_tick x' = timer_ticks s + sleep_ticks (reg_rdi regs) ∧
    k_vm k' = k_vm k ∧ k_heap k' = k_heap k.
Proof.
  cbv zeta. intros Hq Hlen Htab Hcur Hx Hoth Hms Ht0 Htk. destruct (sleep_ticks_spec _ Hms) as (Hst & _).
  pose proof Hq as [_ Hnz _ _ Hc]. assert (Hc0 : c ≠ 0) by (intros ->; set_solver).
  set (x1 := set_state PROCESS_SLEEPING (set_wake_at_tick (timer_ticks (k_sched k) + sleep_ticks (reg_rdi regs)) x)).
  set (s1 := with_procs <[c := x1]> (k_sched k)).
  assert (Hlk : ∀ p, procs s1 !! p = if decide (c = p) then Some x1 else procs (k_sched k) !! p).
  { intros p. unfold s1. cbn. by rewrite lookup_insert. }
  assert (Hcr : c ∉ l2 ++ l1).
  { destruct Hq as [(_ & Hd & [Hc2 _]%list.NoDup_cons)%list.NoDup_app _ _ _ _]. apply not_elem_of_app.
    split; [done|]. intros H1. apply (Hd c H1). by left. }
  destruct (yield_away s1 l1 c l2 x1) as (s2 & t & Hy & Hin & Hx2 & _); try done.
  - destruct Hq as [Hnd _ Hh Htl _]. split; [done|done|done|done|]. eapply ring_chain_frame; [|exact Hc].
    intros p z _ Hz. rewrite Hlk. case_decide; [subst p|eauto]. eexists. split; [done|]. simpl. congruence.
  - destruct Htab as [Hl Hin]. split; [done|]. intros p Hp Hp0. destruct (Hin p Hp Hp0) as [z Hz].
    rewrite Hlk. case_decide; eauto.
  - by rewrite Hlk, decide_True.
  - by intros [|].
  - unfold woken, x1. cbn [p_wake_at_tick set_state set_wake_at_tick]. change (timer_ticks s1) with (timer_ticks (k_sched k)).
    rewrite (proj2 (Z.leb_gt _ _)) by lia. by rewrite andb_false_r.
  - destruct Hoth as (q & y & Hq1 & Hy1 & Hr). exists q, y. rewrite Hlk, decide_False by (intros ->; done). done.
  - exists (Kernel s2 (k_vm k) (k_heap k)), (set_ticks_remaining t x1). split; [|by split_and!].
    assert (Hnow : in_kernel (W := W) (in_sched timer_get_ticks) (k, w) = Done (timer_ticks (k_sched k)) (k, w)).
    { by destruct k. }
    rewrite <- Hcur in Hx. pose proof (update_current_Done k w (λ x, set_state PROCESS_SLEEPING
      (set_wake_at_tick (u32 (timer_ticks (k_sched k) + sleep_ticks (reg_rdi regs))) x)) x Hx) as Hupd.
    unfold sys_sleep. rewrite (bind_Done _ _ _ _ _ (current_Done k w)), Hcur, (proj2 (Z.eqb_neq c 0)) by done.
    rewrite (bind_Done _ _ _ _ _ Hnow), (bind_Done _ _ _ _ _ Hupd), (u32_small (_ + _)), Hcur by lia.
    fold x1 s1. by rewrite (bind_Done _ _ _ _ _ (in_kernel_Done _ _ _ _ _ (run_sched _ (Kernel s1 (k_vm k) (k_heap k)) _ _ Hy))).
Qed.

(** sys_sleep(ms) sleeps long enough and no longer than it must: the
    caller goes to state SLEEPING and another process runs; the timer makes
    it READY again at the tick it stored and at no earlier one, which is at
    least [ms] milliseconds and less than one tick of 10 ms more than [ms]
    after the call (one tick for [ms] = 0). The bounds say that the tick
    counter, a uint32_t, does not wrap while it sleeps. *)
Lemma sys_sleep_long_enough {W} (k : kernel) (w : W) regs l1 c l2 x :
  let s := k_sched k in let ms := reg_rdi regs in
  queue s (l1 ++ c :: l2) → (length (l1 ++ c :: l2) <= 16)%nat → table_ok s →
  current_process s = c → procs s !! c = Some x →
  (∃ q y, q ∈ l2 ++ l1 ∧ procs s !! q = Some y ∧ runnable y) →
  0 <= ms <= 42949672950 → 0 <= timer_ticks s → timer_ticks s + sleep_ticks ms < 2 ^ 32 →
  ∃ k' x', sys_sleep regs (k, w) = Done regs (k', w) ∧
    current_process (k_sched k') ≠ c ∧ procs (k_sched k') !! c = Some x' ∧ p_state x' = PROCESS_SLEEPING ∧
    ∀ now, p_state (woken now x') = PROCESS_READY ↔
      timer_ticks s + sleep_ticks ms <= now ∧ ms <= 10 * (now - timer_ticks s) ∧
      (ms = 0 ∨ 10 * sleep_ticks ms < ms + 10).
Proof.
  cbv zeta. intros Hq Hlen Htab Hcur Hx Hoth Hms Ht0 Htk.
  destruct (sys_sleep_facts k w regs l1 c l2 x Hq Hlen Htab Hcur Hx Hoth Hms Ht0 Htk)
    as (k' & x' & H1 & H2 & H3 & H4 & H5 & _).
  destruct (sleep_ticks_spec _ Hms) as (_ & Hge & Hlt).
  exists k', x'. split; [done|]. split; [|split; [done|split; [done|]]].
  - intros E. rewrite E in H2. destruct Hq as [(_ & Hd & [Hc2 _]%list.NoDup_cons)%list.NoDup_app _ _ _ _].
    apply elem_of_app in H2 as [H2|H2]; [done|]. apply (Hd c H2). by left.
  - intros now. unfold woken. rewrite H4, H5, bool_decide_eq_true_2 by done. cbn [andb].
    destruct (Z.leb_spec (timer_ticks (k_sched k) + sleep_ticks (reg_rdi regs)) now).
    + split; [|done]. intros _. split_and!; [done|lia|done].
    + rewrite H4. split; [done|]. intros (? & _). lia.
Qed.

(** * Refused requests *)

(** The requests the handlers turn down without doing anything: an unknown
    number, a null buffer or path, more than a page to copy, a negative heap
    increment. *)
Definition refused (regs : registers_t) : bool :=
  let n := u32 (reg_rax regs) in
  (16 <=? n)
  || (((n =? 1) || (n =? 2)) && ((reg_rsi regs =? 0) || (4096 <? u32 (reg_rdx regs))))
  || (((n =? 7) || (n =? 8) || (n =? 11) || (n =? 13)) && (reg_rdi regs =? 0))
  || ((n =? 12) && (reg_rsi regs =? 0))
  || ((n =? 14) && (i64 (reg_rdi regs) <? 0)).

(** The caller's user context, which every system call records first. *)
Definition entered (regs : registers_t) (k : kernel) : kernel :=
  let c := current_process (k_sched k) in
  if c =? 0 then k
  else Kernel (with_procs (alter (λ x, set_user_eip (reg_rip regs) (set_user_esp (reg_rsp regs) x)) c) (k_sched k))
         (k_vm k) (k_heap k).

Lemma u32_i32 z : u32 (i32 z) = u32 z.
Proof. word_lia. Qed.

Section Refusing.
Context {W : Type} `{!Vfs W} `{!ElfLoader W} (iret_stub : Z).

Lemma enter_Done regs k (w : W) :
  (current_process (k_sched k) ≠ 0 → is_Some (procs (k_sched k) !! current_process (k_sched k))) →
  ∃ h, syscall_handler iret_stub regs (k, w) = h (entered regs k, w) ∧
    h = match syscall_table iret_stub !! Z.to_nat (u32 (reg_rax regs)) with
        | None => r ← ret (-1) regs; mret (Some r)
        | Some h => h regs
        end.
Proof.
  intros Hcur. eexists. split; [|done]. unfold syscall_handler, entered.
  rewrite (bind_Done _ _ _ _ _ (current_Done k w)).
  destruct (Z.eqb_spec (current_process (k_sched k)) 0) as [|Hc]; [done|].
  destruct (Hcur Hc) as [x Hx]. rewrite (bind_Done _ _ _ _ _ (update_current_Done k w _ x Hx)).
  match goal with |- ?h _ = _ => apply (f_equal (λ t, h (Kernel t (k_vm k) (k_heap k), w))) end.
  unfold with_procs. f_equal. apply map_eq. intros q. rewrite lookup_insert, lookup_alter.
  case_decide; [|done]. subst q. by rewrite Hx.
Qed.

Lemma entered_current regs k :
  (current_process (k_sched k) ≠ 0 → is_Some (procs (k_sched k) !! current_process (k_sched k))) →
  let k' := entered regs k in
  current_process (k_sched k') ≠ 0 → is_Some (procs (k_sched k') !! current_process (k_sched k')).
Proof.
  unfold entered. destruct (Z.eqb_spec (current_process (k_sched k)) 0) as [|Hc]; [done|].
  intros Hcur _. cbn. rewrite lookup_alter_eq. by apply fmap_is_Some, Hcur.
Qed.

Lemma heap_grow_refused regs k (w : W) :
  (current_process (k_sched k) ≠ 0 → is_Some (procs (k_sched k) !! current_process (k_sched k))) →
  i64 (reg_rdi regs) < 0 →
  sys_heap_grow regs (k, w) = Done (set_reg_rax MINUS_1 regs) (k, w).
Proof.
  intros Hcur Hneg. unfold sys_heap_grow. rewrite (bind_Done _ _ _ _ _ (current_Done k w)).
  destruct (Z.eqb_spec (current_process (k_sched k)) 0) as [|Hc]; [done|].
  destruct (Hcur Hc) as [x Hx]. rewrite (bind_Done _ _ _ _ _ (read_process_Done k w _ x Hx)).
  destruct (Z.eqb_spec (i64 (reg_rdi regs)) 0); [lia|]. by rewrite (proj2 (Z.ltb_lt _ _) Hneg).
Qed.

(** A handler whose guard is true. *)
Ltac refuse H :=
  unfold sys_write, sys_read, sys_exec, sys_open, sys_mkdir, sys_readdir, sys_delete; rewrite ?u32_i32;
  repeat match type of H with
         | context [reg_rsi ?r =? 0] => destruct (reg_rsi r =? 0); [reflexivity|]
         | context [reg_rdi ?r =? 0] => destruct (reg_rdi r =? 0); [reflexivity|]
         | context [4096 <? u32 (reg_rdx ?r)] => destruct (4096 <? u32 (reg_rdx r)); [reflexivity|]
         end; discriminate H.

(** A refused request has no effect: the handler returns -1 in RAX with
    the other registers intact, the file system is not called, and the kernel
    state changes in the caller's recorded user context only. *)
Lemma syscall_refused regs k (w : W) :
  refused regs = true →
  (current_process (k_sched k) ≠ 0 → is_Some (procs (k_sched k) !! current_process (k_sched k))) →
  syscall_handler iret_stub regs (k, w) = Done (Some (set_reg_rax MINUS_1 regs)) (entered regs k, w).
Proof.
  intros Hr Hcur. destruct (enter_Done regs k w Hcur) as (h & -> & ->).
  pose proof (heap_grow_refused regs _ w (entered_current regs k Hcur)) as Hgrow.
  unfold refused in Hr. pose proof (u32_range (reg_rax regs)) as Hn.
  generalize dependent (u32 (reg_rax regs)). intros n Hr Hn.
  destruct (Z.leb_spec 16 n) as [Hge|Hlt]; [by rewrite lookup_ge_None_2 by (simpl; lia)|].
  assert (∃ i, n = Z.of_nat i ∧ (i < 16)%nat) as (i & -> & Hi) by (exists (Z.to_nat n); lia).
  rewrite Nat2Z.id. cbn in Hr |- *.
  do 16 (destruct i as [|i]; [simpl in Hr |- *; first [discriminate Hr | refuse Hr | apply Z.ltb_lt in Hr; by rewrite (bind_Done _ _ _ _ _ (Hgrow Hr))]|]); lia.
Qed.

End Refusing.

(** * Growing the heap *)

Lemma round_up_spec a : 0 <= a < 2 ^ 63 → round_up a = (a + 4095) / 4096 * 4096.
Proof.
  intros Ha. unfold round_up. rewrite u64_small by lia. change 0xFFF with (Z.ones 12) at 2.
  rewrite Z.ldiff_ones_r, Z.shiftl_mul_pow2, Z.shiftr_div_pow2 by lia. done.
Qed.

(** C35. sys_heap_grow(n) makes the heap n bytes longer: it returns the old
    end, moves the end, and gives every address between the two that was not
    on the last page of the old heap a page of its own, which was free before
    and holds only zeros. No other translation of the address space changes,
    and no page in use but the page tables of this space is written. Only
    running out of memory stops it. *)
Theorem sys_heap_grow_maps {W} (k : kernel) (w : W) regs root T c x :
  let old := p_heap_end x in let new := old + i64 (reg_rdi regs) in
  current_process (k_sched k) = c → c ≠ 0 → procs (k_sched k) !! c = Some x →
  p_page_dir x = physical_to_virtual root → space_wf (k_vm k) root T → used (frames (k_vm k)) 0 = true →
  0 <= old → 0 < i64 (reg_rdi regs) → new <= 2 ^ 47 →
  (∃ msg, sys_heap_grow regs (k, w) = Panic msg) ∨
  ∃ k' T' F, sys_heap_grow regs (k, w) = Done (set_reg_rax old regs) (k', w) ∧
    k_sched k' = with_procs <[c := set_heap_end new x]> (k_sched k) ∧ k_heap k' = k_heap k ∧
    covers ∅ F (round_up old / 4096) ((round_up new - round_up old) / 4096) ∧
    grown (k_vm k) (k_vm k') root 0 T T' F (λ _, 0) ∧
    ∀ v, round_up old <= v < new → ∃ f, F !! (v / 4096) = Some f ∧
      translation (k_vm k') T' v = f * 4096 + v mod 4096.
Proof.
  cbv zeta. intros Hcur Hc0 Hx Hdir Hwf H0 Hold Hinc Hnew. set (inc := i64 (reg_rdi regs)) in *.
  assert (Hro : round_up (p_heap_end x) = (p_heap_end x + 4095) / 4096 * 4096) by (apply round_up_spec; lia).
  assert (Hrn : round_up (p_heap_end x + inc) = (p_heap_end x + inc + 4095) / 4096 * 4096) by (apply round_up_spec; lia).
  set (p := (p_heap_end x + 4095) / 4096) in *. set (p' := (p_heap_end x + inc + 4095) / 4096) in *.
  assert (Hp : 0 <= p <= p' ∧ p' <= 2 ^ 35) by (unfold p, p'; Z.div_mod_to_equations; lia).
  unfold sys_heap_grow. rewrite (bind_Done _ _ _ _ _ (current_Done k w)), Hcur, (proj2 (Z.eqb_neq c 0)) by done.
  rewrite (bind_Done _ _ _ _ _ (read_process_Done k w c x Hx)). cbv zeta. fold inc.
  rewrite (proj2 (Z.eqb_neq inc 0)), (proj2 (Z.ltb_ge inc 0)), (u64_small (_ + inc)), Hro, Hrn, Hdir by lia.
  destruct (fresh_pages_spec (k_vm k) (k_vm k) root 0 T T ∅ (λ _, 0) p (p' - p) (Z.lor (Z.lor PAGE_PRESENT PAGE_WRITABLE) PAGE_USER)
    (grown_refl _ _ _ _ _ Hwf) H0) as [[msg H]|(t & T' & F & H & Hcov & Hg)]; [lia..|done| |];
    replace (p + (p' - p)) with p' in H by lia.
  { left. exists msg. apply bind_Panic. unfold in_kernel, in_vm, zoom. cbn [fst snd]. by rewrite H. }
  right. rewrite (bind_Done _ _ _ _ _ (in_kernel_Done _ _ _ _ _ (run_vm _ _ _ _ H))). clear H.
  pose proof Hx as Hx'. rewrite <- Hcur in Hx'.
  rewrite (bind_Done _ _ _ _ _ (update_current_Done (Kernel (k_sched k) t (k_heap k)) w _ x Hx')). cbn [k_sched k_vm k_heap].
  eexists _, T', F. split; [unfold ret; by rewrite u64_small by lia|]. cbn [k_sched k_vm k_heap].
  split; [by rewrite Hcur|]. split; [done|]. rewrite <- Z.mul_sub_distr_r, !Z.div_mul by lia. split; [done|]. split.
  - eapply grown_ext; [|exact Hg]. intros v. unfold img_zeros. by destruct (decide _).
  - intros v Hv. destruct (Hcov (v / 4096)) as [[f Hf] _]; [unfold p' in *; Z.div_mod_to_equations; lia|].
    exists f. split; [done|]. apply (grown_in _ _ _ _ _ _ _ _ Hg); [unfold user_addr; lia|done].
Qed.

(** A parent that waits while its child exits. *)
Definition demo_family : kernel :=
  let s := demo_sched in
  Kernel (with_procs <[200 := set_parent_pid 1 (demo_proc 2 100 PROCESS_READY)]> s)
    (Vm ∅ (Pmm ∅ 0 0) 0 0) fresh_heap.

Lemma demo_family_inv : wait_inv (k_sched demo_family).
Proof.
  assert (Ht : ∀ p, p ≠ 0 → p ∈ process_table (k_sched demo_family) → p = 100 ∨ p = 200).
  { intros p Hp0 Hp. cbn in Hp. rewrite !elem_of_cons in Hp. destruct Hp as [?|[?|Hp]]; [auto..|].
    exfalso. apply Hp0. set_solver. }
  split; intros p q x y Hp Hq [->| ->]%Ht [->| ->]%Ht Hx Hy; try done; vm_compute in Hx, Hy;
    simplify_eq; done.
Qed.

Lemma no_wakeup_lost_witness : ∃ k', rtc kstep demo_family k' ∧
  no_lost_wakeup (k_sched k') ∧
  p_state <$> procs (k_sched k') !! 100 = Some PROCESS_RUNNING ∧
  p_state <$> procs (k_sched k') !! 200 = Some PROCESS_DEAD.
Proof.
  assert (H : ∃ k', rtc kstep demo_family k' ∧
    p_state <$> procs (k_sched k') !! 100 = Some PROCESS_RUNNING ∧
    p_state <$> procs (k_sched k') !! 200 = Some PROCESS_DEAD).
  { eexists. split.
    - eapply rtc_l.
      { eapply (step_wait _ _ _ 100); [vm_compute; reflexivity|done|vm_compute; set_solver|vm_compute; reflexivity]. }
      eapply rtc_l; [|apply rtc_refl].
      eapply (step_exit _ _ _ _ _ 200);
        [vm_compute; reflexivity|done|vm_compute; set_solver|vm_compute; reflexivity|vm_compute; reflexivity].
    - split; vm_compute; reflexivity. }
  destruct H as (k' & Hk & H1 & H2). exists k'. split; [exact Hk|].
  split; [apply (no_wakeup_lost demo_family k' demo_family_inv Hk)|split; [exact H1|exact H2]].
Defined.

Definition demo_regs (rax rdi rsi rdx : Z) : registers_t :=
  Regs 0 0 0 0 0 0 0 0 0 0 rdi rsi rdx 0 0 rax 0x80 0 0x400010 0x2B 0x200 0x7FFFFFF0 0x23.

Lemma sys_sleep_long_enough_witness :
  ∃ k', sys_sleep (demo_regs 15 25 0 0) (demo_family, tt) = Done (demo_regs 15 25 0 0) (k', tt) ∧
    current_process (k_sched k') ≠ 100.
Proof.
  destruct (sys_sleep_long_enough demo_family tt (demo_regs 15 25 0 0) [] 100 [200] (demo_proc 1 200 PROCESS_RUNNING))
    as (k' & x' & H1 & H2 & _).
  - split; [|set_solver by lia|reflexivity|reflexivity|].
    + apply (bool_decide_unpack _). by vm_compute.
    + cbn. split_and!; [by eexists|by eexists|done].
  - simpl. lia.
  - split; [reflexivity|]. intros p Hp Hp0. assert (p = 100 ∨ p = 200) as [->| ->].
    { cbn in Hp. rewrite !elem_of_cons in Hp. destruct Hp as [?|[?|Hp]]; [auto..|].
      exfalso. apply Hp0. set_solver. }
    all: by eexists.
  - reflexivity.
  - vm_compute. reflexivity.
  - exists 200. eexists. split; [by left|]. split; [vm_compute; reflexivity|]. left. reflexivity.
  - by_compute.
  - by_compute.
  - by_compute.
  - exists k'. split; [exact H1|exact H2].
Defined.

#[local] Instance no_vfs : Vfs unit := {
  vfs_open _ _ := kpanic "no file system"; vfs_close _ := kpanic "no file system";
  vfs_read _ _ _ := kpanic "no file system"; vfs_write _ _ _ := kpanic "no file system";
  vfs_seek _ _ _ := kpanic "no file system"; vfs_mkdir _ := kpanic "no file system";
  vfs_readdir _ _ := kpanic "no file system"; vfs_delete _ := kpanic "no file system";
  vfs_size _ := kpanic "no file system" }.

#[local] Instance no_loader : ElfLoader unit := λ _ _ _, mret 0.

(** write(1, 0x5000, 4097) *)
Lemma syscall_refused_witness :
  syscall_handler 0 (demo_regs 1 1 0x5000 4097) (demo_family, tt)
  = Done (Some (set_reg_rax MINUS_1 (demo_regs 1 1 0x5000 4097)))
      (entered (demo_regs 1 1 0x5000 4097) demo_family, tt).
Proof. apply syscall_refused; [reflexivity|]. intros _. vm_compute. by eexists. Defined.

(** A process of heap end 0x400100 in an empty space of [demo_vm]. *)
Definition demo_user : kernel :=
  Kernel (with_procs <[100 := set_heap_end 0x400100 (set_page_dir (physical_to_virtual 0x3000)
            (demo_proc 1 200 PROCESS_RUNNING))]> demo_sched) demo_vm fresh_heap.

Lemma demo_grow_runs :
  (match sys_heap_grow (demo_regs 14 5000 0 0) (demo_user, tt) with Done _ _ => true | _ => false end) = true.
Proof. vm_compute. reflexivity. Qed.

Lemma sys_heap_grow_maps_witness : ∃ k' T' f,
  sys_heap_grow (demo_regs 14 5000 0 0) (demo_user, tt) = Done (set_reg_rax 0x400100 (demo_regs 14 5000 0 0)) (k', tt) ∧
  translation (k_vm k') T' 0x401234 = f * 4096 + 0x234.
Proof.
  pose proof demo_grow_runs as Hr.
  destruct (sys_heap_grow_maps demo_user tt (demo_regs 14 5000 0 0) 0x3000 _ 100
    (set_heap_end 0x400100 (set_page_dir (physical_to_virtual 0x3000) (demo_proc 1 200 PROCESS_RUNNING)))
    eq_refl ltac:(done) ltac:(vm_compute; reflexivity) eq_refl (demo_wf 0x3000 (or_intror eq_refl)) eq_refl
    ltac:(by_compute) ltac:(by_compute) ltac:(by_compute)) as [[msg H]|(k' & T' & l & H & _ & _ & _ & _ & Hv)].
  - rewrite H in Hr. discriminate Hr.
  - destruct (Hv 0x401234) as (f & _ & Hf); [by_compute|].
    exists k', T', f. split; [exact H|exact Hf].
Defined.
