(* ===== verification/Keyboard.v ===== *)
(** The keyboard: drivers/input/keyboard.c, and irq_handler() of
    kernel/architecture/x86_64/idt.c, which calls the timer, the scheduler and
    the keyboard.

    The driver keeps one key and one waiting process. The reader is modelled
    statement by statement, with interrupts between any two of them (the switch
    in scheduler_yield() is one step), and compared with a slot for one key
    that the handler fills and the reader empties. *)

From S2P Require Import Prelude Sched Process Descriptors Vga Syscall.

(** What an interrupt can change: the scheduler, the screen, the keyboard's
    two globals and the interrupt controller, as the bytes written to it. *)
Record console := Console {
  c_sched : sched; c_vga : vga; keyboard_waiting : Z; pending_key : Z; outs : list (Z * Z) }.

Definition on_sched {A} (m : M sched A) : M console A :=
  zoom c_sched (λ t s, Console t (c_vga s) (keyboard_waiting s) (pending_key s) (outs s)) m.
Definition on_screen {A} (m : M vga A) : M console A :=
  zoom c_vga (λ t s, Console (c_sched s) t (keyboard_waiting s) (pending_key s) (outs s)) m.
Definition set_waiting (p : Z) : M console unit :=
  modify (λ s, Console (c_sched s) (c_vga s) p (pending_key s) (outs s)).
Definition set_pending (c : Z) : M console unit :=
  modify (λ s, Console (c_sched s) (c_vga s) (keyboard_waiting s) c (outs s)).
Definition write_ports (l : list (Z * Z)) : M console unit :=
  modify (λ s, Console (c_sched s) (c_vga s) (keyboard_waiting s) (pending_key s) (outs s ++ l)).

Definition scancode_table : list Z :=
  [0; 0; 49; 50; 51; 52; 53; 54;
   55; 56; 57; 48; 45; 61; 8; 9;
   113; 119; 101; 114; 116; 121; 117; 105;
   111; 112; 91; 93; 10; 0; 97; 115;
   100; 102; 103; 104; 106; 107; 108; 59;
   39; 96; 0; 92; 122; 120; 99; 118;
   98; 110; 109; 44; 46; 47; 0; 42;
   0; 32; 0].

(** [scancode] is the byte read from the keyboard's port. *)
Definition keyboard_handler (scancode : Z) : M console unit :=
  if flag scancode 0x80 then mret tt
  else if scancode <? Z.of_nat (length scancode_table) then
    c ← access (scancode_table !! Z.to_nat scancode);
    if c =? 0 then mret tt
    else
      set_pending c ;;
      waiting ← gets keyboard_waiting;
      if waiting =? 0 then mret tt
      else on_sched (process_wake waiting) ;; set_waiting 0
  else mret tt.

Definition keyboard_wait (proc : Z) : M console unit :=
  set_waiting proc ;;
  on_sched (process_block proc) ;;
  write_ports (pic_send_eoi 1) ;;
  on_sched scheduler_yield.

(** One pass of the loop of keyboard_getchar() that nothing interrupts: the
    key, or [None] after a wait, when the process runs again and the loop goes
    round. The passes that are interrupted are the steps of [reader_step]. *)
Definition keyboard_getchar : M console (option Z) :=
  c ← gets pending_key;
  if c =? 0 then
    p ← on_sched (gets current_process);
    keyboard_wait p ;; mret None
  else set_pending 0 ;; mret (Some c).

(** One pass of dev_keyboard_read() with [got] in the buffer. *)
Definition dev_keyboard_read (size : Z) (got : list Z) : M console (list Z) :=
  if Z.of_nat (length got) <? size then
    c ← keyboard_getchar;
    mret (match c with Some c => got ++ [c] | None => got end)
  else mret got.

(** Where the reader is inside dev_keyboard_read(), keyboard_getchar() and
    keyboard_wait(): about to test pending_key, to register, to block, to
    acknowledge, to yield, to take the key, to clear the slot. An interrupt can
    come at any of them. *)
Inductive place := Testing | Registering | Blocking (proc : Z) | Acking | Yielding | Taking | Clearing (c : Z).

(** One statement of the reader, with [got] in its buffer of [size] bytes. *)
Definition reader_step (size : Z) (pl : place) (got : list Z) : M console (place * list Z) :=
  match pl with
  | Testing =>
      if Z.of_nat (length got) <? size then
        c ← gets pending_key; mret (if c =? 0 then Registering else Taking, got)
      else mret (Testing, got)
  | Registering => proc ← on_sched (gets current_process); set_waiting proc ;; mret (Blocking proc, got)
  | Blocking proc => on_sched (process_block proc) ;; mret (Acking, got)
  | Acking => write_ports (pic_send_eoi 1) ;; mret (Yielding, got)
  | Yielding => on_sched scheduler_yield ;; mret (Testing, got)
  | Taking => c ← gets pending_key; mret (Clearing c, got)
  | Clearing c => set_pending 0 ;; mret (Testing, got ++ [c])
  end.

Fixpoint reader_steps (n : nat) (size : Z) (pl : place) (got : list Z) : M console (place * list Z) :=
  match n with
  | O => mret (pl, got)
  | S n => '(pl, got) ← reader_step size pl got; reader_steps n size pl got
  end.

(** timer_handler() with the screen, and the dispatch of interrupts. *)
Definition timer_interrupt : M console unit :=
  on_sched Sched.timer_handler ;;
  ticks ← on_sched timer_get_ticks;
  on_screen (clock_tick ticks).

Definition irq_handler (int_no scancode : Z) : M console unit :=
  (if int_no =? 32 then timer_interrupt ;; on_sched scheduler_tick else mret tt) ;;
  (if int_no =? 33 then keyboard_handler scancode else mret tt) ;;
  write_ports (pic_send_eoi (int_no - 32)).

(** * The slot *)

#[export] Instance place_eq_dec : EqDecision place.
Proof. solve_decision. Defined.

(** The key of a scan code: releases and other codes have none. *)
Definition key_of (scancode : Z) : option Z :=
  if decide (0 <= scancode < 59) then
    match scancode_table !! Z.to_nat scancode with Some 0 => None | o => o end
  else None.

(** What happens while the process [r] reads: interrupts, its own statements,
    and whatever other processes do. *)
Inductive event := Tick | Press (scancode : Z) | Statement | Others.

(** The machine: what the interrupts change, and the reader. *)
Record machine := Machine { mc : console; at_place : place; got : list Z }.

Definition blocked (r : Z) (s : sched) : Prop := ∃ x, procs s !! r = Some x ∧ p_state x = PROCESS_BLOCKED.

(** A statement of the reader needs the processor; an interrupt can come between
    any two of them. The other processes change all but the keyboard, and block
    none but themselves. *)
Inductive step (r size : Z) : machine → event → machine → Prop :=
  | step_tick s pl g s' : irq_handler 32 0 s = Done tt s' → step r size (Machine s pl g) Tick (Machine s' pl g)
  | step_press s pl g sc s' : irq_handler 33 sc s = Done tt s' → step r size (Machine s pl g) (Press sc) (Machine s' pl g)
  | step_statement s pl g pl' g' s' : current_process (c_sched s) = r → reader_step size pl g s = Done (pl', g') s' →
      step r size (Machine s pl g) Statement (Machine s' pl' g')
  | step_others s pl g t v l : (blocked r t → blocked r (c_sched s)) →
      step r size (Machine s pl g) Others (Machine (Console t v (keyboard_waiting s) (pending_key s) l) pl g).

(** Sequences of steps, each of which [ok] allows. *)
Inductive steps (ok : machine → event → Prop) (r size : Z) : machine → list event → machine → Prop :=
  | steps_nil c : steps ok r size c [] c
  | steps_cons c e c' l c'' : ok c e → step r size c e c' → steps ok r size c' l c'' → steps ok r size c (e :: l) c''.

Definition anything (c : machine) (e : event) : Prop := True.

(** The key that is held: the one the reader is taking, or the pending one. *)
Definition slot_list (c : Z) : list Z := if c =? 0 then [] else [c].
Definition held (c : machine) : list Z := match at_place c with Clearing k => [k] | _ => slot_list (pending_key (mc c)) end.

(** No key is pressed while another is held. *)
Definition no_overrun (c : machine) (e : event) : Prop :=
  match e with Press sc => key_of sc = None ∨ held c = [] | _ => True end.

(** No key is pressed between the test that found none and the block. *)
Definition attended (c : machine) (e : event) : Prop :=
  match e, at_place c with
  | Press sc, (Registering | Blocking _) => key_of sc = None
  | _, _ => True
  end.

(** Interrupts come only between two passes, as they do when the reader is in a
    system call, where the processor has them off. *)
Definition masked (c : machine) (e : event) : Prop :=
  match e with Tick | Press _ => at_place c = Testing | _ => True end.

Definition keys (l : list event) : list Z := omap (λ e, match e with Press sc => key_of sc | _ => None end) l.

(** What the reader's place says of the slot. *)
Definition placed (c : machine) : Prop :=
  match at_place c with Taking => pending_key (mc c) ≠ 0 | Clearing k => k ≠ 0 | _ => True end.

(** [r] is the only reader: it is the one waiting, if any; nobody waits while
    there is a key; if it is blocked, it waits for one; and once it has seen
    that there is no key, there is none until it has blocked. *)
Record reader_inv (r : Z) (c : machine) : Prop := {
  ri_placed : placed c;
  ri_waiting : keyboard_waiting (mc c) = 0 ∨ keyboard_waiting (mc c) = r;
  ri_key : keyboard_waiting (mc c) = r → pending_key (mc c) = 0;
  ri_blocked : blocked r (c_sched (mc c)) → keyboard_waiting (mc c) = r;
  ri_window : match at_place c with
              | Registering => pending_key (mc c) = 0
              | Blocking proc => proc = r ∧ keyboard_waiting (mc c) = r
              | _ => True
              end }.

(** ** What the interrupts leave alone *)

(** A change that keeps the keyboard's globals and blocks no process. *)
Definition quiet (s s' : console) : Prop :=
  keyboard_waiting s' = keyboard_waiting s ∧ pending_key s' = pending_key s ∧ calm (c_sched s) (c_sched s').

#[export] Instance quiet_refl : Reflexive quiet.
Proof. intros s. by split_and!. Qed.

#[export] Instance quiet_trans : Transitive quiet.
Proof. intros s1 s2 s3 (A & B & C) (D & E & F). split_and!; [congruence|congruence|by etrans]. Qed.

Lemma quiet_bind {A B} (m : M console A) (f : A → M console B) :
  preserves quiet m → (∀ a, preserves quiet (f a)) → preserves quiet (m ≫= f).
Proof. apply (preserves_bind quiet). Qed.

Lemma on_sched_quiet {A} (m : M sched A) : preserves calm m → preserves quiet (on_sched m).
Proof. intros Hm s a s' H. apply zoom_Done_inv in H as (t & H & ->). split_and!; [done|done|by eapply Hm]. Qed.

Lemma on_screen_quiet {A} (m : M vga A) : preserves quiet (on_screen m).
Proof. intros s a s' H. apply zoom_Done_inv in H as (t & H & ->). by split_and!. Qed.

Lemma write_ports_quiet l : preserves quiet (write_ports l).
Proof. intros s a s' H. injection H as _ <-. by split_and!. Qed.

#[export] Hint Resolve on_sched_quiet on_screen_quiet write_ports_quiet tick_calm yield_calm : preserves.

Lemma timer_interrupt_quiet : preserves quiet (timer_interrupt ;; on_sched scheduler_tick).
Proof.
  unfold timer_interrupt, Sched.timer_handler, timer_get_ticks.
  apply quiet_bind; [|calm]. apply quiet_bind; [|intros _; apply quiet_bind; calm].
  apply on_sched_quiet, modify_calm. intros s. by apply calm_same.
Qed.

Lemma irq_timer_quiet sc : preserves quiet (irq_handler 32 sc).
Proof. change (preserves quiet ((timer_interrupt ;; on_sched scheduler_tick) ;; mret tt ;; write_ports (pic_send_eoi 0))).
  apply quiet_bind; [apply timer_interrupt_quiet|]. intros _. apply quiet_bind; calm.
Qed.

Lemma calm_blocked r s s' : calm s s' → blocked r s' → blocked r s.
Proof. intros [_ Hp] (x' & Hx' & Hb). destruct (Hp r x' Hx') as (x & Hx & _ & _ & H & _). exists x. auto. Qed.

Lemma quiet_inv r s s' pl g : quiet s s' → reader_inv r (Machine s pl g) → reader_inv r (Machine s' pl g).
Proof.
  intros (Hw & Hk & Hc) [H0 H1 H2 H3 H4]. split; unfold placed in *; cbn in *; rewrite ?Hw, ?Hk; [done|done|done| |done].
  intros Hb. apply H3. by eapply calm_blocked.
Qed.

(** ** The handler *)

Lemma key_of_handler sc s : keyboard_handler sc s =
  match key_of sc with
  | None => Done tt s
  | Some c => (set_pending c ;; waiting ← gets keyboard_waiting;
      if waiting =? 0 then mret tt else on_sched (process_wake waiting) ;; set_waiting 0) s
  end.
Proof.
  unfold keyboard_handler, key_of. change (Z.of_nat (length scancode_table)) with 59. case_decide as Hr.
  - rewrite (proj2 (Z.ltb_lt _ _)) by lia.
    assert (flag sc 128 = false) as ->.
    { revert Hr. clear. intros Hr. unfold flag. change 128 with (Z.shiftl 1 7).
      replace (Z.land sc (Z.shiftl 1 7)) with 0; [done|]. symmetry. apply Z.bits_inj'. intros n Hn.
      rewrite Z.land_spec, Z.shiftl_spec, Z.bits_0 by done. destruct (Z.testbit sc n) eqn:Hb; [|done]. simpl.
      destruct (Z.eq_dec n 7) as [->|Hne].
      - apply Z.testbit_true in Hb; [|lia]. rewrite Z.div_small in Hb by lia. done.
      - destruct (Z.lt_ge_cases n 7); [by rewrite Z.testbit_neg_r by lia|]. apply Z.bits_above_log2; simpl; lia. }
    destruct (lookup_lt_is_Some_2 scancode_table (Z.to_nat sc)) as [c Hc]; [simpl; lia|]. rewrite Hc.
    erewrite bind_Done by reflexivity. destruct (Z.eqb_spec c 0) as [->|Hne]; [done|]. by destruct c.
  - destruct (flag sc 128); [done|]. destruct (Z.ltb_spec sc 59); [|done].
    replace (Z.to_nat sc) with 0%nat by lia. reflexivity.
Qed.

Lemma key_of_nonzero sc c : key_of sc = Some c → c ≠ 0.
Proof. unfold key_of. case_decide; [|done]. destruct (scancode_table !! Z.to_nat sc) as [[]|]; naive_solver. Qed.

(** The waiting process after the wake-up. *)
Definition wake_one (p : Z) (s : sched) : sched :=
  match procs s !! p with
  | Some x => if (p =? 0) || negb (bool_decide (p_state x = PROCESS_BLOCKED)) then s
              else with_procs <[p := set_state PROCESS_READY x]> s
  | None => s
  end.

Lemma process_wake_one p s : p = 0 ∨ is_Some (procs s !! p) → process_wake p s = Done tt (wake_one p s).
Proof.
  intros Hp. unfold process_wake, wake_one. destruct (Z.eqb_spec p 0) as [->|Hne].
  - by destruct (procs s !! 0).
  - destruct Hp as [?|[x Hx]]; [done|]. rewrite Hx, (bind_Done _ _ _ _ _ (deref_Done _ _ _ Hx)). simpl.
    destruct (bool_decide _); [|done]. simpl. by apply update_Done.
Qed.

Lemma wake_one_blocked p r s : blocked r (wake_one p s) → blocked r s ∧ (p = 0 ∨ r ≠ p).
Proof.
  unfold wake_one. intros Hb. destruct (procs s !! p) as [x|] eqn:Hx.
  2:{ split; [done|]. right. intros ->. destruct Hb as (y & Hy & _). congruence. }
  destruct (Z.eqb_spec p 0) as [->|Hne]; [by split; [|left]|]. case_bool_decide as Hbl; simpl in Hb.
  - destruct Hb as (y & Hy & Hyb). cbn in Hy. rewrite lookup_insert in Hy. case_decide as Hpr; simplify_eq.
    split; [by exists y|]. by right.
  - split; [done|]. right. intros ->. destruct Hb as (y & Hy & Hyb). congruence.
Qed.

Definition press_key (c : Z) (s : console) : console :=
  Console (wake_one (keyboard_waiting s) (c_sched s)) (c_vga s) 0 c (outs s).

Lemma handler_press sc c s : key_of sc = Some c → keyboard_waiting s = 0 ∨ is_Some (procs (c_sched s) !! keyboard_waiting s) →
  keyboard_handler sc s = Done tt (press_key c s).
Proof.
  intros Hk Hw. rewrite key_of_handler, Hk. erewrite bind_Done by reflexivity. erewrite bind_Done by reflexivity.
  cbn [keyboard_waiting c_sched c_vga outs]. unfold press_key. destruct (Z.eqb_spec (keyboard_waiting s) 0) as [Hz|Hz].
  - unfold mret, M_ret. do 2 f_equal; [|done]. unfold wake_one. rewrite Hz, Z.eqb_refl. by destruct (procs _ !! 0).
  - destruct Hw as [?|Hw]; [done|]. erewrite bind_Done by (apply zoom_Done, process_wake_one; by right). done.
Qed.

Lemma handler_inv sc s s' : keyboard_handler sc s = Done tt s' →
  s' = match key_of sc with Some c => press_key c s | None => s end.
Proof.
  intros H. destruct (key_of sc) as [c|] eqn:Hk.
  - rewrite (handler_press _ _ _ Hk) in H; [by injection H as <-|].
    destruct (Z.eqb_spec (keyboard_waiting s) 0) as [Hz|Hz]; [by left|right].
    rewrite key_of_handler, Hk in H. apply bind_Done_inv in H as ([] & s1 & H1 & H). injection H1 as <-.
    apply bind_Done_inv in H as (w & s2 & H2 & H). injection H2 as <- <-. cbn [keyboard_waiting] in H.
    rewrite (proj2 (Z.eqb_neq _ _) Hz) in H. apply bind_Done_inv in H as ([] & s3 & H3 & _).
    apply zoom_Done_inv in H3 as (t & H3 & _). unfold process_wake in H3. rewrite (proj2 (Z.eqb_neq _ _) Hz) in H3.
    apply bind_Done_inv in H3 as (x & t' & H3 & _). unfold deref in H3. cbn in H3. by destruct (procs _ !! _).
  - rewrite key_of_handler, Hk in H. by injection H as <-.
Qed.

Lemma press_inv r c s pl g : r ≠ 0 → c ≠ 0 → match pl with Registering | Blocking _ => False | _ => True end →
  reader_inv r (Machine s pl g) → reader_inv r (Machine (press_key c s) pl g).
Proof.
  intros Hr Hc Hpl [H0 H1 H2 H3 H4]. split; unfold placed in *; cbn in *.
  - by destruct pl.
  - by left.
  - congruence.
  - intros [Hb Hne]%wake_one_blocked. specialize (H3 Hb). destruct Hne; congruence.
  - by destruct pl.
Qed.

Lemma press_slot c s : pending_key (press_key c s) = c.
Proof. done. Qed.

Lemma irq_press sc s s' : irq_handler 33 sc s = Done tt s' →
  ∃ s1, s1 = match key_of sc with Some c => press_key c s | None => s end ∧ write_ports [(PIC1_COMMAND, PIC_EOI)] s1 = Done tt s'.
Proof.
  intros H. change (irq_handler 33 sc) with (mret tt ;; keyboard_handler sc ;; write_ports [(PIC1_COMMAND, PIC_EOI)] : M console unit) in H.
  erewrite bind_Done in H by reflexivity. apply bind_Done_inv in H as ([] & s1 & H1 & H).
  exists s1. split; [by apply handler_inv|done].
Qed.

Lemma irq_press_Done sc s : keyboard_waiting s = 0 ∨ is_Some (procs (c_sched s) !! keyboard_waiting s) →
  irq_handler 33 sc s = write_ports [(PIC1_COMMAND, PIC_EOI)] match key_of sc with Some c => press_key c s | None => s end.
Proof.
  intros Hw. change (irq_handler 33 sc) with (mret tt ;; keyboard_handler sc ;; write_ports [(PIC1_COMMAND, PIC_EOI)] : M console unit).
  erewrite bind_Done by reflexivity. destruct (key_of sc) as [c|] eqn:Hk.
  - by rewrite (bind_Done _ _ _ _ _ (handler_press sc c s Hk Hw)).
  - erewrite bind_Done; [done|]. rewrite key_of_handler. by rewrite Hk.
Qed.

(** ** The reader *)

(** Left alone, the statements of a pass are those of the functions. *)
Lemma reader_undisturbed size g s : Z.of_nat (length g) < size →
  reader_steps (if pending_key s =? 0 then 5 else 3) size Testing g s = (g ← dev_keyboard_read size g; mret (Testing, g)) s.
Proof.
  intros Hl. apply Z.ltb_lt in Hl. destruct (pending_key s =? 0) eqn:Hk;
    unfold dev_keyboard_read, keyboard_getchar, keyboard_wait, reader_steps, reader_step;
    generalize process_block scheduler_yield; intros block yield; unfold mbind, M_bind, mret, M_ret, gets;
    repeat (cbn; rewrite ?Hl, ?Hk); [|done].
  repeat match goal with |- context [match on_sched ?m ?u with Done _ _ => _ | _ => _ end] => destruct (on_sched m u); cbn; [|done..] end.
  done.
Qed.

Lemma held_slot c pl g : match pl with Clearing _ => False | _ => True end → held (Machine c pl g) = slot_list (pending_key c).
Proof. by destruct pl. Qed.

(** A statement of the reader keeps what is read and held, in order. *)
Lemma statement_keeps size pl g s pl' g' s' : placed (Machine s pl g) → reader_step size pl g s = Done (pl', g') s' →
  placed (Machine s' pl' g') ∧ g' ++ held (Machine s' pl' g') = g ++ held (Machine s pl g).
Proof.
  intros H0 H. unfold placed in *. cbn in H0. destruct pl; cbn [reader_step] in H.
  - destruct (_ <? size); [|by injection H as <- <- <-]. injection H as <- <- <-.
    destruct (Z.eqb_spec (pending_key s) 0); cbn; by split.
  - injection H as <- <- <-. by split.
  - apply bind_Done_inv in H as ([] & s1 & H1 & H). injection H as <- <- <-. apply zoom_Done_inv in H1 as (t & _ & ->). by split.
  - injection H as <- <- <-. by split.
  - apply bind_Done_inv in H as ([] & s1 & H1 & H). injection H as <- <- <-. apply zoom_Done_inv in H1 as (t & _ & ->). by split.
  - injection H as <- <- <-. cbn. split; [done|]. unfold slot_list. by rewrite (proj2 (Z.eqb_neq _ _) H0).
  - injection H as <- <- <-. cbn. split; [done|]. by rewrite app_nil_r.
Qed.

(** What a step does to what is read and held: a key pressed replaces the one
    held, unless the reader has taken that and not yet cleared the slot. *)
Lemma step_keeps r size c e c' : placed c → step r size c e c' →
  placed c' ∧
  got c' ++ held c' `sublist_of` (got c ++ held c) ++ keys [e] ∧
  (no_overrun c e → got c' ++ held c' = (got c ++ held c) ++ keys [e]).
Proof.
  intros Hc Hst. revert Hc. destruct Hst as [s pl g s' H|s pl g sc s' H|s pl g pl' g' s' _ H|s pl g t v l _]; intros Hc; unfold placed in *; cbn [keys omap list_omap no_overrun got].
  - destruct (irq_timer_quiet 0 s tt s' H) as (_ & Hk & _). unfold held. cbn in *. rewrite Hk, app_nil_r.
    split; [exact Hc|]. by split.
  - apply irq_press in H as (s1 & -> & H). injection H as <-. destruct (key_of sc) as [k|] eqn:Hk.
    2:{ rewrite app_nil_r. split; [exact Hc|]. by split. }
    pose proof (key_of_nonzero _ _ Hk) as Hk0. unfold held, slot_list. destruct pl as [| | | | | |h]; cbn in *;
      rewrite ?(proj2 (Z.eqb_neq k 0) Hk0); (split; [done|]);
      [split; [rewrite <- app_assoc; apply sublist_app; [done|by apply sublist_inserts_l]|]; intros [?|Hh]; [done|by rewrite Hh, app_nil_r]..|].
    split; [by apply sublist_inserts_r|]. by intros [?|?].
  - destruct (statement_keeps _ _ _ _ _ _ _ Hc H) as [Hc' ->]. rewrite app_nil_r. split; [exact Hc'|]. by split.
  - rewrite app_nil_r. split; [exact Hc|]. by split.
Qed.

Lemma keys_cons e l : keys (e :: l) = keys [e] ++ keys l.
Proof. unfold keys. cbn. destruct e; try done. by destruct (key_of _). Qed.

Lemma steps_keep ok r size c l c' : steps ok r size c l c' → placed c →
  got c' ++ held c' `sublist_of` (got c ++ held c) ++ keys l ∧
  ((∀ d e, ok d e → no_overrun d e) → got c' ++ held c' = (got c ++ held c) ++ keys l).
Proof.
  induction 1 as [c|c e c1 l c2 Hok H1 _ IH]; intros Hc; [by rewrite app_nil_r|].
  destruct (step_keeps _ _ _ _ _ Hc H1) as (Hc1 & Hsub & Heq). destruct (IH Hc1) as [Hsub' Heq']. rewrite keys_cons, app_assoc. split.
  - etrans; [exact Hsub'|]. by apply sublist_app.
  - intros Hall. by rewrite (Heq' Hall), Heq by auto.
Qed.

(** ** The sleeper *)

Lemma statement_inv r size pl g s pl' g' s' : current_process (c_sched s) = r →
  reader_step size pl g s = Done (pl', g') s' → reader_inv r (Machine s pl g) → reader_inv r (Machine s' pl' g').
Proof.
  intros Hr H Hi. assert (Hpl : placed (Machine s' pl' g')) by (eapply statement_keeps; [apply Hi|exact H]).
  destruct Hi as [H0 H1 H2 H3 H4]. cbn in H1, H2, H3, H4. destruct pl as [| |proc| | | |k]; cbn [reader_step] in H.
  - destruct (_ <? size); [|by injection H as <- <- <-]. injection H as <- <- <-. split; cbn; try done.
    by destruct (Z.eqb_spec (pending_key s) 0).
  - injection H as <- <- <-. rewrite Hr in *. split; cbn; auto.
  - apply bind_Done_inv in H as ([] & s1 & H5 & H). injection H as <- <- <-. apply zoom_Done_inv in H5 as (t & _ & ->).
    destruct H4 as [-> Hw]. split; cbn; auto.
  - injection H as <- <- <-. split; cbn; auto.
  - apply bind_Done_inv in H as ([] & s1 & H5 & H). injection H as <- <- <-.
    apply (on_sched_quiet scheduler_yield yield_calm) in H5 as (Hw & Hk & Hc).
    split; cbn; rewrite ?Hw, ?Hk; try done. intros Hb. apply H3. by eapply calm_blocked.
  - injection H as <- <- <-. split; cbn; auto.
  - injection H as <- <- <-. split; cbn; auto.
Qed.

Lemma step_inv r size c e c' : r ≠ 0 → attended c e → step r size c e c' → reader_inv r c → reader_inv r c'.
Proof.
  intros Hr Ha Hst. revert Ha. destruct Hst as [s pl g s' H|s pl g sc s' H|s pl g pl' g' s' Hcur H|s pl g t v l Ho]; intros Ha Hi.
  - eapply quiet_inv; [exact (irq_timer_quiet 0 s tt s' H)|exact Hi].
  - apply irq_press in H as (s1 & -> & H). eapply quiet_inv; [exact (write_ports_quiet _ _ _ _ H)|].
    destruct (key_of sc) as [k|] eqn:Hk; [|done]. apply press_inv; [done|by eapply key_of_nonzero| |done].
    destruct pl; cbn in Ha; congruence || done.
  - by eapply statement_inv.
  - destruct Hi as [H0 H1 H2 H3 H4]. split; cbn in *; auto.
Qed.

Lemma steps_inv r size c l c' : r ≠ 0 → steps attended r size c l c' → reader_inv r c → reader_inv r c'.
Proof. intros Hr. induction 1; [done|]. eauto using step_inv. Qed.

(** In a system call no interrupt comes between the test and the block. *)
Lemma masked_attended c e : masked c e → attended c e.
Proof. unfold masked, attended. destruct e; try done. by intros ->. Qed.

Lemma steps_allow (ok ok' : machine → event → Prop) r size c l c' :
  (∀ d e, ok d e → ok' d e) → steps ok r size c l c' → steps ok' r size c l c'.
Proof. intros Hok. induction 1; econstructor; eauto. Qed.

(** C6. The keyboard is a slot for one key. While one process reads
    /devices/keyboard, timer interrupts, key presses and other processes'
    steps come in any order between its statements. What it has read and the
    key held are always keys that were pressed, each at most once and in their
    order; unless a key is pressed while another is held, they are all the
    keys. If none is pressed between the test that found no key and the block
    that follows it, as in a system call, where interrupts are off, the reader
    sleeps only while no key is pending, and then the next press wakes it. A
    reader that runs with a key pending has it three statements later. A
    release or a code without a key is only acknowledged. A press between the
    test and the block is a wake-up lost: see [lost_wakeup]. *)
Theorem keyboard_one_slot r size c l c' :
  r ≠ 0 → placed c → steps anything r size c l c' →
  (got c' ++ held c' `sublist_of` (got c ++ held c) ++ keys l) ∧
  (steps no_overrun r size c l c' → got c' ++ held c' = (got c ++ held c) ++ keys l) ∧
  (reader_inv r c → steps attended r size c l c' ∨ steps masked r size c l c' →
     reader_inv r c' ∧
     (blocked r (c_sched (mc c')) → pending_key (mc c') = 0 ∧
        ∀ sc k, key_of sc = Some k → ∃ s', irq_handler 33 sc (mc c') = Done tt s' ∧
          ¬ blocked r (c_sched s') ∧ pending_key s' = k)) ∧
  (at_place c' = Testing → pending_key (mc c') ≠ 0 → Z.of_nat (length (got c')) < size →
     ∃ s', reader_steps 3 size Testing (got c') (mc c') = Done (Testing, got c' ++ [pending_key (mc c')]) s' ∧ pending_key s' = 0) ∧
  (∀ sc, key_of sc = None → keyboard_waiting (mc c') = 0 ∨ is_Some (procs (c_sched (mc c')) !! keyboard_waiting (mc c')) →
     irq_handler 33 sc (mc c') = write_ports [(PIC1_COMMAND, PIC_EOI)] (mc c')).
Proof.
  intros Hr Hc Hs. split; [by eapply steps_keep|]. split; [|split; [|split]].
  - intros Hs'. by apply (steps_keep _ _ _ _ _ _ Hs' Hc).
  - intros Hi Ha. assert (Hi' : reader_inv r c').
    { eapply steps_inv; [exact Hr| |exact Hi]. destruct Ha as [Ha|Ha]; [done|]. eapply steps_allow; [apply masked_attended|exact Ha]. }
    split; [done|]. intros Hb. pose proof (ri_blocked _ _ Hi' Hb) as Hw. split; [by apply (ri_key _ _ Hi')|].
    intros sc k Hk. rewrite irq_press_Done, Hk.
    2:{ right. rewrite Hw. destruct Hb as (x & Hx & _). by exists x. }
    eexists. split; [reflexivity|]. cbn. split; [by intros [_ [?|?]]%wake_one_blocked; congruence|done].
  - intros _ Hk Hl. cbn [reader_steps reader_step]. rewrite (proj2 (Z.ltb_lt _ _)) by done. unfold mbind, M_bind, mret, M_ret, gets. cbn.
    rewrite (proj2 (Z.eqb_neq _ _) Hk). cbn. eexists. by split.
  - intros sc Hk Hw. by rewrite irq_press_Done, Hk.
Qed.

(** ** Witness *)

Definition demo_console : console := Console demo_sched (Vga [] 0 0 0) 0 0 [].
Definition demo_machine : machine := Machine demo_console Testing [].

Lemma demo_reader : reader_inv 100 demo_machine.
Proof. split; [done|by left|done| |done]. intros (x & Hx & Hb). vm_compute in Hx. injection Hx as <-. discriminate. Qed.

(** A step, if there is one; for the others, that they give way. *)
Definition next_machine (r size : Z) (e : event) (c : machine) : option machine :=
  match e with
  | Tick => match irq_handler 32 0 (mc c) with Done _ s => Some (Machine s (at_place c) (got c)) | _ => None end
  | Press sc => match irq_handler 33 sc (mc c) with Done _ s => Some (Machine s (at_place c) (got c)) | _ => None end
  | Statement =>
      if current_process (c_sched (mc c)) =? r then
        match reader_step size (at_place c) (got c) (mc c) with Done (pl, g) s => Some (Machine s pl g) | _ => None end
      else None
  | Others =>
      match scheduler_yield (c_sched (mc c)) with
      | Done _ t => Some (Machine (Console t (c_vga (mc c)) (keyboard_waiting (mc c)) (pending_key (mc c)) (outs (mc c))) (at_place c) (got c))
      | _ => None
      end
  end.

Fixpoint run_events (ok : machine → event → bool) (r size : Z) (l : list event) (c : machine) : option machine :=
  match l with
  | [] => Some c
  | e :: l => if ok c e then c' ← next_machine r size e c; run_events ok r size l c' else None
  end.

Lemma next_machine_step r size e c c' : next_machine r size e c = Some c' → step r size c e c'.
Proof.
  destruct c as [s pl g], e as [|sc| |]; cbn [next_machine mc at_place got].
  - destruct (irq_handler 32 0 s) as [[]| | |] eqn:H; try done. intros [= <-]. by apply step_tick.
  - destruct (irq_handler 33 sc s) as [[]| | |] eqn:H; try done. intros [= <-]. by apply step_press.
  - destruct (Z.eqb_spec (current_process (c_sched s)) r); [|done].
    destruct (reader_step size pl g s) as [[]| | |] eqn:H; try done. intros [= <-]. by apply step_statement.
  - destruct (scheduler_yield (c_sched s)) as [[] t| | |] eqn:H; try done. intros [= <-]. apply step_others.
    apply calm_blocked. exact (yield_calm _ _ _ H).
Qed.

Lemma run_events_steps okb (ok : machine → event → Prop) r size l : ∀ c c',
  (∀ d e, okb d e = true → ok d e) → run_events okb r size l c = Some c' → steps ok r size c l c'.
Proof.
  induction l as [|e l IH]; intros c c' Hok H; [injection H as <-; apply steps_nil|]. cbn [run_events] in H.
  destruct (okb c e) eqn:Ho; [|done]. destruct (next_machine r size e c) as [c1|] eqn:H1; [|done].
  eapply steps_cons; [by apply Hok|by apply next_machine_step|by apply IH].
Qed.

(** The reader waits in a system call, the other process runs, 'a' is pressed
    and released, the reader runs again and has it. *)
Definition demo_events : list event :=
  replicate 5 Statement ++ [Press 0x1E; Press 0x9E; Others] ++ replicate 3 Statement.

Definition orderly (c : machine) (e : event) : bool :=
  match e with
  | Press sc => bool_decide (at_place c = Testing) && bool_decide (held c = [] ∨ key_of sc = None)
  | Tick => bool_decide (at_place c = Testing)
  | _ => true
  end.

Definition after_events (ok : machine → event → bool) (l : list event) : machine :=
  default demo_machine (run_events ok 100 4 l demo_machine).

Lemma demo_steps ok : (∀ d e, orderly d e = true → ok d e) → steps ok 100 4 demo_machine demo_events (after_events orderly demo_events).
Proof. intros Hok. apply (run_events_steps orderly); [done|]. vm_compute. reflexivity. Qed.

Lemma keyboard_one_slot_witness :
  got (after_events orderly demo_events) = [97] ∧ reader_inv 100 (after_events orderly demo_events).
Proof.
  destruct (keyboard_one_slot 100 4 demo_machine demo_events (after_events orderly demo_events)) as (_ & Hall & Hi & _).
  - discriminate.
  - apply demo_reader.
  - by apply demo_steps.
  - split.
    + assert (Hh : held (after_events orderly demo_events) = []) by (vm_compute; reflexivity).
      rewrite Hh, app_nil_r in Hall. apply Hall. apply demo_steps. intros d e. destruct e; [done| |done|done]. cbn.
      intros [_ H]%andb_prop. apply bool_decide_eq_true in H. tauto.
    + apply Hi; [apply demo_reader|]. right. apply demo_steps. intros d e. destruct e; try done; cbn.
      * apply bool_decide_eq_true.
      * intros [H _]%andb_prop. by apply bool_decide_eq_true in H.
Defined.

(** ** The lost wake-up *)

(** A reader that is blocked and not registered: no press of a key wakes it. *)
Lemma press_stuck r size sc c c' : blocked r (c_sched (mc c)) → keyboard_waiting (mc c) = 0 → step r size c (Press sc) c' →
  blocked r (c_sched (mc c')) ∧ keyboard_waiting (mc c') = 0.
Proof.
  intros Hb Hw Hst. revert Hb Hw. inversion Hst as [|s pl g sc' s' H| |]; subst. intros Hb Hw. cbn in Hb, Hw. apply irq_press in H as (s1 & -> & H).
  injection H as <-. destruct (key_of sc); [|by split]. cbn. rewrite Hw. split; [|done]. unfold wake_one. cbn.
  by destruct (procs _ !! 0).
Qed.

Lemma presses_stuck r size c l c' : steps (λ _ e, ∃ sc, e = Press sc) r size c l c' →
  blocked r (c_sched (mc c)) → keyboard_waiting (mc c) = 0 → blocked r (c_sched (mc c')).
Proof.
  induction 1 as [|c e c1 l c2 [sc ->] H _ IH]; intros Hb Hw; [done|]. destruct (press_stuck _ _ _ _ _ Hb Hw H). auto.
Qed.

(** 'a' is pressed when the reader has registered and not yet blocked: it
    sleeps with the key pending, and no press wakes it. Pressed before the
    reader registers, the key lets it sleep until the next press. *)
Definition lost_events : list event := [Statement; Statement; Press 0x1E; Statement; Statement; Statement].
Definition late_events : list event := [Statement; Press 0x1E; Statement; Statement; Statement; Statement].

Lemma lost_wakeup :
  let c := after_events (λ _ _, true) lost_events in
  let d := after_events (λ _ _, true) late_events in
  (steps anything 100 4 demo_machine lost_events c ∧ blocked 100 (c_sched (mc c)) ∧ pending_key (mc c) = 97 ∧
   ∀ size l c', steps (λ _ e, ∃ sc, e = Press sc) 100 size c l c' → blocked 100 (c_sched (mc c'))) ∧
  (steps anything 100 4 demo_machine late_events d ∧ blocked 100 (c_sched (mc d)) ∧ pending_key (mc d) = 97).
Proof.
  intros c d. assert (blocked 100 (c_sched (mc c)) ∧ keyboard_waiting (mc c) = 0) as [Hb Hw].
  { vm_compute. split; [eexists; split; reflexivity|reflexivity]. }
  split_and!; [|done|by vm_compute| | | |by vm_compute].
  - apply (run_events_steps (λ _ _, true)); [done|]. vm_compute. reflexivity.
  - intros size l c' Hs. by eapply presses_stuck.
  - apply (run_events_steps (λ _ _, true)); [done|]. vm_compute. reflexivity.
  - vm_compute. eexists. split; reflexivity.
Qed.
