(* ===== verification/Malloc.v ===== *)
(** The user library's allocator: libc/src/malloc.c.

    The heap of a process is its bytes between the start of the heap and the
    break; a block is 24 bytes of header (size, next, free) and the data behind
    it, and the blocks are a linked list. Theorems: malloc() is first fit on the
    list, free() gives a block back and merges it with the next, and blocks in
    use stay apart as long as a block chosen has the room its size claims;
    split_block() makes blocks that claim more than they have, and that breaks
    both promises. *)

From S2P Require Import Prelude Phys Descriptors.

(** * The process's memory *)

(** [u_start], [u_brk]: where the heap starts and ends. *)
Record uheap := Uheap { u_mem : phys; u_start : Z; u_brk : Z; heap_head : Z }.

(** block_header_t: the fields and its size. *)
Definition h_size : field := (0, 8%nat).
Definition h_next : field := (8, 8%nat).
Definition h_free : field := (16, 4%nat).
Definition SIZEOF_HEADER : Z := 24.
Definition MALLOC_CHUNK_SIZE : Z := 4096.

(** The kernel maps whole pages; an access outside them is a page fault. *)
Definition mapped (u : uheap) (a n : Z) : Prop := u_start u <= a ∧ a + n <= (u_brk u + 4095) / 4096 * 4096.

#[export] Instance mapped_dec u a n : Decision (mapped u a n).
Proof. unfold mapped. apply _. Defined.

Definition rd (a : Z) (f : field) : M uheap Z := λ u,
  if decide (mapped u (a + f.1) (Z.of_nat f.2)) then Done (get_field a f (u_mem u)) u else Fault.

Definition wr (a : Z) (f : field) (v : Z) : M uheap unit := λ u,
  if decide (mapped u (a + f.1) (Z.of_nat f.2))
  then Done tt (Uheap (set_field a f v (u_mem u)) (u_start u) (u_brk u) (heap_head u)) else Fault.

Definition set_heap_head (a : Z) : M uheap unit := modify (λ u, Uheap (u_mem u) (u_start u) (u_brk u) a).

(** heap_grow(): the system call SYS_HEAP_GROW, which returns the old end of
    the heap, or -1 for a negative increment. *)
Definition heap_grow (increment : Z) : M uheap Z := λ u,
  if i64 increment <? 0 then Done (u64 (-1)) u
  else Done (u_brk u) (Uheap (u_mem u) (u_start u) (u64 (u_brk u + i64 increment)) (heap_head u)).

(** * malloc.c *)

Definition split_block (block size : Z) : M uheap unit :=
  bsize ← rd block h_size;
  if bsize <? u64 (size + SIZEOF_HEADER + 1) then mret tt
  else
    let remaining := u64 (bsize - SIZEOF_HEADER) in
    let new_block := u64 (block + SIZEOF_HEADER + size) in
    wr new_block h_size remaining ;;
    wr new_block h_free 1 ;;
    next ← rd block h_next;
    wr new_block h_next next ;;
    wr block h_size size ;;
    wr block h_next new_block.

(** The search: the block found, split and taken, or the last block. *)
Fixpoint malloc_loop (fuel : nat) (size prev current : Z) : M uheap (Z + Z) :=
  if current =? 0 then mret (inr prev)
  else
    match fuel with
    | O => diverge
    | S fuel =>
        free ← rd current h_free;
        bsize ← rd current h_size;
        if negb (free =? 0) && (bsize >=? size) then
          split_block current size ;;
          wr current h_free 0 ;;
          mret (inl (u64 (current + SIZEOF_HEADER)))
        else
          next ← rd current h_next;
          malloc_loop fuel size current next
    end.

(** (size + 7) & ~7 *)
Definition round8 (size : Z) : Z := Z.land (u64 (size + 7)) (u64 (Z.lnot 7)).

Definition malloc (fuel : nat) (size : Z) : M uheap Z :=
  if size =? 0 then mret 0
  else
    let size := round8 size in
    head ← gets heap_head;
    found ← malloc_loop fuel size 0 head;
    match found with
    | inl p => mret p
    | inr prev =>
        let needed := u64 (size + SIZEOF_HEADER) in
        let request := if needed >? MALLOC_CHUNK_SIZE then needed else MALLOC_CHUNK_SIZE in
        region ← heap_grow request;
        if region =? u64 (-1) then mret 0
        else
          wr region h_size (u64 (request - SIZEOF_HEADER)) ;;
          wr region h_free 0 ;;
          wr region h_next 0 ;;
          (if negb (prev =? 0) then wr prev h_next region else set_heap_head region) ;;
          split_block region size ;;
          mret (u64 (region + SIZEOF_HEADER))
    end.

Definition free (ptr : Z) : M uheap unit :=
  if ptr =? 0 then mret tt
  else
    let block := u64 (ptr - SIZEOF_HEADER) in
    wr block h_free 1 ;;
    next ← rd block h_next;
    if next =? 0 then mret tt
    else
      next_free ← rd next h_free;
      if next_free =? 0 then mret tt
      else
        bsize ← rd block h_size;
        nsize ← rd next h_size;
        wr block h_size (u64 (bsize + (SIZEOF_HEADER + nsize))) ;;
        next ← rd block h_next;
        next_next ← rd next h_next;
        wr block h_next next_next.

(** * The list of blocks *)

Record block := Blk { b_addr : Z; b_size : Z; b_free : bool }.

Definition nxt (l : list block) (e : Z) : Z := match l with [] => e | b :: _ => b_addr b end.

Definition header_at (m : phys) (b : block) (next : Z) : Prop :=
  get_field (b_addr b) h_size m = b_size b ∧ get_field (b_addr b) h_next m = next ∧
  get_field (b_addr b) h_free m = (if b_free b then 1 else 0).

Fixpoint links (m : phys) (l : list block) (e : Z) : Prop :=
  match l with [] => True | b :: l => header_at m b (nxt l e) ∧ links m l e end.

(** The headers are in address order, and a block in use ends before the next. *)
Fixpoint laid (l : list block) (e : Z) : Prop :=
  match l with
  | [] => True
  | b :: l => b_addr b + 24 <= nxt l e ∧ (b_free b = false → b_addr b + 24 + b_size b <= nxt l e) ∧ laid l e
  end.

Definition block_ok (start : Z) (b : block) : Prop :=
  start <= b_addr b ∧ b_addr b mod 8 = 0 ∧ b_size b mod 8 = 0 ∧ 0 <= b_size b < 2 ^ 64.

Record heap_ok (u : uheap) (l : list block) : Prop := {
  hk_head : heap_head u = nxt l 0;
  hk_links : links (u_mem u) l 0;
  hk_laid : laid l (u_brk u);
  hk_blocks : Forall (block_ok (u_start u)) l;
  hk_brk : 0 < u_start u <= u_brk u ∧ u_brk u < 2 ^ 47 ∧ u_brk u mod 8 = 0 }.

(** First fit, on the list. *)
Definition fits (size : Z) (b : block) : Prop := b_free b = true ∧ size <= b_size b.

(** What becomes of the block chosen. The rest that is split off claims the
    whole size less a header: the bytes given away are not taken off. *)
Definition place (size : Z) (b : block) : list block :=
  if b_size b <? size + 25 then [Blk (b_addr b) (b_size b) false]
  else [Blk (b_addr b) size false; Blk (b_addr b + 24 + size) (b_size b - 24) true].

(** The bytes the placement needs behind the header. *)
Definition extent (size : Z) (b : block) : Z := if b_size b <? size + 25 then b_size b else size + 24.

Definition release (b : block) (l : list block) : list block :=
  match l with
  | n :: l' => if b_free n then Blk (b_addr b) (b_size b + (24 + b_size n)) true :: l'
               else Blk (b_addr b) (b_size b) true :: l
  | [] => [Blk (b_addr b) (b_size b) true]
  end.

(** The bytes a client may use. *)
Definition region (b : block) (x : Z) : Prop := b_addr b + 24 <= x < b_addr b + 24 + b_size b.

(** ** Lists of headers *)

Lemma nxt_snoc l1 l2 e : nxt (l1 ++ l2) e = nxt l1 (nxt l2 e).
Proof. by destruct l1. Qed.

Lemma links_app m l1 l2 e : links m (l1 ++ l2) e ↔ links m l1 (nxt l2 e) ∧ links m l2 e.
Proof. induction l1 as [|b l1 IH]; simpl; [tauto|]. rewrite IH, nxt_snoc. tauto. Qed.

Lemma laid_app l1 l2 e : laid (l1 ++ l2) e ↔ laid l1 (nxt l2 e) ∧ laid l2 e.
Proof. induction l1 as [|b l1 IH]; simpl; [tauto|]. rewrite IH, nxt_snoc. tauto. Qed.

Lemma laid_between l e b : laid l e → b ∈ l → nxt l e <= b_addr b ∧ b_addr b + 24 <= e.
Proof.
  induction l as [|c l IH]; intros Hl Hb; [by apply not_elem_of_nil in Hb|].
  destruct Hl as (H1 & _ & Hl). assert (nxt l e <= e).
  { clear -Hl. revert Hl. induction l as [|d l IH]; simpl; [lia|]. intros (H & _ & Hl). specialize (IH Hl). lia. }
  apply elem_of_cons in Hb as [->|Hb]; simpl; [lia|]. destruct (IH Hl Hb). lia.
Qed.

Lemma field_ext a f m m' : (∀ x, a + f.1 <= x < a + f.1 + Z.of_nat f.2 → rd8 m' x = rd8 m x) → get_field a f m' = get_field a f m.
Proof. intros H. unfold get_field. f_equal. apply rd_bytes_ext. intros i Hi. apply H. lia. Qed.

Lemma header_ext m m' b n : (∀ x, b_addr b <= x < b_addr b + 24 → rd8 m' x = rd8 m x) → header_at m b n → header_at m' b n.
Proof.
  intros H (H1 & H2 & H3). unfold header_at. rewrite <- H1, <- H2, <- H3.
  split_and!; apply field_ext; cbn; intros x Hx; apply H; lia.
Qed.

Lemma links_ext m m' l e : (∀ b x, b ∈ l → b_addr b <= x < b_addr b + 24 → rd8 m' x = rd8 m x) → links m l e → links m' l e.
Proof.
  induction l as [|b l IH]; intros H; [done|]. intros [H1 H2]. split.
  - eapply header_ext; [|exact H1]. intros x. apply H. by left.
  - apply IH; [|done]. intros c x Hc. apply H. by right.
Qed.

(** [touched a m m']: only the 24 bytes at [a] may differ. *)
Definition touched (A : list Z) (m m' : phys) : Prop := ∀ x, (∀ a, a ∈ A → ¬ a <= x < a + 24) → rd8 m' x = rd8 m x.

Lemma touched_refl A m : touched A m m.
Proof. done. Qed.

Lemma touched_trans A m1 m2 m3 : touched A m1 m2 → touched A m2 m3 → touched A m1 m3.
Proof. intros H1 H2 x Hx. by rewrite H2, H1. Qed.

Lemma touched_set A a f v m : a ∈ A → 0 <= f.1 → f.1 + Z.of_nat f.2 <= 24 → touched A m (set_field a f v m).
Proof.
  intros Ha H1 H2 x Hx. unfold set_field. apply rd8_wr_out. rewrite length_split. specialize (Hx a Ha). lia.
Qed.

Lemma touched_more A B m m' : A ⊆ B → touched A m m' → touched B m m'.
Proof. intros HAB H x Hx. apply H. auto. Qed.

(** Headers in place, apart from those touched, stay. *)
Lemma touched_links A m m' l e : touched A m m' →
  (∀ a b, a ∈ A → b ∈ l → a + 24 <= b_addr b ∨ b_addr b + 24 <= a) → links m l e → links m' l e.
Proof.
  intros Ht Ha. apply links_ext. intros b x Hb Hx. apply Ht. intros a HA. destruct (Ha a b HA Hb); lia.
Qed.

Definition put_mem (m : phys) (u : uheap) : uheap := Uheap m (u_start u) (u_brk u) (heap_head u).

Lemma put_mem_twice m m' u : put_mem m' (put_mem m u) = put_mem m' u.
Proof. done. Qed.

Lemma put_mem_same u : put_mem (u_mem u) u = u.
Proof. by destruct u. Qed.

(** The 24 bytes of a header are mapped. *)
Definition header_mapped (u : uheap) (a : Z) : Prop := mapped u a 24.

Lemma rd_Done u a f : header_mapped u a → 0 <= f.1 → f.1 + Z.of_nat f.2 <= 24 → rd a f u = Done (get_field a f (u_mem u)) u.
Proof. intros [H1 H2] H3 H4. unfold rd. rewrite decide_True by (split; lia). done. Qed.

Lemma wr_Done u a f v : header_mapped u a → 0 <= f.1 → f.1 + Z.of_nat f.2 <= 24 →
  wr a f v u = Done tt (put_mem (set_field a f v (u_mem u)) u).
Proof. intros [H1 H2] H3 H4. unfold wr. rewrite decide_True by (split; lia). done. Qed.

(** Step over the read or the write at the head of a computation. *)
Ltac step_rd := erewrite bind_Done by (apply rd_Done; [done|by cbn|by cbn]).
Ltac step_wr := erewrite bind_Done by (apply wr_Done; [done|by cbn|by cbn]).

(** ** split_block *)

Lemma split_block_none b size n u : header_mapped u (b_addr b) → header_at (u_mem u) b n →
  0 <= size < 2 ^ 62 → b_size b < size + 25 → split_block (b_addr b) size u = Done tt u.
Proof.
  intros Hm (H1 & _ & _) Hs Hlt. unfold split_block. step_rd. rewrite H1, u64_small by (unfold SIZEOF_HEADER; lia).
  unfold SIZEOF_HEADER. by rewrite (proj2 (Z.ltb_lt _ _)) by lia.
Qed.

Lemma split_block_some b size n u : header_mapped u (b_addr b) → header_at (u_mem u) b n → 0 < b_addr b → b_size b < 2 ^ 64 →
  0 <= size < 2 ^ 62 → size + 25 <= b_size b → let na := b_addr b + 24 + size in na < 2 ^ 63 → header_mapped u na → 0 <= n < 2 ^ 64 →
  ∃ m', split_block (b_addr b) size u = Done tt (put_mem m' u) ∧ touched [b_addr b; na] (u_mem u) m' ∧
    header_at m' (Blk (b_addr b) size (b_free b)) na ∧ header_at m' (Blk na (b_size b - 24) true) n.
Proof.
  intros Hm (H1 & H2 & H3) Hpos Hb Hs Hle na Hna Hnm Hn. unfold split_block.
  assert (Hm' : ∀ m a, header_mapped u a → header_mapped (put_mem m u) a) by done.
  step_rd. rewrite H1, u64_small by (unfold SIZEOF_HEADER; lia). rewrite (proj2 (Z.ltb_ge _ _)) by (unfold SIZEOF_HEADER; lia).
  cbv zeta. unfold SIZEOF_HEADER. rewrite (u64_small (b_size b - 24)), (u64_small (b_addr b + 24 + size)) by lia. fold na.
  step_wr. step_wr. step_rd. step_wr. step_wr. rewrite wr_Done by (done || by cbn). rewrite !put_mem_twice. cbn [u_mem put_mem].
  eexists. split; [reflexivity|]. split_and!.
  - repeat (eapply touched_trans; [|apply touched_set; [rewrite !elem_of_cons; tauto|by cbn|by cbn]]). done.
  - unfold header_at. cbn [b_addr b_size b_free]. split_and!; fields.
    + apply Z.mod_small. cbn. lia.
    + apply Z.mod_small. cbn. lia.
    + done.
  - unfold header_at. cbn [b_addr b_size b_free]. split_and!; fields.
    + apply Z.mod_small. cbn. lia.
    + rewrite H2. apply Z.mod_small. cbn. lia.
    + done.
Qed.

(** ** The walk *)

Definition last_addr (prev : Z) (l : list block) : Z := foldl (λ _ b, b_addr b) prev l.

Definition passed_over (size : Z) (u : uheap) (b : block) : Prop :=
  header_mapped u (b_addr b) ∧ b_addr b ≠ 0 ∧ ¬ fits size b.

Lemma loop_walk size e n : ∀ l prev u, links (u_mem u) l e → Forall (passed_over size u) l →
  malloc_loop (length l + n) size prev (nxt l e) u = malloc_loop n size (last_addr prev l) e u.
Proof.
  induction l as [|b l IH]; intros prev u Hl Hf; [done|].
  destruct Hl as [(H1 & H2 & H3) Hl]. apply list.Forall_cons in Hf as [(Hm & Hz & Hnf) Hf].
  cbn [length Nat.add malloc_loop nxt]. rewrite (proj2 (Z.eqb_neq _ _) Hz). step_rd. step_rd. rewrite H1, H3.
  assert (negb ((if b_free b then 1 else 0) =? 0) && (b_size b >=? size) = false) as ->.
  { unfold fits in Hnf. destruct (b_free b); simpl; [|done]. destruct (Z.geb_spec (b_size b) size); [|done]. naive_solver lia. }
  step_rd. rewrite H2. by apply IH.
Qed.

Lemma header_in_heap u l b : heap_ok u l → b ∈ l → header_mapped u (b_addr b) ∧ 0 < b_addr b ∧ b_addr b + 24 <= u_brk u.
Proof.
  intros [_ _ Hl Hb [Hs _]] Hin. destruct (laid_between _ _ _ Hl Hin) as [_ H].
  rewrite list.Forall_forall in Hb. destruct (Hb b Hin) as [Hst _].
  split; [|lia]. split; [done|]. Z.div_mod_to_equations. lia.
Qed.

Lemma passed_over_all size u l l' : heap_ok u l → l' ⊆ l → Forall (λ b, ¬ fits size b) l' → Forall (passed_over size u) l'.
Proof.
  intros Hk Hsub Hf. apply list.Forall_forall. intros b Hb. destruct (header_in_heap u l b Hk (Hsub b Hb)) as (H1 & H2 & _).
  split_and!; [done|lia|]. rewrite list.Forall_forall in Hf. by apply Hf.
Qed.

(** The headers around a block are 24 bytes away from it. *)
Lemma laid_apart l1 b l2 e c : laid (l1 ++ b :: l2) e → c ∈ l1 ++ l2 → b_addr b + 24 <= b_addr c ∨ b_addr c + 24 <= b_addr b.
Proof.
  intros [H1 [H2 [_ H3]]]%laid_app Hc. apply elem_of_app in Hc as [Hc|Hc].
  - destruct (laid_between _ _ _ H1 Hc). simpl in *. lia.
  - destruct (laid_between _ _ _ H3 Hc). lia.
Qed.

(** The headers before a block end before it, those behind it start behind it. *)
Lemma links_around u m' A l1 b l2 : heap_ok u (l1 ++ b :: l2) → touched A (u_mem u) m' →
  (∀ a, a ∈ A → b_addr b <= a ∧ a + 24 <= nxt l2 (u_brk u)) → links m' l1 (b_addr b) ∧ links m' l2 0.
Proof.
  intros [_ Hl Hlaid _ _] Ht HA. apply links_app in Hl as [Hl1 [_ Hl2]]. apply laid_app in Hlaid as [L1 [L2 [_ L3]]].
  split; (eapply touched_links; [exact Ht| |done]); intros a c Ha Hc; destruct (HA a Ha).
  - destruct (laid_between _ _ _ L1 Hc). simpl in *. lia.
  - destruct (laid_between _ _ _ L3 Hc). lia.
Qed.

Lemma nxt_null u l : heap_ok u l → 0 <= nxt l 0 < 2 ^ 64.
Proof.
  intros Hk. destruct l as [|b l]; simpl; [lia|]. destruct (header_in_heap u _ b Hk) as (_ & H1 & H2); [by left|].
  destruct Hk as [_ _ _ _ [_ [H _]]]. lia.
Qed.

(** ** Taking a block *)

Definition addrs (l : list block) : list Z := b_addr <$> l.

Definition taken (b : block) : block := Blk (b_addr b) (b_size b) false.

Lemma heap_ok_replace u m' l1 b l2 l : heap_ok u (l1 ++ b :: l2) → touched (addrs l) (u_mem u) m' →
  l ≠ [] → nxt l 0 = b_addr b → links m' l (nxt l2 0) → laid l (nxt l2 (u_brk u)) → Forall (block_ok (u_start u)) l →
  heap_ok (put_mem m' u) (l1 ++ l ++ l2).
Proof.
  intros Hk Ht Hne Hn Hl Hlaid Hb. destruct (links_around u m' (addrs l) l1 b l2 Hk Ht) as [K1 K2].
  { intros a (c & -> & Hc)%list_elem_of_fmap. destruct (laid_between _ _ _ Hlaid Hc).
    destruct l; [done|]. simpl in *. lia. }
  destruct Hk as [H1 H2 H3 H4 H5]. apply laid_app in H3 as [L1 [L2 [_ L3]]].
  assert (∀ e, nxt (l ++ l2) e = b_addr b) as Hnx by (intros e; destruct l; [done|exact Hn]).
  split; cbn [put_mem u_mem u_start u_brk heap_head].
  - rewrite H1, !nxt_snoc. destruct l1; [|done]. simpl. rewrite <- (Hnx 0). by rewrite nxt_snoc.
  - apply links_app. rewrite Hnx. split; [done|]. apply links_app. done.
  - apply laid_app. rewrite Hnx. split; [done|]. by apply laid_app.
  - apply Forall_app in H4 as [F1 F2]. apply list.Forall_cons in F2 as [_ F2]. apply Forall_app. split; [done|]. by apply Forall_app.
  - done.
Qed.

Lemma take_block u l1 b l2 size : heap_ok u (l1 ++ b :: l2) → 0 <= size < 2 ^ 62 → size mod 8 = 0 → fits size b →
  b_addr b + 24 + extent size b <= nxt l2 (u_brk u) →
  ∃ m', (split_block (b_addr b) size ;; wr (b_addr b) h_free 0 ;; mret (inl (u64 (b_addr b + SIZEOF_HEADER)))) u =
      Done (inl (b_addr b + 24) : Z + Z) (put_mem m' u) ∧
    heap_ok (put_mem m' u) (l1 ++ place size b ++ l2) ∧ touched (addrs (place size b)) (u_mem u) m'.
Proof.
  intros Hk Hs H8 [Hfree Hfit] Hroom. assert (Hin : b ∈ l1 ++ b :: l2) by (apply elem_of_app; right; by left).
  destruct (header_in_heap u _ b Hk Hin) as (Hm & Hpos & Hend).
  pose proof Hk as [_ Hlinks Hlaid Hblocks [Hst [Hbrk _]]]. apply links_app in Hlinks as [_ [Hb Hl2]].
  apply laid_app in Hlaid as [_ [Hgap [_ L3]]].
  assert (Hbok : block_ok (u_start u) b) by (rewrite list.Forall_forall in Hblocks; by apply Hblocks).
  destruct Hbok as (B1 & B2 & B3 & B4).
  assert (Hn64 : 0 <= nxt l2 0 < 2 ^ 64 ∧ nxt l2 (u_brk u) <= u_brk u).
  { destruct l2 as [|c l2]; simpl; [lia|]. destruct (header_in_heap u _ c Hk) as (_ & C1 & C2); [apply elem_of_app; right; right; by left|]. lia. }
  unfold place, extent in *. destruct (Z.ltb_spec (b_size b) (size + 25)) as [Hlt|Hge].
  - rewrite (bind_Done _ _ _ _ _ (split_block_none b size _ u Hm Hb Hs Hlt)). step_wr. cbn [mret M_ret].
    rewrite u64_small by (unfold SIZEOF_HEADER; lia). eexists. split; [reflexivity|].
    assert (Ht : touched [b_addr b] (u_mem u) (set_field (b_addr b) h_free 0 (u_mem u))).
    { apply touched_set; [by left|by cbn|by cbn]. }
    split; [|exact Ht]. eapply (heap_ok_replace u _ l1 b l2 [_]); [done|exact Ht|done|done| | |].
    + split; [|done]. destruct Hb as (C1 & C2 & C3). unfold header_at. cbn [b_addr b_size b_free nxt app]. split_and!; fields; done.
    + simpl. split_and!; [done|intros _; lia|done].
    + apply Forall_singleton. unfold block_ok. cbn [b_addr b_size]. split_and!; first [done|lia].
  - destruct (split_block_some b size _ u Hm Hb Hpos ltac:(lia) Hs Hge) as (m1 & Hrun & Ht & Ha & Hn); [lia| |lia|].
    { split; [|Z.div_mod_to_equations]; lia. }
    rewrite (bind_Done _ _ _ _ _ Hrun). step_wr. cbn [mret M_ret u_mem put_mem].
    rewrite u64_small by (unfold SIZEOF_HEADER; lia). eexists. split; [reflexivity|].
    assert (Ht2 : touched [b_addr b; b_addr b + 24 + size] (u_mem u) (set_field (b_addr b) h_free 0 m1)).
    { eapply touched_trans; [exact Ht|]. apply touched_set; [by left|by cbn|by cbn]. }
    split; [|exact Ht2]. eapply (heap_ok_replace u _ l1 b l2 [_; _]); [done|exact Ht2|done|done| | |].
    + destruct Ha as (C1 & C2 & C3), Hn as (D1 & D2 & D3). cbn [b_addr b_size b_free] in *. unfold links, header_at. cbn [b_addr b_size b_free nxt app].
      split_and!; fields; done.
    + simpl. split_and!; [lia|intros _; lia|lia|done|done].
    + apply list.Forall_cons; split; [|apply Forall_singleton]; unfold block_ok; cbn [b_addr b_size]; split_and!; try done; try lia;
        clear - B2 B3 H8; Z.div_mod_to_equations; lia.
Qed.

(** ** A new region *)

Lemma last_addr_snoc prev l b : last_addr prev (l ++ [b]) = b_addr b.
Proof. unfold last_addr. by rewrite foldl_app. Qed.

Lemma list_end (l : list block) : l = [] ∨ ∃ l' b, l = l' ++ [b].
Proof. induction l as [|b l _] using rev_ind; [by left|right; eauto]. Qed.

(** The three stores to the new header and the link to it. *)
Lemma append_block u l size : heap_ok u l → 0 <= size → size mod 8 = 0 → u_brk u + size + 24 < 2 ^ 47 →
  let u1 := Uheap (u_mem u) (u_start u) (u_brk u + (size + 24)) (heap_head u) in
  let b := Blk (u_brk u) size false in
  ∃ u', (wr (u_brk u) h_size size ;; wr (u_brk u) h_free 0 ;; wr (u_brk u) h_next 0 ;;
      (if negb (last_addr 0 l =? 0) then wr (last_addr 0 l) h_next (u_brk u) else set_heap_head (u_brk u))) u1 = Done tt u' ∧
    heap_ok u' (l ++ [b]) ∧ u_brk u' = u_brk u + (size + 24) ∧ u_start u' = u_start u ∧
    touched (u_brk u :: addrs l) (u_mem u) (u_mem u').
Proof.
  intros Hk Hs H8 Hlim u1 b. pose proof Hk as [Hh Hl Hlaid Hb [Hst [Hbrk Hb8]]].
  assert (Hm : header_mapped u1 (u_brk u)) by (split; cbn; [lia|Z.div_mod_to_equations; lia]).
  set (m1 := set_field (u_brk u) h_next 0 (set_field (u_brk u) h_free 0 (set_field (u_brk u) h_size size (u_mem u)))).
  assert (Ht1 : touched [u_brk u] (u_mem u) m1).
  { repeat (eapply touched_trans; [|apply touched_set; [by left|by cbn|by cbn]]). done. }
  assert (Hnew : header_at m1 b 0).
  { unfold header_at, m1, b. cbn [b_addr b_size b_free]. split_and!; fields; [|done|done]. apply Z.mod_small. cbn. lia. }
  assert (Hold : links m1 l 0).
  { eapply touched_links; [exact Ht1| |exact Hl]. intros a c ->%list_elem_of_singleton Hc.
    destruct (laid_between _ _ _ Hlaid Hc). lia. }
  assert (Hlaid' : laid (l ++ [b]) (u_brk u + (size + 24))).
  { apply laid_app. split; [done|]. simpl. split_and!; [lia|intros _; lia|done]. }
  assert (Hbs : Forall (block_ok (u_start u)) (l ++ [b])).
  { apply Forall_app. split; [done|]. apply Forall_singleton. unfold block_ok, b. cbn. split_and!; first [done|lia]. }
  assert (Hbrk' : (u_brk u + (size + 24)) mod 8 = 0) by (clear -Hb8 H8; Z.div_mod_to_equations; lia).
  assert (Hm' : ∀ m a, header_mapped u1 a → header_mapped (put_mem m u1) a) by done.
  step_wr. step_wr. step_wr. rewrite !put_mem_twice. cbn [u_mem put_mem]. change (u_mem u1) with (u_mem u). fold m1. clearbody m1.
  destruct (list_end l) as [->|(l' & p & ->)].
  - cbn [last_addr foldl negb Z.eqb]. eexists. split; [reflexivity|]. cbn [u_mem u_brk u_start heap_head put_mem u1].
    split; [|split_and!; [done|done|exact Ht1]].
    split; cbn [u_mem u_brk u_start heap_head put_mem u1 nxt app]; [done|by split|done|done|lia].
  - rewrite last_addr_snoc. destruct (header_in_heap u _ p Hk) as (Hpm & Hp0 & Hpe); [apply elem_of_app; right; by left|].
    rewrite (proj2 (Z.eqb_neq _ _)) by lia. cbn [negb].
    assert (Hpm1 : header_mapped u1 (b_addr p)).
    { destruct Hpm as [P1 P2]. split; cbn; [done|]. clear -P2 Hs. Z.div_mod_to_equations. lia. }
    rewrite wr_Done by (done || by cbn). eexists. split; [reflexivity|]. cbn [u_mem u_brk u_start heap_head put_mem u1].
    set (m2 := set_field (b_addr p) h_next (u_brk u) m1).
    assert (Ht2 : touched [b_addr p] m1 m2) by (apply touched_set; [by left|by cbn|by cbn]).
    split; [|split_and!; [done|done|]].
    + split; cbn [u_mem u_brk u_start heap_head put_mem u1]; [|..|done|done|lia].
      * rewrite Hh. by destruct l'.
      * apply links_app. split; [|split; [|done]].
        -- apply links_app in Hold as [Ho1 [(P1 & P2 & P3) _]]. apply links_app. split.
           ++ eapply touched_links; [exact Ht2| |exact Ho1]. intros a c ->%list_elem_of_singleton Hc.
              apply laid_app in Hlaid as [L1 _]. destruct (laid_between _ _ _ L1 Hc). simpl in *. lia.
           ++ split; [|done]. unfold header_at, m2. cbn [nxt]. split_and!; fields; [done| |done]. apply Z.mod_small. cbn. lia.
        -- eapply header_ext; [|exact Hnew]. intros x Hx. apply Ht2. intros a ->%list_elem_of_singleton.
           cbn [b_addr b] in Hx. lia.
    + eapply touched_trans; [eapply touched_more; [|exact Ht1]|eapply touched_more; [|exact Ht2]].
      * intros a ->%list_elem_of_singleton. by left.
      * intros a ->%list_elem_of_singleton. right. unfold addrs. rewrite fmap_app. apply elem_of_app. right. by left.
Qed.

Lemma split_last u l b size : heap_ok u (l ++ [b]) → 0 <= size < 2 ^ 62 → size mod 8 = 0 → b_free b = false → size <= b_size b →
  ∃ m', split_block (b_addr b) size u = Done tt (put_mem m' u) ∧
    heap_ok (put_mem m' u) (l ++ place size b) ∧ touched (addrs (place size b)) (u_mem u) m'.
Proof.
  intros Hk Hs H8 Hfree Hle. assert (Hin : b ∈ l ++ [b]) by (apply elem_of_app; right; by left).
  destruct (header_in_heap u _ b Hk Hin) as (Hm & Hpos & Hend).
  pose proof Hk as [_ Hlinks Hlaid Hblocks [Hst [Hbrk _]]]. apply links_app in Hlinks as [_ [Hb _]]. simpl in Hb.
  apply laid_app in Hlaid as [_ [_ [Hused _]]]. specialize (Hused Hfree). simpl in Hused.
  assert (Hbok : block_ok (u_start u) b) by (rewrite list.Forall_forall in Hblocks; by apply Hblocks).
  destruct Hbok as (B1 & B2 & B3 & B4).
  unfold place. destruct (Z.ltb_spec (b_size b) (size + 25)) as [Hlt|Hge].
  - exists (u_mem u). rewrite put_mem_same. split; [by eapply split_block_none|]. split; [|done].
    replace [Blk (b_addr b) (b_size b) false] with [b]; [done|]. destruct b; by simplify_eq/=.
  - destruct (split_block_some b size _ u Hm Hb Hpos ltac:(lia) Hs Hge) as (m1 & Hrun & Ht & Ha & Hn); [lia| |lia|].
    { split; [|Z.div_mod_to_equations]; lia. }
    exists m1. split; [done|]. split; [|done].
    replace (l ++ _) with (l ++ [Blk (b_addr b) size false; Blk (b_addr b + 24 + size) (b_size b - 24) true] ++ []) by (by rewrite app_nil_r).
    eapply (heap_ok_replace u _ l b [] [_; _]); [done|exact Ht|done|done| | |].
    + rewrite Hfree in Ha. by split_and!.
    + simpl. split_and!; [lia|intros _; lia|lia|done|done].
    + apply list.Forall_cons; split; [|apply Forall_singleton]; unfold block_ok; cbn [b_addr b_size]; split_and!; try done; try lia;
        clear - B2 B3 H8; Z.div_mod_to_equations; lia.
Qed.

(** ** free *)

Lemma release_block u l1 b l2 : heap_ok u (l1 ++ b :: l2) →
  (∀ n l', l2 = n :: l' → b_size b + 24 + b_size n < 2 ^ 64) →
  ∃ m', free (b_addr b + 24) u = Done tt (put_mem m' u) ∧
    heap_ok (put_mem m' u) (l1 ++ release b l2) ∧ touched [b_addr b] (u_mem u) m'.
Proof.
  intros Hk Hsum. assert (Hin : b ∈ l1 ++ b :: l2) by (apply elem_of_app; right; by left).
  destruct (header_in_heap u _ b Hk Hin) as (Hm & Hpos & Hend).
  pose proof Hk as [_ Hlinks Hlaid Hblocks [Hst [Hbrk _]]]. apply links_app in Hlinks as [_ [Hb Hl2]].
  apply laid_app in Hlaid as [_ [Hgap [_ L3]]].
  assert (Hbok : ∀ c, c ∈ l1 ++ b :: l2 → block_ok (u_start u) c) by (by apply list.Forall_forall).
  destruct (Hbok b Hin) as (B1 & B2 & B3 & B4).
  unfold free. rewrite (proj2 (Z.eqb_neq _ _)) by lia. cbv zeta.
  replace (u64 (b_addr b + 24 - SIZEOF_HEADER)) with (b_addr b) by (unfold SIZEOF_HEADER; rewrite u64_small by lia; lia).
  assert (Hm' : ∀ m a, header_mapped u a → header_mapped (put_mem m u) a) by done.
  set (m1 := set_field (b_addr b) h_free 1 (u_mem u)).
  assert (Ht1 : touched [b_addr b] (u_mem u) m1) by (apply touched_set; [by left|by cbn|by cbn]).
  assert (Hb1 : header_at m1 (Blk (b_addr b) (b_size b) true) (nxt l2 0)).
  { destruct Hb as (C1 & C2 & C3). unfold m1, header_at. cbn [b_addr b_size b_free]. by split_and!; fields. }
  pose proof Hb1 as (C1 & C2 & C3). cbn [b_addr b_size b_free] in C1, C2, C3.
  step_wr. fold m1. step_rd. cbn [u_mem put_mem]. rewrite C2.
  assert (Hmark : heap_ok (put_mem m1 u) (l1 ++ [Blk (b_addr b) (b_size b) true] ++ l2)).
  { eapply heap_ok_replace; [exact Hk|exact Ht1|done|done|by split|by simpl|]. apply Forall_singleton.
    unfold block_ok. cbn [b_addr b_size]. split_and!; first [done|lia]. }
  destruct l2 as [|n l3]; cbn [nxt release]; [by eexists|].
  assert (Hinn : n ∈ l1 ++ b :: n :: l3) by (apply elem_of_app; right; right; by left).
  destruct (header_in_heap u _ n Hk Hinn) as (Hnm & Hnpos & Hnend). destruct (Hbok n Hinn) as (N1 & N2 & N3 & N4).
  rewrite (proj2 (Z.eqb_neq _ _)) by lia. simpl nxt in Hgap. destruct L3 as (G1 & _ & G3).
  assert (Hn1 : header_at m1 n (nxt l3 0)).
  { eapply header_ext; [|exact (proj1 Hl2)]. intros x Hx. apply Ht1. intros a ->%list_elem_of_singleton. lia. }
  step_rd. cbn [u_mem put_mem]. rewrite (proj2 (proj2 Hn1)). destruct (b_free n) eqn:Hfn; simpl (_ =? _); cbv iota; [|by eexists].
  specialize (Hsum n l3 eq_refl). destruct Hn1 as (D1 & D2 & D3).
  step_rd. cbn [u_mem put_mem]. step_rd. cbn [u_mem put_mem]. rewrite C1, D1, u64_small by (unfold SIZEOF_HEADER; lia).
  step_wr. rewrite put_mem_twice. cbn [u_mem put_mem]. step_rd. cbn [u_mem put_mem].
  rewrite get_set_other by (cbn; lia). rewrite C2. cbn [nxt]. step_rd. cbn [u_mem put_mem].
  rewrite get_set_other by (cbn; lia). rewrite D2. rewrite wr_Done by (done || by cbn). rewrite put_mem_twice. cbn [u_mem put_mem].
  clearbody m1. unfold SIZEOF_HEADER. eexists. split; [reflexivity|].
  match goal with |- heap_ok (put_mem ?m _) _ ∧ _ => assert (Ht2 : touched [b_addr b] (u_mem u) m) end.
  { repeat (eapply touched_trans; [|apply touched_set; [by left|by cbn|by cbn]]). done. }
  split; [|exact Ht2]. 
  assert (Hk2 : heap_ok u ((l1 ++ [b]) ++ n :: l3)) by (by rewrite <- app_assoc).
  destruct (links_around u _ [b_addr b] l1 b (n :: l3) Hk Ht2) as [K1 K2].
  { intros a ->%list_elem_of_singleton. simpl. lia. }
  pose proof Hk as [H1 _ H3 H4 H5]. apply laid_app in H3 as [L1 _].
  split; cbn [put_mem u_mem u_start u_brk heap_head].
  - rewrite H1, !nxt_snoc. by destruct l1.
  - apply links_app. split; [done|]. split; [|by destruct K2].
    unfold header_at. cbn [b_addr b_size b_free]. split_and!; fields; [| |done].
    + apply Z.mod_small. cbn. lia.
    + apply Z.mod_small. cbn. destruct l3 as [|q l4]; simpl; [lia|]. simpl in G1. destruct G3 as (? & _ & Hl4).
      destruct (header_in_heap u _ q Hk) as (_ & ? & ?); [apply elem_of_app; right; right; right; by left|]. lia.
  - apply laid_app. split; [done|]. simpl. split_and!; [lia|done|done].
  - apply Forall_app in H4 as [F1 F2]. apply list.Forall_cons in F2 as [_ F2]. apply list.Forall_cons in F2 as [_ F2].
    apply Forall_app. split; [done|]. apply list.Forall_cons. split; [|done].
    unfold block_ok. cbn [b_addr b_size]. split_and!; try done; try lia. clear -B3 N3. Z.div_mod_to_equations. lia.
  - done.
Qed.

Lemma round8_spec size : 0 <= size < 2 ^ 62 → round8 size = (size + 7) / 8 * 8.
Proof.
  intros Hs. unfold round8. rewrite (u64_small (size + 7)) by lia.
  change (u64 (Z.lnot 7)) with (Z.ldiff (Z.ones 64) (Z.ones 3)).
  assert (Z.land (size + 7) (Z.ldiff (Z.ones 64) (Z.ones 3)) = Z.ldiff (size + 7) (Z.ones 3)) as ->.
  { apply Z.bits_inj'. intros n Hn. rewrite Z.land_spec, !Z.ldiff_spec. destruct (Z.lt_ge_cases n 64) as [Hlt|Hge].
    - rewrite (Z.ones_spec_low 64) by lia. done.
    - rewrite (Z.bits_above_log2 (size + 7)); [done|lia|]. apply Z.log2_lt_pow2; [lia|].
      apply Z.lt_le_trans with (2 ^ 64); [lia|]. by apply Z.pow_le_mono_r. }
  rewrite Z.ldiff_ones_r, Z.shiftl_mul_pow2, Z.shiftr_div_pow2 by lia. done.
Qed.

(** ** What the clients see *)

(** The blocks in use: inside the heap, 8-aligned, apart from every other
    header and from each other. *)
Definition clients_apart (u : uheap) (l : list block) : Prop :=
  ∀ l1 b l2, l = l1 ++ b :: l2 → b_free b = false → (b_addr b + 24) mod 8 = 0 ∧
    ∀ x, region b x → u_start u <= x < u_brk u ∧
      ∀ c, c ∈ l1 ++ l2 → ¬ b_addr c <= x < b_addr c + 24 ∧ (b_free c = false → ¬ region c x).

(** The data of the blocks in use is what it was. *)
Definition data_kept (m m' : phys) (l : list block) : Prop :=
  ∀ b x, b ∈ l → b_free b = false → region b x → rd8 m' x = rd8 m x.

Lemma heap_ok_apart u l : heap_ok u l → clients_apart u l.
Proof.
  intros Hk l1 b l2 -> Hfree. pose proof Hk as [_ _ Hlaid Hb [Hst _]].
  rewrite list.Forall_forall in Hb. destruct (Hb b) as (B1 & B2 & _); [apply elem_of_app; right; by left|].
  split; [clear -B2; Z.div_mod_to_equations; lia|]. unfold region. intros x Hx.
  apply laid_app in Hlaid as [L1 [L2 [Lu L3]]]. specialize (Lu Hfree).
  assert (Hn : nxt l2 (u_brk u) <= u_brk u).
  { destruct l2 as [|c l2]; simpl; [lia|]. destruct (laid_between _ _ c L3); [by left|]. lia. }
  split; [lia|]. intros c [Hc|Hc]%elem_of_app.
  - destruct (laid_between _ _ _ L1 Hc) as [_ H]. simpl in H. split; [lia|]. intros Hfc.
    apply list_elem_of_split in Hc as (k1 & k2 & ->). apply laid_app in L1 as [_ [_ [Hu Hk2]]]. specialize (Hu Hfc).
    assert (nxt k2 (b_addr b) <= b_addr b); [|simpl in Hu; lia].
    destruct k2 as [|d k2]; simpl; [lia|]. simpl in Hk2. destruct (laid_between (d :: k2) _ d Hk2); [by left|]. simpl in *. lia.
  - destruct (laid_between _ _ _ L3 Hc) as [H _]. split; lia.
Qed.

Lemma touched_data A m u l : heap_ok u l → (∀ a, a ∈ A → a ∈ addrs l) → touched A m (u_mem u) → data_kept m (u_mem u) l.
Proof.
  intros Hk HA Ht b x Hb Hf Hx. apply Ht. intros a Ha. apply HA, list_elem_of_fmap in Ha as (c & -> & Hc).
  apply list_elem_of_split in Hb as (l1 & l2 & ->).
  destruct (heap_ok_apart u _ Hk l1 b l2 eq_refl Hf) as [_ H]. destruct (H x Hx) as [_ H'].
  apply elem_of_app in Hc as [Hc|[->|Hc]%elem_of_cons].
  - apply H', elem_of_app. by left.
  - unfold region in Hx. lia.
  - apply H', elem_of_app. by right.
Qed.

Lemma head_rest u l : heap_ok u l → nxt l 0 = heap_head u.
Proof. by intros []. Qed.

Lemma malloc_fits u l1 b l2 size : heap_ok u (l1 ++ b :: l2) → 0 < size < 2 ^ 48 →
  let n := (size + 7) / 8 * 8 in
  Forall (λ b, ¬ fits n b) l1 → fits n b → b_addr b + 24 + extent n b <= nxt l2 (u_brk u) →
  ∃ m', malloc (S (length (l1 ++ b :: l2))) size u = Done (b_addr b + 24) (put_mem m' u) ∧
    heap_ok (put_mem m' u) (l1 ++ place n b ++ l2) ∧ data_kept (u_mem u) m' (l1 ++ place n b ++ l2).
Proof.
  intros Hk Hs n Hno Hfit Hroom. assert (Hn : 0 < n < 2 ^ 49 ∧ n mod 8 = 0) by (unfold n; Z.div_mod_to_equations; lia).
  destruct (take_block u l1 b l2 n Hk ltac:(lia) (proj2 Hn) Hfit Hroom) as (m' & Hrun & Hk' & Ht).
  assert (Hin : b ∈ l1 ++ b :: l2) by (apply elem_of_app; right; by left).
  destruct (header_in_heap u _ b Hk Hin) as (Hm & Hpos & _).
  exists m'. split; [|split; [exact Hk'|]].
  - unfold malloc. rewrite (proj2 (Z.eqb_neq _ _)) by lia. rewrite round8_spec by lia. fold n. cbv zeta.
    erewrite bind_Done by reflexivity. rewrite <- (head_rest _ _ Hk), nxt_snoc. cbn [nxt].
    rewrite length_app. cbn [length].
    replace (S (length l1 + S (length l2))) with (length l1 + (S (S (length l2))))%nat by lia.
    rewrite (bind_Done _ _ u (inl (b_addr b + 24)) (put_mem m' u)); [done|]. pose proof Hk as [_ Hlinks _ _ _]. apply links_app in Hlinks as [Hl1 [Hb _]].
    rewrite loop_walk; [|done|by eapply passed_over_all; [exact Hk|set_solver|done]].
    cbn [malloc_loop]. rewrite (proj2 (Z.eqb_neq _ _)) by lia. destruct Hb as (C1 & C2 & C3), Hfit as [Hfr Hle]. rewrite Hfr in C3.
    step_rd. step_rd. rewrite C1, C3. destruct (Z.geb_spec (b_size b) n); [|lia]. simpl negb. cbv iota. exact Hrun.
  - eapply (touched_data _ _ (put_mem m' u)); [exact Hk'| |exact Ht]. intros a Ha. unfold addrs. rewrite !fmap_app, !elem_of_app. tauto.
Qed.

Lemma malloc_grows u l size : heap_ok u l → 0 < size < 2 ^ 48 →
  let n := (size + 7) / 8 * 8 in
  let request := Z.max 4096 (n + 24) in
  let l' := l ++ place n (Blk (u_brk u) (request - 24) false) in
  Forall (λ b, ¬ fits n b) l → u_brk u + request < 2 ^ 47 →
  ∃ u', malloc (S (length l)) size u = Done (u_brk u + 24) u' ∧ heap_ok u' l' ∧
    u_start u' = u_start u ∧ u_brk u' = u_brk u + request ∧ data_kept (u_mem u) (u_mem u') l'.
Proof.
  intros Hk Hs n request l' Hno Hlim.
  assert (Hn : 0 < n < 2 ^ 49 ∧ n mod 8 = 0) by (unfold n; Z.div_mod_to_equations; lia).
  pose proof (hk_brk _ _ Hk) as (Hst & Hbrk & Hb8).
  destruct (append_block u l (request - 24) Hk) as (u1 & Hrun1 & Hk1 & Hbrk1 & Hst1 & Ht1); [lia| |lia|].
  { unfold request. clear -Hn. destruct (Z.max_spec 4096 (n + 24)) as [[_ ->]|[_ ->]]; Z.div_mod_to_equations; lia. }
  destruct (split_last u1 l (Blk (u_brk u) (request - 24) false) n Hk1) as (m' & Hrun2 & Hk2 & Ht2);
    [lia|apply Hn|done|cbn; lia|]. cbn [b_addr] in Hrun2.
  exists (put_mem m' u1). split; [|split; [exact Hk2|split; [done|split]]].
  - unfold malloc. rewrite (proj2 (Z.eqb_neq _ _)) by lia. rewrite round8_spec by lia. fold n. cbv zeta.
    erewrite bind_Done by reflexivity. rewrite <- (head_rest _ _ Hk).
    replace (S (length l)) with (length l + 1)%nat by lia.
    rewrite (bind_Done _ _ u (inr (last_addr 0 l)) u).
    2:{ rewrite loop_walk; [done|by apply Hk|by eapply passed_over_all; [exact Hk|done|]]. }
    unfold SIZEOF_HEADER, MALLOC_CHUNK_SIZE. rewrite (u64_small (n + 24)) by lia.
    assert ((if n + 24 >? 4096 then n + 24 else 4096) = request) as ->.
    { unfold request. destruct (Z.gtb_spec (n + 24) 4096); lia. }
    assert (Hreq : 4096 <= request < 2 ^ 50) by (unfold request; lia).
    assert (i64 request = request) as Hi by word_lia.
    rewrite (bind_Done (heap_grow request) _ u (u_brk u) (Uheap (u_mem u) (u_start u) (u_brk u + request) (heap_head u))).
    2:{ unfold heap_grow. rewrite Hi, (proj2 (Z.ltb_ge _ _)), u64_small by lia. done. }
    rewrite (proj2 (Z.eqb_neq _ _)) by (change (u64 (-1)) with (2 ^ 64 - 1); lia).
    rewrite (u64_small (request - 24)), (u64_small (u_brk u + 24)) by lia.
    replace (request - 24 + 24) with request in Hrun1 by lia.
    apply bind_Done_inv in Hrun1 as ([] & v1 & R1 & Hrun1). rewrite (bind_Done _ _ _ _ _ R1).
    apply bind_Done_inv in Hrun1 as ([] & v2 & R2 & Hrun1). rewrite (bind_Done _ _ _ _ _ R2).
    apply bind_Done_inv in Hrun1 as ([] & v3 & R3 & Hrun1). rewrite (bind_Done _ _ _ _ _ R3).
    rewrite (bind_Done _ _ _ _ _ Hrun1), (bind_Done _ _ _ _ _ Hrun2). done.
  - cbn. lia.
  - assert (Haddr : u_brk u ∈ addrs (place n (Blk (u_brk u) (request - 24) false))).
    { unfold place. destruct (_ <? _); by left. }
    eapply (touched_data (addrs l') _ (put_mem m' u1)); [exact Hk2|done|]. cbn [u_mem put_mem].
    eapply touched_trans; [eapply touched_more; [|exact Ht1]|eapply touched_more; [|exact Ht2]];
      intros a Ha; unfold l', addrs; rewrite fmap_app; apply elem_of_app; [|by right].
    apply elem_of_cons in Ha as [->|Ha]; [by right|by left].
Qed.

(** ** Termination *)

Definition no_loop {A} (m : M uheap A) : Prop := ∀ u, m u ≠ Diverge.

Lemma no_loop_bind {A B} (m : M uheap A) (f : A → M uheap B) : no_loop m → (∀ a, no_loop (f a)) → no_loop (m ≫= f).
Proof. intros Hm Hf u. unfold mbind, M_bind. specialize (Hm u). destruct (m u); try done. apply Hf. Qed.

Lemma no_loop_rd a f : no_loop (rd a f).
Proof. intros u. unfold rd. by case_decide. Qed.

Lemma no_loop_wr a f v : no_loop (wr a f v).
Proof. intros u. unfold wr. by case_decide. Qed.

Lemma no_loop_ret {A} (a : A) : no_loop (mret a).
Proof. done. Qed.

Create HintDb no_loop.
#[export] Hint Resolve no_loop_rd no_loop_wr no_loop_ret : no_loop.
#[export] Hint Extern 1 (no_loop (_ ≫= _)) => apply no_loop_bind; [|intros ?] : no_loop.
#[export] Hint Extern 1 (no_loop (if ?b then _ else _)) => destruct b : no_loop.

Lemma split_block_returns b size : no_loop (split_block b size).
Proof. unfold split_block. auto 20 with no_loop. Qed.

#[export] Hint Resolve split_block_returns : no_loop.

Lemma malloc_loop_returns size : ∀ l fuel prev u, links (u_mem u) l 0 → (length l < fuel)%nat →
  malloc_loop fuel size prev (nxt l 0) u ≠ Diverge.
Proof.
  induction l as [|b l IH]; intros [|fuel] prev u Hl Hf; simpl in Hf; try lia; [done|].
  destruct Hl as [(_ & H2 & _) Hl]. cbn [malloc_loop nxt]. destruct (b_addr b =? 0); [done|].
  unfold mbind, M_bind, rd. case_decide; [|done]. case_decide; [|done].
  destruct (_ && _).
  - assert (Hn : no_loop (split_block (b_addr b) size ;; wr (b_addr b) h_free 0 ;; mret (inl (u64 (b_addr b + SIZEOF_HEADER)) : Z + Z))).
    { auto 20 with no_loop. }
    exact (Hn u).
  - case_decide; [|done]. rewrite H2. apply IH; [done|lia].
Qed.

(** A free block that is too small and is its own successor: the walk never ends. *)
Lemma self_link_loops size a u : header_mapped u a → a ≠ 0 → get_field a h_next (u_mem u) = a →
  get_field a h_size (u_mem u) < size → ∀ fuel prev, malloc_loop fuel size prev a u = Diverge.
Proof.
  intros Hm Ha Hn Hs fuel. induction fuel as [|fuel IH]; intros prev; cbn [malloc_loop]; rewrite (proj2 (Z.eqb_neq _ _)) by done; [done|].
  step_rd. step_rd. destruct (Z.geb_spec (get_field a h_size (u_mem u)) size); [lia|]. rewrite andb_false_r.
  step_rd. rewrite Hn. apply IH.
Qed.

(** A process's heap before its first call. *)
Definition fresh_heap : uheap := Uheap ∅ 0x10000000 0x10000000 0.

Lemma fresh_heap_ok : heap_ok fresh_heap [].
Proof. split; cbn; try done. Qed.

(** Valid calls that break the list: the block of 128 bytes, split twice,
    claims the bytes of the block behind it. *)
Definition breaking_calls : M uheap Z :=
  a ← malloc 10 128; b ← malloc 10 8; free a ;; malloc 10 64 ;; malloc 10 40 ;; mret b.

Definition broken_heap : uheap := match breaking_calls fresh_heap with Done _ u => u | _ => fresh_heap end.

Definition broken_links : list block := [Blk 0x10000000 64 false; Blk 0x10000058 40 false].

Lemma broken_walk fuel : malloc_loop (2 + fuel) 1000 0 0x10000000 broken_heap = malloc_loop fuel 1000 0x10000058 0x10000098 broken_heap.
Proof.
  apply (loop_walk 1000 0x10000098 fuel broken_links).
  - vm_compute. by split_and!.
  - assert (Hm : ∀ a, 0x10000000 <= a < 0x10000100 → header_mapped broken_heap a).
    { intros a Ha. assert (u_start broken_heap = 0x10000000 ∧ u_brk broken_heap = 0x10001000) as [H1 H2] by (vm_compute; done).
      split; rewrite ?H1, ?H2; [lia|]. change ((268439552 + 4095) / 4096 * 4096) with 268439552. lia. }
    unfold broken_links. apply list.Forall_cons; split; [|apply Forall_singleton];
      (split; [apply Hm; cbn; lia|]; split; [by cbn|by intros [? _]]).
Qed.

Lemma broken_diverges fuel : malloc fuel 1000 broken_heap = Diverge.
Proof.
  assert (Hhead : heap_head broken_heap = 0x10000000) by (vm_compute; done).
  assert (Hd : malloc_loop fuel 1000 0 0x10000000 broken_heap = Diverge).
  { destruct fuel as [|[|fuel]]; [vm_compute; done|vm_compute; done|].
    change (S (S fuel)) with (2 + fuel)%nat. rewrite (broken_walk fuel). apply self_link_loops; [|done|vm_compute; done|vm_compute; done].
    split; vm_compute; by intros. }
  unfold malloc. change (1000 =? 0) with false. cbv iota. change (round8 1000) with 1000. cbv zeta.
  erewrite bind_Done by reflexivity. rewrite Hhead. unfold mbind, M_bind. by rewrite Hd.
Qed.

(** * Properties *)

(** C5. malloc() is first fit on the list of blocks. From a heap whose blocks
    are in order: the first free block that claims the size, rounded up to 8,
    is taken and its rest split off, if the block has the room (one as long as
    it claims always has); when none claims it the heap grows by a region of
    at least 4096 bytes that is split the same way; free() gives one block back
    and merges it with a free one behind it. Each leaves such a heap: what it
    returns is the data of its block, the blocks in use are inside the heap,
    8-aligned, apart from each other and from every header, and keep their
    bytes. malloc(0) is NULL and free(NULL) nothing. *)
Theorem malloc_first_fit u l size :
  heap_ok u l → 0 < size < 2 ^ 48 →
  let n := (size + 7) / 8 * 8 in let request := Z.max 4096 (n + 24) in
  clients_apart u l ∧
  (∀ l1 b l2, l = l1 ++ b :: l2 → Forall (λ b, ¬ fits n b) l1 → fits n b →
     b_addr b + 24 + extent n b <= nxt l2 (u_brk u) →
     ∃ m', malloc (S (length l)) size u = Done (b_addr b + 24) (put_mem m' u) ∧
       heap_ok (put_mem m' u) (l1 ++ place n b ++ l2) ∧ data_kept (u_mem u) m' (l1 ++ place n b ++ l2)) ∧
  (∀ l1 b l2, l = l1 ++ b :: l2 → fits n b → b_addr b + 24 + b_size b = nxt l2 (u_brk u) →
     b_addr b + 24 + extent n b <= nxt l2 (u_brk u)) ∧
  (Forall (λ b, ¬ fits n b) l → u_brk u + request < 2 ^ 47 →
     let l' := l ++ place n (Blk (u_brk u) (request - 24) false) in
     ∃ u', malloc (S (length l)) size u = Done (u_brk u + 24) u' ∧ heap_ok u' l' ∧
       u_start u' = u_start u ∧ u_brk u' = u_brk u + request ∧ data_kept (u_mem u) (u_mem u') l') ∧
  (∀ l1 b l2, l = l1 ++ b :: l2 → (∀ n l', l2 = n :: l' → b_size b + 24 + b_size n < 2 ^ 64) →
     ∃ m', free (b_addr b + 24) u = Done tt (put_mem m' u) ∧
       heap_ok (put_mem m' u) (l1 ++ release b l2) ∧ data_kept (u_mem u) m' (l1 ++ release b l2)) ∧
  malloc (S (length l)) 0 u = Done 0 u ∧ free 0 u = Done tt u.
Proof.
  intros Hk Hs n request. split; [by apply heap_ok_apart|]. split; [|split; [|split; [|split]]].
  - intros l1 b l2 -> Hno Hfit Hroom. by apply malloc_fits.
  - intros l1 b l2 _ [_ Hle] Hroom. unfold extent. destruct (Z.ltb_spec (b_size b) (n + 25)); lia.
  - intros Hno Hlim. by apply malloc_grows.
  - intros l1 b l2 -> Hsum. destruct (release_block u l1 b l2 Hk Hsum) as (m' & Hrun & Hk' & Ht).
    exists m'. split; [done|]. split; [done|]. eapply (touched_data _ _ (put_mem m' u)); [exact Hk'| |exact Ht].
    intros a ->%list_elem_of_singleton. unfold addrs. rewrite fmap_app. apply elem_of_app. right.
    unfold release. destruct l2 as [|c l2]; [by left|]. destruct (b_free c); by left.
  - done.
Qed.

(** C8. malloc() returns exactly as long as the list of blocks ends. On any
    list that ends, well laid out or not, a walk of its length is enough. But
    split_block() can make a list that does not end: from an empty heap, after
    malloc(128), malloc(8), free() of the first, malloc(64) and malloc(40),
    all of them valid, the header of the second block is its own successor and
    malloc(1000) never returns. *)
Theorem malloc_terminates :
  (∀ u l size, links (u_mem u) l 0 → heap_head u = nxt l 0 → malloc (S (length l)) size u ≠ Diverge) ∧
  heap_ok fresh_heap [] ∧
  breaking_calls fresh_heap = Done 0x100000B0 broken_heap ∧
  ∀ fuel, malloc fuel 1000 broken_heap = Diverge.
Proof.
  split; [|split; [exact fresh_heap_ok|split; [vm_compute; reflexivity|exact broken_diverges]]].
  intros u l size Hl Hh. unfold malloc. destruct (size =? 0); [done|]. cbv zeta.
  erewrite bind_Done by reflexivity. rewrite Hh.
  pose proof (malloc_loop_returns (round8 size) l (S (length l)) 0 u Hl ltac:(lia)) as Hd.
  unfold mbind at 1, M_bind at 1. destruct (malloc_loop _ _ _ _ u) as [[p|prev] u'| | |]; try done.
  assert (Hg : ∀ r, no_loop (heap_grow r)) by (intros r v; unfold heap_grow; by destruct (_ <? 0)).
  assert (Hh' : ∀ r, no_loop (set_heap_head r)) by done.
  match goal with |- ?m u' ≠ Diverge => assert (Hn : no_loop m) by auto 30 with no_loop; exact (Hn u') end.
Qed.

(** ** Witness *)

Lemma malloc_first_fit_witness : ∃ u', malloc 1 20 fresh_heap = Done 0x10000018 u' ∧
  heap_ok u' [Blk 0x10000000 24 false; Blk 0x10000030 4048 true].
Proof.
  destruct (malloc_first_fit fresh_heap [] 20 fresh_heap_ok) as (_ & _ & _ & H & _); [lia|].
  destruct H as (u' & Hrun & Hk & _); [by constructor|reflexivity|].
  exists u'. split; [exact Hrun|exact Hk].
Defined.
