(* ===== verification/Objects.v ===== *)
(** The structures of the file systems, as objects on the kernel heap:
    include/file_system/vfs.h, shadowfs.h, procfs.h and devfs.h.

    Every structure the file systems allocate with kmalloc() is an object of
    [objects], at the address kmalloc() returned; kfree() removes it. A read
    or write through a pointer that is null, freed or of another type is the
    outcome [Fault]. [Struct] says how a structure type is stored, and what
    sizeof gives. A char[64] is given by its content, a pointer to a static
    table (the mount table, the device table, a table of operations) by the
    index of its entry. The wall clock is a sequence of readings. *)

From S2P Require Import Prelude CString Rtc Heap Paging Process.

(** * Structures *)

(** The three tables of operations a pointer fs_ops_t* may lead to. *)
Inductive ops_table := shadowfs_ops | procfs_ops | devfs_ops.

#[export] Instance ops_table_eq_dec : EqDecision ops_table.
Proof. solve_decision. Defined.

Record inode_t := Inode {
  inode_num : Z; i_type : Z; i_size : Z; permissions : Z; uid : Z; gid : Z;
  created : Z; modified : Z; accessed : Z; link_count : Z;
  i_ops : option ops_table; i_sb : option nat; i_private : Z }.

Record file_t := File { f_inode : Z; position : Z; f_flags : Z; ref_count : Z; f_private : Z }.

Record dentry_t := Dentry { d_name : list Z; d_inode : Z; d_type : Z }.

Record superblock_t := Superblock {
  mount_point : list Z; sb_root : Z; sb_ops : option ops_table; sb_private : Z; sb_flags : Z }.

Record shadowfs_block_t := Block { b_data : Z; b_used : Z; b_next : Z }.

Record shadowfs_dentry_t := SDentry { e_name : list Z; e_inode : Z; e_next : Z }.

(** The union of a file's {blocks, block_count} and a directory's
    {entries, count}: both are a pointer and a uint32_t. *)
Record shadowfs_inode_t := SInode { s_head : Z; s_count : Z }.

Record shadowfs_mount_t := SMount { quota : Z; m_used : Z; next_inode_num : Z; m_root_inode : Z }.

Inductive procfs_inode_type_t := PROCFS_ROOT | PROCFS_PID_DIR | PROCFS_PID_FILE | PROCFS_INFO_FILE.

Record procfs_inode_t := PInode { pr_type : procfs_inode_type_t; pr_pid : Z; pr_name : list Z }.

(** The handlers of a device are given by the addresses of the functions. *)
Record devfs_device_t := Device { dev_name : list Z; dev_read : option Z; dev_write : option Z }.

Record devfs_mount_t := DMount { dev_count : Z; capacity : Z; dev_root_inode : Z }.

Record devfs_inode_t := DInode { device : option nat }.

(** * Objects *)

Inductive object :=
  | OInode (x : inode_t)
  | OFile (x : file_t)
  | OBlock (x : shadowfs_block_t)
  | OSDentry (x : shadowfs_dentry_t)
  | OSInode (x : shadowfs_inode_t)
  | OSMount (x : shadowfs_mount_t)
  | OPInode (x : procfs_inode_t)
  | ODInode (x : devfs_inode_t).

Definition obj_size (o : object) : Z :=
  match o with
  | OInode _ => 64 | OFile _ => 32 | OBlock _ => 24 | OSDentry _ => 80
  | OSInode _ => 16 | OSMount _ => 24 | OPInode _ => 24 | ODInode _ => 8
  end.

Class Struct (A : Type) := {
  inj : A → object;
  prj : object → option A;
  prj_inj x : prj (inj x) = Some x;
  prj_Some o x : prj o = Some x → o = inj x;
  inj_size x y : obj_size (inj x) = obj_size (inj y);
}.



#[global] Arguments inj {A _} _ : simpl never.
#[global] Arguments prj {A _} _ : simpl never.

#[export, refine] Instance inode_struct : Struct inode_t :=
  {| inj := OInode; prj o := match o with OInode x => Some x | _ => None end |}.
Proof. all: try by intros []; naive_solver. Defined.
#[export, refine] Instance file_struct : Struct file_t :=
  {| inj := OFile; prj o := match o with OFile x => Some x | _ => None end |}.
Proof. all: try by intros []; naive_solver. Defined.
#[export, refine] Instance block_struct : Struct shadowfs_block_t :=
  {| inj := OBlock; prj o := match o with OBlock x => Some x | _ => None end |}.
Proof. all: try by intros []; naive_solver. Defined.
#[export, refine] Instance sdentry_struct : Struct shadowfs_dentry_t :=
  {| inj := OSDentry; prj o := match o with OSDentry x => Some x | _ => None end |}.
Proof. all: try by intros []; naive_solver. Defined.
#[export, refine] Instance sinode_struct : Struct shadowfs_inode_t :=
  {| inj := OSInode; prj o := match o with OSInode x => Some x | _ => None end |}.
Proof. all: try by intros []; naive_solver. Defined.
#[export, refine] Instance smount_struct : Struct shadowfs_mount_t :=
  {| inj := OSMount; prj o := match o with OSMount x => Some x | _ => None end |}.
Proof. all: try by intros []; naive_solver. Defined.
#[export, refine] Instance pinode_struct : Struct procfs_inode_t :=
  {| inj := OPInode; prj o := match o with OPInode x => Some x | _ => None end |}.
Proof. all: try by intros []; naive_solver. Defined.
#[export, refine] Instance dinode_struct : Struct devfs_inode_t :=
  {| inj := ODInode; prj o := match o with ODInode x => Some x | _ => None end |}.
Proof. all: try by intros []; naive_solver. Defined.

Record world := World {
  objects : gmap Z object;
  mount_table : list superblock_t; mount_count : Z;
  file_table : list Z;
  devfs_mount_data : devfs_mount_t; device_table : list devfs_device_t;
  clock_reads : nat }.

Abbreviation kw := (kernel * world)%type.

Definition with_objects (f : gmap Z object → gmap Z object) (w : world) : world :=
  World (f (objects w)) (mount_table w) (mount_count w) (file_table w)
    (devfs_mount_data w) (device_table w) (clock_reads w).
Definition with_mounts (f : list superblock_t → list superblock_t) (n : Z) (w : world) : world :=
  World (objects w) (f (mount_table w)) n (file_table w)
    (devfs_mount_data w) (device_table w) (clock_reads w).
Definition with_files (f : list Z → list Z) (w : world) : world :=
  World (objects w) (mount_table w) (mount_count w) (f (file_table w))
    (devfs_mount_data w) (device_table w) (clock_reads w).
Definition with_devices (d : devfs_mount_t) (f : list devfs_device_t → list devfs_device_t) (w : world) : world :=
  World (objects w) (mount_table w) (mount_count w) (file_table w) d (f (device_table w)) (clock_reads w).
Definition with_clock (n : nat) (w : world) : world :=
  World (objects w) (mount_table w) (mount_count w) (file_table w)
    (devfs_mount_data w) (device_table w) n.

(** Everything but the heap objects and the clock. *)
Definition statics (w : world) : list superblock_t * Z * list Z * devfs_mount_t * list devfs_device_t :=
  (mount_table w, mount_count w, file_table w, devfs_mount_data w, device_table w).

Definition in_world {A} (m : M world A) : M kw A := zoom snd (λ w s, (s.1, w)) m.

(** * Allocation and access *)

(** p = kmalloc(sizeof(A)); *p = x. *)
Definition new {A} `{!Struct A} (x : A) : M kw Z :=
  p ← in_kernel (in_heap (kmalloc (obj_size (inj x))));
  in_world (modify (with_objects <[p := inj x]>)) ;;
  mret p.

(** *p *)
Definition fetch (A : Type) `{!Struct A} (p : Z) : M kw A :=
  o ← in_world (gets (λ w, objects w !! p ≫= prj)); access o.

(** kfree(p) of a pointer to an A: the object is gone. *)
Definition dispose (A : Type) `{!Struct A} (p : Z) : M kw unit :=
  if p =? 0 then mret tt
  else
    _ ← fetch A p;
    in_kernel (in_heap (kfree p)) ;;
    in_world (modify (with_objects (delete p))).

(** *p = x *)
Definition put {A} `{!Struct A} (p : Z) (x : A) : M kw unit :=
  _ ← fetch A p;
  in_world (modify (with_objects <[p := inj x]>)).

Definition change {A} `{!Struct A} (p : Z) (f : A → A) : M kw unit :=
  x ← fetch A p; put p (f x).

(** * The wall clock *)

Class Clock := wall : nat → rtc_time_t.

Section WithClock.
Context `{C : Clock}.

Definition now : M kw Z :=
  n ← in_world (gets clock_reads);
  in_world (modify (with_clock (S n))) ;;
  mret (rtc_now_epoch (wall n)).

End WithClock.

(** * Setters *)

Definition set_position (v : Z) (x : file_t) : file_t :=
  File (f_inode x) v (f_flags x) (ref_count x) (f_private x).
Definition set_ref_count (v : Z) (x : file_t) : file_t :=
  File (f_inode x) (position x) (f_flags x) v (f_private x).
Definition set_i_size (v : Z) (x : inode_t) : inode_t :=
  Inode (inode_num x) (i_type x) v (permissions x) (uid x) (gid x) (created x) (modified x)
    (accessed x) (link_count x) (i_ops x) (i_sb x) (i_private x).
Definition set_modified (v : Z) (x : inode_t) : inode_t :=
  Inode (inode_num x) (i_type x) (i_size x) (permissions x) (uid x) (gid x) (created x) v
    (accessed x) (link_count x) (i_ops x) (i_sb x) (i_private x).
Definition set_accessed (v : Z) (x : inode_t) : inode_t :=
  Inode (inode_num x) (i_type x) (i_size x) (permissions x) (uid x) (gid x) (created x) (modified x)
    v (link_count x) (i_ops x) (i_sb x) (i_private x).
Definition set_inode_num (v : Z) (x : inode_t) : inode_t :=
  Inode v (i_type x) (i_size x) (permissions x) (uid x) (gid x) (created x) (modified x)
    (accessed x) (link_count x) (i_ops x) (i_sb x) (i_private x).
Definition set_sb_root (v : Z) (x : superblock_t) : superblock_t :=
  Superblock (mount_point x) v (sb_ops x) (sb_private x) (sb_flags x).

(** * Rules *)

Lemma fetch_Done {A} `{!Struct A} p (x : A) k w :
  objects w !! p = Some (inj x) → fetch A p (k, w) = Done x (k, w).
Proof. intros H. unfold fetch, in_world, zoom. run. simpl. rewrite H. simpl. by rewrite prj_inj. Qed.

Lemma put_Done {A} `{!Struct A} p (x y : A) k w :
  objects w !! p = Some (inj y) → put p x (k, w) = Done tt (k, with_objects <[p := inj x]> w).
Proof. intros H. unfold put. by rewrite (bind_Done _ _ _ _ _ (fetch_Done _ _ _ _ H)). Qed.

Lemma change_Done {A} `{!Struct A} p (x : A) f k w :
  objects w !! p = Some (inj x) → change p f (k, w) = Done tt (k, with_objects <[p := inj (f x)]> w).
Proof.
  intros H. unfold change. rewrite (bind_Done _ _ _ _ _ (fetch_Done _ _ _ _ H)). by eapply put_Done.
Qed.

Lemma with_objects_compose f g w : with_objects f (with_objects g w) = with_objects (λ m, f (g m)) w.
Proof. done. Qed.

Lemma now_Done `{!Clock} k w :
  now (k, w) = Done (rtc_now_epoch (wall (clock_reads w))) (k, with_clock (S (clock_reads w)) w).
Proof. done. Qed.

(** * Objects lie in distinct regions of the heap *)

Definition with_heap (h : heap) (k : kernel) : kernel := Kernel (k_sched k) (k_vm k) h.

Definition owned (s : kw) : Prop :=
  ∃ l, heap_inv (k_heap s.1) l ∧ ∀ p o, objects s.2 !! p = Some o → (p, obj_size o) ∈ l.

Lemma obj_size_pos o : 0 < obj_size o <= 80.
Proof. destruct o; simpl; lia. Qed.

Lemma owned_nonnull s p o : owned s → objects s.2 !! p = Some o → 0 < p < 2 ^ 64.
Proof.
  intros (l & HI & Hl) Hp. apply Hl in Hp. apply (heap_inv_region _ _ _ _ HI) in Hp.
  pose proof (obj_size_pos o). unfold HEAP_START, HEADER_SIZE, Heap.HEAP_SIZE in Hp. lia.
Qed.

Lemma owned_ext (s s' : kw) : owned s → k_heap s'.1 = k_heap s.1 → objects s'.2 = objects s.2 → owned s'.
Proof. unfold owned. by intros H -> ->. Qed.

Lemma owned_put {A} `{!Struct A} p (x y : A) k w :
  owned (k, w) → objects w !! p = Some (inj y) → owned (k, with_objects <[p := inj x]> w).
Proof.
  intros (l & HI & Hl) Hp. exists l. split; [done|]. intros q o. simpl.
  destruct (decide (p = q)) as [->|Hne].
  - rewrite lookup_insert_eq. intros [= <-]. rewrite (inj_size x y). by apply Hl.
  - rewrite lookup_insert_ne by done. apply Hl.
Qed.

Lemma new_spec {A} `{!Struct A} (x : A) k w :
  owned (k, w) →
  new x (k, w) = Panic out_of_memory ∨
  ∃ p h, new x (k, w) = Done p (with_heap h k, with_objects <[p := inj x]> w) ∧
    objects w !! p = None ∧ p ≠ 0 ∧ owned (with_heap h k, with_objects <[p := inj x]> w).
Proof.
  intros (l & HI & Hl). pose proof (obj_size_pos (inj x)) as Hsize. unfold new.
  destruct (heap_inv_kmalloc _ _ (obj_size (inj x)) HI) as [Hk|(p & h & Hk & HI')]; [simpl; lia| |].
  - left. unfold mbind, M_bind, in_kernel, in_heap, zoom. simpl in *. by rewrite Hk.
  - right. exists p, h. unfold mbind, M_bind, in_kernel, in_heap, zoom. simpl in *. rewrite Hk. split; [done|].
    assert (Hnone : objects w !! p = None).
    { destruct (objects w !! p) as [o|] eqn:Ho; [|done]. apply Hl in Ho.
      apply list_elem_of_lookup_1 in Ho as [i Hi].
      destruct (heap_inv_disjoint _ _ 0 (S i) _ _ _ _ HI' ltac:(done) ltac:(done) Hi);
        pose proof (obj_size_pos o); unfold HEADER_SIZE in *; lia. }
    assert (owned (with_heap h k, with_objects <[p := inj x]> w)) as Hown.
    { exists ((p, obj_size (inj x)) :: l). split; [done|]. intros q o. simpl.
      destruct (decide (p = q)) as [->|Hne].
      - rewrite lookup_insert_eq. intros [= <-]. by left.
      - rewrite lookup_insert_ne by done. intros Hq. right. by apply Hl. }
    split_and!; [done| |done].
    eapply (owned_nonnull _ p (inj x)) in Hown; [lia|]. simpl. by rewrite lookup_insert_eq.
Qed.

Lemma dispose_spec {A} `{!Struct A} k w p (x : A) :
  owned (k, w) → objects w !! p = Some (inj x) →
  ∃ h, dispose A p (k, w) = Done tt (with_heap h k, with_objects (delete p) w) ∧
    owned (with_heap h k, with_objects (delete p) w).
Proof.
  intros Hown Hp. pose proof (owned_nonnull _ _ _ Hown Hp). destruct Hown as (l & HI & Hl).
  pose proof (Hl _ _ Hp) as Hin. apply list_elem_of_lookup_1 in Hin as [i Hi].
  apply take_drop_middle in Hi. rewrite <- Hi in HI.
  destruct (heap_inv_kfree _ _ _ _ _ HI) as (h & Hk & HI'). exists h. split.
  - unfold dispose. rewrite (proj2 (Z.eqb_neq _ _)), (bind_Done _ _ _ _ _ (fetch_Done _ _ _ _ Hp)) by lia.
    unfold mbind, M_bind, in_kernel, in_heap, zoom. simpl in *. by rewrite Hk.
  - eexists. split; [exact HI'|]. intros q o'. simpl. intros [Hne Hq]%lookup_delete_Some.
    apply Hl in Hq. rewrite <- Hi in Hq. apply elem_of_app in Hq as [|[|]%elem_of_cons]; simplify_eq; set_solver.
Qed.

(** ** Inversion: what an access that went well did *)

Section Inversion.
Context {A : Type} `{HA : !Struct A}.
Implicit Types x y : A.

Lemma fetch_inv p x s s' : fetch A p s = Done x s' → s' = s ∧ objects s.2 !! p = Some (inj x).
Proof.
  destruct s as [k w]. unfold fetch, in_world, zoom. run. simpl.
  destruct (objects w !! p) as [o|]; simpl; [|done]. destruct (prj o) as [y|] eqn:Hy; [|done].
  intros [= -> <-]. split; [done|]. f_equal. by apply prj_Some.
Qed.

Lemma put_inv p x k w u s' : put p x (k, w) = Done u s' →
  ∃ y, objects w !! p = Some (inj y) ∧ s' = (k, with_objects <[p := inj x]> w).
Proof.
  intros H. apply bind_Done_inv in H as (y & t & [-> Hy]%fetch_inv & H). exists y. split; [done|].
  cbv in H. by injection H as <- <-.
Qed.

Lemma change_inv p f k w u s' : change p f (k, w) = Done u s' →
  ∃ x, objects w !! p = Some (inj x) ∧ s' = (k, with_objects <[p := inj (f x)]> w).
Proof.
  intros H. apply bind_Done_inv in H as (x & t & [-> Hx]%fetch_inv & H).
  apply put_inv in H as (y & _ & ->). by exists x.
Qed.

Lemma new_inv x k w p s' : owned (k, w) → new x (k, w) = Done p s' →
  ∃ h, s' = (with_heap h k, with_objects <[p := inj x]> w) ∧ objects w !! p = None ∧ p ≠ 0 ∧ owned s'.
Proof.
  intros Hown H. destruct (new_spec x _ _ Hown) as [Hn|(q & h & Hn & Hq & H0 & Ho)]; [congruence|].
  rewrite Hn in H. injection H as <- <-. by exists h.
Qed.

Lemma dispose_inv p k w u s' : owned (k, w) → dispose A p (k, w) = Done u s' →
  (p = 0 ∧ s' = (k, w)) ∨
  ∃ x h, objects w !! p = Some (inj x) ∧ s' = (with_heap h k, with_objects (delete p) w) ∧ owned s'.
Proof.
  intros Hown H. pose proof H as H'. unfold dispose in H'. destruct (Z.eqb_spec p 0) as [-> |].
  { left. by injection H' as <- <-. }
  apply bind_Done_inv in H' as (x & t & [-> Hx]%fetch_inv & _). simpl in Hx.
  destruct (dispose_spec _ _ _ x Hown Hx) as (h & Hd & Ho). rewrite Hd in H. injection H as <- <-. eauto 10.
Qed.

End Inversion.

(** The inode constructors of devFS and procFS: an inode and its private data. *)
Lemma new_inode_spec {A} `{!Struct A} (z : inode_t) (y0 y : A) (f : Z → inode_t) k w :
  owned (k, w) →
  let m := inode ← new z; private ← new y0; put private y ;; put inode (f private) ;; mret inode in
  m (k, w) = Panic out_of_memory ∨
  ∃ ino priv h w', m (k, w) = Done ino (with_heap h k, w') ∧
    w' = with_objects (λ o, <[priv := inj y]> (<[ino := inj (f priv)]> o)) w ∧
    owned (with_heap h k, w') ∧ ino ≠ 0 ∧ priv ≠ 0 ∧ ino ≠ priv ∧
    objects w !! ino = None ∧ objects w !! priv = None.
Proof.
  intros Hown. cbv zeta.
  destruct (new_spec z k w Hown) as [Hn|(ino & h1 & Hn & Hino & Hino0 & Hown1)]; [left; by apply bind_Panic|].
  rewrite (bind_Done _ _ _ _ _ Hn).
  destruct (new_spec y0 _ _ Hown1) as [Hn2|(priv & h2 & Hn2 & Hpriv & Hpriv0 & Hown2)]; [left; by apply bind_Panic|].
  rewrite (bind_Done _ _ _ _ _ Hn2). right. clear Hn Hn2. simpl in Hpriv.
  apply lookup_insert_None in Hpriv as [Hpriv Hne].
  set (w2 := with_objects _ (with_objects _ w)) in *. set (k2 := with_heap h2 _) in *.
  assert (H2 : objects w2 !! priv = Some (inj y0)) by (simpl; by rewrite lookup_insert_eq).
  rewrite (bind_Done _ _ _ _ _ (put_Done _ y _ k2 w2 H2)).
  pose proof (owned_put _ y _ _ _ Hown2 H2) as Hown3. set (w3 := with_objects _ w2) in *.
  assert (H3 : objects w3 !! ino = Some (inj z)).
  { simpl. rewrite !lookup_insert_ne, lookup_insert_eq by congruence. done. }
  rewrite (bind_Done _ _ _ _ _ (put_Done _ (f priv) _ k2 w3 H3)).
  pose proof (owned_put _ (f priv) _ _ _ Hown3 H3) as Hown4.
  exists ino, priv, h2, (with_objects <[ino := inj (f priv)]> w3).
  split; [done|]. split; [|by split_and!].
  unfold w3, w2. rewrite !with_objects_compose. unfold with_objects. f_equal.
  apply map_eq. intros q. rewrite !lookup_insert. repeat case_decide; congruence.
Qed.

(** What an operation that makes an inode leaves alone. *)
Record adds_inode (s s' : kw) (p : Z) : Prop := {
  adds_owned : owned s';
  adds_nonnull : p ≠ 0;
  adds_fresh : objects s.2 !! p = None;
  adds_keeps q o : objects s.2 !! q = Some o → objects s'.2 !! q = Some o;
  adds_mounts : mount_table s'.2 = mount_table s.2 ∧ mount_count s'.2 = mount_count s.2;
  adds_files : file_table s'.2 = file_table s.2;
  adds_kernel : k_sched s'.1 = k_sched s.1 ∧ k_vm s'.1 = k_vm s.1 }.

(** Two addresses differ because the objects there do. *)
Ltac distinct :=
  let E := fresh in intros E;
  match goal with
  | H1 : ?m !! ?p = Some _, H2 : ?m !! ?q = Some _ |- _ =>
      match type of E with
      | p = q => rewrite E in H1; rewrite H1 in H2; discriminate H2
      | q = p => rewrite <- E in H1; rewrite H1 in H2; discriminate H2
      end
  | H1 : ?m !! ?p = None, H2 : ?m !! ?q = Some _ |- _ =>
      match type of E with
      | p = q => rewrite E in H1; rewrite H1 in H2; discriminate H2
      | q = p => rewrite <- E in H1; rewrite H1 in H2; discriminate H2
      end
  end.

(** * Linked lists of objects *)

Section Chain.
Context {A : Type} `{HA : !Struct A} (next : A → Z).
Implicit Types l : list (Z * A).

(** From [p] on the objects [l] are linked, address and content, up to a null pointer. *)
Fixpoint chain (m : gmap Z object) (p : Z) (l : list (Z * A)) : Prop :=
  match l with
  | [] => p = 0
  | (a, x) :: l => p = a ∧ a ≠ 0 ∧ m !! a = Some (inj x) ∧ chain m (next x) l
  end.

Lemma chain_det m p l l' : chain m p l → chain m p l' → l = l'.
Proof.
  revert p l'. induction l as [|[a x] l IH]; intros p [|[a' x'] l']; simpl.
  - done.
  - intros -> (-> & ? & _). done.
  - intros (-> & ? & _) ->. done.
  - intros (-> & _ & Hx & Hl) (<- & _ & Hx' & Hl'). rewrite Hx in Hx'.
    apply (f_equal (λ o, o ≫= prj)) in Hx'. simpl in Hx'. rewrite !prj_inj in Hx'. simplify_eq.
    f_equal. by eapply IH.
Qed.

Lemma chain_app m p l1 a x l2 : chain m p (l1 ++ (a, x) :: l2) → chain m a ((a, x) :: l2).
Proof.
  revert p. induction l1 as [|[b y] l1 IH]; intros p; simpl; [by intros (-> & ?)|].
  intros (_ & _ & _ & H). by eapply IH.
Qed.

Lemma chain_NoDup m p l : chain m p l → NoDup l.*1.
Proof.
  intros H. apply NoDup_alt. intros i j a Hi Hj. rewrite list_lookup_fmap in Hi, Hj.
  apply fmap_Some in Hi as ([a1 x] & Hi & ->). apply fmap_Some in Hj as ([a2 y] & Hj & E). simpl in E. subst a2.
  apply take_drop_middle in Hi as Ei. apply take_drop_middle in Hj as Ej.
  assert (Hx := H). rewrite <- Ei in Hx. apply chain_app in Hx. rewrite <- Ej in H. apply chain_app in H.
  pose proof (chain_det _ _ _ _ Hx H) as E. injection E as _ E. apply (f_equal length) in E.
  rewrite !length_drop in E. apply lookup_lt_Some in Hi, Hj. lia.
Qed.

Lemma chain_lookup m p l a x : chain m p l → (a, x) ∈ l → a ≠ 0 ∧ m !! a = Some (inj x).
Proof.
  revert p. induction l as [|[b y] l IH]; intros p; simpl; [by intros _ ?%not_elem_of_nil|].
  intros (_ & Hb & Hy & H) [E|Hin]%elem_of_cons; [by simplify_eq|by eapply IH].
Qed.

Lemma chain_size m p l : chain m p l → (length l <= size m)%nat.
Proof.
  intros H. rewrite <- (length_fmap fst). apply chain_NoDup in H as Hnd.
  rewrite <- (size_list_to_set (C := gset Z) l.*1 Hnd), <- size_dom. apply subseteq_size.
  intros a Ha. apply elem_of_list_to_set, list_elem_of_fmap in Ha as ([b x] & -> & Hin).
  apply (chain_lookup _ _ _ _ _ H) in Hin as [_ Hx]. by apply elem_of_dom_2 in Hx.
Qed.

(** Changes elsewhere do not matter. *)
Lemma chain_frame m m' p l : (∀ a x, (a, x) ∈ l → m !! a = Some (inj x) → m' !! a = Some (inj x)) →
  chain m p l → chain m' p l.
Proof.
  revert p. induction l as [|[a x] l IH]; intros p Hm; simpl; [done|].
  intros (-> & Ha & Hx & H). split; [done|]. split; [done|]. split; [apply Hm; [left|done]|].
  apply IH; [|done]. intros b y Hin. apply Hm. by right.
Qed.

Lemma chain_insert_ne m p l a o : a ∉ l.*1 → chain m p l → chain (<[a := o]> m) p l.
Proof.
  intros Ha. apply chain_frame. intros b y Hin Hy. rewrite lookup_insert_ne; [done|].
  intros ->. apply Ha. apply list_elem_of_fmap. by exists (b, y).
Qed.

Lemma chain_delete_ne m p l a : a ∉ l.*1 → chain m p l → chain (delete a m) p l.
Proof.
  intros Ha. apply chain_frame. intros b y Hin Hy. rewrite lookup_delete_ne; [done|].
  intros ->. apply Ha. apply list_elem_of_fmap. by exists (b, y).
Qed.

(** An address that holds nothing, or another structure, is not in the list. *)
Lemma chain_not_in m p l a : chain m p l → m !! a ≫= prj (A := A) = None → a ∉ l.*1.
Proof.
  intros H Ha Hin. apply list_elem_of_fmap in Hin as ([b x] & -> & Hin). simpl in Ha.
  apply (chain_lookup _ _ _ _ _ H) in Hin as [_ Hx]. rewrite Hx in Ha. simpl in Ha. by rewrite prj_inj in Ha.
Qed.

(** An object is linked to a list that is there already. *)
Lemma chain_link m p l a x x' l0 l' : chain m p (l ++ (a, x) :: l0) → chain (<[a := inj x']> m) (next x') l' →
  chain (<[a := inj x']> m) p (l ++ (a, x') :: l').
Proof.
  intros H Hn. assert (Hnd := chain_NoDup _ _ _ H). revert p H. rewrite fmap_app in Hnd.
  apply list.NoDup_app in Hnd as (_ & Hd & _).
  induction l as [|[b y] l IH]; intros p; simpl.
  - intros (-> & Ha & _). split_and!; [done|done|by rewrite lookup_insert_eq|done].
  - intros (-> & Hb & Hy & H). split_and!; [done|done| |].
    + rewrite lookup_insert_ne; [done|]. intros ->. apply (Hd b); simpl; by left.
    + apply IH; [|done]. intros c Hc. apply Hd. simpl. by right.
Qed.

End Chain.
