(* ===== verification/Vfs.v ===== *)
(** The virtual file system: file_system/vfs/vfs.c.

    A file system is seen through its table of operations, a [fs_ops] with
    [None] for a null entry; [Filesystems] gives the tables. Strings are given
    by their contents, on which kstrcmp() == 0 and kstreq() decide equality
    (CString.kstr_comparisons). A buffer is its address, for the null checks,
    and the bytes read into it or written from it. Writing a 64-byte name
    buffer past its end is the outcome [Fault]. *)

From S2P Require Import Prelude CString Pmm Heap Phys Paging Sched Process Objects.

Definition VFS_MAX_MOUNTS : Z := 16.
Definition VFS_MAX_FDS : Z := 256.
Definition VFS_MAX_PATH : Z := 64.
Definition VFS_MAX_NAME : Z := 64.
Definition VFS_TYPE_FILE : Z := 1.
Definition VFS_TYPE_DIR : Z := 2.
Definition O_RDONLY : Z := 0.
Definition O_WRONLY : Z := 1.
Definition O_CREAT : Z := 4.
Definition O_APPEND : Z := 8.
Definition O_TRUNC : Z := 16.
Definition slash : Z := 47.

Record fs_ops := FsOps {
  op_lookup : option (Z → list Z → M kw Z);
  op_create : option (Z → list Z → Z → M kw Z);
  op_delete : option (Z → list Z → M kw Z);
  op_truncate : option (Z → Z → M kw Z);
  op_open : option (Z → Z → M kw Z);
  op_close : option (Z → Z → M kw Z);
  op_read : option (Z → Z → Z → M kw (Z * list Z));
  op_write : option (Z → Z → list Z → M kw Z);
  op_readdir : option (Z → option dentry_t → M kw (Z * option dentry_t));
  op_mkdir : option (Z → list Z → M kw Z) }.

Class Filesystems := ops_of : ops_table → fs_ops.

(** * Mounts *)

Definition vfs_init : M world unit :=
  modify (λ w, with_mounts (fmap (λ sb, Superblock [] 0 None 0 (sb_flags sb))) (mount_count w) w) ;;
  modify (with_files (fmap (λ _, 0))) ;;
  modify (with_mounts id 0).

Definition vfs_mount (path : list Z) (ops : option ops_table) (private_data : Z) : M world Z :=
  w ← get;
  if VFS_MAX_MOUNTS <=? mount_count w then mret (-1)
  else if existsb (λ sb, bool_decide (mount_point sb = path)) (take (Z.to_nat (mount_count w)) (mount_table w))
  then mret (-1)
  else
    modify (with_mounts
      <[Z.to_nat (mount_count w) := Superblock (kstrcpy_val path VFS_MAX_PATH) 0 ops private_data 0]>
      (mount_count w + 1)) ;;
    mret 0.

(** No byte of [mount] differs from the byte of [path] at its place. *)
Fixpoint is_prefix (mount path : list Z) : bool :=
  match mount, path with
  | [], _ => true
  | c :: mount, d :: path => (c =? d) && is_prefix mount path
  | _, [] => false
  end.

(** The entry of the longest mount point that is a prefix of [path]. *)
Fixpoint find_mount_loop (path : list Z) (i : nat) (t : list superblock_t) (best : option nat) (best_len : Z) : option nat :=
  match t with
  | [] => best
  | sb :: t =>
      let mlen := Z.of_nat (length (mount_point sb)) in
      if is_prefix (mount_point sb) path && (best_len <? mlen)
      then find_mount_loop path (S i) t (Some i) mlen
      else find_mount_loop path (S i) t best best_len
  end.

Definition vfs_find_mount (w : world) (path : list Z) : option nat :=
  find_mount_loop path 0 (take (Z.to_nat (mount_count w)) (mount_table w)) None (-1).

(** * Paths *)

(** The bytes before the next slash, and the rest from the slash on. *)
Fixpoint next_component (path : list Z) : list Z * list Z :=
  match path with
  | [] => ([], [])
  | c :: path' =>
      if c =? slash then ([], path)
      else let '(component, rest) := next_component path' in (c :: component, rest)
  end.

Definition skip_slash (path : list Z) : list Z :=
  match path with c :: path' => if c =? slash then path' else path | [] => [] end.

(** The index of the last slash among the first [n] bytes, -1 for none. *)
Fixpoint last_slash (n : nat) (path : list Z) : Z :=
  match n with
  | O => -1
  | S n => if bool_decide (path !! n = Some slash) then Z.of_nat n else last_slash n path
  end.

(** The parent's path and the name in it, copied to 64-byte buffers; [None]
    when the copy leaves a buffer (or the string, when it is empty). *)
Definition split_parent (path : list Z) : option (list Z * list Z) :=
  let last := last_slash (length path) path in
  if last <=? 0 then
    match path with
    | [] => None
    | _ :: name => Some ([slash], kstrcpy_val name VFS_MAX_NAME)
    end
  else if VFS_MAX_PATH <=? last then None
  else Some (take (Z.to_nat last) path, kstrcpy_val (drop (Z.to_nat last + 1) path) VFS_MAX_NAME).

(** * Descriptors *)

Definition vfs_alloc_fd (file : Z) : M world Z :=
  t ← gets file_table;
  match find_slot 3 (drop 3 t) with
  | Some fd => modify (with_files <[fd := file]>) ;; mret (Z.of_nat fd)
  | None => mret (-1)
  end.

Definition bad_fd (fd : Z) : bool := (fd <? 0) || (VFS_MAX_FDS <=? fd).

Definition vfs_free_fd (fd : Z) : M world unit :=
  if bad_fd fd then mret tt else modify (with_files <[Z.to_nat fd := 0]>).

Definition vfs_get_file (fd : Z) : M world Z :=
  if bad_fd fd then mret 0 else t ← gets file_table; access (t !! Z.to_nat fd).

Section Vfs.
Context `{FS : Filesystems}.

(** inode->ops && inode->ops->f *)
Definition op {A} (f : fs_ops → option A) (x : inode_t) : option A := t ← i_ops x; f (ops_of t).

(** * Path resolution *)

Fixpoint walk (n : nat) (path : list Z) (current : Z) : M kw Z :=
  match n with
  | O => diverge
  | S n =>
      match path with
      | [] => mret current
      | _ =>
          let '(component, rest) := next_component path in
          if VFS_MAX_NAME <=? Z.of_nat (length component) then fault
          else
            match component with
            | [] => walk n (skip_slash rest) current
            | _ =>
                dir ← fetch inode_t current;
                match op op_lookup dir with
                | None => mret 0
                | Some lookup =>
                    next ← lookup current component;
                    if next =? 0 then mret 0 else walk n (skip_slash rest) next
                end
            end
      end
  end.

Definition vfs_resolve_path (path : list Z) : M kw Z :=
  w ← in_world get;
  match vfs_find_mount w path with
  | None => mret 0
  | Some i =>
      sb ← access (mount_table w !! i);
      let current := sb_root sb in
      if current =? 0 then mret 0
      else if bool_decide (path = mount_point sb) then mret current
      else if bool_decide (path = [slash]) then mret current
      else
        let rest := skip_slash (drop (length (mount_point sb)) path) in
        walk (S (length rest)) rest current
  end.

(** * Opening *)

(** The inode of a file that does not exist yet, 0 when it cannot be made. *)
Definition create_file (path : list Z) : M kw Z :=
  '(parent_path, filename) ← access (split_parent path);
  parent ← vfs_resolve_path parent_path;
  if parent =? 0 then mret 0
  else
    x ← fetch inode_t parent;
    match op op_create x with
    | None => mret 0
    | Some create => create parent filename VFS_TYPE_FILE
    end.

Definition truncate_on_open (inode : Z) : M kw unit :=
  x ← fetch inode_t inode;
  match op op_truncate x with
  | None => mret tt
  | Some truncate => truncate inode 0 ;; mret tt
  end.

Definition vfs_open_file (path : list Z) (flags : Z) : M kw Z :=
  found ← vfs_resolve_path path;
  inode ← (if negb (found =? 0) then mret found
           else if negb (flag flags O_CREAT) then mret 0
           else create_file path);
  if inode =? 0 then mret 0
  else
    file ← new (File inode 0 flags 1 0);
    (if flag flags O_TRUNC then truncate_on_open inode else mret tt) ;;
    x ← fetch inode_t inode;
    result ← match op op_open x with None => mret 0 | Some open => open inode file end;
    if result <? 0 then dispose file_t file ;; mret 0
    else
      (if flag flags O_APPEND then
         x ← fetch inode_t inode; change file (set_position (i_size x))
       else mret tt) ;;
      mret file.

Definition vfs_open (path : list Z) (flags : Z) : M kw Z :=
  file ← vfs_open_file path flags;
  if file =? 0 then mret (-1)
  else
    fd ← in_world (vfs_alloc_fd file);
    if fd <? 0 then dispose file_t file ;; mret (-1) else mret fd.

Definition vfs_open_at (path : list Z) (flags fd : Z) : M kw Z :=
  if bad_fd fd then mret (-1)
  else
    file ← vfs_open_file path flags;
    if file =? 0 then mret (-1)
    else
      t ← in_world (gets file_table);
      old ← access (t !! Z.to_nat fd);
      (if negb (old =? 0) then dispose file_t old else mret tt) ;;
      in_world (modify (with_files <[Z.to_nat fd := file]>)) ;;
      mret fd.

Definition call_close (inode file : Z) : M kw unit :=
  if inode =? 0 then mret tt
  else
    x ← fetch inode_t inode;
    match op op_close x with None => mret tt | Some close => close inode file ;; mret tt end.

Definition vfs_close (fd : Z) : M kw Z :=
  file ← in_world (vfs_get_file fd);
  if file =? 0 then mret (-1)
  else
    x ← fetch file_t file;
    call_close (f_inode x) file ;;
    change file (λ x, set_ref_count (u32 (ref_count x - 1)) x) ;;
    x ← fetch file_t file;
    (if ref_count x =? 0 then dispose file_t file else mret tt) ;;
    in_world (vfs_free_fd fd) ;;
    mret 0.

(** * Reading, writing, seeking *)

(** inode && inode->ops && inode->ops->f, of the inode at [p]. *)
Definition op_at {A} (f : fs_ops → option A) (p : Z) : M kw (option A) :=
  if p =? 0 then mret None else x ← fetch inode_t p; mret (op f x).

Definition vfs_read (fd buf size : Z) : M kw (Z * list Z) :=
  file ← in_world (vfs_get_file fd);
  if file =? 0 then mret (-1, [])
  else
    x ← fetch file_t file;
    if f_flags x =? O_WRONLY then mret (-1, [])
    else
      o ← op_at op_read (f_inode x);
      match o with None => mret (-1, []) | Some read => read file buf size end.

Definition vfs_seek (fd offset whence : Z) : M kw Z :=
  file ← in_world (vfs_get_file fd);
  if file =? 0 then mret (-1)
  else
    x ← fetch file_t file;
    if (whence =? 0) || (whence =? 1) then
      let position := u32 (position x + offset) in
      change file (set_position position) ;;
      mret (i32 position)
    else if whence =? 2 then
      inode ← fetch inode_t (f_inode x);
      let position := u32 (i_size inode + offset) in
      change file (set_position position) ;;
      mret (i32 position)
    else mret (-1).

Definition vfs_write (fd buf : Z) (data : list Z) : M kw Z :=
  file ← in_world (vfs_get_file fd);
  if file =? 0 then mret (-1)
  else
    x ← fetch file_t file;
    if f_flags x =? O_RDONLY then mret (-1)
    else
      o ← op_at op_write (f_inode x);
      match o with None => mret (-1) | Some write => write file buf data end.

(** * Directories *)

Definition vfs_mkdir (path : list Z) : M kw Z :=
  '(parent_path, dirname) ← access (split_parent path);
  parent ← vfs_resolve_path parent_path;
  if parent =? 0 then mret (-1)
  else
    x ← fetch inode_t parent;
    if negb (i_type x =? VFS_TYPE_DIR) then mret (-1)
    else
      match op op_mkdir x with
      | None => mret (-1)
      | Some mkdir => result ← mkdir parent dirname; mret (if result <? 0 then -1 else 0)
      end.

Definition vfs_readdir (fd : Z) (dentry : option dentry_t) : M kw (Z * option dentry_t) :=
  file ← in_world (vfs_get_file fd);
  if file =? 0 then mret (-1, dentry)
  else
    x ← fetch file_t file;
    if f_inode x =? 0 then mret (-1, dentry)
    else
      inode ← fetch inode_t (f_inode x);
      if negb (i_type inode =? VFS_TYPE_DIR) then mret (-1, dentry)
      else
        match op op_readdir inode with
        | None => mret (-1, dentry)
        | Some readdir => readdir file dentry
        end.

Definition vfs_delete (path : list Z) : M kw Z :=
  '(parent_path, filename) ← access (split_parent path);
  parent ← vfs_resolve_path parent_path;
  if parent =? 0 then mret (-1)
  else
    x ← fetch inode_t parent;
    match op op_delete x with
    | None => mret (-1)
    | Some delete => result ← delete parent filename; mret (if result <? 0 then -1 else 0)
    end.

End Vfs.

(** * Specification *)

Fixpoint split_on_slash (path : list Z) : list (list Z) :=
  match path with
  | [] => [[]]
  | c :: path =>
      if c =? slash then [] :: split_on_slash path
      else match split_on_slash path with [] => [[c]] | n :: ns => (c :: n) :: ns end
  end.

(** The names in a path; empty ones, as between two slashes, do not count. *)
Definition components (path : list Z) : list (list Z) :=
  filter (λ n, n ≠ []) (split_on_slash path).

Definition short (name : list Z) : Prop := Z.of_nat (length name) < VFS_MAX_NAME.

(** [i] is the mount with the longest mount point that begins [path], the
    first of its length. *)
Definition owner (w : world) (path : list Z) (i : nat) (sb : superblock_t) : Prop :=
  let t := take (Z.to_nat (mount_count w)) (mount_table w) in
  t !! i = Some sb ∧ mount_point sb `prefix_of` path ∧
  ∀ j sb', t !! j = Some sb' → mount_point sb' `prefix_of` path →
    (length (mount_point sb') <= length (mount_point sb))%nat ∧
    (j < i → length (mount_point sb') < length (mount_point sb))%nat.

Section Resolution.
Context `{FS : Filesystems}.

(** One lookup after the other, from the directory [current]. *)
Fixpoint look_up_all (names : list (list Z)) (current : Z) : M kw Z :=
  match names with
  | [] => mret current
  | name :: names =>
      dir ← fetch inode_t current;
      match op op_lookup dir with
      | None => mret 0
      | Some lookup =>
          next ← lookup current name;
          if next =? 0 then mret 0 else look_up_all names next
      end
  end.

Lemma next_component_split path :
  let '(component, rest) := next_component path in
  path = component ++ rest ∧
  ∃ names, split_on_slash path = component :: names ∧
    ((rest = [] ∧ names = []) ∨ rest = slash :: skip_slash rest ∧ names = split_on_slash (skip_slash rest)).
Proof.
  induction path as [|c path IH]; cbn [next_component split_on_slash].
  - split; [done|]. exists []. auto.
  - destruct (Z.eqb_spec c slash) as [-> |Hne].
    + split; [done|]. eexists. split; [done|]. right. simpl. done.
    + destruct (next_component path) as [component rest]. destruct IH as (-> & names & -> & Hn).
      split; [done|]. exists names. done.
Qed.

Lemma components_next path :
  let '(component, rest) := next_component path in
  components path = (if bool_decide (component = []) then [] else [component]) ++ components (skip_slash rest).
Proof.
  pose proof (next_component_split path) as H. destruct (next_component path) as [component rest].
  destruct H as (_ & names & Hs & Hn). unfold components. rewrite Hs.
  assert (filter (λ n : list Z, n ≠ []) names = filter (λ n, n ≠ []) (split_on_slash (skip_slash rest))) as <-.
  { by destruct Hn as [[-> ->]|[_ ->]]. }
  by destruct component.
Qed.

Lemma next_component_shorter path : path ≠ [] →
  let '(component, rest) := next_component path in (length (skip_slash rest) < length path)%nat.
Proof.
  intros Hp. pose proof (next_component_split path) as H.
  destruct (next_component path) as [component rest]. destruct H as (-> & names & _ & [[-> _]|[Hr _]]).
  - simpl. rewrite length_app. destruct component; [done|simpl; lia].
  - rewrite Hr at 2. rewrite length_app. simpl. lia.
Qed.

Lemma walk_components n : ∀ path current s,
  (length path < n)%nat → Forall short (components path) →
  walk n path current s = look_up_all (components path) current s.
Proof.
  induction n as [|n IH]; intros path current s Hn Hshort; [lia|]. cbn [walk].
  destruct (decide (path = [])) as [-> |Hp]; [done|].
  pose proof (next_component_shorter path Hp) as Hlen. pose proof (components_next path) as Hc.
  assert (Hw : ∀ A B, match path with [] => A | _ => B end = B :> M kw Z) by (by destruct path).
  rewrite Hw. clear Hw. destruct (next_component path) as [component rest]. rewrite Hc in Hshort |- *.
  destruct component as [|c component].
  - simpl in *. apply IH; [lia|done].
  - rewrite bool_decide_false in * by done. apply list.Forall_cons in Hshort as [Hs Hshort].
    rewrite (proj2 (Z.leb_gt _ _) Hs). cbn [app look_up_all].
    apply bind_ext. intros dir s'. destruct (op op_lookup dir) as [lookup|]; [|done].
    apply bind_ext. intros next s''. destruct (next =? 0); [done|]. apply IH; [lia|done].
Qed.

Lemma is_prefix_spec mount path : is_prefix mount path = true ↔ mount `prefix_of` path.
Proof.
  revert path. induction mount as [|c mount IH]; intros path; simpl.
  - split; [intros _; apply prefix_nil|done].
  - destruct path as [|d path].
    + split; [done|]. intros H. by apply prefix_nil_not in H.
    + rewrite andb_true_iff, Z.eqb_eq, IH. split.
      * intros [-> H]. by apply prefix_cons.
      * intros H. split; [by eapply prefix_cons_inv_1|by eapply prefix_cons_inv_2].
Qed.

(** What the loop knows after the first entries [seen]. *)
Definition best_of (path : list Z) (seen : list superblock_t) (best : option nat) (best_len : Z) : Prop :=
  match best with
  | None => best_len = -1 ∧ ∀ sb, sb ∈ seen → ¬ mount_point sb `prefix_of` path
  | Some i => ∃ sb, seen !! i = Some sb ∧ best_len = Z.of_nat (length (mount_point sb)) ∧
      mount_point sb `prefix_of` path ∧
      ∀ j sb', seen !! j = Some sb' → mount_point sb' `prefix_of` path →
        (length (mount_point sb') <= length (mount_point sb))%nat ∧
        (j < i → length (mount_point sb') < length (mount_point sb))%nat
  end.

Lemma best_of_snoc path seen best best_len sb :
  best_of path seen best best_len →
  if is_prefix (mount_point sb) path && (best_len <? Z.of_nat (length (mount_point sb)))
  then best_of path (seen ++ [sb]) (Some (length seen)) (Z.of_nat (length (mount_point sb)))
  else best_of path (seen ++ [sb]) best best_len.
Proof.
  intros H. destruct (is_prefix (mount_point sb) path) eqn:Hp; simpl.
  - apply is_prefix_spec in Hp. destruct (Z.ltb_spec best_len (Z.of_nat (length (mount_point sb)))) as [Hl|Hl].
    + exists sb. split; [by apply list_lookup_middle|]. split; [done|]. split; [done|].
      intros j sb' [Hj|[Hge Hj]]%lookup_app_Some Hp'.
      * assert (length (mount_point sb') < length (mount_point sb))%nat; [|lia].
        destruct best as [i|]; simpl in H.
        -- destruct H as (sb0 & _ & -> & _ & Hmax). destruct (Hmax j sb' Hj Hp'). lia.
        -- destruct H as [_ Hno]. destruct (Hno sb'); [by eapply list_elem_of_lookup_2|done].
      * apply list_lookup_singleton_Some in Hj as [Hz <-]. split; [done|lia].
    + destruct best as [i|]; simpl in H; [|destruct H; lia].
      destruct H as (sb0 & Hi & -> & Hp0 & Hmax). exists sb0. split; [by apply lookup_app_l_Some|].
      split; [done|]. split; [done|]. intros j sb' [Hj|[Hge Hj]]%lookup_app_Some Hp'; [by eapply Hmax|].
      apply list_lookup_singleton_Some in Hj as [Hz <-]. apply lookup_lt_Some in Hi. lia.
  - assert (Hn : ¬ mount_point sb `prefix_of` path) by (rewrite <- is_prefix_spec; by rewrite Hp).
    destruct best as [i|]; simpl in H |- *.
    + destruct H as (sb0 & Hi & -> & Hp0 & Hmax). exists sb0. split; [by apply lookup_app_l_Some|].
      split; [done|]. split; [done|]. intros j sb' [Hj|[Hge Hj]]%lookup_app_Some Hp'; [by eapply Hmax|].
      by apply list_lookup_singleton_Some in Hj as [Hz <-].
    + destruct H as [-> Hno]. split; [done|]. intros sb' [?| ->%list_elem_of_singleton]%elem_of_app; auto.
Qed.

Lemma find_mount_loop_spec path t : ∀ seen best best_len,
  best_of path seen best best_len →
  ∃ best_len', best_of path (seen ++ t) (find_mount_loop path (length seen) t best best_len) best_len'.
Proof.
  induction t as [|sb t IH]; intros seen best best_len H; simpl.
  - rewrite app_nil_r. by exists best_len.
  - apply (best_of_snoc _ _ _ _ sb) in H.
    rewrite cons_middle, (assoc_L (++)). replace (S (length seen)) with (length (seen ++ [sb]))
      by (rewrite length_app; simpl; lia).
    destruct (_ && _); by eapply IH.
Qed.

Lemma find_mount_spec w path :
  match vfs_find_mount w path with
  | None => ∀ sb, sb ∈ take (Z.to_nat (mount_count w)) (mount_table w) → ¬ mount_point sb `prefix_of` path
  | Some i => ∃ sb, owner w path i sb
  end.
Proof.
  destruct (find_mount_loop_spec path (take (Z.to_nat (mount_count w)) (mount_table w)) [] None (-1)) as [n H].
  { split; [done|]. intros sb Hsb. by apply not_elem_of_nil in Hsb. }
  simpl in H. unfold vfs_find_mount. destruct (find_mount_loop _ _ _ _ _) as [i|]; [|naive_solver].
  destruct H as (sb & Hi & _ & Hp & Hmax). exists sb. done.
Qed.

Lemma components_skip_slash path : components (skip_slash path) = components path.
Proof.
  destruct path as [|c path]; [done|]. simpl. destruct (Z.eqb_spec c slash) as [-> |]; [|done].
  unfold components. cbn [split_on_slash]. by rewrite Z.eqb_refl.
Qed.

Lemma resolve_owned path k w i sb :
  vfs_find_mount w path = Some i → owner w path i sb →
  Forall short (components (drop (length (mount_point sb)) path)) →
  vfs_resolve_path path (k, w) =
    (if sb_root sb =? 0 then mret 0
     else look_up_all (components (drop (length (mount_point sb)) path)) (sb_root sb)) (k, w).
Proof.
  intros Hf (Hi & Hp & _) Hshort. unfold vfs_resolve_path.
  rewrite (bind_Done _ _ (k, w) w (k, w)) by done. rewrite Hf.
  apply lookup_take_Some in Hi as [Hi _]. rewrite (bind_Done _ _ (k, w) sb (k, w)) by (unfold access; by rewrite Hi).
  cbv zeta. destruct (sb_root sb =? 0); [done|]. destruct Hp as [rest ->]. rewrite drop_app_length in *.
  case_bool_decide as Hm.
  { apply (f_equal length) in Hm. rewrite length_app in Hm. by destruct rest; [|simpl in Hm; lia]. }
  case_bool_decide as Hs.
  { assert (components rest = []) as ->; [|done].
    destruct (mount_point sb) as [|c [|]]; simplify_eq/=; done. }
  rewrite walk_components; [by rewrite components_skip_slash|lia|by rewrite components_skip_slash].
Qed.

End Resolution.

(** A name of 64 bytes or more overruns the buffer it is copied to. *)
Lemma long_component_overflows `{FS : Filesystems} name current s :
  name ≠ [] → Forall (λ c, c ≠ slash) name → ¬ short name → walk (S (length name)) name current s = Fault.
Proof.
  intros Hne Hs Hl. cbn [walk]. assert (next_component name = (name, [])) as ->.
  { clear Hne Hl. induction Hs as [|c name Hc _ IH]; [done|]. cbn [next_component].
    by rewrite (proj2 (Z.eqb_neq _ _) Hc), IH. }
  rewrite (proj2 (Z.leb_le _ _)) by (unfold short in Hl; lia). by destruct name.
Qed.

(** C33. equivalence: vfs_resolve_path() looks up, one after the other, the
    names of the path behind the mount point that owns it - the longest one
    that begins the path - starting from that file system's root, whatever
    slashes are doubled, leading or trailing; it gives null when no mount
    point begins the path, when the file system has no root, and as soon as
    a lookup gives null. (Names must fit the 64-byte buffer.) *)
Theorem resolve_path_components `{FS : Filesystems} (path : list Z) (k : kernel) (w : world) :
  match vfs_find_mount w path with
  | None =>
      (∀ sb, sb ∈ take (Z.to_nat (mount_count w)) (mount_table w) → ¬ mount_point sb `prefix_of` path) ∧
      vfs_resolve_path path (k, w) = Done 0 (k, w)
  | Some i =>
      ∃ sb, owner w path i sb ∧
        (Forall short (components (drop (length (mount_point sb)) path)) →
         vfs_resolve_path path (k, w) =
           (if sb_root sb =? 0 then mret 0
            else look_up_all (components (drop (length (mount_point sb)) path)) (sb_root sb)) (k, w))
  end.
Proof.
  pose proof (find_mount_spec w path) as H. destruct (vfs_find_mount w path) as [i|] eqn:Hf.
  - destruct H as [sb Hsb]. exists sb. split; [done|]. by apply (resolve_owned _ _ _ i).
  - split; [done|]. unfold vfs_resolve_path. rewrite (bind_Done _ _ (k, w) w (k, w)) by done. by rewrite Hf.
Qed.

(** * Descriptors *)

(** The open files: the file structures, their positions left out. *)
Definition open_files (s : kw) : gmap Z file_t := set_position 0 <$> omap (M := gmap Z) prj (objects s.2).

(** What the operations of a file system leave alone. *)
Record same_files (s s' : kw) : Prop := {
  same_owned : owned s → owned s';
  same_table : file_table s'.2 = file_table s.2;
  same_mounts : mount_table s'.2 = mount_table s.2 ∧ mount_count s'.2 = mount_count s.2;
  same_open : owned s → open_files s' = open_files s }.

Definition framed {A} (m : M kw A) : Prop := ∀ s a s', m s = Done a s' → same_files s s'.

(** What the virtual file system asks of a file system. *)
Class FilesystemLaws `{FS : Filesystems} : Prop := {
  law_lookup t f d n : op_lookup (ops_of t) = Some f → framed (f d n);
  law_create t f d n ty : op_create (ops_of t) = Some f → framed (f d n ty);
  law_delete t f d n : op_delete (ops_of t) = Some f → framed (f d n);
  law_truncate t f i n : op_truncate (ops_of t) = Some f → framed (f i n);
  law_open t f i p : op_open (ops_of t) = Some f → framed (f i p);
  law_close t f i p : op_close (ops_of t) = Some f → framed (f i p);
  law_read t f p b n : op_read (ops_of t) = Some f → framed (f p b n);
  law_write t f p b d : op_write (ops_of t) = Some f → framed (f p b d);
  law_readdir t f p d : op_readdir (ops_of t) = Some f → framed (f p d);
  law_mkdir t f d n : op_mkdir (ops_of t) = Some f → framed (f d n) }.

#[export] Instance same_files_preorder : PreOrder same_files.
Proof.
  split.
  - intros s. by split.
  - intros s1 s2 s3 [o1 t1 [m1 c1] f1] [o2 t2 [m2 c2] f2]. split; try (intuition congruence).
Qed.

Lemma framed_ret {A} (a : A) : framed (mret a).
Proof. intros s b s' [= <- <-]. done. Qed.
Lemma framed_fault {A} : framed (A := A) fault.
Proof. intros s b s' [=]. Qed.
Lemma framed_diverge {A} : framed (A := A) diverge.
Proof. intros s b s' [=]. Qed.
Lemma framed_kpanic {A} m : framed (A := A) (kpanic m).
Proof. intros s b s' [=]. Qed.
Lemma framed_access {A} (o : option A) : framed (access o).
Proof. destruct o; [apply framed_ret|apply framed_fault]. Qed.
Lemma framed_bind {A B} (m : M kw A) (f : A → M kw B) : framed m → (∀ a, framed (f a)) → framed (m ≫= f).
Proof. intros Hm Hf s b s' (a & t & H1 & H2)%bind_Done_inv. etrans; [by eapply Hm|by eapply Hf]. Qed.
Lemma framed_gets {A} (f : world → A) : framed (in_world (gets f)).
Proof. intros [k w] b s' [= <- <-]. done. Qed.
Lemma framed_get_file fd : framed (in_world (vfs_get_file fd)).
Proof.
  unfold vfs_get_file. destruct (bad_fd fd); intros [k w] b s'; unfold in_world, zoom; run; simpl.
  - intros [= <- <-]. done.
  - destruct (_ !! _); [|done]. intros [= <- <-]. done.
Qed.

Lemma framed_fetch A `{!Struct A} p : framed (fetch A p).
Proof. intros s x s' [-> _]%fetch_inv. done. Qed.

(** The other structures are not file structures. *)
Class NotFile (A : Type) `{!Struct A} : Prop := not_file (x : A) : prj (A := file_t) (inj x) = None.

#[export] Instance inode_not_file : NotFile inode_t. Proof. done. Qed.
#[export] Instance block_not_file : NotFile shadowfs_block_t. Proof. done. Qed.
#[export] Instance sdentry_not_file : NotFile shadowfs_dentry_t. Proof. done. Qed.
#[export] Instance sinode_not_file : NotFile shadowfs_inode_t. Proof. done. Qed.
#[export] Instance smount_not_file : NotFile shadowfs_mount_t. Proof. done. Qed.
#[export] Instance pinode_not_file : NotFile procfs_inode_t. Proof. done. Qed.
#[export] Instance dinode_not_file : NotFile devfs_inode_t. Proof. done. Qed.

Lemma open_files_insert k k' w p o :
  open_files (k', with_objects <[p := o]> w) =
  partial_alter (λ _, set_position 0 <$> prj o) p (open_files (k, w)).
Proof.
  apply map_eq. intros q. unfold open_files. simpl. rewrite lookup_fmap, lookup_omap, lookup_insert.
  case_decide as Hq; [subst q; rewrite lookup_partial_alter_eq; reflexivity|].
  by rewrite lookup_partial_alter_ne, lookup_fmap, lookup_omap by done.
Qed.

Lemma open_files_delete k k' w p : open_files (k', with_objects (delete p) w) = delete p (open_files (k, w)).
Proof.
  apply map_eq. intros q. unfold open_files. simpl. rewrite lookup_fmap, lookup_omap.
  destruct (decide (p = q)) as [-> |].
  - by rewrite !lookup_delete_eq.
  - by rewrite !lookup_delete_ne, lookup_fmap, lookup_omap.
Qed.

Lemma open_files_lookup k w p : open_files (k, w) !! p = set_position 0 <$> (objects w !! p ≫= prj).
Proof. unfold open_files. simpl. by rewrite lookup_fmap, lookup_omap. Qed.

Lemma prj_inj_set {A} `{!Struct A} (m : gmap Z object) p (x : A) : m !! p = Some (inj x) → m !! p ≫= prj = Some x.
Proof. intros ->. simpl. apply prj_inj. Qed.

Section NotFile.
Context {A : Type} `{HA : !Struct A} `{HN : !NotFile A}.

Lemma not_open k w p (x : A) : objects w !! p = Some (inj x) → open_files (k, w) !! p = None.
Proof. intros Hx. rewrite open_files_lookup, Hx. unfold mbind, option_bind. by rewrite not_file. Qed.

(** Replacing, adding or removing a structure that is no file structure. *)
Lemma open_files_put k k' w p (x : A) : open_files (k, w) !! p = None →
  open_files (k', with_objects <[p := inj x]> w) = open_files (k, w).
Proof. intros Hy. rewrite (open_files_insert k). apply partial_alter_id. by rewrite Hy, not_file. Qed.

Lemma open_files_new k k' w p (x : A) : objects w !! p = None →
  open_files (k', with_objects <[p := inj x]> w) = open_files (k, w).
Proof. intros Hp. apply open_files_put. by rewrite open_files_lookup, Hp. Qed.

Lemma open_files_dispose k k' w p (x : A) : objects w !! p = Some (inj x) →
  open_files (k', with_objects (delete p) w) = open_files (k, w).
Proof. intros Hp. rewrite (open_files_delete k). apply delete_id. by eapply not_open. Qed.

Lemma framed_put p (x : A) : framed (put p x).
Proof.
  intros [k w] u s' (y & Hy & ->)%put_inv. split; [|done..|].
  - intros H. by eapply owned_put.
  - intros _. by eapply open_files_put, not_open.
Qed.

Lemma framed_change p (f : A → A) : framed (change p f).
Proof. apply framed_bind; [apply framed_fetch|]. intros x. apply framed_put. Qed.

Lemma framed_new (x : A) : framed (new x).
Proof.
  intros [k w] p s' H. split.
  - intros Ho. by apply new_inv in H as (h & _ & _ & _ & ?).
  - unfold new, in_kernel, in_heap, in_world, zoom in H. revert H. run. simpl.
    destruct (kmalloc _ _); [|done..]. by intros [= <- <-].
  - unfold new, in_kernel, in_heap, in_world, zoom in H. revert H. run. simpl.
    destruct (kmalloc _ _); [|done..]. by intros [= <- <-].
  - intros Ho. apply new_inv in H as (h & -> & Hp & _ & _); [|done]. by eapply open_files_new.
Qed.

Lemma framed_dispose p : framed (dispose A p).
Proof.
  intros [k w] u s' H. assert (H' := H). unfold dispose, in_kernel, in_heap, in_world, zoom in H'.
  destruct (p =? 0) eqn:Hp0; [by injection H' as <- <-|].
  apply bind_Done_inv in H' as (x & t & [-> Hx]%fetch_inv & H'). revert H'. run. simpl.
  destruct (kfree _ _); [|done..]. intros [= <- <-]. split; [|done..|].
  - intros Ho. apply dispose_inv in H as [[-> _]|(y & h & _ & -> & ?)]; done.
  - intros Ho. by eapply open_files_dispose.
Qed.

End NotFile.

Lemma framed_change_file p (f : file_t → file_t) :
  (∀ x, set_position 0 (f x) = set_position 0 x) → framed (change p f).
Proof.
  intros Hf [k w] u s' (x & Hx & ->)%change_inv. split; [|done..|].
  - intros H. by eapply owned_put.
  - intros _. rewrite (open_files_insert k). apply partial_alter_id.
    rewrite open_files_lookup, Hx, !prj_inj. simpl. by rewrite Hf.
Qed.

Lemma framed_now `{C : Clock} : framed now.
Proof. intros [k w] n s'. rewrite now_Done. by intros [= <- <-]. Qed.

(** The rest of the kernel has no file structures. *)
Lemma framed_in_vm {A} (m : M vm A) : framed (in_kernel (in_vm m)).
Proof.
  intros [k w] a s'. unfold in_kernel, in_vm, zoom. simpl. destruct (m _); [|done..]. by intros [= <- <-].
Qed.
Lemma framed_in_sched {A} (m : M sched A) : framed (in_kernel (in_sched m)).
Proof.
  intros [k w] a s'. unfold in_kernel, in_sched, zoom. simpl. destruct (m _); [|done..]. by intros [= <- <-].
Qed.

Create HintDb framed.
#[export] Hint Resolve framed_ret framed_fault framed_diverge framed_kpanic framed_access framed_gets
  framed_get_file framed_fetch framed_now framed_in_vm framed_in_sched : framed.
#[export] Hint Extern 1 (framed (put _ _)) => apply framed_put : framed.
#[export] Hint Extern 1 (framed (change _ _)) => apply framed_change : framed.
#[export] Hint Extern 1 (framed (new _)) => apply framed_new : framed.
#[export] Hint Extern 1 (framed (dispose _ _)) => apply framed_dispose : framed.

(** Along the code: sequences, conditions and cases. *)
Ltac framed :=
  repeat first
    [ progress (auto with framed)
    | lazymatch goal with
      | |- framed (op_at _ _ ≫= _) => fail
      | |- framed (_ ≫= _) => apply framed_bind; [|intros ?]
      end
    | match goal with
      | |- framed (if ?b then _ else _) => destruct b
      | |- framed (match ?x with _ => _ end) => destruct x eqn:?
      | |- framed (let '_ := ?x in _) => destruct x
      | |- framed (let x := _ in _) => cbv zeta
      end ].

Section Laws.
Context `{L : FilesystemLaws}.

Lemma op_Some {B} (f : fs_ops → option B) x g : op f x = Some g → ∃ t, f (ops_of t) = Some g.
Proof. unfold op. intros (t & _ & H)%bind_Some. by exists t. Qed.

(** An operation found in a table obeys its law. *)
Ltac lawful :=
  match goal with
  | H : op _ _ = Some _ |- _ => apply op_Some in H as [? H]; first
      [ by eapply law_lookup in H | by eapply law_create in H | by eapply law_delete in H
      | by eapply law_truncate in H | by eapply law_open in H | by eapply law_close in H
      | by eapply law_read in H | by eapply law_write in H | by eapply law_readdir in H
      | by eapply law_mkdir in H ]
  end.
Ltac framed_ops := framed; try lawful.

Lemma framed_walk n : ∀ path current, framed (walk n path current).
Proof.
  induction n as [|n IH]; intros path current; cbn [walk]; [framed|].
  destruct path as [|c path]; [framed|].
  destruct (next_component (c :: path)) as [component rest].
  destruct (_ <=? _); [framed|]. destruct component as [|d component]; [apply IH|].
  framed_ops.
Qed.

Lemma framed_resolve path : framed (vfs_resolve_path path).
Proof.
  unfold vfs_resolve_path. apply framed_bind; [apply (framed_gets id)|intros w].
  framed. apply framed_walk.
Qed.
Hint Resolve framed_resolve : framed.

Lemma framed_create_file path : framed (create_file path).
Proof. unfold create_file. framed_ops. Qed.

Lemma framed_truncate inode : framed (truncate_on_open inode).
Proof. unfold truncate_on_open. framed_ops. Qed.

Lemma framed_call_close inode file : framed (call_close inode file).
Proof. unfold call_close. framed_ops. Qed.

Lemma framed_op_at {B} (f : fs_ops → option B) p : framed (op_at f p).
Proof. unfold op_at. framed. Qed.

Lemma op_at_inv {B} (f : fs_ops → option B) p s g s' :
  op_at f p s = Done (Some g) s' → s' = s ∧ ∃ x, op f x = Some g.
Proof.
  unfold op_at. destruct (p =? 0); [done|]. intros (x & t & [-> _]%fetch_inv & H)%bind_Done_inv.
  injection H as H ->. eauto.
Qed.

Lemma framed_seek fd offset whence : framed (vfs_seek fd offset whence).
Proof. unfold vfs_seek. framed; by apply framed_change_file. Qed.

Lemma framed_mkdir path : framed (vfs_mkdir path).
Proof. unfold vfs_mkdir. framed_ops. Qed.

Lemma framed_delete path : framed (vfs_delete path).
Proof. unfold vfs_delete. framed_ops. Qed.

Lemma framed_readdir fd d : framed (vfs_readdir fd d).
Proof. unfold vfs_readdir. framed_ops. Qed.

Lemma framed_op_bind {B D} (f : fs_ops → option B) p (g : option B → M kw D) :
  framed (g None) → (∀ x h, op f x = Some h → framed (g (Some h))) → framed (op_at f p ≫= g).
Proof.
  intros Hn Hs s a s' (o & t & Ho & H)%bind_Done_inv.
  destruct o as [h|].
  - apply op_at_inv in Ho as (-> & x & Hx). by eapply Hs.
  - etrans; [by eapply framed_op_at|]. by eapply Hn.
Qed.

Lemma framed_read fd buf size : framed (vfs_read fd buf size).
Proof.
  unfold vfs_read. framed. apply framed_op_bind; [framed|]. intros x h H. lawful.
Qed.

Lemma framed_write fd buf data : framed (vfs_write fd buf data).
Proof.
  unfold vfs_write. framed. apply framed_op_bind; [framed|]. intros x h H. lawful.
Qed.

(** ** Opening adds one file structure *)

Lemma same_files_open s s' : owned s → same_files s s' → owned s' ∧ open_files s' = open_files s.
Proof. intros Ho [H1 _ _ H4]. auto. Qed.

(** [p] is a new file structure for the open with [flags]; nothing else changed. *)
Record opened (s s' : kw) (flags p : Z) : Prop := {
  opened_owned : owned s';
  opened_table : file_table s'.2 = file_table s.2;
  opened_mounts : mount_table s'.2 = mount_table s.2 ∧ mount_count s'.2 = mount_count s.2;
  opened_new : open_files s !! p = None ∧ p ≠ 0;
  opened_file : ∃ inode, inode ≠ 0 ∧ open_files s' = <[p := File inode 0 flags 1 0]> (open_files s) }.

Lemma opened_after s t s' flags p : opened s t flags p → same_files t s' → opened s s' flags p.
Proof.
  intros [o1 t1 [m1 c1] n1 (i & Hi & f1)] [o2 t2 [m2 c2] f2].
  split; [auto|congruence|split; congruence|done|]. exists i. by rewrite f2.
Qed.

Lemma opened_before s t s' flags p : owned s → same_files s t → opened t s' flags p → opened s s' flags p.
Proof.
  intros Ho [o2 t2 [m2 c2] f2] [o1 t1 [m1 c1] n1 (i & Hi & f1)].
  rewrite f2 in n1, f1 by done. split; [done|congruence|split; congruence|done|by exists i].
Qed.

Lemma new_file_opened inode flags k w p s' :
  owned (k, w) → inode ≠ 0 → new (File inode 0 flags 1 0) (k, w) = Done p s' → opened (k, w) s' flags p.
Proof.
  intros Ho Hi (h & -> & Hp & Hp0 & Ho')%new_inv; [|done]. split; [done..| |].
  - by rewrite open_files_lookup, Hp.
  - exists inode. split; [done|]. by rewrite (open_files_insert k).
Qed.

(** A file structure that was opened and is freed again. *)
Lemma opened_disposed s t s' flags p u :
  owned s → opened s t flags p → dispose file_t p t = Done u s' → same_files s s' ∧ owned s'.
Proof.
  intros Hs [o1 t1 [m1 c1] [n1 n0] (i & Hi & f1)]. destruct t as [k w]. intros H.
  apply dispose_inv in H as [[-> _]|(x & h & _ & -> & Ho)]; [done| |done].
  split; [|done]. split; [done..|]. intros _. rewrite (open_files_delete k), f1. by apply delete_insert_id.
Qed.

Lemma framed_open_op inode file s r s' x :
  match op op_open x with None => mret 0 | Some open => open inode file end s = Done r s' → same_files s s'.
Proof. destruct (op op_open x) eqn:Ho; [|by intros [= <- <-]]. revert s r s'. change (framed (m inode file)). lawful. Qed.

Lemma open_file_spec path flags s p s' :
  owned s → vfs_open_file path flags s = Done p s' →
  (p = 0 ∧ same_files s s') ∨ opened s s' flags p.
Proof.
  intros Hs H. unfold vfs_open_file in H.
  apply bind_Done_inv in H as (found & s1 & H1%framed_resolve & H).
  apply bind_Done_inv in H as (inode & s2 & H2 & H).
  assert (same_files s s2) as Hsame.
  { etrans; [exact H1|]. revert H2. destruct (negb (found =? 0)); [by intros [= <- <-]|].
    destruct (negb (flag flags O_CREAT)); [by intros [= <- <-]|]. apply framed_create_file. }
  clear H1 H2. destruct (Z.eqb_spec inode 0) as [|Hi]; [injection H as <- <-; by left|].
  destruct (same_files_open _ _ Hs Hsame) as [Hs2 _].
  apply bind_Done_inv in H as (q & s3 & Hnew & H). destruct s2 as [k w].
  apply new_file_opened in Hnew as Hop; [|done..].
  apply (opened_before s) in Hop; [|done..]. clear Hnew.
  apply bind_Done_inv in H as (u & s4 & H4 & H).
  assert (same_files s3 s4) as H34.
  { revert H4. destruct (flag flags O_TRUNC); [apply framed_truncate|by intros [= <- <-]]. }
  apply bind_Done_inv in H as (x & s5 & [-> _]%fetch_inv & H).
  apply bind_Done_inv in H as (r & s6 & H6%framed_open_op & H).
  eapply opened_after in Hop; [|etrans; [exact H34|exact H6]]. destruct (r <? 0).
  - left. apply bind_Done_inv in H as (v & s7 & Hd & H). injection H as <- <-.
    by destruct (opened_disposed _ _ _ _ _ _ Hs Hop Hd).
  - right. apply bind_Done_inv in H as (v & s7 & Ha & H). injection H as <- <-.
    eapply opened_after; [exact Hop|]. revert Ha. destruct (flag flags O_APPEND); [|by intros [= <- <-]].
    intros (y & s8 & [-> _]%fetch_inv & Ha)%bind_Done_inv. revert Ha. by apply framed_change_file.
Qed.

(** ** The descriptor table *)

Lemma open_files_nonnull s p f : owned s → open_files s !! p = Some f → p ≠ 0.
Proof.
  intros Ho H. destruct s as [k w]. rewrite open_files_lookup in H.
  destruct (objects w !! p) as [o|] eqn:Hp; [|done]. apply (owned_nonnull _ _ _ Ho) in Hp. lia.
Qed.

Definition table_of (s : kw) : list Z := file_table s.2.

(** Every open file structure is held by one descriptor, and by one only. *)
Record fd_ok (t : list Z) (F : gmap Z file_t) : Prop := {
  fd_length : length t = 256%nat;
  fd_null : F !! 0 = None;
  fd_file fd p : t !! fd = Some p → p ≠ 0 → ∃ f, F !! p = Some f ∧ ref_count f = 1;
  fd_inj fd fd' p : t !! fd = Some p → t !! fd' = Some p → p ≠ 0 → fd = fd';
  fd_held p f : F !! p = Some f → ∃ fd, t !! fd = Some p }.

Definition fd_inv (s : kw) : Prop := owned s ∧ fd_ok (file_table s.2) (open_files s).

Lemma fd_inv_same s s' : same_files s s' → fd_inv s → fd_inv s'.
Proof. intros [o t m f] [Ho Hok]. split; [auto|]. by rewrite t, f. Qed.

(** A new file structure takes a free slot. *)
Lemma fd_ok_install t F fd p f :
  fd_ok t F → t !! fd = Some 0 → F !! p = None → p ≠ 0 → ref_count f = 1 → fd_ok (<[fd := p]> t) (<[p := f]> F).
Proof.
  intros [Hl H0 Hf Hj Hh] Hfd Hp Hp0 Hr. pose proof (lookup_lt_Some _ _ _ Hfd) as Hlt.
  assert (Hno : ∀ fd', t !! fd' ≠ Some p).
  { intros fd' H. destruct (Hf _ _ H Hp0) as (g & Hg & _). congruence. }
  split.
  - by rewrite length_insert.
  - by rewrite lookup_insert_ne.
  - intros fd' q [(<- & <- & _)|[Hne H]]%list_lookup_insert_Some Hq.
    + exists f. by rewrite lookup_insert_eq.
    + destruct (Hf _ _ H Hq) as (g & Hg & Hr'). exists g. split; [|done]. rewrite lookup_insert_ne; [done|].
      intros <-. congruence.
  - intros fd1 fd2 q [(<- & <- & _)|[Hne1 H1]]%list_lookup_insert_Some
      [(<- & ? & _)|[Hne2 H2]]%list_lookup_insert_Some Hq; subst; [done|by destruct (Hno fd2)|by destruct (Hno fd1)|eauto].
  - intros q g [[<- _]|[Hne Hq]]%lookup_insert_Some; [exists fd; by rewrite list_lookup_insert_eq by done|].
    destruct (Hh _ _ Hq) as [fd' Hfd']. exists fd'. rewrite list_lookup_insert_ne; [done|].
    intros <-. congruence.
Qed.

(** A descriptor is freed together with its file structure. *)
Lemma fd_ok_release t F fd p :
  fd_ok t F → t !! fd = Some p → p ≠ 0 → fd_ok (<[fd := 0]> t) (delete p F).
Proof.
  intros [Hl H0 Hf Hj Hh] Hfd Hp0. pose proof (lookup_lt_Some _ _ _ Hfd) as Hlt. split.
  - by rewrite length_insert.
  - by rewrite lookup_delete_ne.
  - intros fd' q [(<- & <- & _)|[Hne H]]%list_lookup_insert_Some Hq; [done|].
    destruct (Hf _ _ H Hq) as (g & Hg & Hr'). exists g. rewrite lookup_delete_ne; [done|].
    intros <-. by apply Hne, (Hj fd fd' p).
  - intros fd1 fd2 q [(_ & <- & _)|[Hne1 H1]]%list_lookup_insert_Some; [done|].
    intros [(_ & E & _)|[Hne2 H2]]%list_lookup_insert_Some Hq; [congruence|eauto].
  - intros q g [Hne Hq]%lookup_delete_Some. destruct (Hh _ _ Hq) as [fd' Hfd'].
    exists fd'. rewrite list_lookup_insert_ne; [done|]. intros <-. congruence.
Qed.

(** A descriptor that is given another file structure. *)
Lemma fd_ok_replace t F fd old p f :
  fd_ok t F → t !! fd = Some old → F !! p = None → p ≠ 0 → ref_count f = 1 →
  fd_ok (<[fd := p]> t) (if old =? 0 then <[p := f]> F else delete old (<[p := f]> F)).
Proof.
  intros Hok Hfd Hp Hp0 Hr. destruct (Z.eqb_spec old 0) as [-> |Ho]; [by apply fd_ok_install|].
  pose proof (fd_ok_release _ _ _ _ Hok Hfd Ho) as Hrel.
  destruct (fd_file _ _ Hok _ _ Hfd Ho) as (g & Hg & _).
  rewrite delete_insert_ne by congruence.
  rewrite <- (list_insert_insert_eq t fd p 0). apply fd_ok_install; [done| | |done..].
  - apply list_lookup_insert_eq. by eapply lookup_lt_Some.
  - by rewrite lookup_delete_ne by congruence.
Qed.

(** ** open and close *)

Lemma find_slot_spec t : ∀ i,
  match find_slot i t with
  | Some n => (i <= n)%nat ∧ t !! (n - i)%nat = Some 0 ∧ ∀ j, (j < n - i)%nat → ∃ p, t !! j = Some p ∧ p ≠ 0
  | None => ∀ j p, t !! j = Some p → p ≠ 0
  end.
Proof.
  induction t as [|p t IH]; intros i; simpl; [done|]. destruct (Z.eqb_spec p 0) as [-> |Hp].
  - rewrite Nat.sub_diag. split; [done|]. split; [done|]. lia.
  - specialize (IH (S i)). destruct (find_slot (S i) t) as [n|].
    + destruct IH as (Hi & H0 & Hlt). split; [lia|]. replace (n - i)%nat with (S (n - S i)) by lia. split; [done|].
      intros [|j] Hj; [by exists p|]. apply Hlt. lia.
    + intros [|j] q Hq; simpl in Hq; [by simplify_eq|by eapply IH].
Qed.

Lemma find_fd_spec t :
  match find_slot 3 (drop 3 t) with
  | Some n => (3 <= n)%nat ∧ t !! n = Some 0 ∧ ∀ j, (3 <= j < n)%nat → t !! j ≠ Some 0
  | None => ∀ j, (3 <= j)%nat → t !! j ≠ Some 0
  end.
Proof.
  pose proof (find_slot_spec (drop 3 t) 3) as H. destruct (find_slot 3 (drop 3 t)) as [n|].
  - destruct H as (Hn & H0 & Hlt). rewrite lookup_drop in H0. replace (3 + (n - 3))%nat with n in H0 by lia.
    split; [done|]. split; [done|]. intros j Hj Hz. destruct (Hlt (j - 3)%nat) as (p & Hp & Hne); [lia|].
    rewrite lookup_drop in Hp. replace (3 + (j - 3))%nat with j in Hp by lia. congruence.
  - intros j Hj Hz. apply (H (j - 3)%nat 0); [|done]. rewrite lookup_drop. by replace (3 + (j - 3))%nat with j by lia.
Qed.

(** What an open that gives the descriptor [fd] did. *)
Definition installed (s s' : kw) (flags : Z) (fd : nat) : Prop :=
  ∃ p inode, inode ≠ 0 ∧ p ≠ 0 ∧ open_files s !! p = None ∧ owned s' ∧
    file_table s'.2 = <[fd := p]> (file_table s.2) ∧
    open_files s' = (let F := <[p := File inode 0 flags 1 0]> (open_files s) in
                     match file_table s.2 !! fd with
                     | Some old => if old =? 0 then F else delete old F
                     | None => F
                     end).

Lemma installed_inv s s' flags fd :
  fd_inv s → (fd < 256)%nat → installed s s' flags fd → fd_inv s'.
Proof.
  intros [Ho Hok] Hfd (p & inode & Hi & Hp0 & Hp & Ho' & Ht & HF). split; [done|]. rewrite Ht, HF.
  destruct (lookup_lt_is_Some_2 (file_table s.2) fd) as [old Hold]; [by rewrite (fd_length _ _ Hok)|].
  rewrite Hold. by apply fd_ok_replace.
Qed.

Lemma opened_installed s t flags p (fd : nat) :
  opened s t flags p → file_table s.2 !! fd = Some 0 →
  installed s (t.1, with_files <[fd := p]> t.2) flags fd.
Proof.
  intros [o1 t1 _ [n1 n0] (i & Hi & f1)] Hfd. exists p, i. split_and!; [done..| | |].
  - eapply owned_ext; [exact o1|done..].
  - simpl. by rewrite t1.
  - by rewrite Hfd.
Qed.

Lemma vfs_open_spec path flags s fd s' :
  owned s → vfs_open path flags s = Done fd s' →
  (fd = -1 ∧ same_files s s') ∨
  ∃ n, fd = Z.of_nat n ∧ find_slot 3 (drop 3 (file_table s.2)) = Some n ∧ installed s s' flags n.
Proof.
  intros Ho (p & t & [[-> Hs]|Hop]%open_file_spec & H)%bind_Done_inv; [| |done].
  { injection H as <- <-. by left. }
  destruct (opened_new _ _ _ _ Hop) as [_ Hp0]. rewrite (proj2 (Z.eqb_neq _ _) Hp0) in H.
  apply bind_Done_inv in H as (r & t' & Ha & H). destruct t as [k w].
  pose proof (opened_table _ _ _ _ Hop) as Ht. simpl in Ht.
  unfold in_world, zoom, vfs_alloc_fd in Ha. revert Ha. run. simpl. rewrite Ht.
  pose proof (find_fd_spec (file_table s.2)) as Hfind.
  destruct (find_slot 3 (drop 3 (file_table s.2))) as [n|].
  - intros [= <- <-]. destruct Hfind as (_ & Hn & _). rewrite (proj2 (Z.ltb_ge _ _)) in H by lia.
    injection H as <- <-. right. exists n. split; [done|]. split; [done|].
    by apply (opened_installed s (k, w)).
  - intros [= <- <-]. left. apply bind_Done_inv in H as (v & t'' & Hd & H). injection H as <- <-.
    split; [done|]. by destruct (opened_disposed _ _ _ _ _ _ Ho Hop Hd).
Qed.

Lemma bad_fd_false fd : bad_fd fd = false → 0 <= fd < 256.
Proof. unfold bad_fd, VFS_MAX_FDS. lia. Qed.

Lemma vfs_open_at_spec path flags fd s r s' :
  owned s → vfs_open_at path flags fd s = Done r s' →
  (r = -1 ∧ same_files s s') ∨ (0 <= fd < 256 ∧ r = fd ∧ installed s s' flags (Z.to_nat fd)).
Proof.
  intros Ho H. unfold vfs_open_at in H. destruct (bad_fd fd) eqn:Hbad.
  { injection H as <- <-. by left. }
  apply bad_fd_false in Hbad.
  apply bind_Done_inv in H as (p & t & [[-> Hs]|Hop]%open_file_spec & H); [| |done].
  { injection H as <- <-. by left. }
  destruct (opened_new _ _ _ _ Hop) as [Hpn Hp0]. rewrite (proj2 (Z.eqb_neq _ _) Hp0) in H.
  destruct Hop as [o1 t1 _ _ (i & Hi & f1)]. destruct t as [k w]. simpl in t1.
  apply bind_Done_inv in H as (tab & t' & Hg & H). injection Hg as <- <-.
  apply bind_Done_inv in H as (old & t' & Hold & H). revert Hold. unfold access.
  destruct (file_table w !! Z.to_nat fd) as [old'|] eqn:Hlk; [|done]. intros [= -> <-].
  apply bind_Done_inv in H as (u & t' & Hd & H). apply bind_Done_inv in H as (v & t'' & Hw & H).
  injection H as <- <-. right. split; [done|]. split; [done|]. exists p, i. rewrite t1 in Hlk. rewrite Hlk.
  assert (owned t' ∧ file_table t'.2 = file_table s.2 ∧
    open_files t' = (let F := <[p:=File i 0 flags 1 0]> (open_files s) in if old =? 0 then F else delete old F))
    as (o2 & t2 & f2).
  { destruct (Z.eqb_spec old 0) as [-> |Hne]; [by injection Hd as <- <-|]. simpl in Hd.
    apply dispose_inv in Hd as [[? _]|(x & h & _ & -> & Ho')]; [done| |done].
    split_and!; [done..|]. by rewrite (open_files_delete k), f1. }
  destruct t' as [k' w']. injection Hw as <- <-. split_and!; [done..| | |].
  - eapply owned_ext; [exact o2|done..].
  - simpl in *. by rewrite t2.
  - exact f2.
Qed.

(** What a close of the descriptor [fd] did. *)
Definition released (s s' : kw) (fd : Z) : Prop :=
  ∃ p, p ≠ 0 ∧ 0 <= fd < 256 ∧ file_table s.2 !! Z.to_nat fd = Some p ∧ owned s' ∧
    file_table s'.2 = <[Z.to_nat fd := 0]> (file_table s.2) ∧ open_files s' = delete p (open_files s).

Lemma released_inv s s' fd : fd_inv s → released s s' fd → fd_inv s'.
Proof.
  intros [Ho Hok] (p & Hp0 & Hfd & Hp & Ho' & Ht & HF). split; [done|]. rewrite Ht, HF.
  by apply fd_ok_release.
Qed.

(** A descriptor that is in use. *)
Definition valid_fd (s : kw) (fd : Z) : Prop :=
  0 <= fd < 256 ∧ ∃ p, file_table s.2 !! Z.to_nat fd = Some p ∧ p ≠ 0.

Lemma get_file_invalid s fd : fd_inv s → ¬ valid_fd s fd → in_world (vfs_get_file fd) s = Done 0 s.
Proof.
  intros [_ Hok] Hv. destruct s as [k w]. unfold vfs_get_file, in_world, zoom. simpl in *.
  destruct (bad_fd fd) eqn:Hbad; [done|]. apply bad_fd_false in Hbad. run. simpl.
  destruct (lookup_lt_is_Some_2 (file_table w) (Z.to_nat fd)) as [p Hp]; [rewrite (fd_length _ _ Hok); lia|].
  rewrite Hp. destruct (Z.eq_dec p 0) as [-> |]; [done|]. destruct Hv. split; [done|]. by exists p.
Qed.

Lemma get_file_inv fd s p s' : in_world (vfs_get_file fd) s = Done p s' → p ≠ 0 →
  s' = s ∧ 0 <= fd < 256 ∧ file_table s.2 !! Z.to_nat fd = Some p.
Proof.
  destruct s as [k w]. unfold vfs_get_file, in_world, zoom. simpl. destruct (bad_fd fd) eqn:Hbad.
  { by intros [= <- <-]. }
  apply bad_fd_false in Hbad. run. simpl. destruct (_ !! _); [|done]. by intros [= -> <-].
Qed.

Lemma vfs_close_spec fd s r s' :
  fd_inv s → vfs_close fd s = Done r s' → (r = -1 ∧ s' = s ∧ ¬ valid_fd s fd) ∨ (r = 0 ∧ released s s' fd).
Proof.
  intros Hinv (p & t & Hp & H)%bind_Done_inv.
  destruct (Z.eqb_spec p 0) as [-> |Hp0].
  { injection H as <- <-. left. split; [done|]. destruct s as [k w].
    unfold vfs_get_file, in_world, zoom in Hp. simpl in Hp. destruct (bad_fd fd) eqn:Hbad.
    - injection Hp as <-. split; [done|]. intros [Hfd _]. unfold bad_fd, VFS_MAX_FDS in Hbad. lia.
    - revert Hp. run. simpl. destruct (file_table w !! _) as [q|] eqn:Hq; [|done].
      intros [= -> <-]. split; [done|]. intros (_ & q' & Hq' & Hne). simpl in *. congruence. }
  right. apply get_file_inv in Hp as (-> & Hfd & Hp); [|done]. destruct Hinv as [Ho Hok].
  destruct (fd_file _ _ Hok _ _ Hp Hp0) as (f & Hf & Hr).
  apply bind_Done_inv in H as (x & s1 & [-> Hx]%fetch_inv & H).
  apply bind_Done_inv in H as (u & s2 & Hc%framed_call_close & H).
  destruct (same_files_open _ _ Ho Hc) as [Ho2 F2]. pose proof (same_table _ _ Hc) as T2. destruct s2 as [k w].
  apply bind_Done_inv in H as (v & s3 & Hch & H). apply change_inv in Hch as (y & Hy & ->).
  assert (ref_count y = 1) as Hy1.
  { rewrite <- F2, open_files_lookup, Hy in Hf. unfold mbind, option_bind in Hf. rewrite prj_inj in Hf.
    by injection Hf as <-. }
  apply bind_Done_inv in H as (z & s4 & [-> Hz]%fetch_inv & H). simpl in Hz.
  rewrite lookup_insert_eq in Hz. injection Hz as <-. simpl in H. rewrite Hy1 in H. simpl in H.
  apply bind_Done_inv in H as (u' & s5 & Hd & H). apply bind_Done_inv in H as (u'' & s6 & Hfree & H).
  injection H as <- <-. split; [done|]. exists p. split; [done|]. split; [done|]. split; [done|].
  apply dispose_inv in Hd as [[? _]|(z & h & _ & -> & Ho5)]; [done| |exact (owned_put p (set_ref_count _ y) y k w Ho2 Hy)].
  unfold vfs_free_fd, in_world, zoom in Hfree. assert (bad_fd fd = false) as Hbad by (unfold bad_fd, VFS_MAX_FDS; lia).
  rewrite Hbad in Hfree. injection Hfree as <- <-. simpl in *. split_and!.
  - eapply owned_ext; [exact Ho5|done..].
  - by rewrite T2.
  - rewrite <- F2. etrans; [apply (open_files_delete k (with_heap h k))|]. rewrite (open_files_insert k).
    apply delete_partial_alter_eq.
Qed.

(** ** Everything the callers do *)

(** A call of the file system, or a change elsewhere in the kernel that
    leaves file structures and descriptors alone. *)
Inductive vfs_step (s s' : kw) : Prop :=
  | step_open path flags fd : vfs_open path flags s = Done fd s' → vfs_step s s'
  | step_open_at path flags fd r : vfs_open_at path flags fd s = Done r s' → vfs_step s s'
  | step_close fd r : vfs_close fd s = Done r s' → vfs_step s s'
  | step_read fd buf size r : vfs_read fd buf size s = Done r s' → vfs_step s s'
  | step_write fd buf data r : vfs_write fd buf data s = Done r s' → vfs_step s s'
  | step_seek fd offset whence r : vfs_seek fd offset whence s = Done r s' → vfs_step s s'
  | step_mkdir path r : vfs_mkdir path s = Done r s' → vfs_step s s'
  | step_readdir fd d r : vfs_readdir fd d s = Done r s' → vfs_step s s'
  | step_delete path r : vfs_delete path s = Done r s' → vfs_step s s'
  | step_other : (owned s → owned s') → file_table s'.2 = file_table s.2 →
      (owned s → open_files s' = open_files s) → vfs_step s s'.

Lemma vfs_step_inv s s' : vfs_step s s' → fd_inv s → fd_inv s'.
Proof.
  intros Hstep Hinv. pose proof Hinv as [Ho Hok]. destruct Hstep as
    [path flags fd H|path flags fd r H|fd r H|fd buf size r H|fd buf data r H|fd offset whence r H|path r H|fd d r H|path r H|H1 H2 H3].
  - apply vfs_open_spec in H as [[_ H]|(n & -> & Hn & H)]; [by eapply fd_inv_same| |done].
    pose proof (find_fd_spec (file_table s.2)) as Hfind. rewrite Hn in Hfind. destruct Hfind as (_ & H0 & _).
    eapply installed_inv; [done| |exact H]. rewrite <- (fd_length _ _ Hok). by eapply lookup_lt_Some.
  - apply vfs_open_at_spec in H as [[_ H]|(Hfd & -> & H)]; [by eapply fd_inv_same| |done].
    eapply installed_inv; [done| |exact H]. lia.
  - apply vfs_close_spec in H as [(_ & -> & _)|[_ H]]; [done|by eapply released_inv|done].
  - apply framed_read in H. by eapply fd_inv_same.
  - apply framed_write in H. by eapply fd_inv_same.
  - apply framed_seek in H. by eapply fd_inv_same.
  - apply framed_mkdir in H. by eapply fd_inv_same.
  - apply framed_readdir in H. by eapply fd_inv_same.
  - apply framed_delete in H. by eapply fd_inv_same.
  - split; [auto|]. by rewrite H2, H3.
Qed.

Lemma vfs_steps_inv s s' : rtc vfs_step s s' → fd_inv s → fd_inv s'.
Proof. induction 1; eauto using vfs_step_inv. Qed.

End Laws.

(** After vfs_init() no file is open. *)
Lemma vfs_init_inv k w w' :
  owned (k, w) → length (file_table w) = 256%nat → open_files (k, w) = ∅ →
  vfs_init w = Done tt w' → fd_inv (k, w').
Proof.
  intros Ho Hl Hopen. unfold vfs_init. run. intros [= <-]. split; [by eapply owned_ext|].
  change (open_files (k, _)) with (open_files (k, w)). rewrite Hopen. simpl.
  assert (Hz : ∀ fd p, ((λ _, 0) <$> file_table w) !! fd = Some p → p = 0).
  { intros fd p. rewrite list_lookup_fmap. destruct (_ !! _); [by intros [= <-]|done]. }
  split; [by rewrite length_fmap|done|..].
  - intros fd p Hp%Hz. done.
  - intros fd fd' p Hp%Hz. done.
  - done.
Qed.

Lemma open_files_Some k w p f :
  open_files (k, w) !! p = Some f → ∃ g, objects w !! p = Some (OFile g) ∧ f = set_position 0 g.
Proof.
  rewrite open_files_lookup. destruct (objects w !! p) as [[]|]; try done. intros [= <-]. eauto.
Qed.

(** [n] is the lowest free descriptor from 3 on. *)
Definition lowest_free (t : list Z) (n : nat) : Prop :=
  (3 <= n < 256)%nat ∧ t !! n = Some 0 ∧ ∀ j, (3 <= j < n)%nat → t !! j ≠ Some 0.

(** functional: vfs_open() gives the lowest free descriptor from 3 on,
    holding a file structure of its own with the given flags, or -1 and
    then nothing is left open; vfs_close() frees exactly the descriptor and
    its file structure, and on a descriptor not in use answers -1 and does
    nothing. *)
Lemma open_close_exact `{L : FilesystemLaws} (s : kw) :
  fd_inv s →
  (∀ path flags fd s', vfs_open path flags s = Done fd s' →
     (fd = -1 ∧ file_table s'.2 = file_table s.2 ∧ open_files s' = open_files s) ∨
     ∃ n p inode, fd = Z.of_nat n ∧ lowest_free (file_table s.2) n ∧
       open_files s !! p = None ∧ inode ≠ 0 ∧ file_table s'.2 = <[n := p]> (file_table s.2) ∧
       open_files s' = <[p := File inode 0 flags 1 0]> (open_files s)) ∧
  (∀ fd r s', valid_fd s fd → vfs_close fd s = Done r s' →
     r = 0 ∧ ∃ p, file_table s.2 !! Z.to_nat fd = Some p ∧ p ≠ 0 ∧
       file_table s'.2 = <[Z.to_nat fd := 0]> (file_table s.2) ∧ open_files s' = delete p (open_files s)) ∧
  (∀ fd, ¬ valid_fd s fd → vfs_close fd s = Done (-1) s).
Proof.
  intros Hinv. pose proof Hinv as [Ho Hok]. split_and!.
  - intros path flags fd s' H.
    apply vfs_open_spec in H as [[-> [_ t _ f]]|(n & -> & Hn & (p & i & Hi & Hp0 & Hp & _ & Ht & HF))]; [|right|done].
    { left. auto. }
    pose proof (find_fd_spec (file_table s.2)) as Hfind. rewrite Hn in Hfind. destruct Hfind as (H3 & H0 & Hlow).
    exists n, p, i. pose proof (lookup_lt_Some _ _ _ H0). rewrite (fd_length _ _ Hok) in H.
    rewrite H0 in HF. split_and!; [done|by split_and!|done..].
  - intros fd r s' Hv H. apply vfs_close_spec in H as [(_ & _ & Hn)|[-> (p & Hp0 & _ & Hp & _ & Ht & HF)]]; [done| |done].
    split; [done|]. by exists p.
  - intros fd Hv. unfold vfs_close. by rewrite (bind_Done _ _ _ _ _ (get_file_invalid _ _ Hinv Hv)).
Qed.

(** C20. invariant: descriptors and open files never drift apart. Whatever
    is opened, opened at a fixed descriptor, closed, read, written, listed,
    made or deleted after vfs_init(), on any file systems that obey their
    laws: every descriptor in use leads to a live file structure that only
    it holds (reference count 1), and every file structure on the heap is
    held by a descriptor, so none is leaked. From there vfs_open() gives -1 and
    changes no descriptor and no file structure, or it puts a new structure
    with the flags given in the lowest free slot above 2;
    vfs_close() empties exactly the slot of its descriptor and frees exactly
    its structure, and refuses a descriptor that is not in use. *)
Theorem descriptors_exact `{L : FilesystemLaws} (k : kernel) (w w0 : world) (s : kw) :
  owned (k, w) → length (file_table w) = 256%nat → open_files (k, w) = ∅ →
  vfs_init w = Done tt w0 → rtc vfs_step (k, w0) s →
  (∀ fd p, file_table s.2 !! fd = Some p → p ≠ 0 →
     (∃ f, objects s.2 !! p = Some (OFile f) ∧ ref_count f = 1) ∧
     ∀ fd', file_table s.2 !! fd' = Some p → fd' = fd) ∧
  (∀ p f, objects s.2 !! p = Some (OFile f) → ∃ fd, file_table s.2 !! fd = Some p) ∧
  (∀ path flags fd s', vfs_open path flags s = Done fd s' →
     (fd = -1 ∧ file_table s'.2 = file_table s.2 ∧ open_files s' = open_files s) ∨
     ∃ n p inode, fd = Z.of_nat n ∧ lowest_free (file_table s.2) n ∧
       open_files s !! p = None ∧ inode ≠ 0 ∧ file_table s'.2 = <[n := p]> (file_table s.2) ∧
       open_files s' = <[p := File inode 0 flags 1 0]> (open_files s)) ∧
  (∀ fd r s', valid_fd s fd → vfs_close fd s = Done r s' →
     r = 0 ∧ ∃ p, file_table s.2 !! Z.to_nat fd = Some p ∧ p ≠ 0 ∧
       file_table s'.2 = <[Z.to_nat fd := 0]> (file_table s.2) ∧ open_files s' = delete p (open_files s)) ∧
  (∀ fd, ¬ valid_fd s fd → vfs_close fd s = Done (-1) s).
Proof.
  intros Ho Hl Hopen Hinit Hrun.
  destruct (vfs_steps_inv _ _ Hrun (vfs_init_inv _ _ _ Ho Hl Hopen Hinit)) as [Ho' Hok].
  pose proof (open_close_exact s (conj Ho' Hok)) as Hoc. split; [|split; [|exact Hoc]]; destruct s as [k' w'].
  - intros fd p Hp Hp0. split.
    + destruct (fd_file _ _ Hok _ _ Hp Hp0) as (f & (g & Hg & ->)%open_files_Some & Hr). eauto.
    + intros fd' Hp'. by eapply (fd_inj _ _ Hok).
  - intros p f Hp. eapply (fd_held _ _ Hok). rewrite open_files_lookup. simpl in Hp. by rewrite Hp.
Qed.

(** A file system of one directory, the inode 64, where the name "a" is the
    inode 128, and two mounts of it. *)
Definition demo_lookup (dir : Z) (name : list Z) : M kw Z :=
  mret (if bool_decide (name = cs "a") then 128 else 0).

Definition demo_filesystems : Filesystems := λ _,
  FsOps (Some demo_lookup) None None None None None None None None None.

Lemma demo_laws : FilesystemLaws (FS := demo_filesystems).
Proof. split; try done. intros t f d n [= <-]. apply framed_ret. Qed.

Definition demo_root : inode_t := Inode 1 VFS_TYPE_DIR 0 493 0 0 0 0 0 1 (Some shadowfs_ops) (Some 0%nat) 0.

Definition demo_kernel : kernel :=
  Kernel (Sched ∅ (replicate 16 0) 0 1 0 0 0 0 []) (Vm ∅ (Pmm ∅ 0 0) 0 0) fresh_heap.

Definition demo_start : world :=
  World ∅ (replicate 16 (Superblock [] 0 None 0 0)) 0 (replicate 256 0) (DMount 0 0 0) [] 0.

(** The state after a computation that ends well. *)
Definition state_of {A} (o : outcome kw A) : kw := match o with Done _ s => s | _ => (demo_kernel, demo_start) end.

Definition demo_address : Z := HEAP_START + HEADER_SIZE.

Definition demo_rooted : kw := state_of (new demo_root (demo_kernel, demo_start)).

Definition demo_mounts : list superblock_t :=
  [Superblock (cs "/") demo_address (Some shadowfs_ops) 0 0; Superblock (cs "/temp") demo_address (Some shadowfs_ops) 0 0].

Definition demo_state : kw := (demo_rooted.1, with_mounts (λ _, demo_mounts) 2 demo_rooted.2).

Lemma demo_owned : owned (demo_kernel, demo_start).
Proof. exists []. split; [apply heap_run_inv; eapply heap_run_start, fresh_init|]. intros p o H. simpl in H. by rewrite lookup_empty in H. Qed.

Lemma demo_mounted : vfs_step (FS0 := demo_filesystems) (demo_kernel, demo_start) demo_state.
Proof.
  assert (H : framed (new demo_root)) by apply framed_new.
  specialize (H (demo_kernel, demo_start) demo_address demo_rooted ltac:(vm_compute; reflexivity)).
  destruct H as [H1 H2 _ H4]. apply step_other; [intros Ho|exact H2|exact H4].
  eapply owned_ext; [exact (H1 Ho)|done..].
Qed.

Lemma resolve_path_components_witness :
  vfs_resolve_path (FS := demo_filesystems) (cs "/temp//a") demo_state =
  Done 128 demo_state.
Proof.
  pose proof (resolve_path_components (FS := demo_filesystems) (cs "/temp//a") demo_state.1 demo_state.2) as H.
  assert (Hf : vfs_find_mount demo_state.2 (cs "/temp//a") = Some 1%nat) by (vm_compute; reflexivity).
  rewrite Hf in H. change (demo_state.1, demo_state.2) with demo_state in H. destruct H as (sb & (Hsb & _) & Hrun).
  vm_compute in Hsb. injection Hsb as <-. rewrite Hrun.
  - vm_compute. reflexivity.
  - vm_compute. repeat constructor.
Defined.

Definition demo_open : kw := state_of (vfs_open (FS := demo_filesystems) (cs "/") 0 demo_state).

Lemma demo_opens : vfs_open (FS := demo_filesystems) (cs "/") 0 demo_state = Done 3 demo_open.
Proof. vm_compute. reflexivity. Qed.

Lemma descriptors_exact_witness :
  ∃ f, objects demo_open.2 !! (demo_address + 64 + HEADER_SIZE) = Some (OFile f) ∧ ref_count f = 1.
Proof.
  destruct (descriptors_exact (L := demo_laws) demo_kernel demo_start demo_start demo_open) as [H _].
  - apply demo_owned.
  - vm_compute. reflexivity.
  - vm_compute. reflexivity.
  - vm_compute. reflexivity.
  - eapply rtc_l; [apply demo_mounted|]. apply rtc_once. eapply step_open, demo_opens.
  - destruct (H 3%nat (demo_address + 64 + HEADER_SIZE)) as [Hf _].
    + vm_compute. reflexivity.
    + done.
    + exact Hf.
Defined.

Lemma open_close_exact_witness :
  file_table demo_open.2 !! 3%nat ≠ Some 0 ∧ vfs_close (FS := demo_filesystems) 4 demo_open = Done (-1) demo_open.
Proof.
  split; [vm_compute; discriminate|].
  destruct (open_close_exact (L := demo_laws) demo_open) as (_ & _ & H).
  - eapply (vfs_steps_inv (L := demo_laws) (demo_kernel, demo_start)).
    + eapply rtc_l; [apply demo_mounted|]. apply rtc_once. eapply step_open, demo_opens.
    + eapply (vfs_init_inv demo_kernel demo_start); [apply demo_owned|vm_compute; reflexivity..].
  - apply H. intros [_ (p & Hp & Hne)]. vm_compute in Hp. congruence.
Defined.
