(* ===== verification/Shadowfs.v ===== *)
(** shadowFS, the file system in memory: file_system/shadowfs/shadowfs.c.

    A directory is a linked list of entries and a file a linked list of
    blocks, both kernel heap objects (see Objects) followed through their
    next pointers as the code does; the bytes of a block are a page of
    physical memory, reached through the direct map. The loops over a list
    run on fuel, one more than the number of heap objects, which is enough
    for any list without a cycle; the theorems show so. *)

From S2P Require Import Prelude CString Rtc Pmm Heap Phys Paging Space Sched Process Objects Vfs.

Definition SHADOWFS_BLOCK_SIZE : Z := 4096.

Section Shadowfs.
Context `{C : Clock}.

(** One step more than a list of objects can be long. *)
Definition steps : M kw nat := in_world (gets (λ w, S (size (objects w)))).

Definition set_head (v : Z) (x : shadowfs_inode_t) : shadowfs_inode_t := SInode v (s_count x).
Definition add_count (d : Z) (x : shadowfs_inode_t) : shadowfs_inode_t := SInode (s_head x) (u32 (s_count x + d)).
Definition add_quota (d : Z) (x : shadowfs_mount_t) : shadowfs_mount_t :=
  SMount (quota x) (u32 (m_used x + d)) (next_inode_num x) (m_root_inode x).
Definition set_e_next (v : Z) (x : shadowfs_dentry_t) : shadowfs_dentry_t := SDentry (e_name x) (e_inode x) v.
Definition set_b_next (v : Z) (x : shadowfs_block_t) : shadowfs_block_t := Block (b_data x) (b_used x) v.
Definition set_b_used (v : Z) (x : shadowfs_block_t) : shadowfs_block_t := Block (b_data x) v (b_next x).

(** sb->private_data *)
Definition mount_data (sb : option nat) : M kw Z :=
  i ← access sb;
  t ← in_world (gets mount_table);
  x ← access (t !! i);
  mret (sb_private x).

(** * Inodes and mounting *)

Definition shadowfs_create_inode (sb : option nat) (type : Z) : M kw Z :=
  match sb with
  | None => kpanic "shadowfs_create_inode: null superblock!"
  | Some _ =>
      mount ← mount_data sb;
      if mount =? 0 then kpanic "shadowfs_create_inode: null mount data!"
      else
        inode ← new (Inode 0 0 0 0 0 0 0 0 0 0 None None 0);
        priv ← new (SInode 0 0);
        m ← fetch shadowfs_mount_t mount;
        put mount (SMount (quota m) (m_used m) (u32 (next_inode_num m + 1)) (m_root_inode m)) ;;
        t ← now;
        put inode (Inode (next_inode_num m) type 0 493 0 0 (u32 t) (u32 t) (u32 t) 1 (Some shadowfs_ops) sb priv) ;;
        if (type =? VFS_TYPE_FILE) || (type =? VFS_TYPE_DIR) then put priv (SInode 0 0) ;; mret inode
        else kpanic "shadowfs_create_inode: unknown inode type!"
  end.

Definition shadowfs_mount (path : list Z) (quota : Z) : M kw Z :=
  free_bytes ← in_kernel (in_vm (in_pmm (gets (λ s, u32 (u64 (pmm_free_pages s * PAGE_SIZE))))));
  if free_bytes / 2 <? quota then mret (-1)
  else
    mount ← new (SMount quota 0 1 0);
    result ← in_world (vfs_mount path (Some shadowfs_ops) mount);
    if result <? 0 then dispose shadowfs_mount_t mount ;; mret (-1)
    else
      sb ← in_world (gets (λ w, vfs_find_mount w path));
      match sb with
      | None => dispose shadowfs_mount_t mount ;; mret (-1)
      | Some i =>
          root ← shadowfs_create_inode sb VFS_TYPE_DIR;
          if root =? 0 then dispose shadowfs_mount_t mount ;; mret (-1)
          else
            in_world (modify (λ w, with_mounts (alter (set_sb_root root) i) (mount_count w) w)) ;;
            change mount (λ m, SMount (Objects.quota m) (m_used m) (next_inode_num m) root) ;;
            mret 0
      end.

(** * Directories *)

(** The entry called [name] in the list from [entry] on, 0 for none. *)
Fixpoint find_entry (n : nat) (entry : Z) (name : list Z) : M kw Z :=
  match n with
  | O => diverge
  | S n =>
      if entry =? 0 then mret 0
      else
        e ← fetch shadowfs_dentry_t entry;
        if bool_decide (e_name e = name) then mret entry else find_entry n (e_next e) name
  end.

Definition shadowfs_lookup (dir : Z) (name : list Z) : M kw Z :=
  if dir =? 0 then mret 0
  else
    d ← fetch inode_t dir;
    if i_private d =? 0 then mret 0
    else
      p ← fetch shadowfs_inode_t (i_private d);
      n ← steps;
      entry ← find_entry n (s_head p) name;
      if entry =? 0 then mret 0 else e ← fetch shadowfs_dentry_t entry; mret (e_inode e).

Fixpoint last_entry (n : nat) (last : Z) : M kw Z :=
  match n with
  | O => diverge
  | S n =>
      e ← fetch shadowfs_dentry_t last;
      if e_next e =? 0 then mret last else last_entry n (e_next e)
  end.

(** Step 8 of shadowfs_create(): [dentry] becomes the last entry. *)
Definition append_entry (priv dentry : Z) : M kw unit :=
  p ← fetch shadowfs_inode_t priv;
  (if s_head p =? 0 then change priv (set_head dentry)
   else
     n ← steps;
     last ← last_entry n (s_head p);
     change last (set_e_next dentry)) ;;
  change priv (add_count 1).

Definition ENTRY_COST : Z := 80 + 64.

Definition shadowfs_create (dir : Z) (name : list Z) (type : Z) : M kw Z :=
  d ← fetch inode_t dir;
  mount ← mount_data (i_sb d);
  m ← fetch shadowfs_mount_t mount;
  if quota m <=? m_used m then mret 0
  else if i_private d =? 0 then mret 0
  else
    p ← fetch shadowfs_inode_t (i_private d);
    n ← steps;
    entry ← find_entry n (s_head p) name;
    if negb (entry =? 0) then mret 0
    else
      inode ← shadowfs_create_inode (i_sb d) type;
      if inode =? 0 then mret 0
      else
        dentry ← new (SDentry (kstrcpy_val name VFS_MAX_NAME) inode 0);
        append_entry (i_private d) dentry ;;
        change mount (add_quota ENTRY_COST) ;;
        mret inode.

(** Frees a chain of blocks; [refund] is what happens to the quota. *)
Fixpoint free_blocks (refund : M kw unit) (n : nat) (block : Z) : M kw unit :=
  match n with
  | O => diverge
  | S n =>
      if block =? 0 then mret tt
      else
        b ← fetch shadowfs_block_t block;
        in_kernel (in_vm (in_pmm (pmm_free (virtual_to_physical (b_data b))))) ;;
        refund ;;
        dispose shadowfs_block_t block ;;
        free_blocks refund n (b_next b)
  end.

(** What an entry at [entry] leads to is freed, and the entry itself: the
    inode [x] at [ino], its blocks and its private data. *)
Definition free_entry (mount entry ino : Z) (x : inode_t) : M kw unit :=
  (if i_type x =? VFS_TYPE_FILE then
     p ← fetch shadowfs_inode_t (i_private x);
     n ← steps;
     free_blocks (mret tt) n (s_head p)
   else mret tt) ;;
  dispose shadowfs_inode_t (i_private x) ;;
  dispose inode_t ino ;;
  change mount (add_quota (- ENTRY_COST)) ;;
  dispose shadowfs_dentry_t entry.

(** The entry [e] at [entry], after [previous], is removed and freed. *)
Definition remove_entry (dir_private mount previous entry : Z) (e : shadowfs_dentry_t) : M kw unit :=
  (if negb (previous =? 0) then change previous (set_e_next (e_next e))
   else change dir_private (set_head (e_next e))) ;;
  change dir_private (add_count (-1)) ;;
  x ← fetch inode_t (e_inode e);
  free_entry mount entry (e_inode e) x.

Fixpoint delete_loop (n : nat) (dir_private mount previous entry : Z) (name : list Z) : M kw Z :=
  match n with
  | O => diverge
  | S n =>
      if entry =? 0 then mret (-1)
      else
        e ← fetch shadowfs_dentry_t entry;
        if bool_decide (e_name e = name)
        then remove_entry dir_private mount previous entry e ;; mret 0
        else delete_loop n dir_private mount entry (e_next e) name
  end.

Definition shadowfs_delete (dir : Z) (name : list Z) : M kw Z :=
  if dir =? 0 then mret (-1)
  else
    d ← fetch inode_t dir;
    if i_private d =? 0 then mret (-1)
    else
      mount ← mount_data (i_sb d);
      if mount =? 0 then mret (-1)
      else
        p ← fetch shadowfs_inode_t (i_private d);
        n ← steps;
        delete_loop n (i_private d) mount 0 (s_head p) name.

(** The entry number [position] of the list from [entry], number [index], on. *)
Fixpoint nth_entry (n : nat) (entry index position : Z) : M kw Z :=
  match n with
  | O => diverge
  | S n =>
      if entry =? 0 then mret 0
      else if index =? position then mret entry
      else e ← fetch shadowfs_dentry_t entry; nth_entry n (e_next e) (u32 (index + 1)) position
  end.

Definition shadowfs_readdir (file : Z) (dentry : option dentry_t) : M kw (Z * option dentry_t) :=
  if (file =? 0) || bool_decide (dentry = None) then mret (-1, dentry)
  else
    f ← fetch file_t file;
    if f_inode f =? 0 then mret (-1, dentry)
    else
      x ← fetch inode_t (f_inode f);
      if i_private x =? 0 then mret (-1, dentry)
      else
        p ← fetch shadowfs_inode_t (i_private x);
        n ← steps;
        entry ← nth_entry n (s_head p) 0 (position f);
        if entry =? 0 then mret (0, dentry)
        else
          e ← fetch shadowfs_dentry_t entry;
          inode ← fetch inode_t (e_inode e);
          change file (set_position (u32 (position f + 1))) ;;
          mret (1, Some (Dentry (kstrcpy_val (e_name e) VFS_MAX_NAME) (e_inode e) (i_type inode))).

Definition shadowfs_mkdir (dir : Z) (name : list Z) : M kw Z :=
  if dir =? 0 then mret (-1)
  else
    new_dir ← shadowfs_create dir name VFS_TYPE_DIR;
    mret (if new_dir =? 0 then -1 else 0).

Definition shadowfs_open (inode file : Z) : M kw Z := mret 0.
Definition shadowfs_close (inode file : Z) : M kw Z := mret 0.

(** * Files *)

(** [n] bytes of a block from [p] on. *)
Definition block_bytes (p n : Z) : M kw (list Z) :=
  in_kernel (in_vm (gets (λ s, (λ i, rd8 (mem s) (virtual_to_physical (p + i))) <$> seqZ 0 n))).

(** The bytes read from the block list [block], which begins at byte
    [block_start] of the file, after those of [acc]. *)
Fixpoint read_loop (n : nat) (block block_start offset remaining : Z) (acc : list Z) : M kw (list Z) :=
  match n with
  | O => diverge
  | S n =>
      if (block =? 0) || negb (0 <? remaining) then mret acc
      else
        b ← fetch shadowfs_block_t block;
        let block_end := u32 (block_start + b_used b) in
        if offset <? block_end then
          let block_offset := u32 (offset - block_start) in
          let available := u32 (b_used b - block_offset) in
          let to_read := if remaining <? available then remaining else available in
          bytes ← block_bytes (b_data b + block_offset) to_read;
          read_loop n (b_next b) block_end (u32 (offset + to_read)) (u32 (remaining - to_read)) (acc ++ bytes)
        else read_loop n (b_next b) block_end offset remaining acc
  end.

Definition shadowfs_read (file buffer size : Z) : M kw (Z * list Z) :=
  if (file =? 0) || (buffer =? 0) then mret (-1, [])
  else
    f ← fetch file_t file;
    if f_inode f =? 0 then mret (-1, [])
    else
      x ← fetch inode_t (f_inode f);
      if i_private x =? 0 then mret (-1, [])
      else if size =? 0 then mret (0, [])
      else
        let remaining :=
          if i_size x <? u32 (position f + size) then u32 (i_size x - position f) else size in
        if remaining =? 0 then mret (0, [])
        else
          p ← fetch shadowfs_inode_t (i_private x);
          n ← steps;
          bytes ← read_loop n (s_head p) 0 (position f) remaining [];
          let read := u32 (Z.of_nat (length bytes)) in
          change file (set_position (u32 (position f + read))) ;;
          (if 0 <? read then t ← now; change (f_inode f) (set_accessed (u32 t)) else mret tt) ;;
          mret (i32 read, bytes).

(** The last block of the list from [block] on, [last] when there is none. *)
Fixpoint last_block (n : nat) (last block : Z) : M kw Z :=
  match n with
  | O => diverge
  | S n =>
      if block =? 0 then mret last
      else b ← fetch shadowfs_block_t block; last_block n block (b_next b)
  end.

Definition BLOCK_COST : Z := 24.

(** Link [new_block] into the chain, behind [last]. *)
Definition link_block (priv last new_block : Z) : M kw unit :=
  p ← fetch shadowfs_inode_t priv;
  (if s_head p =? 0 then change priv (set_head new_block) else change last (set_b_next new_block)) ;;
  change priv (add_count 1).

(** A new block on a page of its own. *)
Definition add_block (priv mount last : Z) : M kw Z :=
  new_block ← new (Block 0 0 0);
  page ← in_kernel (in_vm (in_pmm pmm_alloc));
  put new_block (Block (physical_to_virtual page) 0 0) ;;
  link_block priv last new_block ;;
  change mount (add_quota BLOCK_COST) ;;
  mret new_block.

(** Is there no last block, or is it full? *)
Definition needs_block (last : Z) : M kw bool :=
  if last =? 0 then mret true
  else b ← fetch shadowfs_block_t last; mret (b_used b =? SHADOWFS_BLOCK_SIZE).

(** The bytes [data] go behind the [b_used] bytes of the block [last]. *)
Definition store_bytes (p : Z) (data : list Z) : M kw unit :=
  in_kernel (in_vm (for_up (length data) 0 (λ i,
    set_mem (wr8 (virtual_to_physical (p + i)) (data !!! Z.to_nat i))))).

(** As much of [data] as the block [last] has room for; the number of bytes. *)
Definition fill_block (last : Z) (data : list Z) : M kw Z :=
  b ← fetch shadowfs_block_t last;
  let remaining := Z.of_nat (length data) in
  let space := SHADOWFS_BLOCK_SIZE - b_used b in
  let to_write := if remaining <? space then remaining else space in
  store_bytes (b_data b + b_used b) (take (Z.to_nat to_write) data) ;;
  change last (λ b, set_b_used (u32 (b_used b + to_write)) b) ;;
  mret to_write.

Fixpoint write_loop (n : nat) (priv mount last : Z) (data : list Z) (written : Z) : M kw Z :=
  match n with
  | O => diverge
  | S n =>
      match data with
      | [] => mret written
      | _ =>
          m ← fetch shadowfs_mount_t mount;
          if quota m <=? m_used m then mret written
          else
            full ← needs_block last;
            last ← (if (full : bool) then add_block priv mount last else mret last);
            to_write ← fill_block last data;
            write_loop n priv mount last (drop (Z.to_nat to_write) data) (u32 (written + to_write))
      end
  end.

(** The last steps of shadowfs_write(): size, position and time stamp. *)
Definition finish_write (ino file n : Z) : M kw Z :=
  change ino (λ x, set_i_size (u32 (i_size x + n)) x) ;;
  change file (λ f, set_position (u32 (position f + n)) f) ;;
  (if 0 <? n then t ← now; change ino (set_modified (u32 t)) else mret tt) ;;
  mret (i32 n).

Definition shadowfs_write (file buf : Z) (data : list Z) : M kw Z :=
  if file =? 0 then kpanic "shadowfs_write: null file!"
  else if buf =? 0 then kpanic "shadowfs_write: null buffer!"
  else
    f ← fetch file_t file;
    if f_inode f =? 0 then kpanic "shadowfs_write: null inode"
    else
      x ← fetch inode_t (f_inode f);
      if i_private x =? 0 then kpanic "shadowfs_write: null private data!"
      else
        mount ← mount_data (i_sb x);
        if mount =? 0 then kpanic "shadowfs_write: null mount data!"
        else
          match data with
          | [] => mret 0
          | _ =>
              p ← fetch shadowfs_inode_t (i_private x);
              n ← steps;
              last ← last_block n 0 (s_head p);
              written ← write_loop (S (length data)) (i_private x) mount last data 0;
              finish_write (f_inode f) file written
          end.

(** The walk of shadowfs_truncate() to a size other than 0. *)
Fixpoint truncate_loop (n : nat) (priv mount bytes_remaining previous block : Z) : M kw unit :=
  match n with
  | O => diverge
  | S n =>
      if block =? 0 then mret tt
      else
        b ← fetch shadowfs_block_t block;
        if bytes_remaining =? 0 then
          in_kernel (in_vm (in_pmm (pmm_free (virtual_to_physical (b_data b))))) ;;
          change mount (add_quota (- BLOCK_COST)) ;;
          dispose shadowfs_block_t block ;;
          change priv (add_count (-1)) ;;
          (if negb (previous =? 0) then change previous (set_b_next 0) else mret tt) ;;
          truncate_loop n priv mount bytes_remaining previous (b_next b)
        else if bytes_remaining <? b_used b then
          put block (set_b_used bytes_remaining b) ;;
          truncate_loop n priv mount 0 block (b_next b)
        else truncate_loop n priv mount (u32 (bytes_remaining - b_used b)) block (b_next b)
  end.

Definition shadowfs_truncate (inode size : Z) : M kw Z :=
  if inode =? 0 then mret (-1)
  else
    x ← fetch inode_t inode;
    if i_private x =? 0 then mret (-1)
    else
      mount ← mount_data (i_sb x);
      if mount =? 0 then mret (-1)
      else if negb (i_type x =? VFS_TYPE_FILE) then mret (-1)
      else
        p ← fetch shadowfs_inode_t (i_private x);
        n ← steps;
        if size =? 0 then
          free_blocks (change mount (add_quota (- BLOCK_COST))) n (s_head p) ;;
          put (i_private x) (SInode 0 0) ;;
          change inode (set_i_size 0) ;;
          mret 0
        else
          truncate_loop n (i_private x) mount size 0 (s_head p) ;;
          change inode (set_i_size size) ;;
          mret 0.

Definition shadowfs_table : fs_ops :=
  FsOps (Some shadowfs_lookup) (Some shadowfs_create) (Some shadowfs_delete) (Some shadowfs_truncate)
    (Some shadowfs_open) (Some shadowfs_close) (Some shadowfs_read) (Some shadowfs_write)
    (Some shadowfs_readdir) (Some shadowfs_mkdir).

End Shadowfs.

(** * shadowFS obeys the laws of a file system *)

Section Framed.
Context `{C : Clock}.

Lemma framed_mount_data sb : framed (mount_data sb).
Proof. unfold mount_data. framed. Qed.
Hint Resolve framed_mount_data : framed.

Lemma framed_steps : framed steps.
Proof. apply (framed_gets (λ w, S (size (objects w)))). Qed.
Hint Resolve framed_steps : framed.

Lemma framed_create_inode sb type : framed (shadowfs_create_inode sb type).
Proof. unfold shadowfs_create_inode. framed. Qed.
Hint Resolve framed_create_inode : framed.

Lemma framed_find_entry n : ∀ entry name, framed (find_entry n entry name).
Proof. induction n; intros; cbn [find_entry]; framed. Qed.
Hint Resolve framed_find_entry : framed.

Lemma framed_last_entry n : ∀ last, framed (last_entry n last).
Proof. induction n; intros; cbn [last_entry]; framed. Qed.
Hint Resolve framed_last_entry : framed.

Lemma framed_append_entry priv dentry : framed (append_entry priv dentry).
Proof. unfold append_entry. framed. Qed.
Hint Resolve framed_append_entry : framed.

Lemma shadow_framed_lookup dir name : framed (shadowfs_lookup dir name).
Proof. unfold shadowfs_lookup. framed. Qed.

Lemma shadow_framed_create dir name type : framed (shadowfs_create dir name type).
Proof. unfold shadowfs_create. framed. Qed.
Hint Resolve shadow_framed_create : framed.

Lemma framed_free_blocks refund n : framed refund → ∀ block, framed (free_blocks refund n block).
Proof. intros Hr. induction n; intros; cbn [free_blocks]; framed. Qed.
Hint Resolve framed_free_blocks : framed.

Lemma framed_free_entry mount entry ino x : framed (free_entry mount entry ino x).
Proof. unfold free_entry. framed. Qed.
Hint Resolve framed_free_entry : framed.

Lemma framed_remove_entry priv mount previous entry e : framed (remove_entry priv mount previous entry e).
Proof. unfold remove_entry. framed. Qed.
Hint Resolve framed_remove_entry : framed.

Lemma framed_delete_loop n : ∀ priv mount previous entry name, framed (delete_loop n priv mount previous entry name).
Proof. induction n; intros; cbn [delete_loop]; framed. Qed.
Hint Resolve framed_delete_loop : framed.

Lemma shadow_framed_delete dir name : framed (shadowfs_delete dir name).
Proof. unfold shadowfs_delete. framed. Qed.

Lemma framed_nth_entry n : ∀ entry index position, framed (nth_entry n entry index position).
Proof. induction n; intros; cbn [nth_entry]; framed. Qed.
Hint Resolve framed_nth_entry : framed.

Lemma framed_change_position p v : framed (change p (set_position v)).
Proof. by apply framed_change_file. Qed.
Lemma framed_move_position p n : framed (change p (λ f, set_position (u32 (position f + n)) f)).
Proof. by apply framed_change_file. Qed.
Hint Resolve framed_change_position framed_move_position : framed.

Lemma shadow_framed_readdir file dentry : framed (shadowfs_readdir file dentry).
Proof. unfold shadowfs_readdir. framed. Qed.

Lemma shadow_framed_mkdir dir name : framed (shadowfs_mkdir dir name).
Proof. unfold shadowfs_mkdir. framed. Qed.

Lemma framed_block_bytes p n : framed (block_bytes p n).
Proof. unfold block_bytes. framed. Qed.
Hint Resolve framed_block_bytes : framed.

Lemma framed_read_loop n : ∀ block start offset remaining acc, framed (read_loop n block start offset remaining acc).
Proof. induction n; intros; cbn [read_loop]; framed. Qed.
Hint Resolve framed_read_loop : framed.

Lemma shadow_framed_read file buffer size : framed (shadowfs_read file buffer size).
Proof. unfold shadowfs_read. framed. Qed.

Lemma framed_last_block n : ∀ last block, framed (last_block n last block).
Proof. induction n; intros; cbn [last_block]; framed. Qed.

Lemma framed_add_block priv mount last : framed (add_block priv mount last).
Proof. unfold add_block, link_block. framed. Qed.

Lemma framed_needs_block last : framed (needs_block last).
Proof. unfold needs_block. framed. Qed.

Lemma framed_store_bytes p data : framed (store_bytes p data).
Proof. unfold store_bytes. framed. Qed.
Hint Resolve framed_last_block framed_add_block framed_needs_block framed_store_bytes : framed.

Lemma framed_fill_block last data : framed (fill_block last data).
Proof. unfold fill_block. framed. Qed.
Hint Resolve framed_fill_block : framed.

Lemma framed_write_loop n : ∀ priv mount last data written, framed (write_loop n priv mount last data written).
Proof. induction n; intros; cbn [write_loop]; framed. Qed.
Hint Resolve framed_write_loop : framed.

Lemma shadow_framed_write file buf data : framed (shadowfs_write file buf data).
Proof. unfold shadowfs_write, finish_write. framed. Qed.

Lemma framed_truncate_loop n : ∀ priv mount remaining previous block,
  framed (truncate_loop n priv mount remaining previous block).
Proof. induction n; intros; cbn [truncate_loop]; framed. Qed.
Hint Resolve framed_truncate_loop : framed.

Lemma shadow_framed_truncate inode size : framed (shadowfs_truncate inode size).
Proof. unfold shadowfs_truncate. framed. Qed.

(** The laws hold of any file systems whose tables are all this one. *)
Lemma shadowfs_laws : FilesystemLaws (FS := λ _, shadowfs_table).
Proof.
  split; intros t f; simpl; intros * [= <-]; unfold shadowfs_open, shadowfs_close;
    auto using shadow_framed_lookup, shadow_framed_create, shadow_framed_delete, shadow_framed_truncate, framed_ret, shadow_framed_read,
      shadow_framed_write, shadow_framed_readdir, shadow_framed_mkdir.
Qed.

End Framed.

(** * Directories *)

Abbreviation entries := (list (Z * shadowfs_dentry_t)).

Definition called (name : list Z) (e : Z * shadowfs_dentry_t) : bool := bool_decide (e_name e.2 = name).

Section Walks.
Context `{C : Clock}.

Lemma steps_Done k w : steps (k, w) = Done (S (size (objects w))) (k, w).
Proof. done. Qed.

Lemma find_entry_spec name k w : ∀ (es : entries) n entry,
  chain e_next (objects w) entry es → (length es < n)%nat →
  find_entry n entry name (k, w) = Done (default 0 (fst <$> List.find (called name) es)) (k, w).
Proof.
  induction es as [|[a e] es IH]; intros [|n] entry Hc Hn; simpl in Hn; try lia; cbn [find_entry].
  - simpl in Hc. subst. done.
  - destruct Hc as (-> & Ha & He & Hc). rewrite (proj2 (Z.eqb_neq _ _) Ha).
    rewrite (bind_Done _ _ _ _ _ (fetch_Done _ _ _ _ He)). simpl. unfold called at 1. simpl.
    destruct (bool_decide (e_name e = name)); [done|]. apply IH; [done|lia].
Qed.

Lemma find_entry_steps name k w es entry :
  chain e_next (objects w) entry es →
  find_entry (S (size (objects w))) entry name (k, w) = Done (default 0 (fst <$> List.find (called name) es)) (k, w).
Proof. intros Hc. apply find_entry_spec; [done|]. pose proof (chain_size _ _ _ _ Hc). lia. Qed.

Lemma last_entry_spec k w : ∀ (es : entries) a e n last,
  chain e_next (objects w) last (es ++ [(a, e)]) → (length es < n)%nat →
  last_entry n last (k, w) = Done a (k, w).
Proof.
  induction es as [|[b y] es IH]; intros a e [|n] last Hc Hn; simpl in Hn; try lia; cbn [last_entry].
  - destruct Hc as (-> & Ha & He & Hn0). rewrite (bind_Done _ _ _ _ _ (fetch_Done _ _ _ _ He)).
    simpl in Hn0. by rewrite Hn0.
  - destruct Hc as (-> & Ha & He & Hc). rewrite (bind_Done _ _ _ _ _ (fetch_Done _ _ _ _ He)).
    assert (e_next y ≠ 0) as Hy by (destruct es as [|[]]; by destruct Hc as (-> & ? & _)).
    rewrite (proj2 (Z.eqb_neq _ _) Hy). eapply IH; [done|lia].
Qed.

Lemma nth_entry_spec k w position : ∀ (es : entries) n entry index,
  chain e_next (objects w) entry es → (length es < n)%nat →
  0 <= index <= position → index + Z.of_nat (length es) < 2 ^ 32 →
  nth_entry n entry index position (k, w) =
  Done (default 0 (fst <$> es !! Z.to_nat (position - index))) (k, w).
Proof.
  induction es as [|[a e] es IH]; intros [|n] entry index Hc Hn Hi Hl; simpl in Hn; try lia; cbn [nth_entry].
  - simpl in Hc. subst. done.
  - destruct Hc as (-> & Ha & He & Hc). rewrite (proj2 (Z.eqb_neq _ _) Ha).
    destruct (Z.eqb_spec index position) as [-> |Hne]; [by rewrite Z.sub_diag|].
    rewrite (bind_Done _ _ _ _ _ (fetch_Done _ _ _ _ He)). simpl in Hl.
    rewrite u32_small by lia. rewrite IH by (done || lia).
    by replace (Z.to_nat (position - index)) with (S (Z.to_nat (position - (index + 1)))) by lia.
Qed.

End Walks.

(** The directory [d] at [dir] holds the entries [es]. *)
Record dir_rep (s : kw) (dir : Z) (d : inode_t) (es : entries) : Prop := {
  dir_inode : objects s.2 !! dir = Some (inj d);
  dir_private : i_private d ≠ 0;
  dir_head : ∃ head, objects s.2 !! i_private d = Some (inj (SInode head (Z.of_nat (length es)))) ∧
    chain e_next (objects s.2) head es;
  dir_size : Z.of_nat (length es) < 2 ^ 32 - 1;
  dir_names : NoDup ((λ e, e_name e.2) <$> es) }.

(** The listing of a directory: names with their inodes. *)
Definition listing (es : entries) : list (list Z * Z) := (λ e, (e_name e.2, e_inode e.2)) <$> es.

(** The inode under a name, 0 for none. *)
Definition assoc (name : list Z) (l : list (list Z * Z)) : Z :=
  default 0 (snd <$> List.find (λ x, bool_decide (x.1 = name)) l).

(** The mount of [d] keeps its data [m] at [mount]. *)
Definition mounted (s : kw) (d : inode_t) (mount : Z) (m : shadowfs_mount_t) : Prop :=
  ∃ i sb, i_sb d = Some i ∧ mount_table s.2 !! i = Some sb ∧ sb_private sb = mount ∧ mount ≠ 0 ∧
    objects s.2 !! mount = Some (inj m).

Section Directories.
Context `{C : Clock}.

Lemma mount_data_Done k w d mount m : mounted (k, w) d mount m → mount_data (i_sb d) (k, w) = Done mount (k, w).
Proof.
  intros (i & sb & Hd & Hi & Hm & _). simpl in Hi. unfold mount_data. rewrite Hd.
  rewrite (bind_Done _ _ (k, w) i (k, w)) by done.
  rewrite (bind_Done _ _ (k, w) (mount_table w) (k, w)) by done.
  rewrite (bind_Done _ _ (k, w) sb (k, w)) by (unfold access; by rewrite Hi). by rewrite <- Hm.
Qed.

Lemma find_listing name (es : entries) :
  snd <$> List.find (λ x, bool_decide (x.1 = name)) (listing es) = e_inode ∘ snd <$> List.find (called name) es.
Proof.
  induction es as [|[a e] es IH]; [done|]. simpl. unfold called at 1. simpl.
  by destruct (bool_decide (e_name e = name)).
Qed.

Lemma find_called name (es : entries) x : List.find (called name) es = Some x → x ∈ es ∧ e_name x.2 = name.
Proof.
  intros H. apply find_some in H as [Hin Hx]. split; [by apply list_elem_of_In|].
  unfold called in Hx. by apply bool_decide_eq_true in Hx.
Qed.

Lemma find_called_None name (es : entries) :
  List.find (called name) es = None ↔ name ∉ (λ e, e_name e.2) <$> es.
Proof.
  split.
  - intros H (x & -> & Hx)%list_elem_of_fmap. eapply find_none in H; [|by apply list_elem_of_In].
    unfold called in H. by rewrite bool_decide_true in H.
  - intros Hn. destruct (List.find (called name) es) as [x|] eqn:H; [|done].
    destruct Hn. apply find_called in H as [Hin <-]. apply list_elem_of_fmap. by exists x.
Qed.

Lemma lookup_spec k w dir d es name :
  dir_rep (k, w) dir d es → dir ≠ 0 →
  shadowfs_lookup dir name (k, w) = Done (assoc name (listing es)) (k, w).
Proof.
  intros [Hd Hp (head & Hpriv & Hc) _ _] Hdir. unfold shadowfs_lookup.
  rewrite (proj2 (Z.eqb_neq _ _) Hdir), (bind_Done _ _ _ _ _ (fetch_Done _ _ _ _ Hd)).
  rewrite (proj2 (Z.eqb_neq _ _) Hp), (bind_Done _ _ _ _ _ (fetch_Done _ _ _ _ Hpriv)).
  rewrite (bind_Done _ _ _ _ _ (steps_Done _ _)). rewrite (bind_Done _ _ _ _ _ (find_entry_steps _ _ _ _ _ Hc)).
  unfold assoc. rewrite find_listing. destruct (List.find (called name) es) as [[a e]|] eqn:Hf; [|done].
  apply find_called in Hf as [Hin _]. destruct (chain_lookup _ _ _ _ _ _ Hc Hin) as [Ha He].
  change (default 0 (fst <$> Some (a, e))) with a. rewrite (proj2 (Z.eqb_neq _ _) Ha).
  by rewrite (bind_Done _ _ _ _ _ (fetch_Done _ _ _ _ He)).
Qed.

Lemma readdir_spec k w dir d es file f dentry :
  dir_rep (k, w) dir d es → dir ≠ 0 →
  objects w !! file = Some (inj f) → file ≠ 0 → f_inode f = dir → 0 <= position f < 2 ^ 32 →
  Forall (λ e, ∃ x : inode_t, objects w !! e_inode e.2 = Some (inj x)) es →
  match es !! Z.to_nat (position f) with
  | Some (_, e) => ∃ x : inode_t, objects w !! e_inode e = Some (inj x) ∧
      shadowfs_readdir file (Some dentry) (k, w) =
      Done (1, Some (Dentry (kstrcpy_val (e_name e) VFS_MAX_NAME) (e_inode e) (i_type x)))
        (k, with_objects <[file := inj (set_position (u32 (position f + 1)) f)]> w)
  | None => shadowfs_readdir file (Some dentry) (k, w) = Done (0, Some dentry) (k, w)
  end.
Proof.
  intros [Hd Hp (head & Hpriv & Hc) Hsize _] Hdir Hf Hfile Hfd Hpos Hino.
  assert (Hrun : shadowfs_readdir file (Some dentry) (k, w) =
    (let entry := default 0 (fst <$> es !! Z.to_nat (position f)) in
     if entry =? 0 then mret (0, Some dentry)
     else
       e ← fetch shadowfs_dentry_t entry;
       inode ← fetch inode_t (e_inode e);
       change file (set_position (u32 (position f + 1))) ;;
       mret (1, Some (Dentry (kstrcpy_val (e_name e) VFS_MAX_NAME) (e_inode e) (i_type inode)))) (k, w)).
  { unfold shadowfs_readdir. rewrite (proj2 (Z.eqb_neq _ _) Hfile). simpl.
    rewrite (bind_Done _ _ _ _ _ (fetch_Done _ _ _ _ Hf)), Hfd, (proj2 (Z.eqb_neq _ _) Hdir).
    rewrite (bind_Done _ _ _ _ _ (fetch_Done _ _ _ _ Hd)), (proj2 (Z.eqb_neq _ _) Hp).
    rewrite (bind_Done _ _ _ _ _ (fetch_Done _ _ _ _ Hpriv)), (bind_Done _ _ _ _ _ (steps_Done _ _)).
    pose proof (chain_size _ _ _ _ Hc) as Hsz. simpl in Hsz.
    rewrite (bind_Done _ _ _ _ _ (nth_entry_spec k w (position f) es (S (size (objects w))) _ 0 Hc ltac:(lia) ltac:(lia) ltac:(lia))).
    by rewrite Z.sub_0_r. }
  rewrite Hrun. clear Hrun. destruct (es !! Z.to_nat (position f)) as [[a e]|] eqn:He; [|done].
  destruct (Forall_lookup_1 _ _ _ _ Hino He) as [x Hx]. exists x. split; [done|]. simpl in Hx.
  apply list_elem_of_lookup_2 in He. destruct (chain_lookup _ _ _ _ _ _ Hc He) as [Ha Hae].
  cbv zeta. change (default 0 (fst <$> Some (a, e))) with a. rewrite (proj2 (Z.eqb_neq _ _) Ha).
  rewrite (bind_Done _ _ _ _ _ (fetch_Done _ _ _ _ Hae)), (bind_Done _ _ _ _ _ (fetch_Done _ _ _ _ Hx)).
  by rewrite (bind_Done _ _ _ _ _ (change_Done _ _ _ _ _ Hf)).
Qed.

(** What a new inode holds. *)
Definition new_inode (num type t : Z) (sb : option nat) (priv : Z) : inode_t :=
  Inode num type 0 493 0 0 (u32 t) (u32 t) (u32 t) 1 (Some shadowfs_ops) sb priv.

Definition bump (m : shadowfs_mount_t) : shadowfs_mount_t :=
  SMount (quota m) (m_used m) (u32 (next_inode_num m + 1)) (m_root_inode m).

Lemma mount_data_put k k' w d mount m m' : mounted (k, w) d mount m →
  mounted (k', with_objects <[mount := inj m']> w) d mount m'.
Proof. intros (i & sb & H1 & H2 & H3 & H4 & _). exists i, sb. split_and!; [done..|]. simpl. by rewrite lookup_insert_eq. Qed.

Lemma create_inode_spec k w d mount m type :
  owned (k, w) → mounted (k, w) d mount m → type = VFS_TYPE_FILE ∨ type = VFS_TYPE_DIR →
  shadowfs_create_inode (i_sb d) type (k, w) = Panic out_of_memory ∨
  ∃ ino priv h w' t, shadowfs_create_inode (i_sb d) type (k, w) = Done ino (with_heap h k, w') ∧
    owned (with_heap h k, w') ∧ statics w' = statics w ∧
    ino ≠ 0 ∧ priv ≠ 0 ∧ ino ≠ priv ∧ objects w !! ino = None ∧ objects w !! priv = None ∧
    objects w' = <[priv := inj (SInode 0 0)]> (<[ino := inj (new_inode (next_inode_num m) type t (i_sb d) priv)]>
                   (<[mount := inj (bump m)]> (objects w))).
Proof.
  intros Hown Hm Htype. pose proof (mount_data_Done _ _ _ _ _ Hm) as Hmd.
  pose proof Hm as (i & sb & Hsb & Hi & _ & Hm0 & Hobj). unfold shadowfs_create_inode. rewrite Hsb in Hmd |- *.
  rewrite (bind_Done _ _ _ _ _ Hmd). cbv beta. rewrite (proj2 (Z.eqb_neq _ _) Hm0).
  set (z := Inode 0 0 0 0 0 0 0 0 0 0 None None 0).
  destruct (new_spec z k w Hown) as [Hn|(ino & h1 & Hn & Hino & Hino0 & Hown1)]; [left; by apply bind_Panic|].
  rewrite (bind_Done _ _ _ _ _ Hn).
  destruct (new_spec (SInode 0 0) _ _ Hown1) as [Hn2|(priv & h2 & Hn2 & Hpriv & Hpriv0 & Hown2)]; [left; by apply bind_Panic|].
  rewrite (bind_Done _ _ _ _ _ Hn2). right. clear Hn Hn2. simpl in Hobj, Hpriv.
  apply lookup_insert_None in Hpriv as [Hpriv Hne].
  set (w2 := with_objects _ (with_objects _ w)) in *. set (k2 := with_heap h2 _) in *.
  assert (H2m : objects w2 !! mount = Some (inj m)).
  { simpl. rewrite !lookup_insert_ne; [done|congruence|congruence]. }
  rewrite (bind_Done _ _ _ _ _ (fetch_Done _ _ k2 w2 H2m)), (bind_Done _ _ _ _ _ (put_Done _ (bump m) _ k2 w2 H2m)).
  pose proof (owned_put _ (bump m) _ _ _ Hown2 H2m) as Hown3.
  set (w3 := with_objects _ w2) in *. rewrite (bind_Done _ _ _ _ _ (now_Done k2 w3)).
  set (t := rtc_now_epoch _). set (w4 := with_clock _ w3).
  assert (H4i : objects w4 !! ino = Some (inj z)).
  { simpl. rewrite lookup_insert_ne, lookup_insert_ne, lookup_insert_eq by congruence. done. }
  assert (Hown4 : owned (k2, w4)) by exact Hown3.
  rewrite (bind_Done _ _ _ _ _ (put_Done _ (new_inode (next_inode_num m) type t (Some i) priv) _ k2 w4 H4i)).
  pose proof (owned_put _ (new_inode (next_inode_num m) type t (Some i) priv) _ _ _ Hown4 H4i) as Hown5.
  set (w5 := with_objects _ w4) in *.
  assert (H5p : objects w5 !! priv = Some (inj (SInode 0 0))).
  { simpl. rewrite lookup_insert_ne, lookup_insert_ne, lookup_insert_eq by congruence. done. }
  pose proof (owned_put _ (SInode 0 0) _ _ _ Hown5 H5p) as Hown6.
  assert ((type =? VFS_TYPE_FILE) || (type =? VFS_TYPE_DIR) = true) as -> by (by destruct Htype as [-> | ->]).
  rewrite (bind_Done _ _ _ _ _ (put_Done _ (SInode 0 0) _ k2 w5 H5p)).
  exists ino, priv, h2, (with_objects <[priv := inj (SInode 0 0)]> w5), t.
  split; [done|]. split; [exact Hown6|]. split_and!; [done..|].
  cbn [objects with_objects with_clock w5 w4 w3 w2]. apply map_eq. intros q. rewrite !lookup_insert.
  repeat case_decide; congruence.
Qed.

(** The entries after the last one was linked to [v]. *)
Definition relink (es : entries) (v : Z) : entries :=
  match list.last es with
  | None => []
  | Some (a, e) => take (length es - 1) es ++ [(a, set_e_next v e)]
  end.

Lemma relink_snoc es a e v : relink (es ++ [(a, e)]) v = es ++ [(a, set_e_next v e)].
Proof. unfold relink. rewrite last_snoc, length_app. simpl. rewrite Nat.add_sub. by rewrite take_app_length. Qed.

Lemma relink_listing es v : listing (relink es v) = listing es ∧ (relink es v).*1 = es.*1 ∧ length (relink es v) = length es.
Proof.
  destruct es as [|[a e] es _] using rev_ind; [done|]. rewrite relink_snoc. unfold listing.
  rewrite !fmap_app, !length_app. done.
Qed.

Lemma append_entry_spec k w priv head count es dent name ino :
  objects w !! priv = Some (inj (SInode head count)) → chain e_next (objects w) head es →
  objects w !! dent = Some (inj (SDentry name ino 0)) → dent ∉ es.*1 → dent ≠ 0 →
  ∃ f head', append_entry priv dent (k, w) = Done tt (k, with_objects f w) ∧
    f (objects w) !! priv = Some (inj (SInode head' (u32 (count + 1)))) ∧
    chain e_next (f (objects w)) head' (relink es dent ++ [(dent, SDentry name ino 0)]) ∧
    (∀ q, q ≠ priv → q ∉ es.*1 → f (objects w) !! q = objects w !! q) ∧
    (owned (k, w) → owned (k, with_objects f w)).
Proof.
  intros Hpriv Hc Hdent Hnotin Hd0. unfold append_entry.
  rewrite (bind_Done _ _ _ _ _ (fetch_Done _ _ _ _ Hpriv)). cbn [s_head].
  destruct es as [|[a e] es _] using rev_ind.
  - simpl in Hc. subst head. cbn [Z.eqb]. rewrite (bind_Done _ _ _ _ _ (change_Done _ _ (set_head dent) _ _ Hpriv)).
    set (w1 := with_objects _ w).
    assert (H1 : objects w1 !! priv = Some (inj (SInode dent count))) by (simpl; by rewrite lookup_insert_eq).
    rewrite (change_Done _ _ (add_count 1) _ _ H1).
    exists (λ m, <[priv := inj (SInode dent (u32 (count + 1)))]> (<[priv := inj (SInode dent count)]> m)), dent.
    split; [done|]. split; [by rewrite lookup_insert_eq|]. split; [|split].
    + split_and!; [done|done| |done]. rewrite !lookup_insert_ne; [done|..]; intros ->; by rewrite Hpriv in Hdent.
    + intros q Hq _. by rewrite !lookup_insert_ne.
    + intros Hown. eapply (owned_put _ _ _ _ _ (owned_put _ _ _ _ _ Hown Hpriv) H1).
  - assert (head ≠ 0) as Hh by (destruct es as [|[]]; by destruct Hc as (-> & ? & _)).
    destruct (chain_lookup _ _ _ _ a e Hc) as [Ha Hae]; [apply elem_of_app; right; by left|].
    assert (Hlink : (n ← steps; last ← last_entry n head; change last (set_e_next dent)) (k, w) =
      Done tt (k, with_objects <[a := inj (set_e_next dent e)]> w)).
    { rewrite (bind_Done _ _ _ _ _ (steps_Done k w)). pose proof (chain_size _ _ _ _ Hc) as Hsz.
      rewrite length_app in Hsz. rewrite (bind_Done _ _ _ _ _ (last_entry_spec k w _ _ _ (S (size (objects w))) _ Hc ltac:(lia))).
      exact (change_Done _ _ (set_e_next dent) _ _ Hae). }
    rewrite (proj2 (Z.eqb_neq _ _) Hh), (bind_Done _ _ _ _ _ Hlink). clear Hlink.
    set (w1 := with_objects _ w).
    assert (Hpa : priv ≠ a) by (intros ->; rewrite Hpriv in Hae; done).
    assert (H1 : objects w1 !! priv = Some (inj (SInode head count))) by (simpl; by rewrite lookup_insert_ne).
    rewrite (change_Done _ _ (add_count 1) _ _ H1), relink_snoc.
    exists (λ m, <[priv := inj (SInode head (u32 (count + 1)))]> (<[a := inj (set_e_next dent e)]> m)), head.
    split; [done|]. split; [by rewrite lookup_insert_eq|].
    assert (Hda : dent ≠ a).
    { intros ->. apply Hnotin. rewrite fmap_app. apply elem_of_app. right. by left. }
    assert (Hdp : dent ≠ priv) by (intros ->; rewrite Hpriv in Hdent; done).
    split; [|split].
    + rewrite <- (assoc_L (++)). apply chain_insert_ne.
      { rewrite !fmap_app. simpl. intros [Hin|[->|[->|[]%not_elem_of_nil]%elem_of_cons]%elem_of_cons]%elem_of_app; [|done..].
        apply (chain_not_in _ _ _ _ priv Hc); [by rewrite Hpriv|]. rewrite fmap_app. apply elem_of_app. by left. }
      eapply chain_link; [exact Hc|]. simpl. split_and!; [done|done| |done]. by rewrite lookup_insert_ne.
    + intros q Hq Hin. rewrite !lookup_insert_ne; [done| |done]. intros ->. apply Hin.
      rewrite fmap_app. apply elem_of_app. right. by left.
    + intros Hown. eapply (owned_put _ _ _ _ _ (owned_put _ _ _ _ _ Hown Hae) H1).
Qed.

(** A directory depends on its inode, its private data and its entries. *)
Lemma dir_rep_frame s s' dir d es :
  dir_rep s dir d es →
  (∀ q, q = dir ∨ q = i_private d ∨ q ∈ es.*1 → objects s'.2 !! q = objects s.2 !! q) →
  dir_rep s' dir d es.
Proof.
  intros [Hd Hp (head & Hpriv & Hc) Hl Hn] Hq. split; [rewrite Hq; auto|done| |done..].
  exists head. split; [rewrite Hq; auto|]. eapply chain_frame; [|exact Hc].
  intros a x Hin Hx. rewrite Hq; [done|]. right. right. apply list_elem_of_fmap. by exists (a, x).
Qed.

Lemma listing_names es : (λ e, e_name e.2) <$> es = (listing es).*1.
Proof. unfold listing. by rewrite <- list_fmap_compose. Qed.

(** What a create that went well has done. *)
Record created_in (s s' : kw) (dir : Z) (d : inode_t) (mount : Z) (m : shadowfs_mount_t) (es : entries)
    (name : list Z) (type ino : Z) : Prop := {
  cr_owned : owned s';
  cr_fresh : ino ≠ 0 ∧ objects s.2 !! ino = None;
  cr_dir : ∃ es', dir_rep s' dir d es' ∧ listing es' = listing es ++ [(name, ino)];
  cr_mounted : mounted s' d mount (add_quota ENTRY_COST (bump m));
  cr_inode : ∃ x, objects s'.2 !! ino = Some (inj x) ∧ i_type x = type ∧ i_size x = 0 ∧
    i_sb x = i_sb d ∧ i_ops x = Some shadowfs_ops ∧ i_private x ≠ 0 ∧ i_private x ≠ i_private d ∧
    objects s'.2 !! i_private x = Some (inj (SInode 0 0));
  cr_frame q o : objects s.2 !! q = Some o → q ≠ mount → q ≠ i_private d → q ∉ es.*1 → objects s'.2 !! q = Some o }.

Lemma create_spec k w dir d mount m es name type :
  owned (k, w) → dir_rep (k, w) dir d es → mounted (k, w) d mount m →
  m_used m < quota m → name ∉ (listing es).*1 → Z.of_nat (length name) < VFS_MAX_NAME →
  type = VFS_TYPE_FILE ∨ type = VFS_TYPE_DIR → Z.of_nat (length es) < 2 ^ 32 - 2 →
  shadowfs_create dir name type (k, w) = Panic out_of_memory ∨
  ∃ ino s', shadowfs_create dir name type (k, w) = Done ino s' ∧
    created_in (k, w) s' dir d mount m es name type ino.
Proof.
  intros Hown Hdir Hm Hq Hname Hlen Htype Hroom. pose proof Hdir as [Hd Hp (head & Hpriv & Hc) Hl Hn].
  pose proof Hm as (i & sb & Hsb & Hi & Hsp & Hm0 & Hmo). simpl in Hd, Hpriv, Hc, Hmo.
  unfold shadowfs_create.
  rewrite (bind_Done _ _ _ _ _ (fetch_Done _ _ _ _ Hd)), (bind_Done _ _ _ _ _ (mount_data_Done _ _ _ _ _ Hm)).
  rewrite (bind_Done _ _ _ _ _ (fetch_Done _ _ _ _ Hmo)), (proj2 (Z.leb_gt _ _) Hq), (proj2 (Z.eqb_neq _ _) Hp).
  rewrite (bind_Done _ _ _ _ _ (fetch_Done _ _ _ _ Hpriv)), (bind_Done _ _ _ _ _ (steps_Done _ _)).
  rewrite (bind_Done _ _ _ _ _ (find_entry_steps _ _ _ _ _ Hc)).
  rewrite <- listing_names in Hname. rewrite (proj2 (find_called_None name es) Hname). cbn [fmap option_fmap option_map default Z.eqb negb].
  destruct (create_inode_spec k w d mount m type Hown Hm Htype)
    as [Hcr|(ino & priv & h & w1 & t & Hcr & Hown1 & [= Hmt _ _ _ _] & Hino0 & Hpriv0 & Hne & Hino & Hprivn & Ho1)];
    [left; by apply bind_Panic|].
  rewrite (bind_Done _ _ _ _ _ Hcr), (proj2 (Z.eqb_neq _ _) Hino0). clear Hcr.
  set (k1 := with_heap h k) in *.
  assert (kstrcpy_val name VFS_MAX_NAME = name) as ->.
  { unfold kstrcpy_val. apply take_ge. unfold VFS_MAX_NAME in *. lia. }
  destruct (new_spec (SDentry name ino 0) k1 w1 Hown1)
    as [Hnew|(dent & h2 & Hnew & Hdent & Hdent0 & Hown2)]; [left; by apply bind_Panic|right].
  rewrite (bind_Done _ _ _ _ _ Hnew). clear Hnew. set (w2 := with_objects _ w1) in *. set (k2 := with_heap h2 k1) in *.
  assert (Hold : ∀ q o, objects w !! q = Some o → q ≠ mount → objects w2 !! q = Some o).
  { intros q o Hqo Hqm. rewrite Ho1 in Hdent. apply lookup_insert_None in Hdent as [Hdent _].
    apply lookup_insert_None in Hdent as [Hdent _]. apply lookup_insert_None in Hdent as [Hdent _].
    cbn [objects with_objects w2]. rewrite lookup_insert_ne by congruence.
    rewrite Ho1, !lookup_insert_ne by congruence. done. }
  assert (Hp2 : objects w2 !! i_private d = Some (inj (SInode head (Z.of_nat (length es))))).
  { apply Hold; [done|]. intros E. rewrite E, Hmo in Hpriv. done. }
  assert (Hc2 : chain e_next (objects w2) head es).
  { eapply chain_frame; [|exact Hc]. intros a x _ Hx. apply Hold; [done|]. intros ->. by rewrite Hmo in Hx. }
  assert (Hdent2 : objects w2 !! dent = Some (inj (SDentry name ino 0))) by (cbn [objects with_objects w2]; by rewrite lookup_insert_eq).
  assert (Hfresh : ∀ q, objects w2 !! q = None → objects w !! q = None).
  { intros q Hq2. destruct (objects w !! q) eqn:Hqo; [|done]. destruct (decide (q = mount)) as [-> |].
    - cbn [objects with_objects w2] in Hq2. rewrite lookup_insert_None in Hq2. destruct Hq2 as [Hq2 _].
      rewrite Ho1, !lookup_insert_None in Hq2. naive_solver.
    - by rewrite (Hold _ _ Hqo) in Hq2. }
  assert (Hdold : objects w !! dent = None).
  { destruct (objects w !! dent) eqn:Hqo; [|done]. rewrite Ho1, !lookup_insert_None in Hdent. naive_solver. }
  assert (Hnot : dent ∉ es.*1) by (apply (chain_not_in _ _ _ _ dent Hc); by rewrite Hdold).
  destruct (append_entry_spec k2 w2 _ head _ es dent name ino Hp2 Hc2 Hdent2 Hnot Hdent0)
    as (f & head' & Happ & Hfp & Hfc & Hfq & Hfown).
  rewrite (bind_Done _ _ _ _ _ Happ). clear Happ. set (w3 := with_objects f w2) in *. specialize (Hfown Hown2).
  assert (Hmn : mount ∉ es.*1) by (apply (chain_not_in _ _ _ _ mount Hc); by rewrite Hmo).
  assert (Hdn : dir ∉ es.*1) by (apply (chain_not_in _ _ _ _ dir Hc); by rewrite Hd).
  assert (Hin : ino ∉ es.*1) by (apply (chain_not_in _ _ _ _ ino Hc); by rewrite Hino).
  assert (Hpn : priv ∉ es.*1) by (apply (chain_not_in _ _ _ _ priv Hc); by rewrite Hprivn).
  assert (Hdo : dent ≠ ino ∧ dent ≠ priv ∧ dent ≠ mount).
  { rewrite Ho1, !lookup_insert_None in Hdent. naive_solver. }
  assert (H3m : objects w3 !! mount = Some (inj (bump m))).
  { cbn [objects with_objects w3]. rewrite Hfq by (done || distinct). cbn [objects with_objects w2].
    rewrite lookup_insert_ne by naive_solver. rewrite Ho1, !lookup_insert_ne, lookup_insert_eq by distinct. done. }
  rewrite (bind_Done _ _ _ _ _ (change_Done _ _ (add_quota ENTRY_COST) k2 w3 H3m)).
  set (w4 := with_objects _ w3).
  assert (Hkeep : ∀ q, q ≠ i_private d → q ∉ es.*1 → q ≠ mount → objects w4 !! q = objects w2 !! q).
  { intros q H1 H2 H3. cbn [objects with_objects w4]. rewrite lookup_insert_ne by congruence. by apply Hfq. }
  eexists ino, (k2, w4). split; [done|]. split.
  - eapply (owned_put _ _ _ _ _ Hfown H3m).
  - done.
  - exists (relink es dent ++ [(dent, SDentry name ino 0)]).
    destruct (relink_listing es dent) as (R1 & R2 & R3). split.
    + split; cbn [snd].
      * rewrite Hkeep by (done || distinct). apply Hold; [done|distinct].
      * done.
      * exists head'. rewrite length_app, R3. cbn [length objects with_objects w4].
        rewrite lookup_insert_ne by distinct. split.
        -- cbn [objects with_objects w3]. rewrite Hfp, u32_small by lia. by rewrite Nat2Z.inj_add.
        -- apply chain_insert_ne; [|exact Hfc]. rewrite fmap_app, R2. simpl.
           intros [?|[?|[]%not_elem_of_nil]%elem_of_cons]%elem_of_app; [done|naive_solver].
      * rewrite length_app, R3. simpl. lia.
      * rewrite listing_names. unfold listing. rewrite fmap_app. fold (listing (relink es dent)). rewrite R1.
        rewrite fmap_app. simpl. rewrite <- listing_names. apply list.NoDup_app. split_and!; [done| |apply NoDup_singleton].
        intros n Hn1 ->%list_elem_of_singleton. done.
    + unfold listing. rewrite fmap_app. fold (listing (relink es dent)). by rewrite R1.
  - exists i, sb. split_and!; [done| |done|done|].
    + cbn [snd]. change (mount_table w4) with (mount_table w1). by rewrite Hmt.
    + cbn [snd objects with_objects w4]. by rewrite lookup_insert_eq.
  - exists (new_inode (next_inode_num m) type t (i_sb d) priv). cbn [snd].
    assert (H2i : objects w2 !! ino = Some (inj (new_inode (next_inode_num m) type t (i_sb d) priv))).
    { cbn [objects with_objects w2]. rewrite lookup_insert_ne by naive_solver.
      rewrite Ho1, lookup_insert_ne, lookup_insert_eq by congruence. done. }
    split_and!; [|done..| |].
    + by rewrite Hkeep by (done || distinct).
    + cbn [i_private new_inode]. distinct.
    + cbn [i_private new_inode]. rewrite Hkeep by (done || distinct). cbn [objects with_objects w2].
      rewrite lookup_insert_ne by naive_solver. by rewrite Ho1, lookup_insert_eq.
  - cbn [snd]. intros q o Hqo H1 H2 H3. rewrite Hkeep by done. by apply Hold.
Qed.

(** ** Freeing blocks *)

Definition with_frames (t : pmm) (k : kernel) : kernel :=
  Kernel (k_sched k) (Vm (mem (k_vm k)) t (kernel_pml4 (k_vm k)) (cr3 (k_vm k))) (k_heap k).

Definition k_frames (k : kernel) : pmm := frames (k_vm k).

Lemma run_pmm {A} (f : M pmm A) k (w : world) a t :
  f (k_frames k) = Done a t → in_kernel (in_vm (in_pmm f)) (k, w) = Done a (with_frames t k, w).
Proof. unfold k_frames, in_kernel, in_vm, in_pmm, zoom. simpl. by intros ->. Qed.

Lemma with_frames_heap t t' h h' k :
  with_heap h (with_frames t (with_heap h' (with_frames t' k))) = with_heap h (with_frames t k).
Proof. done. Qed.

Lemma owned_frames k w t : owned (k, w) → owned (with_frames t k, w).
Proof. intros H. by eapply owned_ext. Qed.

(** The physical pages of a list of blocks. *)
Definition pages (bs : list (Z * shadowfs_block_t)) : list Z := (λ b, virtual_to_physical (b_data b.2)) <$> bs.

(** A block's data lies on a page of the direct map. *)
Definition on_page (b : Z * shadowfs_block_t) : Prop :=
  page_ok (virtual_to_physical (b_data b.2)) ∧ b_data b.2 = physical_to_virtual (virtual_to_physical (b_data b.2)).

Fixpoint pmm_freed (l : list Z) (s : pmm) : pmm :=
  match l with [] => s | p :: l => pmm_freed l (add_used (-1) (bitmap_clear (p / PAGE_SIZE) s)) end.

Lemma pmm_freed_used l : ∀ s p,
  used (pmm_freed l s) p = negb (existsb (λ q, q / PAGE_SIZE =? p) l) && used s p.
Proof.
  induction l as [|q l IH]; intros s p; simpl; [done|]. rewrite IH, used_add_used, used_clear.
  rewrite negb_orb, (andb_comm (negb (q / PAGE_SIZE =? p))), <- andb_assoc. do 3 f_equal.
  destruct (Z.eqb_spec (q / PAGE_SIZE) p), (bool_decide_reflect (p = q / PAGE_SIZE)); congruence.
Qed.

Lemma pmm_freed_total l : ∀ s, total_pages (pmm_freed l s) = total_pages s.
Proof. induction l; intros s; simpl; [done|]. by rewrite IHl. Qed.

Lemma add_quota_add a b m : add_quota a (add_quota b m) = add_quota (b + a) m.
Proof. unfold add_quota. simpl. f_equal. word_lia. Qed.

Lemma add_quota_0 m : 0 <= m_used m < 2 ^ 32 → add_quota 0 m = m.
Proof. intros. destruct m. unfold add_quota. simpl in *. by rewrite Z.add_0_r, u32_small by lia. Qed.

Section Freeing.
Context (refund : M kw unit) (mount cost : Z).
Hypothesis refund_Done : ∀ k w m, objects w !! mount = Some (inj m) → 0 <= m_used m < 2 ^ 32 →
  refund (k, w) = Done tt (k, with_objects (λ o, <[mount := inj (add_quota cost m)]> o) w) ∨
  cost = 0 ∧ refund (k, w) = Done tt (k, w).

Lemma refund_run k w m : objects w !! mount = Some (inj m) → 0 <= m_used m < 2 ^ 32 → owned (k, w) →
  ∃ f, refund (k, w) = Done tt (k, with_objects f w) ∧ owned (k, with_objects f w) ∧
    f (objects w) !! mount = Some (inj (add_quota cost m)) ∧ ∀ q, q ≠ mount → f (objects w) !! q = objects w !! q.
Proof.
  intros Hm Hu Hown. destruct (refund_Done k w m Hm Hu) as [H|[-> H]].
  - eexists. split; [exact H|]. split; [by eapply owned_put|]. split; [by rewrite lookup_insert_eq|].
    intros q Hq. by rewrite lookup_insert_ne.
  - exists id. split; [by destruct w|]. split; [by destruct w|]. rewrite add_quota_0 by done. done.
Qed.

Lemma free_blocks_spec : ∀ bs n block k w m,
  owned (k, w) → objects w !! mount = Some (inj m) → 0 <= m_used m < 2 ^ 32 →
  chain b_next (objects w) block bs → (length bs < n)%nat → Forall on_page bs →
  ∃ h f, free_blocks refund n block (k, w) =
      Done tt (with_heap h (with_frames (pmm_freed (pages bs) (k_frames k)) k), with_objects f w) ∧
    owned (with_heap h (with_frames (pmm_freed (pages bs) (k_frames k)) k), with_objects f w) ∧
    f (objects w) !! mount = Some (inj (add_quota (cost * Z.of_nat (length bs)) m)) ∧
    (∀ q, q ∈ bs.*1 → f (objects w) !! q = None) ∧
    (∀ q, q ≠ mount → q ∉ bs.*1 → f (objects w) !! q = objects w !! q).
Proof.
  induction bs as [|[a b] bs IH]; intros [|n] block k w m Hown Hm Hu Hc Hn Hpg; simpl in Hn; try lia; cbn [free_blocks].
  - simpl in Hc. subst block. exists (k_heap k), id. cbn [pages fmap list_fmap pmm_freed].
    replace (with_heap (k_heap k) (with_frames (k_frames k) k)) with k by (by destruct k as [? [] ?]).
    replace (with_objects id w) with w by (by destruct w). rewrite Z.mul_0_r, add_quota_0 by done.
    split_and!; [done|done|done| |done]. intros q Hq. by apply not_elem_of_nil in Hq.
  - assert (Hnd := chain_NoDup _ _ _ _ Hc). simpl in Hnd. apply list.NoDup_cons in Hnd as [Ha Hnd].
    destruct Hc as (-> & Ha0 & Hb & Hc). apply list.Forall_cons in Hpg as [[Hpok _] Hpg]. simpl in Hpok.
    rewrite (proj2 (Z.eqb_neq _ _) Ha0), (bind_Done _ _ _ _ _ (fetch_Done _ _ _ _ Hb)).
    set (p := virtual_to_physical (b_data b)) in *.
    assert (Hfree : pmm_free p (k_frames k) = Done tt (add_used (-1) (bitmap_clear (p / PAGE_SIZE) (k_frames k)))).
    { unfold pmm_free. destruct Hpok as [? _]. by rewrite (proj2 (Z.eqb_neq p 0)) by lia. }
    rewrite (bind_Done _ _ _ _ _ (run_pmm _ k w _ _ Hfree)). set (k1 := with_frames _ k).
    destruct (refund_run k1 w m Hm Hu (owned_frames _ _ _ Hown)) as (f1 & Hr & Hown1 & Hm1 & Hq1).
    rewrite (bind_Done _ _ _ _ _ Hr). set (w1 := with_objects f1 w) in *.
    assert (Hb1 : objects w1 !! a = Some (inj b)) by (simpl; rewrite Hq1 by distinct; done).
    destruct (dispose_spec k1 w1 a b Hown1 Hb1) as (h & Hd & Hown2). rewrite (bind_Done _ _ _ _ _ Hd).
    set (w2 := with_objects (delete a) w1) in *.
    assert (Hma : a ≠ mount) by distinct.
    destruct (IH n (b_next b) (with_heap h k1) w2 (add_quota cost m)) as (h2 & f2 & Hrun & Hown3 & Hm3 & Hin & Hout).
    + done.
    + simpl. rewrite lookup_delete_ne by done. exact Hm1.
    + apply u32_range.
    + simpl. apply chain_delete_ne; [done|]. eapply chain_frame; [|exact Hc].
      intros c y Hcy Hy. rewrite Hq1; [done|distinct].
    + lia.
    + done.
    + exists h2, (λ o, f2 (delete a (f1 o))). split; [exact Hrun|]. split; [exact Hown3|].
      cbn [objects with_objects w2 w1] in *. split; [|split].
      * rewrite Hm3, add_quota_add. do 3 f_equal. simpl length. lia.
      * intros q [-> |Hq]%elem_of_cons; [|by apply Hin].
        rewrite Hout; [by rewrite lookup_delete_eq|done|done].
      * intros q Hqm [Hqa Hqb]%not_elem_of_cons. rewrite Hout by done.
        rewrite lookup_delete_ne by (simpl in *; congruence). by apply Hq1.
Qed.

End Freeing.

(** ** Deleting an entry *)

Definition prev_of (es1 : entries) : Z := default 0 (fst <$> list.last es1).

Lemma unlink_spec k w priv head count es1 es2 a e :
  objects w !! priv = Some (inj (SInode head count)) → chain e_next (objects w) head (es1 ++ (a, e) :: es2) →
  ∃ f head', (if negb (prev_of es1 =? 0) then change (prev_of es1) (set_e_next (e_next e))
              else change priv (set_head (e_next e))) (k, w) = Done tt (k, with_objects f w) ∧
    f (objects w) !! priv = Some (inj (SInode head' count)) ∧
    chain e_next (f (objects w)) head' (relink es1 (e_next e) ++ es2) ∧
    (∀ q, q ≠ priv → q ∉ es1.*1 → f (objects w) !! q = objects w !! q) ∧
    (owned (k, w) → owned (k, with_objects f w)).
Proof.
  intros Hpriv Hc. assert (Hp : priv ∉ (es1 ++ (a, e) :: es2).*1) by (apply (chain_not_in _ _ _ _ priv Hc); by rewrite Hpriv).
  assert (Hnd := chain_NoDup _ _ _ _ Hc).
  pose proof (chain_app _ _ _ _ _ _ _ Hc) as (_ & _ & _ & Hc2).
  destruct es1 as [|[b y] es1 _] using rev_ind.
  - unfold prev_of, relink. simpl. rewrite (change_Done _ _ (set_head (e_next e)) _ _ Hpriv).
    eexists _, (e_next e). split; [done|]. split; [by rewrite lookup_insert_eq|]. split; [|split].
    + apply chain_insert_ne; [|done]. simpl in Hp. set_solver.
    + intros q Hq _. by rewrite lookup_insert_ne.
    + intros Hown. by eapply owned_put.
  - unfold prev_of. rewrite last_snoc, relink_snoc. change (default 0 (fst <$> Some (b, y))) with b.
    destruct (chain_lookup _ _ _ _ b y Hc) as [Hb0 Hb].
    { apply elem_of_app. left. apply elem_of_app. right. by left. }
    rewrite (proj2 (Z.eqb_neq _ _) Hb0). cbn [negb]. rewrite (change_Done _ _ (set_e_next (e_next e)) _ _ Hb).
    eexists _, head. split; [done|]. rewrite <- (assoc_L (++)) in *. cbn [app] in *.
    split; [by rewrite lookup_insert_ne by distinct|]. split; [|split].
    + eapply chain_link; [exact Hc|]. apply chain_insert_ne; [|exact Hc2].
      rewrite fmap_app in Hnd. apply list.NoDup_app in Hnd as (_ & _ & Hnd). simpl in Hnd.
      apply list.NoDup_cons in Hnd as [Hnd _]. by intros ?; apply Hnd; right.
    + intros q Hq Hin. rewrite lookup_insert_ne; [done|]. intros <-. apply Hin. rewrite fmap_app. apply elem_of_app. right. by left.
    + intros Hown. by eapply owned_put.
Qed.

(** What hangs below an entry: the inode [x], its private data and, for a
    file, its blocks. *)
Record child_rep (s : kw) (ino : Z) (x : inode_t) (bs : list (Z * shadowfs_block_t)) : Prop := {
  ch_inode : objects s.2 !! ino = Some (inj x);
  ch_nonnull : ino ≠ 0 ∧ i_private x ≠ 0;
  ch_private : ∃ p, objects s.2 !! i_private x = Some (inj p) ∧
    (if i_type x =? VFS_TYPE_FILE then chain b_next (objects s.2) (s_head p) bs else bs = []);
  ch_pages : Forall on_page bs }.

(** The objects that go with an entry at [a]. *)
Definition doomed (a ino : Z) (x : inode_t) (bs : list (Z * shadowfs_block_t)) : list Z :=
  a :: ino :: i_private x :: bs.*1.

(** What a delete that went well has done. *)
Record removed_in (s s' : kw) (dir : Z) (d : inode_t) (mount : Z) (m : shadowfs_mount_t) (es es1 es2 : entries)
    (gone : list Z) (bs : list (Z * shadowfs_block_t)) : Prop := {
  rm_owned : owned s';
  rm_dir : ∃ es', dir_rep s' dir d es' ∧ listing es' = listing es1 ++ listing es2;
  rm_mounted : mounted s' d mount (add_quota (- ENTRY_COST) m);
  rm_gone q : q ∈ gone → objects s'.2 !! q = None;
  rm_pages : k_frames s'.1 = pmm_freed (pages bs) (k_frames s.1) ∧ mem (k_vm s'.1) = mem (k_vm s.1);
  rm_frame q : q ∉ gone → q ≠ mount → q ≠ i_private d → q ∉ es.*1 → objects s'.2 !! q = objects s.2 !! q }.

Lemma no_refund k w m (mount : Z) :
  objects w !! mount = Some (inj m) → 0 <= m_used m < 2 ^ 32 →
  (mret tt : M kw unit) (k, w) = Done tt (k, with_objects (λ o, <[mount := inj (add_quota 0 m)]> o) w) ∨
  0 = 0 ∧ (mret tt : M kw unit) (k, w) = Done tt (k, w).
Proof. intros _ _. by right. Qed.

(** The blocks of the entry's inode, when it is a file. *)
Lemma free_child_spec k w ino x bs mount m :
  owned (k, w) → child_rep (k, w) ino x bs → objects w !! mount = Some (inj m) → 0 <= m_used m < 2 ^ 32 →
  ∃ h f, (if i_type x =? VFS_TYPE_FILE then
            p ← fetch shadowfs_inode_t (i_private x); n ← steps; free_blocks (mret tt) n (s_head p)
          else mret tt) (k, w) =
      Done tt (with_heap h (with_frames (pmm_freed (pages bs) (k_frames k)) k), with_objects f w) ∧
    owned (with_heap h (with_frames (pmm_freed (pages bs) (k_frames k)) k), with_objects f w) ∧
    (∀ q, q ∈ bs.*1 → f (objects w) !! q = None) ∧
    (∀ q, q ∉ bs.*1 → f (objects w) !! q = objects w !! q).
Proof.
  intros Hown [Hx [Hi Hp0] (p & Hp & Hbs) Hpg] Hm Hu. simpl in Hp, Hbs.
  destruct (i_type x =? VFS_TYPE_FILE).
  - rewrite (bind_Done _ _ _ _ _ (fetch_Done _ _ _ _ Hp)), (bind_Done _ _ _ _ _ (steps_Done _ _)).
    pose proof (chain_size _ _ _ _ Hbs) as Hsz.
    destruct (free_blocks_spec (mret tt) mount 0 (λ k w m, no_refund k w m mount) bs (S (size (objects w)))
      (s_head p) k w m Hown Hm Hu Hbs ltac:(lia) Hpg) as (h & f & Hrun & Hown' & Hm' & Hin & Hout).
    exists h, f. split; [exact Hrun|]. split; [exact Hown'|]. split; [done|].
    intros q Hq. destruct (decide (q = mount)) as [-> |Hne]; [|by apply Hout].
    by rewrite Hm', Hm, Z.mul_0_l, add_quota_0.
  - subst bs. exists (k_heap k), id. cbn [pages fmap list_fmap pmm_freed].
    replace (with_heap (k_heap k) (with_frames (k_frames k) k)) with k by (by destruct k as [? [] ?]).
    replace (with_objects id w) with w by (by destruct w). split_and!; [done|done| |done].
    intros q Hq. by apply not_elem_of_nil in Hq.
Qed.

(** Blocks hold blocks: an address of another structure is none of them. *)
Lemma child_not_block s ino x bs q : child_rep s ino x bs →
  (objects s.2 !! q) ≫= prj (A := shadowfs_block_t) = None → q ∉ bs.*1.
Proof.
  intros [_ _ (p & _ & Hbs) _] Hq. destruct (i_type x =? VFS_TYPE_FILE).
  - by apply (chain_not_in _ _ _ _ q Hbs).
  - subst bs. apply not_elem_of_nil.
Qed.

Lemma child_rep_frame s s' ino x bs : child_rep s ino x bs →
  (∀ q, q = ino ∨ q = i_private x ∨ q ∈ bs.*1 → objects s'.2 !! q = objects s.2 !! q) → child_rep s' ino x bs.
Proof.
  intros [Hx Hn (p & Hp & Hbs) Hpg] Hq. split; [rewrite Hq; auto|done| |done].
  exists p. split; [rewrite Hq; auto|]. destruct (i_type x =? VFS_TYPE_FILE); [|done].
  eapply chain_frame; [|exact Hbs]. intros b y Hby Hb. rewrite Hq; [done|]. right. right.
  apply list_elem_of_fmap. by exists (b, y).
Qed.

Lemma free_entry_spec k w mount m a (e : shadowfs_dentry_t) ino x bs :
  owned (k, w) → objects w !! mount = Some (inj m) → 0 <= m_used m < 2 ^ 32 →
  child_rep (k, w) ino x bs → objects w !! a = Some (inj e) →
  ∃ s', free_entry mount a ino x (k, w) = Done tt s' ∧ owned s' ∧ mount_table s'.2 = mount_table w ∧
    objects s'.2 !! mount = Some (inj (add_quota (- ENTRY_COST) m)) ∧
    (∀ q, q ∈ doomed a ino x bs → objects s'.2 !! q = None) ∧
    (∀ q, q ∉ doomed a ino x bs → q ≠ mount → objects s'.2 !! q = objects w !! q) ∧
    k_frames s'.1 = pmm_freed (pages bs) (k_frames k) ∧ mem (k_vm s'.1) = mem (k_vm k).
Proof.
  intros Hown Hm Hu Hch Ha. pose proof Hch as [Hx [Hi0 Hx0] (pc & Hpc & _) _]. simpl in Hx, Hpc.
  assert (Hbn : ∀ q, (objects w !! q) ≫= prj (A := shadowfs_block_t) = None → q ∉ bs.*1)
    by (intros q; apply (child_not_block _ _ _ _ q Hch)).
  unfold free_entry.
  destruct (free_child_spec k w _ x bs mount m Hown Hch Hm Hu) as (h3 & f3 & Hrun & Hown3 & Hg3 & Hk3).
  rewrite (bind_Done _ _ _ _ _ Hrun). clear Hrun. set (w3 := with_objects f3 w) in *. set (k3 := with_heap h3 _) in *.
  assert (Hpc3 : objects w3 !! i_private x = Some (inj pc)) by (simpl; rewrite Hk3; [done|apply Hbn; by rewrite Hpc]).
  destruct (dispose_spec k3 w3 _ pc Hown3 Hpc3) as (h4 & Hrun & Hown4). rewrite (bind_Done _ _ _ _ _ Hrun). clear Hrun.
  set (w4 := with_objects _ w3) in *. set (k4 := with_heap h4 _) in *.
  assert (Hx4 : objects w4 !! ino = Some (inj x)).
  { simpl. rewrite lookup_delete_ne by distinct. rewrite Hk3; [done|apply Hbn; by rewrite Hx]. }
  destruct (dispose_spec k4 w4 _ x Hown4 Hx4) as (h5 & Hrun & Hown5). rewrite (bind_Done _ _ _ _ _ Hrun). clear Hrun.
  set (w5 := with_objects _ w4) in *. set (k5 := with_heap h5 _) in *.
  assert (Hm5 : objects w5 !! mount = Some (inj m)).
  { simpl. rewrite !lookup_delete_ne by distinct. rewrite Hk3; [done|apply Hbn; by rewrite Hm]. }
  rewrite (bind_Done _ _ _ _ _ (change_Done _ _ (add_quota (- ENTRY_COST)) k5 w5 Hm5)).
  pose proof (owned_put _ (add_quota (- ENTRY_COST) m) _ _ _ Hown5 Hm5) as Hown6. set (w6 := with_objects _ w5) in *.
  assert (Ha6 : objects w6 !! a = Some (inj e)).
  { cbn [objects with_objects w6 w5 w4 w3]. rewrite lookup_insert_ne, !lookup_delete_ne by distinct.
    rewrite Hk3; [done|apply Hbn; by rewrite Ha]. }
  destruct (dispose_spec k5 w6 _ e Hown6 Ha6) as (h7 & Hrun & Hown7). rewrite Hrun. clear Hrun.
  eexists. split; [done|]. split; [exact Hown7|]. split; [done|]. cbn [snd fst objects with_objects w6 w5 w4 w3].
  split; [|split; [|split; [|done]]].
  - rewrite lookup_delete_ne by distinct. by rewrite lookup_insert_eq.
  - unfold doomed. intros q Hq.
    apply elem_of_cons in Hq as [-> |Hq]; [by rewrite lookup_delete_eq|]. rewrite lookup_delete_None. right.
    assert (q ≠ mount).
    { intros ->. repeat (apply elem_of_cons in Hq as [Hq|Hq]; [by revert Hq; distinct|]). revert Hq. apply Hbn. by rewrite Hm. }
    rewrite lookup_insert_ne by done. apply elem_of_cons in Hq as [-> |Hq]; [by rewrite lookup_delete_eq|].
    rewrite lookup_delete_None. right. apply elem_of_cons in Hq as [-> |Hq]; [by rewrite lookup_delete_eq|].
    rewrite lookup_delete_None. right. by apply Hg3.
  - unfold doomed. intros q Hq Hqm. rewrite !not_elem_of_cons in Hq. destruct Hq as (H1 & H2 & H3 & H4).
    rewrite lookup_delete_ne, lookup_insert_ne, !lookup_delete_ne by congruence. by apply Hk3.
Qed.

(** The directory without the entry at [a], when its private data and its
    other entries are as after the unlinking. *)
Lemma unlinked_rep s dir d es1 a e es2 head :
  let es := es1 ++ (a, e) :: es2 in
  objects s.2 !! dir = Some (inj d) → i_private d ≠ 0 →
  objects s.2 !! i_private d = Some (inj (SInode head (u32 (Z.of_nat (length es) - 1)))) →
  chain e_next (objects s.2) head (relink es1 (e_next e) ++ es2) →
  Z.of_nat (length es) < 2 ^ 32 - 1 → NoDup ((λ e, e_name e.2) <$> es) →
  ∃ es', dir_rep s dir d es' ∧ listing es' = listing es1 ++ listing es2.
Proof.
  intros es Hd Hp Hpriv Hc Hl Hn. exists (relink es1 (e_next e) ++ es2).
  destruct (relink_listing es1 (e_next e)) as (R1 & R2 & R3).
  assert (HL : listing (relink es1 (e_next e) ++ es2) = listing es1 ++ listing es2).
  { unfold listing at 1. rewrite fmap_app. fold (listing (relink es1 (e_next e))). by rewrite R1. }
  assert (Hlen : length es = S (length (relink es1 (e_next e) ++ es2))).
  { unfold es. rewrite !length_app, R3. simpl. lia. }
  split; [|exact HL]. split; [done|done| |lia|].
  - exists head. split; [|done]. rewrite Hpriv, Hlen, u32_small by lia. do 3 f_equal. lia.
  - rewrite listing_names, HL. rewrite listing_names in Hn. unfold es, listing in Hn |- *.
    rewrite !fmap_app in *. simpl in Hn. eapply sublist_NoDup; [exact Hn|].
    apply sublist_app; [done|]. by apply sublist_cons.
Qed.

Lemma remove_entry_spec k w dir d mount m es1 es2 a e x bs :
  let es := es1 ++ (a, e) :: es2 in
  owned (k, w) → dir_rep (k, w) dir d es → mounted (k, w) d mount m → 0 <= m_used m < 2 ^ 32 →
  child_rep (k, w) (e_inode e) x bs → e_inode e ≠ dir → i_private x ≠ i_private d →
  ∃ s', remove_entry (i_private d) mount (prev_of es1) a e (k, w) = Done tt s' ∧
    removed_in (k, w) s' dir d mount m es es1 es2 (doomed a (e_inode e) x bs) bs.
Proof.
  intros es Hown Hdir Hm Hu Hch Hid Hpd.
  pose proof Hdir as [Hd Hp (head & Hpriv & Hc) Hl Hn]. simpl in Hd, Hpriv, Hc.
  pose proof Hm as (i & sb & Hsb & Hi & Hsp & Hm0 & Hmo). simpl in Hi, Hmo.
  pose proof Hch as [Hx _ (pc & Hpc & _) _]. simpl in Hx, Hpc.
  assert (Hin' : (a, e) ∈ es) by (apply elem_of_app; right; by left).
  destruct (chain_lookup _ _ _ _ a e Hc Hin') as [Ha0 Ha]. assert (Hnd := chain_NoDup _ _ _ _ Hc).
  assert (Hout : ∀ q, (objects w !! q) ≫= prj (A := shadowfs_dentry_t) = None → q ∉ es.*1) by (intros q; apply (chain_not_in _ _ _ _ q Hc)).
  assert (Hbn : ∀ q, (objects w !! q) ≫= prj (A := shadowfs_block_t) = None → q ∉ bs.*1)
    by (intros q; apply (child_not_block _ _ _ _ q Hch)).
  assert (Hes : es.*1 = es1.*1 ++ a :: es2.*1) by (unfold es; by rewrite fmap_app).
  assert (Ha12 : (a ∉ es1.*1) ∧ (a ∉ es2.*1)).
  { rewrite Hes in Hnd. apply list.NoDup_app in Hnd as (_ & N1 & [N2 _]%list.NoDup_cons).
    split; [|done]. intros Ha1. apply (N1 a Ha1). by left. }
  assert (Hsub : ∀ q, q ∉ es.*1 → q ∉ es1.*1) by (intros q; rewrite Hes; set_solver).
  unfold remove_entry.
  destruct (unlink_spec k w (i_private d) head _ es1 es2 a e Hpriv Hc) as (f1 & head' & Hrun & Hp1 & Hc1 & Hq1 & Hown1).
  rewrite (bind_Done _ _ _ _ _ Hrun). clear Hrun. specialize (Hown1 Hown). set (w1 := with_objects f1 w) in *.
  rewrite (bind_Done _ _ _ _ _ (change_Done _ _ (add_count (-1)) k w1 Hp1)).
  pose proof (owned_put _ (add_count (-1) (SInode head' (Z.of_nat (length es)))) _ _ _ Hown1 Hp1) as Hown2.
  set (w2 := with_objects _ w1) in *.
  assert (Hk2 : ∀ q, q ≠ i_private d → q ∉ es1.*1 → objects w2 !! q = objects w !! q).
  { intros q H1 H2. cbn [objects with_objects w2]. rewrite lookup_insert_ne by congruence. by apply Hq1. }
  assert (Hblock : ∀ q, q ∈ bs.*1 → (q ∉ es.*1) ∧ (q ≠ i_private d)).
  { intros q Hq. split; [|intros ->; revert Hq; apply Hbn; by rewrite Hpriv].
    intros ([q' y] & -> & Hy)%list_elem_of_fmap. revert Hq. apply Hbn. simpl.
    apply (chain_lookup _ _ _ _ _ _ Hc) in Hy as [_ ->]. done. }
  assert (Hch2 : child_rep (k, w2) (e_inode e) x bs).
  { eapply child_rep_frame; [exact Hch|]. intros q [-> |[-> |[Hq1' Hq2']%Hblock]]; (apply Hk2; [try distinct|apply Hsub]); try done.
    - apply Hout. by rewrite Hx.
    - apply Hout. by rewrite Hpc. }
  rewrite (bind_Done _ _ _ _ _ (fetch_Done _ _ k w2 (ch_inode _ _ _ _ Hch2))).
  assert (Hm2 : objects w2 !! mount = Some (inj m)) by (rewrite Hk2; [done|distinct|apply Hsub, Hout; by rewrite Hmo]).
  assert (Ha2 : objects w2 !! a = Some (inj e)) by (rewrite Hk2; [done|distinct|apply Ha12]).
  destruct (free_entry_spec k w2 mount m a e _ x bs Hown2 Hm2 Hu Hch2 Ha2)
    as (s' & Hrun & Hown' & Hmt & Hm' & Hgone & Hkeep & Hfr & Hmem). exists s'. split; [exact Hrun|]. clear Hrun.
  assert (Hndoom : ∀ q, (objects w !! q) ≫= prj (A := shadowfs_block_t) = None → q ≠ a → q ≠ e_inode e →
    q ≠ i_private x → q ∉ doomed a (e_inode e) x bs).
  { unfold doomed. intros q H1 H2 H3 H4. rewrite !not_elem_of_cons. split_and!; [done..|]. by apply Hbn. }
  split; [done| |exists i, sb; split_and!; [done|by rewrite Hmt|done|done|done]|done|done|].
  - apply (unlinked_rep _ _ _ es1 a e es2 head'); [|done| | |done|done].
    + rewrite Hkeep, Hk2; [done|distinct|apply Hsub, Hout; by rewrite Hd| |distinct].
      apply Hndoom; [by rewrite Hd|distinct|congruence|distinct].
    + rewrite Hkeep; [by cbn [objects with_objects w2]; rewrite lookup_insert_eq| |distinct].
      apply Hndoom; [by rewrite Hpriv|distinct|distinct|congruence].
    + destruct (relink_listing es1 (e_next e)) as (_ & R2 & _).
      assert (Hc2 : chain e_next (objects w2) head' (relink es1 (e_next e) ++ es2)).
      { apply chain_insert_ne; [|exact Hc1]. rewrite fmap_app, R2. intros Hb.
        assert (i_private d ∉ es.*1) as [] by (apply Hout; by rewrite Hpriv). rewrite Hes. set_solver. }
      eapply chain_frame; [|exact Hc2]. intros b y Hby Hy. assert (b ∈ es1.*1 ++ es2.*1) as Hb.
      { rewrite <- R2, <- fmap_app. apply list_elem_of_fmap. by exists (b, y). }
      assert (∃ y0 : shadowfs_dentry_t, objects w !! b = Some (inj y0)) as [y0 Hy0].
      { assert (b ∈ es.*1) as ([b' y0] & -> & Hin)%list_elem_of_fmap by (rewrite Hes; set_solver).
        exists y0. by eapply chain_lookup. }
      rewrite Hkeep; [done| |distinct]. apply Hndoom; [by rewrite Hy0| |distinct|distinct].
      intros ->. apply elem_of_app in Hb. naive_solver.
  - cbn [snd]. intros q H1 H2 H3 H4. rewrite Hkeep, Hk2; [done|done|by apply Hsub|done|done].
Qed.

Lemma delete_loop_missing k w priv mount name : ∀ es n previous entry,
  chain e_next (objects w) entry es → (length es < n)%nat → name ∉ (λ e, e_name e.2) <$> es →
  delete_loop n priv mount previous entry name (k, w) = Done (-1) (k, w).
Proof.
  induction es as [|[a e] es IH]; intros [|n] previous entry Hc Hn Hname; simpl in Hn; try lia; cbn [delete_loop].
  - simpl in Hc. by subst.
  - destruct Hc as (-> & Ha & He & Hc). apply not_elem_of_cons in Hname as [Hne Hname].
    rewrite (proj2 (Z.eqb_neq _ _) Ha), (bind_Done _ _ _ _ _ (fetch_Done _ _ _ _ He)).
    rewrite bool_decide_false by (simpl in Hne; congruence). apply IH; [done|lia|done].
Qed.

Lemma delete_loop_found k w priv mount a e l2 : ∀ l1 es1 n entry,
  chain e_next (objects w) entry (l1 ++ (a, e) :: l2) → (length l1 < n)%nat →
  e_name e ∉ (λ e, e_name e.2) <$> l1 →
  delete_loop n priv mount (prev_of es1) entry (e_name e) (k, w) =
  (remove_entry priv mount (prev_of (es1 ++ l1)) a e ;; mret 0) (k, w).
Proof.
  induction l1 as [|[b y] l1 IH]; intros es1 [|n] entry Hc Hn Hname; simpl in Hn; try lia; cbn [delete_loop].
  - destruct Hc as (-> & Ha & He & Hc). rewrite (proj2 (Z.eqb_neq _ _) Ha), (bind_Done _ _ _ _ _ (fetch_Done _ _ _ _ He)).
    rewrite bool_decide_true by done. by rewrite app_nil_r.
  - destruct Hc as (-> & Hb & Hy & Hc). apply not_elem_of_cons in Hname as [Hne Hname].
    rewrite (proj2 (Z.eqb_neq _ _) Hb), (bind_Done _ _ _ _ _ (fetch_Done _ _ _ _ Hy)).
    rewrite bool_decide_false by (simpl in Hne; congruence).
    rewrite (cons_middle (b, y) es1), (assoc_L (++)) . rewrite <- (IH (es1 ++ [(b, y)]) n (e_next y)); [|done|lia|done].
    unfold prev_of. by rewrite last_snoc.
Qed.

Lemma delete_spec k w dir d mount m es1 es2 a e x bs :
  let es := es1 ++ (a, e) :: es2 in
  owned (k, w) → dir_rep (k, w) dir d es → dir ≠ 0 → mounted (k, w) d mount m → 0 <= m_used m < 2 ^ 32 →
  child_rep (k, w) (e_inode e) x bs → e_inode e ≠ dir → i_private x ≠ i_private d →
  ∃ s', shadowfs_delete dir (e_name e) (k, w) = Done 0 s' ∧
    removed_in (k, w) s' dir d mount m es es1 es2 (doomed a (e_inode e) x bs) bs.
Proof.
  intros es Hown Hdir Hd0 Hm Hu Hch Hid Hpd.
  destruct (remove_entry_spec k w dir d mount m es1 es2 a e x bs Hown Hdir Hm Hu Hch Hid Hpd) as (s' & Hrun & Hrm).
  exists s'. split; [|exact Hrm]. destruct Hdir as [Hd Hp (head & Hpriv & Hc) Hl Hn]. fold es in Hc.
  unfold shadowfs_delete. rewrite (proj2 (Z.eqb_neq _ _) Hd0), (bind_Done _ _ _ _ _ (fetch_Done _ _ _ _ Hd)).
  rewrite (proj2 (Z.eqb_neq _ _) Hp), (bind_Done _ _ _ _ _ (mount_data_Done _ _ _ _ _ Hm)).
  assert (mount ≠ 0) as Hm0 by (destruct Hm as (? & ? & _ & _ & _ & ? & _); done).
  rewrite (proj2 (Z.eqb_neq _ _) Hm0), (bind_Done _ _ _ _ _ (fetch_Done _ _ _ _ Hpriv)), (bind_Done _ _ _ _ _ (steps_Done _ _)).
  pose proof (chain_size _ _ _ _ Hc) as Hsz. unfold es in Hsz, Hc, Hn. rewrite length_app in Hsz. simpl in Hsz, Hc.
  change 0 with (prev_of []) at 1. cbn [s_head]. rewrite (delete_loop_found k w _ mount a e es2 es1 [] _ head Hc).
  - simpl. by rewrite (bind_Done _ _ _ _ _ Hrun).
  - simpl. lia.
  - rewrite fmap_app in Hn. apply list.NoDup_app in Hn as (_ & Hn & _). intros H. apply (Hn _ H). simpl. by left.
Qed.

Lemma delete_missing k w dir d mount m es name :
  dir_rep (k, w) dir d es → dir ≠ 0 → mounted (k, w) d mount m → name ∉ (listing es).*1 →
  shadowfs_delete dir name (k, w) = Done (-1) (k, w).
Proof.
  intros [Hd Hp (head & Hpriv & Hc) Hl Hn] Hd0 Hm Hname. rewrite <- listing_names in Hname.
  unfold shadowfs_delete. rewrite (proj2 (Z.eqb_neq _ _) Hd0), (bind_Done _ _ _ _ _ (fetch_Done _ _ _ _ Hd)).
  rewrite (proj2 (Z.eqb_neq _ _) Hp), (bind_Done _ _ _ _ _ (mount_data_Done _ _ _ _ _ Hm)).
  assert (mount ≠ 0) as Hm0 by (destruct Hm as (? & ? & _ & _ & _ & ? & _); done).
  rewrite (proj2 (Z.eqb_neq _ _) Hm0), (bind_Done _ _ _ _ _ (fetch_Done _ _ _ _ Hpriv)), (bind_Done _ _ _ _ _ (steps_Done _ _)).
  pose proof (chain_size _ _ _ _ Hc) as Hsz. eapply delete_loop_missing; [exact Hc|simpl in *; lia|done].
Qed.

Lemma create_refused k w dir d mount m es name type :
  dir_rep (k, w) dir d es → mounted (k, w) d mount m → quota m <= m_used m ∨ name ∈ (listing es).*1 →
  shadowfs_create dir name type (k, w) = Done 0 (k, w).
Proof.
  intros [Hd Hp (head & Hpriv & Hc) Hl Hn] Hm Hno. pose proof Hm as (i & sb & _ & _ & _ & _ & Hmo).
  unfold shadowfs_create. rewrite (bind_Done _ _ _ _ _ (fetch_Done _ _ _ _ Hd)).
  rewrite (bind_Done _ _ _ _ _ (mount_data_Done _ _ _ _ _ Hm)), (bind_Done _ _ _ _ _ (fetch_Done _ _ _ _ Hmo)).
  destruct (Z.leb_spec (quota m) (m_used m)); [done|]. destruct Hno as [|Hno]; [lia|].
  rewrite (proj2 (Z.eqb_neq _ _) Hp), (bind_Done _ _ _ _ _ (fetch_Done _ _ _ _ Hpriv)), (bind_Done _ _ _ _ _ (steps_Done _ _)).
  rewrite (bind_Done _ _ _ _ _ (find_entry_steps _ _ _ _ _ Hc)). rewrite <- listing_names in Hno.
  destruct (List.find (called name) es) as [[a e]|] eqn:Hf; [|by apply find_called_None in Hf].
  apply find_called in Hf as [Hin _]. destruct (chain_lookup _ _ _ _ _ _ Hc Hin) as [Ha _].
  change (default 0 (fst <$> Some (a, e))) with a. by rewrite (proj2 (Z.eqb_neq _ _) Ha).
Qed.

End Directories.

(** C31. refinement: a shadowFS directory is a list of names with their
    inodes, no name twice. On the linked entries in memory, lookup finds the
    inode under the name, or null; create of a new name, while the quota is
    not used up, adds the name at the end with a fresh empty inode of the type
    asked for, charges 144 bytes, and changes no object outside the directory
    (or panics, when the kernel heap is full); create of a name that is there,
    or over quota, changes nothing; delete of a name takes it out of the
    list, frees its inode, its private data, its entry and, for a file, every
    block and page, refunds 144 bytes - not the 24 that writing charged for
    each block, which stay charged - and changes nothing else; delete of a
    name that is not there changes nothing; readdir gives the entry at the
    file's position and advances it, or 0 at the end. The number of entries is
    in the private data of the directory; the size of its inode stays as it is. *)
Theorem directory_exact `{C : Clock} k w dir d mount m es :
  owned (k, w) → dir_rep (k, w) dir d es → dir ≠ 0 → mounted (k, w) d mount m → 0 <= m_used m < 2 ^ 32 →
  (∀ name, shadowfs_lookup dir name (k, w) = Done (assoc name (listing es)) (k, w)) ∧
  (∀ name type, quota m <= m_used m ∨ name ∈ (listing es).*1 →
     shadowfs_create dir name type (k, w) = Done 0 (k, w)) ∧
  (∀ name type, m_used m < quota m → name ∉ (listing es).*1 → Z.of_nat (length name) < VFS_MAX_NAME →
     type = VFS_TYPE_FILE ∨ type = VFS_TYPE_DIR → Z.of_nat (length es) < 2 ^ 32 - 2 →
     shadowfs_create dir name type (k, w) = Panic out_of_memory ∨
     ∃ ino s', shadowfs_create dir name type (k, w) = Done ino s' ∧
       created_in (k, w) s' dir d mount m es name type ino) ∧
  (∀ es1 a e es2 x bs, es = es1 ++ (a, e) :: es2 → child_rep (k, w) (e_inode e) x bs →
     e_inode e ≠ dir → i_private x ≠ i_private d →
     ∃ s', shadowfs_delete dir (e_name e) (k, w) = Done 0 s' ∧
       removed_in (k, w) s' dir d mount m es es1 es2 (doomed a (e_inode e) x bs) bs) ∧
  (∀ name, name ∉ (listing es).*1 → shadowfs_delete dir name (k, w) = Done (-1) (k, w)) ∧
  (∀ file f dentry, objects w !! file = Some (inj f) → file ≠ 0 → f_inode f = dir → 0 <= position f < 2 ^ 32 →
     Forall (λ e, ∃ x : inode_t, objects w !! e_inode e.2 = Some (inj x)) es →
     match es !! Z.to_nat (position f) with
     | Some (_, e) => ∃ x : inode_t, objects w !! e_inode e = Some (inj x) ∧
         shadowfs_readdir file (Some dentry) (k, w) =
         Done (1, Some (Dentry (kstrcpy_val (e_name e) VFS_MAX_NAME) (e_inode e) (i_type x)))
           (k, with_objects <[file := inj (set_position (u32 (position f + 1)) f)]> w)
     | None => shadowfs_readdir file (Some dentry) (k, w) = Done (0, Some dentry) (k, w)
     end).
Proof.
  intros Hown Hdir Hd0 Hm Hu. split_and!.
  - intros name. by eapply lookup_spec.
  - intros name type. by eapply create_refused.
  - intros name type. by apply create_spec.
  - intros es1 a e es2 x bs ->. by apply delete_spec.
  - intros name. by eapply delete_missing.
  - intros file f dentry. by eapply readdir_spec.
Qed.

(** A mount of shadowFS with an empty root directory. *)
Definition demo_clock : Clock := λ _, demo_time.

Definition demo_pages : kernel :=
  Kernel (Sched ∅ (replicate 16 0) 0 1 0 0 0 0 []) (Vm ∅ (Pmm {[ 0 := 1 ]} 64 1) 0 0) fresh_heap.

Definition demo_mount : Z := HEAP_START + HEADER_SIZE.
Definition demo_mount_data : shadowfs_mount_t := SMount 1000 0 2 0.
Definition demo_mount_start : kw := state_of (new (SMount 1000 0 1 0) (demo_pages, demo_start)).
Definition demo_superblocks (w : world) : world :=
  with_mounts <[0%nat := Superblock (cs "/temp") 0 (Some shadowfs_ops) demo_mount 0]> 1 w.
Definition demo_unrooted : kw := (demo_mount_start.1, demo_superblocks demo_mount_start.2).
Definition demo_rooted_fs : kw := state_of (shadowfs_create_inode (C := demo_clock) (Some 0%nat) VFS_TYPE_DIR demo_unrooted).

Definition demo_root_at : Z := demo_mount + 24 + HEADER_SIZE.
Definition demo_root_dir : inode_t :=
  new_inode 1 VFS_TYPE_DIR (rtc_now_epoch demo_time) (Some 0%nat) (demo_root_at + 64 + HEADER_SIZE).

Lemma framed_owned {A} (m : M kw A) s a s' : framed m → m s = Done a s' → owned s → owned s'.
Proof. intros Hf Hm. by destruct (Hf _ _ _ Hm). Qed.

Lemma demo_rooted_owned : owned demo_rooted_fs.
Proof.
  apply (framed_owned (shadowfs_create_inode (C := demo_clock) (Some 0%nat) VFS_TYPE_DIR) demo_unrooted demo_root_at);
    [apply framed_create_inode|vm_compute; reflexivity|].
  apply (owned_ext demo_mount_start); [|reflexivity|reflexivity].
  apply (framed_owned (new (SMount 1000 0 1 0)) (demo_pages, demo_start) demo_mount);
    [apply framed_new|vm_compute; reflexivity|].
  apply (owned_ext (demo_kernel, demo_start)); [apply demo_owned|reflexivity|reflexivity].
Qed.

Lemma demo_root_rep : dir_rep demo_rooted_fs demo_root_at demo_root_dir [].
Proof.
  split; [vm_compute; reflexivity|vm_compute; discriminate| |by_compute|constructor].
  exists 0. split; [vm_compute; reflexivity|done].
Qed.

Lemma demo_root_mounted : mounted demo_rooted_fs demo_root_dir demo_mount demo_mount_data.
Proof.
  exists 0%nat, (Superblock (cs "/temp") 0 (Some shadowfs_ops) demo_mount 0).
  split_and!; [reflexivity|vm_compute; reflexivity|reflexivity|vm_compute; discriminate|vm_compute; reflexivity].
Qed.

Lemma directory_exact_witness :
  ∃ ino s' es, shadowfs_create (C := demo_clock) demo_root_at (cs "a") VFS_TYPE_FILE demo_rooted_fs = Done ino s' ∧
    dir_rep s' demo_root_at demo_root_dir es ∧ listing es = [(cs "a", ino)].
Proof.
  pose proof (directory_exact (C := demo_clock) demo_rooted_fs.1 demo_rooted_fs.2 demo_root_at demo_root_dir demo_mount
    demo_mount_data []) as H.
  rewrite <- (surjective_pairing demo_rooted_fs) in H. destruct H as (_ & _ & Hcreate & _).
  - exact demo_rooted_owned.
  - exact demo_root_rep.
  - vm_compute. discriminate.
  - exact demo_root_mounted.
  - by_compute.
  - destruct (Hcreate (cs "a") VFS_TYPE_FILE) as [Hp|(ino & s' & Hrun & Hin)].
    + by_compute.
    + apply not_elem_of_nil.
    + by_compute.
    + by left.
    + by_compute.
    + vm_compute in Hp. discriminate Hp.
    + destruct (cr_dir _ _ _ _ _ _ _ _ _ _ Hin) as (es & Hes & Hl). exists ino, s', es. split; [exact Hrun|]. split; done.
Defined.
