(* ===== verification/ShadowfsFiles.v ===== *)
(** The contents of shadowFS files: that the block chains of Shadowfs hold a
    sequence of bytes, which read, write and truncate treat as one.

    The blocks are heap objects, their bytes pages of physical memory; every
    block but the last is full. *)

From S2P Require Import Prelude CString Rtc Pmm Heap Phys Paging Space Sched Process Objects Vfs Shadowfs.

Abbreviation blocks := (list (Z * shadowfs_block_t)).

(** The bytes of a block. *)
Definition block_content (m : phys) (b : shadowfs_block_t) : list Z :=
  rd_bytes (Z.to_nat (b_used b)) m (virtual_to_physical (b_data b)).

Fixpoint content (m : phys) (bs : blocks) : list Z :=
  match bs with [] => [] | (_, b) :: bs => block_content m b ++ content m bs end.

(** Every block but the last is full, none is empty. *)
Fixpoint filled (bs : blocks) : Prop :=
  match bs with
  | [] => True
  | [(_, b)] => 0 < b_used b <= SHADOWFS_BLOCK_SIZE
  | (_, b) :: bs => b_used b = SHADOWFS_BLOCK_SIZE ∧ filled bs
  end.

(** The private data at [priv] leads to the blocks [bs], on pages of their
    own that the allocator has handed out. *)
Record blocks_rep (s : kw) (priv : Z) (bs : blocks) : Prop := {
  br_chain : ∃ head, objects s.2 !! priv = Some (inj (SInode head (Z.of_nat (length bs)))) ∧
    chain b_next (objects s.2) head bs;
  br_pages : Forall on_page bs;
  br_nodup : NoDup (pages bs);
  br_used p : p ∈ pages bs → used (k_frames s.1) (p / 4096) = true;
  br_filled : filled bs }.

(** The inode [x] at [ino] is a file with the bytes [c]. *)
Record file_rep (s : kw) (ino : Z) (x : inode_t) (bs : blocks) (c : list Z) : Prop := {
  fr_inode : objects s.2 !! ino = Some (inj x);
  fr_nonnull : ino ≠ 0 ∧ i_private x ≠ 0;
  fr_type : i_type x = VFS_TYPE_FILE;
  fr_blocks : blocks_rep s (i_private x) bs;
  fr_content : content (mem (k_vm s.1)) bs = c;
  fr_size : i_size x = Z.of_nat (length c) }.

Lemma length_block_content m b : length (block_content m b) = Z.to_nat (b_used b).
Proof. apply length_rd_bytes. Qed.

Lemma filled_cons a b bs : filled ((a, b) :: bs) →
  0 < b_used b <= SHADOWFS_BLOCK_SIZE ∧ filled bs ∧ (bs ≠ [] → b_used b = SHADOWFS_BLOCK_SIZE).
Proof.
  unfold SHADOWFS_BLOCK_SIZE. destruct bs as [|[a' b'] bs]; simpl.
  - done.
  - unfold SHADOWFS_BLOCK_SIZE. intros [-> H]. split; [lia|done].
Qed.

Lemma content_app m bs1 bs2 : content m (bs1 ++ bs2) = content m bs1 ++ content m bs2.
Proof. induction bs1 as [|[a b] bs1 IH]; simpl; [done|]. by rewrite IH, (assoc_L (++)). Qed.

(** * read *)

Lemma block_bytes_Done k w data off n :
  page_ok (virtual_to_physical data) → data = physical_to_virtual (virtual_to_physical data) →
  0 <= off → 0 <= n → off + n <= 4096 →
  block_bytes (data + off) n (k, w) = Done (rd_bytes (Z.to_nat n) (mem (k_vm k)) (virtual_to_physical data + off)) (k, w).
Proof.
  intros Hok Hd Ho Hn Hle. set (p := virtual_to_physical data) in *.
  unfold block_bytes, in_kernel, in_vm, zoom. run. simpl. f_equal.
  - unfold rd_bytes. rewrite Z2Nat.id by done. apply list_fmap_ext. intros i j Hj.
    apply lookup_seqZ in Hj as [-> Hj]. f_equal. rewrite Hd, <- Z.add_assoc, virtual_byte by (done || lia). lia.
  - by destruct k as [? [] ?].
Qed.

(** A part of the bytes of a page. *)
Lemma rd_bytes_part (n i j : nat) m a : (i + j <= n)%nat →
  rd_bytes j m (a + Z.of_nat i) = take j (drop i (rd_bytes n m a)).
Proof.
  intros H. apply list_eq. intros q. rewrite lookup_take, lookup_drop. case_decide as Hq.
  - rewrite !rd_bytes_lookup by lia. do 2 f_equal. lia.
  - apply lookup_ge_None. rewrite length_rd_bytes. lia.
Qed.

Lemma take_drop_app_l {A} (n i : nat) (l1 l2 : list A) :
  (i + n <= length l1)%nat → take n (drop i (l1 ++ l2)) = take n (drop i l1).
Proof. intros H. rewrite drop_app_le by lia. rewrite take_app_le; [done|]. rewrite length_drop. lia. Qed.

Lemma take_drop_app_r {A} (n i : nat) (l1 l2 : list A) :
  (i <= length l1 <= i + n)%nat →
  take n (drop i (l1 ++ l2)) = drop i l1 ++ take (n - (length l1 - i)) l2.
Proof. intros H. rewrite drop_app_le, take_app_ge by (rewrite ?length_drop; lia). by rewrite length_drop. Qed.

Lemma read_loop_spec k w : ∀ (bs : blocks) n block st off rem acc,
  chain b_next (objects w) block bs → (length bs < n)%nat → Forall on_page bs → filled bs →
  0 <= st → st + Z.of_nat (length (content (mem (k_vm k)) bs)) < 2 ^ 32 →
  0 <= rem < 2 ^ 32 → 0 <= off < 2 ^ 32 → st <= off ∨ rem = 0 →
  read_loop n block st off rem acc (k, w) =
  Done (acc ++ take (Z.to_nat rem) (drop (Z.to_nat (off - st)) (content (mem (k_vm k)) bs))) (k, w).
Proof.
  induction bs as [|[a b] bs IH]; intros [|n] block st off rem acc Hc Hn Hpg Hfill Hst Hlen Hrem Hoff Hle;
    simpl in Hn; try lia; cbn [read_loop].
  - simpl in Hc. subst. simpl. by rewrite drop_nil, take_nil, app_nil_r.
  - destruct Hc as (-> & Ha & Hb & Hc). apply list.Forall_cons in Hpg as [[Hok Hd] Hpg].
    apply filled_cons in Hfill as (Hu & Hfill & _). simpl in Hok, Hd.
    cbn [content] in *. rewrite length_app, length_block_content in Hlen.
    rewrite (proj2 (Z.eqb_neq _ _) Ha). simpl. destruct (Z.ltb_spec 0 rem) as [Hr|Hr]; simpl.
    2:{ replace rem with 0 by lia. by rewrite app_nil_r. }
    destruct Hle as [Hle|]; [|lia].
    rewrite (bind_Done _ _ _ _ _ (fetch_Done _ _ _ _ Hb)). unfold SHADOWFS_BLOCK_SIZE in Hu.
    rewrite (u32_small (st + b_used b)) by lia.
    destruct (Z.ltb_spec off (st + b_used b)) as [Hin|Hout].
    + rewrite (u32_small (off - st)), (u32_small (b_used b - (off - st))) by lia.
      set (tr := if rem <? b_used b - (off - st) then rem else b_used b - (off - st)).
      assert (Htr : 0 <= tr ∧ tr <= rem ∧ tr <= b_used b - (off - st) ∧
        (tr = rem ∨ tr = b_used b - (off - st))) by (subst tr; destruct (Z.ltb_spec rem (b_used b - (off - st))); lia).
      clearbody tr.
      rewrite (bind_Done _ _ _ _ _ (block_bytes_Done k w _ (off - st) tr Hok Hd ltac:(lia) ltac:(lia) ltac:(lia))).
      rewrite (u32_small (off + tr)), (u32_small (rem - tr)) by lia.
      rewrite IH by (done || lia). rewrite <- (assoc_L (++)). do 2 f_equal.
      replace (off - st) with (Z.of_nat (Z.to_nat (off - st))) at 1 by lia.
      rewrite (rd_bytes_part (Z.to_nat (b_used b))) by lia. fold (block_content (mem (k_vm k)) b).
      pose proof (length_block_content (mem (k_vm k)) b) as Hbl.
      destruct Htr as (H0 & H1 & H2 & [-> | ->]).
      * rewrite Z.sub_diag, app_nil_r. by rewrite take_drop_app_l by lia.
      * rewrite take_drop_app_r by lia. rewrite (take_ge (drop _ (block_content _ _))) by (rewrite length_drop; lia).
        f_equal. replace (off + (b_used b - (off - st)) - (st + b_used b)) with 0 by lia. rewrite drop_0. f_equal. lia.
    + rewrite IH by (done || lia). do 3 f_equal.
      rewrite drop_app_ge by (rewrite length_block_content; lia). f_equal. rewrite length_block_content. lia.
Qed.

Section Files.
Context `{C : Clock}.

(** The number of bytes shadowfs_read() sets out to read, with its 32-bit
    sums, asks for the same bytes as [size]. *)
Lemma remaining_spec (c : list Z) pos size :
  Z.of_nat (length c) < 2 ^ 31 → 0 <= pos < 2 ^ 32 → 0 <= size < 2 ^ 32 →
  let len := Z.of_nat (length c) in
  let remaining := if len <? u32 (pos + size) then u32 (len - pos) else size in
  0 <= remaining < 2 ^ 32 ∧
  take (Z.to_nat remaining) (drop (Z.to_nat pos) c) = take (Z.to_nat size) (drop (Z.to_nat pos) c).
Proof.
  intros Hl Hp Hs len remaining. subst len. set (len := Z.of_nat (length c)) in *.
  destruct (Z.ltb_spec len (u32 (pos + size))) as [Hlt|Hge]; [|subst remaining; destruct (Z.ltb_spec len (u32 (pos + size))); [lia|done]].
  subst remaining. destruct (Z.ltb_spec len (u32 (pos + size))); [|lia].
  split; [apply u32_range|]. destruct (Z.le_gt_cases len pos).
  - by rewrite drop_ge, !take_nil by lia.
  - rewrite (u32_small (len - pos)) by lia. assert (len - pos <= size) by word_lia.
    rewrite !take_ge by (rewrite length_drop; lia). done.
Qed.

(** The file [f] at [file] is open on the inode at [ino]. *)
Definition open_on (s : kw) (file : Z) (f : file_t) (ino : Z) : Prop :=
  objects s.2 !! file = Some (inj f) ∧ file ≠ 0 ∧ f_inode f = ino ∧ 0 <= position f < 2 ^ 32.

Lemma blocks_rep_frame s s' priv bs :
  blocks_rep s priv bs → k_frames s'.1 = k_frames s.1 →
  (∀ q, q = priv ∨ q ∈ bs.*1 → objects s'.2 !! q = objects s.2 !! q) → blocks_rep s' priv bs.
Proof.
  intros [(head & Hp & Hc) Hpg Hnd Hu Hf] Hfr Hq. split; [|done|done|by rewrite Hfr|done].
  exists head. split; [rewrite Hq; auto|]. eapply chain_frame; [|exact Hc].
  intros a x Hin Hx. rewrite Hq; [done|]. right. apply list_elem_of_fmap. by exists (a, x).
Qed.

(** [q] holds no block. *)
Lemma not_block s priv bs q : blocks_rep s priv bs →
  (objects s.2 !! q) ≫= prj (A := shadowfs_block_t) = None → q ∉ bs.*1.
Proof. intros [(head & _ & Hc) _ _ _ _] Hq. by apply (chain_not_in _ _ _ _ q Hc). Qed.

(** After a read or write: the file's position and the inode have changed,
    the rest of the objects is the same. *)
Record touched (w w' : world) (file ino : Z) (f : file_t) (x' : inode_t) : Prop := {
  to_file : objects w' !! file = Some (inj f);
  to_inode : objects w' !! ino = Some (inj x');
  to_rest q : q ≠ file → q ≠ ino → objects w' !! q = objects w !! q;
  to_mounts : mount_table w' = mount_table w }.

Lemma read_spec k w ino x bs c file f buf size :
  file_rep (k, w) ino x bs c → open_on (k, w) file f ino →
  Z.of_nat (length c) < 2 ^ 31 → buf ≠ 0 → 0 <= size < 2 ^ 32 →
  let bytes := take (Z.to_nat size) (drop (Z.to_nat (position f)) c) in
  ∃ w' t, shadowfs_read file buf size (k, w) = Done (Z.of_nat (length bytes), bytes) (k, w') ∧
    file_rep (k, w') ino (set_accessed t x) bs c ∧
    touched w w' file ino (set_position (u32 (position f + Z.of_nat (length bytes))) f) (set_accessed t x).
Proof.
  intros [Hx [Hi0 Hp0] Hty Hbr Hct Hsz] (Hf & Hf0 & Hfi & Hpos) Hl Hb Hsize bytes.
  pose proof Hbr as [(head & Hp & Hc) Hpg Hnd Hu Hfill]. simpl in Hx, Hf, Hp, Hc, Hct.
  assert (Hsame : file_rep (k, w) ino (set_accessed (accessed x) x) bs c) by (by destruct x; split).
  destruct (remaining_spec c (position f) size Hl Hpos Hsize) as [Hrem Heq]. rewrite <- Hsz in Hrem, Heq.
  fold bytes in Heq. unfold shadowfs_read. rewrite (proj2 (Z.eqb_neq _ _) Hf0), (proj2 (Z.eqb_neq _ _) Hb). simpl.
  rewrite (bind_Done _ _ _ _ _ (fetch_Done _ _ _ _ Hf)), Hfi, (proj2 (Z.eqb_neq _ _) Hi0).
  rewrite (bind_Done _ _ _ _ _ (fetch_Done _ _ _ _ Hx)), (proj2 (Z.eqb_neq _ _) Hp0).
  set (remaining := if i_size x <? u32 (position f + size) then _ else _) in *.
  assert (Hempty : bytes = [] → ∃ w' t, Done (0, []) (k, w) = Done (Z.of_nat (length bytes), bytes) (k, w') ∧
    file_rep (k, w') ino (set_accessed t x) bs c ∧
    touched w w' file ino (set_position (u32 (position f + Z.of_nat (length bytes))) f) (set_accessed t x)).
  { intros ->. exists w, (accessed x). split; [done|]. split; [done|]. simpl. rewrite Z.add_0_r, u32_small by lia.
    split; [by destruct f|by destruct x|done|done]. }
  destruct (Z.eqb_spec size 0) as [-> |Hs0]; [by apply Hempty|]. cbv zeta.
  destruct (Z.eqb_spec remaining 0) as [Hr0|Hr0]; [apply Hempty; by rewrite <- Heq, Hr0|].
  rewrite (bind_Done _ _ _ _ _ (fetch_Done _ _ _ _ Hp)), (bind_Done _ _ _ _ _ (steps_Done _ _)).
  pose proof (chain_size _ _ _ _ Hc) as Hszm. cbn [s_head].
  assert (Hloop : read_loop (S (base.size (objects w))) head 0 (position f) remaining [] (k, w) = Done bytes (k, w)).
  { rewrite (read_loop_spec k w bs) by (done || rewrite ?Hct; lia). by rewrite Hct, Z.sub_0_r, Heq. }
  rewrite (bind_Done _ _ _ _ _ Hloop). clear Hloop.
  assert (Hlen : 0 <= Z.of_nat (length bytes) < 2 ^ 31).
  { unfold bytes. rewrite length_take, length_drop. lia. }
  rewrite (u32_small (Z.of_nat (length bytes))) by lia. clearbody bytes remaining.
  assert (Hfx : file ≠ ino) by distinct.
  set (f' := set_position (u32 (position f + Z.of_nat (length bytes))) f).
  rewrite (bind_Done _ _ _ _ _ (change_Done _ _ (set_position (u32 (position f + Z.of_nat (length bytes)))) _ _ Hf)).
  fold f'. set (w1 := with_objects _ w).
  assert (Hx1 : objects w1 !! ino = Some (inj x)) by (simpl; by rewrite lookup_insert_ne).
  destruct (Z.ltb_spec 0 (Z.of_nat (length bytes))) as [Hpos0|Hz].
  - set (w2 := with_clock (S (clock_reads w1)) w1). set (t := rtc_now_epoch (wall (clock_reads w1))).
    assert (Hrun : (t ← now; change ino (set_accessed (u32 t))) (k, w1) =
      Done tt (k, with_objects <[ino := inj (set_accessed (u32 t) x)]> w2)).
    { rewrite (bind_Done _ _ _ _ _ (now_Done k w1)). exact (change_Done _ _ (set_accessed (u32 t)) k w2 Hx1). }
    rewrite (bind_Done _ _ _ _ _ Hrun), i32_small by lia. eexists _, (u32 t). split; [done|].
    set (w3 := with_objects _ w2).
    assert (Hrest : ∀ q, q ≠ file → q ≠ ino → objects w3 !! q = objects w !! q).
    { intros q H1 H2. simpl. by rewrite !lookup_insert_ne by congruence. }
    split; [|split; [|simpl; by rewrite lookup_insert_eq|done|done]].
    + split; [simpl; by rewrite lookup_insert_eq|done|done| |done|done].
      change (i_private (set_accessed (u32 t) x)) with (i_private x).
      eapply blocks_rep_frame; [exact Hbr|done|]. intros q [-> |Hq]; (apply Hrest; [|]); [distinct|distinct|..].
      * intros ->. revert Hq. apply (not_block _ _ _ file Hbr). simpl. by rewrite Hf.
      * intros ->. revert Hq. apply (not_block _ _ _ ino Hbr). simpl. by rewrite Hx.
    + simpl. rewrite lookup_insert_ne by done. by rewrite lookup_insert_eq.
  - rewrite (bind_Done _ _ (k, w1) tt (k, w1)), i32_small by (done || lia).
    assert (set_accessed (accessed x) x = x) as Hxx by (by destruct x).
    exists w1, (accessed x). split; [done|]. rewrite Hxx.
    assert (Hrest : ∀ q, q ≠ file → objects w1 !! q = objects w !! q).
    { intros q H1. simpl. by rewrite lookup_insert_ne by congruence. }
    split; [|split; [simpl; by rewrite lookup_insert_eq|done|auto|done]].
    split; [done|done|done| |done|done]. eapply blocks_rep_frame; [exact Hbr|done|].
    intros q [-> |Hq]; apply Hrest; [distinct|]. intros ->. revert Hq. apply (not_block _ _ _ file Hbr). simpl. by rewrite Hf.
Qed.

(** * write *)

Definition with_mem (m : phys) (k : kernel) : kernel :=
  Kernel (k_sched k) (Vm m (frames (k_vm k)) (kernel_pml4 (k_vm k)) (cr3 (k_vm k))) (k_heap k).

Lemma store_bytes_Done k w data off bytes :
  page_ok (virtual_to_physical data) → data = physical_to_virtual (virtual_to_physical data) →
  0 <= off → off + Z.of_nat (length bytes) <= 4096 → Forall is_byte bytes →
  let p := virtual_to_physical data + off in
  ∃ m, store_bytes (data + off) bytes (k, w) = Done tt (with_mem m k, w) ∧
    ∀ c, rd8 m c = if decide (p <= c < p + Z.of_nat (length bytes)) then bytes !!! Z.to_nat (c - p)
                   else rd8 (mem (k_vm k)) c.
Proof.
  intros Hok Hd Ho Hle Hb p. set (pg := virtual_to_physical data) in *.
  destruct (for_up_rule (λ n t, frames t = frames (k_vm k) ∧ kernel_pml4 t = kernel_pml4 (k_vm k) ∧ cr3 t = cr3 (k_vm k) ∧
      ∀ c, rd8 (mem t) c = if decide (p <= c < p + n) then bytes !!! Z.to_nat (c - p) else rd8 (mem (k_vm k)) c)
      (length bytes) 0 (λ i, set_mem (wr8 (virtual_to_physical (data + off + i)) (bytes !!! Z.to_nat i))) (k_vm k))
    as (t & Hrun & Hf & Hk & Hcr & Hm).
  - split_and!; try done. intros c. by rewrite decide_False by lia.
  - intros j t Hj (Hf & Hk & Hcr & Hm). eexists. split; [done|]. cbn [frames kernel_pml4 cr3 mem].
    split_and!; [done..|]. intros c. rewrite Hd, <- Z.add_assoc, virtual_byte by (done || lia).
    rewrite rd8_wr8, Hm. destruct (decide (pg + (off + j) = c)) as [<- |Hne].
    + rewrite decide_True by lia. replace (pg + (off + j) - p) with j by lia. apply u8_small.
      destruct (lookup_lt_is_Some_2 bytes (Z.to_nat j)) as [b Hbj]; [lia|].
      rewrite (list_lookup_total_correct _ _ _ Hbj). exact (Forall_lookup_1 _ _ _ _ Hb Hbj).
    + destruct (decide (p <= c < p + j)); [rewrite decide_True by lia|rewrite decide_False by lia]; done.
  - exists (mem t). split; [|exact Hm]. unfold store_bytes, in_kernel, in_vm, zoom. simpl. rewrite Hrun.
    unfold with_mem. rewrite <- Hf, <- Hk, <- Hcr. by destruct t.
Qed.

(** What a write has done besides the contents: [bs'] are the blocks now. *)
Record wrote (s s' : kw) (priv mount : Z) (m : shadowfs_mount_t) (bs bs' : blocks) : Prop := {
  wr_owned : owned s';
  wr_mounts : mount_table s'.2 = mount_table s.2;
  wr_mount : objects s'.2 !! mount = Some (inj (add_quota (BLOCK_COST * (Z.of_nat (length bs') - Z.of_nat (length bs))) m));
  wr_object q o : objects s.2 !! q = Some o → q ≠ priv → q ≠ mount → q ∉ bs.*1 → objects s'.2 !! q = Some o;
  wr_dom q : is_Some (objects s.2 !! q) → is_Some (objects s'.2 !! q);
  wr_new q : q ∈ bs'.*1 → q ∈ bs.*1 ∨ objects s.2 !! q = None;
  wr_total : total_pages (k_frames s'.1) = total_pages (k_frames s.1);
  wr_used p : used (k_frames s.1) p = true → used (k_frames s'.1) p = true;
  wr_page p : p ∈ pages bs' → p ∈ pages bs ∨ used (k_frames s.1) (p / 4096) = false;
  wr_memory p i : page_ok p → used (k_frames s.1) (p / 4096) = true → p ∉ pages bs → 0 <= i < 4096 →
    rd8 (mem (k_vm s'.1)) (p + i) = rd8 (mem (k_vm s.1)) (p + i) }.

Lemma wrote_refl s priv mount m bs :
  owned s → objects s.2 !! mount = Some (inj m) → 0 <= m_used m < 2 ^ 32 → wrote s s priv mount m bs bs.
Proof.
  intros Ho Hm Hu. split; auto. by rewrite Z.sub_diag, add_quota_0 by done.
Qed.

Lemma wrote_trans s1 s2 s3 priv mount m bs1 bs2 bs3 :
  wrote s1 s2 priv mount m bs1 bs2 →
  wrote s2 s3 priv mount (add_quota (BLOCK_COST * (Z.of_nat (length bs2) - Z.of_nat (length bs1))) m) bs2 bs3 →
  wrote s1 s3 priv mount m bs1 bs3.
Proof.
  intros [o1 t1 m1 q1 d1 n1 tt1 u1 p1 b1] [o2 t2 m2 q2 d2 n2 tt2 u2 p2 b2].
  split; [done|congruence| | |auto| |congruence|auto| |].
  - rewrite m2, add_quota_add. do 3 f_equal. unfold BLOCK_COST. lia.
  - intros q o Hq H1 H2 H3. apply q2; [by apply q1|done|done|].
    intros Hin. destruct (n1 _ Hin); [done|congruence].
  - intros q [Hq|Hq]%n2; [by apply n1|]. right. apply eq_None_not_Some. intros [y Hs]%d1. congruence.
  - intros p [Hp|Hp]%p2; [by apply p1|]. right. apply not_true_is_false. intros H%u1. congruence.
  - intros p i Hok Hp Hin Hi. rewrite b2; [by apply b1|done|by apply u1| |done].
    intros [H|H]%p1; [done|congruence].
Qed.

(** The blocks after the last one was linked to [v]. *)
Definition relink_block (bs : blocks) (v : Z) : blocks :=
  match list.last bs with
  | None => []
  | Some (a, b) => take (length bs - 1) bs ++ [(a, set_b_next v b)]
  end.

Lemma relink_block_snoc bs a b v : relink_block (bs ++ [(a, b)]) v = bs ++ [(a, set_b_next v b)].
Proof. unfold relink_block. rewrite last_snoc, length_app. simpl. rewrite Nat.add_sub. by rewrite take_app_length. Qed.

(** It holds the same bytes on the same pages. *)
Lemma relink_block_same bs v m :
  content m (relink_block bs v) = content m bs ∧ pages (relink_block bs v) = pages bs ∧
  (relink_block bs v).*1 = bs.*1 ∧ length (relink_block bs v) = length bs ∧
  (Forall (λ b, b_used b.2 = SHADOWFS_BLOCK_SIZE) bs → Forall (λ b, b_used b.2 = SHADOWFS_BLOCK_SIZE) (relink_block bs v)) ∧
  (Forall on_page bs → Forall on_page (relink_block bs v)).
Proof.
  destruct bs as [|[a b] bs _] using rev_ind; [done|]. rewrite relink_block_snoc. unfold pages.
  rewrite !content_app, !fmap_app, !length_app. split_and!; [done..| |];
    rewrite !list.Forall_app; intros [H1 H2]; (split; [done|]); apply list.Forall_cons in H2 as [H2 _]; by constructor.
Qed.

Definition last_address (bs : blocks) : Z := default 0 (fst <$> list.last bs).

Lemma last_block_spec k w : ∀ (bs : blocks) n last block,
  chain b_next (objects w) block bs → (length bs < n)%nat →
  last_block n last block (k, w) = Done (default last (fst <$> list.last bs)) (k, w).
Proof.
  induction bs as [|[a b] bs IH]; intros [|n] last block Hc Hn; simpl in Hn; try lia; cbn [last_block].
  - simpl in Hc. by subst.
  - destruct Hc as (-> & Ha & Hb & Hc). rewrite (proj2 (Z.eqb_neq _ _) Ha), (bind_Done _ _ _ _ _ (fetch_Done _ _ _ _ Hb)).
    rewrite IH by (done || lia). f_equal. destruct bs as [|c bs]; [done|].
    change (list.last ((a, b) :: c :: bs)) with (list.last (c :: bs)). by destruct (list.last (c :: bs)) eqn:E; [|apply last_None in E].
Qed.

(** The last block has room: what add_block() makes of a file whose blocks
    are all full, and what is there otherwise. *)
Record room_rep (s : kw) (priv : Z) (bs : blocks) (a : Z) (b : shadowfs_block_t) : Prop := {
  rr_chain : ∃ head, objects s.2 !! priv = Some (inj (SInode head (Z.of_nat (length bs + 1)))) ∧
    chain b_next (objects s.2) head (bs ++ [(a, b)]);
  rr_pages : Forall on_page (bs ++ [(a, b)]);
  rr_nodup : NoDup (pages (bs ++ [(a, b)]));
  rr_alloc p : p ∈ pages (bs ++ [(a, b)]) → used (k_frames s.1) (p / 4096) = true;
  rr_full : Forall (λ b, b_used b.2 = SHADOWFS_BLOCK_SIZE) bs;
  rr_room : 0 <= b_used b < SHADOWFS_BLOCK_SIZE }.

(** No memory for another block: the heap has no room for its header, or no
    frame is free. *)
Definition starved (s : kw) : Prop :=
  new (Block 0 0 0) s = Panic out_of_memory ∨
  ∀ p, 0 <= p < total_pages (k_frames s.1) → used (k_frames s.1) p = true.

Definition full_blocks (bs : blocks) : Prop := Forall (λ b, b_used b.2 = SHADOWFS_BLOCK_SIZE) bs.

(** The allocator gives pages of the direct map, and never page 0. *)
Definition pages_good (k : kernel) : Prop := 0 <= total_pages (k_frames k) <= 2 ^ 35 ∧ used (k_frames k) 0 = true.

Lemma alloc_page k (w : world) :
  pages_good k →
  ((∃ msg, in_kernel (in_vm (in_pmm pmm_alloc)) (k, w) = Panic msg) ∧
   ∀ p, 0 <= p < total_pages (k_frames k) → used (k_frames k) p = true) ∨
  ∃ j, in_kernel (in_vm (in_pmm pmm_alloc)) (k, w) =
      Done (j * 4096) (with_frames (add_used 1 (bitmap_set j (k_frames k))) k, w) ∧
    page_ok (j * 4096) ∧ used (k_frames k) j = false.
Proof.
  intros [Ht H0]. destruct (pmm_alloc_total (k_frames k)) as [(a & p & Ha)|[Ha Hall]].
  - right. destruct (pmm_alloc_Done (k_frames k) _ _ ltac:(unfold pmm_ok; lia) Ha) as (j & -> & Hj & Hu & _ & ->).
    exists j. split; [by apply run_pmm|]. split; [|done].
    assert (j ≠ 0) by congruence. split; [lia|]. apply Z.mod_mul. lia.
  - left. split; [|exact Hall]. exists "pmm_alloc: out of physical memory!". unfold in_kernel, in_vm, in_pmm, zoom. simpl.
    unfold k_frames in Ha. by rewrite Ha.
Qed.

(** Linking a new block behind the last one. *)
Lemma link_block_spec k w priv head bs nb b :
  objects w !! priv = Some (inj (SInode head (Z.of_nat (length bs)))) → chain b_next (objects w) head bs →
  objects w !! nb = Some (inj b) → b_next b = 0 → nb ∉ bs.*1 → nb ≠ 0 → Z.of_nat (length bs) < 2 ^ 32 - 1 →
  ∃ f, link_block priv (last_address bs) nb (k, w) = Done tt (k, with_objects f w) ∧
    (∃ head', f (objects w) !! priv = Some (inj (SInode head' (Z.of_nat (length bs + 1)))) ∧
      chain b_next (f (objects w)) head' (relink_block bs nb ++ [(nb, b)])) ∧
    (∀ q, q ≠ priv → q ∉ bs.*1 → f (objects w) !! q = objects w !! q) ∧
    (∀ q, is_Some (objects w !! q) → is_Some (f (objects w) !! q)) ∧
    (owned (k, w) → owned (k, with_objects f w)).
Proof.
  intros Hpriv Hc Hnb Hb0 Hnot Hnb0 Hlen. unfold link_block.
  rewrite (bind_Done _ _ _ _ _ (fetch_Done _ _ _ _ Hpriv)). cbn [s_head].
  assert (Hdp : nb ≠ priv) by distinct.
  destruct bs as [|[a y] bs _] using rev_ind.
  - simpl in Hc. subst head. cbn [Z.eqb]. rewrite (bind_Done _ _ _ _ _ (change_Done _ _ (set_head nb) _ _ Hpriv)).
    set (w1 := with_objects _ w).
    assert (H1 : objects w1 !! priv = Some (inj (SInode nb 0))) by (simpl; by rewrite lookup_insert_eq).
    rewrite (change_Done _ _ (add_count 1) _ _ H1).
    exists (λ m, <[priv := inj (SInode nb 1)]> (<[priv := inj (SInode nb 0)]> m)). split; [done|].
    split; [|split; [|split]].
    + exists nb. split; [by rewrite lookup_insert_eq|]. split_and!; [done|done| |done]. by rewrite !lookup_insert_ne.
    + intros q Hq _. by rewrite !lookup_insert_ne.
    + intros q Hq. by repeat (apply lookup_insert_is_Some'; right).
    + intros Hown. eapply (owned_put _ _ _ _ _ (owned_put _ _ _ _ _ Hown Hpriv) H1).
  - destruct (chain_lookup _ _ _ _ a y Hc) as [Ha0 Ha]; [apply elem_of_app; right; by left|].
    assert (head ≠ 0) as Hh by (destruct bs as [|[]]; by destruct Hc as (-> & ? & _)).
    rewrite (proj2 (Z.eqb_neq _ _) Hh). unfold last_address. rewrite last_snoc.
    change (default 0 (fst <$> Some (a, y))) with a.
    rewrite (bind_Done _ _ _ _ _ (change_Done _ _ (set_b_next nb) _ _ Ha)). set (w1 := with_objects _ w).
    assert (H1 : objects w1 !! priv = Some (inj (SInode head (Z.of_nat (length (bs ++ [(a, y)])))))).
    { simpl. by rewrite lookup_insert_ne by distinct. }
    rewrite (change_Done _ _ (add_count 1) _ _ H1), relink_block_snoc. unfold add_count. cbn [s_head s_count].
    rewrite u32_small by lia. set (n := Z.of_nat _ + 1).
    exists (λ m, <[priv := inj (SInode head n)]> (<[a := inj (set_b_next nb y)]> m)). split; [done|].
    assert (Hda : nb ≠ a).
    { intros ->. apply Hnot. rewrite fmap_app. apply elem_of_app. right. by left. }
    split; [|split; [|split]].
    + exists head. rewrite lookup_insert_eq. split; [do 2 f_equal; f_equal; unfold n; lia|].
      rewrite <- (assoc_L (++)). apply chain_insert_ne.
      { rewrite !fmap_app. simpl. intros [Hin|[->|[->|[]%not_elem_of_nil]%elem_of_cons]%elem_of_cons]%elem_of_app;
          [|by rewrite Hpriv in Ha|done].
        apply (chain_not_in _ _ _ _ priv Hc); [by rewrite Hpriv|]. rewrite fmap_app. apply elem_of_app. by left. }
      eapply chain_link; [exact Hc|]. simpl. split_and!; [done|done| |done]. by rewrite lookup_insert_ne.
    + intros q Hq Hin. rewrite !lookup_insert_ne; [done| |done]. intros ->. apply Hin.
      rewrite fmap_app. apply elem_of_app. right. by left.
    + intros q Hq. by repeat (apply lookup_insert_is_Some'; right).
    + intros Hown. eapply (owned_put _ _ _ _ _ (owned_put _ _ _ _ _ Hown Ha) H1).
Qed.

Lemma add_block_spec k w priv mount m bs :
  owned (k, w) → blocks_rep (k, w) priv bs → Forall (λ b, b_used b.2 = SHADOWFS_BLOCK_SIZE) bs →
  objects w !! mount = Some (inj m) → 0 <= m_used m < 2 ^ 32 → pages_good k → Z.of_nat (length bs) < 2 ^ 32 - 1 →
  (∃ msg, add_block priv mount (last_address bs) (k, w) = Panic msg) ∧ starved (k, w) ∨
  ∃ nb b s', add_block priv mount (last_address bs) (k, w) = Done nb s' ∧ nb ≠ 0 ∧ b_used b = 0 ∧
    room_rep s' priv (relink_block bs nb) nb b ∧
    wrote (k, w) s' priv mount m bs (relink_block bs nb ++ [(nb, b)]) ∧
    mem (k_vm s'.1) = mem (k_vm k).
Proof.
  intros Hown [(head & Hpriv & Hc) Hpg Hnd Hu _] Hfull Hm Hmu Hgood Hlen. simpl in Hpriv, Hc, Hu. unfold add_block.
  destruct (new_spec (Block 0 0 0) k w Hown) as [Hnew|(nb & h & Hnew & Hnb & Hnb0 & Hown1)];
    [left; split; [eexists; by apply bind_Panic|by left]|].
  rewrite (bind_Done _ _ _ _ _ Hnew). clear Hnew. set (k1 := with_heap h k) in *. set (w1 := with_objects _ w) in *.
  destruct (alloc_page k1 w1 Hgood) as [[[msg Ha] Hall]|(j & Ha & Hok & Hj)];
    [left; split; [eexists; by apply bind_Panic|by right]|right].
  rewrite (bind_Done _ _ _ _ _ Ha). clear Ha. change (k_frames k1) with (k_frames k) in Hj. set (k2 := with_frames _ k1).
  set (b := Block (physical_to_virtual (j * 4096)) 0 0).
  assert (H1 : objects w1 !! nb = Some (inj (Block 0 0 0))) by (simpl; by rewrite lookup_insert_eq).
  rewrite (bind_Done _ _ _ _ _ (put_Done _ b _ k2 w1 H1)).
  pose proof (owned_put _ b _ _ _ (owned_frames _ _ (add_used 1 (bitmap_set j (k_frames k1))) Hown1) H1) as Hown2.
  set (w2 := with_objects _ w1) in *. fold k2 in Hown2.
  assert (Hold : ∀ q, q ≠ nb → objects w2 !! q = objects w !! q).
  { intros q Hq. simpl. by rewrite !lookup_insert_ne by congruence. }
  assert (Hnot : nb ∉ bs.*1) by (apply (chain_not_in _ _ _ _ nb Hc); by rewrite Hnb).
  assert (Hp2 : objects w2 !! priv = Some (inj (SInode head (Z.of_nat (length bs))))) by (rewrite Hold by distinct; done).
  assert (Hc2 : chain b_next (objects w2) head bs).
  { eapply chain_frame; [|exact Hc]. intros a x _ Hx. rewrite Hold by distinct. done. }
  assert (Hb2 : objects w2 !! nb = Some (inj b)) by (simpl; by rewrite lookup_insert_eq).
  destruct (link_block_spec k2 w2 priv head bs nb b Hp2 Hc2 Hb2 eq_refl Hnot Hnb0 Hlen)
    as (f & Hrun & (head' & Hp3 & Hc3) & Hq3 & Hd3 & Hown3).
  rewrite (bind_Done _ _ _ _ _ Hrun). clear Hrun. specialize (Hown3 Hown2). set (w3 := with_objects f w2) in *.
  assert (Hmn : mount ∉ bs.*1) by (apply (chain_not_in _ _ _ _ mount Hc); by rewrite Hm).
  assert (H3m : objects w3 !! mount = Some (inj m)).
  { simpl. rewrite Hq3 by (done || distinct). rewrite Hold by distinct. done. }
  rewrite (bind_Done _ _ _ _ _ (change_Done _ _ (add_quota BLOCK_COST) k2 w3 H3m)). set (w4 := with_objects _ w3).
  destruct (relink_block_same bs nb (mem (k_vm k))) as (_ & Rp & Ra & Rl & Rf & Rg).
  assert (Hv : virtual_to_physical (b_data b) = j * 4096) by (by apply v2p_p2v).
  assert (Hbd : b_data b = physical_to_virtual (j * 4096)) by done.
  assert (Hbu : b_used b = 0) by done. clearbody b.
  assert (Hpages : pages (relink_block bs nb ++ [(nb, b)]) = pages bs ++ [j * 4096]).
  { unfold pages in *. rewrite fmap_app, Rp. simpl. by rewrite Hv. }
  assert (Huse : ∀ p, used (k_frames k2) p = bool_decide (p = j) || used (k_frames k) p).
  { intros p. unfold k_frames at 1. cbn [k_vm frames k2 with_frames]. rewrite used_add_used, used_set. done. }
  assert (Hmnb : mount ≠ nb) by distinct.
  exists nb, b, (k2, w4). split; [done|]. split; [done|]. split; [done|]. split; [|split; [|done]].
  - split; cbn [snd fst].
    + exists head'. split; [cbn [objects with_objects w4]; rewrite lookup_insert_ne by distinct; by rewrite Rl|].
      apply chain_insert_ne; [|exact Hc3]. rewrite fmap_app, Ra. simpl.
      by intros [?|[->|[]%not_elem_of_nil]%elem_of_cons]%elem_of_app.
    + apply list.Forall_app. split; [by apply Rg|]. constructor; [|done]. unfold on_page. cbn [snd]. by rewrite Hv.
    + rewrite Hpages. apply list.NoDup_app. split; [done|]. split; [|apply NoDup_singleton].
      intros p Hp ->%list_elem_of_singleton. apply Hu in Hp. rewrite Z.div_mul in Hp by lia. congruence.
    + rewrite Hpages. intros p [Hp| ->%list_elem_of_singleton]%elem_of_app; rewrite Huse.
      * rewrite Hu by done. apply orb_true_r.
      * rewrite Z.div_mul by lia. by rewrite bool_decide_true.
    + by apply Rf.
    + by rewrite Hbu.
  - split; cbn [snd fst].
    + eapply (owned_put _ _ _ _ _ Hown3 H3m).
    + done.
    + cbn [objects with_objects w4]. rewrite lookup_insert_eq, length_app, Rl. simpl. do 3 f_equal. unfold BLOCK_COST. lia.
    + intros q o Hqo H2 H3 H4. cbn [objects with_objects w4 w3]. rewrite lookup_insert_ne by done.
      rewrite Hq3 by done. rewrite Hold; [done|]. intros ->. congruence.
    + intros q Hq. cbn [objects with_objects w4 w3]. apply lookup_insert_is_Some'. right. apply Hd3.
      cbn [objects with_objects w2 w1]. by repeat (apply lookup_insert_is_Some'; right).
    + rewrite fmap_app, Ra. intros q [Hq| ->%list_elem_of_singleton]%elem_of_app; [by left|by right].
    + done.
    + intros p Hp. rewrite Huse, Hp. apply orb_true_r.
    + rewrite Hpages. intros p [Hp| ->%list_elem_of_singleton]%elem_of_app; [by left|right]. by rewrite Z.div_mul by lia.
    + done.
Qed.

Lemma filled_snoc bs a b :
  Forall (λ b, b_used b.2 = SHADOWFS_BLOCK_SIZE) bs → 0 < b_used b <= SHADOWFS_BLOCK_SIZE → filled (bs ++ [(a, b)]).
Proof.
  induction 1 as [|[c y] bs Hy Hbs IH]; simpl; [done|]. intros Hb. specialize (IH Hb).
  destruct (bs ++ [(a, b)]) as [|[]] eqn:E; [by destruct bs|]. done.
Qed.

Lemma filled_inv bs a b : filled (bs ++ [(a, b)]) →
  Forall (λ b, b_used b.2 = SHADOWFS_BLOCK_SIZE) bs ∧ 0 < b_used b <= SHADOWFS_BLOCK_SIZE.
Proof.
  induction bs as [|[c y] bs IH]; simpl; [done|]. intros H.
  destruct (bs ++ [(a, b)]) as [|[]] eqn:E; [by destruct bs|]. destruct H as [Hy H].
  destruct (IH H) as [H1 H2]. split; [|done]. by constructor.
Qed.

(** The bytes of blocks on other pages stay. *)
Lemma content_frame m m' bs :
  (∀ p i, p ∈ pages bs → 0 <= i < 4096 → rd8 m' (p + i) = rd8 m (p + i)) →
  (∀ a b, (a, b) ∈ bs → b_used b <= 4096) → content m' bs = content m bs.
Proof.
  intros Hm Hu. induction bs as [|[a b] bs IH]; [done|]. simpl. rewrite IH.
  - f_equal. apply rd_bytes_ext. intros i Hi. apply Hm; [by left|].
    specialize (Hu a b ltac:(by left)). lia.
  - intros p i Hp. apply Hm. by right.
  - intros c y Hy. apply (Hu c y). by right.
Qed.

Lemma filled_le bs a b : filled bs → (a, b) ∈ bs → 0 < b_used b <= 4096.
Proof.
  induction bs as [|[c y] bs IH]; [by intros _ ?%not_elem_of_nil|].
  intros (Hy & Hf & _)%filled_cons [E|Hin]%elem_of_cons; [by simplify_eq|auto].
Qed.

(** Bytes written behind those of a block. *)
Lemma block_content_write m m' b (tw : nat) data :
  0 <= b_used b → b_used b + Z.of_nat tw <= 4096 → (tw <= length data)%nat →
  (∀ c, rd8 m' c = if decide (virtual_to_physical (b_data b) + b_used b <= c <
                             virtual_to_physical (b_data b) + b_used b + Z.of_nat tw)
                   then take tw data !!! Z.to_nat (c - (virtual_to_physical (b_data b) + b_used b)) else rd8 m c) →
  block_content m' (set_b_used (b_used b + Z.of_nat tw) b) = block_content m b ++ take tw data.
Proof.
  intros H0 Hle Hd Hm. unfold block_content. cbn [b_used b_data set_b_used].
  set (p := virtual_to_physical (b_data b)) in *. apply list_eq. intros i. rewrite lookup_app.
  destruct (decide (i < Z.to_nat (b_used b))%nat).
  - rewrite !rd_bytes_lookup, Hm, decide_False by lia. done.
  - rewrite (lookup_ge_None_2 (rd_bytes (Z.to_nat (b_used b)) m p)) by (rewrite length_rd_bytes; lia).
    rewrite length_rd_bytes. destruct (decide (i < Z.to_nat (b_used b) + tw)%nat).
    + rewrite rd_bytes_lookup, Hm, decide_True by lia.
      replace (Z.to_nat (p + Z.of_nat i - (p + b_used b))) with (i - Z.to_nat (b_used b))%nat by lia.
      symmetry. apply list_lookup_lookup_total_lt. rewrite length_take. lia.
    + rewrite !lookup_ge_None_2; [done|rewrite length_take; lia|rewrite length_rd_bytes; lia].
Qed.

Lemma room_le (bs : blocks) a b c y : Forall (λ b, b_used b.2 = SHADOWFS_BLOCK_SIZE) bs →
  0 <= b_used b < SHADOWFS_BLOCK_SIZE → (c, y) ∈ (bs ++ [(a, b)] : blocks) → 0 <= b_used y <= 4096.
Proof.
  unfold SHADOWFS_BLOCK_SIZE. intros Hf Hb [Hin|E%list_elem_of_singleton]%elem_of_app; [|simplify_eq; lia].
  rewrite list.Forall_forall in Hf. apply Hf in Hin. simpl in Hin. lia.
Qed.

(** The pages of a block list that has room. *)
Lemma room_pages s priv bs a b p : room_rep s priv bs a b → p ∈ pages bs →
  page_ok p ∧ p ≠ virtual_to_physical (b_data b).
Proof.
  intros [_ Hpg Hnd _ _ _] Hp. apply list.Forall_app in Hpg as [Hpg _]. split.
  - unfold pages in Hp. apply list_elem_of_fmap in Hp as ([c y] & -> & Hin).
    rewrite list.Forall_forall in Hpg. by destruct (Hpg _ Hin).
  - unfold pages in Hnd, Hp. rewrite fmap_app in Hnd. apply list.NoDup_app in Hnd as (_ & Hnd & _).
    intros ->. apply (Hnd _ Hp). simpl. by left.
Qed.

Lemma fill_block_spec k w priv mount m bs a b data :
  owned (k, w) → room_rep (k, w) priv bs a b → Forall is_byte data → data ≠ [] →
  objects w !! mount = Some (inj m) → 0 <= m_used m < 2 ^ 32 →
  ∃ (tw : nat) s' b', fill_block a data (k, w) = Done (Z.of_nat tw) s' ∧
    (0 < tw <= length data)%nat ∧ b_used b' = b_used b + Z.of_nat tw ∧
    (tw = length data ∨ b_used b' = SHADOWFS_BLOCK_SIZE) ∧
    blocks_rep s' priv (bs ++ [(a, b')]) ∧
    content (mem (k_vm s'.1)) (bs ++ [(a, b')]) = content (mem (k_vm k)) (bs ++ [(a, b)]) ++ take tw data ∧
    wrote (k, w) s' priv mount m (bs ++ [(a, b)]) (bs ++ [(a, b')]).
Proof.
  intros Hown Hroom Hby Hne Hm Hmu. pose proof Hroom as [(head & Hpriv & Hc) Hpg Hnd Hu Hfull Hb].
  simpl in Hpriv, Hc, Hu.
  destruct (chain_lookup _ _ _ _ a b Hc) as [Ha0 Ha]; [apply elem_of_app; right; by left|].
  assert (Hab := proj2 (proj1 (list.Forall_app _ _ _) Hpg)). apply list.Forall_cons in Hab as [[Hok Hd] _]. cbn [snd] in Hok, Hd.
  unfold fill_block. rewrite (bind_Done _ _ _ _ _ (fetch_Done _ _ _ _ Ha)). unfold SHADOWFS_BLOCK_SIZE in Hb |- *.
  set (z := if Z.of_nat (length data) <? 4096 - b_used b then _ else _).
  assert (Hz : 0 < z <= Z.of_nat (length data) ∧ z <= 4096 - b_used b ∧ (z = Z.of_nat (length data) ∨ b_used b + z = 4096)).
  { subst z. destruct data; [done|]. simpl length in *. destruct (Z.ltb_spec (Z.of_nat (S (length data))) (4096 - b_used b)); lia. }
  clearbody z. assert (Hlen : length (take (Z.to_nat z) data) = Z.to_nat z) by (rewrite length_take; lia).
  destruct (store_bytes_Done k w (b_data b) (b_used b) (take (Z.to_nat z) data) Hok Hd) as (m' & Hrun & Hm');
    [lia|rewrite Hlen; lia|by apply Forall_take|]. rewrite Hlen, Z2Nat.id in Hm' by lia.
  rewrite (bind_Done _ _ _ _ _ Hrun). clear Hrun. set (k' := with_mem m' k).
  rewrite (bind_Done _ _ _ _ _ (change_Done _ _ (λ b, set_b_used (u32 (b_used b + z)) b) k' w Ha)).
  rewrite u32_small by lia. set (b' := set_b_used (b_used b + z) b). set (w' := with_objects _ w).
  exists (Z.to_nat z), (k', w'), b'. rewrite Z2Nat.id by lia. split; [done|].
  assert (Hkeep : ∀ q, q ≠ a → objects w' !! q = objects w !! q) by (intros q Hq; simpl; by rewrite lookup_insert_ne by congruence).
  assert (Hsame : pages (bs ++ [(a, b')]) = pages (bs ++ [(a, b)])) by (unfold pages; by rewrite !fmap_app).
  assert (Haddr : (bs ++ [(a, b')]).*1 = (bs ++ [(a, b)]).*1) by (by rewrite !fmap_app).
  split; [lia|]. split; [done|]. split; [destruct Hz as (_ & _ & [?|?]); [left|right]; simpl; lia|].
  split; [|split].
  - split.
    + exists head. rewrite length_app. cbn [length snd]. rewrite Hkeep by distinct. split; [done|].
      eapply (chain_link b_next (objects w) head bs a b b' [] []); [exact Hc|]. simpl.
      apply (chain_app b_next) in Hc as (_ & _ & _ & Hn). exact Hn.
    + apply list.Forall_app. apply list.Forall_app in Hpg as [? _]. split; [done|]. by constructor.
    + by rewrite Hsame.
    + rewrite Hsame. exact Hu.
    + apply filled_snoc; [done|]. simpl. unfold SHADOWFS_BLOCK_SIZE. lia.
  - rewrite !content_app. cbn [content]. rewrite !app_nil_r, <- (assoc_L (++)). f_equal.
    + apply content_frame; [|intros c y Hin; apply (room_le bs a b c y); [done|exact Hb|apply elem_of_app; by left]].
      intros p i Hp Hi. destruct (room_pages _ _ _ _ _ _ Hroom Hp) as [Hpok Hpne].
      rewrite Hm', decide_False; [done|]. destruct (page_disjoint _ _ Hpok Hok Hpne); lia.
    + unfold b'. rewrite <- (Z2Nat.id z) at 1 by lia.
      apply block_content_write; [lia|lia|lia|]. rewrite Z2Nat.id by lia. exact Hm'.
  - split; cbn [snd fst].
    + eapply (owned_put _ _ _ k' w); [|exact Ha]. by eapply owned_ext.
    + done.
    + rewrite Hkeep by distinct. rewrite !length_app. cbn [length]. by rewrite Z.sub_diag, add_quota_0.
    + intros q o Hqo _ _ Hq. rewrite Hkeep; [done|]. intros ->. apply Hq. rewrite fmap_app. apply elem_of_app. right. by left.
    + intros q Hq. apply lookup_insert_is_Some'. by right.
    + rewrite Haddr. by left.
    + done.
    + done.
    + rewrite Hsame. by left.
    + intros p i Hpok _ Hp Hi. cbn [k_vm mem k' with_mem]. rewrite Hm', decide_False; [done|].
      assert (p ≠ virtual_to_physical (b_data b)) as Hpne.
      { intros ->. apply Hp. unfold pages. rewrite fmap_app. apply elem_of_app. right. by left. }
      destruct (page_disjoint _ _ Hpok Hok Hpne); lia.
Qed.

Lemma filled_length m bs : filled bs → 4096 * Z.of_nat (length bs) <= Z.of_nat (length (content m bs)) + 4096.
Proof.
  induction bs as [|[a b] bs IH]; [done|]. intros (Hb & Hf & Hfull)%filled_cons. specialize (IH Hf).
  cbn [content]. rewrite length_app, length_block_content. unfold SHADOWFS_BLOCK_SIZE in *. cbn [length] in *.
  destruct bs as [|c bs]; [simpl; lia|]. rewrite Hfull by done. lia.
Qed.

Lemma pages_good_wrote (s s' : kw) priv mount m bs bs' : wrote s s' priv mount m bs bs' → pages_good s.1 → pages_good s'.1.
Proof. intros [_ _ _ _ _ _ Ht Hu _ _] [H1 H2]. split; [by rewrite Ht|auto]. Qed.

Lemma wrote_mount_fields s s' priv mount m bs bs' : wrote s s' priv mount m bs bs' →
  let m' := add_quota (BLOCK_COST * (Z.of_nat (length bs') - Z.of_nat (length bs))) m in
  objects s'.2 !! mount = Some (inj m') ∧ quota m' = quota m ∧ 0 <= m_used m' < 2 ^ 32.
Proof. intros Hw. split; [by eapply wr_mount|]. split; [done|]. apply u32_range. Qed.

(** Room for at least one byte more: the last block, or a new one. *)
Lemma make_room k w priv mount m bs :
  owned (k, w) → blocks_rep (k, w) priv bs → objects w !! mount = Some (inj m) → 0 <= m_used m < 2 ^ 32 →
  pages_good k → Z.of_nat (length bs) < 2 ^ 32 - 1 →
  let make := full ← needs_block (last_address bs);
              if (full : bool) then add_block priv mount (last_address bs) else mret (last_address bs) in
  ((∃ msg, make (k, w) = Panic msg) ∧ full_blocks bs ∧ starved (k, w)) ∨
  ∃ a b bs' s', make (k, w) = Done a s' ∧ owned s' ∧ room_rep s' priv bs' a b ∧
    wrote (k, w) s' priv mount m bs (bs' ++ [(a, b)]) ∧
    content (mem (k_vm s'.1)) (bs' ++ [(a, b)]) = content (mem (k_vm k)) bs ∧
    (length bs <= length bs' + 1 <= length bs + 1)%nat.
Proof.
  intros Hown Hbr Hm Hmu Hgood Hlen make. subst make. cbv zeta.
  assert (Hadd : full_blocks bs →
    ((∃ msg, add_block priv mount (last_address bs) (k, w) = Panic msg) ∧ full_blocks bs ∧ starved (k, w)) ∨
    ∃ a b bs' s', add_block priv mount (last_address bs) (k, w) = Done a s' ∧ owned s' ∧ room_rep s' priv bs' a b ∧
      wrote (k, w) s' priv mount m bs (bs' ++ [(a, b)]) ∧
      content (mem (k_vm s'.1)) (bs' ++ [(a, b)]) = content (mem (k_vm k)) bs ∧
      (length bs <= length bs' + 1 <= length bs + 1)%nat).
  { intros Hfull. destruct (add_block_spec k w priv mount m bs Hown Hbr Hfull Hm Hmu Hgood Hlen)
      as [[??]|(nb & b & s' & Hrun & _ & Hb0 & Hroom & Hw & Hmem)]; [by left|right].
    exists nb, b, (relink_block bs nb), s'. split; [done|]. split; [by eapply wr_owned|]. split; [done|]. split; [done|].
    destruct (relink_block_same bs nb (mem (k_vm k))) as (Rc & _ & _ & Rl & _).
    rewrite Hmem, content_app, Rc, Rl. cbn [content]. unfold block_content. rewrite Hb0. split; [|lia]. by rewrite !app_nil_r. }
  destruct bs as [|[a b] bs _] using rev_ind.
  - cbn [last_address needs_block]. rewrite (bind_Done _ _ (k, w) true (k, w)) by done. apply Hadd. constructor.
  - pose proof Hbr as [(head & Hpriv & Hc) Hpg Hnd Hu Hfill]. apply filled_inv in Hfill as [Hfull Hb]. simpl in Hpriv, Hc.
    destruct (chain_lookup _ _ _ _ a b Hc) as [Ha0 Ha]; [apply elem_of_app; right; by left|].
    assert (last_address (bs ++ [(a, b)]) = a) as El by (unfold last_address; by rewrite last_snoc).
    rewrite El in *. assert (Hneed : needs_block a (k, w) = Done (b_used b =? SHADOWFS_BLOCK_SIZE) (k, w)).
    { unfold needs_block. rewrite (proj2 (Z.eqb_neq _ _) Ha0). by rewrite (bind_Done _ _ _ _ _ (fetch_Done _ _ _ _ Ha)). }
    rewrite (bind_Done _ _ _ _ _ Hneed). destruct (Z.eqb_spec (b_used b) SHADOWFS_BLOCK_SIZE) as [Hbf|Hbf].
    + apply Hadd. apply list.Forall_app. split; [done|]. by constructor.
    + right. exists a, b, bs, (k, w). split; [done|]. split; [done|]. split.
      * split; [|done|done|done|done|lia]. exists head. simpl. rewrite length_app in Hpriv. done.
      * split; [by apply wrote_refl|]. split; [done|]. rewrite length_app. simpl. lia.
Qed.

(** Where a write that panics has come to: it has filled its last block, has
    bytes and quota left, and there is no memory for another block. *)
Definition runs_out (priv mount : Z) (s : kw) (m : shadowfs_mount_t) (bs : blocks) (data : list Z) : Prop :=
  ∃ (t : nat) s1 bs1, (t < length data)%nat ∧ blocks_rep s1 priv bs1 ∧ full_blocks bs1 ∧
    content (mem (k_vm s1.1)) bs1 = content (mem (k_vm s.1)) bs ++ take t data ∧
    wrote s s1 priv mount m bs bs1 ∧ m_used m + BLOCK_COST * (Z.of_nat (length bs1) - Z.of_nat (length bs)) < quota m ∧ starved s1.

Lemma write_loop_spec priv mount : ∀ n data k w m bs written,
  (length data < n)%nat → owned (k, w) → blocks_rep (k, w) priv bs →
  objects w !! mount = Some (inj m) → 0 <= m_used m < 2 ^ 32 → quota m <= 2 ^ 32 - BLOCK_COST → pages_good k →
  Forall is_byte data → 0 <= written → written + Z.of_nat (length data) < 2 ^ 31 →
  Z.of_nat (length (content (mem (k_vm k)) bs)) + Z.of_nat (length data) < 2 ^ 31 →
  (∃ msg, write_loop n priv mount (last_address bs) data written (k, w) = Panic msg) ∧ runs_out priv mount (k, w) m bs data ∨
  ∃ (t : nat) s' bs', write_loop n priv mount (last_address bs) data written (k, w) = Done (written + Z.of_nat t) s' ∧
    (t <= length data)%nat ∧ blocks_rep s' priv bs' ∧
    content (mem (k_vm s'.1)) bs' = content (mem (k_vm k)) bs ++ take t data ∧
    wrote (k, w) s' priv mount m bs bs' ∧
    (t = length data ∨ quota m <= m_used m + BLOCK_COST * (Z.of_nat (length bs') - Z.of_nat (length bs))) ∧
    m_used m <= m_used m + BLOCK_COST * (Z.of_nat (length bs') - Z.of_nat (length bs)) <= Z.max (m_used m) (quota m + 23).
Proof.
  induction n as [|n IH]; intros data k w m bs written Hn Hown Hbr Hm Hmu Hq Hgood Hby Hw0 Hw1 Hlen; [lia|].
  cbn [write_loop].
  assert (Hstop : data = [] ∨ quota m <= m_used m → ∃ (t : nat) s' bs', Done written (k, w) = Done (written + Z.of_nat t) s' ∧
    (t <= length data)%nat ∧ blocks_rep s' priv bs' ∧
    content (mem (k_vm s'.1)) bs' = content (mem (k_vm k)) bs ++ take t data ∧
    wrote (k, w) s' priv mount m bs bs' ∧
    (t = length data ∨ quota m <= m_used m + BLOCK_COST * (Z.of_nat (length bs') - Z.of_nat (length bs))) ∧
    m_used m <= m_used m + BLOCK_COST * (Z.of_nat (length bs') - Z.of_nat (length bs)) <= Z.max (m_used m) (quota m + 23)).
  { intros Hor. exists 0%nat, (k, w), bs. rewrite Z.add_0_r, app_nil_r, Z.sub_diag, Z.mul_0_r, Z.add_0_r.
    split_and!; [done|lia|done|done|by apply wrote_refl| |lia|lia]. destruct Hor as [-> |?]; [by left|by right]. }
  destruct data as [|d data]; [right; apply Hstop; by left|].
  rewrite (bind_Done _ _ _ _ _ (fetch_Done _ _ _ _ Hm)).
  destruct (Z.leb_spec (quota m) (m_used m)) as [|Hroomq]; [right; apply Hstop; by right|]. clear Hstop.
  rewrite <- bind_assoc. pose proof (filled_length (mem (k_vm k)) bs (br_filled _ _ _ Hbr)) as Hfl.
  cbn [length] in *. unfold BLOCK_COST in Hq |- *.
  destruct (make_room k w priv mount m bs Hown Hbr Hm Hmu Hgood ltac:(lia))
    as [([msg Hrun] & Hfull & Hst)|(a & b & bs1 & [k1 w1] & Hrun & Hown1 & Hroom & Hw & Hc1 & Hl1)]; cbv zeta in Hrun.
  { left. split; [exists msg; by apply bind_Panic|]. exists 0%nat, (k, w), bs. rewrite app_nil_r.
    split_and!; [cbn; lia|done|done|done|by apply wrote_refl|unfold BLOCK_COST; lia|done]. }
  rewrite (bind_Done _ _ _ _ _ Hrun). clear Hrun.
  destruct (wrote_mount_fields _ _ _ _ _ _ _ Hw) as (Hm1 & Hq1 & Hmu1). set (m1 := add_quota _ m) in *.
  assert (Hm1u : m_used m1 = m_used m + 24 * (Z.of_nat (length bs1 + 1) - Z.of_nat (length bs))).
  { unfold m1, add_quota, BLOCK_COST. cbn [m_used]. rewrite length_app. cbn [length]. rewrite u32_small by lia. lia. }
  destruct (fill_block_spec k1 w1 priv mount m1 bs1 a b (d :: data) Hown1 Hroom Hby ltac:(done) Hm1 Hmu1)
    as (tw & [k2 w2] & b2 & Hrun & Htw & Hb2 & Hor & Hbr2 & Hc2 & Hw2).
  rewrite (bind_Done _ _ _ _ _ Hrun). clear Hrun. cbn [length] in Htw, Hor. rewrite Nat2Z.id, u32_small by lia.
  pose proof (wrote_trans _ _ _ _ _ _ _ _ _ Hw Hw2) as Hw12.
  pose proof (pages_good_wrote _ _ _ _ _ _ _ Hw12 Hgood) as Hgood2.
  clearbody m1. destruct (wrote_mount_fields _ _ _ _ _ _ _ Hw12) as (Hm2 & Hq2 & Hmu2). set (m2 := add_quota _ m) in *.
  assert (Hm2u : m_used m2 = m_used m1).
  { rewrite Hm1u. unfold m2, add_quota, BLOCK_COST. cbn [m_used]. rewrite length_app. cbn [length]. rewrite u32_small by lia. lia. }
  assert (last_address (bs1 ++ [(a, b2)]) = a) as El by (unfold last_address; by rewrite last_snoc).
  simpl in Hc1, Hc2.
  destruct (IH (drop tw (d :: data)) k2 w2 m2 (bs1 ++ [(a, b2)]) (written + Z.of_nat tw))
    as [[[msg Hrun] Hout]|(t & s3 & bs3 & Hrun & Ht & Hbr3 & Hc3 & Hw3 & Hor3 & Hmax3)].
  - rewrite length_drop. simpl. lia.
  - by eapply wr_owned.
  - done.
  - done.
  - done.
  - unfold BLOCK_COST. lia.
  - done.
  - by apply Forall_drop.
  - lia.
  - rewrite length_drop. cbn [length]. lia.
  - rewrite Hc2, Hc1, length_app, length_take, length_drop. cbn [length]. lia.
  - left. split; [exists msg; by rewrite El in Hrun|].
    destruct Hout as (t & s3 & bs3 & Ht & Hbr3 & Hf3 & Hc3 & Hw3 & Hq3 & Hst). rewrite length_drop in Ht. cbn [length] in Ht.
    exists (tw + t)%nat, s3, bs3. split; [cbn [length]; lia|]. split_and!; [done|done| |by eapply wrote_trans| |done].
    2:{ rewrite Hq2, Hm2u, Hm1u, length_app in Hq3. unfold BLOCK_COST in Hq3 |- *. cbn [length] in Hq3. lia. }
    simpl fst in *. rewrite Hc3, Hc2, Hc1, <- (assoc_L (++)). f_equal. by rewrite take_take_drop.
  - right. rewrite length_drop in Ht, Hor3. cbn [length] in Ht, Hor3.
    exists (tw + t)%nat, s3, bs3. split; [|split; [|split; [|split; [|split; [|split]]]]].
    + rewrite El in Hrun. rewrite Hrun. f_equal. lia.
    + lia.
    + done.
    + rewrite Hc3, Hc2, Hc1, <- (assoc_L (++)). f_equal. by rewrite take_take_drop.
    + by eapply wrote_trans.
    + rewrite Hq2, Hm2u, Hm1u, length_app in Hor3. unfold BLOCK_COST in Hor3. cbn [length] in Hor3. lia.
    + rewrite Hq2, Hm2u, Hm1u, length_app in Hmax3. unfold BLOCK_COST in Hmax3. cbn [length] in Hmax3. lia.
Qed.

(** What a write of [n] bytes leaves: the file's bytes, its inode and
    position, the quota, and everything else as it was. *)
Record written (s s' : kw) (ino file mount : Z) (x : inode_t) (f : file_t) (m : shadowfs_mount_t)
    (bs : blocks) (c : list Z) : Prop := {
  wn_file : ∃ bs' x', file_rep s' ino x' bs' c ∧ i_private x' = i_private x ∧ i_sb x' = i_sb x ∧
    objects s'.2 !! mount = Some (inj (add_quota (BLOCK_COST * (Z.of_nat (length bs') - Z.of_nat (length bs))) m));
  wn_position : objects s'.2 !! file = Some (inj f);
  wn_owned : owned s';
  wn_object q o : objects s.2 !! q = Some o → q ≠ i_private x → q ≠ mount → q ≠ ino → q ≠ file → q ∉ bs.*1 →
    objects s'.2 !! q = Some o;
  wn_memory p i : page_ok p → used (k_frames s.1) (p / 4096) = true → p ∉ pages bs → 0 <= i < 4096 →
    rd8 (mem (k_vm s'.1)) (p + i) = rd8 (mem (k_vm s.1)) (p + i);
  wn_used p : used (k_frames s.1) p = true → used (k_frames s'.1) p = true }.

Lemma finish_write_spec k w ino file x f n :
  owned (k, w) → objects w !! ino = Some (inj x) → objects w !! file = Some (inj f) →
  0 <= i_size x → 0 <= n < 2 ^ 31 → i_size x + n < 2 ^ 32 →
  ∃ w' x', finish_write ino file n (k, w) = Done n (k, w') ∧ owned (k, w') ∧
    objects w' !! ino = Some (inj x') ∧ i_size x' = i_size x + n ∧ i_private x' = i_private x ∧
    i_type x' = i_type x ∧ i_sb x' = i_sb x ∧
    objects w' !! file = Some (inj (set_position (u32 (position f + n)) f)) ∧
    ∀ q, q ≠ ino → q ≠ file → objects w' !! q = objects w !! q.
Proof.
  intros Hown Hx Hf Hs Hn Hsn. assert (Hne : file ≠ ino) by distinct. unfold finish_write.
  set (x1 := set_i_size (u32 (i_size x + n)) x). set (f1 := set_position (u32 (position f + n)) f).
  rewrite (bind_Done _ _ _ _ _ (change_Done _ _ (λ x, set_i_size (u32 (i_size x + n)) x) _ _ Hx)). fold x1.
  pose proof (owned_put _ x1 _ _ _ Hown Hx) as Hown1. set (w1 := with_objects _ w) in *.
  assert (Hf1 : objects w1 !! file = Some (inj f)) by (simpl; by rewrite lookup_insert_ne).
  rewrite (bind_Done _ _ _ _ _ (change_Done _ _ (λ f, set_position (u32 (position f + n)) f) _ _ Hf1)). fold f1.
  pose proof (owned_put _ f1 _ _ _ Hown1 Hf1) as Hown2. set (w2 := with_objects _ w1) in *.
  assert (Hx2 : objects w2 !! ino = Some (inj x1)) by (simpl; rewrite lookup_insert_ne, lookup_insert_eq by done; done).
  assert (Hf2 : objects w2 !! file = Some (inj f1)) by (simpl; by rewrite lookup_insert_eq).
  assert (Hq2 : ∀ q, q ≠ ino → q ≠ file → objects w2 !! q = objects w !! q).
  { intros q H1 H2. simpl. by rewrite !lookup_insert_ne by congruence. }
  rewrite i32_small by lia. destruct (Z.ltb_spec 0 n).
  - set (w3 := with_clock (S (clock_reads w2)) w2). set (t := rtc_now_epoch (wall (clock_reads w2))).
    assert (Hrun : (t ← now; change ino (set_modified (u32 t))) (k, w2) =
      Done tt (k, with_objects <[ino := inj (set_modified (u32 t) x1)]> w3)).
    { rewrite (bind_Done _ _ _ _ _ (now_Done k w2)). exact (change_Done _ _ (set_modified (u32 t)) k w3 Hx2). }
    rewrite (bind_Done _ _ _ _ _ Hrun). eexists _, (set_modified (u32 t) x1). split; [done|].
    split; [eapply (owned_put _ _ _ k w3); [by eapply owned_ext|exact Hx2]|].
    split; [simpl; by rewrite lookup_insert_eq|]. split; [simpl; by rewrite u32_small by lia|].
    split_and!; [done..| |].
    + simpl. rewrite lookup_insert_ne by congruence. exact Hf2.
    + intros q H1 H2. simpl. rewrite lookup_insert_ne by congruence. by apply Hq2.
  - rewrite (bind_Done _ _ (k, w2) tt (k, w2)) by done. exists w2, x1. split; [done|]. split; [done|].
    split; [done|]. split; [simpl; by rewrite u32_small by lia|]. split_and!; done.
Qed.

Lemma write_spec k w ino x bs c file f mount m buf data :
  owned (k, w) → pages_good k → file_rep (k, w) ino x bs c → open_on (k, w) file f ino →
  mounted (k, w) x mount m → 0 <= m_used m < 2 ^ 32 → quota m <= 2 ^ 32 - BLOCK_COST → buf ≠ 0 →
  Forall is_byte data → Z.of_nat (length c) + Z.of_nat (length data) < 2 ^ 31 →
  (∃ msg, shadowfs_write file buf data (k, w) = Panic msg) ∧ runs_out (i_private x) mount (k, w) m bs data ∨
  ∃ (n : nat) s', shadowfs_write file buf data (k, w) = Done (Z.of_nat n) s' ∧ (n <= length data)%nat ∧
    written (k, w) s' ino file mount x (set_position (u32 (position f + Z.of_nat n)) f) m bs (c ++ take n data) ∧
    (n = length data ∨ ∃ m', objects s'.2 !! mount = Some (inj m') ∧ quota m' <= m_used m').
Proof.
  intros Hown Hgood Hfile Hopen Hm Hmu Hq Hb Hby Hlen.
  pose proof Hfile as [Hx [Hi0 Hp0] Hty Hbr Hct Hsz]. destruct Hopen as (Hf & Hf0 & Hfi & Hpos).
  pose proof Hm as (i & sb & Hsb & Hi & Hsp & Hm0 & Hmo). pose proof Hbr as [(head & Hpriv & Hc) _ _ _ _].
  simpl in Hx, Hf, Hi, Hmo, Hct, Hpriv, Hc.
  unfold shadowfs_write. rewrite (proj2 (Z.eqb_neq _ _) Hf0), (proj2 (Z.eqb_neq _ _) Hb).
  rewrite (bind_Done _ _ _ _ _ (fetch_Done _ _ _ _ Hf)), Hfi, (proj2 (Z.eqb_neq _ _) Hi0).
  rewrite (bind_Done _ _ _ _ _ (fetch_Done _ _ _ _ Hx)), (proj2 (Z.eqb_neq _ _) Hp0).
  rewrite (bind_Done _ _ _ _ _ (mount_data_Done _ _ _ _ _ Hm)), (proj2 (Z.eqb_neq _ _) Hm0).
  destruct data as [|d data].
  { right. exists 0%nat, (k, w). split; [done|]. split; [done|]. rewrite app_nil_r, Z.add_0_r, u32_small by lia.
    split; [|by left]. split; auto; [|by destruct f]. exists bs, x. rewrite Z.sub_diag, Z.mul_0_r, add_quota_0 by done. done. }
  set (dat := d :: data) in *. assert (Hdat : dat ≠ []) by done. clearbody dat.
  rewrite (bind_Done _ _ _ _ _ (fetch_Done _ _ _ _ Hpriv)), (bind_Done _ _ _ _ _ (steps_Done _ _)).
  pose proof (chain_size _ _ _ _ Hc) as Hszm.
  rewrite (bind_Done _ _ _ _ _ (last_block_spec k w bs (S (size (objects w))) 0 _ Hc ltac:(lia))).
  fold (last_address bs).
  destruct (write_loop_spec (i_private x) mount (S (length dat)) dat k w m bs 0)
    as [[[msg Hrun] Hout]|(n & [k1 w1] & bs1 & Hrun & Hn & Hbr1 & Hc1 & Hw & Hor & Hmax)];
    [lia|done|done|done|done|done|done|done|lia|lia|simpl in Hct; rewrite Hct; lia| |].
  { left. split; [exists msg; by apply bind_Panic|done]. }
  right. rewrite (bind_Done _ _ _ _ _ Hrun), Z.add_0_l. clear Hrun.
  assert (Hnb : ∀ q, (objects w !! q) ≫= prj (A := shadowfs_block_t) = None → q ∉ bs.*1) by (intros q; apply (not_block _ _ _ q Hbr)).
  assert (Hx1 : objects w1 !! ino = Some (inj x)) by (apply (wr_object _ _ _ _ _ _ _ Hw); [done|distinct|distinct|apply Hnb; simpl; by rewrite Hx]).
  assert (Hf1 : objects w1 !! file = Some (inj f)) by (apply (wr_object _ _ _ _ _ _ _ Hw); [done|distinct|distinct|apply Hnb; simpl; by rewrite Hf]).
  destruct (wrote_mount_fields _ _ _ _ _ _ _ Hw) as (Hm1 & _ & _). simpl in Hm1, Hc1. rewrite Hct in Hc1.
  destruct (finish_write_spec k1 w1 ino file x f (Z.of_nat n)) as
    (w2 & x2 & Hrun & Hown2 & Hx2 & Hsz2 & Hp2 & Hty2 & Hsb2 & Hf2 & Hq2);
    [by eapply wr_owned|done|done|lia|lia|lia|]. rewrite Hrun. clear Hrun.
  exists n, (k1, w2). split; [done|]. split; [done|].
  assert (Hm2 : objects w2 !! mount = objects w1 !! mount) by (apply Hq2; distinct).
  split; [split; cbn [snd fst]|].
  - exists bs1, x2. split; [|split; [done|split; [done|by rewrite Hm2]]].
    assert (Hb1 : ∀ q, (objects w1 !! q) ≫= prj (A := shadowfs_block_t) = None → q ∉ bs1.*1) by (intros q; apply (not_block _ _ _ q Hbr1)).
    split; [done|by rewrite Hp2|by rewrite Hty2| |done|].
    + rewrite Hp2. eapply blocks_rep_frame; [exact Hbr1|done|]. pose proof Hbr1 as [(h1 & Hpriv1 & _) _ _ _ _]. simpl in Hpriv1.
      intros q [-> |Hin]; apply Hq2; [distinct|distinct| |]; intros ->; revert Hin; apply Hb1; [by rewrite Hx1|by rewrite Hf1].
    + rewrite Hsz2, Hsz, length_app, length_take. lia.
  - done.
  - done.
  - intros q o Hqo H1 H2 H3 H4 H5. rewrite Hq2 by done. by apply (wr_object _ _ _ _ _ _ _ Hw).
  - intros p j. apply (wr_memory _ _ _ _ _ _ _ Hw).
  - apply (wr_used _ _ _ _ _ _ _ Hw).
  - destruct Hor as [->|Hor]; [by left|right]. cbn [snd]. rewrite Hm2. eexists. split; [exact Hm1|].
    unfold add_quota. cbn [quota m_used]. rewrite u32_small; [done|]. unfold BLOCK_COST in *. lia.
Qed.

(** * truncate *)

Lemma refund_block k w m (mount : Z) :
  objects w !! mount = Some (inj m) → 0 <= m_used m < 2 ^ 32 →
  change mount (add_quota (- BLOCK_COST)) (k, w) =
    Done tt (k, with_objects (λ o, <[mount := inj (add_quota (- BLOCK_COST) m)]> o) w) ∨
  - BLOCK_COST = 0 ∧ change mount (add_quota (- BLOCK_COST)) (k, w) = Done tt (k, w).
Proof. intros Hm _. left. exact (change_Done _ _ (add_quota (- BLOCK_COST)) _ _ Hm). Qed.

(** What a truncation to 0 leaves. *)
Record emptied (s s' : kw) (ino mount : Z) (x : inode_t) (m : shadowfs_mount_t) (bs : blocks) : Prop := {
  em_file : file_rep s' ino (set_i_size 0 x) [] [];
  em_owned : owned s';
  em_mount : objects s'.2 !! mount = Some (inj (add_quota (- BLOCK_COST * Z.of_nat (length bs)) m));
  em_gone q : q ∈ bs.*1 → objects s'.2 !! q = None;
  em_pages : k_frames s'.1 = pmm_freed (pages bs) (k_frames s.1) ∧ mem (k_vm s'.1) = mem (k_vm s.1);
  em_object q : q ≠ i_private x → q ≠ mount → q ≠ ino → q ∉ bs.*1 → objects s'.2 !! q = objects s.2 !! q }.

Lemma truncate_spec k w ino x bs c mount m :
  owned (k, w) → file_rep (k, w) ino x bs c → mounted (k, w) x mount m → 0 <= m_used m < 2 ^ 32 →
  ∃ s', shadowfs_truncate ino 0 (k, w) = Done 0 s' ∧ emptied (k, w) s' ino mount x m bs.
Proof.
  intros Hown [Hx [Hi0 Hp0] Hty Hbr Hct Hsz] Hm Hmu.
  pose proof Hm as (i & sb & Hsb & Hi & Hsp & Hm0 & Hmo). pose proof Hbr as [(head & Hpriv & Hc) Hpg _ _ _].
  simpl in Hx, Hi, Hmo, Hpriv, Hc.
  unfold shadowfs_truncate. rewrite (proj2 (Z.eqb_neq _ _) Hi0), (bind_Done _ _ _ _ _ (fetch_Done _ _ _ _ Hx)).
  rewrite (proj2 (Z.eqb_neq _ _) Hp0), (bind_Done _ _ _ _ _ (mount_data_Done _ _ _ _ _ Hm)), (proj2 (Z.eqb_neq _ _) Hm0).
  rewrite Hty. cbn [negb Z.eqb VFS_TYPE_FILE]. cbn.
  rewrite (bind_Done _ _ _ _ _ (fetch_Done _ _ _ _ Hpriv)), (bind_Done _ _ _ _ _ (steps_Done _ _)).
  pose proof (chain_size _ _ _ _ Hc) as Hszm.
  destruct (free_blocks_spec _ mount (- BLOCK_COST) (λ k w m, refund_block k w m mount) bs (S (size (objects w)))
    head k w m Hown Hmo Hmu Hc ltac:(lia) Hpg) as (h & f & Hrun & Hown1 & Hm1 & Hg1 & Hq1).
  cbn [s_head]. rewrite (bind_Done _ _ _ _ _ Hrun). clear Hrun. set (k1 := with_heap h _) in *. set (w1 := with_objects f w) in *.
  assert (Hnb : ∀ q, (objects w !! q) ≫= prj (A := shadowfs_block_t) = None → q ∉ bs.*1) by (intros q; apply (not_block _ _ _ q Hbr)).
  assert (Hp1 : objects w1 !! i_private x = Some (inj (SInode head (Z.of_nat (length bs))))).
  { simpl. rewrite Hq1; [done|distinct|apply Hnb; by rewrite Hpriv]. }
  rewrite (bind_Done _ _ _ _ _ (put_Done _ (SInode 0 0) _ k1 w1 Hp1)).
  pose proof (owned_put _ (SInode 0 0) _ _ _ Hown1 Hp1) as Hown2. set (w2 := with_objects _ w1) in *.
  assert (Hx2 : objects w2 !! ino = Some (inj x)).
  { simpl. rewrite lookup_insert_ne by distinct. rewrite Hq1; [done|distinct|apply Hnb; by rewrite Hx]. }
  rewrite (bind_Done _ _ _ _ _ (change_Done _ _ (set_i_size 0) k1 w2 Hx2)).
  pose proof (owned_put _ (set_i_size 0 x) _ _ _ Hown2 Hx2) as Hown3. set (w3 := with_objects _ w2) in *.
  exists (k1, w3). split; [done|]. split; cbn [snd fst].
  - split; [simpl; by rewrite lookup_insert_eq|done|done| |done|done].
    split; [|done|constructor|by intros p ?%not_elem_of_nil|done]. exists 0. split; [|done]. simpl.
    rewrite lookup_insert_ne by distinct. by rewrite lookup_insert_eq.
  - exact Hown3.
  - simpl. rewrite !lookup_insert_ne by distinct. exact Hm1.
  - intros q Hq. simpl. assert (q ≠ ino ∧ q ≠ i_private x) as [H1 H2].
    { split; intros ->; revert Hq; apply Hnb; [by rewrite Hx|by rewrite Hpriv]. }
    rewrite !lookup_insert_ne by congruence. by apply Hg1.
  - done.
  - intros q H1 H2 H3 H4. simpl. rewrite !lookup_insert_ne by congruence. by apply Hq1.
Qed.

End Files.

(** C17. refinement: a shadowFS file is a sequence of bytes. On the chain of
    4096-byte blocks in memory, read delivers the bytes from the file's
    position on, as many as there are up to the size asked for - whatever
    the position, past the end and where position + size overflows 32 bits
    included - and advances the position by as many; write adds its bytes
    behind the last one (not at the position), all of them unless the quota
    is used up, in which case a prefix. It panics only where it has filled
    its last block, has bytes left and quota, and there is no room on the
    heap for the header of another block or no free frame; what it has
    written by then is the prefix. Nothing else limits the size: not the 16 MB
    of SHADOWFS_MAX_FILESIZE, which the code never looks at. Truncation to 0
    leaves no byte and gives back every block and page. None of them touches
    another object or another page in use. *)
Theorem file_is_bytes `{C : Clock} k w ino x bs c file f mount m :
  owned (k, w) → pages_good k → file_rep (k, w) ino x bs c → open_on (k, w) file f ino →
  mounted (k, w) x mount m → 0 <= m_used m < 2 ^ 32 → quota m <= 2 ^ 32 - BLOCK_COST →
  Z.of_nat (length c) < 2 ^ 31 →
  (∀ buf size, buf ≠ 0 → 0 <= size < 2 ^ 32 →
     let bytes := take (Z.to_nat size) (drop (Z.to_nat (position f)) c) in
     ∃ w' t, shadowfs_read file buf size (k, w) = Done (Z.of_nat (length bytes), bytes) (k, w') ∧
       file_rep (k, w') ino (set_accessed t x) bs c ∧
       touched w w' file ino (set_position (u32 (position f + Z.of_nat (length bytes))) f) (set_accessed t x)) ∧
  (∀ buf data, buf ≠ 0 → Forall is_byte data → Z.of_nat (length c) + Z.of_nat (length data) < 2 ^ 31 →
     (∃ msg, shadowfs_write file buf data (k, w) = Panic msg) ∧ runs_out (i_private x) mount (k, w) m bs data ∨
     ∃ (n : nat) s', shadowfs_write file buf data (k, w) = Done (Z.of_nat n) s' ∧ (n <= length data)%nat ∧
       written (k, w) s' ino file mount x (set_position (u32 (position f + Z.of_nat n)) f) m bs (c ++ take n data) ∧
       (n = length data ∨ ∃ m', objects s'.2 !! mount = Some (inj m') ∧ quota m' <= m_used m')) ∧
  (∃ s', shadowfs_truncate ino 0 (k, w) = Done 0 s' ∧ emptied (k, w) s' ino mount x m bs).
Proof.
  intros Hown Hgood Hfile Hopen Hm Hmu Hq Hl. split_and!.
  - intros buf size. by apply read_spec.
  - intros buf data. by apply write_spec.
  - by eapply truncate_spec.
Qed.

(** An empty file "a", open. *)
Definition demo_created : kw :=
  state_of (shadowfs_create (C := demo_clock) demo_root_at (cs "a") VFS_TYPE_FILE demo_rooted_fs).
Definition demo_ino : Z := demo_root_at + 64 + HEADER_SIZE + 16 + HEADER_SIZE.
Definition demo_ino_private : Z := demo_ino + 64 + HEADER_SIZE.
Definition demo_inode : inode_t := new_inode 2 VFS_TYPE_FILE (rtc_now_epoch demo_time) (Some 0%nat) demo_ino_private.
Definition demo_file : file_t := File demo_ino 0 2 1 0.
Definition demo_file_at : Z := demo_ino_private + 16 + HEADER_SIZE + 80 + HEADER_SIZE.
Definition demo_open_file : kw := state_of (new demo_file demo_created).
Definition demo_quota : shadowfs_mount_t := SMount 1000 144 3 0.
Definition demo_written : kw :=
  state_of (shadowfs_write (C := demo_clock) demo_file_at 1 (cs "hi") demo_open_file).

Lemma demo_open_owned : owned demo_open_file.
Proof.
  pose proof (new_inv demo_file demo_created.1 demo_created.2 demo_file_at demo_open_file) as H.
  rewrite <- (surjective_pairing demo_created) in H.
  destruct H as (_ & _ & _ & _ & H); [|vm_compute; reflexivity|exact H].
  apply (framed_owned (shadowfs_create (C := demo_clock) demo_root_at (cs "a") VFS_TYPE_FILE) demo_rooted_fs demo_ino);
    [apply shadow_framed_create|vm_compute; reflexivity|exact demo_rooted_owned].
Qed.

Lemma demo_file_rep : file_rep demo_open_file demo_ino demo_inode [] [].
Proof.
  split; [vm_compute; reflexivity|vm_compute; split; discriminate|reflexivity| |reflexivity|reflexivity].
  split; [|constructor|constructor|by intros p ?%not_elem_of_nil|done].
  exists 0. split; [vm_compute; reflexivity|done].
Qed.

Lemma demo_file_mounted : mounted demo_open_file demo_inode demo_mount demo_quota.
Proof.
  exists 0%nat, (Superblock (cs "/temp") 0 (Some shadowfs_ops) demo_mount 0).
  split_and!; [reflexivity|vm_compute; reflexivity|reflexivity|vm_compute; discriminate|vm_compute; reflexivity].
Qed.

Lemma file_is_bytes_witness :
  shadowfs_write (C := demo_clock) demo_file_at 1 (cs "hi") demo_open_file = Done 2 demo_written ∧
  ∃ bs x, file_rep demo_written demo_ino x bs (cs "hi").
Proof.
  assert (Hrun : shadowfs_write (C := demo_clock) demo_file_at 1 (cs "hi") demo_open_file = Done 2 demo_written)
    by (vm_compute; reflexivity).
  split; [exact Hrun|].
  pose proof (file_is_bytes (C := demo_clock) demo_open_file.1 demo_open_file.2 demo_ino demo_inode [] [] demo_file_at
    demo_file demo_mount demo_quota) as H.
  rewrite <- (surjective_pairing demo_open_file) in H. destruct H as (_ & Hwrite & _).
  - exact demo_open_owned.
  - split; by_compute.
  - exact demo_file_rep.
  - split; [vm_compute; reflexivity|by_compute].
  - exact demo_file_mounted.
  - by_compute.
  - by_compute.
  - by_compute.
  - destruct (Hwrite 1 (cs "hi")) as [[[msg Hp] _]|(n & s' & Hw & _ & Hwn & _)].
    + discriminate.
    + vm_compute. repeat constructor; discriminate.
    + by_compute.
    + rewrite Hrun in Hp. discriminate Hp.
    + rewrite Hrun in Hw. apply Done_inj in Hw as [Hn Hs]. rewrite <- Hs in Hwn. destruct (wn_file _ _ _ _ _ _ _ _ _ _ Hwn) as (bs & x & Hf & _).
      exists bs, x. assert (n = 2%nat) as E by lia. rewrite E in Hf. exact Hf.
Defined.
