(* ===== verification/Devfs.v ===== *)
(** devFS, the device files: file_system/devfs/devfs.c, with the null device
    of drivers/null/null.c.

    The device table and the mount data are static, and fields of [world]. A
    handler is a function pointer: a device holds its address, and [Drivers]
    says what a call of the function at an address does. *)

From S2P Require Import Prelude CString Rtc Heap Paging Process Objects Vfs.

Definition DEVFS_MAX_DEVICES : Z := 16.

(** The functions a device's pointers lead to, and the address the linker
    gives devfs_mount_data. *)
Class Drivers := {
  call_read : Z → Z → Z → Z → M kw (Z * list Z);
  call_write : Z → Z → Z → list Z → M kw Z;
  devfs_mount_data_at : Z }.

Section Devfs.
Context `{D : Drivers}.

(** * Inodes, mounting, registration *)

Definition devfs_create_inode (sb : option nat) (type : Z) (dev : option nat) : M kw Z :=
  inode ← new (Inode 0 0 0 0 0 0 0 0 0 0 None None 0);
  private ← new (DInode None);
  put private (DInode dev) ;;
  put inode (Inode 0 type 0 438 0 0 0 0 0 1 (Some devfs_ops) sb private) ;;
  mret inode.

Definition no_device : devfs_device_t := Device [] None None.

Definition devfs_mount (path : list Z) : M kw Z :=
  in_world (modify (with_devices (DMount 0 DEVFS_MAX_DEVICES 0) (fmap (λ _, no_device)))) ;;
  result ← in_world (vfs_mount path (Some devfs_ops) devfs_mount_data_at);
  if result <? 0 then mret (-1)
  else
    sb ← in_world (gets (λ w, vfs_find_mount w path));
    match sb with
    | None => mret (-1)
    | Some i =>
        root ← devfs_create_inode sb VFS_TYPE_DIR None;
        if root =? 0 then mret (-1)
        else
          in_world (modify (λ w, with_mounts (alter (set_sb_root root) i) (mount_count w) w)) ;;
          in_world (modify (λ w, with_devices
            (DMount (dev_count (devfs_mount_data w)) (capacity (devfs_mount_data w)) root) id w)) ;;
          mret 0
    end.

(** A device is taken from the table in place; a table that is full or a path
    that is not mounted is refused. *)
Definition devfs_register (path name : list Z) (read write : option Z) : M kw Z :=
  m ← in_world (gets devfs_mount_data);
  if capacity m <=? dev_count m then mret (-1)
  else
    sb ← in_world (gets (λ w, vfs_find_mount w path));
    match sb with
    | None => mret (-1)
    | Some _ =>
        let i := Z.to_nat (dev_count m) in
        t ← in_world (gets device_table);
        _ ← access (t !! i);
        in_world (modify (with_devices
          (DMount (u32 (dev_count m + 1)) (capacity m) (dev_root_inode m))
          <[i := Device (kstrcpy_val name VFS_MAX_NAME) read write]>)) ;;
        inode ← devfs_create_inode sb VFS_TYPE_FILE (Some i);
        if inode =? 0 then mret (-1)
        else
          m ← in_world (gets devfs_mount_data);
          change inode (set_inode_num (u32 (dev_count m - 1))) ;;
          mret 0
    end.

(** * Lookup and listing *)

(** for(i = 0; i < count; i++) if(kstreq(device_table[i].name, name)) *)
Fixpoint find_device (n i : nat) (t : list devfs_device_t) (name : list Z) : option (option nat) :=
  match n with
  | O => Some None
  | S n =>
      match t with
      | [] => None
      | d :: t => if bool_decide (dev_name d = name) then Some (Some i) else find_device n (S i) t name
      end
  end.

Definition devfs_lookup (dir : Z) (name : list Z) : M kw Z :=
  if dir =? 0 then mret 0
  else
    d ← fetch inode_t dir;
    m ← in_world (gets devfs_mount_data);
    t ← in_world (gets device_table);
    i ← access (find_device (Z.to_nat (dev_count m)) 0 t name);
    match i with
    | Some i => devfs_create_inode (i_sb d) VFS_TYPE_FILE (Some i)
    | None => mret 0
    end.

Definition devfs_create (dir : Z) (name : list Z) (type : Z) : M kw Z := mret 0.
Definition devfs_open (inode file : Z) : M kw Z := mret 0.
Definition devfs_close (inode file : Z) : M kw Z := mret 0.

(** The device behind a file, if it has one. *)
Definition device_of (file : Z) : M kw (option devfs_device_t) :=
  if file =? 0 then mret None
  else
    f ← fetch file_t file;
    if f_inode f =? 0 then mret None
    else
      x ← fetch inode_t (f_inode f);
      if i_private x =? 0 then mret None
      else
        p ← fetch devfs_inode_t (i_private x);
        match device p with
        | None => mret None
        | Some i => t ← in_world (gets device_table); d ← access (t !! i); mret (Some d)
        end.

Definition devfs_read (file buffer size : Z) : M kw (Z * list Z) :=
  d ← device_of file;
  match d ≫= dev_read with
  | None => mret (-1, [])
  | Some read => call_read read file buffer size
  end.

Definition devfs_write (file buffer : Z) (data : list Z) : M kw Z :=
  d ← device_of file;
  match d ≫= dev_write with
  | None => mret (-1)
  | Some write => call_write write file buffer data
  end.

Definition devfs_readdir (file : Z) (dentry : option dentry_t) : M kw (Z * option dentry_t) :=
  if (file =? 0) || bool_decide (dentry = None) then mret (-1, dentry)
  else
    f ← fetch file_t file;
    m ← in_world (gets devfs_mount_data);
    if dev_count m <=? position f then mret (0, dentry)
    else
      t ← in_world (gets device_table);
      d ← access (t !! Z.to_nat (position f));
      change file (λ f, set_position (u32 (position f + 1)) f) ;;
      mret (1, Some (Dentry (kstrcpy_val (dev_name d) VFS_MAX_NAME) 0 VFS_TYPE_FILE)).

Definition devfs_table : fs_ops :=
  FsOps (Some devfs_lookup) (Some devfs_create) None None (Some devfs_open) (Some devfs_close)
    (Some devfs_read) (Some devfs_write) (Some devfs_readdir) None.

End Devfs.

(** * The null device *)

Definition dev_null_read (file buffer size : Z) : M kw (Z * list Z) := mret (0, []).
Definition dev_null_write (file buffer : Z) (data : list Z) : M kw Z := mret (i32 (Z.of_nat (length data))).

(** * devFS obeys the laws of a file system, when its drivers do *)

Class DriverLaws `{D : Drivers} : Prop := {
  law_call_read a p b n : framed (call_read a p b n);
  law_call_write a p b d : framed (call_write a p b d) }.

Section Framed.
Context `{L : DriverLaws}.

Lemma framed_devfs_create_inode sb type dev : framed (devfs_create_inode sb type dev).
Proof. unfold devfs_create_inode. framed. Qed.
Hint Resolve framed_devfs_create_inode law_call_read law_call_write : framed.

Lemma framed_devfs_lookup dir name : framed (devfs_lookup dir name).
Proof. unfold devfs_lookup. framed. Qed.

Lemma framed_device_of file : framed (device_of file).
Proof. unfold device_of. framed. Qed.
Hint Resolve framed_device_of : framed.

Lemma framed_devfs_read file buffer size : framed (devfs_read file buffer size).
Proof. unfold devfs_read. framed. Qed.

Lemma framed_devfs_write file buffer data : framed (devfs_write file buffer data).
Proof. unfold devfs_write. framed. Qed.

Lemma framed_next_position file : framed (change file (λ f, set_position (u32 (position f + 1)) f)).
Proof. by apply framed_change_file. Qed.
Hint Resolve framed_next_position : framed.

Lemma framed_devfs_readdir file dentry : framed (devfs_readdir file dentry).
Proof. unfold devfs_readdir. framed. Qed.

End Framed.

(** * The device table *)

(** The devices registered, in order. *)
Definition devices (w : world) : list devfs_device_t :=
  take (Z.to_nat (dev_count (devfs_mount_data w))) (device_table w).

Record devfs_ok (w : world) : Prop := {
  devfs_capacity : capacity (devfs_mount_data w) = DEVFS_MAX_DEVICES;
  devfs_slots : length (device_table w) = 16%nat;
  devfs_count : 0 <= dev_count (devfs_mount_data w) <= 16 }.

(** The inode [p] is a file of device [i]. *)
Definition device_inode (s : kw) (p : Z) (i : nat) : Prop :=
  ∃ x : inode_t, objects s.2 !! p = Some (inj x) ∧ i_type x = VFS_TYPE_FILE ∧ i_ops x = Some devfs_ops ∧
    i_private x ≠ 0 ∧ objects s.2 !! i_private x = Some (inj (DInode (Some i))).

(** The first device called [name]. *)
Definition device_named (name : list Z) (l : list devfs_device_t) : option (nat * devfs_device_t) :=
  list_find (λ d, dev_name d = name) l.

Lemma find_device_spec name n : ∀ i t, (n <= length t)%nat →
  find_device n i t name = Some ((λ r, (i + r.1)%nat) <$> device_named name (take n t)).
Proof.
  unfold device_named. induction n as [|n IH]; intros i [|d t]; simpl; try done; [lia|].
  intros Hn. case_bool_decide as Hd; [rewrite decide_True by done; simpl; by rewrite Nat.add_0_r|].
  rewrite decide_False by done. rewrite IH by lia. f_equal. destruct (list_find _ _) as [[j e]|]; simpl; [|done].
  f_equal. lia.
Qed.

Section Spec.
Context `{D : Drivers}.

Lemma devfs_create_inode_spec sb i k w : owned (k, w) →
  devfs_create_inode sb VFS_TYPE_FILE (Some i) (k, w) = Panic out_of_memory ∨
  ∃ p s', devfs_create_inode sb VFS_TYPE_FILE (Some i) (k, w) = Done p s' ∧ adds_inode (k, w) s' p ∧
    device_inode s' p i ∧ device_table s'.2 = device_table w ∧ devfs_mount_data s'.2 = devfs_mount_data w.
Proof.
  intros Hown.
  destruct (new_inode_spec (Inode 0 0 0 0 0 0 0 0 0 0 None None 0) (DInode None) (DInode (Some i))
    (λ pr, Inode 0 VFS_TYPE_FILE 0 438 0 0 0 0 0 1 (Some devfs_ops) sb pr) k w Hown)
    as [H|(p & pr & h & w' & H & -> & Ho & Hp & Hpr & Hne & Hf1 & Hf2)]; [by left|right].
  exists p, (with_heap h k, with_objects
    (λ o, <[pr := inj (DInode (Some i))]> (<[p := inj (Inode 0 VFS_TYPE_FILE 0 438 0 0 0 0 0 1 (Some devfs_ops) sb pr)]> o)) w).
  split; [exact H|]. split; [split; try done|].
  - simpl. intros q o Hq. rewrite !lookup_insert_ne; [done|congruence..].
  - split; [|done]. exists (Inode 0 VFS_TYPE_FILE 0 438 0 0 0 0 0 1 (Some devfs_ops) sb pr). simpl.
    rewrite lookup_insert_ne, !lookup_insert_eq by done. by split_and!.
Qed.

Lemma register_refused path name r wr k w :
  devfs_ok w → dev_count (devfs_mount_data w) = 16 ∨ vfs_find_mount w path = None →
  devfs_register path name r wr (k, w) = Done (-1) (k, w).
Proof.
  intros [Hc _ Hn] Href. unfold devfs_register, in_world, zoom. run. simpl. rewrite Hc. unfold DEVFS_MAX_DEVICES.
  destruct Href as [-> |Hf]; [done|]. destruct (16 <=? _); [done|]. simpl. by rewrite Hf.
Qed.

Lemma register_spec path name r wr i k w :
  owned (k, w) → devfs_ok w → dev_count (devfs_mount_data w) < 16 → vfs_find_mount w path = Some i →
  devfs_register path name r wr (k, w) = Panic out_of_memory ∨
  ∃ s', devfs_register path name r wr (k, w) = Done 0 s' ∧ owned s' ∧ devfs_ok s'.2 ∧
    devices s'.2 = devices w ++ [Device (kstrcpy_val name VFS_MAX_NAME) r wr] ∧
    mount_table s'.2 = mount_table w ∧ mount_count s'.2 = mount_count w ∧ file_table s'.2 = file_table w ∧
    (∀ q o, objects w !! q = Some o → objects s'.2 !! q = Some o) ∧
    k_sched s'.1 = k_sched k ∧ k_vm s'.1 = k_vm k.
Proof.
  intros Hown [Hc Hl Hn] Hlt Hf. unfold devfs_register.
  rewrite (bind_Done _ _ (k, w) (devfs_mount_data w) (k, w)) by done. rewrite Hc. unfold DEVFS_MAX_DEVICES.
  rewrite (proj2 (Z.leb_gt _ _)) by lia.
  rewrite (bind_Done _ _ (k, w) (Some i) (k, w)) by (rewrite <- Hf; done).
  cbv zeta. rewrite (bind_Done _ _ (k, w) (device_table w) (k, w)) by done.
  set (c := Z.to_nat (dev_count (devfs_mount_data w))).
  destruct (lookup_lt_is_Some_2 (device_table w) c) as [d0 Hd0]; [lia|].
  rewrite (bind_Done _ _ (k, w) d0 (k, w)) by (rewrite Hd0; done).
  set (d := Device _ r wr).
  set (w1 := with_devices (DMount (u32 (dev_count (devfs_mount_data w) + 1)) 16 (dev_root_inode (devfs_mount_data w)))
               <[c := d]> w).
  rewrite (bind_Done _ _ (k, w) tt (k, w1)) by done.
  destruct (devfs_create_inode_spec (Some i) c k w1) as [H|(p & [k' w'] & H & Ha & (x & Hx & Hx') & Ht & Hm)];
    [exact Hown|left; by apply bind_Panic|right].
  rewrite (bind_Done _ _ _ _ _ H). destruct Ha as [Ho Hp Hfr Hk Hmt Hfi Hke]. rewrite (proj2 (Z.eqb_neq _ _) Hp).
  rewrite (bind_Done _ _ (k', w') (devfs_mount_data w') (k', w')) by done.
  rewrite (bind_Done _ _ _ _ _ (change_Done _ _ _ k' w' Hx)).
  eexists. split; [reflexivity|]. split; [by eapply owned_put|].
  assert (Hdv : devices w1 = devices w ++ [d]).
  { unfold devices. simpl. rewrite u32_small by lia.
    replace (Z.to_nat (dev_count (devfs_mount_data w) + 1)) with (S c) by lia. fold c.
    rewrite (take_S_r _ _ d) by (apply list_lookup_insert_eq; lia). by rewrite take_insert_ge by lia. }
  simpl in *. split; [|split_and!; try done].
  - split; simpl; rewrite ?Hm, ?Ht; simpl; [done|by rewrite length_insert|]. rewrite u32_small; lia.
  - unfold devices in *. simpl. by rewrite Ht, Hm.
  - apply Hmt.
  - apply Hmt.
  - intros q o Hq. rewrite lookup_insert_ne; [by apply Hk|]. intros ->. simpl in Hfr. congruence.
  - apply Hke.
  - apply Hke.
Qed.

Lemma devfs_lookup_spec dir d name k w :
  owned (k, w) → devfs_ok w → dir ≠ 0 → objects w !! dir = Some (inj (A := inode_t) d) →
  match device_named name (devices w) with
  | None => devfs_lookup dir name (k, w) = Done 0 (k, w)
  | Some (i, _) =>
      devfs_lookup dir name (k, w) = Panic out_of_memory ∨
      ∃ p s', devfs_lookup dir name (k, w) = Done p s' ∧ adds_inode (k, w) s' p ∧ device_inode s' p i ∧
        device_table s'.2 = device_table w ∧ devfs_mount_data s'.2 = devfs_mount_data w
  end.
Proof.
  intros Hown [Hc Hl Hn] Hd0 Hd. unfold devices.
  pose proof (find_device_spec name (Z.to_nat (dev_count (devfs_mount_data w))) 0 (device_table w) ltac:(lia)) as Hfd.
  assert (Hstep : devfs_lookup dir name (k, w) =
    match device_named name (take (Z.to_nat (dev_count (devfs_mount_data w))) (device_table w)) with
    | Some (i, _) => devfs_create_inode (i_sb d) VFS_TYPE_FILE (Some i) (k, w) | None => Done 0 (k, w) end).
  { unfold devfs_lookup. rewrite (proj2 (Z.eqb_neq _ _) Hd0), (bind_Done _ _ _ _ _ (fetch_Done _ _ _ _ Hd)).
    rewrite (bind_Done _ _ (k, w) (devfs_mount_data w) (k, w)) by done.
    rewrite (bind_Done _ _ (k, w) (device_table w) (k, w)) by done. rewrite Hfd. by destruct (device_named _ _) as [[]|]. }
  rewrite Hstep. destruct (device_named _ _) as [[i e]|]; [|done]. by apply devfs_create_inode_spec.
Qed.

(** Reading and writing a file of device [i] are calls of its handlers. *)
Lemma device_io_spec file f i d k w :
  file ≠ 0 → f_inode f ≠ 0 → objects w !! file = Some (inj f) → device_inode (k, w) (f_inode f) i →
  device_table w !! i = Some d → device_of file (k, w) = Done (Some d) (k, w).
Proof.
  intros H0 Hi0 Hf (x & Hx & _ & _ & Hp0 & Hp) Hd. unfold device_of. simpl in Hx, Hp.
  rewrite (proj2 (Z.eqb_neq _ _) H0), (bind_Done _ _ _ _ _ (fetch_Done _ _ _ _ Hf)), (proj2 (Z.eqb_neq _ _) Hi0).
  rewrite (bind_Done _ _ _ _ _ (fetch_Done _ _ _ _ Hx)), (proj2 (Z.eqb_neq _ _) Hp0).
  rewrite (bind_Done _ _ _ _ _ (fetch_Done _ _ _ _ Hp)). cbn [device].
  rewrite (bind_Done _ _ (k, w) (device_table w) (k, w)) by done. by rewrite Hd.
Qed.

Lemma devfs_readdir_spec file f dentry k w :
  devfs_ok w → file ≠ 0 → objects w !! file = Some (inj f) → 0 <= position f →
  devfs_readdir file (Some dentry) (k, w) =
  match devices w !! Z.to_nat (position f) with
  | Some d => Done (1, Some (Dentry (kstrcpy_val (dev_name d) VFS_MAX_NAME) 0 VFS_TYPE_FILE))
                (k, with_objects <[file := inj (set_position (u32 (position f + 1)) f)]> w)
  | None => Done (0, Some dentry) (k, w)
  end.
Proof.
  intros [Hc Hl Hn] H0 Hf Hp. unfold devfs_readdir. rewrite (proj2 (Z.eqb_neq _ _) H0), bool_decide_false by done.
  cbn [orb]. rewrite (bind_Done _ _ _ _ _ (fetch_Done _ _ _ _ Hf)).
  rewrite (bind_Done _ _ (k, w) (devfs_mount_data w) (k, w)) by done. unfold devices.
  destruct (Z.leb_spec (dev_count (devfs_mount_data w)) (position f)).
  - by rewrite lookup_take_ge by lia.
  - rewrite lookup_take_lt by lia. destruct (lookup_lt_is_Some_2 (device_table w) (Z.to_nat (position f))) as [d Hd]; [lia|].
    rewrite (bind_Done _ _ (k, w) (device_table w) (k, w)) by done. rewrite Hd.
    rewrite (bind_Done _ _ (k, w) d (k, w)) by done. by rewrite (bind_Done _ _ _ _ _ (change_Done _ _ _ k w Hf)).
Qed.

End Spec.

(** C34. refinement: devFS is the list of the devices registered. Registering
    adds a device at the end, with its name cut to 63 characters, and is
    refused without effect when all 16 slots are taken or the path is not
    mounted; a lookup gives a fresh inode of the first device of that name,
    disturbing no other object, and null for other names; reading and writing
    a file of a device are exactly the calls of its handlers, and -1 where it
    has none; readdir gives the names in order. *)
Theorem device_files_exact `{D : Drivers} k w :
  owned (k, w) → devfs_ok w →
  (∀ path name r wr, dev_count (devfs_mount_data w) = 16 ∨ vfs_find_mount w path = None →
     devfs_register path name r wr (k, w) = Done (-1) (k, w)) ∧
  (∀ path name r wr i, dev_count (devfs_mount_data w) < 16 → vfs_find_mount w path = Some i →
     devfs_register path name r wr (k, w) = Panic out_of_memory ∨
     ∃ s', devfs_register path name r wr (k, w) = Done 0 s' ∧ owned s' ∧ devfs_ok s'.2 ∧
       devices s'.2 = devices w ++ [Device (kstrcpy_val name VFS_MAX_NAME) r wr] ∧
       (∀ q o, objects w !! q = Some o → objects s'.2 !! q = Some o)) ∧
  (∀ dir (d : inode_t) name, dir ≠ 0 → objects w !! dir = Some (inj d) →
     match device_named name (devices w) with
     | None => devfs_lookup dir name (k, w) = Done 0 (k, w)
     | Some (i, _) =>
         devfs_lookup dir name (k, w) = Panic out_of_memory ∨
         ∃ p s', devfs_lookup dir name (k, w) = Done p s' ∧ adds_inode (k, w) s' p ∧ device_inode s' p i ∧
           devices s'.2 = devices w
     end) ∧
  (∀ file f i dev, file ≠ 0 → f_inode f ≠ 0 → objects w !! file = Some (inj f) →
     device_inode (k, w) (f_inode f) i → devices w !! i = Some dev →
     (∀ buf n, devfs_read file buf n (k, w) =
        match dev_read dev with Some a => call_read a file buf n (k, w) | None => Done (-1, []) (k, w) end) ∧
     (∀ buf data, devfs_write file buf data (k, w) =
        match dev_write dev with Some a => call_write a file buf data (k, w) | None => Done (-1) (k, w) end)) ∧
  (∀ file f dentry, file ≠ 0 → objects w !! file = Some (inj f) → 0 <= position f →
     devfs_readdir file (Some dentry) (k, w) =
     match devices w !! Z.to_nat (position f) with
     | Some d => Done (1, Some (Dentry (kstrcpy_val (dev_name d) VFS_MAX_NAME) 0 VFS_TYPE_FILE))
                   (k, with_objects <[file := inj (set_position (u32 (position f + 1)) f)]> w)
     | None => Done (0, Some dentry) (k, w)
     end).
Proof.
  intros Hown Hok. split_and!.
  - intros path name r wr. by apply register_refused.
  - intros path name r wr i Hlt Hf.
    destruct (register_spec path name r wr i k w Hown Hok Hlt Hf) as [H|(s' & H & ? & ? & ? & _ & _ & _ & ? & _)];
      [by left|right; by exists s'].
  - intros dir d name H0 Hd. pose proof (devfs_lookup_spec dir d name k w Hown Hok H0 Hd) as H.
    destruct (device_named _ _) as [[i e]|]; [|done]. destruct H as [H|(p & s' & H & Ha & Hi & Ht & Hm)]; [by left|right].
    exists p, s'. split_and!; [done..|]. unfold devices. by rewrite Ht, Hm.
  - intros file f i dev H0 Hi0 Hf Hi Hdev. apply lookup_take_Some in Hdev as [Hdev _].
    pose proof (device_io_spec _ _ _ _ _ _ H0 Hi0 Hf Hi Hdev) as H. split.
    + intros buf n. unfold devfs_read. rewrite (bind_Done _ _ _ _ _ H). simpl. by destruct (dev_read dev).
    + intros buf data. unfold devfs_write. rewrite (bind_Done _ _ _ _ _ H). simpl. by destruct (dev_write dev).
  - intros file f dentry. by apply devfs_readdir_spec.
Qed.

(** devFS mounted at /devices with the null device's handlers at 1000 and 2000. *)
Definition demo_drivers : Drivers := {|
  call_read a p b n := if a =? 1000 then dev_null_read p b n else fault;
  call_write a p b d := if a =? 2000 then dev_null_write p b d else fault;
  devfs_mount_data_at := 3000 |}.

Definition demo_table : world := with_devices (DMount 0 16 0) (λ _, replicate 16 no_device) demo_start.
Definition demo_dev_root : kw := state_of (devfs_create_inode (Some 0%nat) VFS_TYPE_DIR None (demo_kernel, demo_table)).
Definition demo_devfs : kw :=
  (demo_dev_root.1, with_mounts <[0%nat := Superblock (cs "/devices") demo_address (Some devfs_ops) 3000 0]> 1 demo_dev_root.2).

Lemma demo_devfs_owned : owned demo_devfs.
Proof.
  apply (owned_ext demo_dev_root); [|reflexivity|reflexivity].
  destruct (framed_devfs_create_inode (Some 0%nat) VFS_TYPE_DIR None (demo_kernel, demo_table) demo_address demo_dev_root)
    as [H _ _ _]; [vm_compute; reflexivity|]. apply H.
  apply (owned_ext (demo_kernel, demo_start)); [apply demo_owned|reflexivity|reflexivity].
Qed.

Lemma demo_devfs_ok : devfs_ok demo_devfs.2.
Proof. split; [vm_compute; reflexivity|vm_compute; reflexivity|by_compute]. Qed.

Lemma device_files_exact_witness :
  ∃ s', devfs_register (cs "/devices") (cs "null") (Some 1000) (Some 2000) demo_devfs = Done 0 s' ∧
    devices s'.2 = [Device (cs "null") (Some 1000) (Some 2000)].
Proof.
  pose proof (device_files_exact (D := demo_drivers) demo_devfs.1 demo_devfs.2) as H.
  rewrite <- (surjective_pairing demo_devfs) in H. destruct H as (_ & H & _).
  - exact demo_devfs_owned.
  - exact demo_devfs_ok.
  - destruct (H (cs "/devices") (cs "null") (Some 1000) (Some 2000) 0%nat) as [Hp|(s' & Hrun & _ & _ & Hd & _)].
    + by_compute.
    + vm_compute. reflexivity.
    + vm_compute in Hp. discriminate Hp.
    + exists s'. split; [exact Hrun|]. rewrite Hd. vm_compute. reflexivity.
Defined.
