(* ===== verification/Procfs.v ===== *)
(** procFS, the files about processes: file_system/procfs/procfs.c.

    The contents are made when they are read, by ksnprintf() (see Kprintf)
    into an uninitialised local of 512 bytes, whose content is the parameter
    [Scratch]. The name an inode holds is given by its content. *)

From S2P Require Import Prelude CString Rtc Pmm Heap Kprintf Paging Sched Process Objects Vfs.

Class Scratch := procfs_temp : list Z.

Section Procfs.
Context `{T : Scratch}.

(** * Inodes and mounting *)

Definition procfs_create_inode (sb : option nat) (type : Z) (procfs_type : procfs_inode_type_t)
    (pid : Z) (name : list Z) : M kw Z :=
  inode ← new (Inode 0 0 0 0 0 0 0 0 0 0 None None 0);
  private ← new (PInode PROCFS_ROOT 0 []);
  put private (PInode procfs_type pid name) ;;
  put inode (Inode 0 type 0 292 0 0 0 0 0 1 (Some procfs_ops) sb private) ;;
  mret inode.

Definition procfs_mount (path : list Z) : M kw Z :=
  result ← in_world (vfs_mount path (Some procfs_ops) 0);
  if result <? 0 then mret (-1)
  else
    sb ← in_world (gets (λ w, vfs_find_mount w path));
    match sb with
    | None => mret (-1)
    | Some i =>
        root ← procfs_create_inode sb VFS_TYPE_DIR PROCFS_ROOT 0 (cs "process");
        if root =? 0 then mret (-1)
        else
          in_world (modify (λ w, with_mounts (alter (set_sb_root root) i) (mount_count w) w)) ;;
          mret 0
    end.

(** * Lookup *)

(** while(p is a digit) pid = pid * 10 + digit: the number and the rest of the name. *)
Fixpoint parse_pid (name : list Z) (pid : Z) : Z * list Z :=
  match name with
  | c :: rest => if (48 <=? c) && (c <=? 57) then parse_pid rest (u64 (pid * 10 + (c - 48))) else (pid, name)
  | [] => (pid, [])
  end.

Definition lookup_root (sb : option nat) (name : list Z) : M kw Z :=
  if bool_decide (name = cs "meminfo") then procfs_create_inode sb VFS_TYPE_FILE PROCFS_INFO_FILE 0 (cs "meminfo")
  else if bool_decide (name = cs "mounts") then procfs_create_inode sb VFS_TYPE_FILE PROCFS_INFO_FILE 0 (cs "mounts")
  else
    let '(pid, rest) := parse_pid name 0 in
    if bool_decide (rest = []) then
      t ← in_kernel (in_sched (gets process_table));
      r ← in_kernel (find_process (λ x, p_pid x =? pid) 0 t);
      match r with
      | Some _ => procfs_create_inode sb VFS_TYPE_DIR PROCFS_PID_DIR pid name
      | None => mret 0
      end
    else mret 0.

Definition lookup_pid (sb : option nat) (pid : Z) (name : list Z) : M kw Z :=
  if bool_decide (name = cs "status") then procfs_create_inode sb VFS_TYPE_FILE PROCFS_PID_FILE pid (cs "status")
  else if bool_decide (name = cs "memory") then procfs_create_inode sb VFS_TYPE_FILE PROCFS_PID_FILE pid (cs "memory")
  else if bool_decide (name = cs "files") then procfs_create_inode sb VFS_TYPE_FILE PROCFS_PID_FILE pid (cs "files")
  else mret 0.

Definition procfs_lookup (dir : Z) (name : list Z) : M kw Z :=
  if dir =? 0 then mret 0
  else
    d ← fetch inode_t dir;
    if i_private d =? 0 then mret 0
    else
      p ← fetch procfs_inode_t (i_private d);
      match pr_type p with
      | PROCFS_ROOT => lookup_root (i_sb d) name
      | PROCFS_PID_DIR => lookup_pid (i_sb d) (pr_pid p) name
      | _ => mret 0
      end.

(** * Listing *)

(** The name of a PID, digit by digit into temp[20]. *)
Definition pid_name (pid : Z) : option (list Z) :=
  if pid =? 0 then Some [48]
  else temp ← dec_loop 20 pid []; Some (reverse temp).

(** The process in the slot that is number [pid_index] of those in use. *)
Fixpoint nth_process (t : list Z) (found pid_index : Z) : option Z :=
  match t with
  | [] => None
  | p :: t =>
      if p =? 0 then nth_process t found pid_index
      else if found =? pid_index then Some p
      else nth_process t (u32 (found + 1)) pid_index
  end.

Definition pid_files : list (option (list Z)) :=
  [Some (cs "status"); Some (cs "memory"); Some (cs "files"); None].

(** dentry->name and dentry->type are written, dentry->inode is left. *)
Definition list_entry (file : Z) (dentry : dentry_t) (name : list Z) (type : Z) : M kw (Z * option dentry_t) :=
  change file (λ f, set_position (u32 (position f + 1)) f) ;;
  mret (1, Some (Dentry name (d_inode dentry) type)).

Definition readdir_root (file position : Z) (dentry : dentry_t) : M kw (Z * option dentry_t) :=
  if position =? 0 then list_entry file dentry (kstrcpy_val (cs "meminfo") VFS_MAX_NAME) VFS_TYPE_FILE
  else if position =? 1 then list_entry file dentry (kstrcpy_val (cs "mounts") VFS_MAX_NAME) VFS_TYPE_FILE
  else
    t ← in_kernel (in_sched (gets process_table));
    match nth_process t 0 (u32 (position - 2)) with
    | None => mret (0, Some dentry)
    | Some p =>
        x ← in_kernel (in_sched (deref p));
        name ← access (pid_name (p_pid x));
        list_entry file dentry name VFS_TYPE_DIR
    end.

Definition procfs_readdir (file : Z) (dentry : option dentry_t) : M kw (Z * option dentry_t) :=
  match dentry with
  | None => mret (-1, dentry)
  | Some d =>
      if file =? 0 then mret (-1, dentry)
      else
        f ← fetch file_t file;
        x ← fetch inode_t (f_inode f);
        p ← fetch procfs_inode_t (i_private x);
        match pr_type p with
        | PROCFS_ROOT => readdir_root file (position f) d
        | PROCFS_PID_DIR =>
            name ← access (pid_files !! Z.to_nat (position f));
            match name with
            | None => mret (0, dentry)
            | Some name => list_entry file d (kstrcpy_val name VFS_MAX_NAME) VFS_TYPE_FILE
            end
        | _ => mret (0, dentry)
        end
  end.

Definition procfs_open (inode file : Z) : M kw Z := mret 0.
Definition procfs_close (inode file : Z) : M kw Z := mret 0.

(** * Contents *)

(** ksnprintf(temp, sizeof(temp), fmt, ...): the buffer and the length. *)
Definition print (fmt : list Z) (args : list arg) : M kw (list Z * Z) := λ s,
  match ksnprintf procfs_temp 512 (fmt ++ [0]) args with
  | Done r _ => Done r s
  | Panic msg => Panic msg
  | Fault => Fault
  | Diverge => Diverge
  end.

Definition line (s : string) : list Z := cs s ++ [10].

Definition state_name (st : process_state_t) : list Z :=
  match st with
  | PROCESS_READY => cs "ready"
  | PROCESS_RUNNING => cs "running"
  | PROCESS_BLOCKED => cs "blocked"
  | PROCESS_DEAD => cs "dead"
  | PROCESS_SLEEPING => cs "sleeping"
  end.

Definition info_text (name : list Z) : M kw (list Z * Z) :=
  if bool_decide (name = cs "meminfo") then
    free_pages ← in_kernel (in_vm (in_pmm (gets pmm_free_pages)));
    used_pages ← in_kernel (in_vm (in_pmm (gets pmm_used_pages)));
    let total_pages := u64 (free_pages + used_pages) in
    print (line "MemTotal:  %lu KB" ++ line "MemFree:   %lu KB" ++ line "MemUsed:   %lu KB")
      [AInt (u64 (total_pages * 4)); AInt (u64 (free_pages * 4)); AInt (u64 (used_pages * 4))]
  else if bool_decide (name = cs "mounts") then
    print (line "/temp        shadowFS" ++ line "/devices     devFS" ++ line "/process     procFS") []
  else mret (procfs_temp, 0).

Definition pid_text (pid : Z) (name : list Z) : M kw (list Z * Z) :=
  t ← in_kernel (in_sched (gets process_table));
  r ← in_kernel (find_process (λ x, p_pid x =? pid) 0 t);
  match r with
  | None => print (line "Process not found") []
  | Some (_, p) =>
      x ← in_kernel (in_sched (deref p));
      if bool_decide (name = cs "status") then
        print (line "Name:      %s" ++ line "PID:       %lu" ++ line "Parent:    %lu" ++ line "State:     %s")
          [AStr (Some (p_name x)); AInt (p_pid x); AInt (p_parent_pid x); AStr (Some (state_name (p_state x)))]
      else if bool_decide (name = cs "memory") then
        print (line "Stack:     0x%lx" ++ line "StackTop:  0x%lx") [AInt (p_stack x); AInt (p_stack_top x)]
      else if bool_decide (name = cs "files") then print (line "fd table not yet per-process") []
      else mret (procfs_temp, 0)
  end.

(** temp[position], ..., temp[position + n - 1] *)
Definition slice (temp : list Z) (position n : Z) : option (list Z) :=
  mapM (λ i, temp !! Z.to_nat (position + i)) (seqZ 0 n).

Definition procfs_read (file buffer size : Z) : M kw (Z * list Z) :=
  if (file =? 0) || (buffer =? 0) then mret (-1, [])
  else
    f ← fetch file_t file;
    x ← fetch inode_t (f_inode f);
    if i_private x =? 0 then mret (-1, [])
    else
      p ← fetch procfs_inode_t (i_private x);
      '(temp, length) ← match pr_type p with
        | PROCFS_INFO_FILE => info_text (pr_name p)
        | PROCFS_PID_FILE => pid_text (pr_pid p) (pr_name p)
        | _ => mret (procfs_temp, 0)
        end;
      if u32 length <=? position f then mret (0, [])
      else
        let available := u32 (length - position f) in
        let to_copy := if size <? available then size else available in
        bytes ← access (slice temp (position f) to_copy);
        change file (λ f, set_position (u32 (position f + to_copy)) f) ;;
        mret (i32 to_copy, bytes).

Definition procfs_table : fs_ops :=
  FsOps (Some procfs_lookup) None None None (Some procfs_open) (Some procfs_close)
    (Some procfs_read) None (Some procfs_readdir) None.

End Procfs.

(** * procFS obeys the laws of a file system *)

Section Framed.
Context `{T : Scratch}.

Lemma framed_procfs_create_inode sb type ty pid name : framed (procfs_create_inode sb type ty pid name).
Proof. unfold procfs_create_inode. framed. Qed.
Hint Resolve framed_procfs_create_inode : framed.

Lemma framed_find_process f i t : framed (in_kernel (find_process f i t)).
Proof.
  intros [k w] r s' (k' & H & ->)%zoom_Done_inv. apply find_process_spec in H as [-> _]. done.
Qed.
Hint Resolve framed_find_process : framed.

Lemma framed_procfs_lookup dir name : framed (procfs_lookup dir name).
Proof. unfold procfs_lookup, lookup_root, lookup_pid. framed. Qed.

Lemma framed_list_entry file d name type : framed (list_entry file d name type).
Proof. unfold list_entry. apply framed_bind; [by apply framed_change_file|]. framed. Qed.
Hint Resolve framed_list_entry : framed.

Lemma framed_procfs_readdir file dentry : framed (procfs_readdir file dentry).
Proof. unfold procfs_readdir, readdir_root. framed. Qed.

Lemma framed_print fmt args : framed (print fmt args).
Proof. intros s r s'. unfold print. destruct (ksnprintf _ _ _ _); [|done..]. by intros [= <- <-]. Qed.
Hint Resolve framed_print : framed.

Lemma framed_procfs_read file buffer size : framed (procfs_read file buffer size).
Proof.
  unfold procfs_read, info_text, pid_text. framed. by apply framed_change_file.
Qed.

End Framed.

(** * Names of processes *)

Lemma dec_of_pid n : 0 <= n < 2 ^ 64 →
  pid_name n = Some (dec_of n) ∧ is_decimal n (dec_of n) ∧ (length (dec_of n) <= 20)%nat.
Proof.
  intros Hn. destruct (uint64_to_dec_spec n Hn) as (ds & Hds & Hval & Hlen).
  change (pid_name n) with (uint64_to_dec n). unfold dec_of.
  rewrite (proj2 (Z.ltb_ge n 0)), Z.abs_eq, Hds by lia. done.
Qed.

Lemma parse_pid_digits ds : ∀ v, 0 <= v < 2 ^ 64 → Forall is_dec ds →
  parse_pid ds v = (u64 (v * 10 ^ Z.of_nat (length ds) + digits_val 10 ds), []).
Proof.
  induction ds as [|d ds IH]; intros v Hv Hd; cbn [parse_pid].
  - change (digits_val 10 []) with 0. simpl. rewrite u64_small by lia. f_equal. lia.
  - apply list.Forall_cons in Hd as [Hd Hds]. unfold is_dec in Hd.
    rewrite (proj2 (Z.leb_le 48 d)), (proj2 (Z.leb_le d 57)) by lia. cbn [andb].
    rewrite IH by (first [done | unfold u64; apply Z.mod_pos_bound; lia]). f_equal.
    unfold digits_val at 2. cbn [foldl]. rewrite foldl_digits. unfold digit_val at 1.
    rewrite (proj2 (Z.ltb_lt d 58)) by lia. cbn [length]. rewrite Nat2Z.inj_succ, Z.pow_succ_r by lia.
    unfold u64. rewrite Z.add_mod, Z.mul_mod_idemp_l, <- Z.add_mod by lia. f_equal. lia.
Qed.

Lemma parse_pid_rest name : ∀ v, ¬ Forall is_dec name → (parse_pid name v).2 ≠ [].
Proof.
  induction name as [|c name IH]; intros v H; cbn [parse_pid]; [by destruct H|].
  destruct (Z.leb_spec 48 c); [|done]. destruct (Z.leb_spec c 57); [|done]. cbn [andb].
  apply IH. intros Hn. apply H. constructor; [unfold is_dec; lia|done].
Qed.

(** * The processes in the table *)

Definition live_in (k : kernel) (t : list Z) : list process_t :=
  omap (λ p, procs (k_sched k) !! p) (filter (λ p, p ≠ 0) t).

Definition live (k : kernel) : list process_t := live_in k (process_table (k_sched k)).

Definition all_live (k : kernel) (t : list Z) : Prop := ∀ p, p ∈ t → p ≠ 0 → is_Some (procs (k_sched k) !! p).

Lemma all_live_cons k p t : all_live k (p :: t) → (p ≠ 0 → is_Some (procs (k_sched k) !! p)) ∧ all_live k t.
Proof. intros H. split; [apply H; by left|]. intros q Hq. apply H. by right. Qed.

Lemma live_in_cons k p t : live_in k (p :: t) =
  if decide (p = 0) then live_in k t else option_list (procs (k_sched k) !! p) ++ live_in k t.
Proof.
  unfold live_in. rewrite filter_cons. case_decide; case_decide; try done; simpl. by destruct (_ !! p).
Qed.

Lemma find_process_live f t k : ∀ i, all_live k t →
  ∃ r, find_process f i t k = Done r k ∧
    (r ≫= λ jp, procs (k_sched k) !! jp.2) = List.find f (live_in k t).
Proof.
  induction t as [|p t IH]; intros i Ht; [by exists None|]. apply all_live_cons in Ht as [Hp Ht].
  cbn [find_process]. rewrite live_in_cons. destruct (Z.eqb_spec p 0) as [->|Hp0]; [by apply IH|].
  rewrite decide_False by done. destruct (Hp Hp0) as [x Hx].
  rewrite (bind_Done _ _ _ _ _ (run_sched _ _ _ _ (deref_Done _ _ _ Hx))), kernel_eta, Hx. simpl.
  destruct (f x) eqn:Hf; [exists (Some (i, p)); by rewrite <- Hx|by apply IH].
Qed.

Lemma nth_process_live k t : ∀ found n, all_live k t → 0 <= found <= n → found + Z.of_nat (length t) < 2 ^ 32 →
  match live_in k t !! Z.to_nat (n - found) with
  | Some x => ∃ p, nth_process t found n = Some p ∧ procs (k_sched k) !! p = Some x
  | None => nth_process t found n = None
  end.
Proof.
  induction t as [|p t IH]; intros found n Ht Hn Hl; [done|]. apply all_live_cons in Ht as [Hp Ht].
  cbn [nth_process length] in *. rewrite live_in_cons. destruct (Z.eqb_spec p 0) as [->|Hp0].
  { apply IH; [done|lia|lia]. }
  rewrite decide_False by done. destruct (Hp Hp0) as [x Hx]. rewrite Hx. cbn [option_list app].
  destruct (Z.eqb_spec found n) as [->|].
  - rewrite Z.sub_diag. simpl. eauto.
  - replace (Z.to_nat (n - found)) with (S (Z.to_nat (n - (found + 1)))) by lia.
    rewrite u32_small by lia. apply IH; [done|lia|lia].
Qed.

(** * What the files are, as functions of the kernel's state *)

(** The inode [p] of procFS, of type [type] and about [q]. *)
Definition proc_inode (s : kw) (p type : Z) (q : procfs_inode_t) : Prop :=
  ∃ x : inode_t, objects s.2 !! p = Some (inj x) ∧ i_type x = type ∧ i_ops x = Some procfs_ops ∧
    i_private x ≠ 0 ∧ objects s.2 !! i_private x = Some (inj q).

Definition with_pid (k : kernel) (pid : Z) : option process_t := List.find (λ x, p_pid x =? pid) (live k).

(** The entry called [name] of a directory: its type and what it is about. *)
Definition entry_of (k : kernel) (q : procfs_inode_t) (name : list Z) : option (Z * procfs_inode_t) :=
  match pr_type q with
  | PROCFS_ROOT =>
      if bool_decide (name ∈ [cs "meminfo"; cs "mounts"]) then Some (VFS_TYPE_FILE, PInode PROCFS_INFO_FILE 0 name)
      else if bool_decide (Forall is_dec name) then
        let pid := u64 (digits_val 10 name) in
        _ ← with_pid k pid; Some (VFS_TYPE_DIR, PInode PROCFS_PID_DIR pid name)
      else None
  | PROCFS_PID_DIR =>
      if bool_decide (name ∈ [cs "status"; cs "memory"; cs "files"])
      then Some (VFS_TYPE_FILE, PInode PROCFS_PID_FILE (pr_pid q) name) else None
  | _ => None
  end.

(** The names of a directory in order, with their types. *)
Definition listing_of (k : kernel) (q : procfs_inode_t) : list (list Z * Z) :=
  match pr_type q with
  | PROCFS_ROOT => (cs "meminfo", VFS_TYPE_FILE) :: (cs "mounts", VFS_TYPE_FILE) ::
      ((λ x, (dec_of (p_pid x), VFS_TYPE_DIR)) <$> live k)
  | PROCFS_PID_DIR => (λ name, (name, VFS_TYPE_FILE)) <$> [cs "status"; cs "memory"; cs "files"]
  | _ => []
  end.

Definition hex_of (n : Z) : list Z := default [] (uint64_to_hex n).
Definition kilobytes (pages : Z) : list Z := dec_of (u64 (pages * 4)) ++ cs " KB" ++ [10].

Definition status_of (x : process_t) : list Z :=
  cs "Name:      " ++ p_name x ++ [10] ++ cs "PID:       " ++ dec_of (p_pid x) ++ [10] ++
  cs "Parent:    " ++ dec_of (p_parent_pid x) ++ [10] ++ cs "State:     " ++ state_name (p_state x) ++ [10].

Definition memory_of (x : process_t) : list Z :=
  cs "Stack:     0x" ++ hex_of (p_stack x) ++ [10] ++ cs "StackTop:  0x" ++ hex_of (p_stack_top x) ++ [10].

Definition meminfo_of (t : pmm) : list Z :=
  let free := pmm_free_pages t in
  let used := pmm_used_pages t in
  cs "MemTotal:  " ++ kilobytes (u64 (free + used)) ++ cs "MemFree:   " ++ kilobytes free ++
  cs "MemUsed:   " ++ kilobytes used.

(** The whole text of a file. *)
Definition contents (k : kernel) (q : procfs_inode_t) : list Z :=
  match pr_type q with
  | PROCFS_INFO_FILE =>
      if bool_decide (pr_name q = cs "meminfo") then meminfo_of (frames (k_vm k))
      else if bool_decide (pr_name q = cs "mounts")
      then line "/temp        shadowFS" ++ line "/devices     devFS" ++ line "/process     procFS" else []
  | PROCFS_PID_FILE =>
      match with_pid k (pr_pid q) with
      | None => line "Process not found"
      | Some x =>
          if bool_decide (pr_name q = cs "status") then status_of x
          else if bool_decide (pr_name q = cs "memory") then memory_of x
          else if bool_decide (pr_name q = cs "files") then line "fd table not yet per-process" else []
      end
  | _ => []
  end.

(** The fields of a process are within their C types; name is a char[32]. *)
Record proc_ok (x : process_t) : Prop := {
  ok_pid : 0 <= p_pid x < 2 ^ 64; ok_parent : 0 <= p_parent_pid x < 2 ^ 64;
  ok_stack : 0 <= p_stack x < 2 ^ 64; ok_stack_top : 0 <= p_stack_top x < 2 ^ 64;
  ok_name : (length (p_name x) < 32)%nat ∧ Forall is_byte (p_name x) }.

Record table_good (k : kernel) : Prop := {
  good_live : all_live k (process_table (k_sched k));
  good_length : length (process_table (k_sched k)) = MAX_PROCESSES;
  good_procs : Forall proc_ok (live k) }.

Section Spec.
Context `{T : Scratch} (Htemp : length procfs_temp = 512%nat).

Lemma create_inode_proc sb type ty pid name k w : owned (k, w) →
  procfs_create_inode sb type ty pid name (k, w) = Panic out_of_memory ∨
  ∃ p s', procfs_create_inode sb type ty pid name (k, w) = Done p s' ∧ adds_inode (k, w) s' p ∧
    proc_inode s' p type (PInode ty pid name).
Proof.
  intros Hown. set (f := λ pr, Inode 0 type 0 292 0 0 0 0 0 1 (Some procfs_ops) sb pr).
  destruct (new_inode_spec (Inode 0 0 0 0 0 0 0 0 0 0 None None 0) (PInode PROCFS_ROOT 0 []) (PInode ty pid name) f k w Hown)
    as [H|(p & pr & h & w' & H & -> & Ho & Hp & Hpr & Hne & Hf1 & Hf2)]; [by left|right].
  exists p, (with_heap h k, with_objects (λ o, <[pr := inj (PInode ty pid name)]> (<[p := inj (f pr)]> o)) w).
  split; [exact H|]. split; [split; try done|].
  - simpl. intros q o Hq. rewrite !lookup_insert_ne; [done|congruence..].
  - exists (f pr). simpl. rewrite lookup_insert_ne, !lookup_insert_eq by done. by split_and!.
Qed.

Lemma find_in_table f k w : all_live k (process_table (k_sched k)) →
  ∃ r, in_kernel (W := world) (find_process f 0 (process_table (k_sched k))) (k, w) = Done r (k, w) ∧
    (r ≫= λ jp, procs (k_sched k) !! jp.2) = List.find f (live k).
Proof.
  intros Ht. destruct (find_process_live f _ k 0 Ht) as (r & H & Hr). exists r. split; [|done].
  by apply in_kernel_Done.
Qed.

(** Looking a name up makes an inode for its entry, if there is one. *)
Lemma procfs_lookup_spec dir q type name k w :
  owned (k, w) → table_good k → dir ≠ 0 → proc_inode (k, w) dir type q →
  match entry_of k q name with
  | None => procfs_lookup dir name (k, w) = Done 0 (k, w)
  | Some (ty, q') =>
      procfs_lookup dir name (k, w) = Panic out_of_memory ∨
      ∃ p s', procfs_lookup dir name (k, w) = Done p s' ∧ adds_inode (k, w) s' p ∧ proc_inode s' p ty q'
  end.
Proof.
  intros Hown [Hlive _ _] H0 (x & Hx & _ & _ & Hp0 & Hq). simpl in Hx, Hq. unfold procfs_lookup.
  rewrite (proj2 (Z.eqb_neq _ _) H0), (bind_Done _ _ _ _ _ (fetch_Done _ _ _ _ Hx)), (proj2 (Z.eqb_neq _ _) Hp0).
  rewrite (bind_Done _ _ _ _ _ (fetch_Done _ _ _ _ Hq)). unfold entry_of. destruct (pr_type q); try done.
  - unfold lookup_root. rewrite (bool_decide_ext (name ∈ _) (name = cs "meminfo" ∨ name = cs "mounts")) by set_solver.
    destruct (decide (name = cs "meminfo")) as [->|Hm]; [rewrite !bool_decide_true by auto; by apply create_inode_proc|].
    rewrite (bool_decide_false (name = cs "meminfo")) by done.
    destruct (decide (name = cs "mounts")) as [->|Hn]; [rewrite !bool_decide_true by auto; by apply create_inode_proc|].
    rewrite (bool_decide_false (name = cs "mounts")), (bool_decide_false (_ ∨ _)) by tauto. case_bool_decide as Hd.
    + rewrite (parse_pid_digits name 0) by (first [done|lia]). rewrite Z.mul_0_l, Z.add_0_l. cbv beta iota zeta.
      rewrite bool_decide_true by done.
      rewrite (bind_Done _ _ (k, w) (process_table (k_sched k)) (k, w)) by (by destruct k).
      destruct (find_in_table (λ x, p_pid x =? u64 (digits_val 10 name)) k w Hlive) as (r & H & Hr).
      rewrite (bind_Done _ _ _ _ _ H). unfold with_pid. rewrite <- Hr.
      destruct r as [[j p]|]; simpl in *; [|done]. destruct (procs (k_sched k) !! p) as [y|] eqn:Hy; simpl.
      * by apply create_inode_proc.
      * exfalso. apply zoom_Done_inv in H as (k' & H & _). apply find_process_spec in H as [_ (_ & _ & z & Hz & _)].
        simpl in Hz. congruence.
    + destruct (parse_pid name 0) as [pid rest] eqn:Hpp. rewrite bool_decide_false; [done|].
      pose proof (parse_pid_rest name 0 Hd) as Hr. by rewrite Hpp in Hr.
  - unfold lookup_pid.
    rewrite (bool_decide_ext (name ∈ _) (name = cs "status" ∨ name = cs "memory" ∨ name = cs "files")) by set_solver.
    destruct (decide (name = cs "status")) as [->|H1]; [rewrite !bool_decide_true by auto; by apply create_inode_proc|].
    rewrite (bool_decide_false (name = cs "status")) by done.
    destruct (decide (name = cs "memory")) as [->|H2]; [rewrite !bool_decide_true by auto; by apply create_inode_proc|].
    rewrite (bool_decide_false (name = cs "memory")) by done.
    destruct (decide (name = cs "files")) as [->|H3]; [rewrite !bool_decide_true by auto; by apply create_inode_proc|].
    by rewrite !bool_decide_false by tauto.
Qed.

(** Listing a directory. *)
Lemma list_entry_Done file (f : file_t) d name type k w : objects w !! file = Some (inj f) →
  list_entry file d name type (k, w) =
  Done (1, Some (Dentry name (d_inode d) type)) (k, with_objects <[file := inj (set_position (u32 (position f + 1)) f)]> w).
Proof. intros Hf. unfold list_entry. by rewrite (bind_Done _ _ _ _ _ (change_Done _ _ _ k w Hf)). Qed.

Lemma procfs_readdir_spec file (f : file_t) d q type k w :
  table_good k → file ≠ 0 → objects w !! file = Some (inj f) → proc_inode (k, w) (f_inode f) type q →
  0 <= position f < 2 ^ 32 → (Z.to_nat (position f) <= length (listing_of k q))%nat →
  procfs_readdir file (Some d) (k, w) =
  match listing_of k q !! Z.to_nat (position f) with
  | Some (name, ty) => Done (1, Some (Dentry name (d_inode d) ty))
      (k, with_objects <[file := inj (set_position (u32 (position f + 1)) f)]> w)
  | None => Done (0, Some d) (k, w)
  end.
Proof.
  intros [Hlive Hlen Hok] H0 Hf (x & Hx & _ & _ & _ & Hq) Hp Hle. simpl in Hx, Hq. unfold procfs_readdir.
  rewrite (proj2 (Z.eqb_neq _ _) H0), (bind_Done _ _ _ _ _ (fetch_Done _ _ _ _ Hf)).
  rewrite (bind_Done _ _ _ _ _ (fetch_Done _ _ _ _ Hx)), (bind_Done _ _ _ _ _ (fetch_Done _ _ _ _ Hq)).
  unfold listing_of in *. destruct (pr_type q); try done.
  - unfold readdir_root. destruct (Z.eqb_spec (position f) 0) as [E|].
    { rewrite (list_entry_Done _ _ _ _ _ _ _ Hf), E. done. }
    destruct (Z.eqb_spec (position f) 1) as [E|].
    { rewrite (list_entry_Done _ _ _ _ _ _ _ Hf), E. done. }
    rewrite (bind_Done _ _ (k, w) (process_table (k_sched k)) (k, w)) by (by destruct k).
    rewrite u32_small by lia.
    replace (Z.to_nat (position f)) with (S (S (Z.to_nat (position f - 2)))) by lia.
    rewrite !lookup_cons, list_lookup_fmap.
    pose proof (nth_process_live k (process_table (k_sched k)) 0 (position f - 2) Hlive ltac:(lia)) as Hn.
    rewrite Hlen in Hn. specialize (Hn ltac:(unfold MAX_PROCESSES; lia)). rewrite Z.sub_0_r in Hn. fold (live k) in Hn.
    destruct (live k !! _) as [y|] eqn:Hy; simpl; [|by rewrite Hn].
    destruct Hn as (p & -> & Hpy). apply Forall_lookup_1 with (2 := Hy) in Hok as [Hpid _ _ _ _].
    rewrite (bind_Done _ _ _ _ _ (in_kernel_Done _ _ w _ _ (run_sched _ _ _ _ (deref_Done _ _ _ Hpy)))), kernel_eta.
    destruct (dec_of_pid _ Hpid) as (-> & _ & _). rewrite (bind_Done _ _ (k, w) (dec_of (p_pid y)) (k, w)) by done.
    by apply list_entry_Done.
  - rewrite length_fmap in Hle. simpl in Hle.
    assert (Z.to_nat (position f) = 0%nat ∨ Z.to_nat (position f) = 1%nat ∨ Z.to_nat (position f) = 2%nat ∨
      Z.to_nat (position f) = 3%nat) as [-> |[-> |[-> | ->]]] by lia;
      [by apply list_entry_Done..|done].
Qed.

(** Everything listed can be looked up, and leads to the right process. *)
Lemma listed_found k q name type : table_good k → (name, type) ∈ listing_of k q →
  ∃ q', entry_of k q name = Some (type, q') ∧ pr_name q' = name ∧
    (pr_type q = PROCFS_ROOT → type = VFS_TYPE_DIR → ∃ x, x ∈ live k ∧ name = dec_of (p_pid x) ∧ pr_pid q' = p_pid x) ∧
    (pr_type q = PROCFS_PID_DIR → pr_pid q' = pr_pid q).
Proof.
  intros [_ _ Hok]. unfold listing_of, entry_of. destruct (pr_type q).
  - rewrite !elem_of_cons. intros [E|[E|Hin]]; [injection E as -> ->; by eexists..|].
    apply list_elem_of_fmap in Hin as (x & [= -> ->] & Hin).
    rewrite list.Forall_forall in Hok. destruct (Hok x Hin) as [Hpid _ _ _ _].
    destruct (dec_of_pid _ Hpid) as (_ & (Hv & Hd & _ & Hz) & _).
    rewrite bool_decide_false.
    2: { intros Hm. rewrite !elem_of_cons, elem_of_nil in Hm.
         destruct Hm as [E|[E|[]]]; rewrite E in Hd; inversion Hd as [|? ? Hc]; unfold is_dec in Hc; simpl in Hc; lia. }
    rewrite bool_decide_true by done. rewrite Hv, u64_small by done. cbv zeta.
    destruct (with_pid k (p_pid x)) as [y|] eqn:Hy; simpl.
    + eexists. split; [done|]. split; [done|]. split; [eauto|done].
    + pose proof (List.find_none _ _ Hy x) as Hn. simpl in Hn. rewrite Z.eqb_refl in Hn.
      apply list_elem_of_In in Hin. by specialize (Hn Hin).
  - intros (nm & [= -> ->] & Hin)%list_elem_of_fmap. rewrite bool_decide_true by done. by eexists.
  - by intros ?%not_elem_of_nil.
  - by intros ?%not_elem_of_nil.
Qed.

(** ** Contents *)

Lemma print_render fmt args out (s : kw) :
  Forall (λ c, 0 < c < 256) fmt → Forall arg_ok args → render fmt args = Some out → (length out <= 511)%nat →
  ∃ temp, print fmt args s = Done (temp, Z.of_nat (length out)) s ∧ take (length out) temp = out.
Proof.
  intros Hf Ha Hr Hl. destruct (kvsnprintf_render procfs_temp 512 fmt args out) as (rest & Hk & _); [lia|done..|unfold countable, INT_MAX; lia|].
  rewrite take_ge in Hk by (change (Z.to_nat (512 - 1)) with 511%nat; lia).
  eexists. unfold print, ksnprintf. rewrite Hk. split; [done|]. by rewrite take_app_length.
Qed.

Lemma dec_of_length n : (length (dec_of (u64 n)) <= 20)%nat.
Proof. apply dec_of_pid. unfold u64. apply Z.mod_pos_bound. lia. Qed.

Lemma hex_of_length n : length (hex_of (u64 n)) = 16%nat.
Proof.
  destruct (uint64_to_hex_spec (u64 n)) as (ds & Hd & _ & Hl); [unfold u64; apply Z.mod_pos_bound; lia|].
  unfold hex_of. by rewrite Hd.
Qed.

Lemma kilobytes_length n : (length (kilobytes n) <= 24)%nat.
Proof. unfold kilobytes. rewrite !length_app. pose proof (dec_of_length (n * 4)). simpl. lia. Qed.

Lemma state_name_ok st : Forall is_byte (state_name st) ∧ (length (state_name st) <= 8)%nat.
Proof. destruct st; split; try (apply (bool_decide_unpack _); vm_compute; done); simpl; lia. Qed.

Definition prints (m : M kw (list Z * Z)) (s : kw) (out : list Z) : Prop :=
  (length out <= 511)%nat ∧ ∃ temp, m s = Done (temp, Z.of_nat (length out)) s ∧ take (length out) temp = out.

Lemma prints_render fmt args out s :
  bool_decide (Forall (λ c, 0 < c < 256) fmt) = true → Forall arg_ok args → render fmt args = Some out →
  (length out <= 511)%nat → prints (print fmt args) s out.
Proof. intros Hf%bool_decide_eq_true Ha Hr Hl. split; [done|by apply print_render]. Qed.

Lemma prints_nothing s : prints (mret (procfs_temp, 0)) s [].
Proof. split; [simpl; lia|]. by exists procfs_temp. Qed.

Lemma u64_idem n : u64 (u64 n) = u64 n.
Proof. unfold u64. apply Z.mod_mod. lia. Qed.

Lemma info_text_spec name k w : prints (info_text name) (k, w) (contents k (PInode PROCFS_INFO_FILE 0 name)).
Proof.
  unfold info_text, contents. cbn [pr_type pr_name]. case_bool_decide as Hm.
  - set (t := frames (k_vm k)). set (total := u64 (pmm_free_pages t + pmm_used_pages t)).
    assert (Hrun : prints (print (line "MemTotal:  %lu KB" ++ line "MemFree:   %lu KB" ++ line "MemUsed:   %lu KB")
      [AInt (u64 (total * 4)); AInt (u64 (pmm_free_pages t * 4)); AInt (u64 (pmm_used_pages t * 4))]) (k, w) (meminfo_of t)).
    { apply prints_render; [reflexivity|by repeat constructor| |].
      - assert (E : ∀ n, dec_of (u64 n) = dec_of (u64 (u64 n))) by (intros n; by rewrite u64_idem).
        unfold meminfo_of, kilobytes. fold total.
        rewrite (E (total * 4)), (E (pmm_free_pages t * 4)), (E (pmm_used_pages t * 4)).
        rewrite <- !app_assoc. reflexivity.
      - unfold meminfo_of. fold total. rewrite !length_app. pose proof (kilobytes_length total).
        pose proof (kilobytes_length (pmm_free_pages t)). pose proof (kilobytes_length (pmm_used_pages t)). simpl. lia. }
    destruct k as [ks [] kh]. exact Hrun.
  - case_bool_decide; [|apply prints_nothing].
    by apply prints_render; [reflexivity|constructor|reflexivity|simpl; lia].
Qed.

Lemma status_render x : proc_ok x →
  render (line "Name:      %s" ++ line "PID:       %lu" ++ line "Parent:    %lu" ++ line "State:     %s")
    [AStr (Some (p_name x)); AInt (p_pid x); AInt (p_parent_pid x); AStr (Some (state_name (p_state x)))]
  = Some (status_of x) ∧ (length (status_of x) <= 511)%nat.
Proof.
  intros [Hpid Hpar _ _ [Hn _]]. unfold status_of. rewrite <- (u64_small (p_pid x)), <- (u64_small (p_parent_pid x)) by lia.
  split.
  - rewrite (u64_small (p_pid x)), (u64_small (p_parent_pid x)) by lia.
    transitivity (Some (cs "Name:      " ++ p_name x ++ [10] ++ cs "PID:       " ++ dec_of (u64 (p_pid x)) ++ [10] ++
      cs "Parent:    " ++ dec_of (u64 (p_parent_pid x)) ++ [10] ++ cs "State:     " ++ state_name (p_state x) ++ [10])).
    + reflexivity.
    + by rewrite (u64_small (p_pid x)), (u64_small (p_parent_pid x)) by lia.
  - rewrite !length_app. pose proof (dec_of_length (p_pid x)). pose proof (dec_of_length (p_parent_pid x)).
    pose proof (state_name_ok (p_state x)) as [_ ?]. simpl. lia.
Qed.

Lemma memory_render x : proc_ok x →
  render (line "Stack:     0x%lx" ++ line "StackTop:  0x%lx") [AInt (p_stack x); AInt (p_stack_top x)]
  = Some (memory_of x) ∧ (length (memory_of x) <= 511)%nat.
Proof.
  intros [_ _ Hs Ht _]. unfold memory_of. split.
  - rewrite <- (u64_small (p_stack x)) at 2 by lia. rewrite <- (u64_small (p_stack_top x)) at 2 by lia. reflexivity.
  - rewrite !length_app. pose proof (hex_of_length (p_stack x)) as H1. pose proof (hex_of_length (p_stack_top x)) as H2.
    rewrite u64_small in H1, H2 by lia. simpl. lia.
Qed.

Lemma pid_text_spec pid name k w : table_good k →
  prints (pid_text pid name) (k, w) (contents k (PInode PROCFS_PID_FILE pid name)).
Proof.
  intros [Hlive _ Hok]. unfold contents. cbn [pr_type pr_name pr_pid].
  destruct (find_in_table (λ x, p_pid x =? pid) k w Hlive) as (r & H & Hr). unfold with_pid. rewrite <- Hr.
  unfold prints, pid_text. rewrite (bind_Done _ _ (k, w) (process_table (k_sched k)) (k, w)) by (by destruct k).
  rewrite (bind_Done _ _ _ _ _ H). apply zoom_Done_inv in H as (k' & H & _). apply find_process_spec in H as [_ H].
  destruct r as [[j p]|]; [|by apply prints_render; [reflexivity|constructor|reflexivity|simpl; lia]].
  destruct H as (_ & _ & x & Hx & _). cbn [fst snd mbind option_bind] in Hr |- *. simpl in Hx. rewrite Hx in Hr |- *.
  symmetry in Hr. apply List.find_some in Hr as [Hin%list_elem_of_In _].
  rewrite list.Forall_forall in Hok. specialize (Hok x Hin).
  rewrite (bind_Done _ _ _ _ _ (in_kernel_Done _ _ w _ _ (run_sched _ _ _ _ (deref_Done _ _ _ Hx)))), kernel_eta.
  pose proof (state_name_ok (p_state x)) as [Hst _]. pose proof Hok as [_ _ _ _ [_ Hnm]].
  case_bool_decide; [|case_bool_decide; [|case_bool_decide]].
  - apply prints_render; [reflexivity|by repeat constructor|by apply status_render..].
  - apply prints_render; [reflexivity|by repeat constructor|by apply memory_render..].
  - by apply prints_render; [reflexivity|constructor|reflexivity|simpl; lia].
  - apply prints_nothing.
Qed.

Lemma slice_part temp out position n : take (length out) temp = out → 0 <= position → 0 <= n →
  position + n <= Z.of_nat (length out) →
  slice temp position n = Some (take (Z.to_nat n) (drop (Z.to_nat position) out)).
Proof.
  intros Ht Hp Hn Hle. unfold slice. apply mapM_Some. apply Forall2_same_length_lookup. split.
  - rewrite length_seqZ, length_take, length_drop. lia.
  - intros i j c Hj Hc. apply lookup_seqZ in Hj as [-> Hi]. rewrite lookup_take_lt, lookup_drop in Hc by lia.
    rewrite <- Ht, lookup_take_lt in Hc.
    + rewrite <- Hc. f_equal. lia.
    + apply lookup_lt_Some in Hc. rewrite length_take in Hc. lia.
Qed.

(** Reading a file gives the part of its text from the position on. *)
Lemma procfs_read_spec file (f : file_t) buffer size type q k w :
  table_good k → file ≠ 0 → buffer ≠ 0 → objects w !! file = Some (inj f) → proc_inode (k, w) (f_inode f) type q →
  0 <= position f < 2 ^ 32 → 0 <= size < 2 ^ 32 →
  procfs_read file buffer size (k, w) =
  if Z.of_nat (length (contents k q)) <=? position f then Done (0, []) (k, w)
  else
    let out := take (Z.to_nat size) (drop (Z.to_nat (position f)) (contents k q)) in
    Done (Z.of_nat (length out), out)
      (k, with_objects <[file := inj (set_position (position f + Z.of_nat (length out)) f)]> w).
Proof.
  intros Ht H0 Hb0 Hf (x & Hx & _ & _ & Hp0 & Hq) Hp Hs. simpl in Hx, Hq. unfold procfs_read.
  rewrite (proj2 (Z.eqb_neq _ _) H0), (proj2 (Z.eqb_neq _ _) Hb0). cbn [orb].
  rewrite (bind_Done _ _ _ _ _ (fetch_Done _ _ _ _ Hf)), (bind_Done _ _ _ _ _ (fetch_Done _ _ _ _ Hx)).
  rewrite (proj2 (Z.eqb_neq _ _) Hp0), (bind_Done _ _ _ _ _ (fetch_Done _ _ _ _ Hq)).
  assert (Hpr : prints (match pr_type q with
    | PROCFS_INFO_FILE => info_text (pr_name q)
    | PROCFS_PID_FILE => pid_text (pr_pid q) (pr_name q)
    | _ => mret (procfs_temp, 0) end) (k, w) (contents k q)).
  { destruct q as [[] pid name]; cbn [pr_type pr_pid pr_name]; [apply prints_nothing|apply prints_nothing| |].
    - by apply pid_text_spec.
    - apply info_text_spec. }
  destruct Hpr as (Hlen & temp & Hrun & Htake). rewrite (bind_Done _ _ _ _ _ Hrun). clear Hrun. cbv beta iota zeta.
  set (out := contents k q) in *. rewrite u32_small by lia.
  destruct (Z.leb_spec (Z.of_nat (length out)) (position f)) as [|Hlt]; [done|].
  rewrite u32_small by lia. set (n := if size <? _ then size else _).
  assert (Hn : 0 <= n <= Z.of_nat (length out) - position f ∧
    Z.of_nat (length (take (Z.to_nat size) (drop (Z.to_nat (position f)) out))) = n ∧
    take (Z.to_nat n) (drop (Z.to_nat (position f)) out) = take (Z.to_nat size) (drop (Z.to_nat (position f)) out)).
  { unfold n. rewrite length_take, length_drop. destruct (Z.ltb_spec size (Z.of_nat (length out) - position f)).
    - split_and!; [lia..|done].
    - split_and!; [lia..|]. rewrite !take_ge; [done|rewrite length_drop; lia..]. }
  destruct Hn as (Hn & Hn1 & Hn2). rewrite (slice_part _ out) by (first [done|lia]). rewrite Hn2, Hn1.
  rewrite (bind_Done _ _ (k, w) (take (Z.to_nat size) (drop (Z.to_nat (position f)) out)) (k, w)) by done.
  rewrite (bind_Done _ _ _ _ _ (change_Done _ _ _ k w Hf)). rewrite u32_small, i32_small by lia. done.
Qed.

End Spec.

(** C32. roundtrip: procFS shows the process table. Its root lists meminfo,
    mounts and the decimal PID of every process in the table, in slot order;
    a process directory lists status, memory and files. Looking a name up
    makes a fresh inode for its entry, disturbing nothing, and gives null
    where there is none; every name that is listed is found again, and a
    listed PID leads back to the process of that PID. Reading a file gives
    its text (the counters of the frame allocator, the fields of the process,
    or that the process is gone) from the position on, and moves the position
    past what was read, so that the reads of a file join to its text. *)
Theorem process_files_exact `{T : Scratch} k w :
  length procfs_temp = 512%nat → owned (k, w) → table_good k →
  (∀ q name type, (name, type) ∈ listing_of k q →
     ∃ q', entry_of k q name = Some (type, q') ∧ pr_name q' = name ∧
       (pr_type q = PROCFS_ROOT → type = VFS_TYPE_DIR → ∃ x, x ∈ live k ∧ name = dec_of (p_pid x) ∧ pr_pid q' = p_pid x) ∧
       (pr_type q = PROCFS_PID_DIR → pr_pid q' = pr_pid q)) ∧
  (∀ dir q type name, dir ≠ 0 → proc_inode (k, w) dir type q →
     match entry_of k q name with
     | None => procfs_lookup dir name (k, w) = Done 0 (k, w)
     | Some (ty, q') =>
         procfs_lookup dir name (k, w) = Panic out_of_memory ∨
         ∃ p s', procfs_lookup dir name (k, w) = Done p s' ∧ adds_inode (k, w) s' p ∧ proc_inode s' p ty q'
     end) ∧
  (∀ file (f : file_t) d q type, file ≠ 0 → objects w !! file = Some (inj f) → proc_inode (k, w) (f_inode f) type q →
     0 <= position f < 2 ^ 32 → (Z.to_nat (position f) <= length (listing_of k q))%nat →
     procfs_readdir file (Some d) (k, w) =
     match listing_of k q !! Z.to_nat (position f) with
     | Some (name, ty) => Done (1, Some (Dentry name (d_inode d) ty))
         (k, with_objects <[file := inj (set_position (u32 (position f + 1)) f)]> w)
     | None => Done (0, Some d) (k, w)
     end) ∧
  (∀ file (f : file_t) buffer size type q, file ≠ 0 → buffer ≠ 0 → objects w !! file = Some (inj f) →
     proc_inode (k, w) (f_inode f) type q → 0 <= position f < 2 ^ 32 → 0 <= size < 2 ^ 32 →
     procfs_read file buffer size (k, w) =
     if Z.of_nat (length (contents k q)) <=? position f then Done (0, []) (k, w)
     else
       let out := take (Z.to_nat size) (drop (Z.to_nat (position f)) (contents k q)) in
       Done (Z.of_nat (length out), out)
         (k, with_objects <[file := inj (set_position (position f + Z.of_nat (length out)) f)]> w)).
Proof.
  intros Htemp Hown Ht. split_and!.
  - intros q name type. by apply listed_found.
  - intros dir q type name. by apply procfs_lookup_spec.
  - intros file f d q type H0 Hf Hq. by eapply procfs_readdir_spec.
  - intros file f buffer size type q. by apply procfs_read_spec.
Qed.

(** procFS on a kernel with the process 42. *)
Definition demo_scratch : Scratch := replicate 512 170.

Definition demo_table_kernel : kernel :=
  Kernel (Sched {[ 100 := set_name (cs "shell") (demo_proc 42 0 PROCESS_READY) ]} (0 :: 100 :: replicate 14 0) 0 43 0 0 0 0 [])
    (Vm ∅ (Pmm ∅ 0 0) 0 0) fresh_heap.

Definition demo_procfs : kw :=
  state_of (procfs_create_inode (Some 0%nat) VFS_TYPE_DIR PROCFS_ROOT 0 (cs "process") (demo_table_kernel, demo_start)).

Lemma demo_procfs_owned : owned demo_procfs.
Proof.
  destruct (framed_procfs_create_inode (Some 0%nat) VFS_TYPE_DIR PROCFS_ROOT 0 (cs "process")
    (demo_table_kernel, demo_start) demo_address demo_procfs) as [H _ _ _]; [vm_compute; reflexivity|]. apply H.
  apply (owned_ext (demo_kernel, demo_start)); [apply demo_owned|reflexivity|reflexivity].
Qed.

Lemma demo_table_good : table_good demo_procfs.1.
Proof.
  split.
  - intros p Hp H0. assert (p = 100) as ->.
    { change (p ∈ 0 :: 100 :: replicate 14 0) in Hp. rewrite !elem_of_cons in Hp.
      destruct Hp as [?|[?|Hp]]; [done..|]. by apply elem_of_replicate in Hp as [-> _]. }
    vm_compute. eauto.
  - vm_compute. reflexivity.
  - vm_compute. constructor; [|constructor]. split; simpl; [lia..|]. split; [lia|].
    repeat constructor; unfold is_byte; lia.
Qed.

Lemma process_files_exact_witness :
  ∃ p s', procfs_lookup demo_address (cs "42") demo_procfs = Done p s' ∧
    proc_inode s' p VFS_TYPE_DIR (PInode PROCFS_PID_DIR 42 (cs "42")).
Proof.
  pose proof (process_files_exact (T := demo_scratch) demo_procfs.1 demo_procfs.2) as H.
  rewrite <- (surjective_pairing demo_procfs) in H. destruct H as (_ & H & _).
  - vm_compute. reflexivity.
  - exact demo_procfs_owned.
  - exact demo_table_good.
  - specialize (H demo_address (PInode PROCFS_ROOT 0 (cs "process")) VFS_TYPE_DIR (cs "42")).
    assert (He : entry_of demo_procfs.1 (PInode PROCFS_ROOT 0 (cs "process")) (cs "42") =
      Some (VFS_TYPE_DIR, PInode PROCFS_PID_DIR 42 (cs "42"))) by (vm_compute; reflexivity).
    rewrite He in H. destruct H as [Hp|(p & s' & Hrun & _ & Hi)].
    + vm_compute. discriminate.
    + eexists. split_and!; [vm_compute; reflexivity|vm_compute; reflexivity|vm_compute; reflexivity| |vm_compute; reflexivity].
      vm_compute. discriminate.
    + vm_compute in Hp. discriminate Hp.
    + exists p, s'. split; [exact Hrun|exact Hi].
Defined.
