(* ===== verification/Boot.v ===== *)
(** The file systems of the kernel put together: the tables of operations of
    shadowFS, devFS and procFS, and the part of kernel_main()
    (kernel/core/kernel.c) that mounts them, registers the devices and opens
    the standard descriptors. The addresses of the drivers' handlers are
    those the linker gives them. *)

From S2P Require Import Prelude CString Rtc Pmm Heap Paging Sched Process Objects Vfs Shadowfs Devfs Procfs.

(** * The file systems *)

#[export] Instance acorn_filesystems `{Clock} `{Drivers} `{Scratch} : Filesystems := λ t,
  match t with
  | shadowfs_ops => shadowfs_table
  | devfs_ops => devfs_table
  | procfs_ops => procfs_table
  end.

(** They obey the laws the virtual file system asks for. *)
#[export] Instance acorn_laws `{Clock} `{DriverLaws} `{Scratch} : FilesystemLaws.
Proof.
  pose proof shadowfs_laws as S. split; intros [] f; simpl; intros *; try discriminate.
  all: try match goal with
    | |- Some shadowfs_lookup = _ → _ => exact (law_lookup (FilesystemLaws := S) shadowfs_ops f _ _)
    | |- Some shadowfs_create = _ → _ => exact (law_create (FilesystemLaws := S) shadowfs_ops f _ _ _)
    | |- Some shadowfs_delete = _ → _ => exact (law_delete (FilesystemLaws := S) shadowfs_ops f _ _)
    | |- Some shadowfs_truncate = _ → _ => exact (law_truncate (FilesystemLaws := S) shadowfs_ops f _ _)
    | |- Some shadowfs_open = _ → _ => exact (law_open (FilesystemLaws := S) shadowfs_ops f _ _)
    | |- Some shadowfs_close = _ → _ => exact (law_close (FilesystemLaws := S) shadowfs_ops f _ _)
    | |- Some shadowfs_read = _ → _ => exact (law_read (FilesystemLaws := S) shadowfs_ops f _ _ _)
    | |- Some shadowfs_write = _ → _ => exact (law_write (FilesystemLaws := S) shadowfs_ops f _ _ _)
    | |- Some shadowfs_readdir = _ → _ => exact (law_readdir (FilesystemLaws := S) shadowfs_ops f _ _)
    | |- Some shadowfs_mkdir = _ → _ => exact (law_mkdir (FilesystemLaws := S) shadowfs_ops f _ _)
    end.
  all: intros [= <-]; unfold devfs_create, devfs_open, devfs_close, procfs_open, procfs_close;
    auto using framed_ret, framed_devfs_lookup, framed_devfs_read, framed_devfs_write, framed_devfs_readdir,
      framed_procfs_lookup, framed_procfs_read, framed_procfs_readdir.
Qed.

(** * Starting the file systems *)

(** The handlers kernel_main() registers. *)
Class Handlers := {
  dev_display_write : Z; dev_keyboard_read : Z; dev_null_read_at : Z; dev_null_write_at : Z;
  dev_random_read : Z; dev_serial_read : Z; dev_serial_write : Z; dev_rtc_read_at : Z }.

Section Boot.
Context `{C : Clock} `{D : Drivers} `{T : Scratch} `{H : Handlers}.

Definition mount_or_panic (m : M kw Z) (msg : string) : M kw unit :=
  r ← m; if r <? 0 then kpanic msg else mret tt.

Definition register_devices : M kw unit :=
  devfs_register (cs "/devices") (cs "display") None (Some dev_display_write) ;;
  devfs_register (cs "/devices") (cs "keyboard") (Some dev_keyboard_read) None ;;
  devfs_register (cs "/devices") (cs "null") (Some dev_null_read_at) (Some dev_null_write_at) ;;
  devfs_register (cs "/devices") (cs "random") (Some dev_random_read) None ;;
  devfs_register (cs "/devices") (cs "serial") (Some dev_serial_read) (Some dev_serial_write) ;;
  devfs_register (cs "/devices") (cs "rtc") (Some dev_rtc_read_at) None ;;
  mret tt.

Definition open_stdio : M kw unit :=
  vfs_open_at (cs "/devices/keyboard") O_RDONLY 0 ;;
  vfs_open_at (cs "/devices/display") O_WRONLY 1 ;;
  vfs_open_at (cs "/devices/display") O_WRONLY 2 ;;
  mret tt.

Definition start_filesystems : M kw unit :=
  in_world vfs_init ;;
  mount_or_panic (shadowfs_mount (cs "/temp") (8 * 1024 * 1024)) "kernel: failed to mount shadowFS at /temp!" ;;
  mount_or_panic (devfs_mount (cs "/devices")) "kernel: failed to mount devFS at /devices!" ;;
  register_devices ;;
  open_stdio ;;
  mount_or_panic (procfs_mount (cs "/process")) "kernel: failed to mount procFS at /process!".

End Boot.

(** * Mounting *)

(** The mount table holds [ms]: mount points and operations, in order. *)
Record mount_rep (w : world) (ms : list (list Z * option ops_table)) : Prop := {
  mr_slots : length (mount_table w) = 16%nat;
  mr_count : mount_count w = Z.of_nat (length ms);
  mr_mounts : (λ sb, (mount_point sb, sb_ops sb)) <$> take (length ms) (mount_table w) = ms }.

(** Nothing happens to the processes and the address spaces. *)
Definition same_kernel (s s' : kw) : Prop := k_sched s'.1 = k_sched s.1 ∧ k_vm s'.1 = k_vm s.1.

#[export] Instance same_kernel_preorder : PreOrder same_kernel.
Proof. split; [done|]. intros s1 s2 s3 [] []. split; congruence. Qed.

(** Objects are added, files and descriptors left alone. *)
Record grows (s s' : kw) : Prop := {
  gr_owned : owned s';
  gr_objects q o : objects s.2 !! q = Some o → objects s'.2 !! q = Some o;
  gr_files : file_table s'.2 = file_table s.2;
  gr_open : open_files s' = open_files s;
  gr_kernel : same_kernel s s' }.

(** The outcome of a computation that may run out of heap. *)
Definition delivers {A} (m : M kw A) (s : kw) (Q : A → kw → Prop) : Prop :=
  m s = Panic out_of_memory ∨ ∃ a s', m s = Done a s' ∧ Q a s'.

Lemma delivers_bind {A B} (m : M kw A) (f : A → M kw B) s Q R :
  delivers m s Q → (∀ a s', Q a s' → delivers (f a) s' R) → delivers (m ≫= f) s R.
Proof.
  intros [H|(a & s' & H & Ha)] Hf; [left; by apply bind_Panic|].
  unfold delivers. rewrite (bind_Done _ _ _ _ _ H). by apply Hf.
Qed.

Lemma delivers_done {A} (m : M kw A) s a s' (Q : A → kw → Prop) : m s = Done a s' → Q a s' → delivers m s Q.
Proof. right. eauto. Qed.

Lemma delivers_step {A B} (m : M kw A) (f : A → M kw B) s a s' R :
  m s = Done a s' → delivers (f a) s' R → delivers (m ≫= f) s R.
Proof. intros H Hf. unfold delivers. by rewrite (bind_Done _ _ _ _ _ H). Qed.

Lemma delivers_gets {A B} (f : world → A) (m : A → M kw B) k w R :
  delivers (m (f w)) (k, w) R → delivers (in_world (gets f) ≫= m) (k, w) R.
Proof. done. Qed.

Lemma delivers_modify {B} (f : world → world) (m : unit → M kw B) k w R :
  delivers (m tt) (k, f w) R → delivers (in_world (modify f) ≫= m) (k, w) R.
Proof. done. Qed.

Lemma delivers_impl {A} (m : M kw A) s (Q R : A → kw → Prop) :
  delivers m s Q → (∀ a s', Q a s' → R a s') → delivers m s R.
Proof. intros [H|(a & s' & H & Ha)] HR; [by left|right; eauto]. Qed.

Lemma adds_refl s : owned s → grows s s.
Proof. by split. Qed.

Lemma adds_trans s1 s2 s3 : grows s1 s2 → grows s2 s3 → grows s1 s3.
Proof. intros [o1 q1 f1 p1 k1] [o2 q2 f2 p2 k2]. split; [done|eauto|congruence|congruence|by etrans]. Qed.

Lemma fd_inv_grows s s' : fd_inv s → grows s s' → fd_inv s'.
Proof. intros [_ H] [o _ f p _]. split; [done|]. by rewrite f, p. Qed.

(** A change of the static tables only. *)
Lemma grows_static k w w' : owned (k, w) → objects w' = objects w → file_table w' = file_table w → grows (k, w) (k, w').
Proof.
  intros Ho Hob Hf. split; [by eapply owned_ext|by simpl; rewrite Hob|done| |done]. unfold open_files. simpl. by rewrite Hob.
Qed.

Lemma new_delivers {A} `{!Struct A} `{!NotFile A} (x : A) k w : owned (k, w) →
  delivers (new x) (k, w) (λ p s', ∃ h, s' = (with_heap h k, with_objects <[p := inj x]> w) ∧
    grows (k, w) s' ∧ p ≠ 0 ∧ objects w !! p = None).
Proof.
  intros Ho. destruct (new_spec x k w Ho) as [H|(p & h & H & Hp & Hp0 & Ho')]; [by left|right].
  exists p, (with_heap h k, with_objects <[p := inj x]> w). split; [done|]. exists h. split_and!; [done| |done|done].
  split; [done| |done| |].
  - simpl. intros q o Hq. rewrite lookup_insert_ne by congruence. done.
  - by eapply open_files_new.
  - done.
Qed.

(** ** The mount table *)

Lemma vfs_mount_spec path ops priv ms k w :
  mount_rep w ms → (length ms < 16)%nat → path ∉ ms.*1 → (length path < 64)%nat →
  let w1 := with_mounts <[length ms := Superblock path 0 ops priv 0]> (Z.of_nat (length ms) + 1) w in
  in_world (vfs_mount path ops priv) (k, w) = Done 0 (k, w1) ∧ mount_rep w1 (ms ++ [(path, ops)]) ∧
  mount_table w1 !! length ms = Some (Superblock path 0 ops priv 0).
Proof.
  intros [Hl Hc Hm] Hlt Hp Hlen w1. split_and!.
  - unfold vfs_mount, in_world, zoom. run. simpl. rewrite Hc. unfold VFS_MAX_MOUNTS.
    rewrite (proj2 (Z.leb_gt _ _)) by lia. rewrite Nat2Z.id.
    assert (existsb (λ sb, bool_decide (mount_point sb = path)) (take (length ms) (mount_table w)) = false) as ->.
    { apply not_true_iff_false. intros (sb & Hin%list_elem_of_In & Hsb%bool_decide_eq_true)%existsb_exists.
      apply Hp. rewrite <- Hm, <- list_fmap_compose. apply list_elem_of_fmap. exists sb. done. }
    simpl. unfold kstrcpy_val, VFS_MAX_PATH. by rewrite take_ge by lia.
  - split; simpl; [by rewrite length_insert|rewrite length_app; simpl; lia|].
    rewrite length_app. simpl. rewrite Nat.add_1_r, (take_S_r _ _ (Superblock path 0 ops priv 0))
      by (apply list_lookup_insert_eq; lia).
    by rewrite take_insert_ge, fmap_app, Hm by lia.
  - simpl. apply list_lookup_insert_eq. lia.
Qed.

(** Which mount owns a path depends on the mount points only. *)
Definition find_among (points : list (list Z)) (path : list Z) : option nat :=
  find_mount_loop path 0 ((λ p, Superblock p 0 None 0 0) <$> points) None (-1).

Lemma find_mount_loop_points path t : ∀ t' i best len, mount_point <$> t = mount_point <$> t' →
  find_mount_loop path i t best len = find_mount_loop path i t' best len.
Proof.
  induction t as [|sb t IH]; intros [|sb' t'] i best len E; try done.
  injection E as E1 E2. simpl. rewrite E1. destruct (_ && _); by apply IH.
Qed.

Lemma find_mount_among w ms path : mount_rep w ms → vfs_find_mount w path = find_among (ms.*1) path.
Proof.
  intros [Hl Hc Hm]. unfold vfs_find_mount, find_among. rewrite Hc, Nat2Z.id. apply find_mount_loop_points.
  rewrite <- list_fmap_compose. rewrite <- Hm at 2. by rewrite <- !list_fmap_compose.
Qed.

Lemma mount_rep_root w ms i r : mount_rep w ms → mount_rep (with_mounts (alter (set_sb_root r) i) (mount_count w) w) ms.
Proof.
  intros [Hl Hc Hm]. split; simpl; [by rewrite length_alter|done|]. rewrite <- Hm at 2.
  apply list_eq. intros j. rewrite !list_lookup_fmap.
  destruct (decide (j < length ms)%nat); [|by rewrite !lookup_take_ge by lia].
  rewrite !lookup_take_lt by done. destruct (decide (i = j)) as [->|].
  - rewrite list_lookup_alter_eq. by destruct (_ !! _).
  - by rewrite list_lookup_alter_ne.
Qed.

Lemma mount_rep_ext w w' ms : mount_rep w ms → mount_table w' = mount_table w → mount_count w' = mount_count w → mount_rep w' ms.
Proof. intros [Hl Hc Hm] E1 E2. split; by rewrite ?E1, ?E2. Qed.

(** A framed computation that adds objects. *)
Lemma grows_framed {A} (m : M kw A) k w a s' :
  framed m → owned (k, w) → m (k, w) = Done a s' →
  (∀ q o, objects w !! q = Some o → objects s'.2 !! q = Some o) → same_kernel (k, w) s' → grows (k, w) s'.
Proof. intros Hf Ho Hm Hq Hk. destruct (Hf _ _ _ Hm) as [o t _ f]. split; auto. Qed.

Section Mounts.
Context `{C : Clock} `{D : Drivers} `{T : Scratch}.

Lemma set_root_grows k w ms i r :
  owned (k, w) → mount_rep w ms →
  let w' := with_mounts (alter (set_sb_root r) i) (mount_count w) w in
  grows (k, w) (k, w') ∧ mount_rep w' ms.
Proof. intros Ho Hr w'. split; [by apply grows_static|by apply mount_rep_root]. Qed.

Definition free_bytes (k : kernel) : Z := u32 (u64 (pmm_free_pages (frames (k_vm k)) * PAGE_SIZE)).

(** Making the root directory of shadowFS. *)
Lemma shadow_root_delivers mount q i sb k w :
  owned (k, w) → mount ≠ 0 → objects w !! mount = Some (inj (SMount q 0 1 0)) →
  mount_table w !! i = Some sb → sb_private sb = mount →
  delivers (shadowfs_create_inode (Some i) VFS_TYPE_DIR) (k, w) (λ root s', root ≠ 0 ∧ owned s' ∧
    statics s'.2 = statics w ∧ open_files s' = open_files (k, w) ∧
    objects s'.2 !! mount = Some (inj (SMount q 0 2 0)) ∧ same_kernel (k, w) s' ∧
    (∃ d, dir_rep s' root d [] ∧ i_type d = VFS_TYPE_DIR ∧ i_ops d = Some shadowfs_ops ∧ i_sb d = Some i) ∧
    ∀ p o, objects w !! p = Some o → p ≠ mount → objects s'.2 !! p = Some o).
Proof.
  intros Ho Hm0 Hm Hi Hsb. set (d := Inode 0 0 0 0 0 0 0 0 0 0 None (Some i) 0).
  destruct (create_inode_spec k w d mount (SMount q 0 1 0) VFS_TYPE_DIR Ho) as
    [H|(ino & priv & h & w' & t & H & Ho' & Hst & Hi0 & Hp0 & Hne & Hino & Hpriv & Hobj)];
    [by exists i, sb|by right|by left|].
  eapply delivers_done; [exact H|]. split; [done|]. split; [done|]. split; [done|]. split_and!.
  - destruct (framed_create_inode (i_sb d) VFS_TYPE_DIR _ _ _ H) as [_ _ _ Hof]. by apply Hof.
  - simpl. rewrite Hobj, lookup_insert_ne, lookup_insert_ne, lookup_insert_eq; [done|congruence..].
  - done.
  - exists (new_inode 1 VFS_TYPE_DIR t (Some i) priv). split; [|done]. split; simpl.
    + rewrite Hobj, lookup_insert_ne, lookup_insert_eq by congruence. done.
    + done.
    + exists 0. split; [|done]. by rewrite Hobj, lookup_insert_eq.
    + lia.
    + constructor.
  - simpl. intros p o Hp Hpm. rewrite Hobj, !lookup_insert_ne; [done|congruence..].
Qed.

(** An empty shadowFS with [q] bytes, mounted at place [i]. *)
Definition fresh_volume (s : kw) (i : nat) (q : Z) : Prop :=
  ∃ sb d, mount_table s.2 !! i = Some sb ∧ sb_root sb ≠ 0 ∧ sb_private sb ≠ 0 ∧
    objects s.2 !! sb_private sb = Some (inj (SMount q 0 2 (sb_root sb))) ∧
    dir_rep s (sb_root sb) d [] ∧ i_type d = VFS_TYPE_DIR ∧ i_ops d = Some shadowfs_ops ∧ i_sb d = Some i.

Lemma fresh_volume_mono s s' i q : fresh_volume s i q → mount_table s'.2 !! i = mount_table s.2 !! i →
  (∀ p o, objects s.2 !! p = Some o → objects s'.2 !! p = Some o) → fresh_volume s' i q.
Proof.
  intros (sb & d & H1 & H2 & H3 & H4 & [D1 D2 (head & D3 & D4) D5 D6] & H5) Hm Hk. exists sb, d. rewrite Hm.
  split_and!; [done|done|done|by apply Hk| |apply H5..]. split; [by apply Hk|done| |done|done]. exists head. split; [by apply Hk|done].
Qed.

Lemma shadowfs_mount_delivers path q ms k w :
  owned (k, w) → mount_rep w ms → (length ms < 16)%nat → path ∉ ms.*1 → (length path < 64)%nat →
  find_among (ms.*1 ++ [path]) path = Some (length ms) → q <= free_bytes k / 2 →
  delivers (shadowfs_mount path q) (k, w) (λ r s', r = 0 ∧ grows (k, w) s' ∧
    mount_rep s'.2 (ms ++ [(path, Some shadowfs_ops)]) ∧ device_table s'.2 = device_table w ∧
    fresh_volume s' (length ms) q).
Proof.
  intros Ho Hr Hlt Hp Hlen Hfind Hq. unfold shadowfs_mount.
  eapply delivers_step; [instantiate (1 := (k, w)); instantiate (1 := free_bytes k); by destruct k as [? [] ?]|].
  rewrite (proj2 (Z.ltb_ge _ _)) by done.
  eapply delivers_bind; [by apply new_delivers|]. intros mount s1 (h & -> & G1 & Hm0 & Hnone).
  set (k1 := with_heap h k) in *. set (w1 := with_objects _ w) in *.
  destruct (vfs_mount_spec path (Some shadowfs_ops) mount ms k1 w1) as (E2 & R2 & T2); [by eapply mount_rep_ext|done..|].
  eapply delivers_step; [exact E2|]. cbv beta. change (0 <? 0) with false. cbv iota.
  set (w2 := with_mounts _ _ w1) in *.
  assert (G2 : grows (k1, w1) (k1, w2)) by (apply grows_static; [apply G1|done..]).
  apply delivers_gets. rewrite (find_mount_among w2 _ path R2), fmap_app. cbn [fst fmap list_fmap].
  rewrite Hfind. eapply delivers_bind.
  { eapply (shadow_root_delivers mount q _ _ k1 w2); [apply G2|done| |exact T2|done]. simpl. by rewrite lookup_insert_eq. }
  intros root [k3 w3] (Hr0 & Ho3 & [= E3a E3b E3c _ E3e] & Hof3 & Hm3 & Hk3 & (d & Hd & Hdt & Hdo & Hds) & Hob3). rewrite (proj2 (Z.eqb_neq _ _) Hr0).
  assert (R3 : mount_rep w3 (ms ++ [(path, Some shadowfs_ops)])) by (by eapply mount_rep_ext).
  apply delivers_modify.
  destruct (set_root_grows k3 w3 _ (length ms) root Ho3 R3) as [G4 R4]. set (w4 := with_mounts _ _ w3) in *.
  eapply delivers_step; [by apply (change_Done mount _ _ k3 w4 Hm3)|].
  assert (Hrm : root ≠ mount) by (intros ->; pose proof (dir_inode _ _ _ _ Hd) as E; simpl in E, Hm3; rewrite Hm3 in E; discriminate E).
  eapply delivers_done; [reflexivity|]. split; [done|]. split; [|split; [by eapply mount_rep_ext|split; [exact E3e|]]].
  2:{ exists (set_sb_root root (Superblock path 0 (Some shadowfs_ops) mount 0)), d. split_and!; try done.
      - unfold w4. simpl. rewrite list_lookup_alter_eq, E3a. simpl in T2. by rewrite T2.
      - simpl. by rewrite lookup_insert_eq.
      - destruct Hd as [D1 D2 (head & D3 & D4) D5 D6]. split; [|done| |done|done].
        + simpl in D1 |- *. by rewrite lookup_insert_ne by congruence.
        + exists head. split; [|done]. simpl in D3 |- *. rewrite lookup_insert_ne; [done|].
          intros E. simpl in Hm3. rewrite <- E, Hm3 in D3. discriminate D3. }
  split.
  - eapply (owned_put _ _ _ k3 w4); [apply G4|exact Hm3].
  - intros p o Hpo. assert (p ≠ mount) as Hpm by (intros ->; simpl in Hpo; congruence). simpl.
    rewrite lookup_insert_ne by done. apply Hob3; [|done]. by apply G2, G1.
  - simpl. rewrite E3c. done.
  - etrans; [apply (open_files_put k3 k3 w4 mount); exact (not_open k3 w4 _ _ Hm3)|]. etrans; [apply G4|]. rewrite Hof3.
    etrans; [apply G2|apply G1].
  - exact Hk3.
Qed.

(** The inode of a device, or of the root directory of devFS. *)
Lemma devfs_inode_delivers sb type dev k w : owned (k, w) →
  delivers (devfs_create_inode sb type dev) (k, w) (λ p s', grows (k, w) s' ∧ p ≠ 0 ∧ statics s'.2 = statics w ∧
    ∃ x, objects s'.2 !! p = Some (inj x) ∧ i_type x = type ∧ i_ops x = Some devfs_ops).
Proof.
  intros Ho. set (f := λ pr, Inode 0 type 0 438 0 0 0 0 0 1 (Some devfs_ops) sb pr).
  destruct (new_inode_spec (Inode 0 0 0 0 0 0 0 0 0 0 None None 0) (DInode None) (DInode dev) f k w Ho)
    as [H|(p & pr & h & w' & H & -> & Ho' & Hp & Hpr & Hne & Hf1 & Hf2)]; [by left|].
  eapply delivers_done; [exact H|]. split; [|split; [done|split; [done|]]].
  - eapply grows_framed; [apply (framed_devfs_create_inode sb type dev)|done|exact H| |done].
    simpl. intros q o Hq. rewrite !lookup_insert_ne; [done|congruence..].
  - exists (f pr). simpl. by rewrite lookup_insert_ne, lookup_insert_eq by done.
Qed.

(** The root directory of devFS, mounted at place [i]. *)
Definition dev_root (w : world) (i : nat) : Prop :=
  ∃ sb x, mount_table w !! i = Some sb ∧ sb_root sb ≠ 0 ∧ objects w !! sb_root sb = Some (inj (A := inode_t) x) ∧
    i_type x = VFS_TYPE_DIR ∧ i_ops x = Some devfs_ops.

Lemma devfs_mount_delivers path ms k w :
  owned (k, w) → mount_rep w ms → (length ms < 16)%nat → path ∉ ms.*1 → (length path < 64)%nat →
  find_among (ms.*1 ++ [path]) path = Some (length ms) → length (device_table w) = 16%nat →
  delivers (devfs_mount path) (k, w) (λ r s', r = 0 ∧ grows (k, w) s' ∧
    mount_rep s'.2 (ms ++ [(path, Some devfs_ops)]) ∧ devfs_ok s'.2 ∧ devices s'.2 = [] ∧ dev_root s'.2 (length ms) ∧
    ∀ i, i ≠ length ms → mount_table s'.2 !! i = mount_table w !! i).
Proof.
  intros Ho Hr Hlt Hp Hlen Hfind Hdev. unfold devfs_mount. apply delivers_modify.
  set (w1 := with_devices _ _ w). assert (G1 : grows (k, w) (k, w1)) by (by apply grows_static).
  destruct (vfs_mount_spec path (Some devfs_ops) devfs_mount_data_at ms k w1) as (E2 & R2 & T2); [by eapply mount_rep_ext|done..|].
  eapply delivers_step; [exact E2|]. cbv beta. change (0 <? 0) with false. cbv iota.
  set (w2 := with_mounts _ _ w1) in *.
  assert (G2 : grows (k, w1) (k, w2)) by (apply grows_static; [apply G1|done..]).
  apply delivers_gets. rewrite (find_mount_among w2 _ path R2), fmap_app. cbn [fst fmap list_fmap].
  rewrite Hfind. eapply delivers_bind; [apply devfs_inode_delivers, G2|].
  intros root [k3 w3] (G3 & Hr0 & [= E3a E3b E3c E3d E3e] & x & Hx & Hxt & Hxo). rewrite (proj2 (Z.eqb_neq _ _) Hr0).
  assert (R3 : mount_rep w3 (ms ++ [(path, Some devfs_ops)])) by (by eapply mount_rep_ext).
  apply delivers_modify.
  destruct (set_root_grows k3 w3 (ms ++ [(path, Some devfs_ops)]) (length ms) root) as [G4 R4]; [apply G3|done|]. set (w4 := with_mounts _ _ w3) in *.
  apply delivers_modify. set (w5 := with_devices _ _ w4).
  assert (G5 : grows (k3, w4) (k3, w5)) by (apply grows_static; [apply G4|done..]).
  eapply delivers_done; [reflexivity|]. split; [done|]. split.
  { eapply adds_trans; [exact G1|]. eapply adds_trans; [exact G2|]. eapply adds_trans; [exact G3|].
    eapply adds_trans; [exact G4|exact G5]. }
  split; [by eapply mount_rep_ext|]. split_and!.
  - unfold w5, w4. split; simpl; rewrite ?E3d, ?E3e; simpl; [done|by rewrite length_fmap|lia].
  - unfold devices, w5, w4. simpl. by rewrite E3d.
  - exists (set_sb_root root (Superblock path 0 (Some devfs_ops) devfs_mount_data_at 0)), x. split; [|done].
    unfold w5, w4. simpl. rewrite list_lookup_alter_eq, E3a. simpl in T2. by rewrite T2.
  - intros j Hj. unfold w5, w4. simpl. rewrite list_lookup_alter_ne, E3a by done. simpl. by rewrite list_lookup_insert_ne.
Qed.

(** The root directory of procFS, mounted at place [i]. *)
Definition proc_root (s : kw) (i : nat) : Prop :=
  ∃ sb, mount_table s.2 !! i = Some sb ∧ sb_root sb ≠ 0 ∧
    proc_inode s (sb_root sb) VFS_TYPE_DIR (PInode PROCFS_ROOT 0 (cs "process")).

Lemma procfs_mount_delivers path ms k w :
  owned (k, w) → mount_rep w ms → (length ms < 16)%nat → path ∉ ms.*1 → (length path < 64)%nat →
  find_among (ms.*1 ++ [path]) path = Some (length ms) →
  delivers (procfs_mount path) (k, w) (λ r s', r = 0 ∧ grows (k, w) s' ∧
    mount_rep s'.2 (ms ++ [(path, Some procfs_ops)]) ∧ devices s'.2 = devices w ∧ (devfs_ok w → devfs_ok s'.2) ∧
    proc_root s' (length ms) ∧ ∀ i, i ≠ length ms → mount_table s'.2 !! i = mount_table w !! i).
Proof.
  intros Ho Hr Hlt Hp Hlen Hfind. unfold procfs_mount.
  destruct (vfs_mount_spec path (Some procfs_ops) 0 ms k w) as (E2 & R2 & T2); [done..|].
  eapply delivers_step; [exact E2|]. cbv beta. change (0 <? 0) with false. cbv iota.
  set (w2 := with_mounts _ _ w) in *. assert (G2 : grows (k, w) (k, w2)) by (by apply grows_static).
  apply delivers_gets. rewrite (find_mount_among w2 _ path R2), fmap_app. cbn [fst fmap list_fmap].
  rewrite Hfind. set (f := λ pr, Inode 0 VFS_TYPE_DIR 0 292 0 0 0 0 0 1 (Some procfs_ops) (Some (length ms)) pr).
  assert (Hin : delivers (procfs_create_inode (Some (length ms)) VFS_TYPE_DIR PROCFS_ROOT 0 (cs "process")) (k, w2)
    (λ p s', grows (k, w2) s' ∧ p ≠ 0 ∧ statics s'.2 = statics w2 ∧
      proc_inode s' p VFS_TYPE_DIR (PInode PROCFS_ROOT 0 (cs "process")))).
  { destruct (new_inode_spec (Inode 0 0 0 0 0 0 0 0 0 0 None None 0) (PInode PROCFS_ROOT 0 [])
      (PInode PROCFS_ROOT 0 (cs "process")) f k w2) as [H|(p & pr & h & w' & H & -> & Ho' & Hp0 & Hpr & Hne & Hf1 & Hf2)];
      [apply G2|by left|].
    eapply delivers_done; [exact H|]. split; [|split; [done|split; [done|]]].
    - eapply grows_framed; [apply (framed_procfs_create_inode (Some (length ms)) VFS_TYPE_DIR PROCFS_ROOT 0 (cs "process"))|apply G2|exact H| |done].
      simpl in Hf1, Hf2 |- *. intros q o Hq. rewrite !lookup_insert_ne; [done|congruence..].
    - exists (f pr). simpl. rewrite lookup_insert_ne, !lookup_insert_eq by done. by split_and!. }
  eapply delivers_bind; [exact Hin|]. intros root [k3 w3] (G3 & Hr0 & [= E3a E3b E3c E3d E3e] & Hin3).
  rewrite (proj2 (Z.eqb_neq _ _) Hr0). apply delivers_modify.
  destruct (set_root_grows k3 w3 (ms ++ [(path, Some procfs_ops)]) (length ms) root) as [G4 R4];
    [apply G3|by eapply mount_rep_ext|].
  eapply delivers_done; [reflexivity|]. split; [done|]. split.
  { eapply adds_trans; [exact G2|]. eapply adds_trans; [exact G3|exact G4]. }
  split; [done|]. split; [unfold devices; simpl; by rewrite E3d, E3e|]. split.
  { intros [c1 c2 c3]. split; simpl; by rewrite ?E3d, ?E3e. } split.
  - exists (set_sb_root root (Superblock path 0 (Some procfs_ops) 0 0)). split; [|done]. simpl.
    rewrite list_lookup_alter_eq, E3a. simpl in T2. by rewrite T2.
  - intros j Hj. simpl. rewrite list_lookup_alter_ne, E3a by done. simpl. by rewrite list_lookup_insert_ne.
Qed.

End Mounts.

(** * Registering the devices *)

Section Devices.
Context `{C : Clock} `{D : Drivers} `{T : Scratch}.

Lemma framed_with_devices d f : framed (in_world (modify (with_devices d f))).
Proof. intros [k w] u s' [= <- <-]. split; [|done..]. intros H. by eapply owned_ext. Qed.
Hint Resolve framed_with_devices framed_devfs_create_inode : framed.

Lemma framed_devfs_register path name r wr : framed (devfs_register path name r wr).
Proof. unfold devfs_register. framed. Qed.

(** devFS is mounted at place [i] and knows the devices [devs]. *)
Record serving (s : kw) (ms : list (list Z * option ops_table)) (devs : list devfs_device_t) (i : nat) : Prop := {
  sv_fds : fd_inv s;
  sv_mounts : mount_rep s.2 ms;
  sv_ok : devfs_ok s.2;
  sv_devices : devices s.2 = devs;
  sv_root : dev_root s.2 i }.

Definition keeps (s s' : kw) : Prop := ∀ q o, objects s.2 !! q = Some o → objects s'.2 !! q = Some o.

(** Objects are added; the mounts, the processes and the address spaces stay. *)
Definition stays (s s' : kw) : Prop := keeps s s' ∧ mount_table s'.2 = mount_table s.2 ∧ same_kernel s s'.

#[export] Instance stays_preorder : PreOrder stays.
Proof.
  split; [intros s; split; [by intros q o|done]|]. intros s1 s2 s3 (K1 & M1 & S1) (K2 & M2 & S2). split; [|split; [congruence|by etrans]].
  intros q o H. by apply K2, K1.
Qed.

Lemma dev_root_mono w w' i : dev_root w i → mount_table w' = mount_table w →
  (∀ q o, objects w !! q = Some o → objects w' !! q = Some o) → dev_root w' i.
Proof. intros (sb & x & H1 & H2 & H3 & H4) Hm Hk. exists sb, x. rewrite Hm. auto. Qed.

Lemma devices_count w : devfs_ok w → Z.of_nat (length (devices w)) = dev_count (devfs_mount_data w).
Proof. intros [_ Hl Hn]. unfold devices. rewrite length_take. lia. Qed.

Lemma register_serving path name r wr s ms devs i :
  serving s ms devs i → (length devs < 16)%nat → find_among ms.*1 path = Some i →
  delivers (devfs_register path name r wr) s (λ _ s', serving s' ms (devs ++ [Device (kstrcpy_val name VFS_MAX_NAME) r wr]) i ∧
    stays s s' ∧ file_table s'.2 = file_table s.2).
Proof.
  intros [Hfd Hms Hok Hdv Hrt] Hlt Hf. destruct s as [k w]. simpl in *. pose proof (devices_count w Hok) as Hc. rewrite Hdv in Hc.
  assert (Hfm : vfs_find_mount w path = Some i) by (by rewrite (find_mount_among _ _ _ Hms)).
  destruct (register_spec path name r wr i k w (proj1 Hfd) Hok ltac:(lia) Hfm)
    as [H|([k' w'] & H & Ho' & Hok' & Hdv' & Hmt & Hmc & Hft & Hobj & Hks & Hkv)]; [by left|].
  eapply delivers_done; [exact H|]. simpl in *. split; [|by split]. split.
  - eapply fd_inv_grows; [exact Hfd|]. eapply grows_framed; [apply (framed_devfs_register path name r wr)|apply Hfd|exact H|done|by split].
  - by eapply mount_rep_ext.
  - done.
  - simpl. by rewrite Hdv', Hdv.
  - by eapply dev_root_mono.
Qed.

(** * Opening a device at a fixed descriptor *)

(** Descriptor [fd] is open with [flags] on the device number [n]. *)
Definition on_device (s : kw) (fd : nat) (flags : Z) (n : nat) : Prop :=
  ∃ p f, file_table s.2 !! fd = Some p ∧ p ≠ 0 ∧ objects s.2 !! p = Some (inj f) ∧
    f_flags f = flags ∧ position f = 0 ∧ ref_count f = 1 ∧ device_inode s (f_inode f) n.

Lemma on_device_mono s s' fd flags n :
  on_device s fd flags n → keeps s s' → file_table s'.2 !! fd = file_table s.2 !! fd → on_device s' fd flags n.
Proof.
  intros (p & f & H1 & H2 & H3 & H4 & H5 & H6 & (x & X1 & X2 & X3 & X4 & X5)) Hk Ht. exists p, f. rewrite Ht.
  split_and!; [done|done|by apply Hk|done..|]. exists x. split_and!; [by apply Hk|done..|by apply Hk].
Qed.

(** Resolving the path of a device. *)
Lemma resolve_device path name mp ops ms devs i n dev k w :
  serving (k, w) ms devs i → ms !! i = Some (mp, ops) → find_among ms.*1 path = Some i →
  components (drop (length mp) path) = [name] → short name → device_named name devs = Some (n, dev) →
  delivers (vfs_resolve_path path) (k, w) (λ p s', adds_inode (k, w) s' p ∧ device_inode s' p n ∧
    open_files s' = open_files (k, w) ∧ device_table s'.2 = device_table w ∧ devfs_mount_data s'.2 = devfs_mount_data w).
Proof.
  intros [Hfd Hms Hok Hdv (sb & x & Hsb & Hr0 & Hx & _ & Hxo)] Hi Hf Hcomp Hshort Hnm. simpl in *.
  rewrite <- (find_mount_among _ _ _ Hms) in Hf. pose proof (find_mount_spec w path) as Hs. rewrite Hf in Hs.
  destruct Hs as [sb' Hown]. pose proof Hown as (Hsb' & _ & _). pose proof Hsb' as [Hsb1 _]%lookup_take_Some.
  assert (sb' = sb) as -> by congruence. clear Hsb1.
  assert (mount_point sb = mp) as Hmp.
  { destruct Hms as [_ Hc Hm]. rewrite Hc, Nat2Z.id in Hsb'. rewrite <- Hm, list_lookup_fmap, Hsb' in Hi. by injection Hi. }
  unfold delivers. rewrite (resolve_owned path k w i sb Hf Hown) by (rewrite Hmp, Hcomp; by repeat constructor).
  rewrite Hmp, Hcomp, (proj2 (Z.eqb_neq _ _) Hr0). cbn [look_up_all].
  change (delivers (dir ← fetch inode_t (sb_root sb); match op op_lookup dir with None => mret 0 | Some lookup =>
    next ← lookup (sb_root sb) name; if next =? 0 then mret 0 else mret next end) (k, w) (λ p s', adds_inode (k, w) s' p ∧
    device_inode s' p n ∧ open_files s' = open_files (k, w) ∧ device_table s'.2 = device_table w ∧
    devfs_mount_data s'.2 = devfs_mount_data w)).
  eapply delivers_step; [by apply fetch_Done|].
  assert (op op_lookup x = Some devfs_lookup) as -> by (unfold op; by rewrite Hxo).
  pose proof (devfs_lookup_spec (sb_root sb) x name k w (proj1 Hfd) Hok Hr0 Hx) as Hl. rewrite Hdv, Hnm in Hl.
  destruct Hl as [Hl|(p & s' & Hl & Ha & Hin & Hdt & Hdm)]; [left; by apply bind_Panic|].
  eapply delivers_step; [exact Hl|]. cbv beta. rewrite (proj2 (Z.eqb_neq p 0)) by apply Ha.
  eapply delivers_done; [reflexivity|]. split_and!; [done|done| |done|done].
  destruct (framed_devfs_lookup _ _ _ _ _ Hl) as [_ _ _ Ho]. apply Ho, Hfd.
Qed.

(** What opening a file of the device [n] gives. *)
Record device_file (s s' : kw) (flags : Z) (n : nat) (q p : Z) : Prop := {
  df_nonnull : q ≠ 0;
  df_owned : owned s';
  df_keeps : keeps s s';
  df_new : open_files s !! q = None;
  df_open : open_files s' = <[q := File p 0 flags 1 0]> (open_files s);
  df_statics : statics s'.2 = statics s.2;
  df_kernel : same_kernel s s';
  df_file : objects s'.2 !! q = Some (inj (File p 0 flags 1 0));
  df_inode : device_inode s' p n }.

Lemma open_device_file path name mp ops flags ms devs i n dev k w :
  serving (k, w) ms devs i → ms !! i = Some (mp, ops) → find_among ms.*1 path = Some i →
  components (drop (length mp) path) = [name] → short name → device_named name devs = Some (n, dev) →
  flags = O_RDONLY ∨ flags = O_WRONLY →
  delivers (vfs_open_file path flags) (k, w) (λ q s', ∃ p, device_file (k, w) s' flags n q p).
Proof.
  intros Hsv Hi Hf Hcomp Hshort Hnm Hfl. unfold vfs_open_file.
  eapply delivers_bind; [by eapply resolve_device|]. intros p [k1 w1] (Ha & Hin & Hof & Hdt & Hdm).
  rewrite (proj2 (Z.eqb_neq p 0)) by apply Ha. cbn [negb]. eapply delivers_step; [reflexivity|]. cbv beta.
  rewrite (proj2 (Z.eqb_neq p 0)) by apply Ha.
  destruct (new_spec (File p 0 flags 1 0) k1 w1 (adds_owned _ _ _ Ha)) as [H|(q & h & H & Hq & Hq0 & Ho2)];
    [left; by apply bind_Panic|].
  eapply delivers_step; [exact H|]. assert (flag flags O_TRUNC = false ∧ flag flags O_APPEND = false) as [-> ->]
    by (by destruct Hfl as [-> | ->]).
  eapply delivers_step; [reflexivity|]. cbv beta. pose proof Hin as (x & Hx & Hxt & Hxo & Hxp & Hpr). simpl in Hx, Hpr.
  set (w2 := with_objects _ w1) in *. set (k2 := with_heap h k1) in *.
  assert (Hx2 : objects w2 !! p = Some (inj x)) by (simpl; rewrite lookup_insert_ne by congruence; done).
  eapply delivers_step; [by apply fetch_Done|].
  assert (op op_open x = Some devfs_open) as -> by (unfold op; by rewrite Hxo).
  eapply delivers_step; [reflexivity|]. cbv beta. change (0 <? 0) with false. cbv iota.
  eapply delivers_step; [reflexivity|]. cbv beta. eapply delivers_done; [reflexivity|].
  exists p. destruct Ha as [_ Hp0 _ Hk [Hm1 Hm2] Hft Hks]. split.
  - done.
  - done.
  - intros a o Hao. apply Hk in Hao. simpl in Hao |- *. rewrite lookup_insert_ne; [done|congruence].
  - rewrite <- Hof. by rewrite open_files_lookup, Hq.
  - etrans; [apply (open_files_insert k1)|]. by rewrite Hof.
  - unfold statics. simpl in *. congruence.
  - done.
  - simpl. by rewrite lookup_insert_eq.
  - exists x. split_and!; [done..|]. simpl. rewrite lookup_insert_ne by congruence. done.
Qed.

Lemma open_serving path name mp ops flags fd ms devs i n dev s :
  serving s ms devs i → ms !! i = Some (mp, ops) → find_among ms.*1 path = Some i →
  components (drop (length mp) path) = [name] → short name → device_named name devs = Some (n, dev) →
  flags = O_RDONLY ∨ flags = O_WRONLY → (fd < 3)%nat → file_table s.2 !! fd = Some 0 →
  delivers (vfs_open_at path flags (Z.of_nat fd)) s (λ r s', serving s' ms devs i ∧ stays s s' ∧
    (∀ j, j ≠ fd → file_table s'.2 !! j = file_table s.2 !! j) ∧ on_device s' fd flags n).
Proof.
  intros Hsv Hi Hf Hcomp Hshort Hnm Hfl Hfd3 Hfd. destruct s as [k w]. unfold vfs_open_at.
  assert (bad_fd (Z.of_nat fd) = false) as -> by (unfold bad_fd, VFS_MAX_FDS; lia).
  eapply delivers_bind; [by eapply open_device_file|].
  intros q [k2 w2] (p & [Hq0 Ho2 Hk Hqn Hof [= S1 S2 S3 S4 S5] Hsk Hqf Hin]). rewrite (proj2 (Z.eqb_neq q 0)) by done.
  apply delivers_gets. rewrite S3, Nat2Z.id. simpl in Hfd. rewrite Hfd. eapply delivers_step; [reflexivity|]. cbv beta.
  change (0 =? 0) with true. cbn [negb]. eapply delivers_step; [reflexivity|]. cbv beta. apply delivers_modify.
  eapply delivers_done; [reflexivity|]. destruct Hsv as [[Ho Hok] Hms Hdok Hdv Hrt].
  split; [|split; [done|split]]; [split| |].
  - split; [by eapply owned_ext|]. simpl. change (open_files (k2, _)) with (open_files (k2, w2)). rewrite S3, Hof.
    by apply fd_ok_install.
  - by eapply mount_rep_ext.
  - destruct Hdok as [c1 c2 c3]. split; simpl; by rewrite ?S4, ?S5.
  - unfold devices in *. simpl. by rewrite S4, S5.
  - by eapply dev_root_mono.
  - intros j Hj. simpl. by rewrite list_lookup_insert_ne, S3.
  - exists q, (File p 0 flags 1 0). split_and!; [|done..]. simpl. rewrite S3. apply list_lookup_insert_eq.
    by eapply lookup_lt_Some.
Qed.

End Devices.

(** * The kernel starts its file systems *)

(** The static data before it is used: zero. *)
Definition bss : world :=
  World ∅ (replicate 16 (Superblock [] 0 None 0 0)) 0 (replicate 256 0) (DMount 0 0 0) (replicate 16 no_device) 0.

Definition boot_mounts : list (list Z * option ops_table) :=
  [(cs "/temp", Some shadowfs_ops); (cs "/devices", Some devfs_ops); (cs "/process", Some procfs_ops)].

Definition boot_devices `{H : Handlers} : list devfs_device_t :=
  [Device (cs "display") None (Some dev_display_write); Device (cs "keyboard") (Some dev_keyboard_read) None;
   Device (cs "null") (Some dev_null_read_at) (Some dev_null_write_at); Device (cs "random") (Some dev_random_read) None;
   Device (cs "serial") (Some dev_serial_read) (Some dev_serial_write); Device (cs "rtc") (Some dev_rtc_read_at) None].

(** A decidable fact about concrete data. *)
Ltac decided := apply (bool_decide_unpack _); vm_compute; exact I.

Section Start.
Context `{C : Clock} `{D : Drivers} `{T : Scratch} `{H : Handlers}.

Lemma mount_or_panic_delivers (m : M kw Z) msg s Q :
  delivers m s (λ r s', r = 0 ∧ Q s') → delivers (mount_or_panic m msg) s (λ _ s', Q s').
Proof.
  intros Hm. eapply delivers_bind; [exact Hm|]. intros a s' [-> HQ]. by eapply delivers_done.
Qed.

Lemma register_devices_serving s :
  serving s (take 2 boot_mounts) [] 1 → delivers register_devices s (λ _ s',
    serving s' (take 2 boot_mounts) boot_devices 1 ∧ stays s s' ∧ file_table s'.2 = file_table s.2).
Proof.
  intros H0. cut (∀ s0, stays s0 s → file_table s.2 = file_table s0.2 → delivers register_devices s (λ _ s',
    serving s' (take 2 boot_mounts) boot_devices 1 ∧ stays s0 s' ∧ file_table s'.2 = file_table s0.2)); [intros X; by apply X|].
  intros s0 K0 T0. unfold register_devices.
  do 6 (eapply delivers_bind; [apply (register_serving (cs "/devices")); [eassumption|simpl; lia|reflexivity]|];
        clear H0; intros ? s1 (H0 & K1 & T1); rewrite T0 in T1; pose proof (transitivity K0 K1) as K2; clear K0 K1 T0;
        rename K2 into K0, T1 into T0; clear s; rename s1 into s).
  eapply delivers_done; [reflexivity|]. by split_and!.
Qed.

Lemma open_stdio_serving s :
  serving s (take 2 boot_mounts) boot_devices 1 → (∀ fd, (fd < 3)%nat → file_table s.2 !! fd = Some 0) →
  delivers open_stdio s (λ _ s', serving s' (take 2 boot_mounts) boot_devices 1 ∧ stays s s' ∧
    on_device s' 0 O_RDONLY 1 ∧ on_device s' 1 O_WRONLY 0 ∧ on_device s' 2 O_WRONLY 0 ∧
    ∀ fd, (3 <= fd)%nat → file_table s'.2 !! fd = file_table s.2 !! fd).
Proof.
  intros S0 Hfree. unfold open_stdio.
  eapply delivers_bind.
  { eapply (open_serving (cs "/devices/keyboard") (cs "keyboard") _ _ O_RDONLY 0); [exact S0|reflexivity..| |reflexivity|by left|lia|].
    - by compute.
    - apply Hfree. lia. }
  intros _ s1 (S1 & K1 & T1 & D1). eapply delivers_bind.
  { eapply (open_serving (cs "/devices/display") (cs "display") _ _ O_WRONLY 1); [exact S1|reflexivity..| |reflexivity|by right|lia|].
    - by compute.
    - rewrite T1 by lia. apply Hfree. lia. }
  intros _ s2 (S2 & K2 & T2 & D2). eapply delivers_bind.
  { eapply (open_serving (cs "/devices/display") (cs "display") _ _ O_WRONLY 2); [exact S2|reflexivity..| |reflexivity|by right|lia|].
    - by compute.
    - rewrite T2, T1 by lia. apply Hfree. lia. }
  intros _ s3 (S3 & K3 & T3 & D3). eapply delivers_done; [reflexivity|]. split; [done|]. split_and!.
  - by etrans; [|etrans].
  - eapply on_device_mono; [exact D1|intros q o Hq; by apply K3, K2|by rewrite T3, T2 by lia].
  - eapply on_device_mono; [exact D2|apply K3|by rewrite T3 by lia].
  - done.
  - intros fd Hfd. by rewrite T3, T2, T1 by lia.
Qed.

(** The file systems as kernel_main() leaves them, on the kernel [k]. *)
Record started (k : kernel) (s : kw) : Prop := {
  st_mounts : mount_rep s.2 boot_mounts;
  st_devices : devices s.2 = boot_devices;
  st_ok : devfs_ok s.2;
  st_fds : fd_inv s;
  st_stdin : on_device s 0 O_RDONLY 1;
  st_stdout : on_device s 1 O_WRONLY 0;
  st_stderr : on_device s 2 O_WRONLY 0;
  st_free fd : (3 <= fd < 256)%nat → file_table s.2 !! fd = Some 0;
  st_temp : fresh_volume s 0 (8 * 1024 * 1024);
  st_dev : dev_root s.2 1;
  st_proc : proc_root s 2;
  st_kernel : k_sched s.1 = k_sched k ∧ k_vm s.1 = k_vm k }.

Lemma start_filesystems_delivers k :
  owned (k, bss) → 8 * 1024 * 1024 <= free_bytes k / 2 →
  delivers start_filesystems (k, bss) (λ _ s', started k s').
Proof.
  intros Ho Hfree. unfold start_filesystems. eapply delivers_step; [reflexivity|]. cbv beta.
  change (delivers ?m _ ?Q) with (delivers m (k, bss) Q).
  assert (Hinv : fd_inv (k, bss)).
  { apply (vfs_init_inv k bss bss); [done|reflexivity|reflexivity|reflexivity]. }
  assert (R0 : mount_rep bss []) by (by split).
  eapply delivers_bind.
  { apply mount_or_panic_delivers, (shadowfs_mount_delivers _ _ []); first [done | by decided | simpl; lia]. }
  intros _ [k1 w1] (G1 & R1 & T1 & V1). eapply delivers_bind.
  { apply mount_or_panic_delivers, (devfs_mount_delivers _ (take 1 boot_mounts));
      [apply G1|exact R1|simpl; lia|by decided|simpl; lia|reflexivity|]. simpl in T1. by rewrite T1. }
  intros _ s2 (G2 & R2 & O2 & Dv2 & Rt2 & M2). eapply delivers_bind.
  { apply register_devices_serving. split; [|done..]. eapply fd_inv_grows; [by eapply fd_inv_grows|exact G2]. }
  intros _ s3 (S3 & K3 & T3). eapply delivers_bind.
  { apply open_stdio_serving; [done|]. intros fd Hfd. pose proof (gr_files _ _ G1) as F1. rewrite T3, (gr_files _ _ G2). simpl in F1 |- *. rewrite F1.
    assert (fd = 0%nat ∨ fd = 1%nat ∨ fd = 2%nat) as [-> |[-> | ->]] by lia; reflexivity. }
  intros _ [k4 w4] (S4 & K4 & D0 & D1 & D2 & T4). eapply (transitivity K3) in K4.
  eapply delivers_impl.
  { apply mount_or_panic_delivers, (procfs_mount_delivers _ (take 2 boot_mounts)); 
      [apply S4|apply S4|simpl; lia|by decided|simpl; lia|reflexivity]. }
  intros _ s5 (G5 & R5 & Dv5 & O5 & P5 & M5). destruct S4 as [Hfd4 _ Hok4 Hdv4 Hrt4]. destruct K4 as (K4 & M4 & Hk4).
  assert (Hon : ∀ fd fl n, on_device (k4, w4) fd fl n → on_device s5 fd fl n).
  { intros fd fl n Hon. eapply on_device_mono; [exact Hon|intros q o; apply (gr_objects _ _ G5)|by rewrite (gr_files _ _ G5)]. }
  split; [exact R5|by rewrite Dv5|by apply O5|by eapply fd_inv_grows|by apply Hon..| | | |exact P5|].
  - intros fd Hfd. rewrite (gr_files _ _ G5). simpl in *.
    pose proof (gr_files _ _ G1) as F1. rewrite T4, T3, (gr_files _ _ G2) by lia. simpl in F1 |- *. rewrite F1.
    apply (lookup_replicate_2 256). lia.
  - eapply fresh_volume_mono; [exact V1| |].
    + rewrite M5 by (simpl; lia). simpl in M4 |- *. rewrite M4. apply M2. simpl. lia.
    + intros p o Hp. apply G5, K4, G2, Hp.
  - destruct Hrt4 as (sb & x & H1 & H2 & H3 & H4). exists sb, x. rewrite M5 by (simpl; lia). split_and!; [done|done| |apply H4..].
    by apply G5.
  - pose proof (gr_kernel _ _ G1) as E1. pose proof (gr_kernel _ _ G5) as E5.
    exact (transitivity E1 (transitivity (gr_kernel _ _ G2) (transitivity Hk4 E5))).
Qed.

End Start.

(** functional: kernel_main() starts its file systems. From zeroed
    static data and any valid heap, with room for the 8 MB of /temp, the
    calls it makes end, unless the kernel heap runs out, with exactly
    shadowFS at /temp, devFS at /devices and procFS at /process mounted; the
    six devices registered in order; descriptor 0 open for reading on the
    keyboard, 1 and 2 for writing on the display; every other descriptor
    free; and the descriptor invariant established. *)
Lemma filesystems_start `{C : Clock} `{D : Drivers} `{T : Scratch} `{H : Handlers} k :
  owned (k, bss) → 8 * 1024 * 1024 <= free_bytes k / 2 →
  start_filesystems (k, bss) = Panic out_of_memory ∨
  ∃ s', start_filesystems (k, bss) = Done tt s' ∧ mount_rep s'.2 boot_mounts ∧ devices s'.2 = boot_devices ∧ fd_inv s' ∧
    on_device s' 0 O_RDONLY 1 ∧ on_device s' 1 O_WRONLY 0 ∧ on_device s' 2 O_WRONLY 0 ∧
    ∀ fd, (3 <= fd < 256)%nat → file_table s'.2 !! fd = Some 0.
Proof.
  intros Ho Hfree. destruct (start_filesystems_delivers k Ho Hfree) as [E|([] & s' & E & [])]; [by left|right].
  exists s'. by split_and!.
Qed.

(** The machine after mem_init() and pmm_init(), with 32 MB free. *)
Definition demo_machine : kernel :=
  Kernel (Sched ∅ (replicate 16 0) 0 1 0 0 0 0 []) (Vm ∅ (Pmm ∅ 8192 0) 0 0) fresh_heap.

Definition demo_handlers : Handlers := {|
  dev_display_write := 4000; dev_keyboard_read := 5000; dev_null_read_at := 1000; dev_null_write_at := 2000;
  dev_random_read := 6000; dev_serial_read := 7000; dev_serial_write := 8000; dev_rtc_read_at := 9000 |}.

Definition demo_start_filesystems : outcome kw unit :=
  start_filesystems (C := demo_clock) (D := demo_drivers) (T := demo_scratch) (H := demo_handlers) (demo_machine, bss).

Lemma filesystems_start_witness :
  ∃ s', demo_start_filesystems = Done tt s' ∧ mount_rep s'.2 boot_mounts ∧ on_device s' 1 O_WRONLY 0.
Proof.
  destruct (filesystems_start (C := demo_clock) (D := demo_drivers) (T := demo_scratch) (H := demo_handlers) demo_machine)
    as [Hp|(s' & Hrun & Hm & _ & _ & _ & Hd & _)].
  - apply (owned_ext (demo_kernel, demo_start)); [apply demo_owned|reflexivity|reflexivity].
  - vm_compute. discriminate.
  - assert (Hdone : match demo_start_filesystems with Done _ _ => true | _ => false end = true) by (vm_compute; reflexivity).
    unfold demo_start_filesystems in Hdone. rewrite Hp in Hdone. discriminate Hdone.
  - exists s'. split; [exact Hrun|]. split; [exact Hm|exact Hd].
Defined.
