(* ===== verification/Serve.v ===== *)
(** Programs in files: the virtual file system of Vfs, over the tables of
    Boot, as the file system the processes and the loader use.

    The functions of vfs.c are given strings and buffers by their contents;
    here a pointer is read and written as in UserMemory, and the string at a
    pointer is [string_at]. A path into shadowFS is served as the loader
    relies on it ([FileServer]). *)

From S2P Require Import Prelude CString Rtc Pmm Heap Phys Paging Space UserMemory Sched Process Fork Elf Spawn.
From S2P Require Import Objects Vfs Shadowfs ShadowfsFiles Devfs Procfs Boot.

(** * The interface of the processes *)

(** A dentry_t: 64 bytes of name, a pointer, a uint32_t. *)
Definition write_dentry (p : Z) (d : dentry_t) : M vm unit :=
  write_to p (d_name d ++ [0]) ;;
  write_to (p + 64) (split 8 (d_inode d)) ;;
  write_to (p + 72) (split 4 (d_type d)).

Section Files.
Context `{FS : Filesystems} (string_at : Z → vm → list Z).

Definition in_memory {A} (m : M vm A) : M kw A := in_kernel (in_vm m).

#[local] Instance acorn_vfs : Process.Vfs world := {|
  Process.vfs_open path flags := p ← in_memory (gets (string_at path)); vfs_open p flags;
  Process.vfs_close fd := vfs_close fd;
  Process.vfs_read fd buf n :=
    '(r, bytes) ← vfs_read fd buf n;
    in_memory (write_to buf bytes) ;;
    mret r;
  Process.vfs_write fd buf n :=
    data ← in_memory (read_from (Z.to_nat n) buf);
    vfs_write fd buf data;
  Process.vfs_seek fd offset whence := vfs_seek fd offset whence;
  Process.vfs_mkdir path := p ← in_memory (gets (string_at path)); vfs_mkdir p;
  Process.vfs_readdir fd dentry :=
    '(r, o) ← vfs_readdir fd (if dentry =? 0 then None else Some (Dentry [] 0 0));
    match o with
    | Some d => (if 0 <? r then in_memory (write_dentry dentry d) else mret tt) ;; mret r
    | None => mret r
    end;
  Process.vfs_delete path := p ← in_memory (gets (string_at path)); vfs_delete p;
  Process.vfs_size fd :=
    file ← in_world (vfs_get_file fd);
    if file =? 0 then mret None
    else
      f ← fetch file_t file;
      if f_inode f =? 0 then mret None
      else x ← fetch inode_t (f_inode f); mret (Some (i_size x)) |}.

Lemma in_memory_gets {A} (f : vm → A) k (w : world) : in_memory (gets f) (k, w) = Done (f (k_vm k)) (k, w).
Proof. by destruct k. Qed.

End Files.

(** * Paths into shadowFS *)

(** From the directory [dir] the names lead to the inode [p], through
    directories of shadowFS; 0 when one is missing. *)
Inductive leads (w : world) : Z → list (list Z) → Z → Prop :=
  | leads_here p : leads w p [] p
  | leads_missing k dir d es name names : dir ≠ 0 → dir_rep (k, w) dir d es → i_ops d = Some shadowfs_ops →
      assoc name (listing es) = 0 → leads w dir (name :: names) 0
  | leads_down k dir d es name names next p : dir ≠ 0 → dir_rep (k, w) dir d es → i_ops d = Some shadowfs_ops →
      assoc name (listing es) = next → next ≠ 0 → leads w next names p → leads w dir (name :: names) p.

(** The path leads from its mount to the inode [p]. *)
Definition at_path (w : world) (path : list Z) (p : Z) : Prop :=
  ∃ i sb, vfs_find_mount w path = Some i ∧ owner w path i sb ∧ sb_root sb ≠ 0 ∧
    Forall short (components (drop (length (mount_point sb)) path)) ∧
    leads w (sb_root sb) (components (drop (length (mount_point sb)) path)) p.

Section Served.
Context `{C : Clock} `{D : Drivers} `{T : Scratch} (string_at : Z → vm → list Z).

Lemma dir_rep_world k k' w dir d es : dir_rep (k, w) dir d es → dir_rep (k', w) dir d es.
Proof. intros []. by split. Qed.

Lemma look_up_leads w dir names p : leads w dir names p → ∀ k, look_up_all names dir (k, w) = Done p (k, w).
Proof.
  induction 1 as [p|k0 dir d es name names Hd0 Hd Hops Has|k0 dir d es name names next p Hd0 Hd Hops Has Hn Hl IH]; intros k; [done| |];
    apply (dir_rep_world k0 k) in Hd; pose proof (dir_inode _ _ _ _ Hd) as Hx; cbn [look_up_all];
    rewrite (bind_Done _ _ _ _ _ (fetch_Done _ _ _ _ Hx));
    (assert (Hop : op op_lookup d = Some shadowfs_lookup) by (unfold op; by rewrite Hops)); rewrite Hop;
    rewrite (bind_Done _ _ _ _ _ (lookup_spec k w dir d es name Hd Hd0)), Has.
  - done.
  - rewrite (proj2 (Z.eqb_neq next 0)) by done. apply IH.
Qed.

Lemma resolve_at_path w path p k : at_path w path p → vfs_resolve_path path (k, w) = Done p (k, w).
Proof.
  intros (i & sb & Hf & Hown & Hr & Hs & Hl). rewrite (resolve_owned path k w i sb Hf Hown Hs).
  rewrite (proj2 (Z.eqb_neq _ 0)) by done. by apply look_up_leads.
Qed.

(** ** Files that are kept *)

(** The blocks of a file that are not in the heap's pages. *)
Definition pages_off_heap (bs : blocks) : Prop := ∀ p, p ∈ pages bs → ¬ heap_page p.

Lemma owned_takes k k' w bl : owned (k, w) → takes bl (k_heap k) (k_heap k') → owned (k', w).
Proof.
  intros (l & HI & Hl) Ht. exists (bl ++ l). split; [by apply Ht|]. intros p o Hp. apply elem_of_app. right. by apply Hl.
Qed.

Lemma file_rep_kept k k' w w' ino x bs c : file_rep (k, w) ino x bs c → kept (k_vm k) (k_vm k') → pages_off_heap bs →
  (∀ q o, objects w !! q = Some o → objects w' !! q = Some o) → file_rep (k', w') ino x bs c.
Proof.
  intros [Hx Hn Hty [(head & Hp & Hc) Hpg Hnd Hu Hf] Hct Hsz] Hk Hoff Hob. simpl in *. split; [by apply Hob|done|done| | |done].
  - split; [|done|done| |done].
    + exists head. split; [by apply Hob|]. eapply chain_frame; [|exact Hc]. intros a y _. apply Hob.
    + intros p Hpp. by apply (kept_used _ _ Hk), Hu.
  - rewrite <- Hct. apply content_frame.
    + intros p i Hpp Hi. apply (kept_mem _ _ Hk); [|by apply Hu|by apply Hoff|done].
      apply list_elem_of_fmap in Hpp as (b & -> & Hb). rewrite list.Forall_forall in Hpg. apply (Hpg _ Hb).
    + intros a b Hb. by eapply filled_le.
Qed.

(** A new object takes one block. *)
Lemma new_takes {A} `{!Struct A} (x : A) k w : owned (k, w) →
  panics_or (new x) (k, w) (λ p s', ∃ h, s' = (with_heap h k, with_objects <[p := inj x]> w) ∧ objects w !! p = None ∧
    p ≠ 0 ∧ owned s' ∧ takes [(p, obj_size (inj x))] (k_heap k) h).
Proof.
  intros Hown. pose proof Hown as (l & HI & _). cbn [fst] in HI. pose proof (obj_size_pos (inj x)) as Hsz.
  destruct (new_spec x k w Hown) as [H|(p & h & H & Hn & Hp0 & Ho)]; [left; by eexists|].
  eapply panics_or_done; [exact H|]. exists h. split; [done|]. split; [done|]. split; [done|]. split; [done|].
  destruct (kmalloc_kept _ _ (obj_size (inj x)) HI) as [[msg Hk]|(p' & h' & Hk & Ht)]; [simpl; lia| |].
  - assert (new x (k, w) = Panic msg) by (apply bind_Panic; unfold in_kernel, in_heap, zoom; cbn [fst]; by rewrite Hk). congruence.
  - assert (Hnew : new x (k, w) = Done p' (with_heap h' k, with_objects <[p' := inj x]> w)).
    { unfold new. erewrite bind_Done by (apply in_kernel_Done, in_heap_Done, Hk). done. }
    rewrite Hnew in H. injection H as -> <-. exact Ht.
Qed.

(** The descriptor [fd] is open on the shadowFS inode at [ino]. *)
Record open_shadow (w : world) (fd file : Z) (f : file_t) (ino : Z) (x : inode_t) : Prop := {
  os_fd : bad_fd fd = false ∧ file_table w !! Z.to_nat fd = Some file;
  os_file : objects w !! file = Some (inj f) ∧ file ≠ 0;
  os_inode : f_inode f = ino ∧ ino ≠ 0 ∧ objects w !! ino = Some (inj x) ∧ i_ops x = Some shadowfs_ops;
  os_refs : ref_count f = 1 ∧ f_flags f = O_RDONLY }.

Lemma get_file_Done w fd file f ino x k : open_shadow w fd file f ino x →
  in_world (vfs_get_file fd) (k, w) = Done file (k, w).
Proof.
  intros [[Hb Ht] _ _ _]. unfold in_world, zoom, vfs_get_file. rewrite Hb. run. cbn. by rewrite Ht.
Qed.

Lemma shadow_op {A} (x : inode_t) (f : fs_ops → option A) : i_ops x = Some shadowfs_ops → op f x = f shadowfs_table.
Proof. intros Hx. unfold op. by rewrite Hx. Qed.

(** ** Opening, reading and closing *)

(** A slot for a descriptor. *)
Definition free_fd (w : world) : Prop := ∃ fd, find_slot 3 (drop 3 (file_table w)) = Some fd ∧ (3 <= fd < 256)%nat.

(** A program file of shadowFS, as [file_at] describes it. *)
Record shadow_file (s : kw) (path : list Z) (ino : Z) (x : inode_t) (bs : blocks) (c : list Z) : Prop := {
  sf_owned : owned s;
  sf_path : at_path s.2 path ino;
  sf_rep : file_rep s ino x bs c;
  sf_ops : i_ops x = Some shadowfs_ops;
  sf_off : pages_off_heap bs;
  sf_fd : free_fd s.2 }.

Lemma open_shadow_file path ino x bs c k w : shadow_file (k, w) path ino x bs c → length (file_table w) = 256%nat →
  panics_or (vfs_open path 0) (k, w) (λ fd s', 0 <= fd ∧ ∃ h w' file, s' = (with_heap h k, w') ∧
    takes [(file, 32)] (k_heap k) h ∧ owned s' ∧ open_shadow w' fd file (File ino 0 O_RDONLY 1 0) ino x ∧
    (∀ q o, objects w !! q = Some o → objects w' !! q = Some o)).
Proof.
  intros [Hown Hpath Hrep Hops _ (fd & Hfd & Hr)] Hlen. unfold vfs_open, vfs_open_file. simpl in Hpath, Hfd.
  destruct (fr_nonnull _ _ _ _ _ Hrep) as [Hi0 _]. pose proof (fr_inode _ _ _ _ _ Hrep) as Hx. simpl in Hx.
  eapply panics_or_bind with (Q := λ file s', ∃ h, s' = (with_heap h k, with_objects <[file := inj (File ino 0 O_RDONLY 1 0)]> w) ∧
    objects w !! file = None ∧ file ≠ 0 ∧ owned s' ∧ takes [(file, 32)] (k_heap k) h).
  - eapply panics_or_step; [by apply resolve_at_path|]. cbv beta. rewrite (proj2 (Z.eqb_neq ino 0)) by done. cbn [negb].
    eapply panics_or_step; [reflexivity|]. cbv beta. rewrite (proj2 (Z.eqb_neq ino 0)) by done.
    eapply panics_or_bind; [by apply new_takes|]. intros file s1 (h & -> & Hn & Hf0 & Ho & Ht).
    change (flag 0 O_TRUNC) with false. cbv iota. eapply panics_or_step; [reflexivity|].
    eapply panics_or_step; [apply (fetch_Done ino x); simpl; rewrite lookup_insert_ne; [done|congruence]|].
    rewrite (shadow_op x op_open Hops). eapply panics_or_step; [reflexivity|]. change (0 <? 0) with false.
    change (flag 0 O_APPEND) with false. cbv iota. eapply panics_or_step; [reflexivity|].
    eapply panics_or_done; [reflexivity|]. eauto 10.
  - intros file s1 (h & -> & Hn & Hf0 & Ho & Ht). rewrite (proj2 (Z.eqb_neq file 0)) by done. set (w1 := with_objects _ w) in *.
    assert (Ha : in_world (vfs_alloc_fd file) (with_heap h k, w1)
      = Done (Z.of_nat fd) (with_heap h k, with_files <[fd := file]> w1)).
    { unfold in_world, zoom, vfs_alloc_fd. run. cbn. rewrite Hfd. done. }
    eapply panics_or_step; [exact Ha|]. cbv beta. rewrite (proj2 (Z.ltb_ge _ 0)) by lia.
    eapply panics_or_done; [reflexivity|]. split; [lia|]. exists h, (with_files <[fd := file]> w1), file.
    split; [done|]. split; [done|]. split; [by eapply owned_ext|]. split.
    + split.
      * split; [unfold bad_fd, VFS_MAX_FDS; apply orb_false_iff; split; [apply Z.ltb_ge|apply Z.leb_gt]; lia|].
        rewrite Nat2Z.id. simpl. apply list_lookup_insert_eq. lia.
      * split; [|done]. simpl. by rewrite lookup_insert_eq.
      * split_and!; [done|done| |done]. simpl. rewrite lookup_insert_ne; [done|congruence].
      * done.
    + intros q o Hq. simpl. rewrite lookup_insert_ne; [done|congruence].
Qed.

Lemma read_shadow_file fd file f ino x bs c k w buf : open_shadow w fd file f ino x → position f = 0 →
  file_rep (k, w) ino x bs c → buf ≠ 0 → Z.of_nat (length c) < 2 ^ 31 →
  ∃ w' f' x', vfs_read fd buf (Z.of_nat (length c)) (k, w) = Done (Z.of_nat (length c), c) (k, w') ∧
    open_shadow w' fd file f' ino x' ∧ (owned (k, w) → owned (k, w')).
Proof.
  intros Hos Hpos Hrep Hb Hl. pose proof Hos as [[Hfd Htab] [Hf Hf0] (Hfi & Hi0 & Hx & Hops) [Hrc Hfl]].
  unfold vfs_read. rewrite (bind_Done _ _ _ _ _ (get_file_Done _ _ _ _ _ _ k Hos)), (proj2 (Z.eqb_neq file 0)) by done.
  rewrite (bind_Done _ _ _ _ _ (fetch_Done _ _ _ _ Hf)), Hfl. change (O_RDONLY =? O_WRONLY) with false. cbv iota.
  assert (Hop : op_at op_read (f_inode f) (k, w) = Done (Some shadowfs_read) (k, w)).
  { unfold op_at. rewrite Hfi, (proj2 (Z.eqb_neq ino 0)) by done. rewrite (bind_Done _ _ _ _ _ (fetch_Done _ _ _ _ Hx)).
    by rewrite (shadow_op x op_read Hops). }
  rewrite (bind_Done _ _ _ _ _ Hop).
  destruct (read_spec k w ino x bs c file f buf (Z.of_nat (length c)) Hrep) as (w' & t & Hr & _ & [T1 T2 T3 T4]);
    [split_and!; try done; rewrite Hpos; lia|done|done|lia|].
  rewrite Hpos, drop_0, Nat2Z.id, firstn_all in Hr, T1. exists w', (set_position (u32 (0 + Z.of_nat (length c))) f), (set_accessed t x).
  split; [exact Hr|]. destruct (shadow_framed_read _ _ _ _ _ _ Hr) as [F1 F2 F3 F4].
  split; [|done]. split.
  - split; [done|]. cbn [snd] in F2. by rewrite F2.
  - done.
  - done.
  - done.
Qed.

Lemma close_shadow_file fd file f ino x k w l : open_shadow w fd file f ino x →
  heap_inv (k_heap k) ([(file, 32)] ++ l) →
  ∃ h w', vfs_close fd (k, w) = Done 0 (with_heap h k, w') ∧ gives [(file, 32)] (k_heap k) h.
Proof.
  intros Hos HI. pose proof Hos as [[Hfd Htab] [Hf Hf0] (Hfi & Hi0 & Hx & Hops) [Hrc Hfl]].
  destruct (kfree_kept _ [] _ _ _ HI) as (h & Hk & Hg). exists h. eexists. split.
  2:{ intros l' HI'. by apply (Hg [] 32 l'). }
  unfold vfs_close. rewrite (bind_Done _ _ _ _ _ (get_file_Done _ _ _ _ _ _ k Hos)), (proj2 (Z.eqb_neq file 0)) by done.
  rewrite (bind_Done _ _ _ _ _ (fetch_Done _ _ _ _ Hf)).
  assert (Hc : call_close (f_inode f) file (k, w) = Done tt (k, w)).
  { unfold call_close. rewrite Hfi, (proj2 (Z.eqb_neq ino 0)) by done. rewrite (bind_Done _ _ _ _ _ (fetch_Done _ _ _ _ Hx)).
    by rewrite (shadow_op x op_close Hops). }
  rewrite (bind_Done _ _ _ _ _ Hc), (bind_Done _ _ _ _ _ (change_Done file f _ k w Hf)).
  set (f1 := set_ref_count _ f). set (w1 := with_objects _ w).
  assert (Hf1 : objects w1 !! file = Some (inj f1)) by (simpl; by rewrite lookup_insert_eq).
  rewrite (bind_Done _ _ _ _ _ (fetch_Done _ _ _ _ Hf1)).
  assert (Hz : (ref_count f1 =? 0) = true) by (unfold f1; cbn; rewrite Hrc; done). rewrite Hz.
  assert (Hd : dispose file_t file (k, w1) = Done tt (with_heap h k, with_objects (delete file) w1)).
  { unfold dispose. rewrite (proj2 (Z.eqb_neq file 0)) by done. rewrite (bind_Done _ _ _ _ _ (fetch_Done _ _ _ _ Hf1)).
    erewrite bind_Done by (apply in_kernel_Done, in_heap_Done, Hk). done. }
  rewrite (bind_Done _ _ _ _ _ Hd). unfold vfs_free_fd. rewrite Hfd. reflexivity.
Qed.

(** ** The server *)

#[local] Instance acorn_files : Process.Vfs world := acorn_vfs string_at.

#[local, refine] Instance shadow_server : FileServer world := {|
  file_at path o s := ∃ str, (∀ v, kept (k_vm s.1) v → string_at path v = str) ∧
    match o with
    | None => at_path s.2 str 0
    | Some c => length (file_table s.2) = 256%nat ∧ ∃ ino x bs, shadow_file s str ino x bs c
    end;
  Spawn.opened fd c bl s := owned s ∧ ∃ file f ino x bs, open_shadow s.2 fd file f ino x ∧ position f = 0 ∧
    file_rep s ino x bs c ∧ pages_off_heap bs ∧ bl = [(file, 32)];
  is_open fd bl s := ∃ file f ino x, open_shadow s.2 fd file f ino x ∧ bl = [(file, 32)] |}.
Proof.
  - intros path o k k' w bl (str & Hstr & Ho) Hk Ht. exists str. split; [intros v Hv; apply Hstr; by etrans|].
    destruct o as [c|]; [|done]. destruct Ho as (Hlen & ino & x & bs & [S1 S2 S3 S4 S5 S6]). split; [done|].
    exists ino, x, bs. split; [by eapply owned_takes|done|by eapply file_rep_kept|done|done|done].
  - intros fd c bl s (_ & file & f & ino & x & bs & Hos & _ & _ & _ & ->). by exists file, f, ino, x.
  - intros fd c b k k' w bl (Hown & file & f & ino & x & bs & Hos & Hp & Hr & Hoff & ->) Hk Ht. split; [by eapply owned_takes|].
    exists file, f, ino, x, bs. split_and!; [done|done|by eapply file_rep_kept|done|done].
  - intros path k w (str & Hstr & Hat). unfold Process.vfs_open, acorn_files, acorn_vfs.
    eapply panics_or_step; [apply in_memory_gets|]. cbv beta. rewrite (Hstr (k_vm k)) by done. unfold vfs_open, vfs_open_file.
    eapply panics_or_step; [by rewrite (bind_Done _ _ _ _ _ (resolve_at_path _ _ _ k Hat))|].
    eapply panics_or_done; [reflexivity|]. split; [lia|]. exists (k_heap k), w. split; [by rewrite kernel_eta|by intros l].
  - intros path c k w (str & Hstr & Hlen & ino & x & bs & Hsf). unfold Process.vfs_open, acorn_files, acorn_vfs.
    eapply panics_or_step; [apply in_memory_gets|]. cbv beta. rewrite (Hstr (k_vm k)) by done.
    eapply panics_or_impl; [by eapply open_shadow_file|].
    intros fd s' (Hfd & h & w' & file & -> & Ht & Hown & Hos & Hob). split; [done|]. exists h, w', [(file, 32)].
    split; [done|]. split; [done|]. split; [done|]. eexists file, _, ino, x, bs. split_and!; [exact Hos|done| |apply Hsf|done].
    by eapply file_rep_kept; [apply Hsf| |apply Hsf|].
  - intros fd c bl k w (Hown & file & f & ino & x & bs & Hos & Hp & Hr & _ & _).
    pose proof Hos as [[Hfd Htab] [Hf Hf0] (Hfi & Hi0 & Hx & Hops) _].
    unfold Process.vfs_size, acorn_files, acorn_vfs.
    rewrite (bind_Done _ _ _ _ _ (get_file_Done _ _ _ _ _ _ k Hos)), (proj2 (Z.eqb_neq file 0)) by done.
    rewrite (bind_Done _ _ _ _ _ (fetch_Done _ _ _ _ Hf)), Hfi, (proj2 (Z.eqb_neq ino 0)) by done.
    rewrite (bind_Done _ _ _ _ _ (fetch_Done _ _ _ _ Hx)). unfold mret, M_ret. do 2 f_equal. apply (fr_size _ _ _ _ _ Hr).
  - intros fd c bl k w buf l (Hown & file & f & ino & x & bs & Hos & Hp & Hr & _ & ->) HI Hlen.
    destruct (heap_inv_region _ _ buf _ HI ltac:(by left)) as (H1 & H2 & _).
    unfold HEADER_SIZE, HEAP_START, Heap.HEAP_SIZE in H1, H2.
    destruct (read_shadow_file fd file f ino x bs c k w buf Hos Hp Hr) as (w' & f' & x' & Hrd & Hos' & _); [lia|done|].
    eexists _, w'. unfold Process.vfs_read, acorn_files, acorn_vfs. split; [|split; [|split; [|by exists file, f', ino, x']]].
    + rewrite (bind_Done _ _ _ _ _ Hrd). cbv beta iota. unfold in_memory.
      erewrite bind_Done by (apply in_kernel_Done, run_vm, write_to_kernel; unfold PHYSICAL_MAP_BASE; lia). done.
    + split; [done|done|]. intros a Ha. apply rd8_wr_out. lia.
    + intros i Hi. unfold Elf.file. cbn [mem]. rewrite rd8_wr_bytes, decide_True by lia. do 2 f_equal. lia.
  - intros fd bl k w l (file & f & ino & x & Hos & ->) HI. exists 0.
    destruct (close_shadow_file _ _ _ _ _ k w l Hos HI) as (h & w' & Hc & Hg). by exists h, w'.
Defined.

(** ** Running a file *)

#[local] Instance acorn_loader (argv_strings : Z → vm → option (list (list Z))) : ElfLoader world :=
  elf_load_from_file argv_strings.

(** C12. A program in a shadowFS file runs. On a kernel that can create
    processes, when the path leads through directories of shadowFS to a file
    whose blocks hold a well-formed executable, process_spawn() - through the
    virtual file system, shadowFS, the heap, the loader, paging and the
    scheduler - returns the next PID and leaves at the end of the run queue a
    READY process with that PID which sees, at every user address below its
    stack, the byte the file has for it on the pages of the file's segments,
    and nothing anywhere else. Only running out of memory and of process slots
    stop it. *)
Theorem spawn_runs_file argv_strings k w path str name argv ino x bs bytes strs kroot l :
  can_spawn k kroot l → path ≠ 0 → (∀ v, kept (k_vm k) v → string_at path v = str) →
  length (file_table w) = 256%nat → shadow_file (k, w) str ino x bs bytes →
  program bytes → program_entry bytes ≠ 0 → Z.of_nat (length bytes) < 2 ^ 31 →
  args_at argv_strings (k_vm k) argv strs →
  panics_or (process_spawn (ElfLoader0 := acorn_loader argv_strings) path name argv) (k, w) (λ r s',
    r = next_pid (k_sched k) ∧ ∃ child y b, procs (k_sched k) !! child = None ∧
      procs (k_sched s'.1) !! child = Some y ∧ p_pid y = r ∧ p_state y = PROCESS_READY ∧ p_is_user y = true ∧
      p_page_dir y = physical_to_virtual b ∧ queue (k_sched s'.1) (l ++ [child]) ∧
      ∀ a, user_addr a → a < STACK_VIRTUAL → ∃ p, get_physical_in (physical_to_virtual b) a (k_vm s'.1) = Done p (k_vm s'.1) ∧
        (program_page bytes (a / 4096) → p ≠ 0 ∧ rd8 (mem (k_vm s'.1)) p = program_image bytes a) ∧
        (¬ program_page bytes (a / 4096) → p = 0)).
Proof.
  intros Hcs Hpath Hstr Hlen Hsf Hprog Hent Hl Hargs.
  assert (Hf : file_at path (Some bytes) (k, w)) by (exists str; eauto 10).
  eapply panics_or_impl; [by apply (process_spawn_spec argv_strings k w path name argv bytes strs kroot l)|].
  intros r s' (-> & k' & w' & child & n & slot & stk & b & T' & F & img & -> & Hn & Hy & _ & Hq & _ & _ & _ & _ & Hp & _).
  split; [done|]. eexists child, _, b. cbn [fst]. split; [done|]. split; [exact Hy|].
  unfold entering. destruct (start_args strs) as [[argc av] sp]. split_and!; try done.
  intros a Ha Hlow. exists (translation (k_vm k') T' a).
  split; [apply (get_physical_in_translation _ b T'); [apply Hp|done]|].
  destruct (F !! (a / 4096)) as [f|] eqn:Hfa.
  - rewrite (hp_in _ _ _ _ _ _ _ _ _ Hp a f Ha Hfa). destruct (hp_new _ _ _ _ _ _ _ _ _ Hp _ _ Hfa) as (_ & _ & [Hpos _] & _).
    pose proof (Z.mod_pos_bound a 4096 ltac:(lia)) as Hm. split.
    + intros _. split; [lia|]. rewrite (hp_byte _ _ _ _ _ _ _ _ _ Hp _ _ _ Hfa Hm).
      replace (a / 4096 * 4096 + a mod 4096) with a by (Z.div_mod_to_equations; lia). by apply (hp_image _ _ _ _ _ _ _ _ _ Hp).
    + intros Hnp. exfalso. apply Hnp, (hp_pages _ _ _ _ _ _ _ _ _ Hp). eauto.
  - rewrite (hp_out _ _ _ _ _ _ _ _ _ Hp a Ha Hfa). split; [|done].
    intros Hpp%(hp_pages _ _ _ _ _ _ _ _ _ Hp). rewrite Hfa in Hpp. by destruct Hpp.
Qed.

End Served.

(** ** Witness: the file "/temp/p" on the machine of Spawn *)

Fixpoint kmallocs (sizes : list Z) : M heap (list Z) :=
  match sizes with
  | [] => mret []
  | n :: sizes => p ← kmalloc n; ps ← kmallocs sizes; mret (p :: ps)
  end.

Lemma kmallocs_blocks sizes : ∀ h l ps h', heap_inv h l → Forall (λ n, 0 < n <= 2 ^ 64 - 4) sizes →
  kmallocs sizes h = Done ps h' → ∃ l', heap_inv h' (l' ++ l) ∧ ∀ x, x ∈ zip ps sizes → x ∈ l'.
Proof.
  induction sizes as [|n sizes IH]; intros h l ps h' HI Hs H; cbn [kmallocs] in H.
  - injection H as <- <-. exists []. split; [done|]. intros x Hx. by apply not_elem_of_nil in Hx.
  - apply list.Forall_cons in Hs as [Hn Hs]. apply bind_Done_inv in H as (p & h1 & H1 & H).
    apply bind_Done_inv in H as (ps1 & h2 & H2 & H). injection H as <- <-.
    destruct (kmalloc_kept h l n HI Hn) as [[msg Hk]|(p' & h1' & Hk & Ht)]; [congruence|].
    rewrite H1 in Hk. injection Hk as <- <-. destruct (IH _ _ _ _ (Ht _ HI) Hs H2) as (l' & HI' & Hin).
    exists (l' ++ [(p, n)]). rewrite <- app_assoc. split; [done|]. intros x Hx. apply elem_of_cons in Hx as [->|Hx].
    + apply elem_of_app. right. by left.
    + apply elem_of_app. left. by apply Hin.
Qed.

Definition served_sizes : list Z := [24; 64; 16; 80; 64; 16; 24].
Definition served_at (i : Z) : Z := demo_parent + 304 + i.
Definition served_root : inode_t := Inode 1 VFS_TYPE_DIR 0 0 0 0 0 0 0 1 (Some shadowfs_ops) (Some 0%nat) (served_at 136).
Definition served_inode : inode_t := Inode 2 VFS_TYPE_FILE 124 0 0 0 0 0 0 1 (Some shadowfs_ops) (Some 0%nat) (served_at 368).
Definition served_block : shadowfs_block_t := Block (physical_to_virtual 0x4000) 124 0.

Definition served_objects : list object :=
  [OSMount (SMount 1000 0 3 (served_at 48)); OInode served_root; OSInode (SInode (served_at 176) 1);
   OSDentry (SDentry (cs "p") (served_at 280) 0); OInode served_inode; OSInode (SInode (served_at 408) 1); OBlock served_block].

Definition served_addresses : list Z := served_at <$> [0; 48; 136; 176; 280; 368; 408].

Definition served_heap : heap := match kmallocs served_sizes demo_fork_heap with Done _ h => h | _ => demo_fork_heap end.

Definition served_kernel : kernel :=
  Kernel (k_sched spawn_kernel) (Vm (wr_bytes 0x4000 Elf.demo_file ∅) spawn_frames (physical_to_virtual 0x1000) 0x3000) served_heap.

Definition served_world : world :=
  with_mounts <[0%nat := Superblock (cs "/temp") (served_at 48) (Some shadowfs_ops) (served_at 0) 0]> 1
    (with_objects (λ _, list_to_map (zip served_addresses served_objects)) demo_start).

Lemma served_blocks : ∃ l, heap_inv served_heap (l ++ [(demo_parent, PROCESS_T_SIZE)]) ∧
  ∀ x, x ∈ zip served_addresses served_sizes → x ∈ l.
Proof.
  assert (H : kmallocs served_sizes demo_fork_heap = Done served_addresses served_heap) by (vm_compute; reflexivity).
  eapply kmallocs_blocks; [exact spawn_heap| |exact H]. repeat constructor; by_compute.
Qed.

Lemma served_owned : owned (served_kernel, served_world).
Proof.
  destruct served_blocks as (l & HI & Hl). eexists. split; [exact HI|]. intros p o Ho. apply elem_of_app. left. apply Hl.
  apply (elem_of_list_to_map_2 (zip served_addresses served_objects)) in Ho.
  assert (Hsz : zip served_addresses served_sizes = prod_map id obj_size <$> zip served_addresses served_objects) by (vm_compute; reflexivity).
  rewrite Hsz. apply list_elem_of_fmap. by exists (p, o).
Qed.

Lemma served_spawn : can_spawn served_kernel 0x1000 [demo_parent].
Proof.
  destruct spawn_can_create as [_ [M1 M2 M3 M4] Ht Hc]. split; [split| ].
  - destruct served_blocks as (l & HI & _). eexists. split; [exact HI|]. intros p x Hp. cbn in Hp.
    apply (lookup_singleton_Some demo_parent p) in Hp as [<- _]. apply elem_of_app. right. by left.
  - split; [exact M1|exact M2|exact M3|exact M4].
  - exact Ht.
  - exact Hc.
  - exact spawn_queue.
Qed.

Lemma served_file : shadow_file (served_kernel, served_world) (cs "/temp/p") (served_at 280) served_inode
  [(served_at 408, served_block)] Elf.demo_file.
Proof.
  split.
  - exact served_owned.
  - exists 0%nat, (Superblock (cs "/temp") (served_at 48) (Some shadowfs_ops) (served_at 0) 0).
    assert (Hf : vfs_find_mount served_world (cs "/temp/p") = Some 0%nat) by (vm_compute; reflexivity).
    split; [exact Hf|]. split; [|split; [by_compute|split; [by apply (bool_decide_unpack _)|]]].
    + pose proof (find_mount_spec served_world (cs "/temp/p")) as H. rewrite Hf in H. destruct H as [sb H].
      replace (Superblock _ _ _ _ _) with sb; [exact H|]. destruct H as [H _]. vm_compute in H |- *. congruence.
    + change (components _) with [cs "p"].
      eapply (leads_down served_world served_kernel _ served_root [(served_at 176, SDentry (cs "p") (served_at 280) 0)]);
        [by_compute| |reflexivity|vm_compute; reflexivity|by_compute|constructor].
      split; [vm_compute; reflexivity|by_compute| |by_compute|apply NoDup_singleton].
      exists (served_at 176). split; [vm_compute; reflexivity|]. split; [done|]. split; [by_compute|]. split; [vm_compute; reflexivity|done].
  - split; [vm_compute; reflexivity|split; by_compute|reflexivity| |vm_compute; reflexivity|vm_compute; reflexivity].
    split; [|by repeat constructor; by_compute|apply NoDup_singleton| |split; by_compute].
    + exists (served_at 408). split; [vm_compute; reflexivity|]. split; [done|]. split; [by_compute|]. split; [vm_compute; reflexivity|done].
    + intros p Hp. apply list_elem_of_singleton in Hp as ->. vm_compute. reflexivity.
  - reflexivity.
  - intros p Hp. apply list_elem_of_singleton in Hp as ->. unfold heap_page. vm_compute. intros [H _]. by apply H.
  - exists 3%nat. split; [vm_compute; reflexivity|lia].
Qed.

Definition served_string (_ : Z) (_ : vm) : list Z := cs "/temp/p".

Definition served_outcome : outcome kw Z :=
  process_spawn (ElfLoader0 := acorn_loader (C := demo_clock) (D := demo_drivers) (T := demo_scratch) served_string spawn_args)
    1 (cs "hi") 0 (served_kernel, served_world).

Lemma served_runs : is_done served_outcome = true.
Proof. vm_compute. reflexivity. Qed.

Lemma served_args : args_at spawn_args (k_vm served_kernel) 0 (Some [cs "hi"]).
Proof. destruct demo_args as [_ H]. split; [done|exact H]. Qed.

Lemma spawn_runs_file_witness : ∃ s' child y, served_outcome = Done 8 s' ∧
  procs (k_sched s'.1) !! child = Some y ∧ p_state y = PROCESS_READY ∧ queue (k_sched s'.1) [demo_parent; child].
Proof.
  destruct (spawn_runs_file (C := demo_clock) (D := demo_drivers) (T := demo_scratch) served_string spawn_args served_kernel
    served_world 1 (cs "/temp/p") (cs "hi") 0 (served_at 280) served_inode [(served_at 408, served_block)] Elf.demo_file
    (Some [cs "hi"]) 0x1000 [demo_parent])
    as [[msg H]|(r & s' & H & -> & child & y & b & _ & Hy & _ & Hst & _ & _ & Hq & _)].
  - exact served_spawn.
  - lia.
  - reflexivity.
  - by_compute.
  - exact served_file.
  - exact demo_program.
  - rewrite demo_entry. lia.
  - by_compute.
  - exact served_args.
  - pose proof served_runs as Hr. assert (E : served_outcome = Panic msg) by exact H. rewrite E in Hr. discriminate Hr.
  - exists s', child, y. split; [exact H|]. split; [exact Hy|]. split; [exact Hst|exact Hq].
Defined.
