(* ===== verification/Kernel.v ===== *)
(** Starting the machine: kernel_main() of kernel/core/kernel.c, from the
    drivers to the first process.

    The state is that of every component: the descriptor tables, the serial
    port, the words written to the other ports with the answers of the clock's,
    the screen, and the kernel with its file systems. What kernel_main() reads
    of the machine (the memory map, the registers, the addresses the linker
    chose) is given, and so is what its uninitialised locals hold. The log on
    the serial line is left out, but for the strings it reads: of the serial
    line only what is written first is stated. *)

From S2P Require Import Prelude CString Rtc Pmm Heap Kprintf Phys Paging Space Sched Process Fork Vga Descriptors Drivers Elf Spawn.
From S2P Require Import Objects Vfs Shadowfs ShadowfsFiles Devfs Procfs Boot Serve.

(** * The machine *)

Record machine := Machine {
  m_tables : tables; m_uart : uart; m_ports : io; m_screen : vga; m_sys : kw }.

Definition in_tables {A} (m : M tables A) : M machine A :=
  zoom m_tables (λ t s, Machine t (m_uart s) (m_ports s) (m_screen s) (m_sys s)) m.
Definition in_uart {A} (m : M uart A) : M machine A :=
  zoom m_uart (λ t s, Machine (m_tables s) t (m_ports s) (m_screen s) (m_sys s)) m.
Definition in_ports {A} (m : M io A) : M machine A :=
  zoom m_ports (λ t s, Machine (m_tables s) (m_uart s) t (m_screen s) (m_sys s)) m.
Definition out_ports (l : list (Z * Z)) : M machine unit :=
  in_ports (modify (λ t, Io (io_answers t) (io_written t ++ l))).
Definition on_display {A} (m : M vga A) : M machine A :=
  zoom m_screen (λ t s, Machine (m_tables s) (m_uart s) (m_ports s) t (m_sys s)) m.
Definition in_system {A} (m : M kw A) : M machine A :=
  zoom m_sys (λ t s, Machine (m_tables s) (m_uart s) (m_ports s) (m_screen s) t) m.

(** * timer_init() *)

Definition PIT_CHANNEL0 : Z := 0x40.
Definition PIT_COMMAND : Z := 0x43.

Definition timer_init : list (Z * Z) :=
  let reload := u32 (1193180 / TIMER_FREQUENCY) in
  [(PIT_COMMAND, 0x36); (PIT_CHANNEL0, Z.land reload 0xFF); (PIT_CHANNEL0, Z.land (Z.shiftr reload 8) 0xFF)].

(** * kernel_main() *)

Definition HELLO_ELF_PHYSICAL_ADDRESS : Z := 0x300000.
Definition HELLO_ELF_SIZE : Z := 128 * 512.

Section Kernel.
Context `{C : Clock} `{D : Drivers} `{T : Scratch} `{H : Handlers}.

(** What the linker and the hardware give. *)
Context (gdt_address idt_address tss_address : Z) (stub : Z → Z) (syscall_entry : Z).
Context (efer mask1 mask2 : Z).
Context (shell_process idle_process : Z).

(** The uninitialised buffer of kprintf(), where the locals of kernel_main()
    are, and what read_buffer holds. *)
Context (junk : list Z) (local : Z) (read_buffer : list Z).

Definition print (fmt : list Z) : M machine unit :=
  text ← (λ s, match kprintf junk (fmt ++ [0]) [] with
               | Done text _ => Done text s | Panic msg => Panic msg | Fault => Fault | Diverge => Diverge end);
  on_display (vga_print text).

(** A step of the start-up, between its two messages. *)
Definition announce (text finished : string) (m : M machine unit) : M machine unit :=
  on_display (vga_set_colour WHITE BLACK) ;;
  print (cs text) ;;
  m ;;
  on_display (vga_set_colour LIGHT_GREEN BLACK) ;;
  print (cs finished ++ [10]).

Definition in_k {A} (m : M kernel A) : M machine A := in_system (in_kernel m).

(** ** The hardware and the memory *)

(** keyboard_init() and syscall_init() have nothing to do. *)
Definition start_hardware (map : list e820_entry) (mem_map_count highest_ram : Z) : M machine unit :=
  in_uart serial_init ;;
  on_display vga_init ;;
  print (cs "acornOS v0.1" ++ [10]) ;;
  print (cs "------------" ++ [10]) ;;
  announce "Initialising GDT..." " [DONE]" (in_tables (gdt_init gdt_address)) ;;
  announce "Initialising TSS..." " [DONE]" (in_tables (tss_init tss_address)) ;;
  announce "Initialising IDT..." " [DONE]" (in_tables (idt_init idt_address stub)) ;;
  announce "Initialising SYSCALL/SYSRET..." " [DONE]" (in_tables (syscall_msr_init syscall_entry efer)) ;;
  announce "Initialising PIC..." " [DONE]" (out_ports (pic_init mask1 mask2)) ;;
  announce "Initialising timer..." " [DONE]" (out_ports timer_init) ;;
  announce "Initialising RTC..." " [DONE]" (in_ports rtc_init) ;;
  announce "Initialising keyboard..." " [DONE]" (mret tt) ;;
  announce "Initialising memory manager..." " [DONE" (in_k (in_heap mem_init)) ;;
  announce "Initialising PMM..." " [DONE]" (in_k (in_vm (in_pmm (pmm_init map mem_map_count highest_ram)))) ;;
  announce "Initialising paging..." " [DONE]" (in_k (in_vm paging_init)) ;;
  announce "Initialising process manager..." " [DONE]" (in_k (in_sched process_init)) ;;
  announce "Initialising scheduler..." " [DONE]" (in_k (in_sched scheduler_init)) ;;
  announce "Initialising syscalls..." " [DONE]]" (mret tt).

(** ** The file systems: start_filesystems of Boot, with its messages *)

Definition register (name : string) (read write : option Z) : M machine unit :=
  in_system (devfs_register (cs "/devices") (cs name) read write ;; mret tt).

Definition start_services : M machine unit :=
  announce "Initialising VFS..." " [DONE]" (in_system (in_world vfs_init)) ;;
  announce "Mounting shadowFS..." " [DONE]"
    (in_system (mount_or_panic (shadowfs_mount (cs "/temp") (8 * 1024 * 1024)) "kernel: failed to mount shadowFS at /temp!")) ;;
  announce "Mounting devFS..." " [DONE]"
    (in_system (mount_or_panic (devfs_mount (cs "/devices")) "kernel: failed to mount devFS at /devices!")) ;;
  announce "Registering /devices/display..." " [DONE]" (register "display" None (Some dev_display_write)) ;;
  announce "Registering /devices/keyboard..." " [DONE]" (register "keyboard" (Some dev_keyboard_read) None) ;;
  announce "Registering /devices/null..." " [DONE]" (register "null" (Some dev_null_read_at) (Some dev_null_write_at)) ;;
  announce "Registering /devices/random..." " [DONE]" (register "random" (Some dev_random_read) None) ;;
  announce "Registering /devices/serial..." " [DONE]" (register "serial" (Some dev_serial_read) (Some dev_serial_write)) ;;
  announce "Registering /devices/rtc..." " [DONE]" (register "rtc" (Some dev_rtc_read_at) None) ;;
  announce "Setting up stdio..." " [DONE]" (in_system open_stdio) ;;
  announce "Mounting procFS..." " [DONE]"
    (in_system (mount_or_panic (procfs_mount (cs "/process")) "kernel: failed to mount procFS at /process!")).

(** ** The self-test of the file systems *)

(** Close the descriptor of an open that succeeded. *)
Definition with_fd (path : string) (flags : Z) (m : Z → M kw unit) : M kw unit :=
  fd ← vfs_open (cs path) flags;
  if fd >=? 0 then m fd ;; vfs_close fd ;; mret tt else mret tt.

(** The string of the log: the buffer is read up to a NUL. *)
Definition log_string (buffer : list Z) : M kw unit := access (until_nul buffer) ;; mret tt.

Definition test_create : M kw unit :=
  fd ← vfs_open (cs "/temp/test.txt") (Z.lor O_CREAT O_WRONLY);
  if fd >=? 0 then
    vfs_write fd local (cs "Hello from shadowFS!" ++ [10]) ;;
    vfs_close fd ;; mret tt
  else kpanic "kernel: FAILED to create test file in shadowFS!".

Definition test_read_back : M kw unit :=
  with_fd "/temp/test.txt" O_RDONLY (λ fd,
    '(bytes, data) ← vfs_read fd local 21;
    log_string (data ++ drop (length data) read_buffer)).

(** while(vfs_readdir(fd, &dentry) > 0) *)
Fixpoint list_loop (fuel : nat) (fd : Z) (dentry : option dentry_t) : M kw unit :=
  match fuel with
  | O => diverge
  | S fuel =>
      '(result, dentry) ← vfs_readdir fd dentry;
      if result >? 0 then list_loop fuel fd dentry else mret tt
  end.

Definition test_list (fuel : nat) (path : string) : M kw unit :=
  with_fd path O_RDONLY (λ fd, list_loop fuel fd (Some (Dentry [] 0 0))).

Definition test_truncate : M kw unit :=
  with_fd "/temp/trunc.txt" (Z.lor O_CREAT O_WRONLY) (λ fd,
    vfs_write fd local (cs "Hello from shadowFS!" ++ [0]) ;; mret tt) ;;
  with_fd "/temp/trunc.txt" (Z.lor O_TRUNC O_WRONLY) (λ fd, mret tt) ;;
  with_fd "/temp/trunc.txt" O_RDONLY (λ fd, vfs_read fd local 32 ;; mret tt).

Definition test_device (path : string) (text : list Z) : M kw unit :=
  with_fd path O_WRONLY (λ fd, vfs_write fd local text ;; mret tt).

(** buffer[bytes] = 0: a negative count is a store before the buffer. *)
Definition test_meminfo : M kw unit :=
  with_fd "/process/meminfo" O_RDONLY (λ fd,
    '(bytes, data) ← vfs_read fd local 255;
    if bytes <? 0 then fault else log_string (take (Z.to_nat bytes) data ++ [0])).

Definition self_test (fuel : nat) : M kw unit :=
  test_create ;;
  test_read_back ;;
  test_list fuel "/temp" ;;
  vfs_mkdir (cs "/temp/testdir") ;;
  test_list fuel "/temp" ;;
  vfs_delete (cs "/temp/test.txt") ;;
  test_list fuel "/temp" ;;
  test_truncate ;;
  test_device "/devices/display" (cs "Hello from devFS!" ++ [10]) ;;
  test_device "/devices/null" (cs "This should be discarded" ++ [10]) ;;
  test_device "/devices/serial" (cs "Hello from /devices/serial!" ++ [10]) ;;
  test_list fuel "/devices" ;;
  with_fd "/devices/random" O_RDONLY (λ fd, vfs_read fd local 8 ;; mret tt) ;;
  test_meminfo.

(** ** The first processes *)

Definition set_time_slice (v : Z) (p : process_t) : process_t :=
  Proc (p_pid p) (p_name p) (p_state p) (p_cpu p) (p_stack p) (p_stack_top p) (p_page_dir p) v (p_ticks_remaining p) (p_next p) (p_user_esp p) (p_user_eip p) (p_parent_pid p) (p_exit_code p) (p_is_user p) (p_heap_start p) (p_heap_end p) (p_wake_at_tick p).

Definition start_idle : M kernel unit :=
  idle ← process_create (Some (cs "idle")) idle_process 0;
  if idle =? 0 then kpanic "kernel: failed to create idle process!"
  else
    in_sched (update idle (set_time_slice 1)) ;;
    in_sched (update idle (set_ticks_remaining 1)) ;;
    in_sched (scheduler_add idle).

(** hello.elf, where the boot loader put it: a copy for /temp, and a process
    with the arguments "hello". *)
Definition save_hello (hello_elf_data : Z) : M kw unit :=
  hello_fd ← vfs_open (cs "/temp/hello.elf") (Z.lor (Z.lor O_WRONLY O_CREAT) O_TRUNC);
  if hello_fd >=? 0 then
    data ← in_kernel (in_vm (gets (λ v, rd_bytes (Z.to_nat HELLO_ELF_SIZE) (mem v) (virtual_to_physical hello_elf_data))));
    vfs_write hello_fd hello_elf_data data ;;
    vfs_close hello_fd ;; mret tt
  else mret tt.

Definition start_hello (hello_elf_data : Z) : M kernel unit :=
  hello ← process_create (Some (cs "hello")) 0x400000 0;
  in_sched (deref hello) ;;
  entry ← elf_load hello_elf_data hello (Some [cs "hello"]);
  if entry =? 0 then mret tt else in_sched (scheduler_add hello).

Definition start_shell : M kernel unit :=
  shell ← process_create (Some (cs "shell")) shell_process 0;
  if shell =? 0 then kpanic "kernel: failed to create shell process!"
  else in_sched (scheduler_add shell).

Definition start_processes : M kw unit :=
  in_kernel start_idle ;;
  let hello_elf_data := physical_to_virtual HELLO_ELF_PHYSICAL_ADDRESS in
  elf_entry ← in_kernel (in_vm (elf_get_entry hello_elf_data));
  (if elf_entry =? 0 then mret tt else save_hello hello_elf_data ;; in_kernel (start_hello hello_elf_data)) ;;
  in_kernel start_shell ;;
  in_kernel (in_sched scheduler_start).

(** The machine with its file systems. *)
Definition start_machine (map : list e820_entry) (mem_map_count highest_ram : Z) : M machine unit :=
  start_hardware map mem_map_count highest_ram ;;
  start_services.

(** scheduler_start() leaves for the first process. *)
Definition kernel_main (fuel : nat) (map : list e820_entry) (mem_map_count highest_ram : Z) : M machine unit :=
  start_machine map mem_map_count highest_ram ;;
  in_system (self_test fuel) ;;
  in_system start_processes.

End Kernel.

(** * Messages on the screen *)

(** What the two messages of a step leave on the paper. *)
Definition announced (text finished : string) (p : paper) : paper :=
  type_text LIGHT_GREEN (cs finished ++ [10]) (type_text WHITE (cs text) p).

(** The screen shows the paper. *)
Definition display (p : paper) (s : machine) : Prop := shows (m_screen s) p ∧ paper_ok p.

(** The machine but for its screen. *)
Definition rest (s : machine) : tables * uart * io * kw := (m_tables s, m_uart s, m_ports s, m_sys s).

(** Text without directives that fits the buffer. *)
Definition plain (text : list Z) : bool :=
  forallb (λ c, (0 <? c) && (c <? 256) && negb (c =? 37)) text && bool_decide (length text <= 1023)%nat.

Lemma plain_spec text : plain text = true →
  Forall (λ c, 0 < c < 256) text ∧ (length text <= 1023)%nat ∧ render text [] = Some text.
Proof.
  unfold plain. intros [H Hl%bool_decide_eq_true]%andb_true_iff. split; [|split; [done|]].
  - apply list.Forall_forall. intros c Hc%list_elem_of_In. rewrite forallb_forall in H. specialize (H c Hc). lia.
  - clear Hl. induction text as [|c text IH]; [done|]. cbn [forallb] in H. apply andb_true_iff in H as [Hc H].
    cbn [render]. destruct (c =? 37); [lia|]. by rewrite IH.
Qed.

Section Messages.
Context (junk : list Z) (Hjunk : length junk = 1024%nat).

Lemma print_spec fmt s p : plain fmt = true → display p s →
  ∃ s', print junk fmt s = Done tt s' ∧ display (type_text (colour (m_screen s)) fmt p) s' ∧
    colour (m_screen s') = colour (m_screen s) ∧ rest s' = rest s.
Proof.
  intros (Hf & Hl & Hr)%plain_spec [Hs Hok].
  destruct (kprintf_shows junk fmt [] fmt Hjunk Hf ltac:(constructor) Hr ltac:(unfold countable, INT_MAX; lia)) as [Hp _].
  { eapply list.Forall_impl; [exact Hf|]. simpl. lia. }
  rewrite take_ge in Hp by done. destruct (vga_print_shows fmt (m_screen s) p Hok Hs) as (v & Hv & Hs' & Hok' & Hc').
  eexists. split; [|split; [|split]].
  - unfold print. rewrite (bind_Done _ _ s fmt s) by (by rewrite Hp). exact (zoom_Done _ _ _ _ _ _ Hv).
  - by split.
  - done.
  - done.
Qed.

Lemma announce_spec text finished m s p R :
  plain (cs text) = true → plain (cs finished ++ [10]) = true → display p s →
  (∀ s1, rest s1 = rest s → returns m s1 (λ _ s2, m_screen s2 = m_screen s1 ∧ R (rest s2))) →
  returns (announce junk text finished m) s (λ _ s', display (announced text finished p) s' ∧ R (rest s')).
Proof.
  intros Ht Hf [Hs Hok] Hm. unfold announce. eapply returns_step; [reflexivity|].
  match goal with |- returns _ ?x _ => set (s0 := x) end.
  assert (D0 : display p s0) by (split; [by destruct Hs; split|done]).
  destruct (print_spec _ s0 p Ht D0) as (s1 & H1 & D1 & C1 & R1). eapply returns_step; [exact H1|].
  eapply returns_bind; [apply Hm; by rewrite R1|]. intros _ s2 [E2 R2].
  eapply returns_step; [reflexivity|]. match goal with |- returns _ ?x _ => set (s3 := x) end.
  assert (D3 : display (type_text WHITE (cs text) p) s3).
  { unfold display. cbn [s3 m_screen]. rewrite E2. destruct D1 as [[] ?]. by split. }
  destruct (print_spec _ s3 _ Hf D3) as (s4 & H4 & D4 & C4 & R4). eapply returns_done; [exact H4|].
  split; [exact D4|]. rewrite R4. exact R2.
Qed.

(** The steps, by the part of the machine they are about. *)
Lemma tables_step m s1 t u pt k t' : rest s1 = (t, u, pt, k) → m t = Done tt t' →
  returns (in_tables m) s1 (λ _ s2, m_screen s2 = m_screen s1 ∧ rest s2 = (t', u, pt, k)).
Proof.
  destruct s1 as [? ? ? v ?]. intros [= -> -> -> ->] H. eapply returns_done; [by apply zoom_Done|]. done.
Qed.

Lemma ports_step m s1 t u pt k pt' : rest s1 = (t, u, pt, k) → m pt = Done tt pt' →
  returns (in_ports m) s1 (λ _ s2, m_screen s2 = m_screen s1 ∧ rest s2 = (t, u, pt', k)).
Proof. destruct s1 as [? ? ? v ?]. intros [= -> -> -> ->] H. eapply returns_done; [by apply zoom_Done|]. done. Qed.

Lemma nothing_step s1 r : rest s1 = r → returns (mret tt) s1 (λ _ s2, m_screen s2 = m_screen s1 ∧ rest s2 = r).
Proof. intros <-. by eapply returns_done. Qed.

Lemma system_step (m : M kw unit) s1 t u pt k k' : rest s1 = (t, u, pt, k) → m k = Done tt k' →
  returns (in_system m) s1 (λ _ s2, m_screen s2 = m_screen s1 ∧ rest s2 = (t, u, pt, k')).
Proof. destruct s1 as [? ? ? v ?]. intros [= -> -> -> ->] H. eapply returns_done; [by apply zoom_Done|]. done. Qed.

(** A panic stops the start-up. *)
Lemma announce_panics text finished (m : M kw unit) s p e : plain (cs text) = true → display p s →
  m (m_sys s) = Panic e → announce junk text finished (in_system m) s = Panic e.
Proof.
  intros Ht [Hs Hok] Hm. unfold announce. erewrite bind_Done by reflexivity.
  match goal with |- mbind _ _ ?x = _ => set (s0 := x) end.
  assert (D0 : display p s0) by (split; [by destruct Hs; split|done]).
  destruct (print_spec _ s0 p Ht D0) as (s1 & H1 & _ & _ & R1). rewrite (bind_Done _ _ _ _ _ H1). apply bind_Panic.
  unfold in_system, zoom. assert (m_sys s1 = m_sys s) as -> by (destruct s1, s; by injection R1). by rewrite Hm.
Qed.

End Messages.

(** * The memory and the processes at the start *)

(** The pages pmm_init() leaves in use. *)
Definition boot_used (map : list e820_entry) (count highest p : Z) : bool :=
  reserved (highest / PAGE_SIZE / 8 + 1) p || negb (existsb (λ e, in_region e p) (take (Z.to_nat count) map)).

Lemma mem_init_empty h : ∃ h', mem_init h = Done tt h' ∧ heap_inv h' [].
Proof.
  destruct h as [m a u]. eexists. assert (H : mem_init (Heap m a u) = Done tt (Heap (<[HEAP_START := Hdr (HEAP_SIZE - HEADER_SIZE) true 0]> m) HEAP_START 0)).
  { reflexivity. }
  split; [exact H|]. by eapply heap_run_inv, heap_run_start.
Qed.

Lemma process_init_empty s : length (process_table s) = 16%nat →
  process_init s = Done tt (with_current 0 (with_next_pid 0 (with_table (λ _, replicate 16 0) s))).
Proof.
  intros Hl. destruct s as [m t c n h tl tk r sw]. simpl in Hl. do 16 (destruct t as [|? t]; [done|]).
  destruct t; [reflexivity|done].
Qed.

(** The kernel after its memory and its processes are initialised. *)
Record initialised (k : kernel) (root : Z) (map : list e820_entry) (count highest : Z) : Prop := {
  in_heap_free : heap_inv (k_heap k) [];
  in_memory : kernel_memory (k_vm k) root ∧ cr3 (k_vm k) = root;
  in_pages p : 0 <= p < highest / PAGE_SIZE → used (frames (k_vm k)) p = boot_used map count highest p;
  in_free : pmm_free_pages (frames (k_vm k)) =
    u64 (usable_pages (take (Z.to_nat count) map) - reserved_count (highest / PAGE_SIZE / 8 + 1));
  in_table : process_table (k_sched k) = replicate 16 0 ∧ procs (k_sched k) = ∅;
  in_queue : queue (k_sched k) [] ∧ current_process (k_sched k) = 0 ∧ next_pid (k_sched k) = 0 }.

(** What the boot loader hands over. *)
Record bootable (k : kernel) (map : list e820_entry) (count highest : Z) : Prop := {
  bo_procs : procs (k_sched k) = ∅ ∧ length (process_table (k_sched k)) = 16%nat;
  bo_root : page_ok (cr3 (k_vm k)) ∧ cr3 (k_vm k) < 0x20000;
  bo_map : Forall e820_ok map ∧ 0 <= count <= Z.of_nat (length map);
  bo_ram : 0x3200000 <= highest <= 2 ^ 47 }.

(** The five calls on the kernel, one after the other. *)
Lemma memory_stages k map count highest : bootable k map count highest →
  ∃ h f s v, mem_init (k_heap k) = Done tt h ∧ pmm_init map count highest (frames (k_vm k)) = Done tt f ∧
    paging_init (Vm (mem (k_vm k)) f (kernel_pml4 (k_vm k)) (cr3 (k_vm k))) = Done tt v ∧
    process_init (k_sched k) = Done tt s ∧ mem v = mem (k_vm k) ∧
    initialised (Kernel (with_queue 0 0 s) v h) (cr3 (k_vm k)) map count highest.
Proof.
  intros [[Hpr Htl] [Hroot Hlow] [Hmap Hc] Hram]. destruct (mem_init_empty (k_heap k)) as (h & Hh & HI).
  destruct (pmm_init_result map count highest (frames (k_vm k)) Hmap Hc ltac:(lia)) as (f & Hf & Htot & Hus).
  do 4 eexists. split; [exact Hh|]. split; [exact Hf|]. split; [reflexivity|]. split; [by apply process_init_empty|].
  split; [done|].
  assert (Hcov : ∀ p, 0 <= p < 0x3200 → 0 <= p < 8 * (highest / PAGE_SIZE / 8 + 1)).
  { intros p Hp. unfold PAGE_SIZE. Z.div_mod_to_equations. lia. }
  assert (Hres : ∀ p, 0 <= p < 0x3200 → reserved (highest / PAGE_SIZE / 8 + 1) p = true → used f p = true).
  { intros p Hp Hr. by rewrite Hus, Hr by auto. }
  pose proof (pmm_init_counter map count highest _ f Hmap Hc ltac:(lia) Hf) as Hcount.
  split; cbn [k_heap k_vm k_sched frames cr3 with_queue process_table procs current_process next_pid with_current with_next_pid with_table].
  - done.
  - split; [|done]. split; cbn [frames kernel_pml4].
    + unfold frames_ok. cbn [frames]. rewrite Htot. unfold PAGE_SIZE. Z.div_mod_to_equations. lia.
    + apply Hres; [lia|done].
    + split; [done|]. split; [done|]. destruct Hroot as [Hr0 Hr1].
      assert (0 <= cr3 (k_vm k) / 4096 < 32) by (split; [apply Z.div_pos; lia|apply Z.div_lt_upper_bound; lia]).
      apply Hres; [lia|]. unfold reserved. change (0x20000 / PAGE_SIZE) with 32. by rewrite (proj2 (Z.ltb_lt _ 32)) by lia.
    + intros c [Hc1 Hc2]. unfold HEAP_START, PHYSICAL_MAP_BASE, Heap.HEAP_SIZE in Hc1, Hc2.
      assert (0x2200 <= c / 4096 < 0x3200) by (Z.div_mod_to_equations; lia). apply Hres; [lia|]. unfold reserved.
      change (HEAP_PHYSICAL_BASE / PAGE_SIZE) with 0x2200. change ((HEAP_PHYSICAL_BASE + HEAP_SIZE) / PAGE_SIZE) with 0x3200.
      rewrite (proj2 (Z.leb_le 0x2200 _)), (proj2 (Z.ltb_lt _ 0x3200)) by lia. by rewrite orb_true_r.
  - intros p Hp. apply Hus. unfold PAGE_SIZE in *. Z.div_mod_to_equations. lia.
  - exact Hcount.
  - done.
  - split; [|done]. split; [constructor|apply not_elem_of_nil|done|done|done].
Qed.

(** * Starting the hardware *)

Definition announce_all (l : list (string * string)) (p : paper) : paper := foldl (λ p m, announced m.1 m.2 p) p l.

Lemma announce_all_app l1 l2 p : announce_all (l1 ++ l2) p = announce_all l2 (announce_all l1 p).
Proof. apply foldl_app. Qed.

Definition hardware_messages : list (string * string) :=
  [("Initialising GDT...", " [DONE]"); ("Initialising TSS...", " [DONE]"); ("Initialising IDT...", " [DONE]");
   ("Initialising SYSCALL/SYSRET...", " [DONE]"); ("Initialising PIC...", " [DONE]"); ("Initialising timer...", " [DONE]");
   ("Initialising RTC...", " [DONE]"); ("Initialising keyboard...", " [DONE]"); ("Initialising memory manager...", " [DONE");
   ("Initialising PMM...", " [DONE]"); ("Initialising paging...", " [DONE]"); ("Initialising process manager...", " [DONE]");
   ("Initialising scheduler...", " [DONE]"); ("Initialising syscalls...", " [DONE]]")]%string.

Definition title : list Z := cs "acornOS v0.1" ++ [10] ++ cs "------------" ++ [10].

Lemma type_text_app attr t1 t2 p : type_text attr (t1 ++ t2) p = type_text attr t2 (type_text attr t1 p).
Proof. apply foldl_app. Qed.

(** The next step: [D] says what the screen shows, [E] what the rest of the
    machine is; [r] is the rest afterwards, by [tac]. *)
Ltac stage junk Hjunk r tac :=
  match goal with D : display _ ?s, E : rest ?s = _ |- returns _ ?s _ =>
    eapply returns_bind;
      [eapply (announce_spec junk Hjunk _ _ _ _ _ (λ x, x = r));
        [by_compute|by_compute|exact D|clear D; let sx := fresh "sx" in let Ex := fresh "Ex" in intros sx Ex; rewrite <- Ex in E; clear Ex; tac]
      |clear D E; intros _ ? [D E]]
  end.

Section Hardware.
Context (gdt_address idt_address tss_address : Z) (stub : Z → Z) (syscall_entry efer mask1 mask2 : Z).
Context (Htss : 0 <= tss_address < 2 ^ 64) (Hstub : ∀ n, 0 <= stub n < 2 ^ 64).
Context (Hentry : 0 <= syscall_entry < 2 ^ 64) (Hefer : 0 <= efer < 2 ^ 64).
Context (junk : list Z) (Hjunk : length junk = 1024%nat).

Lemma kernel_step {A} (m : M kernel A) s1 t u pt k w a k' : rest s1 = (t, u, pt, (k, w)) → m k = Done a k' →
  returns (in_k m) s1 (λ _ s2, m_screen s2 = m_screen s1 ∧ rest s2 = (t, u, pt, (k', w))).
Proof.
  destruct s1 as [? ? ? v ?]. intros [= -> -> -> ->] H. eapply returns_done; [apply zoom_Done, in_kernel_Done, H|]. by split.
Qed.

(** rtc_init() with a clock that settles. *)
Lemma rtc_init_spec rounds status_b more w : settles rounds →
  rtc_init (Io (session_answers rounds status_b ++ more) w) = Done tt (Io more (w ++ session_selects rounds)).
Proof.
  intros Hs. destruct (rtc_read_ports_spec rounds status_b more w Hs) as (t & _ & H). unfold rtc_init. by rewrite (bind_Done _ _ _ _ _ H).
Qed.

Lemma start_hardware_spec s k w map count highest rounds status_b more :
  m_sys s = (k, w) → bootable k map count highest →
  length (cells (m_screen s)) = 2000%nat → (length serial_banner <= Drivers.ready (status (m_uart s)))%nat →
  settles rounds → io_answers (m_ports s) = session_answers rounds status_b ++ more →
  returns (start_hardware gdt_address idt_address tss_address stub syscall_entry efer mask1 mask2 junk map count highest) s (λ _ s',
    display (announce_all hardware_messages (type_text WHITE title (blank_paper WHITE))) s' ∧
    segments_ready (m_tables s) (m_tables s') gdt_address idt_address tss_address stub syscall_entry efer ∧
    port_writes (m_uart s') = port_writes (m_uart s) ++ serial_setup ++ ((λ c, (COM1, u8 c)) <$> serial_banner) ∧
    m_ports s' = Io more (io_written (m_ports s) ++ pic_init mask1 mask2 ++ timer_init ++ session_selects rounds) ∧
    ∃ k', m_sys s' = (k', w) ∧ mem (k_vm k') = mem (k_vm k) ∧ initialised k' (cr3 (k_vm k)) map count highest).
Proof.
  intros Hk Hb Hcells Huart Hset Hans. destruct (memory_stages _ _ _ _ Hb) as (h & f & sc & v & Hh & Hf & Hv & Hs & Hm & Hi).
  destruct (segments_stages (m_tables s) gdt_address idt_address tss_address stub syscall_entry efer Htss Hstub Hentry Hefer)
    as (t1 & t2 & t3 & t4 & T1 & T2 & T3 & T4 & Hseg).
  destruct (serial_init_spec (m_uart s) Huart) as (u & Hu & Hpw). unfold start_hardware.
  destruct s as [t u0 [an pt] v0 kw0]. simpl in Hk, Hans, Hcells, Huart, T1, Hu, Hpw, Hseg |- *. subst kw0 an.
  eapply returns_step; [by apply zoom_Done|].
  destruct (vga_clear_shows (Vga (cells v0) (cursor_x v0) (cursor_y v0) WHITE) Hcells) as (v1 & Hv1 & Hsh & Hcol).
  eapply returns_step.
  { apply zoom_Done. unfold vga_init. erewrite bind_Done by reflexivity. exact Hv1. }
  match goal with |- returns _ ?x _ => set (s0 := x) end.
  assert (D0 : display (blank_paper WHITE) s0) by (split; [exact Hsh|apply blank_ok]).
  destruct (print_spec junk Hjunk (cs "acornOS v0.1" ++ [10]) s0 _ eq_refl D0) as (s1 & H1 & D1 & C1 & R1). eapply returns_step; [exact H1|].
  destruct (print_spec junk Hjunk (cs "------------" ++ [10]) s1 _ eq_refl D1) as (s2 & H2 & D2 & C2 & R2). eapply returns_step; [exact H2|].
  assert (D : display (announce_all [] (type_text WHITE title (blank_paper WHITE))) s2).
  { change title with ((cs "acornOS v0.1" ++ [10]) ++ (cs "------------" ++ [10])). rewrite type_text_app. unfold announce_all. cbn [foldl].
    rewrite C1 in D2. change (colour (m_screen s0)) with (colour v1) in D1, D2. rewrite Hcol in D1, D2. exact D2. }
  set (cl := session_answers rounds status_b ++ more) in *.
  assert (E : rest s2 = (t, u, Io cl pt, (k, w))) by (by rewrite R2, R1). clear D0 D1 D2 R1 R2 H1 H2 C1 C2.
  set (pt1 := pt ++ pic_init mask1 mask2). set (pt2 := pt1 ++ timer_init). set (pt3 := pt2 ++ session_selects rounds).
  set (k1 := Kernel (k_sched k) (k_vm k) h).
  set (k2 := Kernel (k_sched k) (Vm (mem (k_vm k)) f (kernel_pml4 (k_vm k)) (cr3 (k_vm k))) h).
  set (k3 := Kernel (k_sched k) v h). set (k4 := Kernel sc v h). set (k5 := Kernel (with_queue 0 0 sc) v h).
  assert (K1 : in_heap mem_init k = Done tt k1) by (apply in_heap_Done, Hh).
  assert (K2 : in_vm (in_pmm (pmm_init map count highest)) k1 = Done tt k2).
  { exact (run_vm (in_pmm (pmm_init map count highest)) k1 tt _ (zoom_Done _ _ _ (k_vm k) tt f Hf)). }
  assert (K3 : in_vm paging_init k2 = Done tt k3) by exact (run_vm paging_init k2 tt v Hv).
  assert (K4 : in_sched process_init k3 = Done tt k4) by exact (run_sched process_init k3 tt sc Hs).
  assert (K5 : in_sched scheduler_init k4 = Done tt k5) by exact (run_sched scheduler_init k4 tt _ eq_refl).
  stage junk Hjunk (t1, u, Io cl pt, (k, w)) ltac:(eapply tables_step; [exact E|exact T1]).
  stage junk Hjunk (t2, u, Io cl pt, (k, w)) ltac:(eapply tables_step; [exact E|exact T2]).
  stage junk Hjunk (t3, u, Io cl pt, (k, w)) ltac:(eapply tables_step; [exact E|exact T3]).
  stage junk Hjunk (t4, u, Io cl pt, (k, w)) ltac:(eapply tables_step; [exact E|exact T4]).
  stage junk Hjunk (t4, u, Io cl pt1, (k, w)) ltac:(eapply ports_step; [exact E|reflexivity]).
  stage junk Hjunk (t4, u, Io cl pt2, (k, w)) ltac:(eapply ports_step; [exact E|reflexivity]).
  stage junk Hjunk (t4, u, Io more pt3, (k, w)) ltac:(eapply ports_step; [exact E|by apply rtc_init_spec]).
  stage junk Hjunk (t4, u, Io more pt3, (k, w)) ltac:(eapply nothing_step; exact E).
  stage junk Hjunk (t4, u, Io more pt3, (k1, w)) ltac:(eapply kernel_step; [exact E|exact K1]).
  stage junk Hjunk (t4, u, Io more pt3, (k2, w)) ltac:(eapply kernel_step; [exact E|exact K2]).
  stage junk Hjunk (t4, u, Io more pt3, (k3, w)) ltac:(eapply kernel_step; [exact E|exact K3]).
  stage junk Hjunk (t4, u, Io more pt3, (k4, w)) ltac:(eapply kernel_step; [exact E|exact K4]).
  stage junk Hjunk (t4, u, Io more pt3, (k5, w)) ltac:(eapply kernel_step; [exact E|exact K5]).
  destruct (announce_spec junk Hjunk "Initialising syscalls..." " [DONE]]" (mret tt) _ _ (λ r, r = (t4, u, Io more pt3, (k5, w)))
    eq_refl eq_refl D) as ([] & sf & Hrun & Df & Ef).
  { intros sx Ex. eapply nothing_step. by rewrite Ex. }
  eapply returns_done; [exact Hrun|]. clear D E. rename Df into D, Ef into E. injection E as Et Eu Ep Ek. rewrite Et, Eu, Ep, Ek. split; [exact D|]. split; [done|].
  split; [done|]. split; [unfold pt3, pt2, pt1; by rewrite <- !app_assoc|]. exists k5. by split_and!.
Qed.
End Hardware.

(** * Starting the file systems *)

(** Steps with their messages, and the steps alone. *)
Fixpoint announced_run (junk : list Z) (l : list (string * string * M kw unit)) : M machine unit :=
  match l with
  | [] => mret tt
  | (text, finished, m) :: l => announce junk text finished (in_system m) ;; announced_run junk l
  end.

Fixpoint silent_run (l : list (string * string * M kw unit)) : M kw unit :=
  match l with [] => mret tt | (_, _, m) :: l => m ;; silent_run l end.

Definition plain_messages (l : list (string * string * M kw unit)) : bool :=
  forallb (λ m, plain (cs m.1.1) && plain (cs m.1.2 ++ [10])) l.

(** The messages change nothing but the screen: the start-up panics where the
    steps alone do, and ends with the kernel they leave. *)
Lemma announced_run_spec junk l : length junk = 1024%nat → plain_messages l = true → ∀ s p t u pt k,
  display p s → rest s = (t, u, pt, k) →
  match silent_run l k with
  | Done _ k' => returns (announced_run junk l) s (λ _ s', display (announce_all (fst <$> l) p) s' ∧ rest s' = (t, u, pt, k'))
  | Panic e => announced_run junk l s = Panic e
  | _ => True
  end.
Proof.
  intros Hj. induction l as [|[[text finished] m] l IH]; intros Hp s p t u pt k D E; simpl.
  { by eapply returns_done. }
  simpl in Hp. apply andb_true_iff in Hp as [[Ht Hf]%andb_true_iff Hp].
  unfold mbind at 1, M_bind at 1. destruct (m k) as [[] k1|e| |] eqn:Hm; [|clear IH|done..].
  - destruct (announce_spec junk Hj text finished (in_system m) s p (λ r, r = (t, u, pt, k1)) Ht Hf D) as ([] & s1 & H1 & D1 & E1).
    { intros s1 E1. eapply system_step; [by rewrite E1|done]. }
    specialize (IH Hp s1 _ _ _ _ _ D1 E1). destruct (silent_run l k1); [by eapply returns_step| |done..].
    by rewrite (bind_Done _ _ _ _ _ H1).
  - apply bind_Panic. eapply announce_panics; [done..|]. by destruct s; injection E as _ _ _ ->.
Qed.

Section Services.
Context `{C : Clock} `{D : Drivers} `{T : Scratch} `{H : Handlers}.

Definition service_steps : list (string * string * M kw unit) :=
  let device name read write : M kw unit := devfs_register (cs "/devices") (cs name) read write ;; mret tt in
  [("Initialising VFS...", " [DONE]", in_world vfs_init);
   ("Mounting shadowFS...", " [DONE]", mount_or_panic (shadowfs_mount (cs "/temp") (8 * 1024 * 1024)) "kernel: failed to mount shadowFS at /temp!");
   ("Mounting devFS...", " [DONE]", mount_or_panic (devfs_mount (cs "/devices")) "kernel: failed to mount devFS at /devices!");
   ("Registering /devices/display...", " [DONE]", device "display" None (Some dev_display_write));
   ("Registering /devices/keyboard...", " [DONE]", device "keyboard" (Some dev_keyboard_read) None);
   ("Registering /devices/null...", " [DONE]", device "null" (Some dev_null_read_at) (Some dev_null_write_at));
   ("Registering /devices/random...", " [DONE]", device "random" (Some dev_random_read) None);
   ("Registering /devices/serial...", " [DONE]", device "serial" (Some dev_serial_read) (Some dev_serial_write));
   ("Registering /devices/rtc...", " [DONE]", device "rtc" (Some dev_rtc_read_at) None);
   ("Setting up stdio...", " [DONE]", open_stdio);
   ("Mounting procFS...", " [DONE]", mount_or_panic (procfs_mount (cs "/process")) "kernel: failed to mount procFS at /process!")]%string.

Lemma start_services_run junk s : start_services junk s = announced_run junk service_steps s.
Proof.
  unfold start_services, service_steps, register. cbn [announced_run].
  do 10 (apply bind_ext; intros _ ?). by rewrite bind_ret_unit.
Qed.

Lemma silent_services k : silent_run service_steps k = start_filesystems k.
Proof.
  unfold start_filesystems, service_steps. cbn [silent_run]. do 3 (apply bind_ext; intros _ ?).
  unfold register_devices. do 6 (rewrite !bind_assoc; apply bind_ext; intros ? ?; rewrite bind_ret).
  rewrite bind_ret. apply bind_ext. intros _ ?. apply bind_ret_unit.
Qed.

(** The free memory pmm_init() counts, as sh_get_free_bytes() returns it. *)
Definition boot_free_bytes (map : list e820_entry) (count highest : Z) : Z :=
  u32 ((usable_pages (take (Z.to_nat count) map) - reserved_count (highest / PAGE_SIZE / 8 + 1)) * PAGE_SIZE).

Lemma free_bytes_boot k root map count highest :
  initialised k root map count highest → free_bytes k = boot_free_bytes map count highest.
Proof.
  intros [_ _ _ Hf _ _]. unfold free_bytes, boot_free_bytes. rewrite Hf. generalize (usable_pages (take (Z.to_nat count) map) - reserved_count (highest / PAGE_SIZE / 8 + 1)).
  intros x. unfold PAGE_SIZE. word_lia.
Qed.

Lemma initialised_owned k root map count highest : initialised k root map count highest → owned (k, bss).
Proof. intros [HI _ _ _ _ _]. exists []. split; [done|]. intros p o Hp. discriminate Hp. Qed.

Definition service_messages : list (string * string) := fst <$> service_steps.

(** The file systems are started on a kernel whose memory is initialised. *)
Lemma start_services_spec junk s p t u pt k root map count highest :
  length junk = 1024%nat → display p s → rest s = (t, u, pt, (k, bss)) → initialised k root map count highest →
  16 * 1024 * 1024 <= boot_free_bytes map count highest →
  start_services junk s = Panic out_of_memory ∨
  returns (start_services junk) s (λ _ s', display (announce_all service_messages p) s' ∧
    ∃ k', rest s' = (t, u, pt, k') ∧ started k k').
Proof.
  intros Hj Hd E Hi Hfree. pose proof (announced_run_spec junk service_steps Hj eq_refl s p t u pt (k, bss) Hd E) as Hr.
  unfold returns. rewrite start_services_run. rewrite silent_services in Hr.
  destruct (start_filesystems_delivers k) as [X|([] & k' & X & HS)].
  - by eapply initialised_owned.
  - rewrite (free_bytes_boot _ _ _ _ _ Hi). Z.div_mod_to_equations. lia.
  - rewrite X in Hr. by left.
  - rewrite X in Hr. right. destruct Hr as (a & s' & Hs' & Hd' & E'). exists a, s'. split; [done|]. split; [done|]. by exists k'.
Qed.
End Services.


(** A machine with 64 MB, all of it zero. *)
Definition demo_junk : list Z := replicate 1024 0.
Definition demo_stub (n : Z) : Z := 0x8000 + 16 * (n mod 256).
Definition demo_screen : vga := Vga (replicate 2000 0) 0 0 0.

Lemma demo_stub_ok n : 0 <= demo_stub n < 2 ^ 64.
Proof. unfold demo_stub. Z.div_mod_to_equations. lia. Qed.

(** A clock that is caught in an update, then between two seconds. *)
Definition demo_rounds : list round :=
  [Round [0xA6; 0xA6] 0x26 (registers 2 demo_time) [] 0x26 (registers 2 demo_next);
   Round [] 0x26 (registers 2 demo_next) [0xA6] 0x26 (registers 2 demo_next)].

Lemma demo_settles : settles demo_rounds.
Proof.
  split; [repeat constructor; discriminate|]. eexists [_], _. split; [reflexivity|].
  split; [repeat constructor; discriminate|reflexivity].
Qed.

Definition demo_boot : machine :=
  Machine no_tables (Uart (replicate 100 0x20) []) (Io (session_answers demo_rounds 2 ++ [0x11]) []) demo_screen
    (Kernel (Sched ∅ (replicate 16 0) 0 0 0 0 0 0 []) (Vm ∅ (Pmm ∅ 0 0) 0 0x1000) (Heap ∅ 0 0), bss).

#[local] Notation demo_start_machine :=
  (start_machine (C := demo_clock) (D := demo_drivers) (T := demo_scratch) (H := demo_handlers)
    0x5000 0x6000 0x7000 demo_stub 0x9000 0 0 0 demo_junk demo_map 3 demo_ram demo_boot).

Lemma demo_bootable : bootable (m_sys demo_boot).1 demo_map 3 demo_ram.
Proof.
  split; simpl.
  - done.
  - by split.
  - split; [exact demo_map_ok|lia].
  - unfold demo_ram. lia.
Qed.

Lemma demo_start_runs : is_done demo_start_machine = true.
Proof. vm_compute. reflexivity. Qed.

