(* ===== verification/Unistd.v ===== *)
(** The system calls of the user library: libc/src/syscall.c and the stubs of
    acorn/syscall.h, down to the handlers of the kernel.

    A stub loads the registers and executes SYSCALL; syscall_entry
    (architecture/x86_64/syscall_entry.asm) pushes the return address and the
    flags on the user's stack and the kernel's registers_t on the stack of the
    process, and calls syscall_handler(); SYSRET brings the frame back. An
    int passes as its sign extension, a result comes back in RAX. The value of
    a call is [None] when the caller does not get control back in this pass of
    the handler: it exited, entered a new image, or sleeps in sys_wait(). What
    the compiled C code keeps on the kernel stack below the frame is not
    modelled. *)

From S2P Require Import Prelude Pmm Heap Phys Paging Space UserMemory Sched Process Syscall.

(** * Numbers (libc/include/acorn/syscall.h) *)

Definition SYS_EXIT : Z := 0.
Definition SYS_WRITE : Z := 1.
Definition SYS_READ : Z := 2.
Definition SYS_GETPID : Z := 3.
Definition SYS_YIELD : Z := 4.
Definition SYS_FORK : Z := 5.
Definition SYS_WAIT : Z := 6.
Definition SYS_EXEC : Z := 7.
Definition SYS_OPEN : Z := 8.
Definition SYS_CLOSE : Z := 9.
Definition SYS_SEEK : Z := 10.
Definition SYS_HEAP_GROW : Z := 14.
Definition SYS_SLEEP : Z := 15.

(** * From the stub to the handler and back *)

(** ** The entry code *)

(** push: the stack pointer goes down by 8, and the word is stored there. *)
Definition push (sp v : Z) : M vm Z := write_to (u64 (sp - 8)) (split 8 v) ;; mret (u64 (sp - 8)).
Definition read_word (p : Z) : M vm Z := bs ← read_from 8 p; mret (combine bs).

(** A run of pushes of operands: the words pushed, the last one first. *)
Fixpoint push_operands (sp : Z) (operands : list (M vm Z)) : M vm (list Z) :=
  match operands with
  | [] => mret []
  | o :: operands =>
      v ← o;
      sp ← push sp v;
      vs ← push_operands sp operands;
      mret (vs ++ [v])
  end.

(** The operands of the pushes on the kernel stack, in the order of the code;
    [rsp] is R11, the true stack pointer of the user. The first word pushed
    holds DS in its low 16 bits, above them what RAX held. *)
Definition entry_operands (user : registers_t) : list (M vm Z) :=
  let rsp := reg_rsp user in
  let rip := read_word (u64 (rsp - 8)) in
  let rflags := read_word (u64 (rsp - 16)) in
  [mret 0x23; mret rsp; rflags; mret 0x2B; rip; mret (reg_rax user); mret 0; mret (reg_rax user); mret (reg_rbx user); rip;
   mret (reg_rdx user); mret (reg_rsi user); mret (reg_rdi user); mret (reg_rbp user); mret (reg_r8 user); mret (reg_r9 user);
   mret (reg_r10 user); rflags; mret (reg_r12 user); mret (reg_r13 user); mret (reg_r14 user); mret (reg_r15 user);
   mret (Z.lor (Z.ldiff (reg_rax user) 0xFFFF) (reg_ds user))].

(** The registers_t that the words at the stack pointer are. *)
Definition frame_of (words : list Z) : option registers_t :=
  match words with
  | [ds; r15; r14; r13; r12; r11; r10; r9; r8; rbp; rdi; rsi; rdx; rcx; rbx; rax; int_no; err_code; rip; cs; rflags; rsp; ss] =>
      Some (Regs ds r15 r14 r13 r12 r11 r10 r9 r8 rbp rdi rsi rdx rcx rbx rax int_no err_code rip cs rflags rsp ss)
  | _ => None
  end.

(** The registers the stub loads. *)
Definition load_call (num a1 a2 a3 : Z) (user : registers_t) : registers_t :=
  Regs (reg_ds user) (reg_r15 user) (reg_r14 user) (reg_r13 user) (reg_r12 user) (reg_r11 user) (reg_r10 user) (reg_r9 user) (reg_r8 user) (reg_rbp user)
    (u64 a1) (u64 a2) (u64 a3) (reg_rcx user) (reg_rbx user) (u64 num) (reg_int_no user) (reg_err_code user) (reg_rip user) (reg_cs user) (reg_rflags user) (reg_rsp user) (reg_ss user).

(** The frame of a caller: the number of the call is where an interrupt has its
    error code, and the interrupt number is 0. *)
Definition entry_frame (user : registers_t) : registers_t :=
  Regs (Z.lor (Z.ldiff (reg_rax user) 0xFFFF) (reg_ds user)) (reg_r15 user) (reg_r14 user) (reg_r13 user) (reg_r12 user)
    (reg_rflags user) (reg_r10 user) (reg_r9 user) (reg_r8 user) (reg_rbp user) (reg_rdi user) (reg_rsi user) (reg_rdx user) (reg_rip user) (reg_rbx user) (reg_rax user)
    0 (reg_rax user) (reg_rip user) 0x2B (reg_rflags user) (reg_rsp user) 0x23.

(** The words of a registers_t, as they lie in memory. *)
Definition frame_words (f : registers_t) : list Z :=
  [reg_ds f; reg_r15 f; reg_r14 f; reg_r13 f; reg_r12 f; reg_r11 f; reg_r10 f; reg_r9 f; reg_r8 f; reg_rbp f; reg_rdi f; reg_rsi f;
   reg_rdx f; reg_rcx f; reg_rbx f; reg_rax f; reg_int_no f; reg_err_code f; reg_rip f; reg_cs f; reg_rflags f; reg_rsp f; reg_ss f].

Lemma frame_of_words f : frame_of (frame_words f) = Some f.
Proof. by destruct f. Qed.

(** * Pushing *)

(** Pushes on a kernel stack that ends at the physical address [t], while the
    memory stays such that the operands are what they are. *)
Lemma push_operands_spec (P : phys → Prop) v0 lo hi : (∀ m a b, P m → lo <= a < hi → P (wr8 a b m)) → 0 <= lo →
  ∀ operands vals, Forall2 (λ (o : M vm Z) v, ∀ m, P m → o (with_memory m v0) = Done v (with_memory m v0)) operands vals →
  ∀ t m, P m → t <= hi → lo + 8 * Z.of_nat (length operands) <= t → PHYSICAL_MAP_BASE + t <= 2 ^ 64 →
  ∃ m', push_operands (PHYSICAL_MAP_BASE + t) operands (with_memory m v0) = Done (reverse vals) (with_memory m' v0) ∧ P m' ∧
    (∀ i v, vals !! i = Some v → rd64 m' (t - 8 * (Z.of_nat i + 1)) = u64 v) ∧
    ∀ a, a < t - 8 * Z.of_nat (length operands) ∨ t <= a → rd8 m' a = rd8 m a.
Proof.
  intros HP Hlo operands vals Hf. induction Hf as [|o v operands vals Ho _ IH]; intros t m Hm Ht Hl Hmax.
  { exists m. by split_and!. }
  cbn [push_operands length] in *. rewrite (bind_Done _ _ _ _ _ (Ho m Hm)). set (m1 := wr64 (t - 8) v m).
  assert (Hbytes : ∀ bs a m2, P m2 → lo <= a → a + Z.of_nat (length bs) <= hi → P (wr_bytes a bs m2)).
  { induction bs as [|b bs IHb]; intros a m2 H2 Ha Hb; [done|]. cbn [wr_bytes length] in *. apply IHb; [apply HP|..]; [done|lia..]. }
  assert (Hm1 : P m1) by (apply Hbytes; [done|lia|rewrite length_split; lia]).
  assert (Hp : push (PHYSICAL_MAP_BASE + t) v (with_memory m v0) = Done (PHYSICAL_MAP_BASE + (t - 8)) (with_memory m1 v0)).
  { unfold push. assert (u64 (PHYSICAL_MAP_BASE + t - 8) = PHYSICAL_MAP_BASE + (t - 8)) as ->.
    { rewrite u64_small; [lia|]. unfold PHYSICAL_MAP_BASE in *. lia. }
    rewrite (bind_Done _ _ _ _ _ (write_to_kernel (split 8 v) (PHYSICAL_MAP_BASE + (t - 8)) _ ltac:(lia) ltac:(rewrite length_split; lia))).
    cbn [mem with_memory frames kernel_pml4 cr3]. by replace (PHYSICAL_MAP_BASE + (t - 8) - PHYSICAL_MAP_BASE) with (t - 8) by lia. }
  rewrite (bind_Done _ _ _ _ _ Hp). destruct (IH (t - 8) m1 Hm1) as (m' & Hrun & HP' & Hin & Hout); [lia..|].
  exists m'. rewrite (bind_Done _ _ _ _ _ Hrun). split; [by rewrite reverse_cons|]. split; [done|]. split.
  - intros [|i] u Hu; cbn [lookup list_lookup] in Hu.
    + injection Hu as <-. rewrite <- (rd64_wr64_eq m (t - 8) v). apply rd64_ext. intros i Hi. apply Hout. lia.
    + rewrite <- (Hin i u Hu). f_equal. lia.
  - intros a Ha. rewrite Hout by lia. apply rd8_wr_out. rewrite length_split. lia.
Qed.

(** What the entry code needs: the 16 bytes below the user's stack pointer are
    mapped, and the stack of the process is ordinary memory. *)
Record stacks (v : vm) (x : process_t) (root : Z) (T : gmap (list Z) Z) (rsp : Z) : Prop := {
  sk_user : buffer v root T (rsp - 16) 16;
  sk_private : private_buffer v T (rsp - 16) 16;
  sk_top : PHYSICAL_MAP_BASE + 184 <= p_stack_top x <= 2 ^ 64;
  sk_tables a q t : p_stack_top x - 184 <= PHYSICAL_MAP_BASE + a < p_stack_top x → T !! q = Some t → a / 4096 ≠ t / 4096;
  sk_apart i : 0 <= i < 16 → ¬ (p_stack_top x - 184 <= PHYSICAL_MAP_BASE + translation v T (rsp - 16 + i) < p_stack_top x) }.

(** The kernel after the entry code, which leaves [v] of the memory. *)
Definition inside (k : kernel) (u : registers_t) (x : process_t) (v : vm) : kernel :=
  Kernel (with_procs <[current_process (k_sched k) := set_user_esp (reg_rsp u) x]> (k_sched k)) v (k_heap k).

Section Stacks.
Context (v : vm) (x : process_t) (root : Z) (T : gmap (list Z) Z) (user : registers_t).
Context (Hst : stacks v x root T (reg_rsp user)).
Context (Hrip : 0 <= reg_rip user < 2 ^ 64) (Hfl : 0 <= reg_rflags user < 2 ^ 64).

Lemma rsp_range : 16 <= reg_rsp user <= 2 ^ 47.
Proof.
  destruct Hst as [[_ _ Hm] _ _ _ _]. destruct (Hm 0 ltac:(lia)) as [H1 _]. destruct (Hm 15 ltac:(lia)) as [H2 _].
  unfold user_addr in *. lia.
Qed.

(** The two words on the user's stack. *)
Lemma user_pushes : ∃ m,
  (sp ← push (reg_rsp user) (reg_rip user); push sp (reg_rflags user)) v = Done (reg_rsp user - 16) (with_memory m v) ∧
  space_wf (with_memory m v) root T ∧ (∀ c, translation (with_memory m v) T c = translation v T c) ∧
  (∀ i b, (split 8 (reg_rflags user) ++ split 8 (reg_rip user)) !! i = Some b → rd8 m (translation v T (reg_rsp user - 16 + Z.of_nat i)) = b) ∧
  ∀ a, (∀ i, 0 <= i < 16 → a ≠ translation v T (reg_rsp user - 16 + i)) → rd8 m a = rd8 (mem v) a.
Proof.
  pose proof rsp_range as Hr. destruct Hst as [Hb Hp _ _ _]. set (rsp := reg_rsp user) in *.
  assert (Hb1 : buffer v root T (rsp - 8) (Z.of_nat (length (split 8 (reg_rip user))))).
  { replace (rsp - 8) with (rsp - 16 + 8) by lia. eapply buffer_part; [exact Hb|lia|rewrite length_split; lia]. }
  assert (Hp1 : private_buffer v T (rsp - 8) (Z.of_nat (length (split 8 (reg_rip user))))).
  { replace (rsp - 8) with (rsp - 16 + 8) by lia. eapply private_part; [exact Hp|lia|rewrite length_split; lia]. }
  destruct (write_to_user _ _ _ _ _ Hb1 Hp1) as (m1 & H1 & Hwf1 & Htr1 & Hin1 & Hout1).
  assert (Hb2 : buffer (with_memory m1 v) root T (rsp - 16) (Z.of_nat (length (split 8 (reg_rflags user))))).
  { eapply (buffer_moved v); [|done|exact Hwf1|exact Htr1]. replace (rsp - 16) with (rsp - 16 + 0) by lia.
    eapply buffer_part; [exact Hb|lia|rewrite length_split; lia]. }
  assert (Hp2 : private_buffer (with_memory m1 v) T (rsp - 16) (Z.of_nat (length (split 8 (reg_rflags user))))).
  { eapply (private_moved v); [|exact Htr1]. replace (rsp - 16) with (rsp - 16 + 0) by lia.
    eapply private_part; [exact Hp|lia|rewrite length_split; lia]. }
  destruct (write_to_user _ _ _ _ _ Hb2 Hp2) as (m2 & H2 & Hwf2 & Htr2 & Hin2 & Hout2). rewrite length_split in *.
  exists m2. split; [|split; [exact Hwf2|split; [intros c; by rewrite <- Htr1, <- Htr2|split]]].
  - unfold push. rewrite !u64_small by lia. rewrite bind_assoc, (bind_Done _ _ _ _ _ H1), bind_ret.
    replace (rsp - 8 - 8) with (rsp - 16) by lia. rewrite u64_small by lia. by rewrite (bind_Done _ _ _ _ _ H2).
  - intros i b Hi. apply lookup_app_Some in Hi as [Hi|[Hge Hi]].
    + rewrite <- Htr1, (Hin2 i b Hi). apply u8_small. exact (Forall_lookup_1 _ _ _ _ (split_byte 8 _) Hi).
    + rewrite length_split in *. pose proof (lookup_lt_Some _ _ _ Hi) as Hlt. rewrite length_split in Hlt.
      rewrite Hout2.
      * cbn [mem with_memory]. replace (rsp - 16 + Z.of_nat i) with (rsp - 8 + Z.of_nat (i - 8)) by lia. rewrite (Hin1 _ _ Hi).
        apply u8_small. exact (Forall_lookup_1 _ _ _ _ (split_byte 8 _) Hi).
      * intros j Hj. rewrite Htr1. intros E. pose proof (pb_apart _ _ _ _ Hp (Z.of_nat i) j ltac:(lia) ltac:(lia) E). lia.
  - intros a Ha. rewrite Hout2; [cbn [mem with_memory]; apply Hout1|].
    + intros i Hi. replace (rsp - 8 + i) with (rsp - 16 + (8 + i)) by lia. apply Ha. lia.
    + intros i Hi. rewrite Htr1. apply Ha. lia.
Qed.

(** A word of the user's stack, whatever has happened to the rest of memory. *)
Lemma read_user_word m m1 d val : (d = 0 ∨ d = 8) → val = (if d =? 0 then reg_rflags user else reg_rip user) →
  space_wf (with_memory m v) root T → (∀ c, translation (with_memory m v) T c = translation v T c) →
  (∀ i b, (split 8 (reg_rflags user) ++ split 8 (reg_rip user)) !! i = Some b → rd8 m1 (translation v T (reg_rsp user - 16 + Z.of_nat i)) = b) →
  (∀ i, 0 <= i < 16 → rd8 m (translation v T (reg_rsp user - 16 + i)) = rd8 m1 (translation v T (reg_rsp user - 16 + i))) →
  read_word (u64 (reg_rsp user - 16 + d)) (with_memory m v) = Done val (with_memory m v).
Proof.
  intros Hd Hval Hwf Htr Hin Hsame. pose proof rsp_range as Hr. destruct Hst as [Hb _ _ _ _]. rewrite u64_small by lia.
  assert (Hb' : buffer (with_memory m v) root T (reg_rsp user - 16 + d) 8).
  { eapply (buffer_moved v); [eapply buffer_part; [exact Hb|lia|lia]|done|exact Hwf|exact Htr]. }
  unfold read_word. rewrite (bind_Done _ _ _ _ _ (read_from_user 8 _ _ _ _ Hb')). unfold mret, M_ret. f_equal.
  assert (Hu : user_bytes (with_memory m v) T (reg_rsp user - 16 + d) (Z.of_nat 8) = split 8 val).
  { apply list_eq. intros i. unfold user_bytes. rewrite list_lookup_fmap. change (Z.of_nat 8) with 8.
    destruct (decide (i < 8)%nat) as [Hi|Hi].
    - rewrite lookup_seqZ_lt by lia. cbn [fmap option_fmap option_map]. rewrite Htr, Z.add_0_l. cbn [mem with_memory].
      destruct (lookup_lt_is_Some_2 (split 8 val) i) as [b Hib]; [by rewrite length_split|]. rewrite Hib. f_equal.
      replace (reg_rsp user - 16 + d + Z.of_nat i) with (reg_rsp user - 16 + Z.of_nat (Z.to_nat d + i)) by lia.
      rewrite Hsame by lia. apply Hin. destruct Hd as [-> | ->]; cbn [Z.eqb] in Hval; subst val.
      + apply lookup_app_l_Some. exact Hib.
      + rewrite lookup_app_r by (rewrite length_split; lia). rewrite length_split. by replace (Z.to_nat 8 + i - 8)%nat with i by lia.
    - rewrite lookup_seqZ_ge by lia. rewrite lookup_ge_None_2; [done|]. rewrite length_split. lia. }
  rewrite Hu, combine_split. apply Z.mod_small. destruct Hd as [-> | ->]; cbn [Z.eqb] in Hval; subst val; done.
Qed.
End Stacks.

(** The words of a frame at a physical address. *)
Definition frame_at (m : phys) (a : Z) (f : registers_t) : Prop :=
  ∀ i v, frame_words f !! i = Some v → rd64 m (a + 8 * Z.of_nat i) = u64 v.

Section Unistd.
Context {W : Type} `{!Vfs W} `{!ElfLoader W} (iret_stub : Z).

Definition in_space {A} (m : M vm A) : M (kernel * W) A := in_kernel (in_vm m).

(** syscall_entry up to its call: RCX and R11 hold the return address and the
    flags, as the CPU left them. They go on the user's stack, whose pointer is
    noted in the process; then the frame goes on the stack of the process. *)
Definition enter (user : registers_t) : M (kernel * W) registers_t :=
  in_space (sp ← push (reg_rsp user) (reg_rip user); push sp (reg_rflags user)) ;;
  update_current (set_user_esp (reg_rsp user)) ;;
  c ← current;
  x ← in_kernel (in_sched (deref c));
  words ← in_space (push_operands (p_stack_top x) (entry_operands user));
  access (frame_of words).

Definition syscall_entry (user : registers_t) : M (kernel * W) (option registers_t) :=
  frame ← enter user;
  syscall_handler iret_stub frame.

(** The other registers of the caller. *)
Context (user : registers_t).

Definition syscall3 (num a1 a2 a3 : Z) : M (kernel * W) (option Z) :=
  o ← syscall_entry (load_call num a1 a2 a3 user);
  mret ((λ r, i64 (reg_rax r)) <$> o).
Definition syscall2 (num a1 a2 : Z) := syscall3 num a1 a2 (reg_rdx user).
Definition syscall1 (num a1 : Z) := syscall2 num a1 (reg_rsi user).
Definition syscall0 (num : Z) := syscall1 num (reg_rdi user).

(** A long returned as an int. *)
Definition as_int (m : M (kernel * W) (option Z)) : M (kernel * W) (option Z) := o ← m; mret (i32 <$> o).

(** * The library *)

Definition write (fd buf count : Z) := syscall3 SYS_WRITE fd buf (i64 count).
(** read() casts its result to int. *)
Definition read (fd buf count : Z) := as_int (syscall3 SYS_READ fd buf (i64 count)).
Definition exit (status : Z) : M (kernel * W) (option Z) :=
  o ← syscall1 SYS_EXIT status;
  match o with Some _ => diverge | None => mret None end.
Definition getpid := syscall0 SYS_GETPID.
Definition yield := syscall0 SYS_YIELD.
Definition fork := syscall0 SYS_FORK.
Definition wait := as_int (syscall0 SYS_WAIT).
Definition exec (path argv : Z) := as_int (syscall2 SYS_EXEC path argv).
Definition open (path flags : Z) := as_int (syscall2 SYS_OPEN path flags).
Definition close (fd : Z) := as_int (syscall1 SYS_CLOSE fd).
Definition seek (fd offset whence : Z) := as_int (syscall3 SYS_SEEK fd offset whence).
Definition sleep (seconds : Z) := syscall1 SYS_SLEEP (seconds * 1000).
Definition usleep (microseconds : Z) :=
  let ms := microseconds / 1000 in
  syscall1 SYS_SLEEP (if ms =? 0 then 1 else ms).

(** crt0.c *)
Definition start (main : Z → Z → M (kernel * W) (option Z)) (argc argv : Z) : M (kernel * W) (option Z) :=
  o ← main argc argv;
  match o with Some status => exit status | None => mret None end.

(** * What a call is to the kernel *)

(** The call with these registers enters the kernel, which notes where the
    caller stands, and is served with its frame. *)
Definition served (num a1 a2 a3 : Z) (m : registers_t → M (kernel * W) (option Z)) : M (kernel * W) (option Z) :=
  frame ← enter (load_call num a1 a2 a3 user);
  update_current (λ x, set_user_eip (reg_rip frame) (set_user_esp (reg_rsp frame) x)) ;;
  m frame.

(** An int or a long as the result of a call that returns. *)
Definition result (m : M (kernel * W) Z) : M (kernel * W) (option Z) := r ← m; mret (Some r).
Definition refuse : M (kernel * W) (option Z) := mret (Some (-1)).

(** What the frame of a call holds, whatever the stacks are. *)
Record arrives (num a1 a2 a3 : Z) (f : registers_t) : Prop := {
  ar_rax : reg_rax f = u64 num;
  ar_rdi : reg_rdi f = u64 a1;
  ar_rsi : reg_rsi f = u64 a2;
  ar_rdx : reg_rdx f = u64 a3;
  ar_rsp : reg_rsp f = reg_rsp user }.

Lemma push_operands_values operands : ∀ sp s vs s', push_operands sp operands s = Done vs s' →
  Forall2 (λ (o : M vm Z) v, ∃ s1 s2, o s1 = Done v s2) operands (reverse vs).
Proof.
  induction operands as [|o operands IH]; intros sp s vs s' H; [injection H as <- _; constructor|].
  cbn [push_operands] in H. apply bind_Done_inv in H as (v & s1 & H1 & H). apply bind_Done_inv in H as (sp1 & s2 & _ & H).
  apply bind_Done_inv in H as (vs1 & s3 & H3 & H). injection H as <- _. rewrite reverse_snoc. constructor; [by exists s, s1|by eapply IH].
Qed.

Lemma in_space_inv {A} (m : M vm A) k w a k' w' : in_space m (k, w) = Done a (k', w') →
  ∃ v, m (k_vm k) = Done a v ∧ k' = Kernel (k_sched k) v (k_heap k) ∧ w' = w.
Proof.
  intros H. apply zoom_Done_inv in H as (k1 & H & E). injection E as -> ->. apply zoom_Done_inv in H as (v & H & ->). by exists v.
Qed.

Lemma bind_ext_Done {S A B} (m : M S A) (f g : A → M S B) s : (∀ a s', m s = Done a s' → f a s' = g a s') → (m ≫= f) s = (m ≫= g) s.
Proof. unfold mbind, M_bind. destruct (m s); auto. Qed.

Section Calls.
Context (k : kernel) (w : W) (Hc : current_process (k_sched k) ≠ 0).
Context (Hcur : is_Some (procs (k_sched k) !! current_process (k_sched k))).

Lemma enter_steps u x : procs (k_sched k) !! current_process (k_sched k) = Some x → ∀ f s',
  enter u (k, w) = Done f s' ↔ ∃ sp v1 words v2,
    (sp ← push (reg_rsp u) (reg_rip u); push sp (reg_rflags u)) (k_vm k) = Done sp v1 ∧
    push_operands (p_stack_top x) (entry_operands u) v1 = Done words v2 ∧ frame_of words = Some f ∧ s' = (inside k u x v2, w).
Proof.
  intros Hx f s'.
  assert (Hrest : ∀ v1, (update_current (set_user_esp (reg_rsp u)) ;; c ← current; x ← in_kernel (in_sched (deref c));
      words ← in_space (push_operands (p_stack_top x) (entry_operands u)); access (frame_of words)) (Kernel (k_sched k) v1 (k_heap k), w) =
    (words ← in_space (push_operands (p_stack_top x) (entry_operands u)); access (frame_of words)) (inside k u x v1, w)).
  { intros v1. rewrite (bind_Done _ _ _ _ _ (update_current_Done (Kernel (k_sched k) v1 (k_heap k)) w _ x Hx)).
    rewrite (bind_Done _ _ _ _ _ (current_Done _ w)).
    rewrite (bind_Done _ _ _ _ _ (read_process_Done (inside k u x v1) w _ (set_user_esp (reg_rsp u) x) (lookup_insert_eq _ _ _))). done. }
  unfold enter. split.
  - intros H. apply bind_Done_inv in H as (sp & [k1 w1] & H1 & H). apply in_space_inv in H1 as (v1 & H1 & -> & ->).
    rewrite Hrest in H. apply bind_Done_inv in H as (words & [k2 w2] & H2 & H). apply in_space_inv in H2 as (v2 & H2 & -> & ->).
    exists sp, v1, words, v2. split; [exact H1|]. split; [exact H2|]. destruct (frame_of words); [|done]. by injection H as <- <-.
  - intros (sp & v1 & words & v2 & H1 & H2 & Hf & ->).
    assert (E1 : in_space (sp ← push (reg_rsp u) (reg_rip u); push sp (reg_rflags u)) (k, w) = Done sp (Kernel (k_sched k) v1 (k_heap k), w)).
    { apply in_kernel_Done, run_vm, H1. }
    assert (E2 : in_space (push_operands (p_stack_top x) (entry_operands u)) (inside k u x v1, w) = Done words (inside k u x v2, w)).
    { apply in_kernel_Done. exact (run_vm _ (inside k u x v1) _ _ H2). }
    by rewrite (bind_Done _ _ _ _ _ E1), Hrest, (bind_Done _ _ _ _ _ E2), Hf.
Qed.

(** Entering with the registers [u], from a process whose stacks are ordinary
    memory: the handler gets the frame of [u], which lies on the kernel stack;
    the return address and the flags lie below the user's stack pointer, which
    the process has noted; nothing else changes. *)
Definition enters (u : registers_t) (x : process_t) (root : Z) (T : gmap (list Z) Z) : Prop :=
  ∃ m, let v := with_memory m (k_vm k) in
    enter u (k, w) = Done (entry_frame u) (inside k u x v, w) ∧
    frame_at m (p_stack_top x - PHYSICAL_MAP_BASE - 184) (entry_frame u) ∧
    user_bytes v T (reg_rsp u - 16) 16 = split 8 (reg_rflags u) ++ split 8 (reg_rip u) ∧
    space_wf v root T ∧ (∀ c, translation v T c = translation (k_vm k) T c) ∧
    ∀ a, (∀ i, 0 <= i < 16 → a ≠ translation (k_vm k) T (reg_rsp u - 16 + i)) →
      ¬ (p_stack_top x - 184 <= PHYSICAL_MAP_BASE + a < p_stack_top x) → rd8 m a = rd8 (mem (k_vm k)) a.

Lemma entry_spec u x root T : procs (k_sched k) !! current_process (k_sched k) = Some x →
  stacks (k_vm k) x root T (reg_rsp u) → 0 <= reg_rip u < 2 ^ 64 → 0 <= reg_rflags u < 2 ^ 64 → enters u x root T.
Proof.
  intros Hx Hst Hrip Hfl. pose proof (rsp_range _ _ _ _ _ Hst) as Hr.
  destruct (user_pushes _ _ _ _ _ Hst) as (m1 & H1 & Hwf1 & Htr1 & Hin1 & Hout1).
  pose proof Hst as [_ _ Htop Htab Hap]. set (s := p_stack_top x - PHYSICAL_MAP_BASE).
  assert (Htop' : p_stack_top x = PHYSICAL_MAP_BASE + s) by lia. unfold enters. rewrite Htop' in Htop, Htab, Hap |- *. clearbody s.
  set (P := λ m : phys, ∀ a, ¬ (s - 184 <= a < s) → rd8 m a = rd8 m1 a).
  assert (Hspace : ∀ m, P m → space_wf (with_memory m (k_vm k)) root T ∧ ∀ c, translation (with_memory m (k_vm k)) T c = translation (k_vm k) T c).
  { intros m Hm. destruct (same_tables_space (with_memory m1 (k_vm k)) m root T Hwf1) as [Hwf Htr].
    - intros a q t Hne Hq. destruct (decide (s - 184 <= a < s)) as [Ha|Ha]; [eapply Htab; [|exact Hq]; lia|].
      exfalso. apply Hne. by apply Hm.
    - split; [exact Hwf|]. intros c. etrans; [apply Htr|apply Htr1]. }
  assert (Huser : ∀ m, P m → ∀ i, 0 <= i < 16 →
    rd8 m (translation (k_vm k) T (reg_rsp u - 16 + i)) = rd8 m1 (translation (k_vm k) T (reg_rsp u - 16 + i))).
  { intros m Hm i Hi. apply Hm. pose proof (Hap i Hi). lia. }
  assert (Hword : ∀ d val, (d = 0 ∨ d = 8) → val = (if d =? 0 then reg_rflags u else reg_rip u) → ∀ m, P m →
    read_word (u64 (reg_rsp u - 16 + d)) (with_memory m (k_vm k)) = Done val (with_memory m (k_vm k))).
  { intros d val Hd Hval m Hm. destruct (Hspace m Hm) as [Hwf Htr].
    exact (read_user_word _ _ _ _ _ Hst Hrip Hfl m m1 d val Hd Hval Hwf Htr Hin1 (Huser m Hm)). }
  pose proof (Hword 0 _ (or_introl eq_refl) eq_refl) as Hflags. pose proof (Hword 8 _ (or_intror eq_refl) eq_refl) as Hret. cbn [Z.eqb] in *.
  replace (reg_rsp u - 16 + 0) with (reg_rsp u - 16) in Hflags by lia. replace (reg_rsp u - 16 + 8) with (reg_rsp u - 8) in Hret by lia.
  destruct (push_operands_spec P (k_vm k) (s - 184) s) with (operands := entry_operands u) (vals := reverse (frame_words (entry_frame u)))
    (t := s) (m := m1) as (m & Hrun & HP & Hin & Hout); [|lia| |done|lia|cbn [length entry_operands]; lia|lia|].
  { intros m a b Hm Ha c Hc2. rewrite rd8_wr8, decide_False by (intros ->; lia). by apply Hm. }
  { unfold entry_operands. cbn. repeat (constructor; [first [exact Hflags|exact Hret|intros; reflexivity]|]). constructor. }
  rewrite reverse_involutive in Hrun. destruct (Hspace m HP) as [Hwf Htr]. exists m. cbv zeta. split_and!.
  - apply (enter_steps _ x Hx). do 4 eexists. split; [exact H1|]. split; [rewrite Htop'; exact Hrun|]. split; [apply frame_of_words|done].
  - intros i v Hi. pose proof (lookup_lt_Some _ _ _ Hi) as Hlt. change (i < 23)%nat in Hlt.
    assert (Hj : reverse (frame_words (entry_frame u)) !! (22 - i)%nat = Some v).
    { rewrite reverse_lookup by (simpl; lia). simpl length. by replace (23 - S (22 - i))%nat with i by lia. }
    rewrite <- (Hin _ _ Hj). f_equal. lia.
  - apply list_eq. intros i. unfold user_bytes. rewrite list_lookup_fmap. destruct (decide (i < 16)%nat) as [Hi|Hi].
    + rewrite lookup_seqZ_lt by lia. cbn [fmap option_fmap option_map]. rewrite Htr, Z.add_0_l. cbn [mem with_memory].
      destruct (lookup_lt_is_Some_2 (split 8 (reg_rflags u) ++ split 8 (reg_rip u)) i) as [b Hb]; [by rewrite length_app, !length_split|].
      rewrite Hb. f_equal. rewrite Huser by (done || lia). by apply Hin1.
    + rewrite lookup_seqZ_ge by lia. rewrite lookup_ge_None_2; [done|]. rewrite length_app, !length_split. lia.
  - exact Hwf.
  - exact Htr.
  - intros a Ha Hk. rewrite (HP a) by lia. by apply Hout1.
Qed.

(** The entry code leaves the arguments in the frame, and the caller current. *)
Lemma enter_inv num a1 a2 a3 f k1 w1 : enter (load_call num a1 a2 a3 user) (k, w) = Done f (k1, w1) →
  arrives num a1 a2 a3 f ∧ w1 = w ∧ current_process (k_sched k1) = current_process (k_sched k) ∧
  is_Some (procs (k_sched k1) !! current_process (k_sched k1)).
Proof.
  intros H. destruct Hcur as [x Hx]. destruct (proj1 (enter_steps _ x Hx _ _) H) as (sp & v1 & words & v2 & _ & Hp & Hf & E); clear H; rename Hp into H.
  injection E as -> ->. split; [|split; [done|]; split; [done|]; cbn; rewrite lookup_insert_eq; by eexists].
  apply push_operands_values in H. rewrite <- (reverse_involutive words) in Hf. revert H Hf. generalize (reverse words). intros vs H Hf.
  unfold entry_operands in H.
  repeat match goal with
  | H : Forall2 _ (_ :: _) ?l |- _ =>
      let v := fresh "v" in let l' := fresh "vs" in let E := fresh "E" in let H' := fresh "H" in
      destruct (Forall2_cons_inv_l _ _ _ _ H) as (v & l' & (? & ? & E) & H' & ->); clear H
  | H : Forall2 _ [] ?l |- _ => apply Forall2_nil_inv_l in H as ->
  end.
  cbn in Hf. injection Hf as <-.
  split; cbn; match goal with |- ?v = _ => match goal with E : mret _ _ = Done v _ |- _ => by injection E as <- end end.
Qed.

Lemma served_at num a1 a2 a3 m1 m2 :
  (∀ f k1, arrives num a1 a2 a3 f → current_process (k_sched k1) = current_process (k_sched k) → m1 f (k1, w) = m2 f (k1, w)) →
  served num a1 a2 a3 m1 (k, w) = served num a1 a2 a3 m2 (k, w).
Proof.
  intros H. unfold served. apply bind_ext_Done. intros f [k1 w1] He. apply enter_inv in He as (Ha & -> & Hk1 & [x Hx]).
  rewrite !(bind_Done _ _ (k1, w) tt _ (update_current_Done k1 w _ x Hx)). by apply H.
Qed.

Lemma call_reaches num a1 a2 a3 h : 0 <= num < 16 → syscall_table iret_stub !! Z.to_nat num = Some h →
  syscall3 num a1 a2 a3 (k, w) =
  served num a1 a2 a3 (λ frame, o ← h frame; mret ((λ r, i64 (reg_rax r)) <$> o)) (k, w).
Proof.
  intros Hn Hh. unfold syscall3, syscall_entry, served. rewrite bind_assoc. apply bind_ext_Done.
  intros f [k1 w1] He. apply enter_inv in He as ([Hrax _ _ _ _] & -> & Hk1 & [x Hx]). unfold syscall_handler.
  rewrite bind_assoc, (bind_Done _ _ _ _ _ (current_Done k1 w)), Hk1, (proj2 (Z.eqb_neq _ _) Hc), bind_assoc.
  apply bind_ext. intros _ s'. rewrite Hrax. assert (u32 (u64 num) = num) as -> by word_lia. by rewrite Hh.
Qed.

Lemma as_int_served num a1 a2 a3 m s : as_int (served num a1 a2 a3 m) s = served num a1 a2 a3 (λ f, as_int (m f)) s.
Proof. unfold as_int, served. rewrite bind_assoc. apply bind_ext. intros f s'. apply bind_assoc. Qed.

(** A handler that returns its result in RAX. *)
Lemma rax_result (m : M (kernel * W) Z) f regs s :
  (o ← (r' ← (a ← m; ret (f a) regs); mret (Some r')); mret ((λ r, i64 (reg_rax r)) <$> o)) s =
  (a ← m; mret (Some (i64 (f a)))) s.
Proof.
  rewrite !bind_assoc. apply bind_ext. intros a s'. unfold mbind, M_bind, ret, mret, M_ret. cbn. do 2 f_equal. word_lia.
Qed.

Lemma int_result (m : M (kernel * W) Z) regs s :
  as_int (o ← (r' ← (a ← m; ret a regs); mret (Some r')); mret ((λ r, i64 (reg_rax r)) <$> o)) s =
  (a ← m; mret (Some (i32 a))) s.
Proof.
  unfold as_int. rewrite !bind_assoc. apply bind_ext. intros a s'. unfold mbind, M_bind, ret, mret, M_ret. cbn. do 2 f_equal. word_lia.
Qed.

Lemma bind_same {A B} (m1 m2 : M (kernel * W) A) (f : A → M (kernel * W) B) s : m1 s = m2 s → (m1 ≫= f) s = (m2 ≫= f) s.
Proof. unfold mbind, M_bind. by intros ->. Qed.

Lemma int_reaches num a1 a2 a3 h : 0 <= num < 16 → syscall_table iret_stub !! Z.to_nat num = Some h →
  as_int (syscall3 num a1 a2 a3) (k, w) =
  served num a1 a2 a3 (λ frame, as_int (o ← h frame; mret ((λ r, i64 (reg_rax r)) <$> o))) (k, w).
Proof.
  intros Hn Hh. rewrite <- as_int_served. unfold as_int, mbind at 1, M_bind at 1. by rewrite (call_reaches num a1 a2 a3 h Hn Hh).
Qed.

(** An argument arrives as it was. *)
Lemma i32_arg a : - 2 ^ 31 <= a < 2 ^ 31 → i32 (u64 a) = a.
Proof. intros H. word_lia. Qed.
Lemma u32_arg a : u32 (u64 a) = u32 a.
Proof. word_lia. Qed.
Lemma long_arg a : u64 (i64 a) = u64 a.
Proof. word_lia. Qed.

(** Reach the handler of call [n]; the frame is [regs], and [k1] the kernel. *)
Ltac reach n :=
  unfold syscall0, syscall1, syscall2;
  rewrite (call_reaches n _ _ _ _ ltac:(lia) eq_refl); apply served_at;
  let regs := fresh "regs" in let k1 := fresh "k1" in intros regs k1 [Hrax Hrdi Hrsi Hrdx Hrsp] Hk1; cbv beta.

Ltac reach_int n :=
  unfold syscall0, syscall1, syscall2;
  rewrite (int_reaches n _ _ _ _ ltac:(lia) eq_refl); apply served_at;
  let regs := fresh "regs" in let k1 := fresh "k1" in intros regs k1 [Hrax Hrdi Hrsi Hrdx Hrsp] Hk1; cbv beta.

(** The handler's test for a current process. *)
Ltac caller_known :=
  rewrite !bind_assoc, (bind_Done _ _ (_, w) _ _ (current_Done _ w));
  match goal with H : current_process (k_sched ?k1) = _ |- _ => rewrite H end;
  rewrite (proj2 (Z.eqb_neq _ _) Hc), !bind_assoc.

Lemma write_reaches fd buf count : - 2 ^ 31 <= fd < 2 ^ 31 → 0 <= buf < 2 ^ 64 →
  write fd buf count (k, w) = served SYS_WRITE fd buf (i64 count) (λ _, if (buf =? 0) || (4096 <? u32 count) then refuse else
    r ← vfs_write fd buf (u32 count); mret (Some (i64 r))) (k, w).
Proof.
  intros Hfd Hbuf. unfold write, SYS_WRITE. reach 1. unfold sys_write. rewrite Hrdi, Hrsi, Hrdx.
  rewrite u32_i32, long_arg, u32_arg, i32_arg, u64_small by lia.
  destruct (buf =? 0); [done|]. destruct (4096 <? u32 count); [done|]. cbn [orb].
  apply (rax_result _ (λ r, r)).
Qed.

(** The same for a call whose result becomes an int. *)
Lemma read_reaches fd buf count : - 2 ^ 31 <= fd < 2 ^ 31 → 0 <= buf < 2 ^ 64 →
  read fd buf count (k, w) = served SYS_READ fd buf (i64 count) (λ _, if (buf =? 0) || (4096 <? u32 count) then refuse else
    r ← vfs_read fd buf (u32 count); mret (Some (i32 r))) (k, w).
Proof.
  intros Hfd Hbuf. unfold read, SYS_READ. reach_int 2. unfold sys_read. rewrite Hrdi, Hrsi, Hrdx.
  rewrite long_arg, u32_arg, i32_arg, u64_small by lia.
  destruct (buf =? 0); [done|]. destruct (4096 <? u32 count); [done|]. cbn [orb]. apply int_result.
Qed.

Lemma open_reaches path flags : 0 <= path < 2 ^ 64 →
  open path flags (k, w) = served SYS_OPEN path flags (reg_rdx user) (λ _, if path =? 0 then refuse else
    fd ← vfs_open path (u32 flags); mret (Some (i32 fd))) (k, w).
Proof.
  intros Hp. unfold open, SYS_OPEN. reach_int 8. unfold sys_open. rewrite Hrdi, Hrsi, u32_arg, u64_small by lia.
  destruct (path =? 0); [done|]. apply int_result.
Qed.

Lemma close_reaches fd : - 2 ^ 31 <= fd < 2 ^ 31 →
  close fd (k, w) = served SYS_CLOSE fd (reg_rsi user) (reg_rdx user) (λ _, r ← vfs_close fd; mret (Some (i32 r))) (k, w).
Proof.
  intros Hfd. unfold close, SYS_CLOSE. reach_int 9. unfold sys_close. rewrite Hrdi, i32_arg by lia. apply int_result.
Qed.

Lemma seek_reaches fd offset whence : - 2 ^ 31 <= fd < 2 ^ 31 → - 2 ^ 31 <= whence < 2 ^ 31 →
  seek fd offset whence (k, w) = served SYS_SEEK fd offset whence (λ _, r ← vfs_seek fd (u32 offset) whence; mret (Some (i32 r))) (k, w).
Proof.
  intros Hfd Hw. unfold seek, SYS_SEEK. reach_int 10. unfold sys_seek. rewrite Hrdi, Hrsi, Hrdx, u32_arg, !i32_arg by lia. apply int_result.
Qed.

Lemma getpid_reaches : getpid (k, w) = served SYS_GETPID (reg_rdi user) (reg_rsi user) (reg_rdx user) (λ _,
  pid ← in_kernel current_pid; mret (Some (i64 pid))) (k, w).
Proof. unfold getpid, SYS_GETPID. reach 3. apply (rax_result _ (λ r, r)). Qed.

Lemma yield_reaches : yield (k, w) = served SYS_YIELD (reg_rdi user) (reg_rsi user) (reg_rdx user) (λ _,
  in_kernel (in_sched scheduler_yield) ;; mret (Some SYS_YIELD)) (k, w).
Proof.
  unfold yield, SYS_YIELD. reach 4. unfold sys_yield. rewrite !bind_assoc. apply bind_ext. intros _ s.
  rewrite !bind_ret. unfold mret, M_ret. cbn. by rewrite Hrax.
Qed.

(** The frame sys_fork() saves is the caller's. *)
Lemma fork_reaches : fork (k, w) = served SYS_FORK (reg_rdi user) (reg_rsi user) (reg_rdx user) (λ frame,
  update_current (save_cpu frame) ;; child ← in_kernel (process_fork iret_stub); mret (Some (u32 child))) (k, w).
Proof.
  unfold fork, SYS_FORK. reach 5. unfold sys_fork. caller_known.
  apply bind_ext. intros _ s. rewrite !bind_assoc. apply bind_ext. intros child s'.
  unfold mbind, M_bind, ret, mret, M_ret. cbn. do 2 f_equal. word_lia.
Qed.

Lemma wait_reaches : wait (k, w) = served SYS_WAIT (reg_rdi user) (reg_rsi user) (reg_rdx user) (λ _,
  o ← in_kernel wait_pass; mret (i32 <$> o)) (k, w).
Proof.
  unfold wait, SYS_WAIT. reach_int 6. unfold as_int, sys_wait_pass. rewrite !bind_assoc.
  apply bind_ext. intros [v|] s'; [|done]. unfold mbind, M_bind, ret, mret, M_ret. cbn. do 2 f_equal. word_lia.
Qed.

Lemma exec_reaches path argv : 0 <= path < 2 ^ 64 → 0 <= argv < 2 ^ 64 →
  exec path argv (k, w) = served SYS_EXEC path argv (reg_rdx user) (λ _, if path =? 0 then refuse else
    o ← process_exec path argv; mret (match o with None => None | Some _ => Some (-1) end)) (k, w).
Proof.
  intros Hp Ha. unfold exec, SYS_EXEC. reach_int 7. unfold sys_exec. rewrite Hrdi, Hrsi, !u64_small by lia.
  destruct (path =? 0); [done|]. unfold as_int. rewrite !bind_assoc. by apply bind_ext; intros [|].
Qed.

Lemma exit_reaches status : - 2 ^ 31 <= status < 2 ^ 31 →
  exit status (k, w) = served SYS_EXIT status (reg_rsi user) (reg_rdx user) (λ _,
    in_kernel (in_sched (update (current_process (k_sched k)) (set_exit_code status))) ;;
    in_kernel (die (current_process (k_sched k))) ;; in_kernel (in_sched scheduler_yield) ;; mret None) (k, w).
Proof.
  intros Hst. unfold exit, SYS_EXIT, syscall1, syscall2.
  etrans; [apply bind_same, (call_reaches 0); [lia|reflexivity]|].
  match goal with |- (served ?n ?a ?b ?c ?m ≫= ?f) _ = _ => transitivity (served n a b c (λ r, m r ≫= f) (k, w)) end.
  { unfold served. rewrite bind_assoc. apply bind_ext. intros r s. apply bind_assoc. }
  apply served_at. intros regs k1 [Hrax Hrdi _ _ _] Hk1. cbv beta. unfold sys_exit. caller_known.
  rewrite Hrdi, i32_arg by lia. apply bind_ext. intros _ s. by rewrite !bind_assoc.
Qed.

(** The caller sleeps for [t] ticks; a void function leaves RAX alone. *)
Definition sleeps (t : Z) : M (kernel * W) (option Z) :=
  now ← in_kernel (in_sched timer_get_ticks);
  update_current (λ x, set_state PROCESS_SLEEPING (set_wake_at_tick (u32 (now + t)) x)) ;;
  in_kernel (in_sched scheduler_yield) ;; mret (Some SYS_SLEEP).

Lemma sleep_call ms : 0 <= ms < 2 ^ 64 →
  syscall1 SYS_SLEEP ms (k, w) = served SYS_SLEEP ms (reg_rsi user) (reg_rdx user) (λ _, sleeps (sleep_ticks ms)) (k, w).
Proof.
  intros Hms. unfold SYS_SLEEP. reach 15. unfold sys_sleep, sleeps. caller_known.
  rewrite Hrdi, u64_small by lia. apply bind_ext. intros now s. rewrite !bind_assoc.
  apply bind_ext. intros _ s'. rewrite !bind_assoc. apply bind_ext. intros _ s2. rewrite !bind_ret. unfold mret, M_ret. cbn. by rewrite Hrax.
Qed.

(** Milliseconds become ticks of 10 ms, rounded up, at least one. *)
Lemma sleep_ticks_round ms : 0 <= ms < 10 * 2 ^ 32 - 9 → sleep_ticks ms = Z.max 1 ((ms + 9) / 10).
Proof.
  intros Hms. unfold sleep_ticks, TIMER_FREQUENCY. rewrite (u64_small (ms * 100)), u64_small by lia.
  assert ((ms * 100 + 999) / 1000 = (ms + 9) / 10) as -> by (Z.div_mod_to_equations; lia).
  rewrite u32_small by (Z.div_mod_to_equations; lia). destruct (Z.eqb_spec ((ms + 9) / 10) 0); Z.div_mod_to_equations; lia.
Qed.

Lemma sleep_reaches seconds : 0 <= seconds < 2 ^ 32 / 100 →
  sleep seconds (k, w) = served SYS_SLEEP (seconds * 1000) (reg_rsi user) (reg_rdx user) (λ _, sleeps (Z.max 1 (100 * seconds))) (k, w).
Proof.
  intros Hs. change (2 ^ 32 / 100) with 42949672 in Hs. unfold sleep. rewrite sleep_call, sleep_ticks_round by lia.
  apply served_at. intros regs k1 _ _. cbv beta. f_equal. f_equal. Z.div_mod_to_equations. lia.
Qed.

Lemma usleep_reaches us : 0 <= us < 2 ^ 32 →
  usleep us (k, w) = served SYS_SLEEP (Z.max 1 (us / 1000)) (reg_rsi user) (reg_rdx user) (λ _, sleeps (Z.max 1 ((us / 1000 + 9) / 10))) (k, w).
Proof.
  intros Hus. unfold usleep. assert (0 <= us / 1000 <= us) by (Z.div_mod_to_equations; lia).
  rewrite sleep_call, sleep_ticks_round by (destruct (us / 1000 =? 0); lia).
  destruct (Z.eqb_spec (us / 1000) 0) as [->|]; [done|]. by rewrite (Z.max_r 1 (us / 1000)) by lia.
Qed.

(** C2. equivalence: the calls of the user library are the kernel's
    operations on the same arguments. Each call enters the kernel - through
    the stub, the registers and the entry code, which leaves the return address
    and the flags on the user's stack, the frame on the kernel stack of the
    process, with interrupt number 0 and the number of the call as its error
    code, and no other trace - notes where its caller stands, and then is
    exactly the operation named: descriptors and other ints survive the trip
    whatever their sign, counts lose their upper 32 bits, null pointers and
    counts above 4096 give -1 without a call, and the int the operation returns
    is what the program gets. Sleeping takes 100 ticks a second, and at least
    one. The one exception is fork(), whose result passes through a uint32_t
    and is never negative. *)
Theorem library_calls_kernel fd buf count path flags argv offset whence status seconds us :
  - 2 ^ 31 <= fd < 2 ^ 31 → 0 <= buf < 2 ^ 64 → 0 <= path < 2 ^ 64 → 0 <= argv < 2 ^ 64 → - 2 ^ 31 <= whence < 2 ^ 31 →
  - 2 ^ 31 <= status < 2 ^ 31 → 0 <= seconds < 2 ^ 32 / 100 → 0 <= us < 2 ^ 32 →
  let here num a1 a2 a3 f := served num a1 a2 a3 f (k, w) in
  let me := current_process (k_sched k) in let rdi := reg_rdi user in let rsi := reg_rsi user in let rdx := reg_rdx user in
  (∀ x root T num a1 a2 a3, procs (k_sched k) !! me = Some x → stacks (k_vm k) x root T (reg_rsp user) →
     0 <= reg_rip user < 2 ^ 64 → 0 <= reg_rflags user < 2 ^ 64 → enters (load_call num a1 a2 a3 user) x root T) ∧
  write fd buf count (k, w) = here SYS_WRITE fd buf (i64 count) (λ _, if (buf =? 0) || (4096 <? u32 count) then refuse else
    r ← vfs_write fd buf (u32 count); mret (Some (i64 r))) ∧
  read fd buf count (k, w) = here SYS_READ fd buf (i64 count) (λ _, if (buf =? 0) || (4096 <? u32 count) then refuse else
    r ← vfs_read fd buf (u32 count); mret (Some (i32 r))) ∧
  open path flags (k, w) = here SYS_OPEN path flags rdx (λ _, if path =? 0 then refuse else
    fd ← vfs_open path (u32 flags); mret (Some (i32 fd))) ∧
  close fd (k, w) = here SYS_CLOSE fd rsi rdx (λ _, r ← vfs_close fd; mret (Some (i32 r))) ∧
  seek fd offset whence (k, w) = here SYS_SEEK fd offset whence (λ _, r ← vfs_seek fd (u32 offset) whence; mret (Some (i32 r))) ∧
  exec path argv (k, w) = here SYS_EXEC path argv rdx (λ _, if path =? 0 then refuse else
    o ← process_exec path argv; mret (match o with None => None | Some _ => Some (-1) end)) ∧
  wait (k, w) = here SYS_WAIT rdi rsi rdx (λ _, o ← in_kernel wait_pass; mret (i32 <$> o)) ∧
  exit status (k, w) = here SYS_EXIT status rsi rdx (λ _, in_kernel (in_sched (update me (set_exit_code status))) ;;
    in_kernel (die me) ;; in_kernel (in_sched scheduler_yield) ;; mret None) ∧
  getpid (k, w) = here SYS_GETPID rdi rsi rdx (λ _, pid ← in_kernel current_pid; mret (Some (i64 pid))) ∧
  yield (k, w) = here SYS_YIELD rdi rsi rdx (λ _, in_kernel (in_sched scheduler_yield) ;; mret (Some SYS_YIELD)) ∧
  sleep seconds (k, w) = here SYS_SLEEP (seconds * 1000) rsi rdx (λ _, sleeps (Z.max 1 (100 * seconds))) ∧
  usleep us (k, w) = here SYS_SLEEP (Z.max 1 (us / 1000)) rsi rdx (λ _, sleeps (Z.max 1 ((us / 1000 + 9) / 10))) ∧
  fork (k, w) = here SYS_FORK rdi rsi rdx (λ frame, update_current (save_cpu frame) ;;
    child ← in_kernel (process_fork iret_stub); mret (Some (u32 child))).
Proof.
  intros. split_and!;
    [intros x root T num a1 a2 a3 Hx Hst Hrip Hfl; by apply entry_spec
    |by apply write_reaches|by apply read_reaches|by apply open_reaches|by apply close_reaches|by apply seek_reaches|by apply exec_reaches
    |apply wait_reaches|by apply exit_reaches|apply getpid_reaches|apply yield_reaches|by apply sleep_reaches|by apply usleep_reaches|apply fork_reaches].
Qed.

(** A fork() that fails is not seen to: process_fork() returns -1, the program
    gets 2^32 - 1. *)
Lemma fork_never_negative v s : fork (k, w) = Done (Some v) s → 0 <= v < 2 ^ 32.
Proof.
  rewrite fork_reaches. unfold served. intros H. do 4 bind_inv H.
  injection H as <- _. apply u32_range.
Qed.

End Calls.

End Unistd.

(** 10.999 ms become one tick of 10 ms: usleep() rounds down before it rounds up. *)
Lemma usleep_short : Z.max 1 ((10999 / 1000 + 9) / 10) = 1 ∧ 10 * 1000 < 10999.
Proof. done. Qed.

(** A file system whose files take everything and hold nothing. *)
#[local] Instance sink_vfs : Vfs unit := {
  vfs_open _ _ := mret (-1); vfs_close _ := mret 0; vfs_read _ _ _ := mret 0; vfs_write _ _ count := mret count;
  vfs_seek _ _ _ := mret (-1); vfs_mkdir _ := mret (-1); vfs_readdir _ _ := mret 0; vfs_delete _ := mret (-1);
  vfs_size _ := mret None }.
#[local] Instance sink_loader : ElfLoader unit := λ _ _ _, mret 0.

(** A program with its stack in the page at 0x400000, whose frame is at 0x2000,
    and a kernel stack in the frame 0. *)
Definition demo_mapped : vm :=
  match map_page_in (physical_to_virtual 0x3000) 0x400000 0x2000 7 demo_vm with
  | Done _ v => Vm (mem v) (frames v) (kernel_pml4 v) 0x3000
  | _ => demo_vm
  end.

Lemma demo_mapped_runs :
  match map_page_in (physical_to_virtual 0x3000) 0x400000 0x2000 7 demo_vm with Done _ _ => true | _ => false end = true.
Proof. vm_compute. reflexivity. Qed.

Lemma demo_mapped_space : ∃ T, space_wf demo_mapped 0x3000 T ∧ cr3 demo_mapped = 0x3000 ∧
  (∀ i, 0 <= i < 4096 → translation demo_mapped T (0x400000 + i) = 0x2000 + i) ∧
  ∀ q t, T !! q = Some t → t / 4096 ≠ 0 ∧ t / 4096 ≠ 2.
Proof.
  pose proof demo_mapped_runs as Hr.
  destruct (map_page_in_spec demo_vm 0x3000 _ 0x400000 0x2000 7 (demo_wf 0x3000 (or_intror eq_refl)))
    as [[msg H]|(s & T & H & Hwf & _ & Htr & _ & _ & _ & Hnew & _)]; [unfold user_addr; by_compute|by_compute|rewrite H in Hr; discriminate Hr|].
  exists T. assert (E : demo_mapped = Vm (mem s) (frames s) (kernel_pml4 s) 0x3000) by (unfold demo_mapped; rewrite H; reflexivity).
  destruct (space_frame _ demo_mapped 0x3000 T Hwf) as [Hwf3 Htr3]; [by rewrite E..|].
  split; [exact Hwf3|]. split; [by rewrite E|]. split.
  - intros i Hi. rewrite Htr3, Htr by (unfold user_addr; lia).
    rewrite <- (Z.div_unique (0x400000 + i) 4096 0x400 i) by lia.
    cbn [Z.eqb]. unfold mapped_to. rewrite <- (Z.mod_unique (0x400000 + i) 4096 0x400 i) by lia. reflexivity.
  - intros q t Hq. destruct (Hnew _ _ Hq) as [Hin|Hun].
    + apply lookup_singleton_Some in Hin as [_ <-]. by split.
    + split; intros E2; rewrite E2 in Hun; vm_compute in Hun; discriminate Hun.
Qed.

Definition demo_process : process_t := set_stack_top (PHYSICAL_MAP_BASE + 0xFF8) (demo_proc 1 200 PROCESS_RUNNING).
Definition demo_caller : registers_t :=
  Regs 0x23 0 0 0 0 0 0 0 0 0 7 8 9 0 0 0 0 0 0x400010 0x2B 0x202 0x400F00 0x23.
Definition demo_inside : kernel := Kernel (with_procs <[100 := demo_process]> (k_sched demo_family)) demo_mapped fresh_heap.

Lemma demo_stacks v T : space_wf v 0x3000 T → cr3 v = 0x3000 → (∀ i, 0 <= i < 4096 → translation v T (0x400000 + i) = 0x2000 + i) →
  (∀ q t, T !! q = Some t → t / 4096 ≠ 0 ∧ t / 4096 ≠ 2) → stacks v demo_process 0x3000 T (reg_rsp demo_caller).
Proof.
  intros Hwf Hr Ht Hoff.
  assert (Hat : ∀ i, 0 <= i < 16 → translation v T (reg_rsp demo_caller - 16 + i) = 0x2EF0 + i).
  { intros i Hi. change (reg_rsp demo_caller - 16) with (0x400000 + 0xEF0). rewrite <- Z.add_assoc, Ht by lia. lia. }
  change (reg_rsp demo_caller) with 0x400F00 in *. change (p_stack_top demo_process) with (PHYSICAL_MAP_BASE + 0xFF8) in *.
  split.
  - split; [done..|]. intros i Hi. rewrite Hat by done. unfold user_addr. lia.
  - split.
    + intros i q t Hi Hq. rewrite Hat by done. destruct (Hoff q t Hq) as [_ H2]. rewrite <- (Z.div_unique (0x2EF0 + i) 4096 2 (0xEF0 + i)) by lia. auto.
    + intros i j Hi Hj. rewrite !Hat by done. lia.
  - unfold PHYSICAL_MAP_BASE. change (p_stack_top demo_process) with 0xFFFF800000000FF8. lia.
  - intros a q t Ha Hq. change (p_stack_top demo_process) with (PHYSICAL_MAP_BASE + 0xFF8) in Ha. destruct (Hoff q t Hq) as [H0 _].
    rewrite Z.div_small by lia. auto.
  - intros i Hi. change (p_stack_top demo_process) with (PHYSICAL_MAP_BASE + 0xFF8). rewrite Hat by done. lia.
Qed.

Definition gives (v : Z) (o : outcome (kernel * unit) (option Z)) : bool :=
  match o with Done (Some r) _ => r =? v | _ => false end.

Lemma gives_Done v o : gives v o = true → ∃ s, o = Done (Some v) s.
Proof. destruct o as [[r|] s| | |]; try done. cbn. intros ->%Z.eqb_eq. by exists s. Qed.

(** write(1, 0x5000, 12) gives 12, close(-3) gives 0, and a path that is null
    -1; the entry leaves its frame. *)
Lemma library_calls_kernel_witness :
  (∃ s, write 0 demo_caller 1 0x5000 12 (demo_inside, tt) = Done (Some 12) s) ∧
  (∃ s, close 0 demo_caller (-3) (demo_inside, tt) = Done (Some 0) s) ∧
  (∃ s, open 0 demo_caller 0 0 (demo_inside, tt) = Done (Some (-1)) s) ∧
  ∃ T, enters demo_inside tt (load_call 1 1 0x5000 12 demo_caller) demo_process 0x3000 T.
Proof.
  assert (Hx : procs (k_sched demo_inside) !! current_process (k_sched demo_inside) = Some demo_process) by (vm_compute; reflexivity).
  destruct demo_mapped_space as (T & Hwf & Hcr & Ht & Hoff).
  destruct (library_calls_kernel (W := unit) 0 demo_caller demo_inside tt ltac:(done) (mk_is_Some _ _ Hx) 1 0x5000 12 0 0 0 0 0 0 0 0
    ltac:(lia) ltac:(lia) ltac:(lia) ltac:(lia) ltac:(lia) ltac:(lia) ltac:(by_compute) ltac:(lia)) as (He & Hw & _ & Ho & _).
  destruct (library_calls_kernel (W := unit) 0 demo_caller demo_inside tt ltac:(done) (mk_is_Some _ _ Hx) (-3) 0x5000 12 0 0 0 0 0 0 0 0
    ltac:(lia) ltac:(lia) ltac:(lia) ltac:(lia) ltac:(lia) ltac:(lia) ltac:(by_compute) ltac:(lia)) as (_ & _ & _ & _ & Hc & _).
  split; [|split; [|split]].
  - rewrite Hw. apply gives_Done. vm_compute. reflexivity.
  - rewrite Hc. apply gives_Done. vm_compute. reflexivity.
  - rewrite Ho. apply gives_Done. vm_compute. reflexivity.
  - exists T. apply (He demo_process 0x3000 T 1 1 0x5000 12 Hx); [by apply demo_stacks|by_compute|by_compute].
Defined.
