(* ===== verification/Reports.v ===== *)
(** What the kernel says before it stops, and about its processes: the
    exception reports of kernel/architecture/x86_64/idt.c and paging.c, the
    message of kpanic() (kernel/core/panic.c), and process_print_all()
    (kernel/processes/process.c).

    A function that ends in for(;;) is given up to there: the state it returns
    is the one the machine halts in. The copy on the serial line is left out. *)

From S2P Require Import Prelude CString Kprintf Phys Sched Vga Descriptors Process Syscall.

Section Reports.
(** The uninitialised buffer of kprintf(). *)
Context (junk : list Z).

Definition vga_kprintf (fmt : list Z) (args : list arg) : M vga unit :=
  text ← (λ s, match kprintf junk (fmt ++ [0]) args with
               | Done text _ => Done text s | Panic msg => Panic msg | Fault => Fault | Diverge => Diverge end);
  vga_print text.

(** * Exceptions *)

(** [faulting_address] is CR2. *)
Definition page_fault_handler (regs : registers_t) (faulting_address : Z) : M vga unit :=
  let present := Z.land (reg_err_code regs) 1 in
  let write := Z.land (Z.shiftr (reg_err_code regs) 1) 1 in
  let user := Z.land (Z.shiftr (reg_err_code regs) 2) 1 in
  vga_set_colour RED BLACK ;;
  vga_kprintf ([10] ++ cs "--- PAGE FAULT ---" ++ [10]) [] ;;
  vga_set_colour WHITE BLACK ;;
  vga_kprintf (cs "Address : 0x%lx" ++ [10]) [AInt faulting_address] ;;
  vga_kprintf (cs "Reason  : %s %s %s" ++ [10])
    [AStr (Some (if negb (present =? 0) then cs "protection violation" else cs "page not present"));
     AStr (Some (if negb (write =? 0) then cs "on write" else cs "on read"));
     AStr (Some (if negb (user =? 0) then cs "from user space" else cs "from kernel"))].

Definition exceptions : list (list Z) := [cs "Divide By Zero"; cs "Debug"; cs "Non-Maskable Interrupt"; cs "Breakpoint"].

Definition isr_handler (regs : registers_t) (cr2 : Z) : M vga unit :=
  if reg_int_no regs =? 14 then page_fault_handler regs cr2
  else if reg_int_no regs =? 8 then
    vga_set_colour RED BLACK ;;
    vga_kprintf ([10] ++ cs "CPU Exception: Double Fault" ++ [10]) [] ;;
    vga_kprintf (cs "EIP=0x%lx ESP=0%lx" ++ [10]) [AInt (reg_rip regs); AInt (reg_rsp regs)]
  else if reg_int_no regs =? 13 then
    vga_set_colour RED BLACK ;;
    vga_kprintf ([10] ++ cs "CPU Exception: General Protection Fault" ++ [10]) [] ;;
    vga_kprintf (cs "EIP=0x%lx ESP=0%lx" ++ [10]) [AInt (reg_rip regs); AInt (reg_rsp regs)]
  else
    vga_set_colour RED BLACK ;;
    name ← access (exceptions !! Z.to_nat (reg_int_no regs));
    vga_kprintf ([10] ++ cs "CPU EXCEPTION: %s" ++ [10]) [AStr (Some name)] ;;
    vga_kprintf (cs "EIP=0x%x ESP=0x%x" ++ [10]) [AInt (reg_rip regs); AInt (reg_rsp regs)].

(** * kpanic(): the second kprintf() has its argument in the string. *)
Definition kpanic_report : M vga unit :=
  vga_set_colour WHITE RED ;;
  vga_kprintf ([10; 10] ++ cs "*** KERNEL PANIC ***" ++ [10]) [] ;;
  vga_kprintf (cs "%s" ++ [10] ++ cs ", msg") [] ;;
  vga_kprintf ([10] ++ cs "System halted.") [].

(** * process_print_all() *)

Definition state_name (p : process_state_t) : list Z :=
  match p with
  | PROCESS_READY => cs "READY  "
  | PROCESS_RUNNING => cs "RUNNING"
  | PROCESS_BLOCKED => cs "BLOCKED"
  | PROCESS_DEAD => cs "DEAD   "
  | PROCESS_SLEEPING => cs "SLEEP  "
  end.

Definition on_vga {A} (m : M vga A) : M (sched * vga) A := zoom snd (λ v s, (s.1, v)) m.
Definition on_table {A} (m : M sched A) : M (sched * vga) A := zoom fst (λ t s, (t, s.2)) m.

Fixpoint print_slots (t : list Z) : M (sched * vga) unit :=
  match t with
  | [] => mret tt
  | proc :: t =>
      (if proc =? 0 then mret tt
       else
         x ← on_table (deref proc);
         on_vga (vga_kprintf (cs "%d    %s  %s" ++ [10]) [AInt (p_pid x); AStr (Some (state_name (p_state x))); AStr (Some (p_name x))])) ;;
      print_slots t
  end.

Definition process_print_all : M (sched * vga) unit :=
  on_vga (vga_set_colour CYAN BLACK) ;;
  on_vga (vga_kprintf ([10] ++ cs "PID STATE    NAME" ++ [10]) []) ;;
  on_vga (vga_kprintf (cs "--- -------  ----" ++ [10]) []) ;;
  on_vga (vga_set_colour WHITE BLACK) ;;
  t ← on_table (gets process_table);
  print_slots t.

End Reports.

(** * The reports are on the screen *)

(** A number as kprintf() shows it with %lx, and with %x. *)
Definition hex64 (n : Z) : list Z := default [] (uint64_to_hex (u64 n)).
Definition hex32 (n : Z) : list Z := default [] (uint_to_hex (u32 n)).

(** Text that can be printed: no NUL. *)
Definition printable (text : list Z) : Prop := Forall (λ c, c ≠ 0) text.

Lemma hex_digits_printable ds : Forall (λ d, d ∈ hex_digits) ds → printable ds.
Proof.
  intros Ha. eapply list.Forall_impl; [exact Ha|]. intros c Hc%list_elem_of_In.
  assert (F : forallb (λ c, negb (c =? 0)) hex_digits = true) by done. rewrite forallb_forall in F. specialize (F c Hc). lia.
Qed.

Lemma hex_text n : (length (hex64 n) = 16%nat ∧ printable (hex64 n)) ∧ length (hex32 n) = 8%nat ∧ printable (hex32 n).
Proof.
  unfold hex64, hex32, uint64_to_hex, uint_to_hex. pose proof (u64_range n). pose proof (u32_range n).
  destruct (hex_loop_spec 16 (u64 n) []) as (d1 & -> & H1 & _ & A1); [lia|].
  destruct (hex_loop_spec 8 (u32 n) []) as (d2 & -> & H2 & _ & A2); [lia|]. rewrite !app_nil_r. simpl.
  split_and!; auto using hex_digits_printable.
Qed.

(** The digits of an address are its value. *)
Lemma hex64_value n : 0 <= n < 2 ^ 64 → digits_val 16 (hex64 n) = n.
Proof. intros Hn. unfold hex64. rewrite u64_small by done. by destruct (uint64_to_hex_spec n Hn) as (ds & -> & H & _). Qed.

(** The attribute byte of white or red text. *)
Definition type_all (l : list (Z * list Z)) (p : paper) : paper := foldl (λ p m, type_text m.1 m.2 p) p l.

(** What an exception with the saved registers [regs] says. *)
Definition report (regs : registers_t) (cr2 : Z) : list (Z * list Z) :=
  let place := cs "EIP=0x" ++ hex64 (reg_rip regs) ++ cs " ESP=0" ++ hex64 (reg_rsp regs) ++ [10] in
  let bit n := Z.testbit (reg_err_code regs) n in
  if reg_int_no regs =? 14 then
    [(RED, [10] ++ cs "--- PAGE FAULT ---" ++ [10]);
     (WHITE, cs "Address : 0x" ++ hex64 cr2 ++ [10]);
     (WHITE, cs "Reason  : " ++ (if bit 0 then cs "protection violation" else cs "page not present") ++ [32] ++
       (if bit 1 then cs "on write" else cs "on read") ++ [32] ++ (if bit 2 then cs "from user space" else cs "from kernel") ++ [10])]
  else if reg_int_no regs =? 8 then [(RED, [10] ++ cs "CPU Exception: Double Fault" ++ [10]); (RED, place)]
  else if reg_int_no regs =? 13 then [(RED, [10] ++ cs "CPU Exception: General Protection Fault" ++ [10]); (RED, place)]
  else
    [(RED, [10] ++ cs "CPU EXCEPTION: " ++ default [] (exceptions !! Z.to_nat (reg_int_no regs)) ++ [10]);
     (RED, cs "EIP=0x" ++ hex32 (reg_rip regs) ++ cs " ESP=0x" ++ hex32 (reg_rsp regs) ++ [10])].

(** The three bits of the error code, as the handler takes them. *)
Lemma bit_test e n : 0 <= n → negb (Z.land (Z.shiftr e n) 1 =? 0) = Z.testbit e n.
Proof.
  intros Hn. change 1 with (Z.ones 1). rewrite Z.land_ones, Z.shiftr_div_pow2 by lia.
  rewrite Z.testbit_eqb by lia. change (2 ^ 1) with 2. pose proof (Z.mod_pos_bound (e / 2 ^ n) 2 ltac:(lia)).
  destruct (Z.eqb_spec ((e / 2 ^ n) mod 2) 0), (Z.eqb_spec ((e / 2 ^ n) mod 2) 1); simpl; lia.
Qed.

Section Shown.
Context (junk : list Z) (Hjunk : length junk = 1024%nat).

(** The screen shows the paper, in the colour [attr]. *)
Definition showing (v : vga) (p : paper) (attr : Z) : Prop := shows v p ∧ paper_ok p ∧ colour v = attr.

Lemma vga_kprintf_shows fmt args out v p attr :
  Forall (λ c, 0 < c < 256) fmt → Forall arg_ok args → render fmt args = Some out → printable out → (length out <= 1023)%nat →
  showing v p attr → returns (vga_kprintf junk fmt args) v (λ _ v', showing v' (type_text attr out p) attr).
Proof.
  intros Hf Ha Hr Hn Hl (Hs & Hok & Hc). destruct (kprintf_shows junk fmt args out Hjunk Hf Ha Hr ltac:(unfold countable, INT_MAX; lia) Hn) as [Hp _].
  rewrite take_ge in Hp by done. destruct (vga_print_shows out v p Hok Hs) as (v' & Hv & Hs' & Hok' & Hc').
  eapply returns_done; [|subst attr; by split_and!]. unfold vga_kprintf. rewrite (bind_Done _ _ v out v) by (by rewrite Hp). exact Hv.
Qed.

Lemma recolour v p attr c : showing v p attr → showing (Vga (cells v) (cursor_x v) (cursor_y v) c) p c.
Proof. intros ([] & Hok & _). by split_and!. Qed.

Lemma set_colour_shows {B} fg bg (m : unit → M vga B) v p attr Q :
  showing v p attr →
  (∀ v', showing v' p (u8 (Z.lor (Z.shiftl bg 4) fg)) → returns (m tt) v' Q) → returns (vga_set_colour fg bg ≫= m) v Q.
Proof. intros ([] & Hok & _) Hm. eapply returns_step; [reflexivity|]. apply Hm. by split_and!. Qed.

(** A closed fact by evaluation. *)
Ltac closed := apply (bool_decide_unpack _); vm_compute; exact I.

(** The text [out] of a call of kprintf() from [H], whose conversions are described by the hypotheses. *)
Ltac says out H :=
  eapply (vga_kprintf_shows _ _ out);
  [closed
  |repeat (apply list.Forall_cons; split; [first [exact I|closed]|]); constructor
  |reflexivity
  |unfold printable; repeat (apply Forall_app; split); first [assumption|closed]
  |rewrite ?length_app; repeat match goal with E : length _ = _ |- _ => rewrite E; clear E end; simpl; lia
  |exact H].

Lemma page_fault_report regs cr2 v p attr : reg_int_no regs = 14 → showing v p attr →
  returns (page_fault_handler junk regs cr2) v (λ _ v', showing v' (type_all (report regs cr2) p) WHITE).
Proof.
  intros Hn H0. destruct (hex_text cr2) as [[Hl Hp] _]. unfold page_fault_handler, report. rewrite Hn. cbn [Z.eqb Pos.eqb type_all foldl fst snd].
  eapply set_colour_shows; [exact H0|]. intros v1 H1.
  eapply returns_bind; [says ([10] ++ cs "--- PAGE FAULT ---" ++ [10]) H1|]. intros [] v2 H2.
  eapply set_colour_shows; [exact H2|]. intros v3 H3.
  eapply returns_bind; [says (cs "Address : 0x" ++ hex64 cr2 ++ [10]) H3|]. intros [] v4 H4.
  change (Z.land (reg_err_code regs) 1) with (Z.land (Z.shiftr (reg_err_code regs) 0) 1). rewrite !bit_test by lia.
  destruct (Z.testbit _ 0), (Z.testbit _ 1), (Z.testbit _ 2).
  all: match goal with |- context [type_text _ (cs "Reason  : " ++ ?o) _] => says (cs "Reason  : " ++ o) H4 end.
Qed.

(** The registers of the other exceptions, with 64 bits and with 32. *)
Lemma place_long regs v p : showing v p RED →
  returns (vga_kprintf junk (cs "EIP=0x%lx ESP=0%lx" ++ [10]) [AInt (reg_rip regs); AInt (reg_rsp regs)]) v (λ _ v',
    showing v' (type_text RED (cs "EIP=0x" ++ hex64 (reg_rip regs) ++ cs " ESP=0" ++ hex64 (reg_rsp regs) ++ [10]) p) RED).
Proof.
  intros H0. destruct (hex_text (reg_rip regs)) as [[L1 P1] _], (hex_text (reg_rsp regs)) as [[L3 P3] _].
  match goal with |- context [type_text _ ?o _] => says o H0 end.
Qed.

Lemma place_short regs v p : showing v p RED →
  returns (vga_kprintf junk (cs "EIP=0x%x ESP=0x%x" ++ [10]) [AInt (reg_rip regs); AInt (reg_rsp regs)]) v (λ _ v',
    showing v' (type_text RED (cs "EIP=0x" ++ hex32 (reg_rip regs) ++ cs " ESP=0x" ++ hex32 (reg_rsp regs) ++ [10]) p) RED).
Proof.
  intros H0. destruct (hex_text (reg_rip regs)) as [_ [L1 P1]], (hex_text (reg_rsp regs)) as [_ [L3 P3]].
  match goal with |- context [type_text _ ?o _] => says o H0 end.
Qed.

(** Every exception with a gate has its report: the screen shows what
    happened and the saved RIP and RSP (or the faulting address) in
    hexadecimal, and nothing is read or written out of bounds. *)
Lemma exceptions_reported regs cr2 v p attr : reg_int_no regs ∈ [0; 1; 2; 3; 8; 13; 14] → showing v p attr →
  returns (isr_handler junk regs cr2) v (λ _ v', ∃ attr, showing v' (type_all (report regs cr2) p) attr).
Proof.
  intros Hn H0. unfold isr_handler. destruct (Z.eqb_spec (reg_int_no regs) 14) as [E|N14].
  { destruct (page_fault_report regs cr2 v p attr E H0) as (a & v' & H & Hs). exists a, v'. eauto. }
  unfold report. rewrite (proj2 (Z.eqb_neq _ 14) N14). destruct (Z.eqb_spec (reg_int_no regs) 8) as [E8|N8];
    [|destruct (Z.eqb_spec (reg_int_no regs) 13) as [E13|N13]].
  - eapply set_colour_shows; [exact H0|]. intros v1 H1.
    eapply returns_bind; [says ([10] ++ cs "CPU Exception: Double Fault" ++ [10]) H1|]. intros [] v2 H2.
    destruct (place_long regs v2 _ H2) as (a & v3 & H3 & S3). exists a, v3. eauto.
  - eapply set_colour_shows; [exact H0|]. intros v1 H1.
    eapply returns_bind; [says ([10] ++ cs "CPU Exception: General Protection Fault" ++ [10]) H1|]. intros [] v2 H2.
    destruct (place_long regs v2 _ H2) as (a & v3 & H3 & S3). exists a, v3. eauto.
  - eapply set_colour_shows; [exact H0|]. intros v1 H1.
    assert (∃ name, exceptions !! Z.to_nat (reg_int_no regs) = Some name ∧ name ∈ exceptions) as (name & E & Hin).
    { repeat (apply elem_of_cons in Hn as [Hn|Hn]; [rewrite Hn in *; first [done | eexists; split; [reflexivity|set_solver]]|]). by apply not_elem_of_nil in Hn. }
    rewrite E. eapply returns_step; [reflexivity|]. cbv beta. cbn [default].
    assert (returns (vga_kprintf junk ([10] ++ cs "CPU EXCEPTION: %s" ++ [10]) [AStr (Some name)]) v1 (λ _ v2,
      showing v2 (type_text RED ([10] ++ cs "CPU EXCEPTION: " ++ name ++ [10]) p) RED)) as HR.
    { unfold exceptions in Hin. rewrite !elem_of_cons in Hin. destruct Hin as [-> |[-> |[-> |[-> |Hin]]]];
        [match goal with |- context [type_text _ ?o _] => says o H1 end..|by apply not_elem_of_nil in Hin]. }
    eapply returns_bind; [exact HR|]. intros [] v2 H2. destruct (place_short regs v2 _ H2) as (a & v3 & H3 & S3). exists a, v3. eauto.
Qed.

(** ** The table of the processes *)

Lemma dec_text n : - 2 ^ 63 < n < 2 ^ 63 → (length (dec_of n) <= 21)%nat ∧ printable (dec_of n).
Proof.
  intros Hn. destruct (uint64_to_dec_spec (Z.abs n)) as (ds & Hd & (_ & Hdec & _) & Hl); [lia|].
  unfold dec_of. rewrite Hd. cbn [default]. assert (printable ds).
  { eapply list.Forall_impl; [exact Hdec|]. unfold is_dec. simpl. lia. }
  destruct (n <? 0); simpl; split; [lia|by constructor|lia|done].
Qed.

(** A process whose line can be printed: the name as a char[32] holds it, and
    an id whose low half is not the least int, which %d cannot print. *)
Record printable_process (x : process_t) : Prop := {
  pp_bytes : Forall is_byte (p_name x);
  pp_printable : printable (p_name x);
  pp_length : (length (p_name x) <= 31)%nat;
  pp_pid : i32 (p_pid x) ≠ INT_MIN }.

Definition process_line (x : process_t) : list Z :=
  dec_of (i32 (p_pid x)) ++ cs "    " ++ state_name (p_state x) ++ cs "  " ++ p_name x ++ [10].

Lemma process_line_shows x v p : printable_process x → showing v p WHITE →
  returns (vga_kprintf junk (cs "%d    %s  %s" ++ [10]) [AInt (p_pid x); AStr (Some (state_name (p_state x))); AStr (Some (p_name x))]) v
    (λ _ v', showing v' (type_text WHITE (process_line x) p) WHITE).
Proof.
  intros [Hb Hp Hl Hid] H0. pose proof (i32_range (p_pid x)). destruct (dec_text (i32 (p_pid x))) as [Hdl Hdp]; [lia|].
  assert (Forall is_byte (state_name (p_state x)) ∧ printable (state_name (p_state x)) ∧ length (state_name (p_state x)) = 7%nat) as (Sb & Sp & Sl).
  { destruct (p_state x); split_and!; try done; closed. }
  assert (Hlen : (length (process_line x) <= 1023)%nat).
  { unfold process_line. rewrite !length_app, Sl. simpl. lia. }
  assert (Hprint : printable (process_line x)).
  { unfold process_line. revert Hdp. generalize (dec_of (i32 (p_pid x))). intros d Hd.
    unfold printable in *. rewrite !Forall_app. split_and!; first [assumption|closed]. }
  eapply (vga_kprintf_shows _ _ (process_line x)); [closed| | |exact Hprint|exact Hlen|exact H0].
  { by repeat constructor. }
  assert (Hd : render_directive false 100 [AInt (p_pid x); AStr (Some (state_name (p_state x))); AStr (Some (p_name x))] =
    Some (dec_of (i32 (p_pid x)), [AStr (Some (state_name (p_state x))); AStr (Some (p_name x))])).
  { unfold render_directive. simpl. by rewrite (proj2 (Z.eqb_neq _ _) Hid). }
  match type of Hd with render_directive _ _ ?l = _ =>
    change (('(ds, args) ← render_directive false 100 l; out ← render (cs "    %s  %s" ++ [10]) args; Some (ds ++ out)) = Some (process_line x)) end.
  by rewrite Hd.
Qed.

(** The processes of the table, in order. *)
Definition listed (s : sched) (xs : list process_t) : Prop :=
  Forall2 (λ p x, procs s !! p = Some x ∧ printable_process x) (filter (λ p, p ≠ 0) (process_table s)) xs.

Lemma print_slots_shows s t : ∀ xs v p,
  Forall2 (λ p x, procs s !! p = Some x ∧ printable_process x) (filter (λ p, p ≠ 0) t) xs → showing v p WHITE →
  returns (print_slots junk t) (s, v) (λ _ sv, sv.1 = s ∧ showing sv.2 (foldl (λ p x, type_text WHITE (process_line x) p) p xs) WHITE).
Proof.
  induction t as [|q t IH]; intros xs v p Hxs H0.
  { inversion Hxs; subst. by eapply returns_done. }
  cbn [print_slots]. rewrite filter_cons in Hxs. destruct (Z.eqb_spec q 0) as [->|Hq].
  { rewrite decide_False in Hxs by auto. eapply returns_step; [reflexivity|]. by apply IH. }
  rewrite decide_True in Hxs by done. inversion Hxs as [|? x ? xs' [Hx Hn] Hrest]; subst.
  destruct (process_line_shows x v p Hn H0) as ([] & v1 & H1 & S1). unfold returns.
  rewrite bind_assoc. erewrite bind_Done by (apply (zoom_Done fst _ (deref q) (s, v)); simpl; unfold deref, access; run; by rewrite Hx).
  erewrite bind_Done by (apply (zoom_Done snd); exact H1). by apply (IH xs' v1).
Qed.

Lemma on_vga_step {B} (m : M vga unit) (f : unit → M (sched * vga) B) s v Q R :
  returns m v Q → (∀ v', Q tt v' → returns (f tt) (s, v') R) → returns (on_vga m ≫= f) (s, v) R.
Proof.
  intros ([] & v' & H & HQ) Hf. eapply returns_step; [apply (zoom_Done snd); exact H|]. by apply Hf.
Qed.

(** process_print_all() shows the heading and a line for each process of the
    table. *)
Lemma process_print_all_shows s xs v p attr : listed s xs → showing v p attr →
  returns (process_print_all junk) (s, v) (λ _ sv, sv.1 = s ∧
    showing sv.2 (foldl (λ p x, type_text WHITE (process_line x) p)
      (type_all [(CYAN, [10] ++ cs "PID STATE    NAME" ++ [10]); (CYAN, cs "--- -------  ----" ++ [10])] p) xs) WHITE).
Proof.
  intros Hxs H0. unfold process_print_all.
  eapply returns_step; [by apply (zoom_Done snd)|]. cbn [fst snd].
  match goal with |- returns _ (s, ?x) _ => assert (H1 : showing x p CYAN) by exact (recolour v p attr CYAN H0); clear H0; revert H1; generalize x; intros v1 H1 end.
  eapply on_vga_step; [says ([10] ++ cs "PID STATE    NAME" ++ [10]) H1|]. intros v2 H2.
  eapply on_vga_step; [says (cs "--- -------  ----" ++ [10]) H2|]. intros v3 H3.
  eapply returns_step; [by apply (zoom_Done snd)|]. eapply returns_step; [reflexivity|]. cbv beta. cbn [fst snd].
  eapply print_slots_shows; [exact Hxs|]. exact (recolour v3 _ CYAN WHITE H3).
Qed.

(** The second line of a panic reads an argument that is not passed. *)
Lemma kpanic_report_faults v p attr : showing v p attr → kpanic_report junk v = Fault.
Proof.
  intros H0. unfold kpanic_report. erewrite bind_Done by reflexivity.
  assert (∃ v2, vga_kprintf junk ([10; 10] ++ cs "*** KERNEL PANIC ***" ++ [10]) [] (Vga (cells v) (cursor_x v) (cursor_y v) (u8 (Z.lor (Z.shiftl RED 4) WHITE))) = Done tt v2) as [v2 E].
  { edestruct (vga_kprintf_shows ([10; 10] ++ cs "*** KERNEL PANIC ***" ++ [10]) [] ([10; 10] ++ cs "*** KERNEL PANIC ***" ++ [10])) as ([] & v2 & H & _);
      [closed|constructor|reflexivity|closed|simpl; lia|exact (recolour v p attr _ H0)|]. by exists v2. }
  rewrite (bind_Done _ _ _ _ _ E). reflexivity.
Qed.
End Shown.
