(* ===== verification/UserFiles.v ===== *)
(** A program and its files: write() and read() of the user library
    (libc/src/syscall.c), all the way down.

    The stub of Unistd, the dispatch of Syscall, the virtual file system of
    Vfs, the operations of shadowFS and the page tables of the caller, put
    together: the bytes come from, and go to, the memory that the caller's
    address space maps at its buffer. Each call also leaves its traces on the
    two stacks of the caller. *)

From S2P Require Import Prelude CString Rtc Pmm Heap Phys Paging Space UserMemory Sched Process Syscall.
From S2P Require Import Objects Vfs Shadowfs ShadowfsFiles Devfs Procfs Boot Serve Unistd.

Lemma content_bytes m bs : Forall is_byte (content m bs).
Proof.
  induction bs as [|[a b] bl IH]; [constructor|]. cbn [content]. apply Forall_app. split; [apply rd_bytes_byte|exact IH].
Qed.

(** * Through the descriptor *)

Section Programs.
Context `{C : Clock} `{D : Drivers} `{T0 : Scratch} (string_at : Z → vm → list Z).
Context (iret_stub : Z) (user : registers_t).

#[local] Instance files : Process.Vfs world := acorn_vfs string_at.
Context `{L : !ElfLoader world}.

(** The descriptor [fd] is open, with the flags of [f], on the shadowFS file [x]. *)
Record descriptor (k : kernel) (w : world) (fd file : Z) (f : file_t) (ino : Z) (x : inode_t) : Prop := {
  de_fd : 0 <= fd < 256 ∧ file_table w !! Z.to_nat fd = Some file;
  de_open : open_on (k, w) file f ino;
  de_inode : ino ≠ 0 ∧ objects w !! ino = Some (inj x);
  de_ops : i_ops x = Some shadowfs_ops }.

Lemma get_file_open k w fd file f ino x : descriptor k w fd file f ino x →
  in_world (vfs_get_file fd) (k, w) = Done file (k, w).
Proof.
  intros [[Hfd Hft] _ _ _]. unfold in_world, zoom, vfs_get_file. cbn [snd].
  assert (bad_fd fd = false) as -> by (unfold bad_fd, VFS_MAX_FDS; lia). run. by rewrite Hft.
Qed.

Lemma vfs_write_open k w fd file f ino x buf data : descriptor k w fd file f ino x → f_flags f ≠ O_RDONLY →
  Vfs.vfs_write fd buf data (k, w) = shadowfs_write file buf data (k, w).
Proof.
  intros Hd Hfl. unfold Vfs.vfs_write. rewrite (bind_Done _ _ _ _ _ (get_file_open _ _ _ _ _ _ _ Hd)).
  destruct Hd as [_ (Hf & Hf0 & Hi & _) [Hi0 Hx] Hop]. rewrite (proj2 (Z.eqb_neq file 0)) by done.
  rewrite (bind_Done _ _ _ _ _ (fetch_Done _ _ _ _ Hf)), (proj2 (Z.eqb_neq _ O_RDONLY)) by done.
  unfold op_at. rewrite Hi, (proj2 (Z.eqb_neq ino 0)), bind_assoc, (bind_Done _ _ _ _ _ (fetch_Done _ _ _ _ Hx)), bind_ret by done.
  unfold op. by rewrite Hop.
Qed.

Lemma vfs_read_open k w fd file f ino x buf size : descriptor k w fd file f ino x → f_flags f ≠ O_WRONLY →
  Vfs.vfs_read fd buf size (k, w) = shadowfs_read file buf size (k, w).
Proof.
  intros Hd Hfl. unfold Vfs.vfs_read. rewrite (bind_Done _ _ _ _ _ (get_file_open _ _ _ _ _ _ _ Hd)).
  destruct Hd as [_ (Hf & Hf0 & Hi & _) [Hi0 Hx] Hop]. rewrite (proj2 (Z.eqb_neq file 0)) by done.
  rewrite (bind_Done _ _ _ _ _ (fetch_Done _ _ _ _ Hf)), (proj2 (Z.eqb_neq _ O_WRONLY)) by done.
  unfold op_at. rewrite Hi, (proj2 (Z.eqb_neq ino 0)), bind_assoc, (bind_Done _ _ _ _ _ (fetch_Done _ _ _ _ Hx)), bind_ret by done.
  unfold op. by rewrite Hop.
Qed.

(** * The two calls *)

Context (k : kernel) (w : world) (fd file : Z) (f : file_t) (ino : Z) (x : inode_t) (bs : blocks) (c : list Z).
Context (root : Z) (T : gmap (list Z) Z) (buf n : Z).
Context (me : process_t) (Hc0 : current_process (k_sched k) ≠ 0) (Hme : procs (k_sched k) !! current_process (k_sched k) = Some me).
Context (Hst : stacks (k_vm k) me root T (reg_rsp user)).
Context (Hrip : 0 <= reg_rip user < 2 ^ 64) (Hrfl : 0 <= reg_rflags user < 2 ^ 64).
Context (Hde : descriptor k w fd file f ino x) (Hfile : file_rep (k, w) ino x bs c).
Context (Hbuf : buffer (k_vm k) root T buf n) (Hn : 0 <= n <= 4096) (Hbuf0 : 0 < buf < 2 ^ 47).

(** The stacks of the caller: the 16 bytes below its stack pointer, and its
    kernel stack, which is a page but for its last word. *)
Definition on_stacks (a : Z) : Prop :=
  (∃ i, 0 <= i < 16 ∧ a = translation (k_vm k) T (reg_rsp user - 16 + i)) ∨
  p_stack_top me - (PAGE_SIZE - 8) <= PHYSICAL_MAP_BASE + a < p_stack_top me.

(** The buffer and the file are not on them. *)
Context (Hbuf_apart : ∀ i, 0 <= i < n → ¬ on_stacks (translation (k_vm k) T (buf + i))).
Context (Hfile_apart : ∀ p i, p ∈ pages bs → 0 <= i < 4096 → ¬ on_stacks (p + i)).

(** The kernel as the operation finds it: it has noted where the caller stands,
    and memory is [m0], which differs on the stacks only. *)
Definition noted (m0 : phys) : kernel :=
  Kernel (with_procs <[current_process (k_sched k) := set_user_eip (reg_rip user) (set_user_esp (reg_rsp user) me)]> (k_sched k))
    (with_memory m0 (k_vm k)) (k_heap k).

Record in_call (m0 : phys) : Prop := {
  ic_memory a : ¬ on_stacks a → rd8 m0 a = rd8 (mem (k_vm k)) a;
  ic_space : space_wf (with_memory m0 (k_vm k)) root T;
  ic_translation c : translation (with_memory m0 (k_vm k)) T c = translation (k_vm k) T c }.

Lemma served_noted num a1 a2 a3 : ∃ m0, in_call m0 ∧ ∀ op, served user num a1 a2 a3 (λ _, op) (k, w) = op (noted m0, w).
Proof.
  destruct (entry_spec k w (load_call num a1 a2 a3 user) me root T Hme Hst Hrip Hrfl) as (m0 & He & _ & _ & Hwf & Htr & Hout).
  exists m0. split.
  - split; [|exact Hwf|exact Htr]. intros a Ha. apply Hout.
    + intros i Hi E. apply Ha. left. by exists i.
    + intros Hk. apply Ha. right. unfold PAGE_SIZE. lia.
  - intros op. unfold served. rewrite (bind_Done _ _ _ _ _ He).
    set (k1 := inside k (load_call num a1 a2 a3 user) me (with_memory m0 (k_vm k))).
    rewrite (bind_Done _ _ (k1, w) tt _ (update_current_Done k1 w _ _ (lookup_insert_eq _ _ _))).
    assert (∀ s1 s2 : sched, s1 = s2 → op (Kernel s1 (with_memory m0 (k_vm k)) (k_heap k), w) = op (Kernel s2 (with_memory m0 (k_vm k)) (k_heap k), w)) as E by (by intros ? ? ->).
    apply E. unfold with_procs. cbn. f_equal. by rewrite insert_insert_eq.
Qed.

Lemma descriptor_noted m0 : descriptor (noted m0) w fd file f ino x.
Proof. by destruct Hde. Qed.

Lemma block_used_page a b : (a, b) ∈ bs → b_used b <= 4096.
Proof. intros Hb. destruct Hfile as [_ _ _ [_ _ _ _ B5] _ _]. pose proof (filled_le _ _ _ B5 Hb). lia. Qed.

Lemma file_noted m0 : in_call m0 → file_rep (noted m0, w) ino x bs c.
Proof.
  intros [Hm _ _]. destruct Hfile as [F1 F2 F3 [B1 B2 B3 B4 B5] F5 F6]. split; [done|done|done| | |done].
  - by split.
  - etrans; [|exact F5]. apply content_frame; [|exact block_used_page]. intros p i Hp Hi. apply Hm. by apply Hfile_apart.
Qed.

Lemma bytes_noted m0 : in_call m0 → user_bytes (with_memory m0 (k_vm k)) T buf n = user_bytes (k_vm k) T buf n.
Proof. intros [Hm _ Htr]. apply user_bytes_same; [exact Htr|]. intros i Hi. apply Hm. by apply Hbuf_apart. Qed.

Lemma buffer_noted m0 : in_call m0 → buffer (with_memory m0 (k_vm k)) root T buf n.
Proof. intros [_ Hwf Htr]. by eapply (buffer_moved (k_vm k)). Qed.

Lemma buffer_length : length (user_bytes (k_vm k) T buf n) = Z.to_nat n.
Proof. unfold user_bytes. by rewrite length_fmap, length_seqZ. Qed.

Lemma count_allowed : (buf =? 0) || (4096 <? u32 n) = false.
Proof. rewrite u32_small by lia. lia. Qed.

Lemma owned_noted m0 : owned (k, w) → owned (noted m0, w).
Proof. intros H. by apply (owned_ext (k, w)). Qed.

Lemma program_write mount m : f_flags f ≠ O_RDONLY → owned (k, w) → pages_good k → mounted (k, w) x mount m →
  0 <= m_used m < 2 ^ 32 → quota m <= 2 ^ 32 - BLOCK_COST → Z.of_nat (length c) + n < 2 ^ 31 →
  let bytes := user_bytes (k_vm k) T buf n in
  ∃ m0, in_call m0 ∧
    ((∃ msg, Unistd.write iret_stub user fd buf n (k, w) = Panic msg) ∧ runs_out (i_private x) mount (noted m0, w) m bs bytes ∨
     ∃ (n' : nat) s', Unistd.write iret_stub user fd buf n (k, w) = Done (Some (Z.of_nat n')) s' ∧ Z.of_nat n' <= n ∧
       written (noted m0, w) s' ino file mount x (set_position (u32 (position f + Z.of_nat n')) f) m bs (c ++ take n' bytes) ∧
       (Z.of_nat n' = n ∨ ∃ m', objects s'.2 !! mount = Some (inj m') ∧ quota m' <= m_used m')).
Proof.
  intros Hfl Hown Hgood Hm Hu Hq Hlen bytes. pose proof Hde as [[Hfd _] Hopen _ _]. pose proof buffer_length as Hbl.
  destruct (served_noted SYS_WRITE fd buf (i64 n)) as (m0 & Hin & Hserve). exists m0. split; [done|].
  rewrite write_reaches by (done || lia). rewrite Hserve, count_allowed, u32_small by lia.
  cbn [Process.vfs_write files acorn_vfs]. rewrite bind_assoc.
  assert (Hrd : in_memory (read_from (Z.to_nat n) buf) (noted m0, w) = Done bytes (noted m0, w)).
  { unfold in_memory. apply in_kernel_Done. etrans; [apply (run_vm _ (noted m0) bytes (with_memory m0 (k_vm k)))|done].
    etrans; [apply (read_from_user _ buf (with_memory m0 (k_vm k)) root T)|]; rewrite Z2Nat.id by lia; [by apply buffer_noted|].
    by rewrite (bytes_noted m0 Hin). }
  rewrite (bind_Done _ _ _ _ _ Hrd). fold bytes in Hbl.
  assert (Hw : Vfs.vfs_write fd buf bytes (noted m0, w) = shadowfs_write file buf bytes (noted m0, w)) by (eapply vfs_write_open; [exact (descriptor_noted m0)|done]).
  destruct (write_spec (noted m0) w ino x bs c file f mount m buf bytes (owned_noted m0 Hown) Hgood (file_noted m0 Hin) Hopen Hm Hu Hq)
    as [[[msg H] Hout]|(n' & s' & H & Hle & Hwr & Hall)].
  - lia.
  - apply Forall_fmap, list.Forall_forall. intros i _. apply u8_range.
  - rewrite Hbl. lia.
  - left. split; [|exact Hout]. exists msg. apply bind_Panic. by rewrite Hw.
  - right. rewrite Hbl in Hle. exists n', s'. rewrite (bind_Done _ _ _ _ _ (eq_trans Hw H)).
    split. { unfold mret, M_ret. do 2 f_equal. word_lia. }
    split; [lia|]. split; [exact Hwr|].
    destruct Hall as [->|Hall]; [left; rewrite Hbl; lia|by right].
Qed.

(** The file's pages are not the caller's. *)
Definition apart : Prop := ∀ i p, 0 <= i < n → p ∈ pages bs → translation (k_vm k) T (buf + i) / 4096 ≠ p / 4096.

Lemma program_read : f_flags f ≠ O_WRONLY → Z.of_nat (length c) < 2 ^ 31 → private_buffer (k_vm k) T buf n → apart →
  let bytes := take (Z.to_nat n) (drop (Z.to_nat (position f)) c) in let got := Z.of_nat (length bytes) in
  ∃ m w' t, let k' := noted m in
    Unistd.read iret_stub user fd buf n (k, w) = Done (Some got) (k', w') ∧
    user_bytes (k_vm k') T buf got = bytes ∧ file_rep (k', w') ino (set_accessed t x) bs c ∧
    touched w w' file ino (set_position (u32 (position f + got)) f) (set_accessed t x) ∧
    space_wf (k_vm k') root T ∧ (∀ a, translation (k_vm k') T a = translation (k_vm k) T a) ∧
    ∀ a, (∀ i, 0 <= i < got → a ≠ translation (k_vm k) T (buf + i)) → ¬ on_stacks a → rd8 m a = rd8 (mem (k_vm k)) a.
Proof.
  intros Hfl Hlen Hpriv Hap bytes got. pose proof Hde as [[Hfd _] Hopen _ _].
  destruct (served_noted SYS_READ fd buf (i64 n)) as (m0 & Hin & Hserve). pose proof Hin as [Hm0 Hwf0 Htr0].
  pose proof (buffer_noted m0 Hin) as Hb0. pose proof (private_moved _ _ _ _ _ Hpriv Htr0) as Hp0.
  destruct (read_spec (noted m0) w ino x bs c file f buf n (file_noted m0 Hin) Hopen Hlen) as (w1 & t & H & Hf1 & Ht1); [lia|lia|].
  fold bytes got in H, Ht1.
  assert (Hgn : 0 <= got <= n) by (unfold got, bytes; rewrite length_take; lia).
  assert (Hcb : Forall is_byte c) by (rewrite <- (fr_content _ _ _ _ _ Hfile); apply content_bytes).
  assert (Hbb : Forall is_byte bytes) by (by apply Forall_take, Forall_drop).
  assert (Hbg : buffer (with_memory m0 (k_vm k)) root T buf (Z.of_nat (length bytes))).
  { replace buf with (buf + 0) by lia. eapply buffer_part; [exact Hb0|lia|fold got; lia]. }
  assert (Hpg : private_buffer (with_memory m0 (k_vm k)) T buf (Z.of_nat (length bytes))).
  { replace buf with (buf + 0) by lia. eapply private_part; [exact Hp0|lia|fold got; lia]. }
  destruct (write_to_user bytes buf _ root T Hbg Hpg) as (m & Hrun & Hwf & Htr & Hinb & Hout). fold got in Hout.
  change (with_memory m (with_memory m0 (k_vm k))) with (with_memory m (k_vm k)) in *.
  assert (Hout' : ∀ a, (∀ i, 0 <= i < got → a ≠ translation (k_vm k) T (buf + i)) → rd8 m a = rd8 m0 a).
  { intros a Ha. apply (Hout a). intros i Hi. rewrite Htr0. by apply Ha. }
  exists m, w1, t. cbv zeta. split_and!.
  - rewrite read_reaches by (done || lia). rewrite Hserve, count_allowed, u32_small by lia.
    cbn [Process.vfs_read files acorn_vfs]. rewrite bind_assoc.
    assert (Hr : Vfs.vfs_read fd buf n (noted m0, w) = Done (got, bytes) (noted m0, w1)).
    { etrans; [eapply vfs_read_open; [exact (descriptor_noted m0)|done]|exact H]. }
    rewrite (bind_Done _ _ _ _ _ Hr). cbv beta iota. rewrite bind_assoc.
    assert (Hwr : in_memory (write_to buf bytes) (noted m0, w1) = Done tt (noted m, w1)).
    { unfold in_memory. apply in_kernel_Done. exact (run_vm _ (noted m0) tt _ Hrun). }
    rewrite (bind_Done _ _ _ _ _ Hwr). rewrite bind_ret, i32_small by lia. done.
  - apply (user_bytes_written m (with_memory m0 (k_vm k)) T buf bytes Hbb Htr Hinb).
  - destruct Hf1 as [F1 F2 F3 [B1 B2 B3 B4 B5] F5 F6]. split; [done|done|done| | |done].
    + by split.
    + etrans; [|exact F5]. apply content_frame; [|exact block_used_page].
      intros p i Hp Hi. apply Hout'. intros j Hj E. apply (Hap j p ltac:(lia) Hp). rewrite <- E.
      rewrite list.Forall_forall in B2. apply list_elem_of_fmap in Hp as (b & -> & Hb). destruct (B2 b Hb) as [[_ Hal] _].
      Z.div_mod_to_equations. lia.
  - exact Ht1.
  - exact Hwf.
  - intros a. etrans; [apply Htr|apply Htr0].
  - intros a Ha Hs. rewrite (Hout' a Ha). by apply Hm0.
Qed.

(** C3. refinement: what a program writes to a file and reads from it are the
    bytes of its own memory. From the stub of the library through the entry
    code, the dispatch, the descriptor table, the virtual file system, shadowFS
    and the page tables of the caller: write() appends to the file the bytes
    that the address space maps at the buffer, all of them or - when the quota
    of the mount is used up - a prefix whose length it returns; only running
    out of memory stops it. read() puts the bytes of the file from the position
    of the descriptor on where the address space maps the buffer, returns how
    many they are and moves the position by as many, and changes no other
    object, no translation, and no byte of memory but the buffer and the
    caller's two stacks: the 16 bytes below its stack pointer and its kernel
    stack. The buffer and the file are taken to be off these stacks. *)
Theorem program_files :
  (∀ mount m, f_flags f ≠ O_RDONLY → owned (k, w) → pages_good k → mounted (k, w) x mount m →
     0 <= m_used m < 2 ^ 32 → quota m <= 2 ^ 32 - BLOCK_COST → Z.of_nat (length c) + n < 2 ^ 31 →
     let bytes := user_bytes (k_vm k) T buf n in
     ∃ m0, in_call m0 ∧
       ((∃ msg, Unistd.write iret_stub user fd buf n (k, w) = Panic msg) ∧ runs_out (i_private x) mount (noted m0, w) m bs bytes ∨
        ∃ (n' : nat) s', Unistd.write iret_stub user fd buf n (k, w) = Done (Some (Z.of_nat n')) s' ∧ Z.of_nat n' <= n ∧
          written (noted m0, w) s' ino file mount x (set_position (u32 (position f + Z.of_nat n')) f) m bs (c ++ take n' bytes) ∧
          (Z.of_nat n' = n ∨ ∃ m', objects s'.2 !! mount = Some (inj m') ∧ quota m' <= m_used m'))) ∧
  (f_flags f ≠ O_WRONLY → Z.of_nat (length c) < 2 ^ 31 → private_buffer (k_vm k) T buf n → apart →
     let bytes := take (Z.to_nat n) (drop (Z.to_nat (position f)) c) in let got := Z.of_nat (length bytes) in
     ∃ m w' t, let k' := noted m in
       Unistd.read iret_stub user fd buf n (k, w) = Done (Some got) (k', w') ∧
       user_bytes (k_vm k') T buf got = bytes ∧ file_rep (k', w') ino (set_accessed t x) bs c ∧
       touched w w' file ino (set_position (u32 (position f + got)) f) (set_accessed t x) ∧
       space_wf (k_vm k') root T ∧ (∀ a, translation (k_vm k') T a = translation (k_vm k) T a) ∧
       ∀ a, (∀ i, 0 <= i < got → a ≠ translation (k_vm k) T (buf + i)) → ¬ on_stacks a → rd8 m a = rd8 (mem (k_vm k)) a).
Proof. split; [exact program_write|exact program_read]. Qed.
End Programs.

(** * Witness: a program with "hi" at 0x400000 and the empty file "a" at 3 *)

Definition demo_memory : vm := with_memory (wr8 0x2001 105 (wr8 0x2000 104 (mem demo_mapped))) demo_mapped.
Definition demo_program : kernel := Kernel (k_sched demo_inside) demo_memory (k_heap demo_open_file.1).
Definition demo_world : world := with_files <[3%nat := demo_file_at]> demo_open_file.2.

Lemma cr3_with_memory m v : cr3 (with_memory m v) = cr3 v.
Proof. reflexivity. Qed.

Lemma demo_program_space : ∃ T, space_wf demo_memory 0x3000 T ∧ cr3 demo_memory = 0x3000 ∧
  (∀ i, 0 <= i < 4096 → translation demo_memory T (0x400000 + i) = 0x2000 + i) ∧
  ∀ q t, T !! q = Some t → t / 4096 ≠ 0 ∧ t / 4096 ≠ 2.
Proof.
  destruct demo_mapped_space as (T & Hwf & Hcr & Ht & Hoff). exists T.
  destruct (same_tables_space demo_mapped (wr8 0x2001 105 (wr8 0x2000 104 (mem demo_mapped))) 0x3000 T Hwf) as [Hwf' Htr].
  { intros a q t Hne Hq. rewrite !rd8_wr8 in Hne. destruct (Hoff q t Hq) as [_ H2].
    destruct (decide (0x2001 = a)) as [<-|_]; [change (0x2001 / 4096) with 2; exact (not_eq_sym H2)|].
    destruct (decide (0x2000 = a)) as [<-|_]; [change (0x2000 / 4096) with 2; exact (not_eq_sym H2)|].
    exfalso. apply Hne. reflexivity. }
  split; [exact Hwf'|]. split; [unfold demo_memory; rewrite cr3_with_memory; exact Hcr|]. split; [|exact Hoff].
  intros i Hi. rewrite <- Ht by exact Hi. apply Htr.
Qed.

Lemma program_vm : k_vm demo_program = demo_memory.
Proof. reflexivity. Qed.

#[local] Instance demo_loader : ElfLoader world := λ _ _ _, mret 0.
#[local] Notation demo_write := (Unistd.write (Vfs0 := files (C := demo_clock) (D := demo_drivers) (T0 := demo_scratch) (λ _ _, []))
  0 demo_caller 3 0x400000 2 (demo_program, demo_world)).

Lemma demo_here : file_rep (demo_program, demo_world) demo_ino demo_inode [] [].
Proof.
  split; [vm_compute; reflexivity|vm_compute; split; discriminate|reflexivity| |reflexivity|reflexivity].
  split; [|constructor|constructor|by intros p ?%not_elem_of_nil|done].
  exists 0. split; [vm_compute; reflexivity|done].
Qed.

Lemma demo_descriptor : descriptor demo_program demo_world 3 demo_file_at demo_file demo_ino demo_inode.
Proof.
  split; [split; [lia|vm_compute; reflexivity]| |split; [by_compute|exact (fr_inode _ _ _ _ _ demo_here)]|reflexivity].
  split; [vm_compute; reflexivity|by_compute].
Qed.

Lemma owned_moved (s : kw) sch v g : owned s → owned (Kernel sch v (k_heap s.1), with_files g s.2).
Proof. intros H. by apply (owned_ext s). Qed.

Lemma demo_program_owned : owned (demo_program, demo_world).
Proof. unfold demo_program, demo_world. exact (owned_moved demo_open_file _ _ _ demo_open_owned). Qed.

Lemma demo_moved : mounted (demo_program, demo_world) demo_inode demo_mount demo_quota.
Proof.
  exists 0%nat, (Superblock (cs "/temp") 0 (Some shadowfs_ops) demo_mount 0).
  split_and!; [reflexivity|vm_compute; reflexivity|reflexivity|vm_compute; discriminate|vm_compute; reflexivity].
Qed.

Lemma demo_bytes T : (∀ i, 0 <= i < 4096 → translation demo_memory T (0x400000 + i) = 0x2000 + i) →
  user_bytes demo_memory T 0x400000 2 = cs "hi".
Proof.
  intros Ht. unfold user_bytes. change (seqZ 0 2) with [0; 1]. cbn [fmap list_fmap]. rewrite !Ht by lia.
  apply (f_equal2 (λ a b, [a; b])); vm_compute; reflexivity.
Qed.

Lemma demo_write_runs : match demo_write with Done (Some r) _ => r =? 2 | _ => false end = true.
Proof. vm_compute. reflexivity. Qed.

Lemma program_files_witness : ∃ s' bs x, demo_write = Done (Some 2) s' ∧ file_rep s' demo_ino x bs (cs "hi").
Proof.
  destruct demo_program_space as (T & Hwf & Hcr & Ht & Hoff). pose proof (demo_bytes T Ht) as Hhi. rewrite <- program_vm in Hwf, Hcr, Ht, Hhi.
  destruct (program_files (C := demo_clock) (D := demo_drivers) (T0 := demo_scratch) (λ _ _, []) 0 demo_caller demo_program demo_world
    3 demo_file_at demo_file demo_ino demo_inode [] [] 0x3000 T 0x400000 2 demo_process) as [Hw _].
  - done.
  - vm_compute. reflexivity.
  - exact (demo_stacks _ T Hwf Hcr Ht Hoff).
  - by_compute.
  - by_compute.
  - exact demo_descriptor.
  - exact demo_here.
  - split; [exact Hcr|exact Hwf|]. intros i Hi. rewrite Ht by lia. unfold user_addr. lia.
  - lia.
  - lia.
  - intros i Hi [(j & Hj & E)|Hk].
    + change (reg_rsp demo_caller - 16) with (0x400000 + 0xEF0) in E.
      rewrite <- Z.add_assoc, !Ht in E by lia. lia.
    + rewrite Ht in Hk by lia.
      change (p_stack_top demo_process) with (PHYSICAL_MAP_BASE + 0xFF8) in Hk. unfold PAGE_SIZE in Hk. lia.
  - intros p i Hp. exfalso. exact (not_elem_of_nil p Hp).
  - destruct (Hw demo_mount demo_quota) as (m0 & _ & [[[msg H] _]|(n' & s' & H & _ & Hwn & _)]).
    + discriminate.
    + exact demo_program_owned.
    + split; by_compute.
    + exact demo_moved.
    + by_compute.
    + by_compute.
    + by_compute.
    + pose proof demo_write_runs as Hr. rewrite H in Hr. discriminate Hr.
    + destruct (wn_file _ _ _ _ _ _ _ _ _ _ Hwn) as (bs & x & Hf & _).
      pose proof demo_write_runs as Hr. rewrite H in Hr. exists s', bs, x.
      assert (n' = 2%nat) as E by (apply Z.eqb_eq in Hr; lia). subst n'. split; [exact H|].
      rewrite <- Hhi. exact Hf.
Defined.
