(* ===== verification/Shell.v ===== *)
(** The shell: apps/shell/shell.c.

    The shell keeps the line being typed and prints on the screen; its commands
    call the virtual file system and start programs. Theorems: typing edits the
    line and the screen as a line editor on paper does; Enter runs the first
    command whose name the line begins with; "run" starts the program with the
    words of the line. *)

From S2P Require Import Prelude CString Kprintf Sched Process Vga Objects Vfs.

Definition SHELL_BUFFER_SIZE : Z := 256.
Definition SHELL_MAX_ARGS : Z := 16.

(** process_spawn() and process_wait(), the strings given by their contents.
    Other processes run while the shell is in them, so they can leave anything
    on the screen. *)
Class Programs := {
  spawn : list Z → list (list Z) → M (kw * vga) Z;
  wait_for : Z → M (kw * vga) unit }.

(** The globals of the shell, with the screen and the rest of the system. *)
Record shell := Shell { sys : kw; screen : vga; buffer : list Z; buf_pos : Z; skip_prompt : Z }.

Definition call {A} (m : M kw A) : M shell A :=
  zoom sys (λ t s, Shell t (screen s) (buffer s) (buf_pos s) (skip_prompt s)) m.
Definition show {A} (m : M vga A) : M shell A :=
  zoom screen (λ t s, Shell (sys s) t (buffer s) (buf_pos s) (skip_prompt s)) m.
Definition with_programs {A} (m : M (kw * vga) A) : M shell A :=
  zoom (λ s, (sys s, screen s)) (λ t s, Shell t.1 t.2 (buffer s) (buf_pos s) (skip_prompt s)) m.
Definition set_buffer (f : list Z → list Z) : M shell unit :=
  modify (λ s, Shell (sys s) (screen s) (f (buffer s)) (buf_pos s) (skip_prompt s)).
Definition set_buf_pos (n : Z) : M shell unit :=
  modify (λ s, Shell (sys s) (screen s) (buffer s) n (skip_prompt s)).
Definition set_skip_prompt (n : Z) : M shell unit :=
  modify (λ s, Shell (sys s) (screen s) (buffer s) (buf_pos s) n).

(** buffer[i] = c *)
Definition put_buffer (i c : Z) : M shell unit := λ s,
  if decide (0 <= i < Z.of_nat (length (buffer s)))
  then set_buffer <[Z.to_nat i := c]> s else Fault.

(** A literal that ends in a newline. *)
Definition nl (s : string) : list Z := cs s ++ [10].

(** The rest of the string behind a prefix. *)
Fixpoint starts_with (str pre : list Z) {struct pre} : option (list Z) :=
  match pre with
  | [] => Some str
  | p :: pre =>
      match str with
      | c :: str => if c =? p then starts_with str pre else None
      | [] => None
      end
  end.

Definition buffer_clear : M shell unit :=
  for_up (Z.to_nat SHELL_BUFFER_SIZE) 0 (λ i, put_buffer i 0) ;;
  set_buf_pos 0.

Section Shell.
Context `{FS : Filesystems} `{PR : Programs}.

(** What the uninitialised buffer of kprintf() and ksnprintf() holds, and where
    the local buffers of the commands are. *)
Context (junk : list Z) (local : Z).

(** kprintf(): the format is a literal, here without its NUL. *)
Definition say (fmt : list Z) (args : list arg) : M shell unit :=
  text ← (λ s, match kprintf junk (fmt ++ [0]) args with
               | Done text _ => Done text s | Panic msg => Panic msg | Fault => Fault | Diverge => Diverge end);
  show (vga_print text).

Definition colours (fg : Z) : M shell unit := show (vga_set_colour fg BLACK).

Definition print_prompt : M shell unit :=
  colours LIGHT_GREEN ;;
  say (cs "acorn> ") [] ;;
  colours WHITE.

Definition cmd_help : M shell unit :=
  colours YELLOW ;;
  say (10 :: nl "Available commands") [] ;;
  colours WHITE ;;
  say (nl "    help         -- show this message") [] ;;
  say (nl "    clear        -- clear the screen") [] ;;
  say (nl "    about        -- about acornOS") [] ;;
  say (nl "    uptime       -- show time since boot") [] ;;
  say (nl "    mem          -- show memory usage") [] ;;
  say (nl "    date         -- show current date/time") [] ;;
  say (nl "    ps           -- list all processes") [] ;;
  say (nl "    echo <text>  -- print text screen") [] ;;
  say (nl "    ls [path]    -- list directory contents") [] ;;
  say (nl "    cat <path>   -- print file contents") [] ;;
  say (nl "    mkdir <path> -- create a directory") [] ;;
  say (nl "    rm <path>    -- delete a file") [].

Definition cmd_clear : M shell unit :=
  show vga_clear ;;
  print_prompt ;;
  buffer_clear ;;
  set_skip_prompt 1.

Definition cmd_about : M shell unit :=
  colours LIGHT_CYAN ;;
  say (10 :: nl "acornOS v0.1") [] ;;
  colours WHITE ;;
  say (nl "A tiny OS built from scratch.") [] ;;
  say (nl "Guided by AI, built by hand.") [] ;;
  say (nl "github.com/jesseowenuk/acornOS") [].

Definition cmd_uptime : M shell unit :=
  seconds ← call (in_kernel (in_sched timer_get_seconds));
  let minutes := seconds / 60 in
  let hours := minutes / 60 in
  let seconds := seconds mod 60 in
  let minutes := minutes mod 60 in
  colours WHITE ;;
  say (10 :: nl "Uptime: %uh %um %us") [AInt hours; AInt minutes; AInt seconds].

(** The string in a local buffer after bytes = vfs_read(...); buffer[bytes] = 0:
    a negative count is a store before the buffer. *)
Definition string_of (bytes : Z) (data : list Z) : M shell (list Z) :=
  if bytes <? 0 then fault else access (until_nul (take (Z.to_nat bytes) data ++ [0])).

Definition show_file (path : string) (size : Z) (failed : string) : M shell unit :=
  fd ← call (vfs_open (cs path) O_RDONLY);
  if fd <? 0 then say (nl failed) []
  else
    '(bytes, data) ← call (vfs_read fd local size);
    text ← string_of bytes data;
    call (vfs_close fd) ;;
    say (10 :: cs "%s") [AStr (Some text)].

Definition cmd_mem : M shell unit := show_file "/process/meminfo" 255 "mem: cannot open /process/meminfo".
Definition cmd_date : M shell unit := show_file "/devices/rtc" 31 "date: cannot open /devices/rtc".

(** Skip the space after the name of the command. *)
Definition skip_space (s : list Z) : list Z := match s with c :: s' => if c =? 32 then s' else s | [] => [] end.

Definition usage (text : string) : M shell unit :=
  colours LIGHT_RED ;;
  say (nl text) [] ;;
  colours WHITE.

Definition cmd_echo (text : list Z) : M shell unit :=
  let text := skip_space text in
  match text with
  | [] => colours LIGHT_RED ;; say (nl "Usage: echo <text>") []
  | _ => colours WHITE ;; say (nl "%s") [AStr (Some text)]
  end.

(** The entries of a directory, one by one. [dentry] starts uninitialised. *)
Fixpoint ps_loop (fuel : nat) (fd : Z) (dentry : option dentry_t) : M shell unit :=
  match fuel with
  | O => diverge
  | S fuel =>
      '(r, dentry) ← call (vfs_readdir fd dentry);
      if negb (r >? 0) then mret tt
      else
        d ← access dentry;
        (if negb (d_type d =? VFS_TYPE_DIR) then mret tt
         else
           path ← (λ s, match ksnprintf junk 64 (cs "/process/%s/status" ++ [0]) [AStr (Some (d_name d))] with
                        | Done (buf, _) _ => access (until_nul buf) s
                        | Panic msg => Panic msg | Fault => Fault | Diverge => Diverge end);
           sfd ← call (vfs_open path O_RDONLY);
           if sfd <? 0 then mret tt
           else
             '(bytes, data) ← call (vfs_read sfd local 255);
             text ← string_of bytes data;
             call (vfs_close sfd) ;;
             colours CYAN ;;
             say (nl "------------------") [] ;;
             colours WHITE ;;
             say (nl "%s") [AStr (Some text)]) ;;
        ps_loop fuel fd (Some d)
  end.

Definition cmd_ps (fuel : nat) : M shell unit :=
  fd ← call (vfs_open (cs "/process/") O_RDONLY);
  if fd <? 0 then say (nl "ps: cannot open /process") []
  else
    ps_loop fuel fd None ;;
    call (vfs_close fd) ;; mret tt.

Fixpoint ls_loop (fuel : nat) (fd : Z) (dentry : option dentry_t) : M shell unit :=
  match fuel with
  | O => diverge
  | S fuel =>
      '(r, dentry) ← call (vfs_readdir fd dentry);
      if negb (r >? 0) then mret tt
      else
        d ← access dentry;
        (if d_type d =? VFS_TYPE_DIR then colours LIGHT_BLUE ;; say (nl "  %s/") [AStr (Some (d_name d))]
         else colours WHITE ;; say (nl "  %s") [AStr (Some (d_name d))]) ;;
        ls_loop fuel fd (Some d)
  end.

Definition cmd_ls (fuel : nat) (path : list Z) : M shell unit :=
  let path := skip_space path in
  let path := match path with [] => cs "/temp" | _ => path end in
  fd ← call (vfs_open path O_RDONLY);
  if fd <? 0 then
    colours LIGHT_RED ;;
    say (nl "ls: cannot open %s") [AStr (Some path)] ;;
    colours WHITE
  else
    colours LIGHT_CYAN ;;
    say [10] [] ;;
    ls_loop fuel fd None ;;
    colours WHITE ;;
    call (vfs_close fd) ;; mret tt.

Fixpoint cat_loop (fuel : nat) (fd : Z) : M shell unit :=
  match fuel with
  | O => diverge
  | S fuel =>
      '(bytes, data) ← call (vfs_read fd local 255);
      if negb (bytes >? 0) then mret tt
      else
        text ← string_of bytes data;
        say (cs "%s") [AStr (Some text)] ;;
        cat_loop fuel fd
  end.

Definition cmd_cat (fuel : nat) (path : list Z) : M shell unit :=
  let path := skip_space path in
  match path with
  | [] => usage "Usgae: cat <path>"
  | _ =>
      fd ← call (vfs_open path O_RDONLY);
      if fd <? 0 then
        colours LIGHT_RED ;;
        say (nl "cat: cannot open %s") [AStr (Some path)] ;;
        colours WHITE
      else
        say [10] [] ;;
        cat_loop fuel fd ;;
        say [10] [] ;;
        call (vfs_close fd) ;; mret tt
  end.

Definition cmd_mkdir (path : list Z) : M shell unit :=
  let path := skip_space path in
  match path with
  | [] => usage "Usage: mkdir <path>"
  | _ =>
      result ← call (vfs_mkdir path);
      if result <? 0 then
        colours LIGHT_RED ;;
        say (nl "mkdir: failed to create %s") [AStr (Some path)] ;;
        colours WHITE
      else say (nl "Created directory %s") [AStr (Some path)]
  end.

Definition cmd_rm (path : list Z) : M shell unit :=
  let path := skip_space path in
  match path with
  | [] => usage "Usage: rm <path>"
  | _ =>
      result ← call (vfs_delete path);
      if result <? 0 then
        colours LIGHT_RED ;;
        say (nl "rm: failed to delete %s") [AStr (Some path)] ;;
        colours WHITE
      else say (nl "Deleted %s") [AStr (Some path)]
  end.

(** The characters up to the next space, and those behind them. *)
Fixpoint word (s : list Z) : list Z * list Z :=
  match s with
  | [] => ([], [])
  | c :: s' => if c =? 32 then ([], s) else let '(w, r) := word s' in (c :: w, r)
  end.

Fixpoint skip_spaces (s : list Z) : list Z :=
  match s with c :: s' => if c =? 32 then skip_spaces s' else s | [] => [] end.

(** The loop that cuts the line into arguments; [fuel] is the number that fit. *)
Fixpoint tokenise (fuel : nat) (cursor : list Z) : list (list Z) :=
  match cursor, fuel with
  | [], _ | _, O => []
  | _, S fuel => let '(w, rest) := word cursor in w :: tokenise fuel (skip_spaces rest)
  end.

(** The path is the string [path] points to after the line was cut. *)
Definition cmd_run (path : list Z) : M shell unit :=
  let path := skip_space path in
  match path with
  | [] => usage "Usage: run <path>"
  | _ =>
      let argv := tokenise (Z.to_nat (SHELL_MAX_ARGS - 1)) path in
      let path := (word path).1 in
      pid ← with_programs (spawn path argv);
      if u64 pid =? u64 (-1) then
        colours RED ;;
        say (nl "run: failed to start %s") [AStr (Some path)] ;;
        colours WHITE
      else
        say [10] [] ;;
        with_programs (wait_for pid)
  end.

(** The table: the names, and the handlers, of which some ignore the rest of
    the line. [fuel] bounds the entries and the pieces of a file. *)
Definition commands (fuel : nat) : list (list Z * (list Z → M shell unit)) :=
  [ (cs "help", λ _, cmd_help); (cs "clear", λ _, cmd_clear); (cs "about", λ _, cmd_about);
    (cs "uptime", λ _, cmd_uptime); (cs "mem", λ _, cmd_mem); (cs "date", λ _, cmd_date);
    (cs "ps", λ _, cmd_ps fuel); (cs "echo", cmd_echo); (cs "ls", cmd_ls fuel); (cs "cat", cmd_cat fuel);
    (cs "mkdir", cmd_mkdir); (cs "rm", cmd_rm); (cs "run", cmd_run) ].

Fixpoint find_command (line : list Z) (l : list (list Z * (list Z → M shell unit))) : option (M shell unit) :=
  match l with
  | [] => None
  | (name, handler) :: l =>
      match starts_with line name with Some args => Some (handler args) | None => find_command line l end
  end.

Definition process_command (fuel : nat) : M shell unit :=
  say [10] [] ;;
  b ← gets buffer;
  line ← access (until_nul b);
  match line with
  | [] => mret tt
  | _ =>
      match find_command line (commands fuel) with
      | Some m => m
      | None =>
          match starts_with line (cs "echo") with
          | Some text => cmd_echo text
          | None =>
              colours LIGHT_RED ;;
              say (cs "Unknown command: ") [] ;;
              colours WHITE ;;
              say (nl "%s") [AStr (Some line)]
          end
      end
  end.

Definition shell_handle_key (fuel : nat) (c : Z) : M shell unit :=
  set_skip_prompt 0 ;;
  if c =? 10 then
    process_command fuel ;;
    buffer_clear ;;
    skip ← gets skip_prompt;
    if skip =? 0 then print_prompt else mret tt
  else if c =? 8 then
    pos ← gets buf_pos;
    if pos >? 0 then
      set_buf_pos (pos - 1) ;;
      put_buffer (pos - 1) 0 ;;
      show (vga_putchar 8) ;;
      show (vga_putchar 32) ;;
      show (vga_putchar 8)
    else mret tt
  else
    pos ← gets buf_pos;
    if pos <? SHELL_BUFFER_SIZE - 1 then
      put_buffer pos c ;;
      set_buf_pos (pos + 1) ;;
      show (vga_putchar c)
    else mret tt.

Definition shell_init : M shell unit :=
  buffer_clear ;;
  print_prompt.

(** * The line editor *)

(** What a key other than Enter does to the line, and what it echoes. *)
Definition edit (l : list Z) (c : Z) : list Z :=
  if c =? 8 then removelast l else if decide (length l < 255)%nat then l ++ [c] else l.

Definition echo (l : list Z) (c : Z) : list Z :=
  if c =? 8 then match l with [] => [] | _ => [8; 32; 8] end else if decide (length l < 255)%nat then [c] else [].

Fixpoint echoes (l ks : list Z) : list Z :=
  match ks with [] => [] | c :: ks => echo l c ++ echoes (edit l c) ks end.

(** The buffer holds the line [l] and zeros. *)
Record typed (l : list Z) (s : shell) : Prop := {
  ty_buffer : buffer s = l ++ replicate (256 - length l) 0;
  ty_pos : buf_pos s = Z.of_nat (length l);
  ty_length : (length l <= 255)%nat }.

(** The screen shows [p], written in colour [attr]. *)
Record on_paper (attr : Z) (p : paper) (s : shell) : Prop := {
  op_shows : shows (screen s) p;
  op_ok : paper_ok p;
  op_colour : colour (screen s) = attr }.

Lemma put_buffer_Done i c s : 0 <= i < Z.of_nat (length (buffer s)) →
  put_buffer i c s = Done tt (Shell (sys s) (screen s) (<[Z.to_nat i := c]> (buffer s)) (buf_pos s) (skip_prompt s)).
Proof. intros Hi. unfold put_buffer. by rewrite decide_True. Qed.

Lemma show_putchar c attr p s : on_paper attr p s →
  ∃ v, show (vga_putchar c) s = Done tt (Shell (sys s) v (buffer s) (buf_pos s) (skip_prompt s)) ∧
    ∀ b n k, on_paper attr (type_char attr c p) (Shell (sys s) v b n k).
Proof.
  intros [Hs Hok Hc]. destruct (vga_putchar_shows c (screen s) p Hok Hs) as (v & Hv & Hs' & Hok' & Hc'). rewrite Hc in *.
  exists v. split; [exact (zoom_Done _ _ _ _ _ _ Hv)|]. by split.
Qed.

Lemma typed_end l s : typed l s → length (buffer s) = 256%nat.
Proof. intros [Hb _ Hl]. rewrite Hb, length_app, length_replicate. lia. Qed.

Lemma key_edits fuel c l attr p s : c ≠ 10 → typed l s → on_paper attr p s →
  ∃ s', shell_handle_key fuel c s = Done tt s' ∧ typed (edit l c) s' ∧
    on_paper attr (type_text attr (echo l c) p) s' ∧ sys s' = sys s.
Proof.
  intros Hc Ht Hp. pose proof (typed_end _ _ Ht) as H256. destruct Ht as [Hb Hn Hl], s as [t v b n k]. cbn [buffer buf_pos screen sys] in *.
  unfold shell_handle_key. erewrite bind_Done by reflexivity. rewrite (proj2 (Z.eqb_neq _ _) Hc).
  unfold edit, echo. destruct (c =? 8) eqn:Hc8.
  - erewrite bind_Done by reflexivity. cbn [buf_pos]. destruct l as [|a l _] using rev_ind.
    { rewrite Hn. cbn [length Z.of_nat Z.gtb Z.compare]. eexists. split; [reflexivity|]. split; [by split|]. split; [|done].
      destruct Hp. by split. }
    rewrite Hn. rewrite length_app in *. cbn [length] in *. rewrite (proj2 (Z.gtb_lt _ _)) by lia.
    erewrite bind_Done by reflexivity. cbn [screen sys buffer buf_pos skip_prompt].
    erewrite bind_Done by (apply put_buffer_Done; cbn [buffer]; lia). cbn [screen sys buffer buf_pos skip_prompt].
    destruct (show_putchar 8 attr p (Shell t v (<[Z.to_nat (Z.of_nat (length l + 1) - 1) := 0]> b) (Z.of_nat (length l + 1) - 1) 0)) as (v1 & H1 & P1).
    { destruct Hp. by split. }
    rewrite (bind_Done _ _ _ _ _ H1). edestruct (show_putchar 32) as (v2 & H2 & P2); [apply P1|].
    rewrite (bind_Done _ _ _ _ _ H2). edestruct (show_putchar 8) as (v3 & H3 & P3); [apply P2|].
    rewrite H3. eexists. split; [reflexivity|]. cbn [screen sys buffer buf_pos skip_prompt] in *. split; [|split; [|done]].
    + rewrite removelast_app by done. cbn [removelast]. rewrite app_nil_r. split; cbn [buffer buf_pos]; [|lia|lia].
      rewrite Hb, <- app_assoc. replace (Z.to_nat (Z.of_nat (length l + 1) - 1)) with (length l + 0)%nat by lia.
      rewrite insert_app_r. cbn [app]. replace (256 - length l)%nat with (S (256 - (length l + 1))) by lia. done.
    + destruct (l ++ [a]) eqn:He; [by destruct l|]. apply P3.
  - erewrite bind_Done by reflexivity. cbn [buf_pos]. rewrite Hn. unfold SHELL_BUFFER_SIZE. case_decide as Hd.
    + rewrite (proj2 (Z.ltb_lt _ _)) by lia. erewrite bind_Done by (apply put_buffer_Done; cbn [buffer]; lia).
      erewrite bind_Done by reflexivity. cbn [screen sys buffer buf_pos skip_prompt].
      edestruct (show_putchar c attr p) as (v1 & H1 & P1); [|rewrite H1; eexists; split; [reflexivity|]].
      { destruct Hp. by split. }
      cbn [screen sys buffer buf_pos skip_prompt]. split; [|split; [apply P1|done]].
      split; cbn [buffer buf_pos]; rewrite ?length_app; cbn [length]; [|lia|lia].
      rewrite Hb, Nat2Z.id. replace (length l) with (length l + 0)%nat at 1 by lia. rewrite insert_app_r, <- app_assoc. f_equal.
      replace (256 - length l)%nat with (S (256 - (length l + 1))) by lia. done.
    + rewrite (proj2 (Z.ltb_ge _ _)) by lia. eexists. split; [reflexivity|]. split; [by split|]. split; [|done]. destruct Hp. by split.
Qed.

Definition handle_keys (fuel : nat) (ks : list Z) : M shell unit := foldr (λ c k, shell_handle_key fuel c ;; k) (mret tt) ks.

(** The shell's process (kernel/core/kernel.c), up to the last key of [ks]. *)
Definition shell_process (fuel : nat) (ks : list Z) : M shell unit :=
  shell_init ;;
  handle_keys fuel ks.

Lemma keys_edit fuel ks : ∀ l attr p s, Forall (λ c, c ≠ 10) ks → typed l s → on_paper attr p s →
  ∃ s', handle_keys fuel ks s = Done tt s' ∧ typed (foldl edit l ks) s' ∧
    on_paper attr (type_text attr (echoes l ks) p) s' ∧ sys s' = sys s.
Proof.
  induction ks as [|c ks IH]; intros l attr p s Hks Ht Hp; [eexists; by split_and!|].
  apply list.Forall_cons in Hks as [Hc Hks]. destruct (key_edits fuel c l attr p s Hc Ht Hp) as (s1 & H1 & Ht1 & Hp1 & Hs1).
  destruct (IH _ _ _ s1 Hks Ht1 Hp1) as (s2 & H2 & Ht2 & Hp2 & Hs2). exists s2. split_and!; [|done| |congruence].
  - cbn [handle_keys foldr]. by rewrite (bind_Done _ _ _ _ _ H1).
  - unfold type_text in *. cbn [echoes]. by rewrite foldl_app.
Qed.

(** * Enter *)

(** The shell between two steps: the line, the screen, the system. *)
Record stands (l : list Z) (attr : Z) (p : paper) (t : kw) (s : shell) : Prop := {
  st_typed : typed l s; st_paper : on_paper attr p s; st_sys : sys s = t; st_skip : skip_prompt s = 0 }.

Context (Hjunk : length junk = 1024%nat).

Lemma say_stands fmt args out l attr p t s : Forall (λ c, 0 < c < 256) fmt → Forall arg_ok args →
  render fmt args = Some out → Forall (λ c, c ≠ 0) out → (length out <= 1023)%nat → stands l attr p t s →
  ∃ s', say fmt args s = Done tt s' ∧ stands l attr (type_text attr out p) t s'.
Proof.
  intros Hf Ha Hr Hn Hlen [Ht [Hs Hok Hc] Hsys Hk]. destruct (kprintf_shows junk fmt args out Hjunk Hf Ha Hr ltac:(unfold countable, INT_MAX; lia) Hn) as [Hp _].
  rewrite take_ge in Hp by lia. destruct (vga_print_shows out (screen s) p Hok Hs) as (v & Hv & Hs' & Hok' & Hc'). rewrite Hc in *.
  eexists. split.
  - unfold say. rewrite (bind_Done _ _ s out s) by (by rewrite Hp). exact (zoom_Done _ _ _ _ _ _ Hv).
  - destruct Ht as [H1 H2 H3]. split; [by split|by split|done|done].
Qed.

Lemma colours_stands fg l attr p t s : 0 <= fg < 256 → stands l attr p t s →
  ∃ s', colours fg s = Done tt s' ∧ stands l fg p t s'.
Proof.
  intros Hfg [[H1 H2 H3] [[S1 S2 S3] Hok Hc] Hsys Hk]. eexists. split; [reflexivity|].
  split; [by split|split; [by split|done|]|done|done]. cbn. unfold BLACK. rewrite Z.shiftl_0_l, Z.lor_0_l. by apply u8_small.
Qed.

Lemma prompt_stands l attr p t s : stands l attr p t s →
  ∃ s', print_prompt s = Done tt s' ∧ stands l WHITE (type_text LIGHT_GREEN (cs "acorn> ") p) t s'.
Proof.
  intros Hs. unfold print_prompt. destruct (colours_stands LIGHT_GREEN l attr p t s) as (s1 & H1 & S1); [by by_compute|done|].
  rewrite (bind_Done _ _ _ _ _ H1). destruct (say_stands (cs "acorn> ") [] (cs "acorn> ") l LIGHT_GREEN p t s1) as (s2 & H2 & S2);
    [repeat constructor; by_compute|constructor|reflexivity|repeat constructor; discriminate|simpl; lia|done|].
  rewrite (bind_Done _ _ _ _ _ H2). eapply colours_stands; [by by_compute|exact S2].
Qed.

Lemma clear_stands l attr p t s : stands l attr p t s →
  ∃ s', buffer_clear s = Done tt s' ∧ stands [] attr p t s'.
Proof.
  intros [Ht Hp Hsys Hk]. pose proof (typed_end _ _ Ht) as H256. unfold buffer_clear, SHELL_BUFFER_SIZE.
  destruct (for_up_rule (λ i u, buffer u = replicate (Z.to_nat i) 0 ++ drop (Z.to_nat i) (buffer s) ∧
    screen u = screen s ∧ sys u = sys s ∧ skip_prompt u = 0) (Z.to_nat 256) 0 (λ i, put_buffer i 0) s) as (u & Hrun & Hb & Hv & Hu & Hk').
  - by rewrite drop_0.
  - intros i u Hi (Hb & Hv & Hu & Hk').
    assert (Hlen : length (buffer u) = 256%nat) by (rewrite Hb, length_app, length_replicate, length_drop; lia).
    rewrite put_buffer_Done by lia. eexists. split; [reflexivity|]. cbn [buffer screen sys skip_prompt]. split_and!; try done.
    rewrite Hb. replace (Z.to_nat (i + 1)) with (S (Z.to_nat i)) by lia.
    rewrite insert_app_r_alt by (rewrite length_replicate; lia). rewrite length_replicate, Nat.sub_diag.
    destruct (lookup_lt_is_Some_2 (buffer s) (Z.to_nat i)) as [d Hd]; [lia|]. rewrite (drop_S _ _ _ Hd), replicate_S_end, <- app_assoc. done.
  - rewrite (bind_Done _ _ _ _ _ Hrun). eexists. split; [reflexivity|]. destruct Hp as [P1 P2 P3].
    split; cbn; [|by split; cbn; rewrite ?Hv|congruence|done]. split; cbn; [|done|lia].
    rewrite Hb, drop_ge by lia. by rewrite app_nil_r.
Qed.

Lemma starts_with_spec str pre r : starts_with str pre = Some r ↔ str = pre ++ r.
Proof.
  revert str. induction pre as [|c pre IH]; intros str; [split; [by intros [= ->]|by intros ->]|].
  destruct str as [|d str]; [by split|]. cbn [starts_with]. destruct (Z.eqb_spec d c) as [->|Hne].
  - rewrite IH. split; [by intros ->|by intros [= ->]].
  - split; [done|]. intros [= ? _]. congruence.
Qed.

Lemma starts_with_None str pre : ¬ pre `prefix_of` str → starts_with str pre = None.
Proof.
  intros Hn. destruct (starts_with str pre) as [r|] eqn:H; [|done]. apply starts_with_spec in H. destruct Hn. by exists r.
Qed.

Lemma find_command_first line l1 name h l2 args : line = name ++ args →
  Forall (λ c, ¬ c.1 `prefix_of` line) l1 → find_command line (l1 ++ (name, h) :: l2) = Some (h args).
Proof.
  intros Hl. induction 1 as [|[n h'] l1 Hn _ IH]; cbn [find_command app].
  - by rewrite (proj2 (starts_with_spec line name args) Hl).
  - by rewrite starts_with_None.
Qed.

Lemma find_command_none line l : Forall (λ c, ¬ c.1 `prefix_of` line) l → find_command line l = None.
Proof. induction 1 as [|[n h'] l Hn _ IH]; cbn [find_command]; [done|]. by rewrite starts_with_None. Qed.

(** What runs when the line [l] is entered. *)
Definition entered (fuel : nat) (l : list Z) : M shell unit :=
  match l with
  | [] => mret tt
  | _ =>
      match find_command l (commands fuel) with
      | Some m => m
      | None =>
          match starts_with l (cs "echo") with
          | Some text => cmd_echo text
          | None => colours LIGHT_RED ;; say (cs "Unknown command: ") [] ;; colours WHITE ;; say (nl "%s") [AStr (Some l)]
          end
      end
  end.

Definition next_prompt : M shell unit :=
  buffer_clear ;;
  skip ← gets skip_prompt;
  if skip =? 0 then print_prompt else mret tt.

(** The process starts with a prompt and an empty line. *)
Lemma shell_process_edits fuel ks attr p t s : Forall (λ c, c ≠ 10) ks → stands [] attr p t s →
  ∃ s', shell_process fuel ks s = Done tt s' ∧ typed (foldl edit [] ks) s' ∧
    on_paper WHITE (type_text WHITE (echoes [] ks) (type_text LIGHT_GREEN (cs "acorn> ") p)) s' ∧ sys s' = t.
Proof.
  intros Hks Hs. unfold shell_process, shell_init. destruct (clear_stands _ _ _ _ _ Hs) as (s1 & H1 & S1).
  destruct (prompt_stands _ _ _ _ _ S1) as (s2 & H2 & [T2 P2 Y2 _]).
  destruct (keys_edit fuel ks [] WHITE _ s2 Hks T2 P2) as (s3 & H3 & T3 & P3 & Y3). exists s3.
  rewrite bind_assoc, (bind_Done _ _ _ _ _ H1), (bind_Done _ _ _ _ _ H2). split_and!; [done|done|done|congruence].
Qed.

Lemma enter_runs fuel l attr p s : Forall (λ c, c ≠ 0) l → typed l s → on_paper attr p s →
  ∃ s1, stands l attr (type_text attr [10] p) (sys s) s1 ∧ shell_handle_key fuel 10 s = (entered fuel l ;; next_prompt) s1.
Proof.
  intros Hl [T1 T2 T3] [P1 P2 P3]. set (s0 := Shell (sys s) (screen s) (buffer s) (buf_pos s) 0).
  destruct (say_stands [10] [] [10] l attr p (sys s) s0) as (s1 & H1 & S1);
    [repeat constructor; by_compute|constructor|reflexivity|repeat constructor; discriminate|simpl; lia|by split|].
  exists s1. split; [done|]. unfold shell_handle_key. rewrite (bind_Done (set_skip_prompt 0) _ s tt s0) by done.
  change (10 =? 10) with true. cbv iota. unfold process_command.
  assert (Hassoc : ∀ (m1 m2 m3 : M shell unit) u, ((m1 ;; m2) ;; m3) u = (m1 ;; m2 ;; m3) u).
  { intros m1 m2 m3 u. unfold mbind, M_bind. by destruct (m1 u). }
  rewrite Hassoc, (bind_Done _ _ _ _ _ H1). unfold mbind at 1, M_bind at 1. unfold mbind at 4, M_bind at 4.
  erewrite bind_Done by reflexivity. destruct S1 as [[Hb Hn Hlen] _ _ _].
  assert (until_nul (buffer s1) = Some l) as ->.
  { rewrite Hb. replace (256 - length l)%nat with (S (255 - length l)) by lia. by apply until_nul_app. }
  erewrite bind_Done by reflexivity. unfold entered.
  by destruct l.
Qed.

Lemma next_prompt_stands l attr p t s : stands l attr p t s →
  ∃ s', next_prompt s = Done tt s' ∧ stands [] WHITE (type_text LIGHT_GREEN (cs "acorn> ") p) t s'.
Proof.
  intros Hs. destruct (clear_stands _ _ _ _ _ Hs) as (s1 & H1 & S1). unfold next_prompt. rewrite (bind_Done _ _ _ _ _ H1).
  erewrite bind_Done by reflexivity. rewrite (st_skip _ _ _ _ _ S1). by eapply prompt_stands.
Qed.

(** Say something that quotes a string of the line. *)
Lemma quote_stands (before : string) (str after : list Z) l attr p t s : Forall (λ c, 0 < c < 256 ∧ c ≠ 37) (cs before) →
  Forall (λ c, 0 < c < 256 ∧ c ≠ 37) after → Forall (λ c, 0 < c < 256) str → (length (cs before) + length str + length after <= 1023)%nat →
  stands l attr p t s → ∃ s', say (cs before ++ cs "%s" ++ after) [AStr (Some str)] s = Done tt s' ∧
    stands l attr (type_text attr (cs before ++ str ++ after) p) t s'.
Proof.
  intros Hb Ha Hstr Hlen Hs.
  assert (Hplain : ∀ f args, Forall (λ c, 0 < c < 256 ∧ c ≠ 37) f → ∀ g out, render g args = Some out → render (f ++ g) args = Some (f ++ out)).
  { intros f args Hf. induction Hf as [|c f [_ Hc] _ IH]; intros g out Hg; [done|]. cbn [app render].
    rewrite (proj2 (Z.eqb_neq _ _) Hc). cbn [negb]. by rewrite (IH g out Hg). }
  apply say_stands; [| | | | |done].
  - apply Forall_app. split; [by eapply Forall_impl; [|exact Hb]; intros c []|]. apply Forall_app. split; [repeat constructor; by_compute|].
    by eapply Forall_impl; [|exact Ha]; intros c [].
  - constructor; [|constructor]. unfold arg_ok. eapply Forall_impl; [|exact Hstr]. unfold is_byte. intros c Hc. lia.
  - apply Hplain; [done|]. change (render (cs "%s" ++ after) [AStr (Some str)]) with (out ← render after []; Some (str ++ out)).
    pose proof (Hplain after [] Ha [] [] eq_refl) as Hr. rewrite !app_nil_r in Hr. by rewrite Hr.
  - rewrite !Forall_app. split_and!; (eapply Forall_impl; [|eassumption]); intros c Hc; simpl in Hc; lia.
  - rewrite !length_app. lia.
Qed.

Lemma unknown_command fuel l attr p t s : l ≠ [] → Forall (λ c, 0 < c < 256) l → stands l attr p t s →
  Forall (λ c, ¬ c.1 `prefix_of` l) (commands fuel) →
  ∃ s', entered fuel l s = Done tt s' ∧
    stands l WHITE (type_text WHITE (l ++ [10]) (type_text LIGHT_RED (cs "Unknown command: ") p)) t s'.
Proof.
  intros Hne Hl Hs Hno. unfold entered. rewrite (find_command_none l _ Hno). destruct l as [|c0 l0] eqn:Heq; [done|]. rewrite <- Heq in *.
  rewrite starts_with_None.
  2:{ unfold commands in Hno. repeat (apply list.Forall_cons in Hno as [? Hno]). done. }
  destruct (colours_stands LIGHT_RED l attr p t s) as (s1 & H1 & S1); [by by_compute|done|]. rewrite (bind_Done _ _ _ _ _ H1).
  destruct (say_stands (cs "Unknown command: ") [] (cs "Unknown command: ") l LIGHT_RED p t s1) as (s2 & H2 & S2);
    [repeat constructor; by_compute|constructor|reflexivity|repeat constructor; discriminate|simpl; lia|done|].
  rewrite (bind_Done _ _ _ _ _ H2). edestruct (colours_stands WHITE) as (s3 & H3 & S3); [by by_compute|exact S2|]. rewrite (bind_Done _ _ _ _ _ H3).
  pose proof (ty_length _ _ (st_typed _ _ _ _ _ Hs)).
  apply (quote_stands "" l [10]); [constructor|repeat constructor; by_compute|done|simpl; lia|done].
Qed.

(** ** Programs *)

(** Words with gaps: at least one space between two, any number at the end. *)
Fixpoint spaced (l : list (list Z * nat)) : list Z :=
  match l with
  | [] => []
  | (w, n) :: l => w ++ match l with [] => replicate n 32 | _ => replicate (S n) 32 ++ spaced l end
  end.

Definition is_word (w : list Z) : Prop := w ≠ [] ∧ Forall (λ c, 0 < c < 256 ∧ c ≠ 32) w.

Lemma word_app w rest : Forall (λ c, 0 < c < 256 ∧ c ≠ 32) w → (rest = [] ∨ ∃ r, rest = 32 :: r) → word (w ++ rest) = (w, rest).
Proof.
  intros Hw Hr. induction Hw as [|c w [_ Hc] _ IH]; cbn [app word].
  - destruct Hr as [-> | [r ->]]; done.
  - rewrite (proj2 (Z.eqb_neq _ _) Hc). by rewrite IH.
Qed.

Lemma skip_spaces_app n s : skip_spaces (replicate n 32 ++ s) = skip_spaces s.
Proof. by induction n. Qed.

Lemma skip_spaces_word w rest : is_word w → skip_spaces (w ++ rest) = w ++ rest.
Proof.
  intros [Hne Hw]. destruct w as [|c w]; [done|]. apply list.Forall_cons in Hw as [[_ Hc] _]. cbn [app skip_spaces].
  by rewrite (proj2 (Z.eqb_neq _ _) Hc).
Qed.

Lemma spaced_cons w n l : ∃ rest, spaced ((w, n) :: l) = w ++ rest ∧ (rest = [] ∨ ∃ r, rest = 32 :: r) ∧
  (Forall is_word l.*1 → skip_spaces rest = spaced l).
Proof.
  cbn [spaced]. destruct l as [|[w' n'] l].
  - exists (replicate n 32). split; [done|]. split; [destruct n; [by left|right; by eexists]|]. intros _.
    rewrite <- (app_nil_r (replicate n 32)). by rewrite skip_spaces_app.
  - exists (replicate (S n) 32 ++ spaced ((w', n') :: l)). split; [done|]. split; [right; by eexists|].
    intros [Hw _]%list.Forall_cons. rewrite skip_spaces_app. cbn [spaced]. by apply skip_spaces_word.
Qed.

Lemma tokenise_words l : ∀ n, Forall is_word l.*1 → tokenise n (spaced l) = take n l.*1.
Proof.
  induction l as [|[w k] l IH]; intros n Hl; [by destruct n|].
  apply list.Forall_cons in Hl as [[Hne Hw] Hl]. destruct (spaced_cons w k l) as (rest & He & Hr & Hsk). rewrite He.
  destruct w as [|c w]; [done|]. destruct n as [|n]; [done|]. cbn [app tokenise].
  change (c :: w ++ rest) with ((c :: w) ++ rest). rewrite word_app by done. rewrite Hsk by done. cbn. f_equal. by apply IH.
Qed.

(** The line of a program: "run", a space, the words. *)
Definition run_line (ws : list (list Z * nat)) : list Z := cs "run" ++ 32 :: spaced ws.

Lemma spaced_bytes ws : Forall is_word ws.*1 → Forall (λ c, 0 < c < 256) (spaced ws).
Proof.
  induction ws as [|[w n] ws IH]; intros Hw; [constructor|]. apply list.Forall_cons in Hw as [[_ Hw] Hws]. cbn [spaced].
  apply Forall_app. split; [eapply Forall_impl; [|exact Hw]; naive_solver|].
  assert (Hsp : ∀ k, Forall (λ c, 0 < c < 256) (replicate k 32)) by (intros k; apply Forall_replicate; lia).
  destruct ws; [apply Hsp|]. apply Forall_app. split; [apply Hsp|by apply IH].
Qed.

Lemma run_entered fuel ws : Forall is_word ws.*1 →
  entered fuel (run_line ws) = cmd_run (32 :: spaced ws).
Proof.
  intros Hw. unfold entered. assert (Hf : find_command (run_line ws) (commands fuel) = Some (cmd_run (32 :: spaced ws))).
  { unfold commands. match goal with |- find_command _ ?l = _ => change l with (take 12 l ++ [(cs "run", cmd_run)]) end.
    apply find_command_first; [done|]. cbn [take]. repeat (apply list.Forall_cons; split; [intros [k Hk]; discriminate Hk|]). constructor. }
  unfold run_line in *. rewrite Hf. done.
Qed.

(** ** Properties *)

(** What a call of the program interface leaves behind. *)
Lemma programs_stands {A} (m : M (kw * vga) A) l attr p t s a t1 v1 attr1 p1 : stands l attr p t s →
  m (t, screen s) = Done a (t1, v1) → shows v1 p1 → paper_ok p1 → colour v1 = attr1 →
  ∃ s', with_programs m s = Done a s' ∧ stands l attr1 p1 t1 s' ∧ screen s' = v1.
Proof.
  intros [[T1 T2 T3] _ Hsys Hk] Hm Hs Hok Hc. eexists. split; [|split].
  - unfold with_programs. apply (zoom_Done _ _ _ s a (t1, v1)). by rewrite Hsys.
  - split; [by split|by split|done|done].
  - done.
Qed.

Lemma run_program fuel w n ws attr p s :
  Forall is_word ((w, n) :: ws).*1 → typed (run_line ((w, n) :: ws)) s → on_paper attr p s →
  ∃ s1, stands (run_line ((w, n) :: ws)) attr (type_text attr [10] p) (sys s) s1 ∧
    shell_handle_key fuel 10 s =
      ((pid ← with_programs (spawn w (take 15 ((w, n) :: ws).*1));
        if u64 pid =? u64 (-1) then colours RED ;; say (nl "run: failed to start %s") [AStr (Some w)] ;; colours WHITE
        else say [10] [] ;; with_programs (wait_for pid)) ;; next_prompt) s1.
Proof.
  intros Hw Ht Hp. assert (Hl : Forall (λ c, c ≠ 0) (run_line ((w, n) :: ws))).
  { unfold run_line. apply Forall_app. split; [repeat constructor; discriminate|]. constructor; [done|].
    eapply Forall_impl; [|by apply spaced_bytes]. intros c Hc. simpl in Hc. lia. }
  destruct (enter_runs fuel _ attr p s Hl Ht Hp) as (s1 & S1 & Hrun). exists s1. split; [done|]. rewrite Hrun.
  rewrite run_entered by done. unfold cmd_run.
  assert (Hskip : skip_space (32 :: spaced ((w, n) :: ws)) = spaced ((w, n) :: ws)) by done. rewrite Hskip.
  destruct (spaced_cons w n ws) as (rest & He & Hr & _). apply list.Forall_cons in Hw as Hw'. destruct Hw' as [[Hne Hwb] _].
  change (Z.to_nat (SHELL_MAX_ARGS - 1)) with 15%nat. rewrite tokenise_words by done. rewrite He.
  destruct w as [|c w]; [done|]. cbn [app]. change (c :: w ++ rest) with ((c :: w) ++ rest). rewrite word_app by done. cbn [fst]. reflexivity.
Qed.

(** C29. The shell edits a line as on paper. Whatever keys are typed, the buffer
    holds the line they give, at most 255 characters with backspace taking one
    back, zeros behind it, and the screen shows their echo. Enter prints a new
    line and runs the first command of the table whose name the line begins
    with, on the rest of the line; a line that begins with none is quoted as
    unknown; an empty one does nothing; then the buffer is cleared and a prompt
    printed, unless the command asked for none. *)
Theorem shell_edits_line fuel ks l attr p s :
  typed l s → on_paper attr p s →
  (Forall (λ c, c ≠ 10) ks → ∃ s', handle_keys fuel ks s = Done tt s' ∧ typed (foldl edit l ks) s' ∧
     on_paper attr (type_text attr (echoes l ks) p) s' ∧ sys s' = sys s) ∧
  (l = [] → ∃ s', shell_handle_key fuel 10 s = Done tt s' ∧
     stands [] WHITE (type_text LIGHT_GREEN (cs "acorn> ") (type_text attr [10] p)) (sys s) s') ∧
  (∀ l1 name h l2 args, commands fuel = l1 ++ (name, h) :: l2 → l = name ++ args → Forall (λ c, c ≠ 0) l →
     Forall (λ c, ¬ c.1 `prefix_of` l) l1 →
     ∃ s1, stands l attr (type_text attr [10] p) (sys s) s1 ∧ shell_handle_key fuel 10 s = (h args ;; next_prompt) s1) ∧
  (l ≠ [] → Forall (λ c, 0 < c < 256) l → Forall (λ c, ¬ c.1 `prefix_of` l) (commands fuel) →
     ∃ s', shell_handle_key fuel 10 s = Done tt s' ∧
       stands [] WHITE (type_text LIGHT_GREEN (cs "acorn> ") (type_text WHITE (l ++ [10])
         (type_text LIGHT_RED (cs "Unknown command: ") (type_text attr [10] p)))) (sys s) s').
Proof.
  intros Ht Hp. split_and!.
  - intros Hks. by apply keys_edit.
  - intros ->. destruct (enter_runs fuel [] attr p s) as (s1 & S1 & ->); [constructor|done|done|].
    cbn [entered]. erewrite bind_Done by reflexivity. by eapply next_prompt_stands.
  - intros l1 name h l2 args Hc Hl Hn Hno. destruct (enter_runs fuel l attr p s Hn Ht Hp) as (s1 & S1 & ->). exists s1. split; [done|].
    assert (Hf : entered fuel l = h args); [|by rewrite Hf]. unfold entered. rewrite Hc, (find_command_first l l1 name h l2 args Hl Hno).
    destruct l; [|done]. exfalso. destruct name; [|done]. unfold commands in Hc.
    repeat (destruct l1 as [|? l1]; [discriminate Hc|]; injection Hc as _ Hc). by destruct l1.
  - intros Hne Hl Hno. destruct (enter_runs fuel l attr p s) as (s1 & S1 & ->); [|done|done|].
    { eapply Forall_impl; [|exact Hl]. intros c Hc. simpl in Hc. lia. }
    edestruct unknown_command as (s2 & H2 & S2); [exact Hne|exact Hl|exact S1|exact Hno|].
    rewrite (bind_Done _ _ _ _ _ H2). by eapply next_prompt_stands.
Qed.

(** C30. "run" starts the program the line names. On a line of "run", a space
    and words, with one or more spaces between them, Enter prints a new line
    and calls process_spawn() with the first word as the path and the words,
    the first fifteen if there are more, as the arguments. Whatever is on the
    screen when that returns, if it gave a process the shell prints a new line,
    waits for that process, and then, whatever the programs have left on the
    screen by then, clears the line and prints the prompt, from where they left
    the cursor: it is on a line of its own only if they ended theirs. If it
    gave none the shell says, in red, that it could not start the program,
    naming it, and prints the prompt without waiting. *)
Theorem shell_runs_program fuel w n ws attr p s :
  Forall is_word ((w, n) :: ws).*1 → typed (run_line ((w, n) :: ws)) s → on_paper attr p s →
  ∃ v0, shows v0 (type_text attr [10] p) ∧ colour v0 = attr ∧
    ∀ pid t1 v1 p1, spawn w (take 15 ((w, n) :: ws).*1) (sys s, v0) = Done pid (t1, v1) → shows v1 p1 → paper_ok p1 →
      (u64 pid ≠ u64 (-1) →
         ∃ v2, shows v2 (type_text (colour v1) [10] p1) ∧ colour v2 = colour v1 ∧
           ∀ t3 v3 p3, wait_for pid (t1, v2) = Done tt (t3, v3) → shows v3 p3 → paper_ok p3 →
             ∃ s', shell_handle_key fuel 10 s = Done tt s' ∧
               stands [] WHITE (type_text LIGHT_GREEN (cs "acorn> ") p3) t3 s') ∧
      (u64 pid = u64 (-1) →
         ∃ s', shell_handle_key fuel 10 s = Done tt s' ∧
           stands [] WHITE (type_text LIGHT_GREEN (cs "acorn> ")
             (type_text RED (cs "run: failed to start " ++ w ++ [10]) p1)) t1 s').
Proof.
  intros Hw Ht Hp. pose proof (ty_length _ _ Ht) as Hlen.
  destruct (run_program fuel w n ws attr p s Hw Ht Hp) as (s1 & S1 & Hrun). rewrite Hrun.
  set (l := run_line ((w, n) :: ws)) in *. exists (screen s1). split; [apply S1|]. split; [apply S1|].
  intros pid t1 v1 p1 Hsp Hv1 Hp1.
  destruct (programs_stands _ _ _ _ _ _ _ _ _ _ _ S1 Hsp Hv1 Hp1 eq_refl) as (s2 & H2 & S2 & <-).
  assert (Hstep : ∀ X : Z → M shell unit, ((pid ← with_programs (spawn w (take 15 ((w, n) :: ws).*1)); X pid) ;; next_prompt) s1 = (X pid ;; next_prompt) s2).
  { intros X. by rewrite bind_assoc, (bind_Done _ _ _ _ _ H2). }
  rewrite Hstep. split.
  - intros Hpid. rewrite (proj2 (Z.eqb_neq _ _) Hpid).
    destruct (say_stands [10] [] [10] l (colour (screen s2)) p1 t1 s2) as (s3 & H3 & S3);
      [repeat constructor; by_compute|constructor|reflexivity|repeat constructor; discriminate|simpl; lia|exact S2|].
    exists (screen s3). split; [apply S3|]. split; [apply S3|]. intros t3 v3 p3 Hwait Hv3 Hp3.
    destruct (programs_stands _ _ _ _ _ _ _ _ _ _ _ S3 Hwait Hv3 Hp3 eq_refl) as (s4 & H4 & S4 & _).
    rewrite bind_assoc, (bind_Done _ _ _ _ _ H3), (bind_Done _ _ _ _ _ H4). eapply next_prompt_stands. exact S4.
  - intros Hpid. rewrite Hpid, Z.eqb_refl.
    assert (Hwl : (length w <= 255)%nat).
    { unfold l, run_line in Hlen. destruct (spaced_cons w n ws) as (rest & He & _). rewrite He, !length_app in Hlen. simpl in Hlen.
      rewrite length_app in Hlen. lia. }
    apply list.Forall_cons in Hw as [[_ Hwb] _]. cbn [fst] in Hwb.
    edestruct (colours_stands RED) as (s3 & H3 & S3); [by by_compute|exact S2|].
    edestruct (quote_stands "run: failed to start " w [10]) as (s4 & H4 & S4);
      [repeat constructor; by_compute|repeat constructor; by_compute|eapply Forall_impl; [|exact Hwb]; naive_solver|simpl; lia|exact S3|].
    edestruct (colours_stands WHITE) as (s5 & H5 & S5); [by by_compute|exact S4|].
    rewrite (bind_assoc (colours RED)), (bind_Done _ _ _ _ _ H3). change (nl "run: failed to start %s") with (cs "run: failed to start " ++ cs "%s" ++ [10]).
    rewrite bind_assoc, (bind_Done _ _ _ _ _ H4), (bind_Done _ _ _ _ _ H5). eapply next_prompt_stands. exact S5.
Qed.

End Shell.

(** * Witnesses *)

(** A program that prints "hi", without a newline, before it exits. *)
Definition demo_programs : Programs :=
  {| spawn := λ path argv s, Done (Z.of_nat (length argv)) s;
     wait_for := λ _, zoom snd (λ v s, (s.1, v)) (vga_print (cs "hi")) |}.

Lemma demo_wait pid t v v' : vga_print (cs "hi") v = Done tt v' → wait_for (Programs := demo_programs) pid (t, v) = Done tt (t, v').
Proof. intros H. exact (zoom_Done snd _ _ (t, v) tt v' H). Qed.

(** A line just typed at the top of a blank screen. *)
Definition demo_shell (l : list Z) : shell :=
  Shell (demo_kernel, demo_start) demo_screen (l ++ replicate (256 - length l) 0) (Z.of_nat (length l)) 0.

Lemma demo_typed l : (length l <= 255)%nat → typed l (demo_shell l).
Proof. by split. Qed.

Lemma demo_on_paper l : on_paper WHITE (blank_paper WHITE) (demo_shell l).
Proof. split; [apply demo_shows|apply blank_ok|done]. Qed.

Lemma shell_edits_line_witness :
  ∃ s', handle_keys (FS := demo_filesystems) (PR := demo_programs) (replicate 1024 7) 0x9000 3 (cs "lz" ++ [8] ++ cs "s") (demo_shell []) = Done tt s' ∧
    typed (cs "ls") s'.
Proof.
  destruct (shell_edits_line (FS := demo_filesystems) (PR := demo_programs) (replicate 1024 7) 0x9000 eq_refl 3 (cs "lz" ++ [8] ++ cs "s") []
    WHITE (blank_paper WHITE) (demo_shell []) (demo_typed [] ltac:(simpl; lia)) (demo_on_paper [])) as [H _].
  destruct H as (s' & Hrun & Ht & _); [repeat constructor; discriminate|]. exists s'. split; [exact Hrun|exact Ht].
Defined.

Lemma shell_runs_program_witness :
  ∃ s', shell_handle_key (FS := demo_filesystems) (PR := demo_programs) (replicate 1024 7) 0x9000 3 10 (demo_shell (cs "run snake  fast ")) = Done tt s' ∧
    stands [] WHITE (type_text LIGHT_GREEN (cs "acorn> ") (type_text WHITE (cs "hi") (type_text WHITE [10] (type_text WHITE [10]
      (blank_paper WHITE))))) (demo_kernel, demo_start) s'.
Proof.
  assert (Hl : cs "run snake  fast " = run_line [(cs "snake", 1%nat); (cs "fast", 1%nat)]) by reflexivity.
  destruct (shell_runs_program (FS := demo_filesystems) (PR := demo_programs) (replicate 1024 7) 0x9000 eq_refl 3 (cs "snake") 1 [(cs "fast", 1%nat)]
    WHITE (blank_paper WHITE) (demo_shell (cs "run snake  fast "))) as (v0 & Hv0 & Hc0 & H).
  - repeat constructor; discriminate.
  - rewrite <- Hl. apply demo_typed. simpl. lia.
  - apply demo_on_paper.
  - destruct (vga_print_shows [10] demo_screen (blank_paper WHITE) (blank_ok WHITE) demo_shows) as (_ & _ & _ & Hok1 & _).
    destruct (H 2 (demo_kernel, demo_start) v0 (type_text WHITE [10] (blank_paper WHITE)) eq_refl Hv0 Hok1) as [Hrun _].
    destruct Hrun as (v2 & Hv2 & Hc2 & Hrun); [discriminate|]. rewrite Hc0 in *.
    destruct (vga_print_shows [10] v0 _ Hok1 Hv0) as (_ & _ & _ & Hok2 & _). rewrite Hc0 in Hok2.
    destruct (vga_print_shows (cs "hi") v2 _ Hok2 Hv2) as (v3 & H3 & Hv3 & Hok3 & _).
    rewrite Hc2 in *. destruct (Hrun (demo_kernel, demo_start) v3 _ (demo_wait 2 _ v2 v3 H3) Hv3 Hok3) as (s' & Hs & S').
    exists s'. split; [exact Hs|exact S'].
Defined.
