(* ===== verification/Hello.v ===== *)
(** The demonstration program: apps/hello/hello.c.

    A program sees the user library and the kernel through the interfaces
    [Libc] of Stdio, [Unix] (the other system calls) and [Memory] (its own
    bytes); what an uninitialised local array of n bytes holds is
    [garbage n]. The program is run here in a small reference environment:
    files that are lists of bytes, and the allocator of Malloc on its bytes. *)

From S2P Require Import Prelude CString Kprintf Phys Descriptors Malloc Stdio.

(** * What the program calls *)

Class Unix (W : Type) := {
  seek : Z → Z → Z → M W Z;
  getpid : M W Z;
  yield : M W unit;
  fork : M W Z;
  wait : M W Z;
  (** exit() comes back to nobody: what is run behind it is nothing. *)
  exit : Z → M W unit;
  sleep : Z → M W unit;
  usleep : Z → M W unit;
}.

Class Memory (W : Type) := {
  peek : Z → M W Z;
  poke : Z → Z → M W unit;
  (** the characters from an address up to the first NUL *)
  string_at : Z → M W (list Z);
}.

(** A string literal, and the line that ends in a newline. *)
Definition lit (s : string) : list Z := cs s ++ [0].
Definition line (s : string) : list Z := cs s ++ [10; 0].

(** The string an array holds, and a[i]. *)
Definition string_in (a : list Z) : option (list Z) := n ← strlen a; Some (take (Z.to_nat n) a).
Definition elem {W} (a : list Z) (i : Z) : M W Z :=
  if i <? 0 then fault else access (a !! Z.to_nat i).
Definition set_elem {W} (a : list Z) (i c : Z) : M W (list Z) :=
  if (0 <=? i) && (i <? Z.of_nat (length a)) then mret (<[Z.to_nat i := c]> a) else fault.

Section Hello.
Context {W : Type} `{!Libc W} `{!Unix W} `{!Memory W} (garbage : nat → list Z).

Definition say (fmt : list Z) (args : list arg) : M W unit := printf (garbage 1024) fmt args ;; mret tt.

Definition str (s : list Z) : arg := AStr (Some s).

(** * The tests: the result tells whether the process goes on *)

Fixpoint show_args (i : Z) (argv : list (list Z)) : M W unit :=
  match argv with
  | [] => mret tt
  | a :: argv => say (line "argv[%d]=%s") [AInt i; str a] ;; show_args (i + 1) argv
  end.

Definition test_argv (argv : list (list Z)) : M W bool :=
  say (line "argc=%d") [AInt (Z.of_nat (length argv))] ;;
  show_args 0 argv ;;
  mret true.

Definition test_printf (argv : list (list Z)) : M W bool :=
  say (line "int=%d neg=%d, hex=%lx str=%s char=%c pct=%%")
    [AInt 42; AInt (-7); AInt 0xCAFE; str (cs "world"); AInt 81] ;;
  mret true.

Definition test_string (argv : list (list Z)) : M W bool :=
  buf ← access (strcpy (garbage 32) (lit "hello"));
  n ← access (strlen buf); s ← access (string_in buf);
  eq ← access (strcmp buf (lit "hello")); ne ← access (strcmp buf (lit "world"));
  say (line "strlen=%d strcpy=%s cmp_eq=%d cmp_ne=%d") [AInt (i32 n); str s; AInt eq; AInt ne] ;;
  buf ← access (memset buf 120 4);
  buf ← set_elem buf 4 0;
  s ← access (string_in buf);
  say (line "memset=%s") [str s] ;;
  dst ← access (memcpy (garbage 8) (lit "copy!") 6);
  s ← access (string_in dst); eq ← access (memcmp dst (lit "copy!") 6);
  say (line "memcpy=%s memcmp_eq=%d") [str s; AInt eq] ;;
  mret true.

(** read() into an array. *)
Definition read_array (fd : Z) (a : list Z) (n : Z) : M W (Z * list Z) :=
  '(r, data) ← sys_read fd n; a ← access (blit a data 0); mret (r, a).

Definition test_fileio (argv : list (list Z)) : M W bool :=
  pid ← getpid; say (line "pid=%d") [AInt pid] ;;
  fd ← sys_open (cs "/temp/trunc.txt") O_RDONLY;
  say (line "open(trunc.txt)=%d") [AInt fd] ;;
  (if fd >=? 0 then
     pos ← seek fd 0 0;
     say (line "seek=%d") [AInt pos] ;;
     sys_close fd ;; mret tt
   else mret tt) ;;
  wfd ← sys_open (cs "/temp/iotest.txt") (Z.lor (Z.lor O_WRONLY O_CREAT) O_TRUNC);
  wn ← sys_write wfd (cs "roundtrip");
  sys_close wfd ;;
  say (line "file write: fd=%d n=%d") [AInt wfd; AInt (i32 wn)] ;;
  rfd ← sys_open (cs "/temp/iotest.txt") O_RDONLY;
  '(rn, iobuf) ← read_array rfd (garbage 16) 9;
  iobuf ← set_elem iobuf rn 0;
  sys_close rfd ;;
  s ← access (string_in iobuf);
  say (line "file read: fd=%d n=%d data=%s") [AInt rfd; AInt (i32 rn); str s] ;;
  bad_fd ← sys_open (cs "/temp/does_not_exist.txt") O_RDONLY;
  say (line "open(missing)=%d") [AInt bad_fd] ;;
  mret true.

(** A FILE* that was not tested: NULL faults when it is used. *)
Definition the_file (o : option (Z * FILE)) : M W (Z * FILE) := access o.

Fixpoint fwrite_times (n : nat) (src : list Z) (f : FILE) : M W FILE :=
  match n with
  | O => mret f
  | S n => '(_, f) ← fwrite src 1 (Z.of_nat (length src)) f; fwrite_times n src f
  end.

(** while((got = fread(buf + total, 1, 100, f)) > 0) total += got; *)
Fixpoint read_all (fuel : nat) (buf : list Z) (total : Z) (f : FILE) : M W (list Z * Z * FILE) :=
  match fuel with
  | O => diverge
  | S fuel =>
      '(got, rest, f) ← fread (drop (Z.to_nat total) buf) 1 100 f;
      let buf := take (Z.to_nat total) buf ++ rest in
      if got >? 0 then read_all fuel buf (total + got) f else mret (buf, total, f)
  end.

Definition chars (a : list Z) (i : Z) : M W (list arg) :=
  c0 ← elem a i; c1 ← elem a (i + 1); c2 ← elem a (i + 2); c3 ← elem a (i + 3); c4 ← elem a (i + 4);
  mret [AInt c0; AInt c1; AInt c2; AInt c3; AInt c4].

Definition test_stdio (argv : list (list Z)) : M W bool :=
  wf ← fopen (cs "/temp/stdio_test.txt") 119 (garbage 512);
  say (line "fopen(w) ok=%d") [AInt (match wf with Some _ => 1 | None => 0 end)] ;;
  '(wp, f) ← the_file wf;
  '(_, f) ← fwrite (cs "HEAD-") 1 5 f;
  f ← fwrite_times 60 (cs "AAAAAAAAAA") f;
  '(_, f) ← fwrite (cs "-TAIL") 1 5 f;
  fclose wp f ;;
  rf ← fopen (cs "/temp/stdio_test.txt") 114 (garbage 512);
  '(rp, f) ← the_file rf;
  '(stdio_buf, stdio_total, f) ← read_all 702 (garbage 700) 0 f;
  stdio_buf ← set_elem stdio_buf stdio_total 0;
  fclose rp f ;;
  head ← chars stdio_buf 0; tail ← chars stdio_buf (stdio_total - 5);
  say (line "stdio len=%d head=%c%c%c%c%c tail=%c%c%c%c%c") (AInt (i32 stdio_total) :: head ++ tail) ;;
  af ← fopen (cs "/temp/stdio_test.txt") 97 (garbage 512);
  '(ap, f) ← the_file af;
  '(_, f) ← fwrite (cs "+MORE") 1 5 f;
  fclose ap f ;;
  rf2 ← fopen (cs "/temp/stdio_test.txt") 114 (garbage 512);
  '(rp, f) ← the_file rf2;
  '(append_buf, append_total, f) ← read_all 722 (garbage 720) 0 f;
  append_buf ← set_elem append_buf append_total 0;
  fclose rp f ;;
  tail ← chars append_buf (append_total - 5);
  say (line "append len=%d tail=%c%c%c%c%c") (AInt (i32 append_total) :: tail) ;;
  mret true.

(** strcpy() to memory that malloc() gave. *)
Fixpoint copy_to (p : Z) (s : list Z) : M W unit :=
  match s with [] => mret tt | c :: s => poke p c ;; copy_to (p + 1) s end.

Definition test_malloc (argv : list (list Z)) : M W bool :=
  a ← sys_malloc 32;
  copy_to a (lit "malloc works") ;;
  s ← string_at a; say (line "malloc a=%s") [str s] ;;
  b ← sys_malloc 32;
  copy_to b (lit "second block") ;;
  s ← string_at b; s' ← string_at a; say (line "malloc b=%s a_still=%s") [str s; str s'] ;;
  sys_free a ;;
  c ← sys_malloc 32;
  say (line "reuse: c==a? %d") [AInt (if c =? a then 1 else 0)] ;;
  copy_to c (lit "reused block") ;;
  s ← string_at c; say (line "malloc c=%s") [str s] ;;
  big ← sys_malloc 9000;
  for_up (Z.to_nat 9000) 0 (λ i, poke (big + i) 122) ;;
  poke (big + 8999) 0 ;;
  s ← string_at big; first ← peek big; last ← peek (big + 8998);
  say (line "big len=%d first=%c last=%c") [AInt (i32 (Z.of_nat (length s))); AInt first; AInt last] ;;
  sys_free b ;; sys_free c ;; sys_free big ;;
  merged ← sys_malloc 64;
  copy_to merged (lit "coalesced ok") ;;
  s ← string_at merged; say (line "coalesed=%s") [str s] ;;
  sys_free merged ;;
  mret true.

Definition test_proc (argv : list (list Z)) : M W bool :=
  yield ;; say (line "yield OK!") [] ;;
  pid ← fork;
  if pid =? 0 then
    self ← getpid; say (line "child pid=%d") [AInt self] ;;
    exit 42 ;; mret false
  else
    self ← getpid; say (line "parent pid=%d child=%d") [AInt self; AInt (i32 pid)] ;;
    status ← wait; say (line "wait returned=%d") [AInt status] ;;
    mret true.

Definition test_sleep (argv : list (list Z)) : M W bool :=
  self ← getpid; say (line "pid=%d sleeping 1 second...") [AInt self] ;;
  sleep 1 ;; say (line "awake after sleep(1)") [] ;;
  say (line "sleeping 200ms via usleep...") [] ;;
  usleep 200000 ;; say (line "awake after usleep(200000)") [] ;;
  mret true.

(** * The table of tests, and main() *)

Record test_t := Test { t_name : list Z; fn : list (list Z) → M W bool; run_in_all : bool }.

Definition tests : list test_t := [
  Test (cs "argv") test_argv true; Test (cs "printf") test_printf true; Test (cs "string") test_string true;
  Test (cs "fileio") test_fileio true; Test (cs "stdio") test_stdio true; Test (cs "malloc") test_malloc true;
  Test (cs "proc") test_proc true; Test (cs "sleep") test_sleep false].

Definition run_test (t : test_t) (argv : list (list Z)) : M W bool :=
  say (line "--- %s ---") [str (t_name t)] ;; fn t argv.

(** for(i = 0; tests[i].name; i++) if(tests[i].run_in_all) run_test(...); *)
Fixpoint run_all (ts : list test_t) (argv : list (list Z)) : M W bool :=
  match ts with
  | [] => mret true
  | t :: ts =>
      if run_in_all t then go ← run_test t argv; if (go : bool) then run_all ts argv else mret false
      else run_all ts argv
  end.

(** The loop of one test by name: whether the process goes on, and [found]. *)
Fixpoint run_named (ts : list test_t) (which : list Z) (argv : list (list Z)) : M W (bool * bool) :=
  match ts with
  | [] => mret (true, false)
  | t :: ts =>
      d ← access (strcmp (which ++ [0]) (t_name t ++ [0]));
      if d =? 0 then go ← run_test t argv; mret (go, true) else run_named ts which argv
  end.

Fixpoint show_names (ts : list test_t) : M W unit :=
  match ts with [] => mret tt | t :: ts => say (lit " %s") [str (t_name t)] ;; show_names ts end.

Definition unknown_test (which : list Z) : M W unit :=
  say (lit "unknown test '%s'. available:") [str which] ;; show_names tests ;; say (line " all") [].

(** main(): its status, unless the process has gone. *)
Definition main (argv : list (list Z)) : M W (option Z) :=
  say (line "=== acornlib test ===") [] ;;
  which ← (if Z.of_nat (length argv) >? 1 then access (argv !! 1%nat) else mret (cs "all"));
  d ← access (strcmp (which ++ [0]) (lit "all"));
  go ← (if d =? 0 then run_all tests argv
        else
          '(go, found) ← run_named tests which argv;
          (if found : bool then mret tt else unknown_test which) ;; mret go);
  if (go : bool) then say (line "=== done ===") [] ;; mret (Some 0) else mret None.
End Hello.

(** * Which tests main() runs *)

Section Selection.
Context {W : Type} `{!Libc W} `{!Unix W} `{!Memory W} (garbage : nat → list Z).

(** The name the command line gives, "all" if it gives none. *)
Definition asked (argv : list (list Z)) : list Z := default (cs "all") (argv !! 1%nat).

(** All the tests of the table meant for it, or the one of that name. *)
Definition selected (which : list Z) : option (list test_t) :=
  if decide (which = cs "all") then Some (filter (λ t, run_in_all t = true) (tests garbage))
  else (λ t, [t]) <$> find (λ t, bool_decide (which = t_name t)) (tests garbage).

Fixpoint run_each (ts : list test_t) (argv : list (list Z)) : M W bool :=
  match ts with
  | [] => mret true
  | t :: ts => go ← run_test garbage t argv; if (go : bool) then run_each ts argv else mret false
  end.

Lemma run_all_each ts argv : ∀ w, run_all garbage ts argv w = run_each (filter (λ t, run_in_all t = true) ts) argv w.
Proof.
  induction ts as [|t ts IH]; intros w; [done|]. cbn [run_all]. rewrite filter_cons.
  destruct (run_in_all t); rewrite ?decide_True, ?decide_False by done; [|apply IH].
  cbn [run_each]. apply bind_ext. intros [] w'; [apply IH|done].
Qed.

Definition c_string (s : list Z) : Prop := Forall (λ c, 0 < c < 256) s.

Lemma strcmp_same s t : c_string s → c_string t → ∃ d, strcmp (s ++ [0]) (t ++ [0]) = Some d ∧ (d = 0 ↔ s = t).
Proof.
  intros Hs Ht. destruct (strcmp_spec (s ++ [0]) (t ++ [0]) s t) as (d & H & E & _); [by split; [|exists []]..|]. by exists d.
Qed.

Lemma run_named_finds ts which argv : c_string which → Forall (λ t, c_string (t_name t)) ts → ∀ w,
  run_named garbage ts which argv w =
    match find (λ t, bool_decide (which = t_name t)) ts with
    | Some t => (go ← run_test garbage t argv; mret (go, true)) w
    | None => Done (true, false) w
    end.
Proof.
  intros Hw Hts w. induction Hts as [|t ts Ht _ IH]; [done|]. cbn [run_named find].
  destruct (strcmp_same which (t_name t) Hw Ht) as (d & -> & Hd). cbn [access]. rewrite bind_ret.
  case_bool_decide as E; [by rewrite (proj2 (Z.eqb_eq d 0)) by tauto|]. rewrite (proj2 (Z.eqb_neq d 0)) by tauto. apply IH.
Qed.

Lemma tests_named : Forall (λ t, c_string (t_name t)) (tests garbage).
Proof. repeat constructor. Qed.

(** hello runs, in the order of the table, the tests meant for every run when
    the first argument is absent or "all", and else the first test of that
    name, or lists the names. "=== done ===" is printed and 0 returned
    unless a test has ended the process. *)
Lemma hello_selects argv w : Forall c_string argv →
  main garbage argv w =
    (say garbage (line "=== acornlib test ===") [] ;;
     go ← match selected (asked argv) with
          | Some ts => run_each ts argv
          | None => unknown_test garbage (asked argv) ;; mret true
          end;
     if (go : bool) then say garbage (line "=== done ===") [] ;; mret (Some 0) else mret None) w.
Proof.
  intros Hargv. unfold main. apply bind_ext. intros [] w1.
  assert ((if Z.of_nat (length argv) >? 1 then access (argv !! 1%nat) else mret (cs "all")) = mret (asked argv) :> M W _) as ->.
  { unfold asked. destruct argv as [|p [|a argv]]; [done..|]. cbn [length lookup list_lookup access default option_map from_option].
    destruct (Z.gtb_spec (Z.of_nat (S (S (length argv)))) 1); [done|lia]. }
  rewrite bind_ret. assert (Hall : c_string (cs "all")) by repeat constructor.
  assert (Hw : c_string (asked argv)).
  { unfold asked. destruct (argv !! 1%nat) as [a|] eqn:Ha; [|done]. by apply (proj1 (Forall_lookup _ _) Hargv 1%nat). }
  destruct (strcmp_same (asked argv) (cs "all") Hw Hall) as (d & Hd & E). unfold lit. rewrite Hd. cbn [access]. rewrite bind_ret.
  unfold selected. destruct (decide (asked argv = cs "all")) as [Ea|Ea].
  - rewrite (proj2 (Z.eqb_eq d 0)) by tauto. unfold mbind at 1 3, M_bind. by rewrite run_all_each.
  - rewrite (proj2 (Z.eqb_neq d 0)) by tauto. rewrite bind_assoc. unfold mbind at 1, M_bind at 1.
    rewrite run_named_finds by (done || apply tests_named).
    destruct (find _ _) as [t|]; cbn [fmap option_fmap option_map run_each].
    + unfold mbind, M_bind. by destruct (run_test _ t argv w1) as [[]| | |].
    + unfold mbind, M_bind, mret, M_ret. by destruct (unknown_test _ _ w1) as [[]| | |].
Qed.
End Selection.

(** * A reference environment *)

(** Files by path, the open ones by descriptor with their position, what was
    written to descriptor 1, the heap of the process, whether fork() is seen
    from the child, and the status it ended with. *)
Record machine := Machine {
  m_files : gmap (list Z) (list Z); m_fds : gmap Z (list Z * Z); m_screen : list Z;
  m_heap : uheap; m_child : bool; m_exit : option Z }.

Definition with_store f d (m : machine) : machine := Machine f d (m_screen m) (m_heap m) (m_child m) (m_exit m).

Definition m_open (path : list Z) (flags : Z) : M machine Z := λ m,
  let fd := 3 + Z.of_nat (size (m_fds m)) in
  let opened c := Done fd (with_store (<[path := c]> (m_files m)) (<[fd := (path, 0)]> (m_fds m)) m) in
  match m_files m !! path with
  | Some c => opened (if flag flags O_TRUNC then [] else c)
  | None => if flag flags O_CREAT then opened [] else Done (-1) m
  end.

Definition m_write (fd : Z) (bs : list Z) : M machine Z := λ m,
  let n := Z.of_nat (length bs) in
  if fd =? 1 then Done n (Machine (m_files m) (m_fds m) (m_screen m ++ bs) (m_heap m) (m_child m) (m_exit m))
  else match m_fds m !! fd with
       | Some (path, _) => Done n (with_store (<[path := default [] (m_files m !! path) ++ bs]> (m_files m)) (m_fds m) m)
       | None => Done (-1) m
       end.

Definition m_read (fd n : Z) : M machine (Z * list Z) := λ m,
  match m_fds m !! fd with
  | Some (path, pos) =>
      let bs := take (Z.to_nat n) (drop (Z.to_nat pos) (default [] (m_files m !! path))) in
      let got := Z.of_nat (length bs) in
      Done (got, bs) (with_store (m_files m) (<[fd := (path, pos + got)]> (m_fds m)) m)
  | None => Done (-1, []) m
  end.

Definition in_heap {A} : M uheap A → M machine A :=
  zoom m_heap (λ h m, Machine (m_files m) (m_fds m) (m_screen m) h (m_child m) (m_exit m)).

#[export] Instance machine_libc : Libc machine := {
  sys_open := m_open; sys_read := m_read; sys_write := m_write;
  sys_close fd := modify (λ m, with_store (m_files m) (delete fd (m_fds m)) m) ;; mret 0;
  sys_malloc n := in_heap (malloc 20 n);
  sys_free p := in_heap (free p);
}.

Fixpoint read_string (fuel : nat) (p : Z) : M uheap (list Z) :=
  match fuel with
  | O => diverge
  | S fuel => c ← rd p (0, 1%nat); if c =? 0 then mret [] else s ← read_string fuel (p + 1); mret (c :: s)
  end.

#[export] Instance machine_memory : Memory machine := {
  peek p := in_heap (rd p (0, 1%nat));
  poke p c := in_heap (wr p (0, 1%nat) c);
  string_at p := in_heap (read_string (Z.to_nat 10000) p);
}.

#[export] Instance machine_unix : Unix machine := {
  seek fd offset whence := mret 0;
  getpid := gets (λ m, if m_child m then 8 else 7);
  yield := mret tt;
  fork := gets (λ m, if m_child m then 0 else 8);
  wait := mret 42;
  exit st := modify (λ m, Machine (m_files m) (m_fds m) (m_screen m) (m_heap m) (m_child m) (Some st));
  sleep _ := mret tt;
  usleep _ := mret tt;
}.

Definition fresh_machine (child : bool) : machine := Machine ∅ ∅ [] (Uheap ∅ 0x401000 0x401000 0) child None.

Definition screen_of {A} (o : outcome machine A) : option (list Z) :=
  match o with Done _ m => Some (m_screen m) | _ => None end.

(** * The demonstration succeeds *)

Definition lines (ls : list string) : list Z := mjoin ((λ s, cs s ++ [10]) <$> ls).

(** What a run of "hello" prints, for three contents [u] of the uninitialised
    arrays: the files read back as they were written over several
    buffers, the freed block is handed out again, the merged ones are large
    enough. *)
Definition transcript : list Z := lines [
  "=== acornlib test ==="; "--- argv ---"; "argc=1"; "argv[0]=hello";
  "--- printf ---"; "int=42 neg=-7, hex=cafe str=world char=Q pct=%";
  "--- string ---"; "strlen=5 strcpy=hello cmp_eq=0 cmp_ne=-15"; "memset=xxxx"; "memcpy=copy! memcmp_eq=0";
  "--- fileio ---"; "pid=7"; "open(trunc.txt)=-1"; "file write: fd=3 n=9"; "file read: fd=3 n=9 data=roundtrip"; "open(missing)=-1";
  "--- stdio ---"; "fopen(w) ok=1"; "stdio len=610 head=HEAD- tail=-TAIL"; "append len=615 tail=+MORE";
  "--- malloc ---"; "malloc a=malloc works"; "malloc b=second block a_still=malloc works"; "reuse: c==a? 1";
  "malloc c=reused block"; "big len=8999 first=z last=z"; "coalesed=coalesced ok";
  "--- proc ---"; "yield OK!"; "parent pid=7 child=8"; "wait returned=42"; "=== done ==="]%string.

Lemma hello_transcript : ∀ u, u ∈ [0; 170; 255] →
  match main (λ n, replicate n u) [cs "hello"] (fresh_machine false) with
  | Done (Some 0) m => bool_decide (m_screen m = transcript ∧ m_fds m = ∅)
  | _ => false
  end = true.
Proof. intros u Hu. rewrite !elem_of_cons, elem_of_nil in Hu. destruct Hu as [->|[->|[->|[]]]]; vm_compute; reflexivity. Qed.

(** The child of the last test ends with 42 and prints nothing more. *)
Lemma hello_child_exits :
  match main (λ n, replicate n 0) [cs "hello"; cs "proc"] (fresh_machine true) with
  | Done None m => bool_decide (m_exit m = Some 42 ∧
      m_screen m = lines ["=== acornlib test ==="; "--- proc ---"; "yield OK!"; "child pid=8"]%string)
  | _ => false
  end = true.
Proof. vm_compute. reflexivity. Qed.
